(* ===== verification/_CoqProject ===== *)
-Q . S2P
Prelude.v
Names.v
Signature.v
Iterator.v
Values.v
Buffer.v
Flip.v
Sha1.v
Text.v
MatchRule.v
Message.v
Header.v
Factory.v
Server.v
Registry.v
Dispatch.v
Auth.v
Receive.v
Bus.v
Queues.v
Checks.v
Stream.v
Hash.v
DList.v
Objects.v
Introspect.v
Client.v
Pending.v
Watching.v
Connection.v
Answering.v
Properties.v
Signals.v
Unbinding.v
Teardown.v
Address.v
Containers.v
Queue.v
Clone.v
Shutdown.v
Delivery.v
Announce.v
NameChanges.v
Logging.v
Threads.v
