(* ===== verification/Prelude.v ===== *)
(** * adbus: a D-Bus library and bus daemon, verified

    adbus implements the D-Bus message bus in C: marshalling, the connection
    of a client, and the server behind a bus daemon.  This library models the
    core of src/adbus and the headers it is built on (src/include/c), and
    proves what they promise.

    ** Files

    - [Prelude]: outcomes of C functions (return, error code, failed assert,
      access out of bounds, no fuel), the state monad over them, a weakest
      precondition with its rules and hints, bytes, alignment, lists.
    - [Names] (misc.c): validators of paths and names, paths as lists of
      components.
    - [Signature] (adbus.h, misc.c): type codes, alignment, [adbus_nextarg];
      the tree of types.
    - [Iterator] (adbus-iterator.h, riterator.c) and [Values]: the cursor over
      marshalled data, typed values and their reference encoding.
    - [Buffer] (rbuffer.c): the writer.  [Flip] (riterator.c): changing the
      endianness in place.  [Text]: printf and decimal numbers.
    - [Sha1] (sha1.c), [Auth] (auth.c): the SASL exchange of both sides.
    - [MatchRule] (server.c, misc.c): the rule language and its printer.
    - [Message] (parse.c) and [Factory] (message.c): reading and building
      messages; [Header] (parse.c): what the bytes of a header say.
    - [Server], [Registry] (server.c): remotes and names of the bus, and the
      map of owners they implement; [Shutdown] (server.c): freeing the server.
    - [Dispatch] (server-dispatch.c), [Receive] (server-parse.c), [Bus]
      (server-bus.c, with the argument checks of riterator.c and the replies
      of messages.c): what the bus does with a message, with the bytes of a
      remote, and with the calls of its own methods.  [Queues] (server.c,
      server-bus.c): the abstract queues of names, and the methods with any
      arguments and flags on top of them.
    - [Hash] (dmem/hash.h): the hash tables; [DList] (dmem/list.h): the
      intrusive lists, in a heap of handles.
    - [Objects] (bind.c, interface.c): the objects a connection exports and
      the interfaces they are made of; [Introspect] (interface.c): their XML.
    - [Client] (reply.c, match.c, client-service.c, state.c, proxy.c, bus.c,
      and the sending half of connection.c): the state of a client and what
      registers with it.  [Pending] (reply.c, client-service.c): the replies
      it waits for; [Watching] (match.c): its matches, its serials and the
      owners of services it follows.
    - [Checks] (riterator.c, misc.c): the argument checks of handlers and the
      errors of the library; [Connection] (connection.c, interface.c, bind.c):
      the dispatch of a message, the handlers of the built-in interfaces;
      [Answering]: what is sent for a call; [Properties]: reading a property;
      [Stream] (connection.c): cutting messages out of a stream.
    - [Signals] (signal.c): emitting signals.  [Unbinding], [Teardown]
      (connection.c, bind.c): freeing a connection.
    - [Address] (socket.c): addresses of buses, and sockets.
    - [Containers] (dmem/vector.h, dmem/string.h, dmem/string.c,
      dmem/istring.h, dmem/istring.c), [Queue] (dmem/queue.h): vectors,
      strings and ring buffers.  [Clone] (parse.c): copying a message.
    - [Delivery] (server-bus.c, server-parse.c): the messages the bus sends
      itself; [Announce] (server-bus.c): its interface, and the signals for a
      name that changes its owner; [NameChanges] (server.c): the operations on
      names with these signals sent from within them.
    - [Logging] (debug.c, misc.c): messages and registrations as text, and the
      header of each line.
    - [Threads] (state.c, connection.c): states on any thread, binds that are
      made through a state, and what is handed over to the connection.

    ** How the parts meet

    The bus reads bytes of a remote ([Receive]), which first pass the
    authentication ([Auth]); each message is parsed ([Message], over [Iterator]
    and [Signature]), its sender field is replaced (over [Buffer]), and it is
    routed ([Dispatch]) by the rules ([MatchRule]) and names ([Server]) of the
    remotes.  Messages to the bus itself reach [Bus], whose handlers change
    [Server] and answer with messages of [Factory].  A client cuts
    the bytes it reads into messages as well ([Stream]) and hands each to
    [Connection]: a reply goes to the registration that waits for it
    ([Pending]), every message to the matches ([Watching]), and a call to the
    callback that [Objects] finds or to the handlers of the built-in
    interfaces, which use [Introspect], [Checks] and [Objects]; the reply
    leaves through the factory and the callback that sends ([Answering]).  The
    bus is a client too: its signals are made by [Signals], sent by its own
    connection and routed like the messages of a remote ([Delivery],
    [Announce]).
    [Objects.Conn] is a part of [Client.Client]: operations on it are lifted
    by the class [Part] of this file, and so are those of the bus on
    [Server.Server].  The handlers of a client and of the bus share one monad
    for argument checks that jump out of a callback.  Each file requires those
    whose operations it calls and uses their lemmas.

    ** What is shown

    Round trips: what the buffer writes the iterator reads ([Buffer]), a built
    message parses to its fields ([Factory]), a printed rule parses back
    ([MatchRule]), rules added by a client are in the bus afterwards ([Bus]).
    Exact grammars of names, paths, signatures and rules.  Refinement: hash
    tables implement finite maps ([Hash]), the intrusive lists lists ([DList]), the bus's table of names an abstract
    map of owners ([Registry]), the tree of objects a map of exports
    ([Objects]), the tables of remotes and replies a map from sender and serial
    to registration ([Pending]), strings and ring buffers lists ([Containers],
    [Queue]).  The tree of exports is what introspection shows ([Introspect]), and the
    replies of the bus have the types it declares ([Queues]); its table of names
    is one of queues of clients ([Queues]).
    Invariants and safety over every reachable state: names and
    remotes stay consistent ([Registry]), handlers never fail an assertion and
    never use freed objects ([Queues]), the sender of a message is the remote that
    sent it ([Receive]), the server accepts only identities its callback
    accepted ([Auth]).  Equivalence: input may be split anywhere ([Receive],
    [Auth], [Sha1], [Stream]).  Termination of the parser and of the iterator on any
    input.  A client answers every call without flags with exactly one
    message, and none that asks for no reply ([Answering], [Properties]), gives
    a reply to its registration once ([Pending]), a message to the match that
    asks for it ([Watching]), and a signal to every path it is bound to ([Signals]).  A
    message of the bus carries the name of the bus and goes where routing sends
    it ([Delivery]), and a change of owners is announced by exactly the signals
    of the table of names, over any history ([Announce], [NameChanges]).  What a
    state on another thread registers, when all of its strings are set, is what
    it would have registered on the thread of the connection ([Threads]).  A message is logged by one call, line by line under its header
    ([Logging]).  The end: dropping the last reference to a connection and freeing the server
    release and free everything once ([Teardown], [Shutdown]).  The addresses of a
    bus are tried in order until one is accepted, and the sockets of the others
    are closed ([Address]).  Theorems about what the code gets wrong, each the counterpart of a
    comment or of another part of the code, are in the file of the code and in
    the list of findings (for instance [Flip.flip_header_rejected],
    [Dispatch.rule_type_inverted], [Server.waiting_client_stays]).

    ** Conventions and bounds

    - Integers are [Z] with their wrap-around written out; the target is LP64
      and little-endian.  A memory block is a list of bytes, 8-byte aligned; a
      pointer is an offset in it, and an access outside of it is an outcome.
    - Heap objects that point at each other (remotes, services, object paths,
      binds, interfaces) are entries of finite maps under indices that are
      never used again; using the index of a freed object is the same outcome.
    - Hash tables are finite maps outside of [Hash]; the order of a loop over a
      table is a parameter, any permutation of the entries ([dh_order]).
    - [assert] is a parameter too ([Build]): theorems hold with and without
      NDEBUG unless they say otherwise.
    - Loops that are not structural have fuel.  The callers pass enough: the
      length of the data, or of the path, plus a constant; a theorem says so
      for each ([iter_value_terminates], [parse_terminates], and the totality
      parts of the refinement theorems).
    - Callbacks of users, random bytes, the keyring file, the effective user
      id and the functions that send are parameters.  Hypotheses on them state
      what adbus.h asks of them.

    ** Not modelled

    Allocation failure, the code for Windows, the Lua, C++ and Qt bindings,
    third-party code, examples and tests.  The calls of the log functions from
    other files, which are in builds with tracing only, are left out where they
    stand; the functions are in [Logging].  [Client] is the client on the thread
    of its connection; [Threads] adds the branches of state.c that hand work
    over, and the order in which the connection runs it.  The operations of
    [Server] record the signals they cause as values, and the theorems on names
    are about these; [NameChanges] shows that sending them where the code does
    makes no other difference.  One composition is left out: a call to the bus
    reaches the handlers of [Bus] directly, not by the dispatch of the
    connection of the bus (SendToBus) that [Connection] models. *)

From Stdlib Require Import ZArith Lia String Ascii.
From stdpp Require Import base option list numbers strings.

Open Scope Z_scope.

(** ** Builds

    [assert] is compiled away when NDEBUG is defined.  A build is the value
    of that switch; every definition that contains an [assert] takes it as an
    implicit argument. *)
Class Build := ndebug : bool.

Definition debug_build : Build := false.
Definition release_build : Build := true.

(** ** Outcomes

    What a C function that works on a state [S] can do: return a value,
    return its error code (-1) with the state as the code left it, stop at a
    failed [assert], access memory outside of the object it points into, or
    (of the model only) run out of the fuel given to a loop. *)
Inductive outcome (S A : Type) : Type :=
| Ret (a : A) (s : S)
| Err (s : S)
| Abort
| Oob
| Nofuel.
Arguments Ret {S A} a s.
Arguments Err {S A} s.
Arguments Abort {S A}.
Arguments Oob {S A}.
Arguments Nofuel {S A}.

Definition M (S A : Type) : Type := S -> outcome S A.

Section Monad.
Context {S : Type}.

Definition ret {A} (a : A) : M S A := fun s => Ret a s.
Definition err {A} : M S A := fun s => Err s.
Definition oob {A} : M S A := fun _ => Oob.
Definition nofuel {A} : M S A := fun _ => Nofuel.
Definition bind {A B} (m : M S A) (k : A -> M S B) : M S B := fun s =>
  match m s with
  | Ret a s' => k a s'
  | Err s' => Err s'
  | Abort => Abort
  | Oob => Oob
  | Nofuel => Nofuel
  end.
Definition get : M S S := fun s => Ret s s.
Definition put (s : S) : M S unit := fun _ => Ret tt s.
Definition modify (f : S -> S) : M S unit := fun s => Ret tt (f s).

(** [assert(c)]: no effect in a release build. *)
Definition assert_ {B : Build} (c : bool) : M S unit := fun s =>
  if c || ndebug then Ret tt s else Abort.

(** [if (!(c)) return -1;] *)
Definition require (c : bool) : M S unit := fun s =>
  if c then Ret tt s else Err s.

(** A pointer or index is used: [None] when there is nothing there. *)
Definition of_option {A} (o : option A) : M S A := match o with Some a => ret a | None => oob end.

(** [assert(0); return -1;] *)
Definition assert_fail {B : Build} {A} : M S A := fun s =>
  if ndebug then Err s else Abort.

(** [while (c) body]: one unit of fuel per iteration. *)
Fixpoint while_ (fuel : nat) (c : S -> bool) (body : M S unit) : M S unit := fun s =>
  if c s then
    match fuel with
    | O => Nofuel
    | Datatypes.S fuel' => bind body (fun _ => while_ fuel' c body) s
    end
  else Ret tt s.
End Monad.

Declare Scope adbus_scope.
Delimit Scope adbus_scope with adbus.
Notation "'let*' x ':=' m 'in' k" := (bind m (fun x => k))
  (at level 10, x strict pattern, m at level 100, k at level 200) : adbus_scope.
Notation "'run*' m 'in' k" := (bind m (fun _ => k))
  (at level 10, m at level 100, k at level 200) : adbus_scope.
Open Scope adbus_scope.

Section MonadLaws.
Context {S : Type}.

Lemma bind_ret {A B} (a : A) (k : A -> M S B) (s : S) : bind (ret a) k s = k a s.
Proof. reflexivity. Qed.

Lemma bind_Ret {A B} (m : M S A) (k : A -> M S B) (s s' : S) (a : A) :
  m s = Ret a s' -> bind m k s = k a s'.
Proof. unfold bind. by intros ->. Qed.

Lemma bind_Err {A B} (m : M S A) (k : A -> M S B) (s s' : S) :
  m s = Err s' -> bind m k s = Err s'.
Proof. unfold bind. by intros ->. Qed.

Lemma bind_inv {A B} (m : M S A) (k : A -> M S B) (s s' : S) (b : B) :
  bind m k s = Ret b s' -> exists a s1, m s = Ret a s1 /\ k a s1 = Ret b s'.
Proof. unfold bind. destruct (m s) eqn:E; try discriminate. eauto. Qed.

Lemma bind_assoc {A B C} (m : M S A) (k : A -> M S B) (h : B -> M S C) (s : S) :
  bind (bind m k) h s = bind m (fun a => bind (k a) h) s.
Proof. unfold bind. by destruct (m s). Qed.

Lemma require_true (c : bool) (s : S) : c = true -> require c s = Ret tt s.
Proof. by intros ->. Qed.

Lemma require_false (c : bool) (s : S) : c = false -> require c s = Err s.
Proof. by intros ->. Qed.

Lemma assert_true {B : Build} (c : bool) (s : S) : c = true -> assert_ c s = Ret tt s.
Proof. unfold assert_. by intros ->. Qed.
End MonadLaws.

(** *** Equal programs: the same outcome from every state *)
Definition meq {S A} (m1 m2 : M S A) : Prop := forall s, m1 s = m2 s.

#[export] Instance meq_equivalence {S A} : Equivalence (@meq S A).
Proof.
  split; [by intros m s|by intros m1 m2 H s|]. intros m1 m2 m3 H1 H2 s. by rewrite H1.
Qed.

#[export] Instance bind_proper {S A B} :
  Proper (meq ==> pointwise_relation A meq ==> meq) (@bind S A B).
Proof.
  intros m1 m2 Hm k1 k2 Hk s. unfold bind. rewrite Hm. destruct (m2 s); [apply Hk|done..].
Qed.

Lemma meq_assoc {S A B C} (m : M S A) (k : A -> M S B) (h : B -> M S C) :
  meq (bind (bind m k) h) (bind m (fun a => bind (k a) h)).
Proof. intros s. apply bind_assoc. Qed.

Lemma meq_ret_l {S A B} (a : A) (k : A -> M S B) : meq (bind (ret a) k) (k a).
Proof. by intros s. Qed.

Lemma meq_ret_r {S} (m : M S unit) : meq (bind m (fun _ => ret tt)) m.
Proof. intros s. unfold bind. by destruct (m s) as [[] ?| | | |]. Qed.

(** ** Parts of a state

    A component that works on a state [S] also works inside a larger state
    [W] that has one; the laws say that the part is a component of [W] and
    nothing else is touched. *)
Class Part (W S : Type) := { part : W -> S; set_part : S -> W -> W }.
Class PartLaws (W S : Type) `{Part W S} := {
  part_set (s : S) (w : W) : part (set_part s w) = s;
  set_part_same (w : W) : set_part (part w) w = w;
  set_part_twice (s s' : S) (w : W) : set_part s (set_part s' w) = set_part s w }.

#[export] Instance part_self {S} : Part S S := { part s := s; set_part s _ := s }.
#[export] Instance part_self_laws {S} : PartLaws S S.
Proof. by split. Qed.

Definition on_part {W S A} `{Part W S} (op : M S A) : M W A := fun w =>
  match op (part w) with
  | Ret a s => Ret a (set_part s w)
  | Err s => Err (set_part s w)
  | Abort => Abort
  | Oob => Oob
  | Nofuel => Nofuel
  end.

Section Parts.
Context {W S : Type} `{PartLaws W S}.

Lemma on_part_Ret {A} (op : M S A) (w : W) (a : A) (s : S) : op (part w) = Ret a s -> on_part op w = Ret a (set_part s w).
Proof. unfold on_part. by intros ->. Qed.

(** An operation that only reads. *)
Lemma on_part_read {A} (op : M S A) (w : W) (a : A) : op (part w) = Ret a (part w) -> on_part op w = Ret a w.
Proof. intros E. by rewrite (on_part_Ret op w a _ E), set_part_same. Qed.
End Parts.

(** A run is safe when it neither leaves its memory nor needs more fuel. *)
Definition safe {S A} (o : outcome S A) : Prop :=
  match o with Oob | Nofuel => False | _ => True end.

Definition returns {S A} (o : outcome S A) : bool :=
  match o with Ret _ _ => true | _ => false end.

(** ** Characters and strings

    Memory is a list of bytes, a byte is a [Z] in [0, 256).  C strings are
    written as Rocq strings and read through [str]. *)
Definition str (s : string) : list Z :=
  map (fun a => Z.of_N (N_of_ascii a)) (list_ascii_of_string s).

(** One character. *)
Definition chr (s : string) : Z := hd 0 (str s).

Definition is_byte (b : Z) : bool := (0 <=? b) && (b <? 256).
Definition bytes (l : list Z) : Prop := Forall (fun b => 0 <= b < 256) l.
Definition no_nul (l : list Z) : Prop := Forall (fun b => b <> 0) l.

(** The string a [char] array holds: everything before the first NUL. *)
Fixpoint cstr (l : list Z) : list Z :=
  match l with
  | [] => []
  | b :: l' => if b =? 0 then [] else b :: cstr l'
  end.

(** [*p] for a pointer into a NUL-terminated string, given what is left of
    the string. *)
Definition deref (s : list Z) : Z := hd 0 s.

Fixpoint list_eqb (a b : list Z) : bool :=
  match a, b with
  | [], [] => true
  | x :: a', y :: b' => (x =? y) && list_eqb a' b'
  | _, _ => false
  end.

Lemma list_eqb_eq (a b : list Z) : list_eqb a b = true <-> a = b.
Proof.
  revert b; induction a as [|x a IH]; intros [|y b]; simpl; try (split; done).
  rewrite andb_true_iff, Z.eqb_eq, IH. split; [by intros [-> ->]|by intros [= -> ->]].
Qed.

Lemma list_eqb_refl (a : list Z) : list_eqb a a = true.
Proof. by apply list_eqb_eq. Qed.

Lemma list_eqb_neq (a b : list Z) : list_eqb a b = false <-> a <> b.
Proof. rewrite <- list_eqb_eq. by destruct (list_eqb a b). Qed.

Lemma cstr_no_nul (l : list Z) : no_nul l -> cstr l = l.
Proof.
  induction 1 as [|b l Hb _ IH]; simpl; [done|].
  by rewrite (proj2 (Z.eqb_neq b 0) Hb), IH.
Qed.

Lemma cstr_app_nul (l r : list Z) : no_nul l -> cstr (l ++ 0 :: r) = l.
Proof.
  induction 1 as [|b l Hb _ IH]; simpl; [done|].
  by rewrite (proj2 (Z.eqb_neq b 0) Hb), IH.
Qed.

Lemma no_nul_cstr (l : list Z) : no_nul (cstr l).
Proof.
  induction l as [|b l IH]; simpl; [constructor|].
  destruct (Z.eqb_spec b 0); [constructor|by constructor].
Qed.

(** [string], used in witnesses: no NUL inside. *)
Lemma no_nul_forallb (l : list Z) : forallb (fun b => negb (b =? 0)) l = true -> no_nul l.
Proof.
  intros H. apply Forall_forall. intros b Hb.
  rewrite forallb_forall in H. apply list_elem_of_In in Hb. specialize (H b Hb).
  by apply negb_true_iff, Z.eqb_neq in H.
Qed.

Lemma bytes_forallb (l : list Z) : forallb is_byte l = true -> bytes l.
Proof.
  intros H. apply Forall_forall. intros b Hb.
  rewrite forallb_forall in H. apply list_elem_of_In in Hb. specialize (H b Hb).
  unfold is_byte in H. apply andb_true_iff in H as [H1%Z.leb_le H2%Z.ltb_lt]. lia.
Qed.

(** ** Alignment

    [ADBUS_ALIGN(p, b)].  Addresses are offsets from the start of the
    (8-byte aligned) object the pointer points into. *)
Definition ADBUS_ALIGN (p b : Z) : Z := Z.land (p + (b - 1)) (Z.lnot (b - 1)).

Definition boundary (b : Z) : Prop := b = 1 \/ b = 2 \/ b = 4 \/ b = 8.

Lemma boundary_1 : boundary 1. Proof. by left. Qed.
Lemma boundary_2 : boundary 2. Proof. by right; left. Qed.
Lemma boundary_4 : boundary 4. Proof. by right; right; left. Qed.
Lemma boundary_8 : boundary 8. Proof. by right; right; right. Qed.

Create HintDb adbus.
#[export] Hint Resolve boundary_1 boundary_2 boundary_4 boundary_8 : adbus core.

Lemma align_pow2 (p k : Z) : 0 <= k ->
  ADBUS_ALIGN p (2 ^ k) = (p + (2 ^ k - 1)) / 2 ^ k * 2 ^ k.
Proof.
  intros Hk. unfold ADBUS_ALIGN.
  replace (2 ^ k - 1) with (Z.ones k) at 2 by (rewrite Z.ones_equiv; lia).
  rewrite <- Z.ldiff_land, Z.ldiff_ones_r by lia.
  by rewrite Z.shiftl_mul_pow2, Z.shiftr_div_pow2 by lia.
Qed.

Lemma align_eq (p b : Z) : boundary b -> ADBUS_ALIGN p b = (p + (b - 1)) / b * b.
Proof.
  intros [->|[->|[->| ->]]];
    [exact (align_pow2 p 0 ltac:(lia)) | exact (align_pow2 p 1 ltac:(lia))
    |exact (align_pow2 p 2 ltac:(lia)) | exact (align_pow2 p 3 ltac:(lia))].
Qed.

Lemma align_bounds (p b : Z) : boundary b -> p <= ADBUS_ALIGN p b < p + b.
Proof.
  intros Hb. rewrite align_eq by done.
  destruct Hb as [->|[->|[->| ->]]];
    rewrite ?Z.div_1_r; Z.div_mod_to_equations; lia.
Qed.

Lemma align_mod (p b : Z) : boundary b -> ADBUS_ALIGN p b mod b = 0.
Proof. intros Hb. rewrite align_eq by done. apply Z_mod_mult. Qed.

Lemma align_id (p b : Z) : boundary b -> p mod b = 0 -> ADBUS_ALIGN p b = p.
Proof.
  intros Hb Hp. pose proof (align_bounds p b Hb). pose proof (align_mod p b Hb).
  generalize dependent (ADBUS_ALIGN p b). intros a Ha Hm.
  destruct Hb as [->|[->|[->| ->]]]; Z.div_mod_to_equations; lia.
Qed.

(** Zero bytes. *)
Definition zeros (n : Z) : list Z := repeat 0 (Z.to_nat n).

Lemma length_zeros (n : Z) : Z.of_nat (length (zeros n)) = Z.max n 0.
Proof. unfold zeros. rewrite repeat_length. lia. Qed.

(** ** Little-endian integers

    The host is little-endian; [le_bytes n v] is what storing the [n]-byte
    integer [v] writes. *)
Fixpoint le_bytes (n : nat) (v : Z) : list Z :=
  match n with
  | O => []
  | S n' => v mod 256 :: le_bytes n' (v / 256)
  end.

Fixpoint le_value (l : list Z) : Z :=
  match l with
  | [] => 0
  | b :: l' => b + 256 * le_value l'
  end.

Lemma length_le_bytes (n : nat) (v : Z) : length (le_bytes n v) = n.
Proof. revert v; induction n; simpl; auto. Qed.

Lemma bytes_le_bytes (n : nat) (v : Z) : bytes (le_bytes n v).
Proof.
  revert v; induction n as [|n IH]; intros v; simpl; constructor; [|apply IH].
  apply Z.mod_pos_bound; lia.
Qed.

Lemma le_value_bytes (n : nat) (v : Z) :
  le_value (le_bytes n v) = v mod 2 ^ (8 * Z.of_nat n).
Proof.
  revert v; induction n as [|n IH]; intros v; cbn [le_bytes le_value].
  { rewrite Z.mul_0_r, Z.pow_0_r, Z.mod_1_r. done. }
  rewrite IH.
  replace (2 ^ (8 * Z.of_nat (S n))) with (256 * 2 ^ (8 * Z.of_nat n)).
  - rewrite Z.rem_mul_r by lia. lia.
  - replace (8 * Z.of_nat (S n)) with (8 + 8 * Z.of_nat n) by lia.
    rewrite Z.pow_add_r by lia. reflexivity.
Qed.

Lemma le_value_bytes_small (n : nat) (v : Z) :
  0 <= v < 2 ^ (8 * Z.of_nat n) -> le_value (le_bytes n v) = v.
Proof. intros. rewrite le_value_bytes. by apply Z.mod_small. Qed.

Lemma le_value_bounds (l : list Z) : bytes l ->
  0 <= le_value l < 2 ^ (8 * Z.of_nat (length l)).
Proof.
  induction 1 as [|b l Hb _ IH]; cbn [le_value length]; [lia|].
  replace (8 * Z.of_nat (S (length l))) with (8 + 8 * Z.of_nat (length l)) by lia.
  rewrite Z.pow_add_r by lia. change (2 ^ 8) with 256. lia.
Qed.

Lemma le_bytes_value (l : list Z) : bytes l -> le_bytes (length l) (le_value l) = l.
Proof.
  induction 1 as [|b l Hb _ IH]; cbn [le_bytes le_value length]; [done|].
  rewrite (Z.mul_comm 256), Z_mod_plus_full, Z.mod_small by lia.
  by rewrite Z.div_add, Z.div_small, Z.add_0_l, IH by lia.
Qed.

(** ** Reading memory

    A read at an address outside of the list is a memory error. *)
Definition slice (m : list Z) (p : Z) (n : nat) : list Z := take n (drop (Z.to_nat p) m).

Definition in_bounds (m : list Z) (p n : Z) : bool :=
  (0 <=? p) && (p + n <=? Z.of_nat (length m)).

Definition load {S} (m : list Z) (p : Z) (n : nat) : M S Z :=
  if in_bounds m p (Z.of_nat n) then ret (le_value (slice m p n)) else oob.

Definition load8 {S} (m : list Z) (p : Z) : M S Z := load m p 1.
Definition load16 {S} (m : list Z) (p : Z) : M S Z := load m p 2.
Definition load32 {S} (m : list Z) (p : Z) : M S Z := load m p 4.
Definition load64 {S} (m : list Z) (p : Z) : M S Z := load m p 8.

(** [memchr(p, c, n)]: the address of the first [c], if it is among the [n]
    bytes at [p]; a memory error when the search leaves the memory. *)
Fixpoint memchr_from {S} (l : list Z) (c : Z) (n : nat) (k : Z) : M S (option Z) :=
  match n with
  | O => ret None
  | Datatypes.S n' =>
      match l with
      | [] => oob
      | x :: l' => if x =? c then ret (Some k) else memchr_from l' c n' (k + 1)
      end
  end.

Definition memchr {S} (m : list Z) (p c : Z) (n : nat) : M S (option Z) :=
  if 0 <=? p then memchr_from (drop (Z.to_nat p) m) c n p else oob.

(** The part of [m] at [p] is [l]. *)
Definition at_ (m : list Z) (p : Z) (l : list Z) : Prop :=
  0 <= p /\ take (length l) (drop (Z.to_nat p) m) = l.

Lemma at_bounds (m l : list Z) (p : Z) : at_ m p l ->
  0 <= p /\ (l <> [] -> p + Z.of_nat (length l) <= Z.of_nat (length m)).
Proof.
  intros [Hp H]. split; [done|]. intros Hl.
  apply (f_equal length) in H. rewrite length_take, length_drop in H.
  destruct l as [|b l]; [done|]. cbn [length] in *. lia.
Qed.

Lemma at_app (m l1 l2 : list Z) (p : Z) :
  at_ m p (l1 ++ l2) <-> at_ m p l1 /\ at_ m (p + Z.of_nat (length l1)) l2.
Proof.
  unfold at_. rewrite length_app. split.
  - intros [Hp H]. rewrite <- take_take_drop, drop_drop in H.
    apply app_inj_1 in H as [H1 H2].
    + repeat split; try lia; [done|].
      by replace (Z.to_nat (p + Z.of_nat (length l1))) with (Z.to_nat p + length l1)%nat by lia.
    + apply (f_equal length) in H. rewrite length_app, !length_take, !length_drop, length_app in H.
      rewrite length_take, length_drop. lia.
  - intros [[Hp H1] [_ H2]]. split; [done|].
    rewrite <- take_take_drop, drop_drop, H1. f_equal.
    by replace (Z.to_nat p + length l1)%nat with (Z.to_nat (p + Z.of_nat (length l1))) by lia.
Qed.

Lemma at_self (l : list Z) : at_ l 0 l.
Proof. split; [done|]. by rewrite drop_0, firstn_all. Qed.

Lemma at_mid (l1 l2 l3 : list Z) : at_ (l1 ++ l2 ++ l3) (Z.of_nat (length l1)) l2.
Proof.
  split; [lia|]. rewrite Nat2Z.id, drop_app_length. apply take_app_length.
Qed.

Lemma load_at {S} (m l : list Z) (p : Z) (s : S) : l <> [] -> at_ m p l ->
  load m p (length l) s = Ret (le_value l) s.
Proof.
  intros Hl Hat. pose proof (at_bounds _ _ _ Hat) as [Hp Hb]. specialize (Hb Hl).
  unfold load, in_bounds. rewrite (proj2 (Z.leb_le 0 p)), (proj2 (Z.leb_le _ _) Hb) by lia.
  destruct Hat as [_ Hat]. unfold slice. by rewrite Hat.
Qed.

Lemma memchr_from_app {S} (l r : list Z) (c k : Z) (n : nat) (s : S) :
  Forall (fun b => b <> c) l -> (length l < n)%nat ->
  memchr_from (l ++ c :: r) c n k s = Ret (Some (k + Z.of_nat (length l))) s.
Proof.
  intros Hl. revert n k. induction Hl as [|b l Hb _ IH]; intros [|n] k Hn; simpl in *; try lia.
  - rewrite Z.eqb_refl. by rewrite Z.add_0_r.
  - rewrite (proj2 (Z.eqb_neq b c) Hb), IH by lia. f_equal. f_equal. lia.
Qed.

Lemma memchr_at {S} (m l : list Z) (p c : Z) (n : nat) (s : S) :
  at_ m p (l ++ [c]) -> Forall (fun b => b <> c) l -> (length l < n)%nat ->
  memchr m p c n s = Ret (Some (p + Z.of_nat (length l))) s.
Proof.
  intros Hat Hl Hn. unfold memchr.
  pose proof (at_bounds _ _ _ Hat) as [Hp _]. rewrite (proj2 (Z.leb_le 0 p)) by lia.
  destruct Hat as [_ Hat].
  rewrite <- (take_drop (length (l ++ [c])) (drop (Z.to_nat p) m)), Hat, <- app_assoc.
  by apply memchr_from_app.
Qed.

(** ** Weakest preconditions

    [wp oob o Q]: the run did not need more fuel, accessed memory outside of
    its object only if [oob] allows it, and if it returned normally then [Q]
    holds of the value and the state. *)
Definition wp {S A} (oob : bool) (o : outcome S A) (Q : A -> S -> Prop) : Prop :=
  match o with
  | Ret a s => Q a s
  | Err _ | Abort => True
  | Oob => oob = true
  | Nofuel => False
  end.

Section Wp.
Context {S : Type} (oob : bool).

Lemma wp_bind {A C} (m : M S A) (k : A -> M S C) (s : S) (R : A -> S -> Prop) (Q : C -> S -> Prop) :
  wp oob (m s) R -> (forall a s', R a s' -> wp oob (k a s') Q) -> wp oob (bind m k s) Q.
Proof. unfold bind. destruct (m s); simpl; auto. Qed.

Lemma wp_impl {A} (o : outcome S A) (Q R : A -> S -> Prop) :
  wp oob o Q -> (forall a s, Q a s -> R a s) -> wp oob o R.
Proof. destruct o; simpl; auto. Qed.

Lemma wp_ret {A} (a : A) (s : S) (Q : A -> S -> Prop) : Q a s -> wp oob (ret a s) Q.
Proof. done. Qed.

Lemma wp_require (c : bool) (s : S) (Q : unit -> S -> Prop) :
  (c = true -> Q tt s) -> wp oob (require c s) Q.
Proof. unfold require. destruct c; simpl; auto. Qed.

Lemma wp_assert {B : Build} (c : bool) (s : S) (Q : unit -> S -> Prop) :
  (c = true \/ ndebug = true -> Q tt s) -> wp oob (assert_ c s) Q.
Proof. unfold assert_. destruct c, ndebug; simpl; auto. Qed.

Lemma wp_assert_fail {B : Build} {A} (s : S) (Q : A -> S -> Prop) : wp oob (assert_fail s) Q.
Proof. unfold assert_fail. by destruct ndebug. Qed.

Lemma wp_get (s : S) (Q : S -> S -> Prop) : Q s s -> wp oob (get s) Q.
Proof. done. Qed.

Lemma wp_put (s s' : S) (Q : unit -> S -> Prop) : Q tt s -> wp oob (put s s') Q.
Proof. done. Qed.

Lemma wp_modify (f : S -> S) (s : S) (Q : unit -> S -> Prop) : Q tt (f s) -> wp oob (modify f s) Q.
Proof. done. Qed.

(** A read that may be out of bounds only if [oob]. *)
Lemma wp_load (m : list Z) (p : Z) (n : nat) (s : S) (Q : Z -> S -> Prop) :
  (oob = false -> 0 <= p /\ p + Z.of_nat n <= Z.of_nat (length m)) ->
  (in_bounds m p (Z.of_nat n) = true -> Q (le_value (slice m p n)) s) ->
  wp oob (load m p n s) Q.
Proof.
  intros Hb HQ. unfold load. destruct (in_bounds m p (Z.of_nat n)) eqn:E; simpl; [auto|].
  destruct oob; [done|]. destruct (Hb eq_refl). unfold in_bounds in E.
  apply andb_false_iff in E as [E%Z.leb_gt|E%Z.leb_gt]; lia.
Qed.

Lemma wp_while (fuel : nat) (c : S -> bool) (body : M S unit) (I : S -> Prop) (mu : S -> nat) (s : S) :
  I s -> (mu s < fuel)%nat ->
  (forall s', I s' -> (mu s' <= mu s)%nat -> c s' = true ->
     wp oob (body s') (fun _ s2 => I s2 /\ (mu s2 < mu s')%nat)) ->
  wp oob (while_ fuel c body s) (fun _ s' => I s' /\ c s' = false /\ (mu s' <= mu s)%nat).
Proof.
  intros HI Hmu Hb. revert s HI Hmu Hb. induction fuel as [|fuel IH]; intros s HI Hmu Hb; [lia|].
  cbn [while_]. destruct (c s) eqn:E; [|done]. eapply wp_bind; [by apply Hb|].
  intros _ s' [HI' Hlt]. eapply wp_impl; [apply IH; [done|lia|]|].
  - intros s2 HI2 Hle. apply Hb; [done|lia].
  - intros _ s2 (H1 & H2 & H3). repeat split; [done|done|lia].
Qed.
End Wp.

(** The search of [memchr] ends at the first match. *)
Lemma wp_memchr {T} (oob : bool) (m : list Z) (p : Z) (n : nat) (s : T) (Q : option Z -> T -> Prop) :
  0 <= p -> (oob = false -> p + Z.of_nat n <= Z.of_nat (length m)) ->
  Q None s ->
  (forall k, (k < n)%nat -> length (cstr (drop (Z.to_nat p) m)) = k ->
     p + Z.of_nat k < Z.of_nat (length m) -> Q (Some (p + Z.of_nat k)) s) ->
  wp oob (memchr m p 0 n s) Q.
Proof.
  intros Hp Hb Hn Hk. unfold memchr. rewrite (proj2 (Z.leb_le 0 p) Hp).
  remember (drop (Z.to_nat p) m) as l eqn:El.
  assert (Hl : length l = (length m - Z.to_nat p)%nat) by (by rewrite El, length_drop).
  assert (Hk' : forall k, (k < n)%nat -> length (cstr l) = k -> (k < length l)%nat ->
    Q (Some (p + Z.of_nat k)) s) by (intros k H1 H2 H3; apply Hk; [done|done|lia]).
  assert (Hb' : oob = false -> (n <= length l)%nat \/ n = 0%nat) by (intros H; specialize (Hb H); lia).
  clear Hk Hb El Hl Hp. revert p n Hk' Hb'.
  induction l as [|b l IH]; intros p n Hk Hb; destruct n as [|n]; cbn [memchr_from]; try done.
  - destruct oob; [done|]. destruct (Hb eq_refl) as [H|H]; simpl in H; lia.
  - destruct (Z.eqb_spec b 0) as [->|Hne].
    + rewrite <- (Z.add_0_r p). apply (Hk 0%nat); simpl; lia.
    + apply IH.
      * intros k H1 H2 H3. replace (p + 1 + Z.of_nat k) with (p + Z.of_nat (S k)) by lia.
        apply Hk; [lia| |simpl; lia]. cbn [cstr]. rewrite (proj2 (Z.eqb_neq b 0) Hne). simpl. lia.
      * intros H. destruct (Hb H) as [H1|H1]; simpl in H1; lia.
Qed.
