(* ===== verification/Names.v ===== *)
(** Names and paths: the validators for object paths, interface, bus and
    member names, and the path arithmetic, of adbus/misc.c.  The validators
    are characterised by grammars; path concatenation and parent are related
    to lists of components. *)

From Stdlib Require Import ZArith Lia String.
From stdpp Require Import base option list numbers strings.
From S2P Require Import Prelude.
Open Scope Z_scope.

(** ** Characters *)
Definition is_lower (c : Z) : bool := (97 <=? c) && (c <=? 122).
Definition is_upper (c : Z) : bool := (65 <=? c) && (c <=? 90).
Definition is_digit (c : Z) : bool := (48 <=? c) && (c <=? 57).
Definition SLASH : Z := 47.
Definition DOT : Z := 46.
Definition COLON : Z := 58.
Definition UNDERSCORE : Z := 95.
Definition DASH : Z := 45.

(** [A-Z][a-z][0-9]_ *)
Definition is_name_char (c : Z) : bool :=
  is_lower c || is_upper c || is_digit c || (c =? UNDERSCORE).
(** The same and '-'. *)
Definition is_bus_char (c : Z) : bool := is_name_char c || (c =? DASH).
Definition is_name_start (c : Z) : bool :=
  is_lower c || is_upper c || (c =? UNDERSCORE).

(** ** Object paths

    [slash] and [cur] are the two cursors of the scan, as offsets. *)
Fixpoint path_scan (s : list Z) (cur slash : Z) : bool :=
  match s with
  | [] => true
  | c :: s' =>
      if c =? SLASH then
        if cur - slash =? 1 then false else path_scan s' (cur + 1) cur
      else if is_name_char c then path_scan s' (cur + 1) slash
      else false
  end.

(** The argument is [None] for a NULL pointer. *)
Definition adbusI_isValidObjectPath (str : option (list Z)) : bool :=
  match str with
  | None | Some [] => false
  | Some (c :: s) =>
      if negb (c =? SLASH) then false
      else if (1 <? Z.of_nat (length (c :: s))) && (List.last (c :: s) 0 =? SLASH) then false
      else path_scan s 1 0
  end.

(** ** Dotted names

    The scan of interface and bus names; the result is the last position of
    the [dot] cursor, [None] when the scan rejects. *)
Fixpoint dot_scan (ok : Z -> bool) (s : list Z) (cur dot : Z) : option Z :=
  match s with
  | [] => Some dot
  | c :: s' =>
      if c =? DOT then
        if cur - dot =? 1 then None else dot_scan ok s' (cur + 1) cur
      else if ok c then dot_scan ok s' (cur + 1) dot
      else None
  end.

Definition adbusI_isValidInterfaceName (str : option (list Z)) : bool :=
  match str with
  | None | Some [] => false
  | Some (c :: s) =>
      if 255 <? Z.of_nat (length (c :: s)) then false
      else if negb (is_name_start c) then false
      else match dot_scan is_name_char s 1 (-1) with
           | None => false
           | Some dot => negb (dot =? -1)
           end
  end.

Definition adbusI_isValidBusName (str : option (list Z)) : bool :=
  match str with
  | None | Some [] => false
  | Some (c :: s) =>
      if 255 <? Z.of_nat (length (c :: s)) then false
      else if negb ((c =? COLON) || is_name_start c || (c =? DASH)) then false
      else match dot_scan is_bus_char s 1 (if c =? COLON then 0 else -1) with
           | None => false
           | Some dot => negb (dot =? -1)
           end
  end.

Definition adbusI_isValidMemberName (str : option (list Z)) : bool :=
  match str with
  | None | Some [] => false
  | Some (c :: s) =>
      if 255 <? Z.of_nat (length (c :: s)) then false
      else if negb (is_name_start c) then false
      else forallb is_name_char s
  end.

Definition adbusI_hasNullByte (str : list Z) : bool :=
  existsb (fun b => b =? 0) str.

(** ** Path arithmetic *)

(** A (pointer, size) argument whose size may be negative, for strlen. *)
Definition sized (p : list Z) (size : Z) : list Z :=
  if size <? 0 then cstr p else take (Z.to_nat size) p.

Definition starts_slash (p : list Z) : bool := deref p =? SLASH.

(** The loop that removes repeating slashes: [i] is incremented after a
    removal too. *)
Fixpoint rm_slashes (fuel i : nat) (out : list Z) : list Z :=
  match fuel with
  | O => out
  | S fuel' =>
      if (i <? length out)%nat then
        if (nth i out 0 =? SLASH) && (nth (i - 1) out 0 =? SLASH)
        then rm_slashes fuel' (i + 1) (take i out ++ drop (i + 1) out)
        else rm_slashes fuel' (i + 1) out
      else out
  end.

Definition rm_trailing (out : list Z) : list Z :=
  if (1 <? Z.of_nat (length out)) && (List.last out 0 =? SLASH)
  then removelast out else out.

Definition add_path (out path : list Z) : list Z :=
  match path with
  | [] => out
  | _ => out ++ (if starts_slash path then [] else [SLASH]) ++ path
  end.

Definition adbusI_relativePath (path1 : list Z) (size1 : Z) (path2 : list Z) (size2 : Z) : list Z :=
  let out := add_path (add_path [] (sized path1 size1)) (sized path2 size2) in
  rm_trailing (rm_slashes (length out) 1 out).

(** The search backwards for a '/' that is not the last character. *)
Fixpoint parent_scan (path : list Z) (size : nat) : nat :=
  match size with
  | O => O
  | S size' => if nth size' path 0 =? SLASH then size else parent_scan path size'
  end.

(** [None]: the parent string is NULL. *)
Definition adbusI_parentPath {S} {B : Build} (path : list Z) : M S (option (list Z)) :=
  run* assert_ (list_eqb (adbusI_relativePath path (Z.of_nat (length path)) [] 0) path) in
  match parent_scan path (length path - 1) with
  | O => ret None
  | 1%nat => ret (Some (take 1 path))
  | size => ret (Some (take (size - 1) path))
  end.

(** ** The grammar of separated components *)

(** Each component preceded by the separator. *)
Definition flat (sep : Z) (cs : list (list Z)) : list Z := concat (map (cons sep) cs).

Section Scan.
Context (ok : Z -> bool) (sep : Z).
Hypothesis ok_sep : ok sep = false.

(** Both scans, with the cursors reduced to what they decide: whether the
    component under the cursor is still empty. *)
Fixpoint comp_scan (s : list Z) (e : bool) : bool :=
  match s with
  | [] => true
  | c :: s' =>
      if c =? sep then (if e then false else comp_scan s' true)
      else if ok c then comp_scan s' false else false
  end.

Definition all_ok (c : list Z) : Prop := Forall (fun x => ok x = true) c.

Lemma comp_scan_app (c r : list Z) (e : bool) : all_ok c ->
  comp_scan (c ++ r) e = comp_scan r (match c with [] => e | _ => false end).
Proof.
  intros Hc. revert e. induction Hc as [|x c Hx _ IH]; intros e; [done|]. simpl.
  destruct (Z.eqb_spec x sep) as [->|]; [congruence|]. rewrite Hx, IH. by destruct c.
Qed.

Lemma comp_scan_flat (cs : list (list Z)) (e : bool) :
  Forall all_ok cs -> (cs <> [] -> e = false) ->
  Forall (fun c => c <> []) (removelast cs) ->
  comp_scan (flat sep cs) e = true.
Proof.
  intros Hok. revert e. induction Hok as [|c cs Hc _ IH]; intros e He Hne; [done|].
  cbn. rewrite Z.eqb_refl, (He ltac:(done)), comp_scan_app by done.
  apply IH; destruct cs; try done; simpl in *; inversion Hne; subst; destruct c; done.
Qed.

Lemma comp_scan_spec (s : list Z) (e : bool) :
  comp_scan s e = true <->
  exists c cs, s = c ++ flat sep cs /\ all_ok c /\ Forall all_ok cs /\
    (cs <> [] -> e = false \/ c <> []) /\ Forall (fun c => c <> []) (removelast cs).
Proof.
  split.
  - revert e. induction s as [|x s IH]; intros e; simpl.
    { intros _. exists [], []. repeat split; try constructor; done. }
    destruct (Z.eqb_spec x sep) as [->|Hx].
    + destruct e; [done|]. intros (c & cs & -> & Hc & Hcs & Hne & Hl)%IH.
      exists [], (c :: cs). repeat split; [constructor|by constructor|by left|].
      destruct cs; [constructor|]. constructor; [|done]. by destruct Hne.
    + destruct (ok x) eqn:Ho; [|done]. intros (c & cs & -> & Hc & Hcs & Hne & Hl)%IH.
      exists (x :: c), cs. repeat split; try done; [by constructor|by right].
  - intros (c & cs & -> & Hc & Hcs & Hne & Hl). rewrite comp_scan_app by done.
    apply comp_scan_flat; try done. intros Hcs'. destruct (Hne Hcs') as [->|]; by destruct c.
Qed.
End Scan.

Lemma path_scan_comp (s : list Z) (cur slash : Z) : slash < cur ->
  path_scan s cur slash = comp_scan is_name_char SLASH s (cur - slash =? 1).
Proof.
  revert cur slash. induction s as [|c s IH]; intros cur slash H; simpl; [done|].
  destruct (c =? SLASH).
  - destruct (cur - slash =? 1); [done|]. rewrite IH by lia. f_equal. lia.
  - destruct (is_name_char c); [|done]. rewrite IH by lia. f_equal. lia.
Qed.

(** The [dot] cursor is -1 at the end exactly when no dot was seen. *)
Lemma dot_scan_comp (ok : Z -> bool) (s : list Z) (cur dot : Z) :
  dot < cur -> 0 <= cur ->
  match dot_scan ok s cur dot with
  | None => comp_scan ok DOT s (cur - dot =? 1) = false
  | Some d => comp_scan ok DOT s (cur - dot =? 1) = true /\
              (d = -1 <-> dot = -1 /\ ~ In DOT s)
  end.
Proof.
  revert cur dot. induction s as [|c s IH]; intros cur dot H H0; simpl; [naive_solver|].
  destruct (Z.eqb_spec c DOT) as [->|Hc].
  - destruct (Z.eqb_spec (cur - dot) 1); [done|].
    specialize (IH (cur + 1) cur ltac:(lia) ltac:(lia)).
    replace (cur + 1 - cur =? 1) with true in IH by lia.
    destruct (dot_scan ok s (cur + 1) cur) as [d|]; [|done].
    destruct IH as [-> Hd]. split; [done|]. split; [lia|tauto].
  - destruct (ok c); [|done].
    specialize (IH (cur + 1) dot ltac:(lia) ltac:(lia)).
    replace (cur + 1 - dot =? 1) with false in IH by lia.
    destruct (dot_scan ok s (cur + 1) dot) as [d|]; [|done].
    destruct IH as [-> Hd]. split; [done|]. rewrite Hd. intuition.
Qed.

(** ** What the validators accept *)

Definition component (c : list Z) : Prop := c <> [] /\ all_ok is_name_char c.

(** The path of a list of components. *)
Definition render (cs : list (list Z)) : list Z :=
  match cs with [] => [SLASH] | _ => flat SLASH cs end.

Lemma name_char_slash : is_name_char SLASH = false. Proof. reflexivity. Qed.
Lemma name_char_dot : is_name_char DOT = false. Proof. reflexivity. Qed.
Lemma bus_char_dot : is_bus_char DOT = false. Proof. reflexivity. Qed.

Lemma flat_app (sep : Z) (cs ds : list (list Z)) : flat sep (cs ++ ds) = flat sep cs ++ flat sep ds.
Proof. unfold flat. by rewrite map_app, concat_app. Qed.

Lemma flat_snoc_last (sep : Z) (cs : list (list Z)) (c : list Z) :
  List.last (flat sep (cs ++ [c])) 0 = List.last (sep :: c) 0.
Proof.
  assert (Hn : sep :: c <> []) by congruence.
  destruct (exists_last Hn) as (l & x & E). rewrite flat_app. cbn [flat map concat].
  rewrite app_nil_r, E, app_assoc, !last_last. done.
Qed.

Lemma flat_not_nil (sep : Z) (cs : list (list Z)) : cs <> [] -> flat sep cs <> [].
Proof. by destruct cs. Qed.

Lemma all_ok_last (ok : Z -> bool) (c : list Z) : all_ok ok c -> c <> [] -> ok (List.last c 0) = true.
Proof.
  intros Hc Hn. destruct (exists_last Hn) as (l & x & ->). rewrite last_last.
  apply Forall_app in Hc as [_ Hc]. by inversion Hc.
Qed.

Lemma component_last (sep : Z) (c : list Z) : component c ->
  List.last (sep :: c) 0 <> SLASH.
Proof.
  intros [Hn Hc]. destruct c; [done|]. change (List.last (sep :: z :: c) 0) with (List.last (z :: c) 0).
  intros E. pose proof (all_ok_last _ _ Hc Hn) as H. rewrite E in H. done.
Qed.

Lemma components_last (cs : list (list Z)) : cs <> [] -> Forall component cs ->
  List.last (flat SLASH cs) 0 <> SLASH.
Proof.
  intros Hn Hcs. destruct (exists_last Hn) as (l & c & ->).
  rewrite flat_snoc_last. apply Forall_app in Hcs as [_ Hc]. inversion Hc; subst.
  by apply component_last.
Qed.

Lemma components_split (cs : list (list Z)) :
  Forall component cs <-> Forall (fun c => c <> []) cs /\ Forall (all_ok is_name_char) cs.
Proof. unfold component. apply Forall_and. Qed.

Lemma removelast_snoc_Forall {A} (P : A -> Prop) (l : list A) (x : A) :
  Forall P (removelast (l ++ [x])) <-> Forall P l.
Proof. by rewrite removelast_last. Qed.

Lemma object_path_iff (s : list Z) :
  adbusI_isValidObjectPath (Some s) = true <->
  exists cs, Forall component cs /\ s = render cs.
Proof.
  destruct s as [|x s]; [split; [done|]; intros ([|c cs] & _ & H); done|].
  unfold adbusI_isValidObjectPath. destruct (Z.eqb_spec x SLASH) as [->|Hx]; cbn [negb].
  2:{ split; [done|]. intros ([|c cs] & _ & [= ? ?]); by subst. }
  rewrite path_scan_comp by lia. change (1 - 0 =? 1) with true. split.
  - destruct (_ && _) eqn:El; [done|]. intros Hs.
    apply (comp_scan_spec is_name_char SLASH name_char_slash) in Hs as (c & cs & -> & Hc & Hcs & Hne & Hl).
    destruct c as [|y c].
    { destruct cs as [|d cs]; [by exists []|]. by destruct (Hne ltac:(done)). }
    exists ((y :: c) :: cs). split; [|done]. constructor; [done|].
    destruct cs as [|d cs] using rev_ind; [constructor|]. clear IHcs.
    apply removelast_snoc_Forall in Hl. apply Forall_app in Hcs as [Hcs Hd].
    apply Forall_app; split; [by apply components_split|].
    repeat constructor; [|by inversion Hd]. intros ->.
    apply andb_false_iff in El as [El|El].
    + apply Z.ltb_ge in El. rewrite app_comm_cons, length_app in El. cbn in El. lia.
    + apply Z.eqb_neq in El. apply El.
      change (SLASH :: (y :: c) ++ flat SLASH (cs ++ [[]])) with (flat SLASH (((y :: c) :: cs) ++ [[]])).
      by rewrite flat_snoc_last.
  - intros (cs & Hcs & E). destruct cs as [|c cs]; [injection E as ->; done|].
    destruct (_ && _) eqn:El.
    { apply andb_true_iff in El as [_ El%Z.eqb_eq]. rewrite E in El.
      by apply components_last in El. }
    injection E as ->. inversion Hcs as [|? ? [Hn Hc] Hcs']; subst.
    apply (comp_scan_spec is_name_char SLASH name_char_slash). exists c, cs.
    apply components_split in Hcs' as [Hne Hok].
    repeat split; [done|done|by right|].
    destruct cs as [|d cs] using rev_ind; [constructor|].
    apply removelast_snoc_Forall. by apply Forall_app in Hne as [Hne _].
Qed.

(** [adbusI_isValidObjectPath] accepts exactly the rendered paths: "/"
    alone, or one or more non-empty [A-Za-z0-9_] components each preceded by
    one '/'; so there is no empty component and no trailing slash. *)
Theorem object_path_grammar (s : list Z) :
  adbusI_isValidObjectPath (Some s) = true <->
  exists cs, Forall component cs /\ s = render cs.
Proof. exact (object_path_iff s). Qed.

(** The components of a dotted name: all of them but the last non-empty. *)
Definition dotted (ok : Z -> bool) (s c : list Z) (cs : list (list Z)) : Prop :=
  s = c ++ flat DOT cs /\ all_ok ok c /\ Forall (all_ok ok) cs /\
  c <> [] /\ Forall (fun c => c <> []) (removelast cs).

Lemma all_ok_In (ok : Z -> bool) (x : Z) (c : list Z) : all_ok ok c -> ok x = false -> ~ In x c.
Proof.
  intros Hc Hx Hin. apply (proj1 (List.Forall_forall _ _) Hc) in Hin. congruence.
Qed.

Lemma in_flat_dot (c : list Z) (cs : list (list Z)) : cs <> [] -> In DOT (c ++ flat DOT cs).
Proof. intros H. apply in_or_app. right. destruct cs; [done|]. by left. Qed.

Lemma flat_no_dot (ok : Z -> bool) (c : list Z) (cs : list (list Z)) :
  ok DOT = false -> all_ok ok c -> In DOT (c ++ flat DOT cs) -> cs <> [].
Proof.
  intros Hok Hc Hin ->. cbn in Hin. rewrite app_nil_r in Hin. by eapply all_ok_In in Hin.
Qed.

Lemma dotted_cons (ok : Z -> bool) (x : Z) (s c : list Z) (cs : list (list Z)) :
  ok DOT = false -> dotted ok (x :: s) c cs ->
  exists c', c = x :: c' /\ ok x = true /\ s = c' ++ flat DOT cs /\ all_ok ok c' /\
    Forall (all_ok ok) cs /\ Forall (fun c => c <> []) (removelast cs).
Proof.
  intros Hd (E & Hc & Hcs & Hn & Hl). destruct c as [|y c]; [done|].
  injection E as -> ->. inversion Hc; subst. eauto 10.
Qed.

(** The scan of a dotted name whose first character has been accepted. *)
Lemma dot_scan_dotted (ok : Z -> bool) (x : Z) (s : list Z) :
  ok DOT = false -> ok x = true ->
  (exists d, dot_scan ok s 1 (-1) = Some d /\ d <> -1) <->
  exists c cs, dotted ok (x :: s) c cs /\ cs <> [].
Proof.
  intros Hok Hx. pose proof (dot_scan_comp ok s 1 (-1) ltac:(lia) ltac:(lia)) as H.
  change (1 - -1 =? 1) with false in H. split.
  - intros (d & E & Hd). rewrite E in H. destruct H as [H Hd'].
    apply (comp_scan_spec ok DOT Hok) in H as (c & cs & -> & Hc & Hcs & _ & Hl).
    exists (x :: c), cs. split; [repeat split; [by constructor|done|done|done]|].
    intros ->. apply Hd, Hd'. split; [done|]. cbn. rewrite app_nil_r. by apply (all_ok_In ok).
  - intros (c & cs & Hdot & Hne).
    apply dotted_cons in Hdot as (c' & -> & _ & -> & Hc & Hcs & Hl); [|done].
    assert (Hs : comp_scan ok DOT (c' ++ flat DOT cs) false = true).
    { apply (comp_scan_spec ok DOT Hok). exists c', cs. repeat split; try done. by left. }
    destruct (dot_scan _ _ _ _) as [d|]; [|congruence].
    exists d. split; [done|]. intros ->. destruct H as [_ H].
    by apply (proj1 H eq_refl), in_flat_dot.
Qed.

Lemma name_start_char (x : Z) : is_name_start x = true -> is_name_char x = true.
Proof.
  unfold is_name_start, is_name_char. intros [[->| ->]%orb_true_iff| ->]%orb_true_iff;
    by rewrite ?orb_true_r.
Qed.

Lemma name_char_bus (x : Z) : is_name_char x = true -> is_bus_char x = true.
Proof. unfold is_bus_char. by intros ->. Qed.

Lemma all_name_bus (c : list Z) : all_ok is_name_char c -> all_ok is_bus_char c.
Proof. intros H. eapply Forall_impl; [exact H|exact name_char_bus]. Qed.

(** [adbusI_isValidInterfaceName] accepts exactly the names of at most 255
    bytes that start with a letter or '_' and are two or more dot-separated
    [A-Za-z0-9_] components, all of them non-empty except that the last one
    may be empty (a trailing dot is accepted). *)
Theorem interface_name_grammar (s : list Z) :
  adbusI_isValidInterfaceName (Some s) = true <->
  Z.of_nat (length s) <= 255 /\ is_name_start (deref s) = true /\
  exists c cs, dotted is_name_char s c cs /\ cs <> [].
Proof.
  destruct s as [|x s].
  { split; [done|]. intros (_ & _ & c & cs & (E & _ & _ & Hn & _) & _). by destruct c. }
  unfold adbusI_isValidInterfaceName.
  destruct (Z.ltb_spec 255 (Z.of_nat (length (x :: s)))); [split; [done|]; lia|].
  change (deref (x :: s)) with x. destruct (is_name_start x) eqn:Hx; cbn [negb]; [|naive_solver].
  pose proof (dot_scan_dotted is_name_char x s name_char_dot (name_start_char _ Hx)) as Hd.
  split.
  - intros Hs. split; [done|]. split; [done|]. apply Hd.
    destruct (dot_scan _ _ _ _) as [d|]; [|done]. exists d. split; [done|].
    by apply negb_true_iff, Z.eqb_neq in Hs.
  - intros (_ & _ & Hs). apply Hd in Hs as (d & -> & H1). by apply negb_true_iff, Z.eqb_neq.
Qed.

Lemma member_grammar (s : list Z) :
  adbusI_isValidMemberName (Some s) = true <->
  Z.of_nat (length s) <= 255 /\ is_name_start (deref s) = true /\ all_ok is_name_char s.
Proof.
  destruct s as [|x s]; [split; [done|]; intros (_ & H & _); done|].
  unfold adbusI_isValidMemberName.
  destruct (Z.ltb_spec 255 (Z.of_nat (length (x :: s)))); [split; [done|]; lia|].
  change (deref (x :: s)) with x. destruct (is_name_start x) eqn:Hx; cbn [negb]; [|naive_solver].
  assert (Hf : forallb is_name_char s = true <-> all_ok is_name_char s).
  { rewrite forallb_forall, <- List.Forall_forall. done. }
  rewrite Hf. split; [|by intros (_ & _ & H1); inversion H1].
  intros H1. repeat split; [done|]. constructor; [by apply name_start_char|done].
Qed.

(** Well-known bus names need a dot; names that start with ':' do not, and
    may even have nothing after the colon. *)
Definition unique_name (s : list Z) : Prop :=
  exists c cs, s = COLON :: c ++ flat DOT cs /\ all_ok is_bus_char c /\
    Forall (all_ok is_bus_char) cs /\ (cs <> [] -> c <> []) /\
    Forall (fun c => c <> []) (removelast cs).

Definition well_known_name (s : list Z) : Prop :=
  (is_name_start (deref s) = true \/ deref s = DASH) /\
  exists c cs, dotted is_bus_char s c cs /\ cs <> [].

Lemma bus_unique (s : list Z) :
  (exists d, dot_scan is_bus_char s 1 0 = Some d /\ d <> -1) <-> unique_name (COLON :: s).
Proof.
  pose proof (dot_scan_comp is_bus_char s 1 0 ltac:(lia) ltac:(lia)) as H.
  change (1 - 0 =? 1) with true in H.
  assert (E : (exists d, dot_scan is_bus_char s 1 0 = Some d /\ d <> -1) <->
              comp_scan is_bus_char DOT s true = true).
  { destruct (dot_scan _ _ _ _) as [d|].
    - destruct H as [-> Hd]. split; [done|]. exists d. split; [done|]. rewrite Hd. by intros [].
    - rewrite H. naive_solver. }
  rewrite E, (comp_scan_spec is_bus_char DOT bus_char_dot). unfold unique_name. split.
  - intros (c & cs & -> & Hc & Hcs & Hne & Hl). exists c, cs.
    repeat split; try done. intros Hcs'. by destruct (Hne Hcs').
  - intros (c & cs & [= ->] & Hc & Hcs & Hne & Hl). exists c, cs.
    repeat split; try done. right. by apply Hne.
Qed.

Lemma bus_name_iff (s : list Z) :
  adbusI_isValidBusName (Some s) = true <->
  Z.of_nat (length s) <= 255 /\ (unique_name s \/ well_known_name s).
Proof.
  destruct s as [|x s].
  { split; [done|]. intros (_ & [(c & cs & E & _)|[[H|H] _]]); done. }
  unfold adbusI_isValidBusName, well_known_name.
  destruct (Z.ltb_spec 255 (Z.of_nat (length (x :: s)))); [split; [done|]; lia|].
  change (deref (x :: s)) with x.
  assert (Hacc : forall (P : Prop) dot, (exists d, dot_scan is_bus_char s 1 dot = Some d /\ d <> -1) <-> P ->
    (match dot_scan is_bus_char s 1 dot with None => false | Some d => negb (d =? -1) end = true <-> P)).
  { intros P dot <-. destruct (dot_scan _ _ _ _) as [d|]; [|naive_solver].
    rewrite negb_true_iff, Z.eqb_neq. naive_solver. }
  destruct (Z.eqb_spec x COLON) as [->|Hx]; cbn [orb negb].
  - rewrite (Hacc _ 0 (bus_unique s)). split; [intros H0; split; [done|by left]|].
    intros (_ & [H1|[[H1|H1] _]]); done.
  - assert (Hu : ~ unique_name (x :: s)) by (by intros (c & cs & [= -> _] & _)).
    destruct (is_name_start x || (x =? DASH)) eqn:Hs; cbn [negb].
    + assert (Hb : is_bus_char x = true).
      { apply orb_true_iff in Hs as [Hs|Hs%Z.eqb_eq]; [by apply name_char_bus, name_start_char|by subst]. }
      rewrite (Hacc _ (-1) (dot_scan_dotted is_bus_char x s bus_char_dot Hb)).
      apply orb_true_iff in Hs. rewrite Z.eqb_eq in Hs. naive_solver.
    + apply orb_false_iff in Hs as [Hs1 Hs2%Z.eqb_neq]. split; [done|].
      intros (_ & [H1|[[H1|H1] _]]); [done|congruence|done].
Qed.

(** The characters of a name. *)
Lemma bus_name_chars (s : list Z) : adbusI_isValidBusName (Some s) = true ->
  Z.of_nat (length s) <= 255 /\ Forall (fun c => is_bus_char c = true \/ c = DOT \/ c = COLON) s.
Proof.
  intros [Hl H]%bus_name_iff. split; [done|].
  assert (Hc : forall c, all_ok is_bus_char c -> Forall (fun c => is_bus_char c = true \/ c = DOT \/ c = COLON) c).
  { intros c. apply List.Forall_impl. auto. }
  assert (Hf : forall cs, Forall (all_ok is_bus_char) cs ->
    Forall (fun c => is_bus_char c = true \/ c = DOT \/ c = COLON) (flat DOT cs)).
  { induction 1 as [|c cs H1 _ IH]; [constructor|]. change (flat DOT (c :: cs)) with ((DOT :: c) ++ flat DOT cs).
    apply Forall_app. split; [|done]. constructor; auto. }
  destruct H as [(c & cs & -> & H1 & H2 & _)|(_ & c & cs & (-> & H1 & H2 & _) & _)].
  - constructor; [auto|]. apply Forall_app. auto.
  - apply Forall_app. auto.
Qed.

(** [adbusI_isValidBusName] accepts exactly the names of at most 255 bytes
    that are either a well-known name (two or more dot-separated components,
    only the last of which may be empty) or ':' followed by components of
    which there may be just one, even an empty one: the check for a dot never
    applies to a unique name. *)
Theorem bus_name_grammar (s : list Z) :
  adbusI_isValidBusName (Some s) = true <->
  Z.of_nat (length s) <= 255 /\ (unique_name s \/ well_known_name s).
Proof. exact (bus_name_iff s). Qed.

(** ** Concatenating paths *)

(** No two slashes side by side. *)
Fixpoint no_double (s : list Z) : bool :=
  match s with
  | x :: ((y :: _) as s') => negb ((x =? SLASH) && (y =? SLASH)) && no_double s'
  | _ => true
  end.

Lemma rm_slashes_none (fuel i : nat) (out : list Z) :
  (1 <= i)%nat -> no_double (drop (i - 1) out) = true -> rm_slashes fuel i out = out.
Proof.
  revert i. induction fuel as [|fuel IH]; intros i Hi Hd; [done|]. simpl.
  destruct (Nat.ltb_spec i (length out)) as [Hlt|]; [|done].
  destruct (drop (i - 1) out) as [|x r] eqn:E.
  { apply (f_equal length) in E. rewrite length_drop in E. simpl in E. lia. }
  assert (Hx : nth (i - 1) out 0 = x).
  { rewrite <- (take_drop (i - 1) out), E, app_nth2; rewrite length_take; [|lia].
    by replace (i - 1 - _)%nat with 0%nat by lia. }
  assert (Er : drop i out = r).
  { replace i with (i - 1 + 1)%nat by lia. by rewrite <- drop_drop, E. }
  destruct r as [|y r].
  { apply (f_equal length) in Er. rewrite length_drop in Er. simpl in Er. lia. }
  assert (Hy : nth i out 0 = y).
  { rewrite <- (take_drop i out), Er, app_nth2; rewrite length_take; [|lia].
    by replace (i - _)%nat with 0%nat by lia. }
  cbn [no_double] in Hd. apply andb_true_iff in Hd as [Hxy Hd].
  rewrite Hx, Hy, andb_comm. apply negb_true_iff in Hxy. rewrite Hxy.
  apply IH; [lia|]. replace (i + 1 - 1)%nat with i by lia. by rewrite Er.
Qed.

Lemma no_double_comp (c r : list Z) : all_ok is_name_char c ->
  no_double (c ++ r) = no_double r.
Proof.
  induction 1 as [|x c Hx _ IH]; [done|]. cbn [app]. rewrite <- IH.
  assert (E : (x =? SLASH) = false) by (apply Z.eqb_neq; intros ->; done).
  cbn [no_double]. rewrite E. by destruct (c ++ r).
Qed.

Lemma no_double_flat (cs : list (list Z)) (r : list Z) : Forall component cs ->
  no_double (flat SLASH cs ++ r) = no_double r.
Proof.
  induction 1 as [|c cs [Hn Hc] _ IH]; [done|]. cbn [flat map concat].
  rewrite <- app_assoc. cbn [app]. rewrite <- IH. destruct c as [|x c]; [done|].
  inversion Hc; subst. assert (E : (x =? SLASH) = false) by (apply Z.eqb_neq; intros ->; done).
  transitivity (no_double ((x :: c) ++ flat SLASH cs ++ r)).
  - cbn [no_double app]. by rewrite E, andb_false_r.
  - by apply no_double_comp.
Qed.

Lemma rm_trailing_none (s : list Z) : List.last s 0 <> SLASH -> rm_trailing s = s.
Proof.
  intros H. unfold rm_trailing. apply Z.eqb_neq in H. by rewrite H, andb_false_r.
Qed.

Lemma render_sized (cs : list (list Z)) (size : Z) : Forall component cs ->
  size = -1 \/ size = Z.of_nat (length (render cs)) -> sized (render cs) size = render cs.
Proof.
  intros Hcs [->| ->]; unfold sized.
  - apply cstr_no_nul. destruct cs as [|c cs]; [by repeat constructor|].
    cbn [render]. induction Hcs as [|d ds [_ Hd] _ IH]; [constructor|].
    cbn [flat map concat]. apply Forall_app; split; [|done]. constructor; [done|].
    eapply Forall_impl; [exact Hd|]. by intros x Hx ->.
  - rewrite (proj2 (Z.ltb_ge _ _)) by lia. rewrite Nat2Z.id. apply firstn_all.
Qed.

Lemma render_slash (cs : list (list Z)) : exists s, render cs = SLASH :: s.
Proof. destruct cs; cbn; eauto. Qed.

Lemma add_path_render (out : list Z) (cs : list (list Z)) :
  add_path out (render cs) = out ++ render cs.
Proof. destruct (render_slash cs) as [s ->]. done. Qed.

Lemma clean_render (cs : list (list Z)) (fuel : nat) : Forall component cs -> cs <> [] ->
  rm_trailing (rm_slashes fuel 1 (flat SLASH cs)) = flat SLASH cs.
Proof.
  intros Hcs Hn. rewrite rm_slashes_none; [|done|].
  - by apply rm_trailing_none, components_last.
  - rewrite drop_0. rewrite <- (app_nil_r (flat SLASH cs)). by rewrite no_double_flat.
Qed.

Lemma rm_slashes_double (s : list Z) (fuel : nat) :
  rm_slashes (S fuel) 1 ([SLASH] ++ SLASH :: s) = rm_slashes fuel 2 (SLASH :: s).
Proof. reflexivity. Qed.

(** [adbusI_relativePath] concatenates paths: applied to two valid object
    paths (with explicit sizes or NUL-terminated) it gives the path of the
    concatenated component lists, whatever slashes meet at the junction. *)
Theorem relative_path_concat (c1 c2 : list (list Z)) (size1 size2 : Z) :
  Forall component c1 -> Forall component c2 ->
  size1 = -1 \/ size1 = Z.of_nat (length (render c1)) ->
  size2 = -1 \/ size2 = Z.of_nat (length (render c2)) ->
  adbusI_relativePath (render c1) size1 (render c2) size2 = render (c1 ++ c2).
Proof.
  intros H1 H2 S1 S2. unfold adbusI_relativePath. rewrite !render_sized by done.
  rewrite !add_path_render. cbn [app].
  destruct c1 as [|c c1]; [destruct c2 as [|d c2]; [done|]|].
  - change (render [] ++ render (d :: c2)) with (SLASH :: SLASH :: d ++ flat SLASH c2).
    set (r := d ++ flat SLASH c2). change (SLASH :: SLASH :: r) with ([SLASH] ++ SLASH :: r).
    change (length ([SLASH] ++ SLASH :: r)) with (S (S (length r))).
    rewrite rm_slashes_double. rewrite rm_slashes_none; [|lia|].
    + by apply rm_trailing_none, (components_last (d :: c2)).
    + change (drop (2 - 1) (SLASH :: r)) with (drop 0 r). rewrite drop_0. unfold r.
      inversion H2 as [|? ? [Hn Hd] Hc2]; subst.
      rewrite no_double_comp by done. rewrite <- (app_nil_r (flat SLASH c2)).
      by apply (no_double_flat c2 []).
  - destruct c2 as [|d c2].
    + rewrite app_nil_r. cbn [render]. rewrite rm_slashes_none; [|lia|].
      * unfold rm_trailing. rewrite last_last, removelast_last, Z.eqb_refl, andb_true_r.
        rewrite length_app. rewrite (proj2 (Z.ltb_lt _ _)); [done|]. cbn. lia.
      * rewrite drop_0. by rewrite no_double_flat.
    + change (render (c :: c1)) with (flat SLASH (c :: c1)).
      change (render (d :: c2)) with (flat SLASH (d :: c2)). rewrite <- flat_app.
      apply clean_render; [by apply Forall_app|done].
Qed.

(** A rendered path is already sanitised. *)
Lemma relative_self (cs : list (list Z)) : Forall component cs ->
  adbusI_relativePath (render cs) (Z.of_nat (length (render cs))) [] 0 = render cs.
Proof.
  intros Hcs. unfold adbusI_relativePath. rewrite render_sized by auto.
  rewrite add_path_render. cbn [app sized Z.ltb Z.compare Z.to_nat take add_path].
  destruct cs as [|c cs]; [done|]. by apply clean_render.
Qed.

Lemma parent_scan_find (p c : list Z) (k : nat) :
  all_ok is_name_char c -> (k <= length c)%nat ->
  parent_scan (p ++ SLASH :: c) (length p + 1 + k) = (length p + 1)%nat.
Proof.
  intros Hc. induction k as [|k IH]; intros Hk.
  - rewrite Nat.add_0_r, Nat.add_1_r. cbn [parent_scan].
    rewrite app_nth2, Nat.sub_diag by lia. reflexivity.
  - replace (length p + 1 + S k)%nat with (S (length p + 1 + k)) by lia. cbn [parent_scan].
    rewrite app_nth2 by lia. replace (length p + 1 + k - length p)%nat with (S k) by lia.
    cbn [nth]. rewrite (proj2 (Z.eqb_neq _ _)); [apply IH; lia|]. intros E.
    assert (Hin : In SLASH c) by (rewrite <- E; apply nth_In; lia).
    by apply (all_ok_In _ _ _ Hc name_char_slash) in Hin.
Qed.

Lemma parent_path_snoc {S} {B : Build} (cs : list (list Z)) (c : list Z) (s : S) :
  Forall component cs -> component c ->
  adbusI_parentPath (render (cs ++ [c])) s = Ret (Some (render cs)) s.
Proof.
  intros Hcs Hc. unfold adbusI_parentPath. erewrite bind_Ret.
  2:{ apply assert_true, list_eqb_eq, relative_self. apply Forall_app; split; [done|by constructor]. }
  assert (E : render (cs ++ [c]) = flat SLASH cs ++ SLASH :: c).
  { replace (render (cs ++ [c])) with (flat SLASH (cs ++ [c])) by (by destruct cs).
    rewrite flat_app. cbn. by rewrite app_nil_r. }
  rewrite E. destruct Hc as [Hn Hc].
  replace (length (flat SLASH cs ++ SLASH :: c) - 1)%nat
    with (length (flat SLASH cs) + 1 + (length c - 1))%nat.
  2:{ rewrite length_app. destruct c; [done|]. cbn [length]. lia. }
  rewrite parent_scan_find by (done || lia). rewrite Nat.add_1_r.
  destruct cs as [|d cs]; [done|].
  change (render (d :: cs)) with (flat SLASH (d :: cs)).
  set (p := flat SLASH (d :: cs)). destruct (length p) as [|n] eqn:En; [by destruct (render_slash (d :: cs))|].
  unfold ret. do 2 f_equal. rewrite Nat.sub_1_r. cbn [Nat.pred]. rewrite <- En.
  apply take_app_length.
Qed.

Lemma parent_path_root {S} {B : Build} (s : S) : adbusI_parentPath (render []) s = Ret None s.
Proof. unfold adbusI_parentPath. erewrite bind_Ret; [reflexivity|]. by apply assert_true. Qed.

(** [adbusI_parentPath] of a path with at least one component is the path
    without its last component ("/" for a single component), and its debug
    assertion that the path is sanitised holds for every valid path. *)
Theorem parent_path_removes_last {S} {B : Build} (cs : list (list Z)) (c : list Z) (s : S) :
  Forall component cs -> component c ->
  adbusI_parentPath (render (cs ++ [c])) s = Ret (Some (render cs)) s.
Proof. exact (parent_path_snoc cs c s). Qed.

Lemma relative_path_concat_witness :
  adbusI_relativePath (str "/") (-1) (str "/com/example") 12 = str "/com/example".
Proof.
  apply (relative_path_concat [] [str "com"; str "example"] (-1) 12);
    [constructor| |by left|by right].
  repeat constructor; done.
Defined.

Lemma parent_path_removes_last_witness :
  adbusI_parentPath (B := debug_build) (str "/com/example") tt = Ret (Some (str "/com")) tt.
Proof.
  apply (parent_path_removes_last (B := debug_build) [str "com"] (str "example") tt).
  - repeat constructor; done.
  - split; [done|]. repeat constructor; done.
Defined.

(** The parent of "/" is NULL. *)
Lemma parent_root {S} {B : Build} (s : S) : adbusI_parentPath (str "/") s = Ret None s.
Proof. reflexivity. Qed.

(** Removing a slash also skips the character after it, so of three slashes
    in a row two are left. *)
Example relative_path_triple_slash :
  adbusI_relativePath (str "/") 1 (str "//a") 3 = str "//a".
Proof. reflexivity. Qed.

(** A unique name needs neither a dot nor anything after the colon. *)
Example bus_name_bare_colon : adbusI_isValidBusName (Some (str ":")) = true.
Proof. reflexivity. Qed.

Example interface_name_trailing_dot :
  adbusI_isValidInterfaceName (Some (str "com.")) = true.
Proof. reflexivity. Qed.
