(* ===== verification/Signature.v ===== *)
(** Signatures: the type codes of include/c/adbus.h, the alignment table and
    [adbus_nextarg] of adbus/misc.c.  The abstract view is a tree of types;
    [adbus_nextarg] is shown to skip exactly one printed type. *)

From Stdlib Require Import ZArith Lia.
From stdpp Require Import base option list numbers strings.
From S2P Require Import Prelude.
Open Scope Z_scope.

(** ** Type codes (enum adbus_FieldType) *)
Inductive basic :=
| UINT8 | BOOLEAN | INT16 | UINT16 | INT32 | UINT32 | INT64 | UINT64
| DOUBLE | STRING | OBJECT_PATH | SIGNATURE.

Inductive field :=
| Basic (b : basic)
| ARRAY_BEGIN
| STRUCT_BEGIN
| STRUCT_END
| VARIANT_BEGIN
| DICTENTRY_BEGIN
| DICTENTRY_END.

Definition code_of (f : field) : Z :=
  match f with
  | Basic UINT8 => chr "y"
  | Basic BOOLEAN => chr "b"
  | Basic INT16 => chr "n"
  | Basic UINT16 => chr "q"
  | Basic INT32 => chr "i"
  | Basic UINT32 => chr "u"
  | Basic INT64 => chr "x"
  | Basic UINT64 => chr "t"
  | Basic DOUBLE => chr "d"
  | Basic STRING => chr "s"
  | Basic OBJECT_PATH => chr "o"
  | Basic SIGNATURE => chr "g"
  | ARRAY_BEGIN => chr "a"
  | STRUCT_BEGIN => chr "("
  | STRUCT_END => chr ")"
  | VARIANT_BEGIN => chr "v"
  | DICTENTRY_BEGIN => chr "{"
  | DICTENTRY_END => chr "}"
  end.

Definition basics : list basic :=
  [UINT8; BOOLEAN; INT16; UINT16; INT32; UINT32; INT64; UINT64; DOUBLE;
   STRING; OBJECT_PATH; SIGNATURE].

Definition fields : list field :=
  map Basic basics ++
  [ARRAY_BEGIN; STRUCT_BEGIN; STRUCT_END; VARIANT_BEGIN; DICTENTRY_BEGIN; DICTENTRY_END].

(** The case a [switch] over a type code takes; [None] is its default. *)
Definition field_of (c : Z) : option field := List.find (fun f => code_of f =? c) fields.

Lemma field_of_code (f : field) : field_of (code_of f) = Some f.
Proof. by destruct f as [[]| | | | | |]. Qed.

Lemma field_of_Some (c : Z) (f : field) : field_of c = Some f -> c = code_of f.
Proof. intros H. apply find_some in H as [_ H]. by apply Z.eqb_eq in H. Qed.

Lemma code_of_inj (f g : field) : code_of f = code_of g -> f = g.
Proof. intros H. pose proof (field_of_code f) as E. rewrite H, field_of_code in E. congruence. Qed.

Lemma code_of_range (f : field) : 0 < code_of f < 128.
Proof. destruct f as [[]| | | | | |]; vm_compute; split; congruence. Qed.

Lemma field_of_nul : field_of 0 = None.
Proof. reflexivity. Qed.

(** ** Alignment (sRequiredAlignment) *)
Definition field_alignment (f : field) : Z :=
  match f with
  | Basic UINT8 | Basic SIGNATURE | VARIANT_BEGIN => 1
  | Basic INT16 | Basic UINT16 => 2
  | Basic BOOLEAN | Basic INT32 | Basic UINT32 | Basic STRING | Basic OBJECT_PATH
  | ARRAY_BEGIN => 4
  | Basic INT64 | Basic UINT64 | Basic DOUBLE | STRUCT_BEGIN | DICTENTRY_BEGIN => 8
  | STRUCT_END | DICTENTRY_END => 0
  end.

(** The table, [None] for the zero entries. *)
Definition sRequiredAlignment (c : Z) : option Z :=
  match field_of c with
  | Some STRUCT_END | Some DICTENTRY_END | None => None
  | Some f => Some (field_alignment f)
  end.

Definition adbusI_alignment {S} {B : Build} (ch : Z) : M S Z :=
  run* assert_ (match sRequiredAlignment ch with Some _ => true | None => false end) in
  ret (default 0 (sRequiredAlignment (Z.land ch 127))).

(** ** adbus_nextarg

    A pointer into a signature is what is left of the string there.  The
    [while] loop of the struct case, over the recursive call [next]. *)
Fixpoint nextarg_struct (next : list Z -> option (list Z)) (fuel : nat) (sig : list Z)
  : option (list Z) :=
  if deref sig =? code_of STRUCT_END then Some sig
  else match fuel with
       | O => None
       | S fuel' =>
           match next sig with
           | None => None
           | Some sig' => nextarg_struct next fuel' sig'
           end
       end.

Fixpoint nextarg_ (fuel : nat) (sig : list Z) : option (list Z) :=
  match fuel with
  | O => None
  | S fuel' =>
      match field_of (deref sig) with
      | Some (Basic _) | Some VARIANT_BEGIN => Some (tl sig)
      | Some ARRAY_BEGIN => nextarg_ fuel' (tl sig)
      | Some STRUCT_BEGIN =>
          match nextarg_struct (nextarg_ fuel') fuel' (tl sig) with
          | None => None
          | Some sig' => Some (tl sig')
          end
      | Some DICTENTRY_BEGIN =>
          match nextarg_ fuel' (tl sig) with
          | None => None
          | Some val =>
              match nextarg_ fuel' val with
              | None => None
              | Some e => if deref e =? code_of DICTENTRY_END then Some (tl e) else None
              end
          end
      | _ => None
      end
  end.

(** Fuel: every call and every iteration is at a shorter rest. *)
Definition adbus_nextarg (sig : list Z) : option (list Z) := nextarg_ (S (length sig)) sig.

(** ** Types *)
Inductive ty :=
| TBasic (b : basic)
| TVariant
| TArray (t : ty)
| TStruct (ts : list ty)
| TDict (k v : ty).

Definition ty_ind' (P : ty -> Prop)
  (Hb : forall b, P (TBasic b)) (Hv : P TVariant) (Ha : forall t, P t -> P (TArray t))
  (Hs : forall ts, Forall P ts -> P (TStruct ts))
  (Hd : forall k v, P k -> P v -> P (TDict k v)) : forall t, P t :=
  fix go t :=
    match t with
    | TBasic b => Hb b
    | TVariant => Hv
    | TArray t => Ha t (go t)
    | TStruct ts =>
        Hs ts ((fix gos ts : Forall P ts :=
                  match ts with
                  | [] => List.Forall_nil P
                  | t :: ts => List.Forall_cons P _ _ (go t) (gos ts)
                  end) ts)
    | TDict k v => Hd k v (go k) (go v)
    end.

Fixpoint sig_of (t : ty) : list Z :=
  match t with
  | TBasic b => [code_of (Basic b)]
  | TVariant => [code_of VARIANT_BEGIN]
  | TArray t => code_of ARRAY_BEGIN :: sig_of t
  | TStruct ts => code_of STRUCT_BEGIN :: concat (map sig_of ts) ++ [code_of STRUCT_END]
  | TDict k v => code_of DICTENTRY_BEGIN :: sig_of k ++ sig_of v ++ [code_of DICTENTRY_END]
  end.

Definition sigs_of (ts : list ty) : list Z := concat (map sig_of ts).

(** The first character of a type. *)
Definition head_of (t : ty) : field :=
  match t with
  | TBasic b => Basic b
  | TVariant => VARIANT_BEGIN
  | TArray _ => ARRAY_BEGIN
  | TStruct _ => STRUCT_BEGIN
  | TDict _ _ => DICTENTRY_BEGIN
  end.

Lemma sig_of_head (t : ty) : exists s, sig_of t = code_of (head_of t) :: s.
Proof. destruct t; cbn; eauto. Qed.

Lemma sig_of_deref (t : ty) (r : list Z) : deref (sig_of t ++ r) = code_of (head_of t).
Proof. by destruct (sig_of_head t) as [s ->]. Qed.

Lemma head_not_end (t : ty) : head_of t <> STRUCT_END /\ head_of t <> DICTENTRY_END.
Proof. by destruct t. Qed.

Lemma sig_of_length (t : ty) : (1 <= length (sig_of t))%nat.
Proof. destruct (sig_of_head t) as [s ->]. simpl. lia. Qed.

Lemma no_nul_sig_of (t : ty) : no_nul (sig_of t).
Proof.
  assert (Hc : forall f, code_of f <> 0) by (intros f; pose proof (code_of_range f); lia).
  induction t as [b| |t IH|ts IH|k v IHk IHv] using ty_ind'; cbn [sig_of];
    repeat (constructor; [apply Hc|]); try constructor; try done.
  - apply Forall_app; split; [|by repeat constructor].
    induction IH; [constructor|]. cbn. by apply Forall_app.
  - repeat (apply Forall_app; split); try done. by repeat constructor.
Qed.

(** ** adbus_nextarg skips one type *)

Lemma code_eqb (f g : field) : (code_of f =? code_of g) = true <-> f = g.
Proof. rewrite Z.eqb_eq. split; [apply code_of_inj|by intros ->]. Qed.

Lemma sig_of_not_end (t : ty) (r : list Z) (e : field) :
  e = STRUCT_END \/ e = DICTENTRY_END -> (deref (sig_of t ++ r) =? code_of e) = false.
Proof.
  intros He. rewrite sig_of_deref. destruct (_ =? _) eqn:E; [|done].
  apply code_eqb in E. destruct (head_not_end t). by destruct He; subst.
Qed.

Lemma length_sigs (ts : list ty) : (length ts <= length (sigs_of ts))%nat.
Proof.
  induction ts as [|t ts IH]; cbn [sigs_of map concat length]; [lia|].
  rewrite length_app. pose proof (sig_of_length t). unfold sigs_of in IH. lia.
Qed.

Lemma nextarg_struct_skip (next : list Z -> option (list Z)) (ts : list ty) (r : list Z) (fuel : nat) :
  (length ts <= fuel)%nat ->
  Forall (fun t => forall r, next (sig_of t ++ r) = Some r) ts ->
  nextarg_struct next fuel (sigs_of ts ++ code_of STRUCT_END :: r) = Some (code_of STRUCT_END :: r).
Proof.
  intros Hf Hts. revert fuel Hf. induction Hts as [|t ts Ht _ IH]; intros fuel Hf.
  - by destruct fuel.
  - cbn [sigs_of map concat]. rewrite <- app_assoc.
    destruct fuel as [|fuel]; [cbn in Hf; lia|]. cbn [nextarg_struct].
    rewrite sig_of_not_end by auto. rewrite Ht. apply IH. simpl in Hf; lia.
Qed.

Lemma nextarg_skip (t : ty) : forall (fuel : nat) (r : list Z),
  (length (sig_of t) < fuel)%nat -> nextarg_ fuel (sig_of t ++ r) = Some r.
Proof.
  induction t as [b| |t IH|ts IH|k v IHk IHv] using ty_ind'; intros [|fuel] r Hf; try lia;
    cbn [nextarg_ sig_of app deref hd tl length] in Hf |- *; rewrite field_of_code; try done.
  - apply IH. lia.
  - rewrite length_app in Hf. cbn [length] in Hf. rewrite <- app_assoc. cbn [app].
    pose proof (length_sigs ts) as Hl. unfold sigs_of in Hl.
    assert (Hts : Forall (fun t => forall r, nextarg_ fuel (sig_of t ++ r) = Some r) ts).
    { clear Hl. induction IH as [|t ts Ht _ IH]; [constructor|]. cbn in Hf. rewrite length_app in Hf.
      constructor; [intros r'; apply Ht; lia|apply IH; lia]. }
    change (concat (map sig_of ts)) with (sigs_of ts).
    by rewrite nextarg_struct_skip by (done || lia).
  - rewrite !length_app in Hf. cbn [length] in Hf. rewrite <- !app_assoc, IHk by lia.
    rewrite IHv by lia. cbn [app deref hd tl]. by rewrite Z.eqb_refl.
Qed.

Lemma nextarg_struct_sound (next : list Z -> option (list Z)) (fuel : nat) (s r : list Z) :
  (forall s r, next s = Some r -> exists t, s = sig_of t ++ r) ->
  nextarg_struct next fuel s = Some r -> exists ts, s = sigs_of ts ++ r /\ deref r = code_of STRUCT_END.
Proof.
  intros Hn. revert s. induction fuel as [|fuel IH]; intros s; cbn [nextarg_struct];
    destruct (Z.eqb_spec (deref s) (code_of STRUCT_END)) as [E|E]; try done;
    try (intros [= <-]; by exists []).
  destruct (next s) as [s'|] eqn:Es; [|done]. intros (ts & -> & Hr)%IH.
  apply Hn in Es as [t ->]. exists (t :: ts). cbn. by rewrite <- app_assoc.
Qed.

Lemma deref_cons (s : list Z) (f : field) : deref s = code_of f -> s = code_of f :: tl s.
Proof. destruct s; cbn; [|by intros ->]. pose proof (code_of_range f). lia. Qed.

Lemma nextarg_sound_fuel (fuel : nat) : forall (s r : list Z),
  nextarg_ fuel s = Some r -> exists t, s = sig_of t ++ r.
Proof.
  induction fuel as [|fuel IH]; intros s r; [done|]. cbn [nextarg_].
  destruct (field_of (deref s)) as [f|] eqn:Ef; [|done].
  apply field_of_Some, deref_cons in Ef. rewrite Ef. cbn [tl].
  destruct f as [b| | | | | |]; try done.
  - intros [= <-]. by exists (TBasic b).
  - intros [t ->]%IH. by exists (TArray t).
  - destruct (nextarg_struct _ _ _) as [s'|] eqn:Es; [|done]. intros [= <-].
    apply nextarg_struct_sound in Es as (ts & -> & Hr); [|exact IH].
    exists (TStruct ts). apply deref_cons in Hr. rewrite Hr at 1. cbn. by rewrite <- app_assoc.
  - intros [= <-]. by exists TVariant.
  - destruct (nextarg_ fuel _) as [v|] eqn:Ek; [|done]. apply IH in Ek as [tk ->].
    destruct (nextarg_ fuel v) as [e|] eqn:Ev; [|done]. apply IH in Ev as [tv ->].
    destruct (Z.eqb_spec (deref e) (code_of DICTENTRY_END)) as [Ee|]; [|done]. intros [= <-].
    apply deref_cons in Ee. exists (TDict tk tv). rewrite Ee at 1. cbn. by rewrite <- !app_assoc.
Qed.

Lemma nextarg_one (t : ty) (r : list Z) : adbus_nextarg (sig_of t ++ r) = Some r.
Proof. apply nextarg_skip. rewrite length_app. lia. Qed.

(** The grammar is unambiguous: no type is a proper prefix of another. *)
Lemma sig_of_prefix (t u : ty) (r r' : list Z) :
  sig_of t ++ r = sig_of u ++ r' -> sig_of t = sig_of u /\ r = r'.
Proof.
  intros E. pose proof (nextarg_one t r) as H. rewrite E, nextarg_one in H.
  injection H as ->. by apply app_inv_tail in E.
Qed.

(** [adbus_nextarg] succeeds exactly when the signature starts with a
    complete type, and then returns what follows that type: it neither
    accepts a malformed type nor rejects or splits a well-formed one, at any
    nesting depth. *)
Theorem nextarg_skips_one_type (s r : list Z) :
  adbus_nextarg s = Some r <-> exists t, s = sig_of t ++ r.
Proof.
  split; [apply nextarg_sound_fuel|]. intros [t ->]. apply nextarg_one.
Qed.

Example nextarg_dict : adbus_nextarg (str "a{sv}us") = Some (str "us").
Proof. reflexivity. Qed.

Example nextarg_unclosed : adbus_nextarg (str "a{sv") = None.
Proof. reflexivity. Qed.
