(* ===== verification/Iterator.v ===== *)
(** The iterator over marshalled data: include/c/adbus-iterator.h and
    [adbus_iter_value] of adbus/riterator.c.  An iterator is a cursor into a
    memory block [m]; the operations are state transformers on the cursor and
    keep its exact state on every path, failures included. *)

From Stdlib Require Import ZArith Lia.
From stdpp Require Import base option list numbers strings.
From S2P Require Import Prelude Signature.
Open Scope Z_scope.

(** ** State

    [data] is the offset in the block, [size] the count of bytes the iterator
    believes are left, [sig] what is left of the signature. *)
Record Iterator := mkIter { data : Z; size : Z; sig : list Z }.

Record IterArray := mkArray { a_sig : list Z; a_sigsz : nat; a_data : Z; a_size : Z }.

Record IterVariant := mkVariant { v_origsig : list Z; v_sig : list Z; v_data : Z; v_size : Z }.

Definition set_sig (s : list Z) (i : Iterator) : Iterator := mkIter (data i) (size i) s.

(** [i->data += n; i->size -= n;] *)
Definition advance (n : Z) (i : Iterator) : Iterator := mkIter (data i + n) (size i - n) (sig i).

Definition ADBUS_MAXIMUM_ARRAY_LENGTH : Z := 67108864.

Definition adbus_iter_align (alignment : Z) : M Iterator unit :=
  let* i := get in
  let diff := ADBUS_ALIGN (data i) alignment - data i in
  run* require (diff <=? size i) in
  modify (advance diff).

Section Ops.
Context {B : Build} (m : list Z).

Definition adbus_iter_alignfield (field : Z) : M Iterator unit :=
  match field_of field with
  | Some (Basic UINT8) | Some (Basic SIGNATURE) | Some VARIANT_BEGIN => ret tt
  | Some (Basic INT16) | Some (Basic UINT16) => adbus_iter_align 2
  | Some (Basic BOOLEAN) | Some (Basic INT32) | Some (Basic UINT32)
  | Some (Basic STRING) | Some (Basic OBJECT_PATH) | Some ARRAY_BEGIN => adbus_iter_align 4
  | Some (Basic INT64) | Some (Basic UINT64) | Some (Basic DOUBLE)
  | Some STRUCT_BEGIN | Some DICTENTRY_BEGIN => adbus_iter_align 8
  | _ => assert_fail
  end.

(** [*i->sig++ != field]: the pointer moves on a mismatch too. *)
Definition adbusI_iter_sig (field : Z) : M Iterator unit :=
  let* i := get in
  run* put (set_sig (tl (sig i)) i) in
  if deref (sig i) =? field then ret tt else assert_fail.

(** The get functions return the address of the value. *)
Definition adbusI_iter_get8 : M Iterator Z :=
  let* i := get in
  run* require (1 <=? size i) in
  run* put (advance 1 i) in
  ret (data i).

(** The body shared by get16, get32 and get64. *)
Definition iter_get (n : Z) : M Iterator Z :=
  run* adbus_iter_align n in
  let* i := get in
  run* require (n <=? size i) in
  run* put (advance n i) in
  ret (data i).

Definition adbusI_iter_get16 : M Iterator Z := iter_get 2.
Definition adbusI_iter_get32 : M Iterator Z := iter_get 4.
Definition adbusI_iter_get64 : M Iterator Z := iter_get 8.

Definition adbus_iter_bool : M Iterator Z :=
  run* adbusI_iter_sig (chr "b") in adbusI_iter_get32.
Definition adbus_iter_u8 : M Iterator Z :=
  run* adbusI_iter_sig (chr "y") in adbusI_iter_get8.
Definition adbus_iter_i16 : M Iterator Z :=
  run* adbusI_iter_sig (chr "n") in adbusI_iter_get16.
Definition adbus_iter_u16 : M Iterator Z :=
  run* adbusI_iter_sig (chr "q") in adbusI_iter_get16.
Definition adbus_iter_i32 : M Iterator Z :=
  run* adbusI_iter_sig (chr "i") in adbusI_iter_get32.
Definition adbus_iter_u32 : M Iterator Z :=
  run* adbusI_iter_sig (chr "u") in adbusI_iter_get32.
Definition adbus_iter_i64 : M Iterator Z :=
  run* adbusI_iter_sig (chr "x") in adbusI_iter_get64.
Definition adbus_iter_u64 : M Iterator Z :=
  run* adbusI_iter_sig (chr "t") in adbusI_iter_get64.
Definition adbus_iter_double : M Iterator Z :=
  run* adbusI_iter_sig (chr "d") in adbusI_iter_get64.

(** The result is the (address, length) of the string. *)
Definition adbusI_iter_getstring (strsz : Z) : M Iterator (Z * Z) :=
  let* i := get in
  let s := data i in
  run* require (strsz + 1 <=? size i) in
  let* nul := memchr m s 0 (Z.to_nat (strsz + 1)) in
  run* require (match nul with Some p => p =? s + strsz | None => false end) in
  run* put (advance (strsz + 1) i) in
  ret (s, strsz).

Definition adbus_iter_string : M Iterator (Z * Z) :=
  run* adbusI_iter_sig (chr "s") in
  let* len := adbusI_iter_get32 in
  let* n := load32 m len in
  adbusI_iter_getstring n.

Definition adbus_iter_objectpath : M Iterator (Z * Z) :=
  run* adbusI_iter_sig (chr "o") in
  let* len := adbusI_iter_get32 in
  let* n := load32 m len in
  adbusI_iter_getstring n.

Definition adbus_iter_signature : M Iterator (Z * Z) :=
  run* adbusI_iter_sig (chr "g") in
  let* len := adbusI_iter_get8 in
  let* n := load8 m len in
  adbusI_iter_getstring n.

(** ** Arrays *)
Definition adbus_iter_beginarray : M Iterator IterArray :=
  run* adbusI_iter_sig (chr "a") in
  let* len := adbusI_iter_get32 in
  let* n := load32 m len in
  run* require (n <=? ADBUS_MAXIMUM_ARRAY_LENGTH) in
  let* i := get in
  run* adbus_iter_alignfield (deref (sig i)) in
  match adbus_nextarg (sig i) with
  | None => err
  | Some sigend =>
      let* i' := get in
      ret (mkArray (sig i') (length (sig i') - length sigend) (data i') n)
  end.

Definition adbus_iter_inarray (a : IterArray) : M Iterator bool :=
  let* i := get in
  if data i <? a_data a + a_size a then
    run* put (set_sig (a_sig a) i) in ret true
  else ret false.

(** [size] is left as it is. *)
Definition adbus_iter_endarray (a : IterArray) : M Iterator unit :=
  modify (fun i => mkIter (a_data a + a_size a) (size i) (drop (a_sigsz a) (a_sig a))).

(** ** Structs and dict entries *)
Definition adbus_iter_begindictentry : M Iterator unit :=
  run* adbusI_iter_sig (chr "{") in adbus_iter_align 8.
Definition adbus_iter_enddictentry : M Iterator unit := adbusI_iter_sig (chr "}").
Definition adbus_iter_beginstruct : M Iterator unit :=
  run* adbusI_iter_sig (chr "(") in adbus_iter_align 8.
Definition adbus_iter_endstruct : M Iterator unit := adbusI_iter_sig (chr ")").

(** ** Variants *)
Definition adbus_iter_beginvariant : M Iterator IterVariant :=
  run* adbusI_iter_sig (chr "v") in
  let* len := adbusI_iter_get8 in
  let* n := load8 m len in
  let* vs := adbusI_iter_getstring n in
  let vsig := cstr (drop (Z.to_nat (fst vs)) m) in
  let* c := load8 m (fst vs) in
  run* adbus_iter_alignfield c in
  let* i := get in
  run* put (set_sig vsig i) in
  ret (mkVariant (sig i) vsig (data i) 0).

Definition adbus_iter_endvariant (v : IterVariant) : M Iterator IterVariant :=
  let* i := get in
  run* require (deref (sig i) =? 0) in
  run* put (set_sig (v_origsig v) i) in
  ret (mkVariant (v_origsig v) (v_sig v) (v_data v) (data i - v_data v)).

(** ** Skipping one complete type

    One unit of fuel per nested call and per iteration of the struct loop. *)
Fixpoint adbus_iter_value (fuel : nat) : M Iterator unit :=
  match fuel with
  | O => nofuel
  | S fuel' =>
      let* i := get in
      match field_of (deref (sig i)) with
      | Some (Basic BOOLEAN) => run* adbus_iter_bool in ret tt
      | Some (Basic UINT8) => run* adbus_iter_u8 in ret tt
      | Some (Basic INT16) => run* adbus_iter_i16 in ret tt
      | Some (Basic UINT16) => run* adbus_iter_u16 in ret tt
      | Some (Basic INT32) => run* adbus_iter_i32 in ret tt
      | Some (Basic UINT32) => run* adbus_iter_u32 in ret tt
      | Some (Basic INT64) => run* adbus_iter_i64 in ret tt
      | Some (Basic UINT64) => run* adbus_iter_u64 in ret tt
      | Some (Basic DOUBLE) => run* adbus_iter_double in ret tt
      | Some (Basic STRING) => run* adbus_iter_string in ret tt
      | Some (Basic OBJECT_PATH) => run* adbus_iter_objectpath in ret tt
      | Some (Basic SIGNATURE) => run* adbus_iter_signature in ret tt
      | Some VARIANT_BEGIN =>
          let* v := adbus_iter_beginvariant in
          run* adbus_iter_value fuel' in
          run* adbus_iter_endvariant v in ret tt
      | Some ARRAY_BEGIN =>
          let* a := adbus_iter_beginarray in
          adbus_iter_endarray a
      | Some STRUCT_BEGIN =>
          run* adbus_iter_beginstruct in
          run* while_ fuel' (fun i => negb (deref (sig i) =? chr ")")) (adbus_iter_value fuel') in
          adbus_iter_endstruct
      | Some DICTENTRY_BEGIN =>
          run* adbus_iter_begindictentry in
          run* adbus_iter_value fuel' in
          run* adbus_iter_value fuel' in
          adbus_iter_enddictentry
      | _ => assert_fail
      end
  end.
End Ops.

(** ** Safety and termination

    [good strict m i]: the size is non-negative and, for a [strict] run, the
    iterator lies inside of the block.  Plain signatures, without arrays and
    variants, keep strictness. *)
Definition good (strict : bool) (m : list Z) (i : Iterator) : Prop :=
  0 <= size i /\ 0 <= data i /\ (strict = true -> data i + size i <= Z.of_nat (length m)).

Definition plain (s : list Z) : Prop :=
  Forall (fun c => c <> code_of ARRAY_BEGIN /\ c <> code_of VARIANT_BEGIN) s.

(** [i'] is [i] moved forward inside of the same data. *)
Definition moved (i i' : Iterator) : Prop :=
  data i' + size i' = data i + size i /\ 0 <= size i' <= size i.

Lemma good_moved (strict : bool) (m : list Z) (i i' : Iterator) :
  good strict m i -> moved i i' -> good strict m i'.
Proof.
  unfold good, moved. intros (H1 & H2 & H3) [H4 H5]. repeat split; try lia.
  intros E. specialize (H3 E). lia.
Qed.

Lemma moved_trans (i j k : Iterator) : moved i j -> moved j k -> moved i k.
Proof. unfold moved. lia. Qed.

Lemma moved_refl (i : Iterator) : 0 <= size i -> moved i i.
Proof. unfold moved. lia. Qed.

Section Safety.
Context {B : Build} (m : list Z) (oob : bool).

Lemma wp_align (b : Z) (i : Iterator) : boundary b -> 0 <= size i ->
  wp oob (adbus_iter_align b i) (fun _ i' => moved i i' /\ sig i' = sig i).
Proof.
  intros Hb Hs. unfold adbus_iter_align. cbn [bind get].
  eapply wp_bind with (R := fun _ s => s = i /\ ADBUS_ALIGN (data i) b - data i <= size i).
  { apply wp_require. intros H%Z.leb_le. done. }
  intros _ ? [-> H]. pose proof (align_bounds (data i) b Hb).
  apply wp_modify. split; [|done]. unfold moved, advance. cbn [data size]. lia.
Qed.

Lemma wp_alignfield (c : Z) (i : Iterator) : 0 <= size i ->
  wp oob (adbus_iter_alignfield c i) (fun _ i' => moved i i' /\ sig i' = sig i).
Proof.
  intros Hs. unfold adbus_iter_alignfield.
  destruct (field_of c) as [[[]| | | | | |]|]; try (by apply wp_align);
    try (by apply wp_assert_fail); try (apply wp_ret; split; [by apply moved_refl|done]).
Qed.

Lemma wp_sig (c : Z) (i : Iterator) :
  wp oob (adbusI_iter_sig c i) (fun _ i' => i' = set_sig (tl (sig i)) i /\ deref (sig i) = c).
Proof.
  unfold adbusI_iter_sig. cbn [bind get put]. destruct (Z.eqb_spec (deref (sig i)) c); [done|].
  apply wp_assert_fail.
Qed.

Lemma wp_get8 (i : Iterator) :
  wp oob (adbusI_iter_get8 i) (fun p i' =>
    p = data i /\ i' = advance 1 i /\ 1 <= size i).
Proof.
  unfold adbusI_iter_get8. cbn [bind get]. unfold require.
  destruct (Z.leb_spec 1 (size i)); simpl; auto.
Qed.

Lemma wp_iter_get (n : Z) (i : Iterator) : boundary n -> 0 <= size i ->
  wp oob (iter_get n i) (fun p i' =>
    moved i i' /\ sig i' = sig i /\ p = data i' - n /\ data i <= p /\ size i' + n <= size i).
Proof.
  intros Hn Hs. unfold iter_get. eapply wp_bind; [by apply wp_align|].
  intros _ j [Hm Hj]. cbn [bind get]. unfold require.
  destruct (Z.leb_spec n (size j)); [|done]. cbn.
  assert (0 < n) by (destruct Hn as [|[|[|]]]; lia).
  unfold moved in *. simpl. repeat split; try lia. done.
Qed.

(** Reading what a get function returned. *)
Lemma wp_load_get (n : nat) (p : Z) (i i' : Iterator) (Q : Z -> Iterator -> Prop) :
  good (negb oob) m i -> moved i i' -> data i <= p -> p + Z.of_nat n <= data i' ->
  (forall v, Q v i') -> wp oob (load m p n i') Q.
Proof.
  intros (H1 & H2 & H3) [H4 H5] H6 H7 HQ. apply wp_load; [|auto].
  intros ->. specialize (H3 eq_refl). split; lia.
Qed.

Lemma wp_getstring (n : Z) (i : Iterator) : good (negb oob) m i -> 0 <= n ->
  wp oob (adbusI_iter_getstring m n i) (fun s i' =>
    s = (data i, n) /\ i' = advance (n + 1) i /\ n + 1 <= size i /\
    length (cstr (drop (Z.to_nat (data i)) m)) = Z.to_nat n /\
    data i + n < Z.of_nat (length m)).
Proof.
  intros (H1 & H2 & H3) Hn. unfold adbusI_iter_getstring. cbn [bind get].
  eapply wp_bind with (R := fun _ s => s = i /\ n + 1 <= size i).
  { apply wp_require. intros H%Z.leb_le. done. }
  intros _ ? [-> Hs].
  eapply wp_bind with (R := fun r s => s = i /\ forall k, r = Some k -> k = data i + n ->
    length (cstr (drop (Z.to_nat (data i)) m)) = Z.to_nat n /\ data i + n < Z.of_nat (length m)).
  { apply wp_memchr; [done| |done|].
    - intros ->. specialize (H3 eq_refl). lia.
    - intros k _ Hc Hl. split; [done|]. intros ? [= <-] E.
      replace (Z.to_nat n) with k by lia. split; [done|lia]. }
  intros r ? [-> Hr]. unfold require. destruct r as [k|]; [|done].
  destruct (Z.eqb_spec k (data i + n)) as [->|]; [|done]. cbn.
  destruct (Hr _ eq_refl eq_refl). repeat split; done.
Qed.

(** What consuming one element leaves: the cursor moved inside of the data
    and the signature advanced to [s]. *)
Definition consumed (i : Iterator) (s : list Z) (i' : Iterator) : Prop :=
  moved i i' /\ sig i' = s.

Lemma wp_fixed (c n : Z) (i : Iterator) : boundary n -> 0 <= size i ->
  wp oob (bind (adbusI_iter_sig c) (fun _ => iter_get n) i) (fun _ i' => consumed i (tl (sig i)) i').
Proof.
  intros Hn Hs. eapply wp_bind; [apply wp_sig|]. intros _ ? [-> _].
  eapply wp_impl; [by apply wp_iter_get|]. intros p i' (Hm & Hg & _). by split.
Qed.

Lemma wp_u8 (c : Z) (i : Iterator) : 0 <= size i ->
  wp oob (bind (adbusI_iter_sig c) (fun _ => adbusI_iter_get8) i)
    (fun _ i' => consumed i (tl (sig i)) i').
Proof.
  intros Hs. eapply wp_bind; [apply wp_sig|]. intros _ ? [-> _].
  eapply wp_impl; [apply wp_get8|]. intros p i' (_ & -> & H). split; [|done].
  unfold moved. cbn [data size set_sig advance] in *. lia.
Qed.

Lemma wp_load_byte (p : Z) (i : Iterator) (Q : Z -> Iterator -> Prop) :
  0 <= p -> (oob = false -> p + 1 <= Z.of_nat (length m)) -> (forall v, Q v i) ->
  wp oob (load8 m p i) Q.
Proof. intros Hp Hb HQ. apply wp_load; [|auto]. intros E. specialize (Hb E). lia. Qed.

Lemma moved_set_sig (s : list Z) (i : Iterator) : 0 <= size i -> moved i (set_sig s i).
Proof. unfold moved. cbn [data size set_sig]. lia. Qed.

Lemma moved_advance (n : Z) (i : Iterator) : 0 <= n <= size i -> moved i (advance n i).
Proof. unfold moved. cbn [data size advance]. lia. Qed.

(** The values are non-negative whatever the bytes are, because memory holds
    bytes. *)
Hypothesis m_bytes : bytes m.

Lemma slice_bounds (p : Z) (n : nat) : 0 <= le_value (slice m p n).
Proof.
  assert (bytes (slice m p n)) as Hb.
  { unfold slice, bytes. by apply Forall_take, Forall_drop. }
  by apply le_value_bounds in Hb as [].
Qed.

(** A 32-bit length followed by that many bytes and a NUL. *)
Lemma wp_string32 (c : Z) (i : Iterator) : good (negb oob) m i ->
  wp oob (bind (adbusI_iter_sig c) (fun _ => bind adbusI_iter_get32 (fun len =>
    bind (load32 m len) (fun n => adbusI_iter_getstring m n))) i)
    (fun _ i' => consumed i (tl (sig i)) i').
Proof.
  intros Hg. pose proof Hg as (H1 & H2 & H3). eapply wp_bind; [apply wp_sig|]. intros _ ? [-> _].
  eapply wp_bind; [by apply wp_iter_get|]. intros p j (Hm & Hj & Hp & Hd & _).
  assert (Hmj : moved i j) by (by eapply moved_trans; [apply (moved_set_sig (tl (sig i)))|]).
  cbn [set_sig data size sig] in *.
  eapply wp_bind with (R := fun n s => s = j /\ 0 <= n).
  { apply wp_load; [|intros _; split; [done|apply slice_bounds]].
    intros ->. specialize (H3 eq_refl). unfold moved in Hmj. lia. }
  intros n ? [-> Hn]. eapply wp_impl; [apply wp_getstring; [by eapply good_moved|done]|].
  intros s i' (_ & -> & Hs & _). split; [|done].
  eapply moved_trans; [exact Hmj|]. apply moved_advance. lia.
Qed.

(** An 8-bit length followed by that many bytes and a NUL. *)
Lemma wp_string8 (c : Z) (i : Iterator) : good (negb oob) m i ->
  wp oob (bind (adbusI_iter_sig c) (fun _ => bind adbusI_iter_get8 (fun len =>
    bind (load8 m len) (fun n => adbusI_iter_getstring m n))) i)
    (fun s i' => consumed i (tl (sig i)) i' /\ 0 <= fst s /\ fst s < Z.of_nat (length m) /\
       Z.of_nat (length (cstr (drop (Z.to_nat (fst s)) m))) + 2 + size i' <= size i).
Proof.
  intros Hg. pose proof Hg as (H1 & H2 & H3). eapply wp_bind; [apply wp_sig|]. intros _ ? [-> _].
  eapply wp_bind; [apply wp_get8|]. intros p j (-> & -> & Hs).
  cbn [set_sig data size sig advance] in *.
  assert (Hmj : moved i (advance 1 (set_sig (tl (sig i)) i))).
  { unfold moved. cbn [set_sig data size advance]. lia. }
  eapply wp_bind with (R := fun n s => s = advance 1 (set_sig (tl (sig i)) i) /\ 0 <= n).
  { apply wp_load; [|intros _; split; [done|apply slice_bounds]].
    intros ->. specialize (H3 eq_refl). lia. }
  intros n ? [-> Hn]. eapply wp_impl; [apply wp_getstring; [by eapply good_moved|done]|].
  intros s i' (-> & -> & Hsz & Hlen & Hb).
  cbn [set_sig data size sig advance fst] in *. split; [split; [|done]|].
  - eapply moved_trans; [exact Hmj|]. apply moved_advance. cbn [set_sig data size advance]. lia.
  - rewrite Hlen. lia.
Qed.

(** Arrays: only the non-strict run allows them. *)
Lemma wp_beginarray (i : Iterator) : oob = true -> good (negb oob) m i ->
  wp oob (adbus_iter_beginarray m i) (fun a i' => moved i i' /\
    exists s, adbus_nextarg (tl (sig i)) = Some s /\
      drop (a_sigsz a) (a_sig a) = s /\ 0 <= a_data a + a_size a).
Proof.
  intros Ho Hg. pose proof Hg as (H1 & H2 & _). unfold adbus_iter_beginarray.
  eapply wp_bind; [apply wp_sig|]. intros _ ? [-> _].
  eapply wp_bind; [by apply wp_iter_get|]. intros p j (Hm & Hj & Hp & Hd & _).
  cbn [set_sig data size sig] in *.
  eapply wp_bind with (R := fun n s => s = j /\ 0 <= n).
  { apply wp_load; [congruence|intros _; split; [done|apply slice_bounds]]. }
  intros n ? [-> Hn]. eapply wp_bind with (R := fun _ s => s = j).
  { by apply wp_require. }
  intros _ ? ->. cbn [bind get].
  assert (Hmj : moved i j) by (by eapply moved_trans; [apply (moved_set_sig (tl (sig i)))|]).
  eapply wp_bind; [apply wp_alignfield; unfold moved in Hmj; lia|].
  intros _ k [Hk Hks]. rewrite Hj in *. destruct (adbus_nextarg (tl (sig i))) as [s|] eqn:En; [|done].
  cbn. rewrite Hks. split; [by eapply moved_trans|]. exists s.
  split; [done|]. split; [|unfold moved in *; lia].
  apply nextarg_sound_fuel in En as [t ->].
  replace (length (sig_of t ++ s) - length s)%nat with (length (sig_of t)) by (rewrite length_app; lia).
  apply drop_app_length.
Qed.

Lemma wp_beginvariant (i : Iterator) : oob = true -> good (negb oob) m i ->
  wp oob (adbus_iter_beginvariant m i) (fun v i' => moved i i' /\ v_origsig v = tl (sig i) /\
    (length (sig i') + Z.to_nat (size i') + 2 <= Z.to_nat (size i))%nat).
Proof.
  intros Ho Hg. unfold adbus_iter_beginvariant.
  set (P := fun (s : Z * Z) (i' : Iterator) => consumed i (tl (sig i)) i' /\ 0 <= fst s /\ fst s < Z.of_nat (length m) /\
       Z.of_nat (length (cstr (drop (Z.to_nat (fst s)) m))) + 2 + size i' <= size i).
  pose proof (wp_string8 (chr "v") i Hg) as Hs. fold P in Hs.
  assert (E : forall k : Z * Z -> M Iterator IterVariant,
    bind (adbusI_iter_sig (chr "v")) (fun _ => bind adbusI_iter_get8 (fun len =>
      bind (load8 m len) (fun n => bind (adbusI_iter_getstring m n) k))) i =
    bind (bind (adbusI_iter_sig (chr "v")) (fun _ => bind adbusI_iter_get8 (fun len =>
      bind (load8 m len) (fun n => adbusI_iter_getstring m n)))) k i).
  { intros k. unfold bind. repeat match goal with |- context [match ?x with _ => _ end] => destruct x end; done. }
  rewrite E. eapply wp_bind; [exact Hs|]. intros vs j ((Hm & Hj) & Hp & Hlt & Hlen).
  eapply wp_bind with (R := fun _ s => s = j).
  { apply wp_load_byte; [done|lia|done]. }
  intros c ? ->. eapply wp_bind; [apply wp_alignfield; unfold moved in Hm; lia|].
  intros _ k [Hk Hks]. cbn. split; [|split; [congruence|]].
  - unfold moved in *. cbn [data size set_sig]. lia.
  - unfold moved in *. lia.
Qed.

(** The measure of the recursion: what is left of the signature and of the
    data.  A variant trades at least two more bytes of data than the length of
    the signature it brings in. *)
Definition measure (i : Iterator) : nat := (length (sig i) + Z.to_nat (size i))%nat.

(** [i'] is a state that skipping from [i] may reach, with at least one (if
    [strict]) signature character consumed. *)
Definition behind (n : nat) (i i' : Iterator) : Prop :=
  good (negb oob) m i' /\ size i' <= size i /\
  exists p, sig i = p ++ sig i' /\ (n <= length p)%nat.

Lemma behind_trans (n1 n2 : nat) (i j k : Iterator) :
  behind n1 i j -> behind n2 j k -> behind (n1 + n2) i k.
Proof.
  intros (_ & H1 & p & Hp & Hl) (H2 & H3 & q & Hq & Hl').
  split; [done|]. split; [lia|]. exists (p ++ q). rewrite Hp, Hq, <- app_assoc.
  split; [done|]. rewrite length_app. lia.
Qed.

Lemma behind_measure (n : nat) (i i' : Iterator) : behind n i i' -> (measure i' + n <= measure i)%nat.
Proof.
  intros ((H0 & _) & H1 & p & Hp & Hl). unfold measure. rewrite Hp, length_app. lia.
Qed.

Lemma behind_plain (n : nat) (i i' : Iterator) : behind n i i' -> plain (sig i) -> plain (sig i').
Proof. intros (_ & _ & p & Hp & _) H. rewrite Hp in H. by apply Forall_app in H as [_ H]. Qed.

Lemma behind_consumed (i i' : Iterator) (c : Z) (s : list Z) :
  good (negb oob) m i -> sig i = c :: s -> consumed i s i' -> behind 1 i i'.
Proof.
  intros Hg Hs [Hm Hs']. split; [by eapply good_moved|]. split; [unfold moved in Hm; lia|].
  exists [c]. rewrite Hs, Hs'. done.
Qed.

Lemma behind_refl (i : Iterator) : good (negb oob) m i -> behind 0 i i.
Proof. intros H. split; [done|]. split; [lia|]. by exists []. Qed.

Lemma wp_begin_scope (c : Z) (i : Iterator) (s : list Z) : good (negb oob) m i -> sig i = c :: s ->
  wp oob (bind (adbusI_iter_sig c) (fun _ => adbus_iter_align 8) i) (fun _ i' => behind 1 i i').
Proof.
  intros Hg Hs. pose proof Hg as [H1 _]. eapply wp_bind; [apply wp_sig|]. intros _ ? [-> _].
  eapply wp_impl; [apply wp_align; [auto with adbus|done]|]. intros _ i' [Hm Hi'].
  eapply behind_consumed; [done|exact Hs|]. split; [done|]. by rewrite Hi', Hs.
Qed.

Lemma wp_end_scope (f : field) (i : Iterator) : good (negb oob) m i ->
  wp oob (adbusI_iter_sig (code_of f) i) (fun _ i' => behind 1 i i').
Proof.
  intros Hg. pose proof Hg as [H1 _]. eapply wp_impl; [apply wp_sig|]. intros _ ? [-> Hd].
  apply deref_cons in Hd. eapply behind_consumed; [done|exact Hd|].
  split; [by apply moved_set_sig|]. by rewrite Hd.
Qed.

Lemma wp_ignore {A} (mm : M Iterator A) (i : Iterator) (Q : Iterator -> Prop) :
  wp oob (mm i) (fun _ i' => Q i') -> wp oob (bind mm (fun _ => ret tt) i) (fun _ i' => Q i').
Proof. intros H. eapply wp_bind; [exact H|]. done. Qed.

Lemma value_basic (fuel : nat) (b : basic) (i : Iterator) (s : list Z) :
  good (negb oob) m i -> sig i = code_of (Basic b) :: s ->
  wp oob (adbus_iter_value m (S fuel) i) (fun _ i' => behind 1 i i').
Proof.
  intros Hg Hs. pose proof Hg as [H1 _]. cbn [adbus_iter_value]. cbn [bind get].
  rewrite Hs. cbn [deref hd]. rewrite field_of_code.
  assert (Hc : forall i', consumed i (tl (sig i)) i' -> behind 1 i i').
  { intros i'. rewrite Hs. by apply (behind_consumed _ _ (code_of (Basic b))). }
  destruct b; apply wp_ignore;
    (eapply wp_impl;
      [first [apply wp_u8; done | apply wp_fixed; [auto with adbus|done]
             |apply wp_string32; done | apply wp_string8; done]|]);
    intros x i' Hx; apply Hc; first [exact Hx | apply Hx].
Qed.

Lemma scope_not_plain (i : Iterator) (f : field) (s : list Z) :
  (oob = false -> plain (sig i)) -> sig i = code_of f :: s ->
  f = ARRAY_BEGIN \/ f = VARIANT_BEGIN -> oob = true.
Proof.
  intros Hp Hs Hf. destruct oob; [done|]. specialize (Hp eq_refl). rewrite Hs in Hp.
  apply Forall_cons in Hp as [[H1 H2] _]. by destruct Hf; subst.
Qed.

Lemma value_wp (fuel : nat) : forall (i : Iterator),
  good (negb oob) m i -> (oob = false -> plain (sig i)) -> (measure i < fuel)%nat ->
  wp oob (adbus_iter_value m fuel i) (fun _ i' => behind 1 i i').
Proof.
  induction fuel as [|fuel IH]; intros i Hg Hp Hf; [lia|].
  destruct (field_of (deref (sig i))) as [f|] eqn:Ef.
  2:{ cbn [adbus_iter_value bind get]. rewrite Ef. apply wp_assert_fail. }
  pose proof Ef as Hd. apply field_of_Some, deref_cons in Hd.
  destruct f as [b| | | | | |]; try (by eapply value_basic);
    cbn [adbus_iter_value bind get]; rewrite Ef; try apply wp_assert_fail.
  - (* array *)
    assert (Ho : oob = true) by (eapply scope_not_plain; [exact Hp|exact Hd|by auto]).
    eapply wp_bind; [by apply wp_beginarray|].
    intros a j (Hm & s & Hn & Hs & Ha). apply wp_modify.
    apply nextarg_sound_fuel in Hn as [t Ht]. unfold behind, good, moved in *.
    cbn [data size sig]. split; [repeat split; [lia|done|by rewrite Ho]|]. split; [lia|].
    exists (code_of ARRAY_BEGIN :: sig_of t). rewrite Hd, Hs, Ht. split; [done|simpl; lia].
  - (* struct *)
    eapply wp_bind; [by eapply wp_begin_scope|]. intros ? j Hj.
    pose proof (behind_measure _ _ _ Hj) as Hmj.
    eapply wp_bind.
    + apply wp_while with (I := behind 1 i) (mu := measure); [done|lia|].
      intros k Hk Hle _. eapply wp_impl.
      * apply IH; [apply Hk| |pose proof (behind_measure _ _ _ Hk); lia].
        intros Ho. eapply behind_plain; [exact Hk|auto].
      * intros ? k' Hk'. pose proof (behind_measure _ _ _ Hk').
        split; [|lia]. pose proof (behind_trans _ _ _ _ _ Hk Hk') as (Ha & Hb & p & Hc & Hl).
        split; [done|]. split; [done|]. exists p. split; [done|lia].
    + intros ? k (Hk & _). eapply wp_impl; [apply (wp_end_scope STRUCT_END), Hk|].
      intros ? k' Hk'. destruct (behind_trans _ _ _ _ _ Hk Hk') as (Ha & Hb & p & Hc & Hl).
      split; [done|]. split; [done|]. exists p. split; [done|lia].
  - (* variant *)
    assert (Ho : oob = true) by (eapply scope_not_plain; [exact Hp|exact Hd|by auto]).
    eapply wp_bind; [by apply wp_beginvariant|].
    intros v j (Hm & Hv & Hlt).
    eapply wp_bind; [apply IH; [by eapply good_moved|congruence|unfold measure in *; lia]|].
    intros ? k Hk. apply wp_ignore. unfold adbus_iter_endvariant. cbn [bind get].
    eapply wp_bind with (R := fun _ s => s = k); [by apply wp_require|]. intros ? ? ->.
    cbn. destruct Hk as (Hk1 & Hk2 & _). split; [exact Hk1|]. split; [unfold moved in Hm; cbn; lia|].
    exists [code_of VARIANT_BEGIN]. cbn [sig set_sig]. rewrite Hv. by rewrite Hd at 1.
  - (* dict entry *)
    eapply wp_bind; [by eapply wp_begin_scope|]. intros ? j Hj.
    pose proof (behind_measure _ _ _ Hj) as Hmj.
    eapply wp_bind; [apply IH; [apply Hj| |lia]|].
    { intros Ho. eapply behind_plain; [exact Hj|auto]. }
    intros ? k Hk. pose proof (behind_measure _ _ _ Hk) as Hmk.
    pose proof (behind_trans _ _ _ _ _ Hj Hk) as Hik.
    eapply wp_bind; [apply IH; [apply Hk| |lia]|].
    { intros Ho. eapply behind_plain; [exact Hik|auto]. }
    intros ? l Hl. pose proof (behind_trans _ _ _ _ _ Hik Hl) as Hil.
    eapply wp_impl; [apply (wp_end_scope DICTENTRY_END), Hil|].
    intros ? k' Hk'. destruct (behind_trans _ _ _ _ _ Hil Hk') as (Ha & Hb & p & Hc & Hll).
    split; [done|]. split; [done|]. exists p. split; [done|lia].
Qed.
End Safety.

(** C40: [adbus_iter_value] terminates on every input: with fuel above the
    length of the signature plus the size of the data, the run ends, and if it
    succeeds it has consumed a non-empty prefix of the signature and the size
    left has not grown.  Memory may be arbitrary bytes, so this bounds the
    work done for a hostile message (nested variants included). *)
Theorem iter_value_terminates {B : Build} (m : list Z) (i : Iterator) (fuel : nat)
  (Hm : bytes m) (Hi : 0 <= size i /\ 0 <= data i) (Hf : (measure i < fuel)%nat) :
  match adbus_iter_value m fuel i with
  | Nofuel => False
  | Ret _ i' => 0 <= size i' <= size i /\
                exists p, sig i = p ++ sig i' /\ p <> []
  | _ => True
  end.
Proof.
  assert (H : wp true (adbus_iter_value m fuel i) (fun _ i' => behind m true 1 i i')).
  { apply value_wp; [done|split; [apply Hi|split; [apply Hi|done]]|done|done]. }
  destruct (adbus_iter_value m fuel i) as [a s|s| | |]; try done. simpl in H.
  destruct H as ((Hs & _) & Hle & p & Hp & Hl). split; [done|]. exists p.
  split; [done|]. by destruct p; [simpl in Hl; lia|].
Qed.

(** For a signature without arrays and variants, [adbus_iter_value] never
    reads outside of the data it was given, whatever the bytes and the size
    are, and the cursor stays inside of the data. *)
Theorem iter_value_plain_safe {B : Build} (m : list Z) (i : Iterator) (fuel : nat)
  (Hm : bytes m)
  (Hi : 0 <= size i /\ 0 <= data i /\ data i + size i <= Z.of_nat (length m))
  (Hp : plain (sig i)) (Hf : (measure i < fuel)%nat) :
  safe (adbus_iter_value m fuel i) /\
  forall i', adbus_iter_value m fuel i = Ret tt i' ->
    0 <= data i' /\ 0 <= size i' /\ data i' + size i' <= Z.of_nat (length m).
Proof.
  assert (H : wp false (adbus_iter_value m fuel i) (fun _ i' => behind m false 1 i i')).
  { apply value_wp; [done| |done|done].
    destruct Hi as (H1 & H2 & H3). by repeat split. }
  destruct (adbus_iter_value m fuel i) as [a s|s| | |]; try done.
  split; [done|]. intros i' E. injection E as _ <-. destruct H as ((Hs & Hd & Hl) & _).
  specialize (Hl eq_refl). lia.
Qed.

Lemma iter_value_terminates_witness :
  let m := str "vvvv" in let i := mkIter 0 4 (str "v(ss)") in
  bytes m /\ exists fuel, (measure i < fuel)%nat /\
  match adbus_iter_value (B := release_build) m fuel i with
  | Nofuel => False
  | Ret _ i' => 0 <= size i' <= size i /\ exists p, sig i = p ++ sig i' /\ p <> []
  | _ => True
  end.
Proof.
  cbv zeta. split; [by apply bytes_forallb|]. exists 10%nat. split; [vm_compute; lia|].
  apply (iter_value_terminates (B := release_build)).
  - by apply bytes_forallb.
  - vm_compute; split; congruence.
  - vm_compute; lia.
Defined.

Lemma iter_value_plain_safe_witness :
  safe (adbus_iter_value (B := debug_build) (le_bytes 4 3 ++ str "abc") 12 (mkIter 0 7 (str "s"))).
Proof.
  apply (iter_value_plain_safe (B := debug_build)).
  - by apply bytes_forallb.
  - vm_compute; repeat split; congruence.
  - apply Forall_singleton. vm_compute; split; congruence.
  - vm_compute; lia.
Defined.

(** [adbus_iter_endarray] does not reduce the size, so the checks of the
    element after an array are made against too large a size: the length of
    the string after this array is read beyond the end of the block. *)
Theorem iter_value_array_overread {B : Build} :
  exists m i, bytes m /\ data i + size i = Z.of_nat (length m) /\
    adbus_iter_value m 20 i = Oob.
Proof.
  exists (le_bytes 4 4 ++ [1; 2; 3; 4]), (mkIter 0 8 (str "(ays)")).
  split; [by apply bytes_forallb|]. split; [done|]. by vm_compute.
Qed.
