(* ===== verification/Values.v ===== *)
(** The abstract view of marshalled data: typed values and their reference
    encoding, with every alignment computed from the position.  The iterator
    is shown to skip exactly the encoding of a value. *)

From Stdlib Require Import ZArith Lia.
From stdpp Require Import base option list numbers strings.
From S2P Require Import Prelude Signature Iterator.
Open Scope Z_scope.

(** ** Values *)
Inductive value :=
| VNum (b : basic) (z : Z)
| VStr (b : basic) (s : list Z)
| VVariant (v : value)
| VArray (t : ty) (vs : list value)
| VStruct (vs : list value)
| VDict (k v : value).

Definition value_ind' (P : value -> Prop)
  (Hn : forall b z, P (VNum b z)) (Hs : forall b s, P (VStr b s))
  (Hv : forall v, P v -> P (VVariant v))
  (Ha : forall t vs, Forall P vs -> P (VArray t vs))
  (Ht : forall vs, Forall P vs -> P (VStruct vs))
  (Hd : forall k v, P k -> P v -> P (VDict k v)) : forall v, P v :=
  fix go v :=
    let gos := fix gos vs : Forall P vs :=
      match vs with
      | [] => List.Forall_nil P
      | v :: vs => List.Forall_cons P _ _ (go v) (gos vs)
      end in
    match v with
    | VNum b z => Hn b z
    | VStr b s => Hs b s
    | VVariant v => Hv v (go v)
    | VArray t vs => Ha t vs (gos vs)
    | VStruct vs => Ht vs (gos vs)
    | VDict k v => Hd k v (go k) (go v)
    end.

Fixpoint ty_of (v : value) : ty :=
  match v with
  | VNum b _ | VStr b _ => TBasic b
  | VVariant _ => TVariant
  | VArray t _ => TArray t
  | VStruct vs => TStruct (map ty_of vs)
  | VDict k v => TDict (ty_of k) (ty_of v)
  end.

(** Bytes of the fixed-size types, 0 for the strings. *)
Definition width (b : basic) : Z :=
  match b with
  | UINT8 => 1
  | INT16 | UINT16 => 2
  | BOOLEAN | INT32 | UINT32 => 4
  | INT64 | UINT64 | DOUBLE => 8
  | STRING | OBJECT_PATH | SIGNATURE => 0
  end.

Definition len (l : list Z) : Z := Z.of_nat (length l).

(** Padding from position [p] to a boundary. *)
Definition pad (p b : Z) : Z := ADBUS_ALIGN p b - p.

Definition enc_string (p : Z) (s : list Z) : list Z :=
  zeros (pad p 4) ++ le_bytes 4 (len s) ++ s ++ [0].

Definition enc_signature (s : list Z) : list Z := len s :: s ++ [0].

(** Values one after the other, each encoded at the position it lands on. *)
Section Seq.
Context (f : Z -> value -> list Z).
Fixpoint seq_enc (p : Z) (vs : list value) : list Z :=
  match vs with
  | [] => []
  | v :: vs' => f p v ++ seq_enc (p + len (f p v)) vs'
  end.
End Seq.

Fixpoint enc (p : Z) (v : value) {struct v} : list Z :=
  match v with
  | VNum b z => zeros (pad p (width b)) ++ le_bytes (Z.to_nat (width b)) z
  | VStr SIGNATURE s => enc_signature s
  | VStr _ s => enc_string p s
  | VVariant v => let h := enc_signature (sig_of (ty_of v)) in h ++ enc (p + len h) v
  | VArray t vs =>
      let q := p + pad p 4 + 4 in
      let d := pad q (field_alignment (head_of t)) in
      let body := seq_enc enc (q + d) vs in
      zeros (pad p 4) ++ le_bytes 4 (len body) ++ zeros d ++ body
  | VStruct vs =>
      zeros (pad p 8) ++
      seq_enc enc (p + pad p 8) vs
  | VDict k v =>
      let e := enc (p + pad p 8) k in
      zeros (pad p 8) ++ e ++ enc (p + pad p 8 + len e) v
  end.

Definition encs : Z -> list value -> list Z := seq_enc enc.

Definition array_data (p : Z) (t : ty) : Z :=
  p + pad p 4 + 4 + pad (p + pad p 4 + 4) (field_alignment (head_of t)).

Lemma enc_array (p : Z) (t : ty) (vs : list value) :
  enc p (VArray t vs) =
  zeros (pad p 4) ++ le_bytes 4 (len (encs (array_data p t) vs)) ++
  zeros (pad (p + pad p 4 + 4) (field_alignment (head_of t))) ++ encs (array_data p t) vs.
Proof. reflexivity. Qed.

Lemma enc_struct (p : Z) (vs : list value) :
  enc p (VStruct vs) = zeros (pad p 8) ++ encs (p + pad p 8) vs.
Proof. reflexivity. Qed.

(** ** Well-formed values at a position *)
Definition wf_num (b : basic) (z : Z) : Prop := 0 < width b /\ 0 <= z < 2 ^ (8 * width b).

Definition wf_str (b : basic) (s : list Z) : Prop :=
  width b = 0 /\ bytes s /\ no_nul s /\ len s < match b with SIGNATURE => 255 | _ => 2 ^ 32 end.

Fixpoint wf (p : Z) (v : value) {struct v} : Prop :=
  match v with
  | VNum b z => wf_num b z
  | VStr b s => wf_str b s
  | VVariant v =>
      len (sig_of (ty_of v)) < 255 /\ wf (p + len (enc_signature (sig_of (ty_of v)))) v
  | VArray t vs =>
      len (encs (array_data p t) vs) <= ADBUS_MAXIMUM_ARRAY_LENGTH /\
      (fix go p vs := match vs with [] => True
       | v :: vs' => (wf p v /\ ty_of v = t) /\ go (p + len (enc p v)) vs' end) (array_data p t) vs
  | VStruct vs =>
      (fix go p vs := match vs with [] => True
       | v :: vs' => wf p v /\ go (p + len (enc p v)) vs' end) (p + pad p 8) vs
  | VDict k v => wf (p + pad p 8) k /\ wf (p + pad p 8 + len (enc (p + pad p 8) k)) v
  end.

Fixpoint wfs (p : Z) (vs : list value) : Prop :=
  match vs with [] => True | v :: vs' => wf p v /\ wfs (p + len (enc p v)) vs' end.

Lemma wf_struct (p : Z) (vs : list value) : wf p (VStruct vs) = wfs (p + pad p 8) vs.
Proof. reflexivity. Qed.

Lemma wf_array (p : Z) (t : ty) (vs : list value) :
  wf p (VArray t vs) <->
  len (encs (array_data p t) vs) <= ADBUS_MAXIMUM_ARRAY_LENGTH /\
  wfs (array_data p t) vs /\ Forall (fun v => ty_of v = t) vs.
Proof.
  cbn [wf]. apply and_iff_compat_l. generalize (array_data p t) as q.
  induction vs as [|v vs IH]; intros q; [split; [by repeat constructor|done]|].
  cbn [wfs]. rewrite IH, Forall_cons. tauto.
Qed.

(** What iterating over the value adds back to the size: the array bodies
    that [adbus_iter_endarray] jumps over. *)
Fixpoint slack (p : Z) (v : value) {struct v} : Z :=
  match v with
  | VNum _ _ | VStr _ _ => 0
  | VVariant v => slack (p + len (enc_signature (sig_of (ty_of v)))) v
  | VArray t vs => len (encs (array_data p t) vs)
  | VStruct vs =>
      (fix go p vs := match vs with [] => 0
       | v :: vs' => slack p v + go (p + len (enc p v)) vs' end) (p + pad p 8) vs
  | VDict k v => slack (p + pad p 8) k + slack (p + pad p 8 + len (enc (p + pad p 8) k)) v
  end.

Fixpoint slacks (p : Z) (vs : list value) : Z :=
  match vs with [] => 0 | v :: vs' => slack p v + slacks (p + len (enc p v)) vs' end.

(** Fuel enough to skip a value. *)
Fixpoint vfuel (v : value) : nat :=
  match v with
  | VNum _ _ | VStr _ _ | VArray _ _ => 1
  | VVariant v => S (vfuel v)
  | VStruct vs => S (list_sum (map (fun v => S (vfuel v)) vs))
  | VDict k v => S (vfuel k + vfuel v)
  end%nat.

Lemma len_app (a b : list Z) : len (a ++ b) = len a + len b.
Proof. unfold len. rewrite length_app. lia. Qed.
Lemma len_cons (x : Z) (a : list Z) : len (x :: a) = 1 + len a.
Proof. unfold len. cbn [length]. lia. Qed.
Lemma len_nil : len [] = 0. Proof. done. Qed.
Lemma len_nonneg (a : list Z) : 0 <= len a. Proof. unfold len. lia. Qed.
Lemma len_le_bytes (n : nat) (z : Z) : len (le_bytes n z) = Z.of_nat n.
Proof. unfold len. by rewrite length_le_bytes. Qed.

Lemma pad_bounds (p b : Z) : boundary b -> 0 <= pad p b < b.
Proof. intros H. unfold pad. pose proof (align_bounds p b H). lia. Qed.

Lemma len_zeros_pad (p b : Z) : boundary b -> len (zeros (pad p b)) = pad p b.
Proof. intros H. unfold len. rewrite length_zeros. pose proof (pad_bounds p b H). lia. Qed.

Lemma align_pad (p b : Z) : ADBUS_ALIGN p b = p + pad p b.
Proof. unfold pad. lia. Qed.

(** Aligning an aligned position does nothing. *)
Lemma pad_pad (p b : Z) : boundary b -> pad (p + pad p b) b = 0.
Proof.
  intros H. unfold pad at 1. rewrite align_id; [lia|done|].
  rewrite <- align_pad. by apply align_mod.
Qed.

Lemma head_boundary (t : ty) : boundary (field_alignment (head_of t)).
Proof. destruct t as [[]| | | |]; unfold boundary; cbn; auto. Qed.

Lemma width_boundary (b : basic) : 0 < width b -> boundary (width b).
Proof. destruct b; unfold boundary; cbn; auto; lia. Qed.

#[export] Hint Resolve head_boundary width_boundary : adbus.

Lemma pad_1 (p : Z) : pad p 1 = 0.
Proof. pose proof (pad_bounds p 1 boundary_1). lia. Qed.

Lemma zeros_0 : zeros 0 = []. Proof. done. Qed.

(** The padding in front of a value can be taken off. *)
Definition value_alignment (v : value) : Z := field_alignment (head_of (ty_of v)).

Definition aligned (p : Z) (v : value) : Z := p + pad p (value_alignment v).

Lemma aligned_array_data (p : Z) (t : ty) : array_data (p + pad p 4) t = array_data p t.
Proof. unfold array_data. rewrite pad_pad by auto with adbus. by rewrite Z.add_0_r. Qed.

Lemma enc_aligned (p : Z) (v : value) : (forall b z, v = VNum b z -> 0 < width b) ->
  (forall b s, v = VStr b s -> width b = 0) ->
  enc p v = zeros (pad p (value_alignment v)) ++ enc (aligned p v) v.
Proof.
  intros Hw Hs. unfold aligned.
  assert (Hpp : forall b, boundary b -> pad (p + pad p b) b = 0) by (intros; by apply pad_pad).
  destruct v as [b z|b s|v|t vs|vs|k v]; unfold value_alignment; cbn [ty_of head_of].
  - specialize (Hw b z eq_refl). assert (E : field_alignment (Basic b) = width b) by (by destruct b).
    rewrite E. cbn [enc]. by rewrite Hpp by auto with adbus.
  - specialize (Hs b s eq_refl). destruct b; cbn in Hs; try lia; cbn [enc field_alignment];
      unfold enc_string; rewrite ?pad_1, ?Hpp by auto with adbus; done.
  - cbn [field_alignment]. by rewrite pad_1, Z.add_0_r.
  - cbn [field_alignment]. rewrite !enc_array, aligned_array_data, Hpp by auto with adbus.
    by rewrite Z.add_0_r.
  - cbn [field_alignment]. rewrite !enc_struct, Hpp by auto with adbus. by rewrite Z.add_0_r.
  - cbn [field_alignment enc]. rewrite Hpp by auto with adbus. by rewrite Z.add_0_r.
Qed.

Lemma wf_head (p : Z) (v : value) : wf p v ->
  (forall b z, v = VNum b z -> 0 < width b) /\ (forall b s, v = VStr b s -> width b = 0).
Proof. by destruct v; intros H; split; intros ? ? E; inversion E; subst; apply H. Qed.

Lemma wf_aligned (p : Z) (v : value) : wf p v -> wf (aligned p v) v.
Proof.
  unfold aligned, value_alignment. destruct v as [b z|b s|v|t vs|vs|k v]; try done;
    cbn [ty_of head_of field_alignment].
  - by rewrite pad_1, Z.add_0_r.
  - by rewrite !wf_array, aligned_array_data.
  - by rewrite !wf_struct, pad_pad, Z.add_0_r by auto with adbus.
  - cbn [wf]. by rewrite pad_pad, Z.add_0_r by auto with adbus.
Qed.

Lemma slack_aligned (p : Z) (v : value) : slack (aligned p v) v = slack p v.
Proof.
  unfold aligned, value_alignment. destruct v as [b z|b s|v|t vs|vs|k v]; try done;
    cbn [ty_of head_of field_alignment].
  - by rewrite pad_1, Z.add_0_r.
  - cbn [slack]. by rewrite aligned_array_data.
  - cbn [slack]. by rewrite pad_pad, Z.add_0_r by auto with adbus.
  - cbn [slack]. by rewrite pad_pad, Z.add_0_r by auto with adbus.
Qed.

Lemma slack_nonneg (p : Z) (v : value) : 0 <= slack p v.
Proof.
  revert p. induction v as [b z|b s|v IH|t vs IH|vs IH|k v IHk IHv] using value_ind'; intros p;
    cbn [slack]; try lia; try apply IH; try apply len_nonneg.
  - generalize (p + pad p 8) as q. induction IH as [|v vs Hv _ IH]; intros q; [lia|].
    specialize (IH (q + len (enc q v))). specialize (Hv q). lia.
  - specialize (IHk (p + pad p 8)).
    specialize (IHv (p + pad p 8 + len (enc (p + pad p 8) k))). lia.
Qed.

(** ** The iterator on encoded data

    Exact results of the primitive operations when the data is there. *)
Section Exact.
Context {B : Build} (m : list Z).

Lemma align_ok (d s b : Z) (g : list Z) : pad d b <= s ->
  adbus_iter_align b (mkIter d s g) = Ret tt (mkIter (d + pad d b) (s - pad d b) g).
Proof.
  intros H. unfold adbus_iter_align. cbn [bind get data size].
  unfold require. fold (pad d b). rewrite (proj2 (Z.leb_le _ _)) by done. reflexivity.
Qed.

Lemma sig_ok (d s c : Z) (g : list Z) : deref g = c ->
  adbusI_iter_sig c (mkIter d s g) = Ret tt (mkIter d s (tl g)).
Proof. intros H. unfold adbusI_iter_sig. cbn. by rewrite H, Z.eqb_refl. Qed.

Lemma get8_ok (d s : Z) (g : list Z) : 1 <= s ->
  adbusI_iter_get8 (mkIter d s g) = Ret d (mkIter (d + 1) (s - 1) g).
Proof.
  intros H. unfold adbusI_iter_get8. cbn [bind get size]. unfold require.
  by rewrite (proj2 (Z.leb_le _ _)).
Qed.

Lemma iter_get_ok (n d s : Z) (g : list Z) : pad d n + n <= s -> boundary n ->
  iter_get n (mkIter d s g) = Ret (d + pad d n) (mkIter (d + pad d n + n) (s - pad d n - n) g).
Proof.
  intros H Hb. pose proof (pad_bounds d n Hb). unfold iter_get.
  erewrite bind_Ret by (apply align_ok; lia). cbn [bind get size]. unfold require.
  by rewrite (proj2 (Z.leb_le _ _)) by lia.
Qed.

Lemma alignfield_ok (t : ty) (d s : Z) (g : list Z) :
  pad d (field_alignment (head_of t)) <= s ->
  adbus_iter_alignfield (code_of (head_of t)) (mkIter d s g) =
    Ret tt (mkIter (d + pad d (field_alignment (head_of t))) (s - pad d (field_alignment (head_of t))) g).
Proof.
  intros H. unfold adbus_iter_alignfield. rewrite field_of_code.
  assert (E1 : pad d 1 = 0) by (unfold pad; rewrite align_id; [lia|auto with adbus|apply Z.mod_1_r]).
  destruct t as [[]| | | |]; cbn [head_of field_alignment] in *; try (by apply align_ok);
    rewrite E1, Z.add_0_r, Z.sub_0_r; reflexivity.
Qed.

Lemma at_zeros (p b : Z) (l : list Z) : boundary b -> at_ m p (zeros (pad p b) ++ l) ->
  at_ m (p + pad p b) l.
Proof.
  intros Hb H. apply at_app in H as [_ H]. fold (len (zeros (pad p b))) in H.
  by rewrite len_zeros_pad in H.
Qed.

Lemma load_le_bytes {T} (p z : Z) (n : nat) (l : list Z) (s : T) :
  at_ m p (le_bytes n z ++ l) -> (0 < n)%nat -> 0 <= z < 2 ^ (8 * Z.of_nat n) ->
  load m p n s = Ret z s.
Proof.
  intros H Hn Hz. apply at_app in H as [H _].
  pose proof (load_at m (le_bytes n z) p s) as E. rewrite length_le_bytes in E.
  rewrite E; [by rewrite le_value_bytes_small|by destruct n; [lia|]|done].
Qed.

Lemma load8_at {T} (p b : Z) (l : list Z) (s : T) : at_ m p (b :: l) -> load8 m p s = Ret b s.
Proof.
  intros H. change (b :: l) with ([b] ++ l) in H. apply at_app in H as [H _].
  unfold load8. pose proof (load_at m [b] p s) as E. cbn [length] in E.
  rewrite E; [cbn [le_value]; f_equal; lia|done|done].
Qed.

Lemma getstring_ok (d s : Z) (g str : list Z) :
  at_ m d (str ++ [0]) -> no_nul str -> len str + 1 <= s ->
  adbusI_iter_getstring m (len str) (mkIter d s g) =
    Ret (d, len str) (mkIter (d + (len str + 1)) (s - (len str + 1)) g).
Proof.
  intros Hat Hn Hs. unfold adbusI_iter_getstring. cbn [bind get data size].
  erewrite bind_Ret by by apply require_true, Z.leb_le.
  erewrite bind_Ret by (apply memchr_at; [exact Hat|exact Hn|unfold len; lia]). fold (len str).
  erewrite bind_Ret by by apply require_true, Z.eqb_eq. reflexivity.
Qed.
End Exact.

Section Skip.
Context {B : Build} (m : list Z).

(** [skips n d l k t]: with fuel above [n], [adbus_iter_value] at [d] moves
    over [l], adding [k] to the size, when the signature starts with [t]. *)
Definition skips (n : nat) (d : Z) (l : list Z) (k : Z) (t : ty) : Prop :=
  forall fuel s r, (n < fuel)%nat -> len l <= s ->
    adbus_iter_value m fuel (mkIter d s (sig_of t ++ r)) =
      Ret tt (mkIter (d + len l) (s - len l + k) r).

Ltac start_skip :=
  let fuel := fresh "fuel" in
  intros [|fuel] s r Hf Hs; [lia|]; cbn [adbus_iter_value bind get sig];
  rewrite sig_of_deref, field_of_code; cbn [head_of sig_of app].

Lemma skip_num (d : Z) (b : basic) (z : Z) : wf_num b z ->
  skips 0 d (enc d (VNum b z)) 0 (TBasic b).
Proof.
  intros [Hw Hz]. start_skip. cbn [enc] in *. rewrite len_app, len_le_bytes in *.
  rewrite len_zeros_pad in * by auto with adbus.
  assert (Hb : 1 <= s /\ pad d 1 = 0).
  { pose proof (pad_bounds d 1 boundary_1). pose proof (pad_bounds d (width b) (width_boundary b Hw)). lia. }
  destruct b; cbn [width] in *; try lia; unfold adbus_iter_u8, adbus_iter_bool, adbus_iter_i16,
    adbus_iter_u16, adbus_iter_i32, adbus_iter_u32, adbus_iter_i64, adbus_iter_u64, adbus_iter_double,
    adbusI_iter_get16, adbusI_iter_get32, adbusI_iter_get64;
    rewrite bind_assoc; (erewrite bind_Ret; [|by apply sig_ok]); cbn [tl];
    (erewrite bind_Ret; [|first [apply get8_ok; lia | apply iter_get_ok; [lia|auto with adbus]]]);
    unfold ret; do 2 f_equal; lia.
Qed.

Lemma len_enc_string (d : Z) (s : list Z) : len (enc_string d s) = pad d 4 + 4 + (len s + 1).
Proof. unfold enc_string. rewrite !len_app, len_zeros_pad, len_le_bytes by auto with adbus. change (len [0]) with 1. lia. Qed.

Lemma len_enc_signature (s : list Z) : len (enc_signature s) = 1 + (len s + 1).
Proof. unfold enc_signature. rewrite len_cons, len_app. change (len [0]) with 1. lia. Qed.

Lemma string32_ok (c d s : Z) (g str rest : list Z) :
  deref g = c -> at_ m d (enc_string d str ++ rest) -> no_nul str -> len str < 2 ^ 32 ->
  len (enc_string d str) <= s ->
  bind (adbusI_iter_sig c) (fun _ => bind adbusI_iter_get32 (fun len =>
    bind (load32 m len) (fun n => adbusI_iter_getstring m n))) (mkIter d s g) =
  Ret (d + pad d 4 + 4, len str)
      (mkIter (d + len (enc_string d str)) (s - len (enc_string d str)) (tl g)).
Proof.
  intros Hc Hat Hn Hlen Hs. rewrite len_enc_string in *. pose proof (len_nonneg str).
  unfold enc_string in Hat. rewrite <- !app_assoc in Hat. apply at_zeros in Hat; [|auto with adbus].
  erewrite bind_Ret by by apply sig_ok.
  erewrite bind_Ret by (apply iter_get_ok; [lia|auto with adbus]).
  erewrite bind_Ret by (eapply load_le_bytes; [exact Hat|lia|change (8 * Z.of_nat 4) with 32; lia]).
  apply at_app in Hat as [_ Hat]. fold (len (le_bytes 4 (len str))) in Hat. rewrite len_le_bytes in Hat.
  rewrite app_assoc in Hat. apply at_app in Hat as [Hat _].
  rewrite getstring_ok by (done || lia). do 2 f_equal; lia.
Qed.

Lemma string8_ok (c d s : Z) (g str rest : list Z) :
  deref g = c -> at_ m d (enc_signature str ++ rest) -> no_nul str ->
  len (enc_signature str) <= s ->
  bind (adbusI_iter_sig c) (fun _ => bind adbusI_iter_get8 (fun len =>
    bind (load8 m len) (fun n => adbusI_iter_getstring m n))) (mkIter d s g) =
  Ret (d + 1, len str)
      (mkIter (d + len (enc_signature str)) (s - len (enc_signature str)) (tl g)).
Proof.
  intros Hc Hat Hn Hs. rewrite len_enc_signature in *. pose proof (len_nonneg str).
  unfold enc_signature in Hat. cbn [app] in Hat.
  erewrite bind_Ret by by apply sig_ok.
  erewrite bind_Ret by (apply get8_ok; lia).
  erewrite bind_Ret by (eapply load8_at; exact Hat).
  change (len str :: (str ++ [0]) ++ rest) with ([len str] ++ (str ++ [0]) ++ rest) in Hat.
  apply at_app in Hat as [_ Hat]. apply at_app in Hat as [Hat _]. cbn [length] in Hat.
  change (Z.of_nat 1) with 1 in Hat.
  rewrite getstring_ok by (done || lia). do 2 f_equal; lia.
Qed.

Lemma skip_str (d : Z) (b : basic) (str : list Z) :
  wf_str b str -> at_ m d (enc d (VStr b str)) -> skips 0 d (enc d (VStr b str)) 0 (TBasic b).
Proof.
  intros (Hw & Hb & Hn & Hl) Hat. start_skip. rewrite <- (app_nil_r (enc d (VStr b str))) in Hat.
  rewrite Z.add_0_r.
  destruct b; cbn [width enc] in *; try lia;
    unfold adbus_iter_string, adbus_iter_objectpath, adbus_iter_signature;
    (erewrite bind_Ret;
      [|first [eapply string32_ok; [done|exact Hat|done|done|done]
              |eapply string8_ok; [done|exact Hat|done|done]]]); reflexivity.
Qed.

Lemma skip_array (d : Z) (t : ty) (vs : list value) :
  len (encs (array_data d t) vs) <= ADBUS_MAXIMUM_ARRAY_LENGTH ->
  at_ m d (enc d (VArray t vs)) ->
  skips 0 d (enc d (VArray t vs)) (len (encs (array_data d t) vs)) (TArray t).
Proof.
  intros Hl Hat. start_skip. rewrite enc_array in *. set (body := encs (array_data d t) vs) in *.
  set (al := field_alignment (head_of t)) in *. set (q := d + pad d 4 + 4) in *.
  assert (Hal : boundary al) by apply head_boundary. pose proof (pad_bounds q al Hal).
  pose proof (pad_bounds d 4 boundary_4). pose proof (len_nonneg body).
  rewrite !len_app, !len_zeros_pad, len_le_bytes in * by auto with adbus.
  unfold adbus_iter_beginarray. rewrite bind_assoc. erewrite bind_Ret by by apply sig_ok.
  cbn [tl]. rewrite bind_assoc. erewrite bind_Ret by (apply iter_get_ok; [lia|auto with adbus]).
  apply at_zeros in Hat; [|auto with adbus]. rewrite bind_assoc.
  erewrite bind_Ret.
  2:{ eapply load_le_bytes; [exact Hat|lia|]. unfold ADBUS_MAXIMUM_ARRAY_LENGTH in Hl. cbn. lia. }
  rewrite bind_assoc. erewrite bind_Ret by by apply require_true, Z.leb_le.
  rewrite bind_assoc. erewrite bind_Ret by reflexivity. cbn [sig]. rewrite sig_of_deref.
  rewrite bind_assoc. erewrite bind_Ret by (apply alignfield_ok; fold al q; lia). fold al q.
  rewrite nextarg_one. rewrite bind_assoc. erewrite bind_Ret by reflexivity.
  erewrite bind_Ret by reflexivity. unfold adbus_iter_endarray, modify.
  cbn [a_data a_size a_sig a_sigsz size sig data].
  replace (length (sig_of t ++ r) - length r)%nat with (length (sig_of t)) by (rewrite length_app; lia).
  rewrite drop_app_length. do 2 f_equal; lia.
Qed.

Lemma cstr_at (p : Z) (str rest : list Z) : at_ m p (str ++ 0 :: rest) -> no_nul str ->
  cstr (drop (Z.to_nat p) m) = str.
Proof.
  intros [Hp Hat] Hn. rewrite <- (take_drop (length (str ++ 0 :: rest)) (drop (Z.to_nat p) m)), Hat.
  rewrite <- app_assoc. cbn [app]. by apply cstr_app_nul.
Qed.

Lemma beginvariant_ok (d s : Z) (t : ty) (g rest : list Z) :
  let h := enc_signature (sig_of t) in
  let p := d + len h + pad (d + len h) (field_alignment (head_of t)) in
  at_ m d (h ++ rest) -> p - d <= s ->
  adbus_iter_beginvariant m (mkIter d s (code_of VARIANT_BEGIN :: g)) =
    Ret (mkVariant g (sig_of t) p 0) (mkIter p (s - (p - d)) (sig_of t)).
Proof.
  intros h p Hat Hs. unfold p in *. clear p.
  pose proof (pad_bounds (d + len h) _ (head_boundary t)).
  assert (E : forall k : Z * Z -> M Iterator IterVariant,
    bind (adbusI_iter_sig (chr "v")) (fun _ => bind adbusI_iter_get8 (fun len =>
      bind (load8 m len) (fun n => bind (adbusI_iter_getstring m n) k)))
      (mkIter d s (code_of VARIANT_BEGIN :: g)) =
    k (d + 1, len (sig_of t)) (mkIter (d + len h) (s - len h) g)).
  { intros k. pose proof (string8_ok (chr "v") d s (code_of VARIANT_BEGIN :: g) (sig_of t) rest) as E.
    fold h in E. specialize (E eq_refl Hat (no_nul_sig_of t) ltac:(lia)).
    revert E. unfold bind. repeat match goal with |- context [match ?x with _ => _ end] => destruct x end;
      try discriminate. by intros [= -> ->]. }
  unfold adbus_iter_beginvariant. rewrite E. cbn [fst].
  assert (Hsig : at_ m (d + 1) (sig_of t ++ 0 :: rest)).
  { unfold h, enc_signature in Hat. cbn [app] in Hat. rewrite <- app_assoc in Hat.
    change (len (sig_of t) :: sig_of t ++ [0] ++ rest) with ([len (sig_of t)] ++ sig_of t ++ 0 :: rest) in Hat.
    by apply at_app in Hat as [_ Hat]. }
  rewrite (cstr_at _ _ _ Hsig (no_nul_sig_of t)).
  erewrite bind_Ret.
  2:{ destruct (sig_of_head t) as [s' Et]. rewrite Et in Hsig. eapply load8_at. exact Hsig. }
  erewrite bind_Ret by (apply alignfield_ok; lia).
  erewrite bind_Ret by reflexivity. erewrite bind_Ret by reflexivity.
  unfold set_sig, ret. cbn [data size sig]. do 2 f_equal. lia.
Qed.

Lemma skip_variant (d : Z) (v : value) (n : nat) :
  wf d (VVariant v) -> at_ m d (enc d (VVariant v)) ->
  (forall p, wf p v -> at_ m p (enc p v) -> skips n p (enc p v) (slack p v) (ty_of v)) ->
  skips (S n) d (enc d (VVariant v)) (slack d (VVariant v)) TVariant.
Proof.
  intros [_ Hw] Hat IH. start_skip. cbn [enc slack] in *.
  set (h := enc_signature (sig_of (ty_of v))) in *. set (p := d + len h) in *.
  pose proof (wf_head _ _ Hw) as [Hw1 Hw2]. pose proof (enc_aligned p v Hw1 Hw2) as Ea.
  pose proof (pad_bounds p _ (head_boundary (ty_of v))). fold (value_alignment v) in *.
  assert (El : len (enc p v) = pad p (value_alignment v) + len (enc (aligned p v) v)).
  { rewrite Ea at 1. by rewrite len_app, len_zeros_pad by (apply head_boundary). }
  pose proof (len_nonneg (enc (aligned p v) v)). rewrite len_app in *.
  assert (Ep : aligned p v = p + pad p (value_alignment v)) by reflexivity.
  change (chr "v") with (code_of VARIANT_BEGIN).
  erewrite bind_Ret by (apply (beginvariant_ok d s (ty_of v) _ (enc p v)); [exact Hat|]; fold h p;
    fold (value_alignment v); lia). fold h p. fold (value_alignment v). fold (aligned p v).
  rewrite <- (app_nil_r (sig_of (ty_of v))) at 1.
  erewrite bind_Ret.
  2:{ apply (IH (aligned p v)); [by apply wf_aligned| |lia|lia].
      apply at_app in Hat as [_ Hat]. fold (len h) p in Hat. rewrite Ea in Hat.
      apply at_zeros in Hat; [done|apply head_boundary]. }
  rewrite slack_aligned. unfold adbus_iter_endvariant, bind, get, require, put, ret, set_sig.
  cbn [deref hd sig set_sig data size v_origsig v_sig v_data Z.eqb].
  do 2 f_equal; lia.
Qed.

(** The loop over the fields of a struct. *)
Lemma while_fields (n : nat) (vs : list value) : forall (fuel f : nat) (d s : Z) (r : list Z),
  Forall (fun v => forall p, wf p v -> at_ m p (enc p v) -> skips n p (enc p v) (slack p v) (ty_of v)) vs ->
  wfs d vs -> at_ m d (encs d vs) -> len (encs d vs) <= s ->
  (length vs < fuel)%nat -> (n < f)%nat ->
  while_ fuel (fun i => negb (deref (sig i) =? chr ")")) (adbus_iter_value m f)
    (mkIter d s (sigs_of (map ty_of vs) ++ code_of STRUCT_END :: r)) =
  Ret tt (mkIter (d + len (encs d vs)) (s - len (encs d vs) + slacks d vs) (code_of STRUCT_END :: r)).
Proof.
  induction vs as [|v vs IH]; intros fuel f d s r Hv Hw Hat Hs Hf Hn.
  - destruct fuel as [|fuel]; [lia|].
    transitivity (@Ret Iterator unit tt (mkIter d s (code_of STRUCT_END :: r))); [done|].
    change (len (encs d [])) with 0. change (slacks d []) with 0. do 2 f_equal; lia.
  - destruct fuel as [|fuel]; [lia|]. apply Forall_cons in Hv as [Hv Hvs]. destruct Hw as [Hw Hws].
    cbn [encs seq_enc slacks] in *. fold (encs (d + len (enc d v)) vs) in *.
    rewrite len_app in *. pose proof (len_nonneg (encs (d + len (enc d v)) vs)).
    pose proof (slack_nonneg d v).
    apply at_app in Hat as [Hat1 Hat2]. fold (len (enc d v)) in Hat2.
    cbn [map sigs_of concat while_ sig]. rewrite <- app_assoc.
    change (chr ")") with (code_of STRUCT_END). rewrite sig_of_not_end by auto. cbn [negb].
    erewrite bind_Ret by (apply (Hv d); [done|done|done|lia]).
    fold (sigs_of (map ty_of vs)). change (code_of STRUCT_END) with (chr ")") at 1.
    rewrite IH by (done || simpl in Hf; lia). do 2 f_equal; lia.
Qed.
End Skip.

Section Main.
Context {B : Build} (m : list Z).

Lemma skips_mono (n n' : nat) (d : Z) (l : list Z) (k : Z) (t : ty) :
  (n <= n')%nat -> skips m n d l k t -> skips m n' d l k t.
Proof. intros Hn H fuel s r Hf. apply H. lia. Qed.

Lemma begin_scope_ok (c d s : Z) (g : list Z) : deref g = c -> pad d 8 <= s ->
  bind (adbusI_iter_sig c) (fun _ => adbus_iter_align 8) (mkIter d s g) =
    Ret tt (mkIter (d + pad d 8) (s - pad d 8) (tl g)).
Proof. intros Hc Hs. erewrite bind_Ret by by apply sig_ok. by apply align_ok. Qed.

Lemma sum_ge (vs : list value) :
  (length vs <= list_sum (map (fun v => S (vfuel v)) vs))%nat /\
  Forall (fun v => (vfuel v <= list_sum (map (fun v => S (vfuel v)) vs))%nat) vs.
Proof.
  induction vs as [|v vs [IH1 IH2]]; [by repeat constructor|].
  cbn [length map list_sum foldr]. unfold list_sum in *. split; [cbn; lia|].
  constructor; [cbn; lia|]. eapply Forall_impl; [exact IH2|]. cbn. intros x Hx. lia.
Qed.

Lemma skip_struct (d : Z) (vs : list value) :
  wf d (VStruct vs) -> at_ m d (enc d (VStruct vs)) ->
  Forall (fun v => forall p, wf p v -> at_ m p (enc p v) ->
    skips m (vfuel v) p (enc p v) (slack p v) (ty_of v)) vs ->
  skips m (vfuel (VStruct vs)) d (enc d (VStruct vs)) (slack d (VStruct vs)) (TStruct (map ty_of vs)).
Proof.
  intros Hw Hat IH fuel s r Hf Hs. destruct fuel as [|fuel]; [lia|].
  cbn [adbus_iter_value bind get sig]. rewrite sig_of_deref, field_of_code. cbn [head_of sig_of app].
  rewrite enc_struct in *. rewrite wf_struct in Hw. change (slack d (VStruct vs)) with (slacks (d + pad d 8) vs).
  rewrite len_app, len_zeros_pad in * by auto with adbus.
  apply at_zeros in Hat; [|auto with adbus]. destruct (sum_ge vs) as [Hlen Hsum].
  cbn [vfuel] in Hf. pose proof (len_nonneg (encs (d + pad d 8) vs)).
  erewrite bind_Ret by (apply begin_scope_ok; [done|lia]).
  cbn [tl]. rewrite <- app_assoc. cbn [app].
  erewrite bind_Ret.
  2:{ apply (while_fields m (list_sum (map (fun v => S (vfuel v)) vs))); try done; try lia.
      clear Hf Hlen. eapply Forall_impl; [apply Forall_and; split; [exact IH|exact Hsum]|].
      intros v [Hv Hle] p Hwp Hatp. eapply skips_mono; [exact Hle|by apply Hv]. }
  unfold adbus_iter_endstruct. rewrite sig_ok by done. cbn [tl]. do 2 f_equal; lia.
Qed.

Lemma skip_dict (d : Z) (k v : value) :
  wf d (VDict k v) -> at_ m d (enc d (VDict k v)) ->
  (forall p, wf p k -> at_ m p (enc p k) -> skips m (vfuel k) p (enc p k) (slack p k) (ty_of k)) ->
  (forall p, wf p v -> at_ m p (enc p v) -> skips m (vfuel v) p (enc p v) (slack p v) (ty_of v)) ->
  skips m (vfuel (VDict k v)) d (enc d (VDict k v)) (slack d (VDict k v)) (TDict (ty_of k) (ty_of v)).
Proof.
  intros [Hk Hv] Hat IHk IHv fuel s r Hf Hs. destruct fuel as [|fuel]; [lia|].
  cbn [adbus_iter_value bind get sig]. rewrite sig_of_deref, field_of_code. cbn [head_of sig_of app].
  cbn [enc slack vfuel] in *. set (q := d + pad d 8) in *. set (e := enc q k) in *.
  rewrite !len_app, len_zeros_pad in * by auto with adbus.
  apply at_zeros in Hat; [|auto with adbus]. fold q in Hat. apply at_app in Hat as [Hat1 Hat2].
  fold (len e) in Hat2. pose proof (len_nonneg e). pose proof (len_nonneg (enc (q + len e) v)).
  pose proof (slack_nonneg q k).
  erewrite bind_Ret by (apply begin_scope_ok; [done|lia]). fold q. cbn [tl].
  rewrite <- !app_assoc.
  erewrite bind_Ret by (apply IHk; [done|done|lia|fold e; lia]). fold e.
  erewrite bind_Ret by (apply IHv; [done|done|lia|lia]).
  unfold adbus_iter_enddictentry. rewrite sig_ok by done. cbn [tl app]. do 2 f_equal; lia.
Qed.

Lemma value_skip (v : value) : forall p, wf p v -> at_ m p (enc p v) ->
  skips m (vfuel v) p (enc p v) (slack p v) (ty_of v).
Proof.
  induction v as [b z|b str|v IH|t vs IH|vs IH|k v IHk IHv] using value_ind'; intros p Hw Hat.
  - eapply skips_mono; [|by apply skip_num]. cbn. lia.
  - eapply skips_mono; [|by apply skip_str]. cbn. lia.
  - by apply skip_variant.
  - eapply skips_mono; [|apply skip_array; [by apply wf_array in Hw as [Hw _]|done]]. cbn. lia.
  - by apply skip_struct.
  - by apply skip_dict.
Qed.
End Main.

(** ** Moving a value by 8 bytes does not change its encoding *)
Lemma pad_shift (p k b : Z) : boundary b -> pad (p + 8 * k) b = pad p b.
Proof.
  intros Hb. unfold pad. rewrite !align_eq by done.
  destruct Hb as [->|[->|[->| ->]]].
  - rewrite !Z.div_1_r. lia.
  - replace (p + 8 * k + (2 - 1)) with (p + (2 - 1) + 4 * k * 2) by lia. rewrite Z.div_add by lia. lia.
  - replace (p + 8 * k + (4 - 1)) with (p + (4 - 1) + 2 * k * 4) by lia. rewrite Z.div_add by lia. lia.
  - replace (p + 8 * k + (8 - 1)) with (p + (8 - 1) + k * 8) by lia. rewrite Z.div_add by lia. lia.
Qed.

Lemma array_data_shift (p k : Z) (t : ty) : array_data (p + 8 * k) t = array_data p t + 8 * k.
Proof.
  unfold array_data. rewrite pad_shift by auto with adbus.
  replace (p + 8 * k + pad p 4 + 4) with (p + pad p 4 + 4 + 8 * k) by lia.
  rewrite pad_shift by apply head_boundary. lia.
Qed.

Definition shifts (v : value) : Prop :=
  forall p k, wf p v -> enc (p + 8 * k) v = enc p v /\ wf (p + 8 * k) v.

Lemma encs_shift_ (vs : list value) : Forall shifts vs ->
  forall p k, wfs p vs -> encs (p + 8 * k) vs = encs p vs /\ wfs (p + 8 * k) vs.
Proof.
  induction 1 as [|v vs Hv _ IH]; intros p k; [done|]. cbn [encs seq_enc wfs]. intros [Hw Hws].
  destruct (Hv p k Hw) as [E W]. rewrite E.
  replace (p + 8 * k + len (enc p v)) with (p + len (enc p v) + 8 * k) by lia.
  destruct (IH _ k Hws) as [E' W']. split; [|by split]. f_equal. exact E'.
Qed.

Lemma shift_add (p k q : Z) : p + 8 * k + q = p + q + 8 * k.
Proof. lia. Qed.

Lemma value_shifts (v : value) : shifts v.
Proof.
  induction v as [b z|b s|v IH|t vs IH|vs IH|a v IHa IHv] using value_ind'; intros p k Hw.
  - split; [|exact Hw]. cbn [enc]. by rewrite pad_shift by (apply width_boundary, Hw).
  - split; [|exact Hw]. destruct b; cbn [enc]; unfold enc_string; by rewrite ?pad_shift by auto with adbus.
  - destruct Hw as [Hl Hw]. cbn [enc wf]. rewrite shift_add. by destruct (IH _ k Hw) as [-> W].
  - apply wf_array in Hw as (Hl & Hw & Ht). destruct (encs_shift_ vs IH _ k Hw) as [E W].
    rewrite wf_array, !enc_array, array_data_shift, E. rewrite pad_shift by auto with adbus.
    rewrite !shift_add. by rewrite pad_shift by apply head_boundary.
  - rewrite wf_struct in *. destruct (encs_shift_ vs IH _ k Hw) as [E W].
    rewrite !enc_struct, pad_shift by auto with adbus. rewrite shift_add. by rewrite E.
  - destruct Hw as [Ha Hv]. cbn [enc wf]. rewrite pad_shift by auto with adbus. rewrite shift_add.
    destruct (IHa _ k Ha) as [-> Wa]. rewrite shift_add. by destruct (IHv _ k Hv) as [-> Wv].
Qed.

(** Signature and data are long enough to count the calls of skipping. *)
Lemma vfuel_bound (v : value) : forall p, wf p v ->
  (vfuel v + 1 <= length (sig_of (ty_of v)) + length (enc p v))%nat.
Proof.
  induction v as [b z|b s|v IH|t vs IH|vs IH|k v IHk IHv] using value_ind'; intros p Hw; cbn [vfuel ty_of sig_of].
  - destruct Hw as [Hw _]. cbn [enc length]. rewrite length_app, length_le_bytes. lia.
  - cbn [length]. enough (0 < length (enc p (VStr b s)))%nat by lia.
    destruct b; cbn [enc]; unfold enc_signature, enc_string; rewrite ?length_app; cbn [length]; lia.
  - destruct Hw as [_ Hw]. specialize (IH _ Hw). cbn [enc length]. rewrite length_app. unfold enc_signature at 1.
    cbn [length]. rewrite length_app. lia.
  - rewrite enc_array, !length_app, length_le_bytes. cbn [length]. lia.
  - rewrite wf_struct in Hw. rewrite enc_struct, length_app. cbn [length]. rewrite length_app. cbn [length].
    enough (list_sum (map (fun v => S (vfuel v)) vs) <=
      length (concat (map sig_of (map ty_of vs))) + length (encs (p + pad p 8) vs))%nat by lia.
    revert Hw. generalize (p + pad p 8) as q. induction IH as [|v vs Hv _ IH]; intros q Hw; [cbn; lia|].
    destruct Hw as [Hw Hws]. specialize (Hv _ Hw). specialize (IH _ Hws). cbn [map list_sum foldr concat encs seq_enc].
    rewrite !length_app. unfold list_sum, encs in *. lia.
  - destruct Hw as [Hk Hv]. specialize (IHk _ Hk). specialize (IHv _ Hv). cbn [enc length].
    rewrite !length_app. cbn [length]. lia.
Qed.

(** On well-formed data [adbus_iter_value] skips exactly one value:
    wherever the encoding of a typed value lies in memory, at any alignment
    and followed by anything, the cursor ends right after it and the
    signature right after its type, in debug and release builds; what is
    wrong with the size left is exactly the bodies of the arrays jumped
    over. *)
Theorem iter_value_skips_encoding {B : Build} (m : list Z) (p s : Z) (v : value) (r : list Z) (fuel : nat)
  (Hw : wf p v) (Hat : at_ m p (enc p v)) (Hs : len (enc p v) <= s) (Hf : (vfuel v < fuel)%nat) :
  adbus_iter_value m fuel (mkIter p s (sig_of (ty_of v) ++ r)) =
    Ret tt (mkIter (p + len (enc p v)) (s - len (enc p v) + slack p v) r).
Proof. by apply value_skip. Qed.

Definition sample_value : value :=
  VStruct [VNum UINT8 7; VArray (TDict (TBasic STRING) TVariant)
    [VDict (VStr STRING (str "key")) (VVariant (VNum UINT32 258))]; VNum UINT64 1].

Lemma iter_value_skips_encoding_witness :
  wf 4 sample_value /\
  adbus_iter_value (B := debug_build) (zeros 4 ++ enc 4 sample_value) 40
    (mkIter 4 52 (str "(ya{sv}t)u")) = Ret tt (mkIter 40 32 (str "u")).
Proof.
  assert (W : wf 4 sample_value).
  { unfold sample_value. cbn. unfold wf_num, wf_str. repeat split; try (vm_compute; congruence).
    all: try (apply no_nul_forallb; reflexivity). all: apply bytes_forallb; reflexivity. }
  split; [exact W|].
  apply (iter_value_skips_encoding (B := debug_build) (zeros 4 ++ enc 4 sample_value) 4 52 sample_value (str "u") 40).
  - exact W.
  - split; [lia|]. vm_compute. reflexivity.
  - vm_compute. congruence.
  - vm_compute. lia.
Defined.
