(* ===== verification/Buffer.v ===== *)
(** The buffer of adbus/rbuffer.c: a growing byte array with a signature of
    at most 255 characters and a cursor into a signature that the serialising
    functions follow. *)

From Stdlib Require Import ZArith Lia.
From stdpp Require Import base option list numbers strings.
From S2P Require Import Prelude Names Signature Iterator Values.
Open Scope Z_scope.

(** ** State

    [sigp] points into the buffer's own [sig] array, into a string of the
    caller (what is left of it), or is NULL. *)
Inductive sigptr :=
| Own (off : nat)
| Ext (s : list Z)
| Null.

#[export] Instance sigptr_eq_dec : EqDecision sigptr.
Proof. solve_decision. Defined.

Record Buffer := mkBuf { b_data : list Z; b_sig : list Z; b_sigp : sigptr }.

Definition SIG_SIZE : nat := 256.

(** What is left of the signature at a pointer; [None] for NULL. *)
Definition at_sigptr (arr : list Z) (p : sigptr) : option (list Z) :=
  match p with
  | Own off => Some (cstr (drop off arr))
  | Ext s => Some s
  | Null => None
  end.

(** [p + n] *)
Definition sigptr_add (p : sigptr) (n : nat) : sigptr :=
  match p with
  | Own off => Own (off + n)
  | Ext s => Ext (drop n s)
  | Null => Null
  end.

Definition set_data (d : list Z) (b : Buffer) : Buffer := mkBuf d (b_sig b) (b_sigp b).
Definition set_sigp (p : sigptr) (b : Buffer) : Buffer := mkBuf (b_data b) (b_sig b) p.
Definition set_sigarr (s : list Z) (b : Buffer) : Buffer := mkBuf (b_data b) s (b_sigp b).

Definition b_size (b : Buffer) : Z := len (b_data b).

(** Two runs over a buffer end alike; the buffers are the same unless it is with
    an error. *)
Definition same_parse {W : Type} (o1 o2 : outcome (W * Buffer) Z) : Prop :=
  match o1, o2 with
  | Ret z1 (w1, b1), Ret z2 (w2, b2) => z1 = z2 /\ w1 = w2 /\ (z1 = 0 -> b1 = b2)
  | Err (w1, _), Err (w2, _) => w1 = w2
  | Abort, Abort | Oob, Oob | Nofuel, Nofuel => True
  | _, _ => False
  end.

(** ** The buffer as bytes *)
Definition adbus_buf_new : Buffer := mkBuf [] (repeat 0 SIG_SIZE) (Own 0).

Definition adbus_buf_data (b : Buffer) : list Z := b_data b.
Definition adbus_buf_size (b : Buffer) : Z := b_size b.

Definition adbus_buf_reset (b : Buffer) : Buffer := mkBuf [] (<[0%nat := 0]> (b_sig b)) (Own 0).

Definition adbus_buf_release (b : Buffer) : list Z * Buffer := (b_data b, adbus_buf_reset b).

Definition adbus_buf_sig (b : Buffer) : list Z := cstr (b_sig b).

Definition adbus_buf_signext (b : Buffer) : option (list Z) := at_sigptr (b_sig b) (b_sigp b).

Definition adbus_buf_append (d : list Z) : M Buffer unit :=
  modify (fun b => set_data (b_data b ++ d) b).

Definition adbus_buf_remove {B : Build} (off num : nat) : M Buffer unit :=
  let* b := get in
  run* assert_ (off + num <=? length (b_data b))%nat in
  if (off + num <=? length (b_data b))%nat
  then put (set_data (take off (b_data b) ++ drop (off + num) (b_data b)) b)
  else oob.

(** The length of the first line, '\n' included. *)
Fixpoint find_nl (l : list Z) (k : nat) : option nat :=
  match l with
  | [] => None
  | c :: l' => if c =? 10 then Some k else find_nl l' (S k)
  end.

Definition adbus_buf_line (b : Buffer) : option nat :=
  match find_nl (b_data b) 0 with
  | None => None
  | Some k => Some (k + 1)%nat
  end.

(** [adbus_buf_recvbuf(len)], a write of [fill] into the room it returns, and
    [adbus_buf_recvd(len, recvd)]. *)
Definition adbus_buf_recv {B : Build} (fill : list Z) (n : nat) (recvd : Z) : M Buffer unit :=
  let rx := if 0 <? recvd then recvd else 0 in
  run* adbus_buf_append (take n fill) in
  let* b := get in
  run* assert_ ((0 <=? Z.of_nat n - rx) && (Z.of_nat n - rx <=? b_size b)) in
  put (set_data (take (length (b_data b) - Z.to_nat (Z.of_nat n - rx)) (b_data b)) b).

Section Ops.
Context {B : Build}.

(** A string argument with an explicit size or, when it is negative, a
    terminator; [s] is the string and a NUL follows it in memory. *)
Definition carg (s : list Z) (size : Z) : M Buffer (list Z) :=
  if size <? 0 then ret (cstr s)
  else if size <=? len s + 1 then ret (take (Z.to_nat size) (s ++ [0]))
  else oob.

Definition memcpy_into (dst : list Z) (off : nat) (src : list Z) : list Z :=
  take off dst ++ src ++ drop (off + length src) dst.

(** ** The signature *)
Definition adbus_buf_setsig (s : list Z) (size : Z) : M Buffer unit :=
  let size := if size <? 0 then len (cstr s) else size in
  if 256 <? size + 1 then assert_ false
  else
    let* src := carg s (size + 1) in
    modify (fun b => set_sigarr (memcpy_into (b_sig b) 0 src) b).

Definition adbus_buf_appendsig (s : list Z) (size : Z) : M Buffer unit :=
  let size := if size <? 0 then len (cstr s) else size in
  let* b := get in
  let existing := length (cstr (b_sig b)) in
  if 256 <? Z.of_nat existing + size + 1 then assert_ false
  else
    let* src := carg s (size + 1) in
    put (set_sigarr (memcpy_into (b_sig b) existing src) b).

(** [SIG(b, s)] *)
Definition SIG (c : Z) : M Buffer unit :=
  let* b := get in
  match at_sigptr (b_sig b) (b_sigp b) with
  | None => oob
  | Some s =>
      run* assert_ (deref s =? c) in
      put (set_sigp (sigptr_add (b_sigp b) 1) b)
  end.

Definition adbus_buf_end : M Buffer unit :=
  let* b := get in
  match at_sigptr (b_sig b) (b_sigp b) with
  | None => if ndebug then ret tt else oob
  | Some s => assert_ (deref s =? 0)
  end.

(** ** Alignment and integers *)
Definition Align (alignment : Z) : M Buffer unit :=
  let* b := get in
  adbus_buf_append (zeros (pad (b_size b) alignment)).

Definition adbus_buf_align : Z -> M Buffer unit := Align.

Definition AlignField (f : Z) : M Buffer unit :=
  match field_of f with
  | Some (Basic UINT8) | Some (Basic SIGNATURE) | Some VARIANT_BEGIN => ret tt
  | Some (Basic INT16) | Some (Basic UINT16) => Align 2
  | Some (Basic BOOLEAN) | Some (Basic INT32) | Some (Basic UINT32)
  | Some (Basic STRING) | Some (Basic OBJECT_PATH) | Some ARRAY_BEGIN => Align 4
  | Some (Basic INT64) | Some (Basic UINT64) | Some (Basic DOUBLE)
  | Some STRUCT_BEGIN | Some DICTENTRY_BEGIN => Align 8
  | _ => assert_ false
  end.

Definition AlignValue {S} (v f : Z) : M S Z :=
  match field_of f with
  | Some (Basic UINT8) | Some (Basic SIGNATURE) | Some VARIANT_BEGIN => ret v
  | Some (Basic INT16) | Some (Basic UINT16) => ret (ADBUS_ALIGN v 2)
  | Some (Basic BOOLEAN) | Some (Basic INT32) | Some (Basic UINT32)
  | Some (Basic STRING) | Some (Basic OBJECT_PATH) | Some ARRAY_BEGIN => ret (ADBUS_ALIGN v 4)
  | Some (Basic INT64) | Some (Basic UINT64) | Some (Basic DOUBLE)
  | Some STRUCT_BEGIN | Some DICTENTRY_BEGIN => ret (ADBUS_ALIGN v 8)
  | _ => run* assert_ false in ret v
  end.

Definition adbus_buf_alignfield : Z -> M Buffer unit := AlignField.

Definition Append8 (v : Z) : M Buffer unit := adbus_buf_append (le_bytes 1 v).
Definition Append16 (v : Z) : M Buffer unit :=
  run* Align 2 in adbus_buf_append (le_bytes 2 v).
Definition Append32 (v : Z) : M Buffer unit :=
  run* Align 4 in adbus_buf_append (le_bytes 4 v).
Definition Append64 (v : Z) : M Buffer unit :=
  run* Align 8 in adbus_buf_append (le_bytes 8 v).

Definition adbus_buf_bool (v : Z) : M Buffer unit :=
  run* SIG (chr "b") in Append32 (if v =? 0 then 0 else 1).
Definition adbus_buf_u8 (v : Z) : M Buffer unit := run* SIG (chr "y") in Append8 v.
Definition adbus_buf_i16 (v : Z) : M Buffer unit := run* SIG (chr "n") in Append16 v.
Definition adbus_buf_u16 (v : Z) : M Buffer unit := run* SIG (chr "q") in Append16 v.
Definition adbus_buf_i32 (v : Z) : M Buffer unit := run* SIG (chr "i") in Append32 v.
Definition adbus_buf_u32 (v : Z) : M Buffer unit := run* SIG (chr "u") in Append32 v.
Definition adbus_buf_i64 (v : Z) : M Buffer unit := run* SIG (chr "x") in Append64 v.
Definition adbus_buf_u64 (v : Z) : M Buffer unit := run* SIG (chr "t") in Append64 v.
Definition adbus_buf_double (v : Z) : M Buffer unit := run* SIG (chr "d") in Append64 v.

(** ** Strings *)
Definition append_string (s : list Z) (size : Z) : M Buffer unit :=
  let* src := carg s size in
  run* assert_ (len src <=? 4294967295) in
  run* Append32 (len src) in
  adbus_buf_append (src ++ [0]).

Definition adbus_buf_string (s : list Z) (size : Z) : M Buffer unit :=
  run* SIG (chr "s") in append_string s size.

Definition adbus_buf_objectpath (s : list Z) (size : Z) : M Buffer unit :=
  run* SIG (chr "o") in append_string s size.

Definition append_signature (s : list Z) (size : Z) : M Buffer unit :=
  let* src := carg s size in
  run* assert_ (len src <? 255) in
  run* Append8 (len src) in
  adbus_buf_append (src ++ [0]).

Definition adbus_buf_signature (s : list Z) (size : Z) : M Buffer unit :=
  run* SIG (chr "g") in append_signature s size.

(** ** Scopes *)
Record BufVariant := mkBufVariant { oldsig : sigptr }.

Definition adbus_buf_beginvariant (s : list Z) (size : Z) : M Buffer BufVariant :=
  run* SIG (chr "v") in
  run* append_signature s size in
  let* b := get in
  run* put (set_sigp (Ext (cstr s)) b) in
  ret (mkBufVariant (b_sigp b)).

Definition adbus_buf_endvariant (v : BufVariant) : M Buffer unit :=
  modify (set_sigp (oldsig v)).

Record BufArray := mkBufArray {
  szindex : nat; dataindex : nat; sigbegin : sigptr; sigend : sigptr }.

(** [adbus_nextarg] as a pointer. *)
Definition nextarg_ptr (arr : list Z) (p : sigptr) : sigptr :=
  match at_sigptr arr p with
  | None => Null
  | Some s =>
      match adbus_nextarg s with
      | None => Null
      | Some r => sigptr_add p (length s - length r)
      end
  end.

Definition adbus_buf_beginarray : M Buffer BufArray :=
  run* SIG (chr "a") in
  run* Append32 0 in
  let* b := get in
  let szindex := (length (b_data b) - 4)%nat in
  match at_sigptr (b_sig b) (b_sigp b) with
  | None => oob
  | Some s =>
      run* adbus_buf_alignfield (deref s) in
      let* b := get in
      ret (mkBufArray szindex (length (b_data b)) (b_sigp b) (nextarg_ptr (b_sig b) (b_sigp b)))
  end.

Definition adbus_buf_arrayentry (a : BufArray) : M Buffer unit :=
  modify (set_sigp (sigbegin a)).

Definition adbus_buf_checkarrayentry (a : BufArray) : M Buffer unit :=
  modify (fun b => if decide (b_sigp b = sigend a) then set_sigp (sigbegin a) b else b).

Definition adbus_buf_endarray (a : BufArray) : M Buffer unit :=
  let* b := get in
  if (szindex a + 4 <=? length (b_data b))%nat then
    let sz := Z.of_nat (length (b_data b)) - Z.of_nat (dataindex a) in
    put (mkBuf (memcpy_into (b_data b) (szindex a) (le_bytes 4 sz)) (b_sig b) (sigend a))
  else oob.

Definition adbus_buf_begindictentry : M Buffer unit := run* SIG (chr "{") in Align 8.
(** The code expects '{' here too. *)
Definition adbus_buf_enddictentry : M Buffer unit := SIG (chr "{").
Definition adbus_buf_beginstruct : M Buffer unit := run* SIG (chr "(") in Align 8.
Definition adbus_buf_endstruct : M Buffer unit := SIG (chr ")").

(** Copies the next value of an iterator over [m], and its type, to the
    buffer. *)
Definition adbus_buf_appendvalue (m : list Z) (fuel : nat) : M (Buffer * Iterator) unit :=
  fun '(b, i) =>
    match adbus_iter_value m fuel i with
    | Ret _ i' =>
        match adbus_buf_appendsig (sig i) (len (sig i) - len (sig i')) b with
        | Ret _ b' =>
            if in_bounds m (data i) (data i' - data i)
            then Ret tt (set_data (b_data b' ++ slice m (data i) (Z.to_nat (data i' - data i))) b', i')
            else Oob
        | Err b' => Err (b', i')
        | Abort => Abort
        | Oob => Oob
        | Nofuel => Nofuel
        end
    | Err i' => Err (b, i')
    | Abort => Abort
    | Oob => Oob
    | Nofuel => Nofuel
    end.
End Ops.

(** ** Serialising a value

    The calls the documentation of adbus_Buffer prescribes for each kind of
    value. *)
Section Seq.
Context {S A : Type} (f : A -> M S unit).
Fixpoint seq_run (l : list A) : M S unit :=
  match l with
  | [] => ret tt
  | x :: l' => run* f x in seq_run l'
  end.
End Seq.

Section Write.
Context {B : Build}.

Definition write_num (b : basic) (z : Z) : M Buffer unit :=
  match b with
  | UINT8 => adbus_buf_u8 z
  | BOOLEAN => adbus_buf_bool z
  | INT16 => adbus_buf_i16 z
  | UINT16 => adbus_buf_u16 z
  | INT32 => adbus_buf_i32 z
  | UINT32 => adbus_buf_u32 z
  | INT64 => adbus_buf_i64 z
  | UINT64 => adbus_buf_u64 z
  | DOUBLE => adbus_buf_double z
  | STRING | OBJECT_PATH | SIGNATURE => err
  end.

Definition write_str (b : basic) (s : list Z) : M Buffer unit :=
  match b with
  | STRING => adbus_buf_string s (len s)
  | OBJECT_PATH => adbus_buf_objectpath s (len s)
  | SIGNATURE => adbus_buf_signature s (len s)
  | _ => err
  end.

Fixpoint write (v : value) : M Buffer unit :=
  match v with
  | VNum b z => write_num b z
  | VStr b s => write_str b s
  | VVariant v =>
      let* bv := adbus_buf_beginvariant (sig_of (ty_of v)) (-1) in
      run* write v in
      adbus_buf_endvariant bv
  | VArray t vs =>
      let* a := adbus_buf_beginarray in
      run* seq_run (fun v => run* adbus_buf_arrayentry a in write v) vs in
      adbus_buf_endarray a
  | VStruct vs =>
      run* adbus_buf_beginstruct in
      run* seq_run write vs in
      adbus_buf_endstruct
  | VDict k v =>
      run* adbus_buf_begindictentry in
      run* write k in
      run* write v in
      adbus_buf_enddictentry
  end.

(** *** What an operation does

    [emits p l t m]: with [sig_of t] next in the signature, [m] appends [l] to
    a buffer of size [p] and leaves the cursor after [t]. *)
Definition emits (l : Z -> list Z) (s : list Z) (mm : M Buffer unit) : Prop :=
  forall d arr sp r, at_sigptr arr sp = Some (s ++ r) ->
    exists sp', mm (mkBuf d arr sp) = Ret tt (mkBuf (d ++ l (len d)) arr sp') /\
                at_sigptr arr sp' = Some r.

Lemma cstr_drop_tl (arr : list Z) (n : nat) (c : Z) (r : list Z) :
  c <> 0 -> cstr (drop n arr) = c :: r -> cstr (drop (n + 1) arr) = r.
Proof.
  intros Hc H. rewrite <- drop_drop. destruct (drop n arr) as [|x l]; [done|].
  cbn [cstr] in H. destruct (x =? 0); [done|]. by injection H as _ <-.
Qed.

Lemma sigptr_next (arr : list Z) (sp : sigptr) (c : Z) (r : list Z) :
  c <> 0 -> at_sigptr arr sp = Some (c :: r) -> at_sigptr arr (sigptr_add sp 1) = Some r.
Proof.
  intros Hc. destruct sp as [off|s|]; [| |done]; intros [= H]; cbn; [|by rewrite H].
  by rewrite (cstr_drop_tl arr off c r).
Qed.

Lemma sigptr_skip (arr : list Z) (sp : sigptr) (p r : list Z) :
  no_nul p -> at_sigptr arr sp = Some (p ++ r) -> at_sigptr arr (sigptr_add sp (length p)) = Some r.
Proof.
  intros Hn. revert sp. induction Hn as [|c p Hc _ IH]; intros sp H.
  - destruct sp; cbn in *; by rewrite ?Nat.add_0_r.
  - cbn [app] in H. apply sigptr_next in H; [|done]. apply IH in H.
    destruct sp as [off|s|]; cbn [sigptr_add at_sigptr length] in *; [| |done].
    + rewrite <- H. by replace (off + S (length p))%nat with (off + 1 + length p)%nat by lia.
    + rewrite <- H, drop_drop. done.
Qed.

Lemma code_nonzero (f : field) : code_of f <> 0.
Proof. pose proof (code_of_range f). lia. Qed.

Lemma SIG_ok (f : field) (d arr r : list Z) (sp : sigptr) :
  at_sigptr arr sp = Some (code_of f :: r) ->
  SIG (code_of f) (mkBuf d arr sp) = Ret tt (mkBuf d arr (sigptr_add sp 1)) /\
  at_sigptr arr (sigptr_add sp 1) = Some r.
Proof.
  intros H. split; [|by eapply sigptr_next; [apply code_nonzero|]].
  unfold SIG. cbn [bind get b_sig b_sigp]. rewrite H. cbn [deref hd].
  unfold assert_. by rewrite Z.eqb_refl.
Qed.

Lemma Align_ok (b : Z) (d arr : list Z) (sp : sigptr) :
  Align b (mkBuf d arr sp) = Ret tt (mkBuf (d ++ zeros (pad (len d) b)) arr sp).
Proof. reflexivity. Qed.

Lemma append_ok (l d arr : list Z) (sp : sigptr) :
  adbus_buf_append l (mkBuf d arr sp) = Ret tt (mkBuf (d ++ l) arr sp).
Proof. reflexivity. Qed.

Lemma append_aligned_ok (n : nat) (b v : Z) (d arr : list Z) (sp : sigptr) :
  bind (Align b) (fun _ => adbus_buf_append (le_bytes n v)) (mkBuf d arr sp) =
    Ret tt (mkBuf (d ++ zeros (pad (len d) b) ++ le_bytes n v) arr sp).
Proof. unfold bind. rewrite Align_ok, append_ok. by rewrite app_assoc. Qed.

(** An operation that checks its type code and then appends. *)
Lemma emits_after_sig (f : field) (l : Z -> list Z) (mm : M Buffer unit) :
  (forall d arr sp, mm (mkBuf d arr sp) = Ret tt (mkBuf (d ++ l (len d)) arr sp)) ->
  emits l [code_of f] (bind (SIG (code_of f)) (fun _ => mm)).
Proof.
  intros H d arr sp r Hsp. destruct (SIG_ok f d arr r sp Hsp) as [E Hr].
  exists (sigptr_add sp 1). by rewrite (bind_Ret _ _ _ _ _ E), H.
Qed.

Definition writable_num (b : basic) (z : Z) : Prop :=
  wf_num b z /\ (b = BOOLEAN -> z = 0 \/ z = 1).

Lemma write_num_ok (b : basic) (z : Z) : writable_num b z ->
  emits (fun p => enc p (VNum b z)) (sig_of (TBasic b)) (write_num b z).
Proof.
  intros [[Hw Hz] Hb]. cbn [sig_of enc].
  destruct b; cbn [width write_num] in *; try lia;
    unfold adbus_buf_u8, adbus_buf_bool, adbus_buf_i16, adbus_buf_u16, adbus_buf_i32, adbus_buf_u32,
      adbus_buf_i64, adbus_buf_u64, adbus_buf_double, Append16, Append32, Append64;
    apply emits_after_sig; intros d arr sp.
  - rewrite pad_1. apply append_ok.
  - replace (if z =? 0 then 0 else 1) with z by (destruct (Hb eq_refl) as [-> | ->]; done).
    apply append_aligned_ok.
  - apply append_aligned_ok.
  - apply append_aligned_ok.
  - apply append_aligned_ok.
  - apply append_aligned_ok.
  - apply append_aligned_ok.
  - apply append_aligned_ok.
  - apply append_aligned_ok.
Qed.

Lemma carg_len (s : list Z) (b : Buffer) : carg s (len s) b = Ret s b.
Proof.
  unfold carg. rewrite (proj2 (Z.ltb_ge _ _)), (proj2 (Z.leb_le _ _)) by (unfold len; lia).
  unfold len, ret. by rewrite Nat2Z.id, take_app_length.
Qed.

Lemma carg_nul (s : list Z) (b : Buffer) : no_nul s -> carg s (-1) b = Ret s b.
Proof. intros H. unfold carg, ret. cbn. by rewrite cstr_no_nul. Qed.

Lemma append_string_ok (s d arr : list Z) (sp : sigptr) : len s < 2 ^ 32 ->
  append_string s (len s) (mkBuf d arr sp) = Ret tt (mkBuf (d ++ enc_string (len d) s) arr sp).
Proof.
  intros H. unfold append_string. erewrite bind_Ret by apply carg_len.
  erewrite bind_Ret by (apply assert_true, Z.leb_le; lia).
  erewrite bind_Ret by apply append_aligned_ok. rewrite append_ok.
  unfold enc_string. by rewrite <- !app_assoc.
Qed.

Lemma append_signature_ok (s d arr : list Z) (sp : sigptr) (size : Z) :
  len s < 255 -> (size = len s \/ size = -1 /\ no_nul s) ->
  append_signature s size (mkBuf d arr sp) = Ret tt (mkBuf (d ++ enc_signature s) arr sp).
Proof.
  intros H Hs. pose proof (len_nonneg s). unfold append_signature.
  assert (E : carg s size (mkBuf d arr sp) = Ret s (mkBuf d arr sp)).
  { destruct Hs as [->|[-> Hs]]; [apply carg_len|by apply carg_nul]. }
  erewrite bind_Ret by exact E.
  erewrite bind_Ret by (apply assert_true, Z.ltb_lt; lia).
  erewrite bind_Ret by reflexivity. cbn [b_data set_data]. unfold set_data. cbn [b_data b_sig b_sigp].
  rewrite append_ok. unfold enc_signature. cbn [le_bytes]. rewrite Z.mod_small by lia.
  by rewrite <- !app_assoc.
Qed.

Lemma write_str_ok (b : basic) (s : list Z) : wf_str b s ->
  emits (fun p => enc p (VStr b s)) (sig_of (TBasic b)) (write_str b s).
Proof.
  intros (Hw & Hb & Hn & Hl). cbn [sig_of enc].
  destruct b; cbn [width write_str] in *; try lia; apply emits_after_sig; intros d arr sp.
  - by apply append_string_ok.
  - by apply append_string_ok.
  - apply append_signature_ok; [done|by left].
Qed.

(** *** Scopes *)

(** The values the serialising functions write back unchanged: booleans are
    0 or 1, and dict entries only in a release build (the end function asserts
    the wrong character). *)
Fixpoint canon (v : value) : Prop :=
  match v with
  | VNum b z => b = BOOLEAN -> z = 0 \/ z = 1
  | VStr _ _ => True
  | VVariant v => canon v
  | VArray _ vs | VStruct vs => fold_right (fun v P => canon v /\ P) True vs
  | VDict k v => ndebug = true /\ canon k /\ canon v
  end.

(** [emits] at one position. *)
Definition emits_at (p : Z) (l s : list Z) (mm : M Buffer unit) : Prop :=
  forall d arr sp r, len d = p -> at_sigptr arr sp = Some (s ++ r) ->
    exists sp', mm (mkBuf d arr sp) = Ret tt (mkBuf (d ++ l) arr sp') /\
                at_sigptr arr sp' = Some r.

Definition written (v : value) : Prop :=
  forall p, wf p v -> canon v -> emits_at p (enc p v) (sig_of (ty_of v)) (write v).

Lemma emits_emits_at (p : Z) (l : Z -> list Z) (s : list Z) (mm : M Buffer unit) :
  emits l s mm -> emits_at p (l p) s mm.
Proof. intros H d arr sp r <- Hsp. by apply H. Qed.

Lemma written_seq (vs : list value) : Forall written vs -> forall p,
  wfs p vs -> fold_right (fun v P => canon v /\ P) True vs ->
  emits_at p (encs p vs) (sigs_of (map ty_of vs)) (seq_run write vs).
Proof.
  induction 1 as [|v vs Hv _ IH]; intros p Hw Hc d arr sp r Hd Hsp.
  - exists sp. cbn. by rewrite app_nil_r.
  - destruct Hw as [Hw Hws], Hc as [Hc Hcs]. cbn [sigs_of map concat] in Hsp.
    rewrite <- app_assoc in Hsp.
    destruct (Hv p Hw Hc d arr sp _ Hd Hsp) as (sp1 & E1 & Hsp1).
    destruct (IH _ Hws Hcs (d ++ enc p v) arr sp1 r) as (sp2 & E2 & Hsp2);
      [by rewrite len_app, Hd|done|].
    exists sp2. split; [|done]. cbn [seq_run encs seq_enc]. rewrite (bind_Ret _ _ _ _ _ E1), E2.
    by rewrite app_assoc.
Qed.

Lemma begin_scope_write (f : field) (d arr : list Z) (sp : sigptr) (r : list Z) :
  at_sigptr arr sp = Some (code_of f :: r) ->
  bind (SIG (code_of f)) (fun _ => Align 8) (mkBuf d arr sp) =
    Ret tt (mkBuf (d ++ zeros (pad (len d) 8)) arr (sigptr_add sp 1)) /\
  at_sigptr arr (sigptr_add sp 1) = Some r.
Proof.
  intros H. destruct (SIG_ok f d arr r sp H) as [E Hr]. by rewrite (bind_Ret _ _ _ _ _ E), Align_ok.
Qed.

Lemma len_pad8 (d : list Z) : len (d ++ zeros (pad (len d) 8)) = len d + pad (len d) 8.
Proof. by rewrite len_app, len_zeros_pad by auto with adbus. Qed.

Lemma written_struct (vs : list value) : Forall written vs -> written (VStruct vs).
Proof.
  intros Hvs p Hw Hc d arr sp r Hd Hsp. rewrite wf_struct in Hw. cbn [ty_of sig_of app canon] in *.
  rewrite <- app_assoc in Hsp. cbn [app] in Hsp.
  destruct (begin_scope_write STRUCT_BEGIN d arr sp _ Hsp) as [E1 Hsp1].
  destruct (written_seq vs Hvs _ Hw Hc (d ++ zeros (pad (len d) 8)) arr
    (sigptr_add sp 1) (code_of STRUCT_END :: r)) as (sp2 & E2 & Hsp2);
    [by rewrite len_pad8, Hd|exact Hsp1|].
  destruct (SIG_ok STRUCT_END ((d ++ zeros (pad (len d) 8)) ++ encs (p + pad p 8) vs) arr r sp2 Hsp2) as [E3 Hsp3].
  exists (sigptr_add sp2 1). split; [|done]. cbn [write].
  unfold adbus_buf_beginstruct, adbus_buf_endstruct.
  rewrite (bind_Ret _ _ _ _ _ E1), (bind_Ret _ _ _ _ _ E2), enc_struct.
  change (chr ")") with (code_of STRUCT_END). rewrite E3. by rewrite <- app_assoc, Hd.
Qed.

Lemma SIG_release (c : Z) (d arr s : list Z) (sp : sigptr) : ndebug = true ->
  at_sigptr arr sp = Some s -> SIG c (mkBuf d arr sp) = Ret tt (mkBuf d arr (sigptr_add sp 1)).
Proof.
  intros Hn H. unfold SIG. cbn [bind get b_sig b_sigp]. rewrite H. unfold bind, assert_.
  by rewrite Hn, orb_true_r.
Qed.

Lemma written_dict (k v : value) : written k -> written v -> written (VDict k v).
Proof.
  intros Hk Hv p [Hwk Hwv] (Hn & Hck & Hcv) d arr sp r Hd Hsp. cbn [ty_of sig_of app] in *.
  rewrite <- !app_assoc in Hsp.
  destruct (begin_scope_write DICTENTRY_BEGIN d arr sp _ Hsp) as [E1 Hsp1].
  set (d1 := d ++ zeros (pad (len d) 8)) in *.
  assert (Hd1 : len d1 = p + pad p 8) by (unfold d1; rewrite len_pad8; congruence).
  destruct (Hk _ Hwk Hck d1 arr _ _ Hd1 Hsp1) as (sp2 & E2 & Hsp2).
  destruct (Hv _ Hwv Hcv (d1 ++ enc (p + pad p 8) k) arr sp2 (code_of DICTENTRY_END :: r))
    as (sp3 & E3 & Hsp3); [by rewrite len_app, Hd1|exact Hsp2|].
  exists (sigptr_add sp3 1). split; [|by eapply sigptr_next; [apply (code_nonzero DICTENTRY_END)|]].
  cbn [write]. unfold adbus_buf_begindictentry, adbus_buf_enddictentry.
  rewrite (bind_Ret _ _ _ _ _ E1), (bind_Ret _ _ _ _ _ E2), (bind_Ret _ _ _ _ _ E3).
  rewrite (SIG_release _ _ _ _ _ Hn Hsp3). cbn [enc]. unfold d1. by rewrite <- !app_assoc, Hd.
Qed.

Lemma written_variant (v : value) : written v -> written (VVariant v).
Proof.
  intros Hv p [Hl Hw] Hc d arr sp r Hd Hsp. cbn [ty_of sig_of app canon] in *.
  destruct (SIG_ok VARIANT_BEGIN d arr r sp Hsp) as [E1 Hsp1].
  set (h := enc_signature (sig_of (ty_of v))) in *.
  pose proof (append_signature_ok (sig_of (ty_of v)) d arr (sigptr_add sp 1) (-1) Hl
    (or_intror (conj eq_refl (no_nul_sig_of _)))) as E2. fold h in E2.
  destruct (Hv _ Hw Hc (d ++ h) arr (Ext (sig_of (ty_of v))) []) as (sp3 & E3 & Hsp3).
  { by rewrite len_app, Hd. } { cbn. by rewrite app_nil_r. }
  exists (sigptr_add sp 1). split; [|done]. cbn [write]. unfold adbus_buf_beginvariant.
  rewrite bind_assoc, (bind_Ret _ _ _ _ _ E1). rewrite bind_assoc, (bind_Ret _ _ _ _ _ E2).
  rewrite (cstr_no_nul _ (no_nul_sig_of _)). cbn [enc]. fold h. rewrite app_assoc.
  unfold bind at 1 2 3, get, put, ret, set_sigp. cbn [b_data b_sig b_sigp].
  rewrite (bind_Ret _ _ _ _ _ E3). reflexivity.
Qed.

(** Every array entry starts again at [sigbegin], wherever the cursor is. *)
Lemma written_entries (a : BufArray) (t : ty) (r arr : list Z) (vs : list value) :
  at_sigptr arr (sigbegin a) = Some (sig_of t ++ r) ->
  Forall written vs -> Forall (fun v => ty_of v = t) vs -> forall p d sp,
  len d = p -> wfs p vs -> fold_right (fun v P => canon v /\ P) True vs ->
  exists sp', seq_run (fun v => bind (adbus_buf_arrayentry a) (fun _ => write v)) vs (mkBuf d arr sp) =
    Ret tt (mkBuf (d ++ encs p vs) arr sp').
Proof.
  intros Ha Hvs. induction Hvs as [|v vs Hv _ IH]; intros Ht p d sp Hd Hw Hc.
  - exists sp. cbn. by rewrite app_nil_r.
  - inversion Ht as [|? ? <- Ht']; subst. destruct Hw as [Hw Hws], Hc as [Hc Hcs].
    destruct (Hv _ Hw Hc d arr (sigbegin a) r eq_refl Ha) as (sp1 & E1 & _).
    destruct (IH Ht' (len d + len (enc (len d) v)) (d ++ enc (len d) v) sp1) as (sp2 & E2);
      [by rewrite len_app|done|done|].
    exists sp2. cbn [seq_run encs seq_enc]. rewrite bind_assoc.
    unfold adbus_buf_arrayentry at 1. erewrite bind_Ret by reflexivity.
    unfold set_sigp. cbn [b_data b_sig]. rewrite (bind_Ret _ _ _ _ _ E1), E2. by rewrite app_assoc.
Qed.

Lemma AlignField_ok (t : ty) (d arr : list Z) (sp : sigptr) :
  AlignField (code_of (head_of t)) (mkBuf d arr sp) =
    Ret tt (mkBuf (d ++ zeros (pad (len d) (field_alignment (head_of t)))) arr sp).
Proof.
  unfold AlignField. rewrite field_of_code.
  destruct t as [[]| | | |]; cbn [head_of field_alignment]; try apply Align_ok;
    rewrite pad_1, zeros_0, app_nil_r; reflexivity.
Qed.

Lemma memcpy_mid (a x y c : list Z) : length x = length y ->
  memcpy_into (a ++ x ++ c) (length a) y = a ++ y ++ c.
Proof.
  intros H. unfold memcpy_into. rewrite take_app_length, drop_app_ge by lia.
  replace (length a + length y - length a)%nat with (length x) by lia.
  by rewrite drop_app_length.
Qed.

Lemma beginarray_ok (t : ty) (d arr r : list Z) (sp : sigptr) :
  let q := len d + pad (len d) 4 + 4 in
  at_sigptr arr sp = Some (code_of ARRAY_BEGIN :: sig_of t ++ r) ->
  exists a, adbus_buf_beginarray (mkBuf d arr sp) =
    Ret a (mkBuf (d ++ zeros (pad (len d) 4) ++ le_bytes 4 0 ++
                  zeros (pad q (field_alignment (head_of t)))) arr (sigbegin a)) /\
    szindex a = length (d ++ zeros (pad (len d) 4)) /\
    Z.of_nat (dataindex a) = array_data (len d) t /\
    at_sigptr arr (sigbegin a) = Some (sig_of t ++ r) /\ at_sigptr arr (sigend a) = Some r.
Proof.
  intros q Hsp. destruct (SIG_ok ARRAY_BEGIN d arr _ sp Hsp) as [E1 Hsp1].
  set (sp1 := sigptr_add sp 1) in *. set (d1 := d ++ zeros (pad (len d) 4) ++ le_bytes 4 0).
  assert (Hq : len d1 = q).
  { unfold d1, q. rewrite !len_app, len_zeros_pad, len_le_bytes by auto with adbus. lia. }
  exists (mkBufArray (length d1 - 4) (length (d1 ++ zeros (pad q (field_alignment (head_of t)))))
    sp1 (nextarg_ptr arr sp1)).
  split; [|split; [|split; [|split]]].
  - replace (d ++ zeros (pad (len d) 4) ++ le_bytes 4 0 ++ zeros (pad q (field_alignment (head_of t))))
      with (d1 ++ zeros (pad q (field_alignment (head_of t)))) by (unfold d1; by rewrite <- !app_assoc).
    unfold adbus_buf_beginarray. rewrite (bind_Ret _ _ _ _ _ E1).
    erewrite bind_Ret by apply append_aligned_ok. fold d1.
    erewrite bind_Ret by reflexivity. cbn [b_sig b_sigp b_data]. rewrite Hsp1, sig_of_deref.
    erewrite bind_Ret by apply AlignField_ok. erewrite bind_Ret by reflexivity.
    cbn [b_sig b_sigp b_data]. rewrite Hq. reflexivity.
  - cbn [szindex]. unfold d1. rewrite !length_app, length_le_bytes. lia.
  - cbn [dataindex]. rewrite length_app, Nat2Z.inj_add.
    fold (len d1). fold (len (zeros (pad q (field_alignment (head_of t))))).
    rewrite Hq, len_zeros_pad by apply head_boundary. reflexivity.
  - exact Hsp1.
  - cbn [sigend]. unfold nextarg_ptr. rewrite Hsp1, nextarg_one.
    replace (length (sig_of t ++ r) - length r)%nat with (length (sig_of t)) by (rewrite length_app; lia).
    apply sigptr_skip; [apply no_nul_sig_of|done].
Qed.

Lemma written_array (t : ty) (vs : list value) : Forall written vs -> written (VArray t vs).
Proof.
  intros Hvs p Hw Hc d arr sp r Hd Hsp. apply wf_array in Hw as (Hlen & Hw & Ht).
  cbn [ty_of sig_of app canon] in *. subst p.
  destruct (beginarray_ok t d arr r sp Hsp) as (a & E1 & Hsz & Hdi & Hsb & Hse).
  set (q := len d + pad (len d) 4 + 4) in *. set (zd := zeros (pad q (field_alignment (head_of t)))) in *.
  set (d1 := d ++ zeros (pad (len d) 4)) in *.
  assert (Ed : d ++ zeros (pad (len d) 4) ++ le_bytes 4 0 ++ zd = d1 ++ le_bytes 4 0 ++ zd)
    by (unfold d1; by rewrite <- app_assoc).
  assert (Hl : len (d1 ++ le_bytes 4 0 ++ zd) = array_data (len d) t).
  { unfold d1, zd, array_data. rewrite !len_app, !len_zeros_pad, len_le_bytes by auto with adbus.
    fold q. lia. }
  destruct (written_entries a t r arr vs Hsb Hvs Ht _ (d1 ++ le_bytes 4 0 ++ zd) (sigbegin a) Hl Hw Hc)
    as (sp2 & E2).
  exists (sigend a). split; [|done]. cbn [write].
  rewrite (bind_Ret _ _ _ _ _ E1), Ed, (bind_Ret _ _ _ _ _ E2).
  set (body := encs (array_data (len d) t) vs) in *. unfold adbus_buf_endarray.
  erewrite bind_Ret by reflexivity. cbn [b_data b_sig]. rewrite Hdi, Hsz.
  rewrite (proj2 (Nat.leb_le _ _)).
  2:{ rewrite !length_app, length_le_bytes. lia. }
  fold (len ((d1 ++ le_bytes 4 0 ++ zd) ++ body)). rewrite len_app, Hl.
  replace (array_data (len d) t + len body - array_data (len d) t) with (len body) by lia.
  rewrite <- app_assoc, <- app_assoc, memcpy_mid by by rewrite !length_le_bytes.
  unfold put. rewrite enc_array. fold q zd body. do 2 f_equal. unfold d1. by rewrite <- app_assoc.
Qed.

Lemma canon_num (b : basic) (z : Z) (p : Z) : wf p (VNum b z) -> canon (VNum b z) -> writable_num b z.
Proof. by split. Qed.

Lemma written_all (v : value) : written v.
Proof.
  induction v as [b z|b s|v IH|t vs IH|vs IH|k v IHk IHv] using value_ind'.
  - intros p Hw Hc. apply (emits_emits_at p (fun p => enc p (VNum b z))). by apply write_num_ok.
  - intros p Hw _. apply (emits_emits_at p (fun p => enc p (VStr b s))). by apply write_str_ok.
  - by apply written_variant.
  - by apply written_array.
  - by apply written_struct.
  - by apply written_dict.
Qed.
End Write.

(** The serialising functions refine the reference encoding: called as the
    documentation prescribes on a buffer whose tracked signature starts with
    the type of the value, they append exactly the encoding of the value at
    the current size (padding, lengths back-patched by endarray, NULs) and
    leave the tracked signature after the type.  In a debug build this holds
    for the values without dict entries. *)
Theorem buffer_writes_encoding {B : Build} (v : value) (d arr r : list Z) (sp : sigptr)
  (Hw : wf (len d) v) (Hc : canon v)
  (Hsp : at_sigptr arr sp = Some (sig_of (ty_of v) ++ r)) :
  exists sp', write v (mkBuf d arr sp) = Ret tt (mkBuf (d ++ enc (len d) v) arr sp') /\
              at_sigptr arr sp' = Some r.
Proof. by apply written_all. Qed.

Definition adbus_iter_buffer (b : Buffer) : Iterator :=
  mkIter 0 (b_size b) (adbus_buf_sig b).

Lemma setsig_new {B : Build} (s : list Z) : no_nul s -> len s <= 255 ->
  exists arr, adbus_buf_setsig s (-1) adbus_buf_new = Ret tt (mkBuf [] arr (Own 0)) /\ cstr arr = s.
Proof.
  intros Hn Hl. pose proof (len_nonneg s).
  exists (memcpy_into (repeat 0 SIG_SIZE) 0 (s ++ [0])). split.
  - unfold adbus_buf_setsig. cbn [Z.ltb Z.compare]. rewrite cstr_no_nul by done.
    rewrite (proj2 (Z.ltb_ge _ _)) by lia.
    assert (E : carg s (len s + 1) adbus_buf_new = Ret (s ++ [0]) adbus_buf_new).
    { unfold carg. rewrite (proj2 (Z.ltb_ge _ _)), (proj2 (Z.leb_le _ _)) by lia. unfold ret. f_equal.
      replace (Z.to_nat (len s + 1)) with (length (s ++ [0]))
        by (rewrite length_app; unfold len; cbn [length]; lia).
      apply firstn_all. }
    by rewrite (bind_Ret _ _ _ _ _ E).
  - unfold memcpy_into. cbn [take app]. rewrite <- app_assoc. cbn [app]. by apply cstr_app_nul.
Qed.

Lemma skip_values {B : Build} (m : list Z) (fuel : nat) (vs : list value) : forall p s r,
  wfs p vs -> at_ m p (encs p vs) -> len (encs p vs) <= s ->
  Forall (fun v => (vfuel v < fuel)%nat) vs ->
  seq_run (fun _ : value => adbus_iter_value m fuel) vs (mkIter p s (sigs_of (map ty_of vs) ++ r)) =
    Ret tt (mkIter (p + len (encs p vs)) (s - len (encs p vs) + slacks p vs) r).
Proof.
  induction vs as [|v vs IH]; intros p s r Hw Hat Hs Hf.
  - transitivity (@Ret Iterator unit tt (mkIter p s r)); [done|].
    change (len (encs p [])) with 0. change (slacks p []) with 0. do 2 f_equal; lia.
  - destruct Hw as [Hw Hws]. apply Forall_cons in Hf as [Hf Hfs].
    cbn [encs seq_enc slacks] in *. fold (encs (p + len (enc p v)) vs) in *.
    rewrite len_app in *. pose proof (len_nonneg (encs (p + len (enc p v)) vs)).
    pose proof (slack_nonneg p v). apply at_app in Hat as [Hat1 Hat2]. fold (len (enc p v)) in Hat2.
    cbn [map sigs_of concat seq_run]. rewrite <- app_assoc.
    erewrite bind_Ret by (apply (value_skip m v p); [done|done|done|lia]).
    fold (sigs_of (map ty_of vs)). rewrite IH by (done || lia). do 2 f_equal; lia.
Qed.

Lemma no_nul_sigs (ts : list ty) : no_nul (sigs_of ts).
Proof. induction ts; [constructor|]. cbn. apply Forall_app; split; [apply no_nul_sig_of|done]. Qed.

(** C28: round trip of the buffer and the iterator: setting the signature of a
    list of values on a new buffer and serialising them succeeds and completes
    the signature, and an iterator set up over the buffer skips the values one
    by one to exactly the end of the data and of the signature. *)
Theorem buffer_iterator_roundtrip {B : Build} (vs : list value) (fuel : nat)
  (Hw : wfs 0 vs) (Hc : fold_right (fun v P => canon v /\ P) True vs)
  (Hl : len (sigs_of (map ty_of vs)) <= 255)
  (Hf : Forall (fun v => (vfuel v < fuel)%nat) vs) :
  exists b,
    bind (adbus_buf_setsig (sigs_of (map ty_of vs)) (-1)) (fun _ => seq_run write vs) adbus_buf_new
      = Ret tt b /\
    b_data b = encs 0 vs /\ adbus_buf_signext b = Some [] /\
    exists sz, seq_run (fun _ : value => adbus_iter_value (b_data b) fuel) vs (adbus_iter_buffer b)
      = Ret tt (mkIter (b_size b) sz []).
Proof.
  destruct (setsig_new (sigs_of (map ty_of vs)) (no_nul_sigs _) Hl) as (arr & E & Harr).
  assert (Hvs : Forall written vs) by (apply Forall_forall; intros v _; apply written_all).
  destruct (written_seq vs Hvs 0 Hw Hc [] arr (Own 0) []) as (sp & E2 & Hsp); [done| |].
  { cbn. by rewrite drop_0, Harr, app_nil_r. }
  exists (mkBuf (encs 0 vs) arr sp). rewrite (bind_Ret _ _ _ _ _ E), E2. split; [done|].
  split; [done|]. split; [done|]. eexists. cbn [b_data]. unfold adbus_iter_buffer, b_size, adbus_buf_sig.
  cbn [b_data b_sig]. rewrite Harr.
  rewrite <- (app_nil_r (sigs_of (map ty_of vs))).
  rewrite skip_values by (try apply at_self; try done; lia). reflexivity.
Qed.

Lemma buffer_writes_encoding_witness :
  exists sp', write (B := debug_build) (VNum UINT32 258) (mkBuf [1] (str "yu") (Own 1)) =
    Ret tt (mkBuf ([1] ++ [0; 0; 0; 2; 1; 0; 0]) (str "yu") sp') /\ at_sigptr (str "yu") sp' = Some [].
Proof.
  apply (buffer_writes_encoding (B := debug_build) (VNum UINT32 258) [1] (str "yu") [] (Own 1)).
  - vm_compute; repeat split; congruence.
  - done.
  - done.
Defined.

Lemma buffer_iterator_roundtrip_witness :
  exists b,
    bind (adbus_buf_setsig (B := release_build) (str "(ya{sv}t)") (-1))
      (fun _ => seq_run (write (B := release_build)) [sample_value]) adbus_buf_new = Ret tt b /\
    b_data b = encs 0 [sample_value] /\ adbus_buf_signext b = Some [] /\
    exists sz, seq_run (fun _ : value => adbus_iter_value (B := release_build) (b_data b) 20)
      [sample_value] (adbus_iter_buffer b) = Ret tt (mkIter (b_size b) sz []).
Proof.
  apply (buffer_iterator_roundtrip (B := release_build) [sample_value] 20).
  - unfold sample_value. cbn. unfold wf_num, wf_str. repeat split; try (vm_compute; congruence).
    all: try (apply no_nul_forallb; reflexivity). all: apply bytes_forallb; reflexivity.
  - repeat split; done.
  - vm_compute. congruence.
  - repeat constructor; vm_compute; lia.
Defined.

(** Ending a dict entry stops every debug build: the function asserts the
    opening brace. *)
Theorem enddictentry_asserts (d arr r : list Z) (sp : sigptr)
  (Hsp : at_sigptr arr sp = Some (code_of DICTENTRY_END :: r)) :
  adbus_buf_enddictentry (B := debug_build) (mkBuf d arr sp) = Abort.
Proof.
  unfold adbus_buf_enddictentry, SIG. cbn [bind get b_sig b_sigp]. by rewrite Hsp.
Qed.

(** Appending the first value of "su" also copies the 'u' to the signature
    (the copy takes one character too many instead of a terminator). *)
Example appendvalue_extra_char :
  let m := enc 0 (VStr STRING (str "x")) ++ zeros 2 ++ le_bytes 4 7 in
  match adbus_buf_appendvalue (B := debug_build) m 5 (adbus_buf_new, mkIter 0 (len m) (str "su")) with
  | Ret _ (b, _) => b_data b = enc 0 (VStr STRING (str "x")) /\ adbus_buf_sig b = str "su"
  | _ => False
  end.
Proof. vm_compute. by split. Qed.
