(* ===== verification/Flip.v ===== *)
(** Endian flipping in place: [Flip16] .. [adbus_flip_data] of
    adbus/riterator.c, which adbus_parse and the bus server run on a message
    of the other endianness.  The cursor consumes every type code twice, so
    that no message header is ever accepted. *)

From Stdlib Require Import ZArith Lia.
From stdpp Require Import base option list numbers strings.
From S2P Require Import Prelude Signature Iterator Values.
Open Scope Z_scope.

(** ** State: the memory that is flipped and the cursor into it *)
Definition flipper : Type := list Z * Iterator.

(** An iterator operation on the memory as it is now. *)
Definition on_iter {A} (op : list Z -> M Iterator A) : M flipper A := fun s =>
  match op (fst s) (snd s) with
  | Ret a i => Ret a (fst s, i)
  | Err i => Err (fst s, i)
  | Abort => Abort
  | Oob => Oob
  | Nofuel => Nofuel
  end.

(** [*p = v] for an [n]-byte integer. *)
Definition store (p : Z) (n : nat) (v : Z) : M flipper unit := fun s =>
  if in_bounds (fst s) p (Z.of_nat n) then
    Ret tt (take (Z.to_nat p) (fst s) ++ le_bytes n v ++ drop (Z.to_nat p + n) (fst s), snd s)
  else Oob.

(** A call whose result is not looked at. *)
Definition ignore {S A} (m : M S A) : M S unit := fun s =>
  match m s with
  | Ret _ s' | Err s' => Ret tt s'
  | Abort => Abort
  | Oob => Oob
  | Nofuel => Nofuel
  end.

(** ** Byte swaps *)
Definition byte_to (v mask : Z) (shift : Z) : Z := Z.shiftl (Z.land v mask) shift.

Definition flip16 (v : Z) : Z :=
  Z.lor (byte_to v 65280 (-8)) (byte_to v 255 8).

Definition flip32 (v : Z) : Z :=
  Z.lor (Z.lor (Z.lor (byte_to v 4278190080 (-24)) (byte_to v 16711680 (-8)))
    (byte_to v 65280 8)) (byte_to v 255 24).

(** The third byte is moved by 16 bits, not 24. *)
Definition flip64 (v : Z) : Z :=
  Z.lor (Z.lor (Z.lor (Z.lor (Z.lor (Z.lor (Z.lor
    (byte_to v 18374686479671623680 (-56)) (byte_to v 71776119061217280 (-40)))
    (byte_to v 280375465082880 (-24))) (byte_to v 1095216660480 (-8)))
    (byte_to v 4278190080 8)) (byte_to v 16711680 16))
    (byte_to v 65280 40)) (byte_to v 255 56).

Section Ops.
Context {B : Build}.

(** The body the three functions share: swap the [n]-byte integer at the
    cursor and, when [consume], move over it. *)
Definition flip_at (n : nat) (swap : Z -> Z) (consume : bool) : M flipper unit :=
  let k := Z.of_nat n in
  run* on_iter (fun _ => adbus_iter_align k) in
  let* s := get in
  run* require (k <=? size (snd s)) in
  let* v := load (fst s) (data (snd s)) n in
  run* store (data (snd s)) n (swap v) in
  if consume then on_iter (fun _ => modify (advance k)) else ret tt.

Definition Flip16 : M flipper unit := flip_at 2 flip16 true.
Definition Flip32 (consume : bool) : M flipper unit := flip_at 4 flip32 consume.
Definition Flip64 : M flipper unit := flip_at 8 flip64 true.

(** The functions below call [adbus_flip_value], here [flip]. *)
Definition FlipArray (fuel : nat) (flip : M flipper unit) : M flipper unit :=
  run* Flip32 false in
  let* a := on_iter (fun m => adbus_iter_beginarray m) in
  run* (fix go (fuel : nat) : M flipper unit :=
          let* more := on_iter (fun _ => adbus_iter_inarray a) in
          if more then
            match fuel with
            | O => nofuel
            | S fuel' => run* flip in go fuel'
            end
          else ret tt) fuel in
  on_iter (fun _ => adbus_iter_endarray a).

Definition FlipVariant (flip : M flipper unit) : M flipper unit :=
  let* v := on_iter adbus_iter_beginvariant in
  run* ignore flip in
  run* on_iter (fun _ => adbus_iter_endvariant v) in ret tt.

(** The type code is consumed here ([switch ( *(i.sig)++ )]) and again by the
    iterator functions that are called. *)
Fixpoint adbus_flip_value (fuel : nat) : M flipper unit :=
  match fuel with
  | O => nofuel
  | S fuel' =>
      let* s := get in
      run* on_iter (fun _ => modify (fun i => set_sig (tl (sig i)) i)) in
      match field_of (deref (sig (snd s))) with
      | Some (Basic UINT8) => run* on_iter (fun _ => adbus_iter_u8) in ret tt
      | Some (Basic INT16) | Some (Basic UINT16) => Flip16
      | Some (Basic BOOLEAN) | Some (Basic INT32) | Some (Basic UINT32) => Flip32 true
      | Some (Basic INT64) | Some (Basic UINT64) => Flip64
      | Some (Basic STRING) =>
          run* Flip32 false in
          run* on_iter adbus_iter_string in ret tt
      | Some (Basic OBJECT_PATH) =>
          run* Flip32 false in
          run* on_iter adbus_iter_objectpath in ret tt
      | Some (Basic SIGNATURE) => run* on_iter adbus_iter_signature in ret tt
      | Some VARIANT_BEGIN => FlipVariant (adbus_flip_value fuel')
      | Some ARRAY_BEGIN => FlipArray fuel' (adbus_flip_value fuel')
      | Some STRUCT_BEGIN =>
          run* on_iter (fun _ => adbus_iter_beginstruct) in
          run* while_ fuel' (fun s => let c := deref (sig (snd s)) in
                               negb (c =? 0) && negb (c =? chr ")"))
                 (adbus_flip_value fuel') in
          on_iter (fun _ => adbus_iter_endstruct)
      | Some DICTENTRY_BEGIN =>
          run* on_iter (fun _ => adbus_iter_begindictentry) in
          run* adbus_flip_value fuel' in
          run* adbus_flip_value fuel' in
          on_iter (fun _ => adbus_iter_enddictentry)
      | _ => assert_fail
      end
  end.

(** [while (size > 0)]; the result is the memory. *)
Definition adbus_flip_data (fuel : nat) (m : list Z) (d sz : Z) (s : list Z) : outcome flipper unit :=
  while_ fuel (fun s => 0 <? size (snd s)) (adbus_flip_value fuel) (m, mkIter d sz s).
End Ops.

Definition HEADER_SIG : list Z := str "yyyyuua(yv)".

(** [flip64] does not reverse the bytes. *)
Example flip64_wrong : le_bytes 8 (flip64 (le_value [1; 2; 3; 4; 5; 6; 7; 8])) = [8; 7; 6; 5; 7; 0; 2; 1].
Proof. vm_compute. reflexivity. Qed.

Example flip32_right : le_bytes 4 (flip32 (le_value [1; 2; 3; 4])) = [4; 3; 2; 1].
Proof. vm_compute. reflexivity. Qed.

(** ** No header is accepted *)
Section Header.
Context {B : Build}.

Lemma on_iter_Ret {A} (op : list Z -> M Iterator A) (m : list Z) (i i' : Iterator) (a : A) :
  op m i = Ret a i' -> on_iter op (m, i) = Ret a (m, i').
Proof. intros H. unfold on_iter. cbn [fst snd]. by rewrite H. Qed.

Lemma length_store (m : list Z) (p v : Z) (n : nat) : 0 <= p -> p + Z.of_nat n <= len m ->
  len (take (Z.to_nat p) m ++ le_bytes n v ++ drop (Z.to_nat p + n) m) = len m.
Proof.
  intros Hp Hn. unfold len in *. rewrite !length_app, length_take, length_drop, length_le_bytes. lia.
Qed.

Lemma flip_at_ok (n : nat) (swap : Z -> Z) (consume : bool) (m : list Z) (d s : Z) (g : list Z) :
  boundary (Z.of_nat n) -> pad d (Z.of_nat n) = 0 -> Z.of_nat n <= s -> 0 <= d -> d + s <= len m ->
  exists m', len m' = len m /\
    flip_at n swap consume (m, mkIter d s g) =
    Ret tt (m', if consume then mkIter (d + Z.of_nat n) (s - Z.of_nat n) g else mkIter d s g).
Proof.
  intros Hb Hp Hs Hd Hl.
  eexists. split; [|unfold flip_at].
  2:{ erewrite bind_Ret by (apply on_iter_Ret, align_ok; lia). rewrite Hp, Z.add_0_r, Z.sub_0_r.
      rewrite (bind_Ret get _ _ _ _ eq_refl). cbn [snd fst size data].
      erewrite bind_Ret by by apply require_true, Z.leb_le.
      assert (Hin : in_bounds m d (Z.of_nat n) = true).
      { unfold in_bounds, len in *. rewrite (proj2 (Z.leb_le _ _)), (proj2 (Z.leb_le _ _)) by lia. done. }
      erewrite bind_Ret by (unfold load; rewrite Hin; reflexivity).
      erewrite bind_Ret by (unfold store; cbn [fst snd]; rewrite Hin; reflexivity).
      by destruct consume. }
  apply length_store; lia.
Qed.

(** The first six codes: two bytes and two integers; then the array function
    finds a '(' instead of its 'a'. *)
Lemma flip_u8 (fuel : nat) (m : list Z) (d s : Z) (g : list Z) : 1 <= s ->
  adbus_flip_value (S fuel) (m, mkIter d s (chr "y" :: chr "y" :: g)) = Ret tt (m, mkIter (d + 1) (s - 1) g).
Proof.
  intros Hs. cbn [adbus_flip_value]. rewrite (bind_Ret get _ _ _ _ eq_refl). cbn [snd sig deref hd].
  erewrite bind_Ret by reflexivity.
  change (field_of (chr "y")) with (Some (Basic UINT8)). cbv iota.
  erewrite bind_Ret; [reflexivity|]. apply on_iter_Ret. unfold adbus_iter_u8.
  erewrite bind_Ret by by apply sig_ok. cbn [tl]. by apply get8_ok.
Qed.

Lemma flip_u32 (fuel : nat) (m : list Z) (d s : Z) (g : list Z) :
  pad d 4 = 0 -> 4 <= s -> 0 <= d -> d + s <= len m ->
  exists m', len m' = len m /\
    adbus_flip_value (S fuel) (m, mkIter d s (chr "u" :: g)) = Ret tt (m', mkIter (d + 4) (s - 4) g).
Proof.
  intros Hp Hs Hd Hl. destruct (flip_at_ok 4 flip32 true m d s g) as (m' & Hm & E); [auto with adbus|done..|].
  exists m'. split; [done|]. cbn [adbus_flip_value]. rewrite (bind_Ret get _ _ _ _ eq_refl).
  cbn [snd sig deref hd]. erewrite bind_Ret by reflexivity.
  change (field_of (chr "u")) with (Some (Basic UINT32)). cbv iota. exact E.
Qed.

(** Not aligned: the padding is skipped first. *)
Lemma flip_u32_2 (fuel : nat) (m : list Z) (s : Z) (g : list Z) :
  6 <= s -> 2 + s <= len m ->
  exists m', len m' = len m /\
    adbus_flip_value (S fuel) (m, mkIter 2 s (chr "u" :: g)) = Ret tt (m', mkIter 8 (s - 6) g).
Proof.
  intros Hs Hl. destruct (flip_at_ok 4 flip32 true m 4 (s - 2) g) as (m' & Hm & E);
    [auto with adbus|done|lia|lia|lia|].
  exists m'. split; [done|]. cbn [adbus_flip_value]. rewrite (bind_Ret get _ _ _ _ eq_refl).
  cbn [snd sig deref hd]. erewrite bind_Ret by reflexivity.
  change (field_of (chr "u")) with (Some (Basic UINT32)). cbv iota.
  unfold set_sig. cbn [data size sig tl].
  assert (A : forall e k, pad e 4 = 4 - e -> k = s - 2 + (4 - e) -> 2 <= k -> 2 <= s ->
    on_iter (fun _ => adbus_iter_align 4) (m, mkIter e k g) = Ret tt (m, mkIter 4 (s - 2) g)).
  { intros e k Hp -> Hk Hs'. apply on_iter_Ret. rewrite align_ok by lia. do 2 f_equal; lia. }
  unfold Flip32, flip_at in *. change (Z.of_nat 4) with 4 in *.
  rewrite (bind_Ret _ _ _ _ _ (A 2 s eq_refl ltac:(lia) ltac:(lia) ltac:(lia))).
  rewrite (bind_Ret _ _ _ _ _ (A 4 (s - 2) eq_refl ltac:(lia) ltac:(lia) ltac:(lia))) in E.
  rewrite E. do 3 f_equal; lia.
Qed.

Lemma flip_array_mismatch (fuel : nat) (m : list Z) (d s c : Z) (g : list Z) :
  c <> chr "a" -> pad d 4 = 0 -> 4 <= s -> 0 <= d -> d + s <= len m ->
  returns (adbus_flip_value (S fuel) (m, mkIter d s (chr "a" :: c :: g))) = false /\
  safe (adbus_flip_value (S fuel) (m, mkIter d s (chr "a" :: c :: g))).
Proof.
  intros Hc Hp Hs Hd Hl.
  destruct (flip_at_ok 4 flip32 false m d s (c :: g)) as (m' & Hm & E); [auto with adbus|done..|].
  cbn [adbus_flip_value]. rewrite (bind_Ret get _ _ _ _ eq_refl).
  cbn [snd sig deref hd]. erewrite bind_Ret by reflexivity.
  change (field_of (chr "a")) with (Some ARRAY_BEGIN). cbv iota. unfold FlipArray.
  unfold set_sig. cbn [data size sig tl]. rewrite (bind_Ret _ _ _ _ _ E).
  assert (A : on_iter (fun m => adbus_iter_beginarray m) (m', mkIter d s (c :: g)) =
    if ndebug then Err (m', mkIter d s g) else Abort).
  { unfold on_iter. cbn [fst snd]. unfold adbus_iter_beginarray, bind at 1, adbusI_iter_sig.
    rewrite (bind_Ret get _ _ _ _ eq_refl), (bind_Ret (put _) _ _ _ tt eq_refl). cbn [sig deref hd].
    rewrite (proj2 (Z.eqb_neq _ _) Hc). unfold assert_fail. by destruct ndebug. }
  unfold bind. rewrite A. by destruct ndebug.
Qed.

Lemma while_more {S} (fuel : nat) (c : S -> bool) (body : M S unit) (s s' : S) :
  c s = true -> body s = Ret tt s' -> while_ (Datatypes.S fuel) c body s = while_ fuel c body s'.
Proof. intros Hc Hb. cbn [while_]. by rewrite Hc, (bind_Ret _ _ _ _ _ Hb). Qed.

Lemma bind_stops {S A C} (m : M S A) (k : A -> M S C) (s : S) :
  returns (m s) = false -> safe (m s) -> returns (bind m k s) = false /\ safe (bind m k s).
Proof. unfold bind. by destruct (m s). Qed.

Lemma flip_header_stops (m : list Z) (sz : Z) (fuel : nat) :
  16 <= sz <= len m -> (6 <= fuel)%nat ->
  returns (adbus_flip_data fuel m 0 sz HEADER_SIG) = false /\
  safe (adbus_flip_data fuel m 0 sz HEADER_SIG).
Proof.
  intros Hs Hf. do 6 (destruct fuel as [|fuel]; [lia|]). unfold adbus_flip_data, HEADER_SIG.
  change (str "yyyyuua(yv)") with
    (chr "y" :: chr "y" :: chr "y" :: chr "y" :: chr "u" :: chr "u" :: chr "a" :: chr "(" :: str "yv)").
  erewrite while_more; [|apply Z.ltb_lt; cbn; lia|apply flip_u8; lia].
  erewrite while_more; [|apply Z.ltb_lt; cbn; lia|apply flip_u8; lia]. cbn [Z.add].
  destruct (flip_u32_2 (S (S (S (S (S fuel))))) m (sz - 1 - 1)
    (chr "u" :: chr "a" :: chr "(" :: str "yv)")) as (m1 & H1 & E1); [lia|lia|].
  erewrite while_more; [|apply Z.ltb_lt; cbn; lia|exact E1].
  destruct (flip_u32 (S (S (S (S (S fuel))))) m1 8 (sz - 1 - 1 - 6)
    (chr "a" :: chr "(" :: str "yv)")) as (m2 & H2 & E2); [done|lia|lia|lia|].
  erewrite while_more; [|apply Z.ltb_lt; cbn; lia|exact E2]. cbn [while_].
  replace (0 <? size (snd (m2, _))) with true by (symmetry; apply Z.ltb_lt; cbn; lia).
  destruct (flip_array_mismatch (S (S (S (S (S fuel))))) m2 (8 + 4) (sz - 1 - 1 - 6 - 4) (chr "(") (str "yv)"))
    as [Hr Hsafe]; [done|done|lia|lia|lia|].
  by apply bind_stops.
Qed.
(** Flipping a message header never succeeds: whatever the bytes are, the
    function returns its error code, or stops at an assertion in a debug
    build.  So no message of the other endianness gets through adbus_parse or
    the bus server. *)
Theorem flip_header_rejected (m : list Z) (sz : Z) (fuel : nat) :
  16 <= sz <= len m -> (6 <= fuel)%nat ->
  returns (adbus_flip_data fuel m 0 sz HEADER_SIG) = false /\
  safe (adbus_flip_data fuel m 0 sz HEADER_SIG).
Proof. apply flip_header_stops. Qed.
End Header.

Lemma flip_header_rejected_witness :
  let m := str "B" ++ [4; 1; 1; 0; 0; 0; 0; 0; 0; 0; 1; 0; 0; 0; 8; 1; 1; 115; 0; 0; 0; 0; 0; 0] in
  returns (adbus_flip_data (B := release_build) 20 m 0 24 HEADER_SIG) = false /\
  safe (adbus_flip_data (B := release_build) 20 m 0 24 HEADER_SIG).
Proof. intros m. apply flip_header_rejected; [split; vm_compute; discriminate|lia]. Defined.
