(* ===== verification/Sha1.v ===== *)
(** SHA-1 as adbus/sha1.c computes it (used by the cookie authentication):
    an incremental hash with a 64-byte block buffer.  Adding a message in any
    pieces and asking for the digest is shown to be the padded, block-by-block
    hash of the whole message. *)

From Stdlib Require Import ZArith Lia.
From stdpp Require Import base option list numbers strings.
From S2P Require Import Prelude Values.
Open Scope Z_scope.

(** ** 32-bit words *)
Definition w32 (x : Z) : Z := x mod 2 ^ 32.

Definition lrot (x bits : Z) : Z := Z.lor (w32 (Z.shiftl x bits)) (Z.shiftr x (32 - bits)).

Definition be32 (num : Z) : list Z :=
  [Z.shiftr num 24 mod 256; Z.shiftr num 16 mod 256; Z.shiftr num 8 mod 256; num mod 256].

Definition splice (dst : list Z) (off : nat) (src : list Z) : list Z :=
  take off dst ++ src ++ drop (off + length src) dst.

Definition storeBigEndianUint32 (byte : list Z) (off : nat) (num : Z) : list Z :=
  splice byte off (be32 num).

(** ** State *)
Record words := mkWords { H0 : Z; H1 : Z; H2 : Z; H3 : Z; H4 : Z }.

Record SHA1 := mkSha {
  sha_h : words; sha_bytes : list Z; unprocessedBytes : nat; sha_size : Z }.

Definition init_words : words :=
  mkWords 1732584193 4023233417 2562383102 271733878 3285377520.

(** The block buffer is left as it was. *)
Definition SHA1Init (s : SHA1) : SHA1 := mkSha init_words (sha_bytes s) 0 0.

(** ** One block *)
Definition block_word (bytes : list Z) (t : nat) : Z :=
  w32 (Z.shiftl (nth (t * 4) bytes 0) 24 + Z.shiftl (nth (t * 4 + 1) bytes 0) 16 +
       Z.shiftl (nth (t * 4 + 2) bytes 0) 8 + nth (t * 4 + 3) bytes 0).

Fixpoint expand (W : list Z) (n : nat) : list Z :=
  match n with
  | O => W
  | S n' =>
      let t := length W in
      let x := Z.lxor (Z.lxor (Z.lxor (nth (t - 3) W 0) (nth (t - 8) W 0)) (nth (t - 14) W 0))
                 (nth (t - 16) W 0) in
      expand (W ++ [lrot x 1]) n'
  end.

Definition schedule (bytes : list Z) : list Z := expand (map (block_word bytes) (seq 0 16)) 64.

Definition round_K (t : nat) : Z :=
  if (t <? 20)%nat then 1518500249
  else if (t <? 40)%nat then 1859775393
  else if (t <? 60)%nat then 2400959708
  else 3395469782.

Definition round_f (t : nat) (b c d : Z) : Z :=
  if (t <? 20)%nat then Z.lor (Z.land b c) (Z.land (Z.lxor b 4294967295) d)
  else if (t <? 40)%nat then Z.lxor (Z.lxor b c) d
  else if (t <? 60)%nat then Z.lor (Z.lor (Z.land b c) (Z.land b d)) (Z.land c d)
  else Z.lxor (Z.lxor b c) d.

Definition sha_round (v : words) (tw : nat * Z) : words :=
  let '(t, w) := tw in
  let temp := w32 (lrot (H0 v) 5 + round_f t (H1 v) (H2 v) (H3 v) + H4 v + w + round_K t) in
  mkWords temp (H0 v) (lrot (H1 v) 30) (H2 v) (H3 v).

Definition compress (h : words) (bytes : list Z) : words :=
  let v := fold_left sha_round (zip (seq 0 80) (schedule bytes)) h in
  mkWords (w32 (H0 h + H0 v)) (w32 (H1 h + H1 v)) (w32 (H2 h + H2 v))
          (w32 (H3 h + H3 v)) (w32 (H4 h + H4 v)).

Section Ops.
Context {B : Build}.

Definition process : M SHA1 unit :=
  let* s := get in
  run* assert_ (unprocessedBytes s =? 64)%nat in
  put (mkSha (compress (sha_h s) (sha_bytes s)) (sha_bytes s) 0 (sha_size s)).

(** The [while (num > 0)] loop; one unit of fuel per iteration. *)
Definition add_body (again : list Z -> M SHA1 unit) (data : list Z) : M SHA1 unit :=
  let* s := get in
  let needed := (64 - unprocessedBytes s)%nat in
  run* assert_ (0 <? needed)%nat in
  let toCopy := Nat.min (length data) needed in
  run* put (mkSha (sha_h s) (splice (sha_bytes s) (unprocessedBytes s) (take toCopy data))
              (unprocessedBytes s + toCopy) (sha_size s)) in
  run* (if (unprocessedBytes s + toCopy =? 64)%nat then process else ret tt) in
  again (drop toCopy data).

Fixpoint add_loop (fuel : nat) (data : list Z) : M SHA1 unit :=
  match data with
  | [] => ret tt
  | _ =>
      match fuel with
      | O => nofuel
      | S fuel' => add_body (add_loop fuel') data
      end
  end.

Definition SHA1AddBytes (data : list Z) : M SHA1 unit :=
  run* assert_ (0 <? len data) in
  run* modify (fun s => mkSha (sha_h s) (sha_bytes s) (unprocessedBytes s)
                          (w32 (sha_size s + len data))) in
  add_loop (length data) data.

Definition digest_bytes (h : words) : list Z :=
  be32 (H0 h) ++ be32 (H1 h) ++ be32 (H2 h) ++ be32 (H3 h) ++ be32 (H4 h).

Definition SHA1GetDigest : M SHA1 (list Z) :=
  let* s := get in
  let totalBitsL := w32 (Z.shiftl (sha_size s) 3) in
  let totalBitsH := Z.shiftr (sha_size s) 29 in
  run* SHA1AddBytes [128] in
  let footer := repeat 0 64 in
  let* s := get in
  run* (if (56 <? unprocessedBytes s)%nat
        then SHA1AddBytes (take (64 - unprocessedBytes s) footer) else ret tt) in
  let* s := get in
  run* assert_ (unprocessedBytes s <=? 56)%nat in
  let neededZeros := (56 - unprocessedBytes s)%nat in
  let footer := storeBigEndianUint32 footer neededZeros totalBitsH in
  let footer := storeBigEndianUint32 footer (neededZeros + 4) totalBitsL in
  run* SHA1AddBytes (take (neededZeros + 8) footer) in
  let* s := get in
  ret (digest_bytes (sha_h s)).
End Ops.

(** ** Reference: pad the message, hash block by block *)
Fixpoint hash_blocks (n : nat) (h : words) (l : list Z) : words :=
  match n with
  | O => h
  | S n' => hash_blocks n' (compress h (take 64 l)) (drop 64 l)
  end.

Definition be64 (n : Z) : list Z := be32 (Z.shiftr n 32) ++ be32 (w32 n).

Definition sha_pad (msg : list Z) : list Z :=
  msg ++ [128] ++ zeros ((55 - len msg) mod 64) ++ be64 (8 * len msg).

Definition sha1 (msg : list Z) : list Z :=
  digest_bytes (hash_blocks (length (sha_pad msg) / 64) init_words (sha_pad msg)).

Example sha1_abc : sha1 (str "abc") =
  [169; 153; 62; 54; 71; 6; 129; 106; 186; 62; 37; 113; 120; 80; 194; 108; 156; 208; 216; 157].
Proof. vm_compute. reflexivity. Qed.

(** ** Adding bytes *)

Lemma hash_blocks_snoc (k : nat) : forall (h : words) (l blk : list Z),
  length l = (64 * k)%nat -> length blk = 64%nat ->
  hash_blocks (S k) h (l ++ blk) = compress (hash_blocks k h l) blk.
Proof.
  induction k as [|k IH]; intros h l blk Hl Hb.
  - destruct l; [|simpl in Hl; lia]. cbn [hash_blocks app]. by rewrite take_ge by lia.
  - cbn [hash_blocks]. rewrite take_app_le, drop_app_le by lia.
    rewrite <- (IH (compress h (take 64 l)) (drop 64 l) blk) by (rewrite ?length_drop; lia).
    reflexivity.
Qed.

(** The state after the message [msg]: its complete blocks hashed, the rest in
    the block buffer. *)
Definition hashed (s : SHA1) (msg : list Z) : Prop :=
  exists k l tail, msg = l ++ tail /\ length l = (64 * k)%nat /\ (length tail < 64)%nat /\
    sha_h s = hash_blocks k init_words l /\ unprocessedBytes s = length tail /\
    take (length tail) (sha_bytes s) = tail /\ length (sha_bytes s) = 64%nat.

Lemma length_splice (dst src : list Z) (off : nat) : (off + length src <= length dst)%nat ->
  length (splice dst off src) = length dst.
Proof.
  intros H. unfold splice. rewrite !length_app, length_take, length_drop. lia.
Qed.

Lemma take_splice (dst src : list Z) (off : nat) : (off + length src <= length dst)%nat ->
  take (off + length src) (splice dst off src) = take off dst ++ src.
Proof.
  intros H. unfold splice. rewrite app_assoc. apply take_app_length'.
  rewrite length_app, length_take. lia.
Qed.

Section Add.
Context {B : Build}.

(** One iteration of the loop. *)
Lemma add_step (s : SHA1) (msg chunk : list Z) :
  hashed s msg -> chunk <> [] -> (unprocessedBytes s + length chunk <= 64)%nat ->
  exists s', bind (put (mkSha (sha_h s) (splice (sha_bytes s) (unprocessedBytes s) chunk)
                     (unprocessedBytes s + length chunk) (sha_size s)))
    (fun _ => if (unprocessedBytes s + length chunk =? 64)%nat then process else ret tt) s = Ret tt s' /\
    hashed s' (msg ++ chunk) /\ sha_size s' = sha_size s.
Proof.
  intros (k & l & tail & -> & Hl & Ht & Hh & Hu & Htk & Hlen) Hne Hle.
  assert (Htake : take (length tail + length chunk) (splice (sha_bytes s) (length tail) chunk) = tail ++ chunk).
  { rewrite take_splice by lia. by rewrite Htk. }
  assert (Hsl : length (splice (sha_bytes s) (length tail) chunk) = 64%nat)
    by (rewrite length_splice; lia).
  rewrite Hu in *. cbn [bind put]. destruct (Nat.eqb_spec (length tail + length chunk) 64) as [E|E].
  - unfold process, bind, get, assert_, put. cbn [unprocessedBytes]. rewrite E, Nat.eqb_refl.
    cbn [orb sha_h sha_bytes sha_size]. eexists. split; [reflexivity|]. split; [|done].
    exists (S k), (l ++ tail ++ chunk), []. rewrite E, take_ge in Htake by lia.
    repeat split; cbn [sha_h sha_bytes unprocessedBytes length]; try lia.
    + by rewrite app_nil_r, <- app_assoc.
    + rewrite !length_app. lia.
    + rewrite hash_blocks_snoc by (rewrite ?length_app; lia). by rewrite Hh, Htake.
  - eexists. split; [reflexivity|]. split; [|done]. exists k, l, (tail ++ chunk).
    cbn [sha_h sha_bytes unprocessedBytes]. rewrite length_app.
    repeat split; try done; try lia. by rewrite <- app_assoc.
Qed.

Lemma add_loop_hashed (fuel : nat) : forall (data : list Z) (s : SHA1) (msg : list Z),
  hashed s msg -> (length data <= fuel)%nat ->
  exists s', add_loop fuel data s = Ret tt s' /\ hashed s' (msg ++ data) /\ sha_size s' = sha_size s.
Proof.
  induction fuel as [|fuel IH]; intros data s msg Hs Hf.
  - destruct data; [|simpl in Hf; lia]. exists s. by rewrite app_nil_r.
  - destruct data as [|b data]; [exists s; by rewrite app_nil_r|].
    assert (Hu : (unprocessedBytes s < 64)%nat) by (destruct Hs as (?&?&?&?&?&?&?&->&?); done).
    change (add_loop (S fuel) (b :: data)) with (add_body (add_loop fuel) (b :: data)).
    set (l := b :: data) in *. unfold add_body. rewrite (bind_Ret get _ s s s eq_refl).
    erewrite bind_Ret by (apply assert_true, Nat.ltb_lt; lia).
    set (c := Nat.min (length l) (64 - unprocessedBytes s)).
    assert (Hc : length (take c l) = c) by (rewrite length_take; lia).
    assert (Hc1 : (1 <= c)%nat) by (unfold c, l; cbn [length]; lia).
    destruct (add_step s msg (take c l) Hs) as (s1 & E1 & H1 & Hz1).
    { intros E. rewrite E in Hc. simpl in Hc. lia. } { lia. }
    rewrite Hc in E1.
    destruct (IH (drop c l) s1 (msg ++ take c l) H1) as (s2 & E2 & H2 & Hz2).
    { rewrite length_drop. unfold l in *. cbn [length] in *. lia. }
    exists s2. rewrite <- app_assoc, take_drop in H2. split; [|split; [done|congruence]].
    rewrite <- bind_assoc, (bind_Ret _ _ _ _ _ E1). exact E2.
Qed.

(** With the size field: it counts the bytes modulo 2^32. *)
Definition sha_ok (s : SHA1) (msg : list Z) : Prop := hashed s msg /\ sha_size s = w32 (len msg).

Lemma add_bytes_ok (s : SHA1) (msg data : list Z) : data <> [] -> sha_ok s msg ->
  exists s', SHA1AddBytes data s = Ret tt s' /\ sha_ok s' (msg ++ data).
Proof.
  intros Hd [Hs Hz]. unfold SHA1AddBytes.
  erewrite bind_Ret by (apply assert_true, Z.ltb_lt; destruct data; [done|]; unfold len; simpl; lia).
  erewrite bind_Ret by reflexivity.
  destruct (add_loop_hashed (length data) data
    (mkSha (sha_h s) (sha_bytes s) (unprocessedBytes s) (w32 (sha_size s + len data))) msg)
    as (s' & E & H & Hz'); [exact Hs|done|].
  exists s'. split; [exact E|]. split; [done|]. rewrite Hz'. cbn [sha_size]. rewrite Hz, len_app.
  unfold w32. by rewrite Zplus_mod_idemp_l.
Qed.

Lemma init_ok (s : SHA1) : length (sha_bytes s) = 64%nat -> sha_ok (SHA1Init s) [].
Proof. intros H. split; [|done]. exists 0%nat, [], []. repeat split; try done. simpl. lia. Qed.

(** *** The digest *)

Lemma hashed_len (s : SHA1) (msg : list Z) : hashed s msg ->
  Z.of_nat (unprocessedBytes s) = len msg mod 64.
Proof.
  intros (k & l & tail & -> & Hl & Ht & _ & -> & _ & _). rewrite len_app. unfold len.
  replace (Z.of_nat (length l)) with (Z.of_nat k * 64) by lia.
  rewrite Z.add_comm, Z_mod_plus_full, Z.mod_small; lia.
Qed.

Lemma hashed_full (s : SHA1) (msg : list Z) : hashed s msg -> len msg mod 64 = 0 ->
  sha_h s = hash_blocks (length msg / 64) init_words msg.
Proof.
  intros Hs Hm. pose proof (hashed_len s msg Hs) as E. rewrite Hm in E.
  destruct Hs as (k & l & tail & -> & Hl & Ht & Hh & Hu & _ & _).
  assert (tail = []) as -> by (destruct tail; simpl in *; [done|lia]).
  rewrite Hh, app_nil_r, Hl, Nat.mul_comm, Nat.div_mul by lia. done.
Qed.

Lemma zeros_take (n : nat) : (n <= 64)%nat -> take n (repeat 0 64) = zeros (Z.of_nat n).
Proof.
  intros H. unfold zeros. rewrite Nat2Z.id.
  replace 64%nat with (n + (64 - n))%nat by lia. rewrite repeat_app.
  apply take_app_length'. by rewrite repeat_length.
Qed.

(** The last bytes that are added: zeros and the 64-bit length. *)
Lemma footer_bytes (nz : nat) (h l : Z) : (nz <= 56)%nat ->
  take (nz + 8) (storeBigEndianUint32 (storeBigEndianUint32 (repeat 0 64) nz h) (nz + 4) l) =
  zeros (Z.of_nat nz) ++ be32 h ++ be32 l.
Proof.
  intros H. unfold storeBigEndianUint32.
  assert (E : length (splice (repeat 0 64) nz (be32 h)) = 64%nat)
    by (rewrite length_splice; rewrite ?repeat_length; simpl; lia).
  replace (nz + 8)%nat with (nz + 4 + length (be32 l))%nat by (simpl; lia).
  rewrite take_splice by (rewrite E; simpl; lia).
  replace (nz + 4)%nat with (nz + length (be32 h))%nat by (simpl; lia).
  rewrite take_splice by (rewrite repeat_length; simpl; lia).
  by rewrite zeros_take, <- app_assoc by lia.
Qed.

Lemma len_zeros (n : Z) : 0 <= n -> len (zeros n) = n.
Proof. intros. unfold len. rewrite length_zeros. lia. Qed.

Lemma zeros_app (a b : Z) : 0 <= a -> 0 <= b -> zeros a ++ zeros b = zeros (a + b).
Proof. intros. unfold zeros. by rewrite <- repeat_app, Z2Nat.inj_add. Qed.

Lemma size_be64 (n : Z) : 0 <= n < 2 ^ 32 ->
  be32 (Z.shiftr (w32 n) 29) ++ be32 (w32 (Z.shiftl (w32 n) 3)) = be64 (8 * n).
Proof.
  intros H. unfold be64, w32. rewrite (Z.mod_small n) by lia.
  rewrite Z.shiftl_mul_pow2, !Z.shiftr_div_pow2 by lia.
  replace (8 * n / 2 ^ 32) with (n / 2 ^ 29).
  - by rewrite (Z.mul_comm n).
  - change (2 ^ 32) with (8 * 2 ^ 29). by rewrite Z.div_mul_cancel_l by lia.
Qed.

Lemma digest_ok (s : SHA1) (msg : list Z) : sha_ok s msg -> len msg < 2 ^ 32 ->
  exists s', SHA1GetDigest s = Ret (sha1 msg) s'.
Proof.
  intros Hs Hlt. assert (H0 : 0 <= len msg) by (unfold len; lia).
  unfold SHA1GetDigest. rewrite (bind_Ret get _ s s s eq_refl).
  destruct (add_bytes_ok s msg [128] ltac:(done) Hs) as (s1 & E1 & Hs1).
  rewrite (bind_Ret _ _ _ _ _ E1), (bind_Ret get _ s1 s1 s1 eq_refl).
  pose proof (hashed_len s1 _ (proj1 Hs1)) as Hu1.
  assert (Hl1 : len (msg ++ [128]) = len msg + 1) by (by rewrite len_app). rewrite Hl1 in Hu1.
  pose proof (Z.mod_pos_bound (len msg + 1) 64 ltac:(lia)) as Hb1.
  assert (exists s2 nz, (if (56 <? unprocessedBytes s1)%nat
        then SHA1AddBytes (take (64 - unprocessedBytes s1) (repeat 0 64)) else ret tt) s1 = Ret tt s2 /\
      sha_ok s2 ((msg ++ [128]) ++ zeros nz) /\ (unprocessedBytes s2 <= 56)%nat /\ 0 <= nz /\
      nz + (56 - Z.of_nat (unprocessedBytes s2)) = (55 - len msg) mod 64) as (s2 & nz & E2 & Hs2 & Hu2 & Hnz & Hz).
  { destruct (Nat.ltb_spec 56 (unprocessedBytes s1)) as [Hgt|Hle].
    - rewrite zeros_take by lia.
      destruct (add_bytes_ok s1 _ (zeros (Z.of_nat (64 - unprocessedBytes s1))) ltac:(intros E;
        apply (f_equal (@length Z)) in E; unfold zeros in E; rewrite repeat_length in E; simpl in E; lia)
        Hs1) as (s2 & E2 & Hs2).
      exists s2, (Z.of_nat (64 - unprocessedBytes s1)). split; [done|]. split; [done|].
      pose proof (hashed_len s2 _ (proj1 Hs2)) as Hu2. rewrite len_app, Hl1 in Hu2.
      unfold len at 2 in Hu2. rewrite length_zeros in Hu2.
      assert (unprocessedBytes s2 = 0%nat) as -> by (Z.div_mod_to_equations; lia).
      split; [lia|]. split; [lia|]. Z.div_mod_to_equations; lia.
    - exists s1, 0. rewrite app_nil_r. split; [done|]. split; [done|]. split; [done|]. split; [done|].
      Z.div_mod_to_equations; lia. }
  rewrite (bind_Ret _ _ _ _ _ E2), (bind_Ret get _ s2 s2 s2 eq_refl).
  rewrite (bind_Ret (assert_ _) _ s2 s2 tt) by (apply assert_true, Nat.leb_le; lia).
  destruct Hs as [_ Hsize]. rewrite Hsize, footer_bytes by lia. rewrite size_be64 by lia.
  destruct (add_bytes_ok s2 ((msg ++ [128]) ++ zeros nz) (zeros (Z.of_nat (56 - unprocessedBytes s2)) ++ be64 (8 * len msg))) as (s3 & E3 & Hs3);
    [|exact Hs2|].
  { intros E. by apply app_eq_nil in E as [_ E]. }
  rewrite (bind_Ret _ _ _ _ _ E3). exists s3. unfold bind, get, ret. f_equal.
  assert (Hp : ((msg ++ [128]) ++ zeros nz) ++ zeros (Z.of_nat (56 - unprocessedBytes s2)) ++ be64 (8 * len msg)
    = sha_pad msg).
  { unfold sha_pad. rewrite <- Hz, <- zeros_app, <- !app_assoc by lia.
    by replace (Z.of_nat (56 - unprocessedBytes s2)) with (56 - Z.of_nat (unprocessedBytes s2)) by lia. }
  rewrite Hp in Hs3. rewrite (hashed_full s3 _ (proj1 Hs3)); [done|].
  unfold sha_pad. rewrite !len_app. rewrite len_zeros by (apply Z.mod_pos_bound; lia).
  change (len [128]) with 1. change (len (be64 (8 * len msg))) with 8.
  pose proof (Z.mod_pos_bound (55 - len msg) 64 ltac:(lia)). Z.div_mod_to_equations; lia.
Qed.

(** Adding the pieces one after the other. *)
Fixpoint add_all (chunks : list (list Z)) : M SHA1 unit :=
  match chunks with
  | [] => ret tt
  | c :: chunks' => run* SHA1AddBytes c in add_all chunks'
  end.

Lemma add_all_ok (chunks : list (list Z)) : forall (s : SHA1) (msg : list Z),
  Forall (fun c => c <> []) chunks -> sha_ok s msg ->
  exists s', add_all chunks s = Ret tt s' /\ sha_ok s' (msg ++ concat chunks).
Proof.
  induction chunks as [|c chunks IH]; intros s msg Hc Hs.
  - exists s. cbn [concat]. by rewrite app_nil_r.
  - inversion Hc; subst. destruct (add_bytes_ok s msg c) as (s1 & E1 & Hs1); [done|done|].
    destruct (IH s1 (msg ++ c)) as (s2 & E2 & Hs2); [done|done|].
    exists s2. cbn [add_all concat]. rewrite (bind_Ret _ _ _ _ _ E1), app_assoc. done.
Qed.

(** C39: Hashing a message of fewer than 2^32 bytes in any non-empty pieces
    returns the SHA-1 digest of the whole message, whatever the block buffer
    held before SHA1Init: no assertion fails and the loop ends. *)
Theorem sha1_incremental (s : SHA1) (chunks : list (list Z)) :
  length (sha_bytes s) = 64%nat -> Forall (fun c => c <> []) chunks ->
  len (concat chunks) < 2 ^ 32 ->
  exists s', bind (add_all chunks) (fun _ => SHA1GetDigest) (SHA1Init s) = Ret (sha1 (concat chunks)) s'.
Proof.
  intros Hs Hc Hl. destruct (add_all_ok chunks _ [] Hc (init_ok s Hs)) as (s1 & E1 & Hs1).
  destruct (digest_ok s1 _ Hs1 Hl) as (s2 & E2). exists s2. by rewrite (bind_Ret _ _ _ _ _ E1).
Qed.
End Add.

Lemma sha1_incremental_witness : exists s',
  bind (add_all (B:=debug_build) [str "a"; str "bc"]) (fun _ => SHA1GetDigest (B:=debug_build))
    (SHA1Init (mkSha init_words (repeat 7 64) 9 9)) = Ret (sha1 (str "abc")) s'.
Proof.
  apply (sha1_incremental (B:=debug_build) (mkSha init_words (repeat 7 64) 9 9) [str "a"; str "bc"]);
    [reflexivity|repeat constructor; discriminate|vm_compute; reflexivity].
Defined.
