(* ===== verification/Text.v ===== *)
(** Text helpers: what printf's [%d], [%u] and [%*s] write, searching a
    character, and decimal numbers read back. *)

From Stdlib Require Import ZArith Lia.
From stdpp Require Import base option list numbers strings.
From S2P Require Import Prelude.
Open Scope Z_scope.

(** ** Decimal numbers *)
Fixpoint dec_ (fuel : nat) (n : Z) (acc : list Z) : list Z :=
  match fuel with
  | O => acc
  | S fuel' =>
      if n <? 10 then (48 + n) :: acc
      else dec_ fuel' (n / 10) ((48 + n mod 10) :: acc)
  end.

(** [%d] and [%u]: 20 digits hold every 64-bit number. *)
Definition dec (n : Z) : list Z := dec_ 20 n [].

Definition undec (l : list Z) : Z := fold_left (fun a d => a * 10 + (d - 48)) l 0.

Definition is_digit (c : Z) : bool := (48 <=? c) && (c <=? 57).

Lemma undec_acc (l : list Z) : forall (a : Z),
  fold_left (fun a d => a * 10 + (d - 48)) l a = a * 10 ^ Z.of_nat (length l) + undec l.
Proof.
  unfold undec. induction l as [|d l IH]; intros a; cbn [fold_left length]; [lia|].
  rewrite IH, (IH (0 * 10 + (d - 48))), Nat2Z.inj_succ, Z.pow_succ_r by lia. lia.
Qed.

Lemma undec_cons (d : Z) (l : list Z) : undec (d :: l) = (d - 48) * 10 ^ Z.of_nat (length l) + undec l.
Proof. unfold undec at 1. cbn [fold_left]. by rewrite undec_acc. Qed.

Lemma undec_dec_ (fuel : nat) : forall (n : Z) (acc : list Z),
  0 <= n < 10 ^ Z.of_nat fuel ->
  undec (dec_ fuel n acc) = n * 10 ^ Z.of_nat (length acc) + undec acc.
Proof.
  induction fuel as [|fuel IH]; intros n acc Hn.
  - cbn [dec_]. change (10 ^ Z.of_nat 0) with 1 in Hn. lia.
  - rewrite Nat2Z.inj_succ, Z.pow_succ_r in Hn by lia. cbn [dec_].
    destruct (Z.ltb_spec n 10).
    + rewrite undec_cons. replace (48 + n - 48) with n by lia. done.
    + rewrite IH by (split; [apply Z.div_pos; lia|apply Z.div_lt_upper_bound; lia]).
      rewrite undec_cons. cbn [length]. rewrite Nat2Z.inj_succ, Z.pow_succ_r by lia.
      pose proof (Z_div_mod_eq_full n 10). nia.
Qed.

Lemma undec_dec (n : Z) : 0 <= n < 10 ^ 20 -> undec (dec n) = n.
Proof. intros H. unfold dec. rewrite undec_dec_ by done. cbn. lia. Qed.

Lemma dec_inj (a b : Z) : 0 <= a < 10 ^ 20 -> 0 <= b < 10 ^ 20 -> dec a = dec b -> a = b.
Proof. intros Ha Hb E. by rewrite <- (undec_dec a Ha), E, undec_dec. Qed.

Lemma dec_digits_ (fuel : nat) : forall (n : Z) (acc : list Z), 0 <= n ->
  Forall (fun c => is_digit c = true) acc -> Forall (fun c => is_digit c = true) (dec_ fuel n acc).
Proof.
  induction fuel as [|fuel IH]; intros n acc Hn Ha; cbn [dec_]; [done|].
  destruct (Z.ltb_spec n 10).
  - constructor; [|done]. apply andb_true_iff; split; apply Z.leb_le; lia.
  - apply IH; [apply Z.div_pos; lia|]. constructor; [|done].
    pose proof (Z.mod_pos_bound n 10 ltac:(lia)).
    apply andb_true_iff; split; apply Z.leb_le; lia.
Qed.

Lemma dec_digits (n : Z) : 0 <= n -> Forall (fun c => is_digit c = true) (dec n).
Proof. intros. by apply dec_digits_. Qed.

Lemma length_dec_ (fuel : nat) : forall (n : Z) (acc : list Z), (length (dec_ fuel n acc) <= fuel + length acc)%nat.
Proof.
  induction fuel as [|fuel IH]; intros n acc; cbn [dec_]; [lia|].
  destruct (n <? 10); cbn [length]; [lia|]. specialize (IH (n / 10) ((48 + n mod 10) :: acc)). cbn [length] in IH. lia.
Qed.

Lemma length_dec (n : Z) : (length (dec n) <= 20)%nat.
Proof. pose proof (length_dec_ 20 n []). cbn [length] in *. unfold dec. lia. Qed.

(** ** printf's [%*s]: the width pads on the left, it does not cut. *)
Definition pad_string (width : Z) (s : list Z) : list Z :=
  repeat 32 (Z.to_nat (width - Z.of_nat (length s))) ++ s.

Lemma pad_string_fits (width : Z) (s : list Z) : width <= Z.of_nat (length s) -> pad_string width s = s.
Proof.
  intros H. unfold pad_string. by replace (Z.to_nat (width - Z.of_nat (length s))) with 0%nat by lia.
Qed.

(** ** Searching: what is before and after the first [c] *)
Fixpoint split_at (c : Z) (l : list Z) : option (list Z * list Z) :=
  match l with
  | [] => None
  | x :: l' =>
      if x =? c then Some ([], l')
      else match split_at c l' with
           | None => None
           | Some (a, b) => Some (x :: a, b)
           end
  end.

Definition free_of (c : Z) (l : list Z) : Prop := Forall (fun x => x <> c) l.

Lemma split_at_app (c : Z) (a b : list Z) : free_of c a -> split_at c (a ++ c :: b) = Some (a, b).
Proof.
  induction 1 as [|x a Hx _ IH]; simpl; [by rewrite Z.eqb_refl|].
  by rewrite (proj2 (Z.eqb_neq x c) Hx), IH.
Qed.

Lemma split_at_Some (c : Z) (l : list Z) : forall (a b : list Z),
  split_at c l = Some (a, b) -> l = a ++ c :: b /\ free_of c a.
Proof.
  induction l as [|x l IH]; intros a b H; simpl in H; [done|].
  destruct (Z.eqb_spec x c) as [->|Hx]; [injection H as <- <-; split; [done|constructor]|].
  destruct (split_at c l) as [[a' b']|]; [|done]. injection H as <- <-.
  destruct (IH a' b' eq_refl) as [-> Hf]. split; [done|by constructor].
Qed.

Lemma split_at_None (c : Z) (l : list Z) : split_at c l = None -> free_of c l.
Proof.
  induction l as [|x l IH]; intros H; [constructor|]. simpl in H.
  destruct (Z.eqb_spec x c) as [->|Hx]; [done|].
  destruct (split_at c l) as [[]|]; [done|]. constructor; [done|by apply IH].
Qed.
