(* ===== verification/MatchRule.v ===== *)
(** Match rules: the server's parser [adbusI_serv_newmatch] (adbus/server.c)
    and the printer [adbusI_matchString] (adbus/misc.c) a client uses for the
    argument of AddMatch.  The parser accepts exactly the printed key/value
    lists, and reads back what the printer writes. *)

From Stdlib Require Import ZArith Lia.
From stdpp Require Import base option list numbers strings.
From S2P Require Import Prelude Text.
Open Scope Z_scope.

(** ** adbus.h: message types, arguments *)
Inductive MessageType := MSG_INVALID | MSG_METHOD | MSG_RETURN | MSG_ERROR | MSG_SIGNAL.

#[export] Instance MessageType_eq_dec : EqDecision MessageType.
Proof. solve_decision. Defined.

(** A NULL value is [None]. *)
Record Argument := mkArg { arg_value : option (list Z); arg_size : Z }.

(** One cleared entry of [adbus_arg_init]. *)
Definition arg_init : Argument := mkArg None (-1).

Definition adbus_arg_init (num : nat) : list Argument := repeat arg_init num.

(** ** struct Match of server.h

    The string fields point into [m_data]; here they hold the characters. *)
Record Match := mkMatch {
  m_type : MessageType; m_reply : Z; m_checkReply : bool;
  m_path : option (list Z); m_interface : option (list Z); m_member : option (list Z);
  m_error : option (list Z); m_destination : option (list Z); m_sender : option (list Z);
  m_arguments : list Argument; m_data : list Z }.

(** [calloc], and the copy of the string. *)
Definition match_zero (d : list Z) : Match :=
  mkMatch MSG_INVALID 0 false None None None None None None [] d.

Definition set_type (t : MessageType) (m : Match) : Match :=
  mkMatch t (m_reply m) (m_checkReply m) (m_path m) (m_interface m) (m_member m) (m_error m)
    (m_destination m) (m_sender m) (m_arguments m) (m_data m).
Definition set_path (v : list Z) (m : Match) : Match :=
  mkMatch (m_type m) (m_reply m) (m_checkReply m) (Some v) (m_interface m) (m_member m) (m_error m)
    (m_destination m) (m_sender m) (m_arguments m) (m_data m).
Definition set_interface (v : list Z) (m : Match) : Match :=
  mkMatch (m_type m) (m_reply m) (m_checkReply m) (m_path m) (Some v) (m_member m) (m_error m)
    (m_destination m) (m_sender m) (m_arguments m) (m_data m).
Definition set_member (v : list Z) (m : Match) : Match :=
  mkMatch (m_type m) (m_reply m) (m_checkReply m) (m_path m) (m_interface m) (Some v) (m_error m)
    (m_destination m) (m_sender m) (m_arguments m) (m_data m).
Definition set_destination (v : list Z) (m : Match) : Match :=
  mkMatch (m_type m) (m_reply m) (m_checkReply m) (m_path m) (m_interface m) (m_member m) (m_error m)
    (Some v) (m_sender m) (m_arguments m) (m_data m).
Definition set_sender (v : list Z) (m : Match) : Match :=
  mkMatch (m_type m) (m_reply m) (m_checkReply m) (m_path m) (m_interface m) (m_member m) (m_error m)
    (m_destination m) (Some v) (m_arguments m) (m_data m).
Definition set_args (a : list Argument) (m : Match) : Match :=
  mkMatch (m_type m) (m_reply m) (m_checkReply m) (m_path m) (m_interface m) (m_member m) (m_error m)
    (m_destination m) (m_sender m) a (m_data m).

(** ** Parsing *)

(** The number of an [argN] key. *)
Definition IsArgKey (k : list Z) : option nat :=
  match k with
  | [a; r; g; d] =>
      if list_eqb [a; r; g] (str "arg") && is_digit d then Some (Z.to_nat (d - 48)) else None
  | [a; r; g; d; e] =>
      if list_eqb [a; r; g] (str "arg") && is_digit d && is_digit e then
        let num := (d - 48) * 10 + (e - 48) in
        if num <=? 63 then Some (Z.to_nat num) else None
      else None
  | _ => None
  end.

Definition type_of_name (v : list Z) : option MessageType :=
  if list_eqb v (str "signal") then Some MSG_SIGNAL
  else if list_eqb v (str "method_call") then Some MSG_METHOD
  else if list_eqb v (str "method_return") then Some MSG_RETURN
  else if list_eqb v (str "error") then Some MSG_ERROR
  else None.

(** The argument vector grows with cleared entries up to [num]. *)
Definition put_arg (num : nat) (v : list Z) (args : list Argument) : list Argument :=
  let args := args ++ adbus_arg_init (num + 1 - length args) in
  <[num := mkArg (Some v) (Z.of_nat (length v))]> args.

(** The chain of [MATCH] tests for one key and value; other keys are ignored. *)
Definition set_key (k v : list Z) (m : Match) : option Match :=
  if list_eqb k (str "type") then
    match type_of_name v with
    | Some t => Some (set_type t m)
    | None => None
    end
  else if list_eqb k (str "sender") then Some (set_sender v m)
  else if list_eqb k (str "interface") then Some (set_interface v m)
  else if list_eqb k (str "member") then Some (set_member v m)
  else if list_eqb k (str "path") then Some (set_path v m)
  else if list_eqb k (str "destination") then Some (set_destination v m)
  else match IsArgKey k with
       | Some num => Some (set_args (put_arg num v (m_arguments m)) m)
       | None => Some m
       end.

(** The [while (line < end)] loop; [line] is what is left of the string.  One
    unit of fuel per key, and every key takes characters. *)
Fixpoint newmatch_loop (fuel : nat) (line : list Z) (m : Match) : option Match :=
  match line with
  | [] => Some m
  | _ =>
      match fuel with
      | O => None
      | S fuel' =>
          match split_at (chr "=") line with
          | Some (key, q :: valb) =>
              if q =? chr "'" then
                match split_at (chr "'") valb with
                | Some (val, []) => set_key key val m
                | Some (val, c :: line') =>
                    if c =? chr "," then
                      match set_key key val m with
                      | Some m' => newmatch_loop fuel' line' m'
                      | None => None
                      end
                    else None
                | None => None
                end
              else None
          | _ => None
          end
      end
  end.

Definition adbusI_serv_newmatch (mstr : list Z) : option Match :=
  newmatch_loop (length mstr) mstr (match_zero mstr).

(** ** Printing: struct adbus_Match and matchString

    A string field is a NUL-terminated string (without its NUL) and a size, -1
    for "up to the NUL".  Of the structure only the fields the printer reads. *)
Record adbus_Match := mkCMatch {
  cm_type : MessageType;
  sender : option (list Z); senderSize : Z;
  destination : option (list Z); destinationSize : Z;
  interface : option (list Z); interfaceSize : Z;
  path : option (list Z); pathSize : Z;
  member : option (list Z); memberSize : Z;
  arguments : list Argument }.

(** [adbus_match_init], for those fields. *)
Definition adbus_match_init : adbus_Match :=
  mkCMatch MSG_INVALID None (-1) None (-1) None (-1) None (-1) None (-1) [].

Definition TypeString (t : MessageType) : list Z :=
  match t with
  | MSG_METHOD => str "method_call"
  | MSG_RETURN => str "method_return"
  | MSG_ERROR => str "error"
  | MSG_SIGNAL => str "signal"
  | MSG_INVALID => str "unknown"
  end.

(** [Append(s, "key='%*s',", vsize, value)] *)
Definition Append (s : list Z) (key : list Z) (vsize : Z) (v : option (list Z)) : list Z :=
  match v with
  | None => s
  | Some v =>
      let vsize := if vsize <? 0 then Z.of_nat (length v) else vsize in
      s ++ key ++ str "='" ++ pad_string vsize v ++ str "',"
  end.

Definition append_arg (s : list Z) (i : nat) (arg : Argument) : list Z :=
  match arg_value arg with
  | None => s
  | Some v =>
      let key := str "arg" ++ dec (Z.of_nat i) in
      if 0 <=? arg_size arg then s ++ key ++ str "='" ++ pad_string (arg_size arg) v ++ str "',"
      else s ++ key ++ str "='" ++ v ++ str "',"
  end.

Fixpoint append_args (s : list Z) (i : nat) (args : list Argument) : list Z :=
  match args with
  | [] => s
  | arg :: args' => append_args (append_arg s i arg) (S i) args'
  end.

(** The string is appended to [s]. *)
Definition adbusI_matchString (s : list Z) (m : adbus_Match) : list Z :=
  let s := if bool_decide (cm_type m = MSG_INVALID) then s
           else s ++ str "type='" ++ TypeString (cm_type m) ++ str "'," in
  let s := Append s (str "sender") (senderSize m) (sender m) in
  let s := Append s (str "interface") (interfaceSize m) (interface m) in
  let s := Append s (str "member") (memberSize m) (member m) in
  let s := Append s (str "path") (pathSize m) (path m) in
  let s := Append s (str "destination") (destinationSize m) (destination m) in
  let s := append_args s 0 (arguments m) in
  removelast s.

Example match_string_sample :
  adbusI_matchString [] (mkCMatch MSG_SIGNAL (Some (str "a.b")) (-1) None (-1) None (-1)
    (Some (str "/x")) 2 None (-1) [arg_init; mkArg (Some (str "z")) (-1)]) =
  str "type='signal',sender='a.b',path='/x',arg1='z'".
Proof. vm_compute. reflexivity. Qed.

Example newmatch_sample :
  adbusI_serv_newmatch (str "type='signal',path='/x',arg1='z',") =
  Some (mkMatch MSG_SIGNAL 0 false (Some (str "/x")) None None None None None
          [arg_init; mkArg (Some (str "z")) 1] (str "type='signal',path='/x',arg1='z',")).
Proof. vm_compute. reflexivity. Qed.

(** A size smaller than the string does not cut it, a larger one pads it. *)
Example match_string_size_is_a_width :
  adbusI_matchString [] (mkCMatch MSG_INVALID (Some (str "a.b.c")) 3 None (-1) None (-1)
    None (-1) (Some (str "M")) 3 []) = str "sender='a.b.c',member='  M'".
Proof. vm_compute. reflexivity. Qed.

(** ** The grammar of the parser *)

Definition quoted (kv : list Z * list Z) : list Z := fst kv ++ str "='" ++ snd kv ++ str "'".

Definition render (kvs : list (list Z * list Z)) : list Z := concat (map (fun kv => quoted kv ++ str ",") kvs).

Definition clean (kv : list Z * list Z) : Prop := free_of (chr "=") (fst kv) /\ free_of (chr "'") (snd kv).

Fixpoint set_keys (kvs : list (list Z * list Z)) (m : Match) : option Match :=
  match kvs with
  | [] => Some m
  | (k, v) :: kvs' =>
      match set_key k v m with
      | Some m' => set_keys kvs' m'
      | None => None
      end
  end.

(** The comma after the last pair is optional. *)
Definition rule_string (kvs : list (list Z * list Z)) (trail : bool) : list Z :=
  if trail then render kvs else removelast (render kvs).

Lemma render_cons (kv : list Z * list Z) (kvs : list (list Z * list Z)) :
  render (kv :: kvs) = quoted kv ++ chr "," :: render kvs.
Proof. unfold render. cbn [map concat]. by rewrite <- app_assoc. Qed.

Lemma rule_string_cons (kv : list Z * list Z) (kvs : list (list Z * list Z)) (trail : bool) :
  kvs <> [] \/ trail = true -> rule_string (kv :: kvs) trail = quoted kv ++ chr "," :: rule_string kvs trail.
Proof.
  intros H. unfold rule_string. rewrite render_cons. destruct trail; [done|].
  destruct H as [H|]; [|done]. rewrite removelast_app by done. f_equal.
  cbn [removelast]. destruct (render kvs) eqn:E; [|done]. destruct kvs as [|kv' kvs]; [done|].
  rewrite render_cons in E. by apply app_eq_nil in E as [_ E].
Qed.

Lemma rule_string_last (kv : list Z * list Z) : rule_string [kv] false = quoted kv.
Proof. unfold rule_string. rewrite render_cons. apply removelast_last. Qed.

Lemma last_or_more (kvs : list (list Z * list Z)) (trail : bool) :
  kvs = [] /\ trail = false \/ (kvs <> [] \/ trail = true).
Proof. destruct kvs, trail; auto. Qed.

(** One round of the loop. *)
Lemma loop_key (fuel : nat) (k v rest : list Z) (m : Match) : clean (k, v) ->
  newmatch_loop (S fuel) (quoted (k, v) ++ rest) m =
  match rest with
  | [] => set_key k v m
  | c :: rest' =>
      if c =? chr "," then
        match set_key k v m with
        | Some m' => newmatch_loop fuel rest' m'
        | None => None
        end
      else None
  end.
Proof.
  intros [Hk Hv]. unfold quoted. cbn [fst snd] in *.
  replace ((k ++ str "='" ++ v ++ str "'") ++ rest) with (k ++ chr "=" :: chr "'" :: v ++ chr "'" :: rest)
    by (rewrite <- !app_assoc; reflexivity).
  cbn [newmatch_loop]. rewrite split_at_app by done. rewrite Z.eqb_refl, split_at_app by done.
  by destruct k.
Qed.

Lemma length_quoted (kv : list Z * list Z) : (3 <= length (quoted kv))%nat.
Proof. unfold quoted. rewrite !length_app. simpl. lia. Qed.

Lemma loop_complete (kvs : list (list Z * list Z)) (trail : bool) : forall (fuel : nat) (m : Match),
  Forall clean kvs -> (length (rule_string kvs trail) <= fuel)%nat ->
  newmatch_loop fuel (rule_string kvs trail) m = set_keys kvs m.
Proof.
  induction kvs as [|[k v] kvs IH]; intros fuel m Hc Hf.
  { by destruct trail, fuel. }
  inversion Hc; subst. pose proof (length_quoted (k, v)).
  destruct (last_or_more kvs trail) as [[-> ->]|Hne].
  - rewrite rule_string_last in *. destruct fuel as [|fuel]; [lia|].
    rewrite <- (app_nil_r (quoted (k, v))), loop_key by done. cbn [set_keys]. by destruct (set_key k v m).
  - rewrite rule_string_cons in * by done. rewrite length_app in Hf. cbn [length] in Hf.
    destruct fuel as [|fuel]; [lia|]. rewrite loop_key, Z.eqb_refl by done. cbn [set_keys].
    destruct (set_key k v m); [|done]. apply IH; [done|lia].
Qed.

Lemma loop_sound (fuel : nat) : forall (line : list Z) (m m' : Match),
  newmatch_loop fuel line m = Some m' ->
  exists kvs trail, line = rule_string kvs trail /\ Forall clean kvs /\ set_keys kvs m = Some m'.
Proof.
  induction fuel as [|fuel IH]; intros line m m' H.
  - destruct line; [|done]. exists [], true. by injection H as ->.
  - destruct line as [|c line]; [exists [], true; by injection H as ->|].
    cbn [newmatch_loop] in H. set (l := c :: line) in *.
    destruct (split_at (chr "=") l) as [[key [|q valb]]|] eqn:E1; [done| |done].
    apply split_at_Some in E1 as [-> Hk]. destruct (Z.eqb_spec q (chr "'")) as [->|]; [|done].
    destruct (split_at (chr "'") valb) as [[v r]|] eqn:E2; [|done].
    apply split_at_Some in E2 as [-> Hv].
    assert (Hq : forall r, key ++ chr "=" :: chr "'" :: v ++ chr "'" :: r = quoted (key, v) ++ r)
      by (intros r0; unfold quoted; cbn [fst snd]; rewrite <- !app_assoc; reflexivity).
    rewrite Hq. destruct r as [|c' r].
    + exists [(key, v)], false. rewrite rule_string_last, app_nil_r.
      repeat split; [by repeat constructor|]. cbn [set_keys]. by rewrite H.
    + destruct (Z.eqb_spec c' (chr ",")) as [->|]; [|done].
      destruct (set_key key v m) as [m1|] eqn:E3; [|done].
      destruct (IH r m1 m' H) as (kvs & trail & -> & Hc & Hs).
      destruct (last_or_more kvs trail) as [[-> ->]|Hne].
      * exists [(key, v)], true. unfold rule_string. rewrite render_cons.
        repeat split; [by repeat constructor|]. cbn [set_keys] in *. by rewrite E3.
      * exists ((key, v) :: kvs), trail. rewrite rule_string_cons by done.
        repeat split; [by repeat constructor|]. cbn [set_keys]. by rewrite E3.
Qed.

(** *** What the keys mean

    The value of the last pair with a key that [P] is for, if there is one. *)
Definition last_for (P : list Z -> Prop) (kvs : list (list Z * list Z)) (o : option (list Z)) : Prop :=
  match o with
  | None => Forall (fun kv => ~ P (fst kv)) kvs
  | Some v => exists a k b, kvs = a ++ (k, v) :: b /\ P k /\ Forall (fun kv => ~ P (fst kv)) b
  end.

(** The key of argument [i]: "arg" and one or two digits, up to 63. *)
Definition names_arg (i : nat) (k : list Z) : Prop :=
  (exists d, k = str "arg" ++ [chr "0" + d] /\ 0 <= d <= 9 /\ Z.of_nat i = d) \/
  (exists d e, k = str "arg" ++ [chr "0" + d; chr "0" + e] /\ 0 <= d <= 9 /\ 0 <= e <= 9 /\ Z.of_nat i = 10 * d + e /\ Z.of_nat i <= 63).

(** The rule that the pairs describe: each key sets the field of its name, the
    last value counts, types have one of the four names, and nothing else is
    set.  The arguments go up to the last one that is given. *)
Record describes (kvs : list (list Z * list Z)) (d : list Z) (m : Match) : Prop := {
  de_types : Forall (fun kv => fst kv = str "type" -> exists t, t <> MSG_INVALID /\ snd kv = TypeString t) kvs;
  de_type : exists o, last_for (eq (str "type")) kvs o /\ match o with None => m_type m = MSG_INVALID | Some v => m_type m <> MSG_INVALID /\ v = TypeString (m_type m) end;
  de_sender : last_for (eq (str "sender")) kvs (m_sender m);
  de_interface : last_for (eq (str "interface")) kvs (m_interface m);
  de_member : last_for (eq (str "member")) kvs (m_member m);
  de_path : last_for (eq (str "path")) kvs (m_path m);
  de_destination : last_for (eq (str "destination")) kvs (m_destination m);
  de_args : forall i, last_for (names_arg i) kvs (m_arguments m !! i ≫= arg_value);
  de_sizes : Forall (fun a => arg_size a = match arg_value a with Some v => Z.of_nat (length v) | None => -1 end) (m_arguments m);
  de_end : m_arguments m = [] \/ is_Some (last (m_arguments m) ≫= arg_value);
  de_rest : m_error m = None /\ m_checkReply m = false /\ m_reply m = 0 /\ m_data m = d }.

Lemma last_for_hit (P : list Z -> Prop) (kvs : list (list Z * list Z)) (k v : list Z) : P k -> last_for P (kvs ++ [(k, v)]) (Some v).
Proof. intros H. by exists kvs, k, []. Qed.

Lemma last_for_miss (P : list Z -> Prop) (kvs : list (list Z * list Z)) (k v : list Z) (o : option (list Z)) : ~ P k -> last_for P kvs o -> last_for P (kvs ++ [(k, v)]) o.
Proof.
  intros H. destruct o as [w|]; cbn.
  - intros (a & k' & b & -> & Hk & Hb). exists a, k', (b ++ [(k, v)]). rewrite <- app_assoc. split; [done|]. split; [done|]. apply Forall_app. split; [done|by constructor].
  - intros Hb. apply Forall_app. split; [done|by constructor].
Qed.

Lemma last_for_fun (P : list Z -> Prop) (kvs : list (list Z * list Z)) (o o' : option (list Z)) : last_for P kvs o -> last_for P kvs o' -> o = o'.
Proof.
  assert (X : forall a k v b a' k' v' b', a ++ (k, v) :: b = a' ++ (k', v') :: b' -> P k -> P k' -> Forall (fun kv => ~ P (fst kv)) b -> Forall (fun kv => ~ P (fst kv)) b' -> v = v' :> list Z).
  { induction a as [|x a IH]; intros k v b [|x' a'] k' v' b' E Hk Hk' Hb Hb'; cbn in E.
    - by injection E as -> -> _.
    - injection E as <- ->. exfalso. apply Forall_app in Hb as [_ [Hb _]%Forall_cons]. by apply Hb.
    - injection E as -> <-. exfalso. apply Forall_app in Hb' as [_ [Hb' _]%Forall_cons]. by apply Hb'.
    - injection E as -> E. by apply (IH _ _ _ _ _ _ _ E). }
  destruct o as [v|], o' as [v'|]; cbn; [| | |done].
  - intros (a & k & b & -> & Hk & Hb) (a' & k' & b' & E & Hk' & Hb'). f_equal. by eapply X.
  - intros (a & k & b & -> & Hk & Hb) [_ [H _]%Forall_cons]%Forall_app. by destruct H.
  - intros H (a & k & b & -> & Hk & Hb). apply Forall_app in H as [_ [H _]%Forall_cons]. by destruct H.
Qed.

Lemma arg_key_iff (k : list Z) (i : nat) : IsArgKey k = Some i <-> names_arg i k.
Proof.
  assert (Hd : forall d, is_digit d = true -> exists n, d = chr "0" + n /\ 0 <= n <= 9 /\ d - 48 = n).
  { intros d H. unfold is_digit in H. apply andb_true_iff in H as [H1%Z.leb_le H2%Z.leb_le]. exists (d - 48). change (chr "0") with 48 in *. change (chr "9") with 57 in *. lia. }
  assert (Hd2 : forall n, 0 <= n <= 9 -> is_digit (chr "0" + n) = true).
  { intros n Hn. unfold is_digit. change (chr "0") with 48. change (chr "9") with 57. apply andb_true_iff. split; apply Z.leb_le; lia. }
  unfold names_arg. split.
  - unfold IsArgKey. destruct k as [|a [|r [|g [|d [|e [|]]]]]]; try done.
    + destruct (list_eqb _ _) eqn:E, (is_digit d) eqn:D; try done. cbn [andb]. intros [= <-]. apply list_eqb_eq in E as [= -> -> ->].
      destruct (Hd d D) as (n & -> & Hn & En). left. exists n. split; [done|]. split; [done|]. lia.
    + destruct (list_eqb _ _) eqn:E, (is_digit d) eqn:D, (is_digit e) eqn:D'; try done. cbn [andb]. destruct (Z.leb_spec ((d - 48) * 10 + (e - 48)) 63); [|done].
      intros [= <-]. apply list_eqb_eq in E as [= -> -> ->]. destruct (Hd d D) as (n & -> & Hn & En), (Hd e D') as (n' & -> & Hn' & En'). right. exists n, n'.
      split; [done|]. lia.
  - intros [(d & -> & Hn & Ei)|(d & e & -> & Hn & Hn' & Ei & Hi)]; cbn [app]; change (str "arg") with [chr "a"; chr "r"; chr "g"]; cbn [app IsArgKey];
      change (list_eqb [chr "a"; chr "r"; chr "g"] (str "arg")) with true; rewrite !Hd2 by done; cbn [andb]; change (chr "0") with 48.
    + f_equal. lia.
    + rewrite (proj2 (Z.leb_le _ _)) by lia. f_equal. lia.
Qed.

Lemma type_name_iff (v : list Z) (t : MessageType) : type_of_name v = Some t <-> t <> MSG_INVALID /\ v = TypeString t.
Proof.
  unfold type_of_name. split.
  - repeat case_match; try done; intros [= <-]; (split; [done|]); by apply list_eqb_eq.
  - intros [Ht ->]. by destruct t.
Qed.

(** Storing an argument. *)
Lemma put_arg_at (n i : nat) (v : list Z) (l : list Argument) :
  (put_arg n v l !! i ≫= arg_value) = if decide (i = n) then Some v else l !! i ≫= arg_value.
Proof.
  unfold put_arg. set (k := l ++ adbus_arg_init (n + 1 - length l)). assert (Hk : (n < length k)%nat) by (unfold k, adbus_arg_init; rewrite length_app, repeat_length; lia).
  case_decide as E; [subst i; by rewrite list_lookup_insert_eq|]. rewrite list_lookup_insert_ne by done. unfold k, adbus_arg_init.
  destruct (decide (i < length l)%nat); [by rewrite lookup_app_l|]. rewrite lookup_app_r by lia. rewrite (lookup_ge_None_2 l i) by lia.
  destruct (repeat arg_init _ !! _) as [x|] eqn:Ex; [|done]. apply list_elem_of_lookup_2, list_elem_of_In, repeat_spec in Ex as ->. done.
Qed.

Lemma put_arg_length (n : nat) (v : list Z) (l : list Argument) : length (put_arg n v l) = Nat.max (n + 1) (length l).
Proof. unfold put_arg, adbus_arg_init. rewrite length_insert, length_app, repeat_length. lia. Qed.

Definition good_args (l : list Argument) : Prop :=
  Forall (fun a => arg_size a = match arg_value a with Some v => Z.of_nat (length v) | None => -1 end) l /\ (l = [] \/ is_Some (last l ≫= arg_value)).

Lemma put_arg_good (n : nat) (v : list Z) (l : list Argument) : good_args l -> good_args (put_arg n v l).
Proof.
  intros [H1 H2]. split.
  - unfold put_arg. apply Forall_insert; [|done]. apply Forall_app. split; [done|]. apply Forall_forall. intros x Hx%list_elem_of_In%repeat_spec. by subst x.
  - right. rewrite last_lookup, put_arg_at, put_arg_length. case_decide as E; [by eexists|]. destruct H2 as [->|H2]; [cbn in E; lia|]. rewrite last_lookup in H2.
    assert (El : Nat.max (n + 1) (length l) = length l) by lia. by rewrite El.
Qed.

(** One more pair. *)
Lemma describes_snoc (kvs : list (list Z * list Z)) (d k v : list Z) (m m' : Match) : describes kvs d m -> set_key k v m = Some m' -> describes (kvs ++ [(k, v)]) d m'.
Proof.
  intros [D1 D2 D3 D4 D5 D6 D7 D8 D9 D10 D11] H. unfold set_key in H.
  assert (Hne : forall n, list_eqb k n = false -> n <> k) by (intros n E <-; by rewrite list_eqb_refl in E).
  assert (Harg : IsArgKey k = None -> forall i, ~ names_arg i k) by (intros E i Hi%arg_key_iff; congruence).
  assert (Hother : str "type" <> k -> Forall (fun kv => fst kv = str "type" -> exists t, t <> MSG_INVALID /\ snd kv = TypeString t) (kvs ++ [(k, v)])).
  { intros Hk. apply Forall_app. split; [done|]. constructor; [|done]. by intros E; destruct Hk. }
  assert (Htype : str "type" <> k -> exists o, last_for (eq (str "type")) (kvs ++ [(k, v)]) o /\ match o with None => m_type m = MSG_INVALID | Some v => m_type m <> MSG_INVALID /\ v = TypeString (m_type m) end).
  { intros Hk. destruct D2 as (o & Ho & Ht). exists o. split; [by apply last_for_miss|done]. }
  destruct (list_eqb k (str "type")) eqn:E1.
  { apply list_eqb_eq in E1 as ->. destruct (type_of_name v) as [t|] eqn:Et; [|done]. injection H as <-. apply type_name_iff in Et as [Ht Ev].
    split; cbn [set_type m_type m_sender m_interface m_member m_path m_destination m_arguments m_error m_checkReply m_reply m_data]; try (by apply last_for_miss); try done.
    - apply Forall_app. split; [done|]. constructor; [|done]. intros _. by exists t.
    - exists (Some v). split; [by apply last_for_hit|done].
    - intros i. apply last_for_miss; [by apply Harg|done]. }
  apply Hne in E1.
  destruct (list_eqb k (str "sender")) eqn:E2; [|destruct (list_eqb k (str "interface")) eqn:E3; [|destruct (list_eqb k (str "member")) eqn:E4;
    [|destruct (list_eqb k (str "path")) eqn:E5; [|destruct (list_eqb k (str "destination")) eqn:E6]]]];
    try (match goal with E : list_eqb k ?n = true |- _ => apply list_eqb_eq in E; subst k end; injection H as <-;
      split; cbn [set_sender set_interface set_member set_path set_destination m_type m_sender m_interface m_member m_path m_destination m_arguments m_error m_checkReply m_reply m_data];
      first [by apply last_for_hit|by apply last_for_miss|by apply Hother|by apply Htype|done|intros i; apply last_for_miss; [by apply Harg|done]]).
  apply Hne in E2, E3, E4, E5, E6. destruct (IsArgKey k) as [n|] eqn:Ek; injection H as <-.
  - destruct (put_arg_good n v (m_arguments m) (conj D9 D10)) as [G1 G2].
    split; cbn [set_args m_type m_sender m_interface m_member m_path m_destination m_arguments m_error m_checkReply m_reply m_data];
      try (by apply last_for_miss); try (by apply Hother); try (by apply Htype); try done.
    intros i. rewrite put_arg_at. case_decide as Ei; [subst i; apply last_for_hit; by apply arg_key_iff|]. apply last_for_miss; [|done].
    intros Hi%arg_key_iff. congruence.
  - split; first [by apply last_for_miss|by apply Hother|by apply Htype|done|intros i; apply last_for_miss; [by apply Harg|done]].
Qed.

Lemma set_keys_snoc (kvs : list (list Z * list Z)) (k v : list Z) (m : Match) : set_keys (kvs ++ [(k, v)]) m = match set_keys kvs m with Some m' => set_key k v m' | None => None end.
Proof. revert m. induction kvs as [|[k' v'] kvs IH]; intros m; cbn [app set_keys]; [by destruct (set_key k v m)|]. by destruct (set_key k' v' m). Qed.

Lemma keys_describe (kvs : list (list Z * list Z)) (d : list Z) : forall m, set_keys kvs (match_zero d) = Some m -> describes kvs d m.
Proof.
  induction kvs as [|[k v] kvs IH] using rev_ind; intros m.
  - intros [= <-]. split; try apply Forall_nil_2; try done; [exists None; split; [apply Forall_nil_2|done]|intros i; apply Forall_nil_2|by left].
  - rewrite set_keys_snoc. destruct (set_keys kvs (match_zero d)) as [m'|]; [|done]. intros E. by apply (describes_snoc _ _ _ _ m'); [apply IH|].
Qed.

(** Pairs with known types describe one rule. *)
Lemma keys_known (kvs : list (list Z * list Z)) (m : Match) :
  Forall (fun kv => fst kv = str "type" -> exists t, t <> MSG_INVALID /\ snd kv = TypeString t) kvs -> exists m', set_keys kvs m = Some m'.
Proof.
  intros H. revert m. induction H as [|[k v] kvs Hk _ IH]; intros m; [by exists m|]. cbn [set_keys]. cbn [fst snd] in Hk.
  assert (X : exists m1, set_key k v m = Some m1); [|destruct X as [m1 ->]; apply IH]. unfold set_key. destruct (list_eqb k (str "type")) eqn:E.
  - apply list_eqb_eq in E. destruct (Hk E) as (t & Ht). apply type_name_iff in Ht as ->. by eexists.
  - repeat case_match; by eexists.
Qed.

Lemma args_equal (l l' : list Argument) : good_args l -> good_args l' -> (forall i, (l !! i ≫= arg_value) = (l' !! i ≫= arg_value)) -> l = l'.
Proof.
  assert (Hlen : forall l l', good_args l -> (forall i, (l !! i ≫= arg_value) = (l' !! i ≫= arg_value)) -> (length l <= length l')%nat).
  { intros a b [_ [->|Hl]] H; [cbn; lia|]. rewrite last_lookup, H in Hl. destruct (b !! Nat.pred (length a)) as [x|] eqn:E; [|by destruct Hl].
    apply lookup_lt_Some in E. lia. }
  intros G G' H. assert (El : length l = length l') by (apply Nat.le_antisymm; apply Hlen; [done|done|done|by intros]).
  apply list_eq_same_length with (length l); [done|done|]. intros i x y Hi Hx Hy. specialize (H i). rewrite Hx, Hy in H. cbn in H.
  destruct G as [G _], G' as [G' _]. rewrite Forall_lookup in G, G'. specialize (G i x Hx). specialize (G' i y Hy). rewrite <- H in G'. destruct x, y. cbn in *. congruence.
Qed.

Lemma describes_fun (kvs : list (list Z * list Z)) (d : list Z) (m m' : Match) : describes kvs d m -> describes kvs d m' -> m = m'.
Proof.
  intros [_ (o & Ho & T) D3 D4 D5 D6 D7 D8 D9 D10 (R1 & R2 & R3 & R4)] [_ (o' & Ho' & T') D3' D4' D5' D6' D7' D8' D9' D10' (R1' & R2' & R3' & R4')].
  assert (o' = o) as -> by (by eapply last_for_fun).
  assert (Et : m_type m = m_type m').
  { destruct o as [v|]; [|congruence]. destruct T as [T1 T2], T' as [T1' T2']. rewrite T2 in T2'. by destruct (m_type m), (m_type m'). }
  assert (Ea : m_arguments m = m_arguments m') by (apply args_equal; [done|done|]; intros i; by eapply last_for_fun).
  destruct m, m'. cbn in *. f_equal; congruence || by eapply last_for_fun.
Qed.

(** C32: the parser accepts exactly the strings of key='value' pairs separated
    by commas, with an optional last comma, whose keys have no '=' and whose
    values no quote, if every type is one of the four names.  The rule is the
    one that the pairs describe: the keys type, sender, interface, member, path,
    destination and arg0 to arg63 set the field of their name, the last value
    of a key counts, other keys mean nothing, and nothing else is set. *)
Theorem newmatch_grammar (s : list Z) (m : Match) :
  adbusI_serv_newmatch s = Some m <-> exists kvs trail, s = rule_string kvs trail /\ Forall clean kvs /\ describes kvs s m.
Proof.
  unfold adbusI_serv_newmatch. split.
  - intros H. apply loop_sound in H as (kvs & trail & E & Hc & Hk). exists kvs, trail. split; [done|]. split; [done|]. by apply keys_describe.
  - intros (kvs & trail & E & Hc & Hd). destruct (keys_known kvs (match_zero s) (de_types _ _ _ Hd)) as [m' Hm'].
    assert (m' = m) as <- by (eapply describes_fun; [by apply keys_describe|done]). rewrite E at 2. rewrite loop_complete; [done|done|by rewrite E].
Qed.

Lemma newmatch_grammar_witness :
  let s := str "type='signal',member='A',path='/a',member='B',arg1='x'," in
  exists m, adbusI_serv_newmatch s = Some m /\ m_type m = MSG_SIGNAL /\ m_member m = Some (str "B") /\ m_path m = Some (str "/a") /\
    map arg_value (m_arguments m) = [None; Some (str "x")].
Proof.
  cbv zeta. eexists. split.
  - apply newmatch_grammar.
    exists [(str "type", str "signal"); (str "member", str "A"); (str "path", str "/a"); (str "member", str "B"); (str "arg1", str "x")], true.
    split; [reflexivity|]. split; [repeat constructor; vm_compute; intuition congruence|]. apply keys_describe. vm_compute. reflexivity.
  - vm_compute. repeat split.
Defined.

(** ** The printer *)

Definition key_if (k : list Z) (v : option (list Z)) : list (list Z * list Z) :=
  match v with Some v => [(k, v)] | None => [] end.

Fixpoint arg_keys (i : nat) (args : list Argument) : list (list Z * list Z) :=
  match args with
  | [] => []
  | a :: args' => key_if (str "arg" ++ dec (Z.of_nat i)) (arg_value a) ++ arg_keys (S i) args'
  end.

Definition type_keys (t : MessageType) : list (list Z * list Z) :=
  if bool_decide (t = MSG_INVALID) then [] else [(str "type", TypeString t)].

Definition match_keys (m : adbus_Match) : list (list Z * list Z) :=
  type_keys (cm_type m) ++ key_if (str "sender") (sender m) ++ key_if (str "interface") (interface m) ++
  key_if (str "member") (member m) ++ key_if (str "path") (path m) ++
  key_if (str "destination") (destination m) ++ arg_keys 0 (arguments m).

(** The size of a string field is -1 or its length. *)
Definition exact (size : Z) (v : option (list Z)) : Prop :=
  match v with Some v => size < 0 \/ size = Z.of_nat (length v) | None => True end.

Definition exact_match (m : adbus_Match) : Prop :=
  exact (senderSize m) (sender m) /\ exact (interfaceSize m) (interface m) /\
  exact (memberSize m) (member m) /\ exact (pathSize m) (path m) /\
  exact (destinationSize m) (destination m) /\
  Forall (fun a => exact (arg_size a) (arg_value a)) (arguments m).

Lemma render_app (a b : list (list Z * list Z)) : render (a ++ b) = render a ++ render b.
Proof. unfold render. by rewrite map_app, concat_app. Qed.

Lemma render_one (k v : list Z) : render [(k, v)] = k ++ str "='" ++ v ++ str "',".
Proof. rewrite render_cons. unfold quoted, render. cbn [fst snd map concat]. by rewrite <- !app_assoc. Qed.

Lemma append_render (s k : list Z) (size : Z) (v : option (list Z)) : exact size v ->
  Append s k size v = s ++ render (key_if k v).
Proof.
  destruct v as [v|]; cbn [Append key_if exact]; intros H; [|by rewrite app_nil_r].
  rewrite render_one, pad_string_fits; [done|]. destruct (Z.ltb_spec size 0); lia.
Qed.

Lemma append_args_render (args : list Argument) : forall (s : list Z) (i : nat),
  Forall (fun a => exact (arg_size a) (arg_value a)) args ->
  append_args s i args = s ++ render (arg_keys i args).
Proof.
  induction args as [|a args IH]; intros s i H; cbn [append_args arg_keys]; [by rewrite app_nil_r|].
  inversion H as [|? ? Ha Hr]; subst. rewrite IH, render_app, app_assoc by done. f_equal.
  unfold append_arg. destruct (arg_value a) as [v|]; cbn [key_if exact] in *; [|by rewrite app_nil_r].
  rewrite render_one. destruct (Z.leb_spec 0 (arg_size a)).
  - rewrite pad_string_fits by lia. by rewrite <- !app_assoc.
  - by rewrite <- !app_assoc.
Qed.

Lemma match_string_keys (m : adbus_Match) : exact_match m ->
  adbusI_matchString [] m = rule_string (match_keys m) false.
Proof.
  intros (H1 & H2 & H3 & H4 & H5 & H6). unfold adbusI_matchString, rule_string, match_keys.
  rewrite !append_render, append_args_render, !render_app by done. f_equal.
  rewrite <- !app_assoc. f_equal. unfold type_keys.
  case_bool_decide; [done|]. by rewrite render_one.
Qed.

(** ** Reading back *)

Definition norm_arg (a : Argument) : Argument :=
  match arg_value a with Some v => mkArg (Some v) (Z.of_nat (length v)) | None => arg_init end.

(** The arguments up to the last one that is set. *)
Fixpoint rule_args (args : list Argument) : list Argument :=
  match args with
  | [] => []
  | a :: args' =>
      match arg_value a, rule_args args' with
      | None, [] => []
      | _, r => norm_arg a :: r
      end
  end.

Definition rule_of (m : adbus_Match) (d : list Z) : Match :=
  mkMatch (cm_type m) 0 false (path m) (interface m) (member m) None (destination m) (sender m)
    (rule_args (arguments m)) d.

Lemma set_keys_app (a b : list (list Z * list Z)) : forall (m : Match),
  set_keys (a ++ b) m = match set_keys a m with Some m' => set_keys b m' | None => None end.
Proof. induction a as [|[k v] a IH]; intros m; cbn [set_keys app]; [done|]. destruct (set_key k v m); auto. Qed.

Lemma type_of_TypeString (t : MessageType) : t <> MSG_INVALID -> type_of_name (TypeString t) = Some t.
Proof. by destruct t. Qed.

(** Every key [arg0] .. [arg63] is an argument key and no other key. *)
Lemma arg_key_sweep :
  forallb (fun i => let k := str "arg" ++ dec (Z.of_nat i) in
    bool_decide (IsArgKey k = Some i) &&
    forallb (fun s => negb (list_eqb k (str s)))
      ["type"; "sender"; "interface"; "member"; "path"; "destination"]%string &&
    forallb (fun c => negb (c =? chr "=")) k) (seq 0 64) = true.
Proof. vm_compute. reflexivity. Qed.

Lemma arg_key (i : nat) (v : list Z) (m : Match) : (i < 64)%nat ->
  set_key (str "arg" ++ dec (Z.of_nat i)) v m = Some (set_args (put_arg i v (m_arguments m)) m) /\
  free_of (chr "=") (str "arg" ++ dec (Z.of_nat i)).
Proof.
  intros Hi. pose proof arg_key_sweep as H. rewrite forallb_forall in H.
  specialize (H i ltac:(apply in_seq; lia)). cbv zeta in H.
  apply andb_true_iff in H as [[H1 H2]%andb_true_iff H3]. apply bool_decide_eq_true in H1.
  cbn [forallb] in H2. repeat rewrite andb_true_iff in H2. rewrite !negb_true_iff in H2.
  destruct H2 as (E1 & E2 & E3 & E4 & E5 & E6 & _). split.
  - unfold set_key. by rewrite E1, E2, E3, E4, E5, E6, H1.
  - apply Forall_forall. intros x Hx. rewrite forallb_forall in H3. apply list_elem_of_In in Hx.
    specialize (H3 x Hx). by apply negb_true_iff, Z.eqb_neq in H3.
Qed.

Lemma put_arg_end (i : nat) (v : list Z) (acc : list Argument) : (length acc <= i)%nat ->
  put_arg i v acc = (acc ++ adbus_arg_init (i - length acc)) ++ [mkArg (Some v) (Z.of_nat (length v))].
Proof.
  intros H. unfold put_arg, adbus_arg_init.
  replace (i + 1 - length acc)%nat with ((i - length acc) + 1)%nat by lia.
  rewrite repeat_app, app_assoc.
  replace i with (length (acc ++ repeat arg_init (i - length acc)) + 0)%nat at 1
    by (rewrite length_app, repeat_length; lia).
  by rewrite insert_app_r.
Qed.

Lemma set_arg_keys (args : list Argument) : forall (i : nat) (m : Match),
  (i + length args <= 64)%nat -> (length (m_arguments m) <= i)%nat ->
  set_keys (arg_keys i args) m =
  Some (match rule_args args with
        | [] => m
        | r => set_args ((m_arguments m ++ adbus_arg_init (i - length (m_arguments m))) ++ r) m
        end).
Proof.
  induction args as [|a args IH]; intros i m Hi Hm; [done|]. cbn [length] in Hi.
  cbn [arg_keys rule_args]. rewrite set_keys_app. destruct (arg_value a) as [v|] eqn:Ev; cbn [key_if].
  - cbn [set_keys]. rewrite (proj1 (arg_key i v m ltac:(lia))).
    rewrite IH; [|lia|cbn [m_arguments set_args]; rewrite put_arg_end, !length_app by lia;
      unfold adbus_arg_init; rewrite repeat_length; simpl; lia].
    f_equal. unfold norm_arg. rewrite Ev. rewrite put_arg_end by done.
    destruct (rule_args args) as [|b r]; [done|].
    unfold set_args. cbn [m_arguments m_type m_reply m_checkReply m_path m_interface m_member m_error
      m_destination m_sender m_data].
    f_equal. unfold adbus_arg_init.
    rewrite (length_app (m_arguments m ++ _)), length_app, repeat_length. cbn [length].
    replace (S i - (length (m_arguments m) + (i - length (m_arguments m)) + 1))%nat with 0%nat by lia.
    cbn [repeat]. by rewrite app_nil_r, <- app_assoc.
  - cbn [set_keys]. rewrite IH by lia. f_equal. destruct (rule_args args) as [|b r]; [done|].
    unfold set_args. f_equal. unfold norm_arg. rewrite Ev. unfold adbus_arg_init.
    replace (S i - length (m_arguments m))%nat with ((i - length (m_arguments m)) + 1)%nat by lia.
    rewrite repeat_app, app_assoc, <- !app_assoc. done.
Qed.

Lemma arg_keys_clean (args : list Argument) : forall (i : nat), (i + length args <= 64)%nat ->
  Forall (fun a => match arg_value a with Some v => free_of (chr "'") v | None => True end) args ->
  Forall clean (arg_keys i args).
Proof.
  induction args as [|a args IH]; intros i Hi H; cbn [arg_keys]; [constructor|]. cbn [length] in Hi.
  inversion H as [|? ? Ha Hr]; subst. apply Forall_app. split; [|apply IH; [lia|done]].
  destruct (arg_value a) as [v|]; cbn [key_if]; [|constructor]. apply Forall_singleton. split; [|done].
  apply (arg_key i v (match_zero []) ltac:(lia)).
Qed.

Definition unquoted (v : option (list Z)) : Prop :=
  match v with Some v => free_of (chr "'") v | None => True end.

Definition unquoted_match (m : adbus_Match) : Prop :=
  unquoted (sender m) /\ unquoted (interface m) /\ unquoted (member m) /\ unquoted (path m) /\
  unquoted (destination m) /\ Forall (fun a => unquoted (arg_value a)) (arguments m).

Lemma free_of_forallb (c : Z) (l : list Z) : forallb (fun x => negb (x =? c)) l = true -> free_of c l.
Proof.
  intros H. apply Forall_forall. intros x Hx. rewrite forallb_forall in H. apply list_elem_of_In in Hx.
  specialize (H x Hx). by apply negb_true_iff, Z.eqb_neq in H.
Qed.

Lemma match_keys_clean (m : adbus_Match) : unquoted_match m -> (length (arguments m) <= 64)%nat ->
  Forall clean (match_keys m).
Proof.
  intros (H1 & H2 & H3 & H4 & H5 & H6) Hl. unfold match_keys. rewrite !Forall_app.
  assert (Hk : forall k v, free_of (chr "=") k -> unquoted v -> Forall clean (key_if k v)).
  { intros k [v|] Hk Hv; cbn [key_if]; [|constructor]. by apply Forall_singleton. }
  repeat split; try (apply Hk; [by apply free_of_forallb|done]); [|by apply arg_keys_clean].
  unfold type_keys. case_bool_decide; [constructor|].
  apply Forall_singleton. split; [by apply free_of_forallb|].
  apply free_of_forallb. by destruct (cm_type m).
Qed.

Lemma set_match_keys (m : adbus_Match) (d : list Z) : (length (arguments m) <= 64)%nat ->
  set_keys (match_keys m) (match_zero d) = Some (rule_of m d).
Proof.
  intros Hl. unfold match_keys, rule_of. rewrite set_keys_app.
  assert (set_keys (type_keys (cm_type m)) (match_zero d) = Some (set_type (cm_type m) (match_zero d))) as ->.
  { unfold type_keys. case_bool_decide as E; [by rewrite E|]. cbn [set_keys]. unfold set_key.
    rewrite list_eqb_refl, type_of_TypeString by done. done. }
  destruct m as [t s ss de ds i isz p ps me ms args].
  cbn [cm_type sender interface member path destination arguments] in *.
  assert (Hk : forall k v (f : list Z -> Match -> Match) m,
    (forall w, set_key k w m = Some (f w m)) ->
    set_keys (key_if k v) m = Some (match v with Some w => f w m | None => m end)).
  { intros k [w|] f m Hf; cbn [key_if set_keys]; [by rewrite Hf|done]. }
  rewrite set_keys_app, (Hk _ _ set_sender) by done. cbv beta iota.
  rewrite set_keys_app, (Hk _ _ set_interface) by done. cbv beta iota.
  rewrite set_keys_app, (Hk _ _ set_member) by done. cbv beta iota.
  rewrite set_keys_app, (Hk _ _ set_path) by done. cbv beta iota.
  rewrite set_keys_app, (Hk _ _ set_destination) by done. cbv beta iota.
  rewrite set_arg_keys by (try done; destruct s, i, p, me, de; simpl; lia).
  by destruct s, i, p, me, de, (rule_args args).
Qed.

(** C38: The rule string a client sends with AddMatch is read by the bus as the
    rule it was made from: same type, sender, interface, member, path,
    destination and arguments (up to the last one that is set).  It needs
    values without a quote, sizes that are -1 or the string's length, and at
    most 64 arguments; the error name is not part of the string. *)
Theorem match_string_roundtrip (m : adbus_Match) :
  exact_match m -> unquoted_match m -> (length (arguments m) <= 64)%nat ->
  adbusI_serv_newmatch (adbusI_matchString [] m) = Some (rule_of m (adbusI_matchString [] m)).
Proof.
  intros He Hu Hl. rewrite match_string_keys by done. unfold adbusI_serv_newmatch.
  rewrite loop_complete by (done || by apply match_keys_clean). by apply set_match_keys.
Qed.

Lemma match_string_roundtrip_witness :
  let m := mkCMatch MSG_SIGNAL (Some (str "a.b")) 3 None (-1) None (-1) (Some (str "/x")) (-1) None (-1)
             [arg_init; mkArg (Some (str "z")) 1; arg_init] in
  adbusI_serv_newmatch (adbusI_matchString [] m) = Some (rule_of m (adbusI_matchString [] m)).
Proof.
  intros m. apply match_string_roundtrip.
  - repeat apply conj; try exact I; try (right; reflexivity); try (left; reflexivity).
    apply Forall_cons; split; [exact I|]. apply Forall_cons; split; [right; reflexivity|].
    apply Forall_cons; split; [exact I|constructor].
  - repeat apply conj; try exact I; repeat constructor; discriminate.
  - cbn. lia.
Defined.
