(* ===== verification/Message.v ===== *)
(** Messages and their parser: struct adbus_Message (include/c/adbus.h) and
    adbus/parse.c.  A message the parser accepts has the header fields its
    type requires, and parsing ends on every input. *)

From Stdlib Require Import ZArith Lia.
From stdpp Require Import base option list numbers strings.
From S2P Require Import Prelude Signature Iterator Values Flip Text MatchRule.
Open Scope Z_scope.

(** ** misc.h: the fixed header and the field codes *)
Definition sizeof_Header : Z := 12.
Definition sizeof_ExtendedHeader : Z := 16.

(** Offsets in the header. *)
Definition off_endianness : Z := 0.
Definition off_type : Z := 1.
Definition off_flags : Z := 2.
Definition off_version : Z := 3.
Definition off_length : Z := 4.
Definition off_serial : Z := 8.
Definition off_headerFieldLength : Z := 12.

Definition HEADER_INVALID : Z := 0.
Definition HEADER_OBJECT_PATH : Z := 1.
Definition HEADER_INTERFACE : Z := 2.
Definition HEADER_MEMBER : Z := 3.
Definition HEADER_ERROR_NAME : Z := 4.
Definition HEADER_REPLY_SERIAL : Z := 5.
Definition HEADER_DESTINATION : Z := 6.
Definition HEADER_SENDER : Z := 7.
Definition HEADER_SIGNATURE : Z := 8.

Definition adbusI_majorProtocolVersion : Z := 1.

(** A little-endian host. *)
Definition adbusI_nativeEndianness : Z := chr "l".

Definition code_of_type (t : MessageType) : Z :=
  match t with
  | MSG_INVALID => 0 | MSG_METHOD => 1 | MSG_RETURN => 2 | MSG_ERROR => 3 | MSG_SIGNAL => 4
  end.

(** [None]: above ADBUS_MSG_SIGNAL. *)
Definition type_of_code (c : Z) : option MessageType :=
  List.find (fun t => code_of_type t =? c) [MSG_INVALID; MSG_METHOD; MSG_RETURN; MSG_ERROR; MSG_SIGNAL].

Lemma type_of_code_of (t : MessageType) : type_of_code (code_of_type t) = Some t.
Proof. by destruct t. Qed.

Lemma type_of_code_inv (c : Z) (t : MessageType) : type_of_code c = Some t -> c = code_of_type t.
Proof. intros H. apply find_some in H as [_ H]. by apply Z.eqb_eq in H. Qed.

(** ** struct adbus_Message

    [msg_data] and [argdata] are the memory at the two pointers; a string
    field holds the characters the pointer and its size give, [None] is NULL;
    [replySerial] is the value pointed at. *)
Record Message := mkMsg {
  msg_data : list Z; msg_size : Z; argdata : list Z; argsize : Z;
  msg_type : MessageType; msg_flags : Z; msg_serial : Z;
  signature : option (list Z); signatureSize : Z;
  replySerial : option Z;
  msg_path : option (list Z); msg_interface : option (list Z); msg_member : option (list Z);
  msg_error : option (list Z); msg_destination : option (list Z); msg_sender : option (list Z);
  msg_arguments : option (list Argument) }.

(** [memset(m, 0, sizeof(adbus_Message))] *)
Definition msg_zero : Message :=
  mkMsg [] 0 [] 0 MSG_INVALID 0 0 None 0 None None None None None None None None.

(** The string fields by header code. *)
Definition set_string (code : Z) (s : list Z) (m : Message) : Message :=
  let get c (f : option (list Z)) := if code =? c then Some s else f in
  mkMsg (msg_data m) (msg_size m) (argdata m) (argsize m) (msg_type m) (msg_flags m) (msg_serial m)
    (get HEADER_SIGNATURE (signature m)) (signatureSize m) (replySerial m)
    (get HEADER_OBJECT_PATH (msg_path m)) (get HEADER_INTERFACE (msg_interface m))
    (get HEADER_MEMBER (msg_member m)) (get HEADER_ERROR_NAME (msg_error m))
    (get HEADER_DESTINATION (msg_destination m)) (get HEADER_SENDER (msg_sender m)) (msg_arguments m).

Definition set_reply (v : Z) (m : Message) : Message :=
  mkMsg (msg_data m) (msg_size m) (argdata m) (argsize m) (msg_type m) (msg_flags m) (msg_serial m)
    (signature m) (signatureSize m) (Some v) (msg_path m) (msg_interface m)
    (msg_member m) (msg_error m) (msg_destination m) (msg_sender m) (msg_arguments m).

Definition set_arguments (a : option (list Argument)) (m : Message) : Message :=
  mkMsg (msg_data m) (msg_size m) (argdata m) (argsize m) (msg_type m) (msg_flags m) (msg_serial m)
    (signature m) (signatureSize m) (replySerial m) (msg_path m) (msg_interface m)
    (msg_member m) (msg_error m) (msg_destination m) (msg_sender m) a.

(** ** Sizes *)

(** The memory that the pointers point into has changed. *)
Definition set_mem (mem : list Z) (m : Message) : Message :=
  mkMsg mem (msg_size m) (drop (Z.to_nat (msg_size m - argsize m)) mem) (argsize m) (msg_type m) (msg_flags m)
    (msg_serial m) (signature m) (signatureSize m) (replySerial m) (msg_path m) (msg_interface m)
    (msg_member m) (msg_error m) (msg_destination m) (msg_sender m) (msg_arguments m).

(** The four bytes at [value], by the given endianness. *)
Definition Get32 (endianness : Z) (value : list Z) : Z :=
  let p k := nth k value 0 in
  if endianness =? chr "l" then
    Z.lor (Z.lor (Z.lor (p 0%nat) (Z.shiftl (p 1%nat) 8)) (Z.shiftl (p 2%nat) 16)) (Z.shiftl (p 3%nat) 24)
  else
    Z.lor (Z.lor (Z.lor (p 3%nat) (Z.shiftl (p 2%nat) 8)) (Z.shiftl (p 1%nat) 16)) (Z.shiftl (p 0%nat) 24).

(** [sizeof(adbusI_Header)] where the other functions use the extended
    header; the caller passes the bytes it has. *)
Definition adbus_parse_size (d : list Z) (sz : Z) : Z :=
  if sz <? sizeof_ExtendedHeader then 0
  else
    let e := deref d in
    let hsize := sizeof_Header + Get32 e (drop 12 d) in
    ADBUS_ALIGN hsize 8 + Get32 e (drop 4 d).

(** ** adbus_parse *)
Record Parse := mkParse { p_mem : list Z; p_iter : Iterator; p_msg : Message }.

Definition on_it {A} (op : list Z -> M Iterator A) : M Parse A := fun s =>
  match op (p_mem s) (p_iter s) with
  | Ret a i => Ret a (mkParse (p_mem s) i (p_msg s))
  | Err i => Err (mkParse (p_mem s) i (p_msg s))
  | Abort => Abort
  | Oob => Oob
  | Nofuel => Nofuel
  end.

Definition on_msg (f : Message -> Message) : M Parse unit :=
  modify (fun s => mkParse (p_mem s) (p_iter s) (f (p_msg s))).

Definition set_iter (i : Iterator) : M Parse unit :=
  modify (fun s => mkParse (p_mem s) i (p_msg s)).

Definition peek (p : Z) (n : nat) : M Parse Z :=
  let* s := get in load (p_mem s) p n.

Section Ops.
Context {B : Build}.

(** [adbus_flip_data(data, size, sig)]: only the memory changes. *)
Definition flip (d sz : Z) (s : list Z) : M Parse unit := fun st =>
  match adbus_flip_data (Z.to_nat sz + 16) (p_mem st) d sz s with
  | Ret _ (m, _) => Ret tt (mkParse m (p_iter st) (p_msg st))
  | Err (m, _) => Err (mkParse m (p_iter st) (p_msg st))
  | Abort => Abort
  | Oob => Oob
  | Nofuel => Nofuel
  end.

(** [h->endianness = adbusI_nativeEndianness();] *)
Definition set_native : M Parse unit :=
  modify (fun s => mkParse (<[0%nat := adbusI_nativeEndianness]> (p_mem s)) (p_iter s) (p_msg s)).

(** [i.sig[0] != c || i.sig[1] != 0] *)
Definition only_sig (c : Z) : M Parse unit :=
  let* s := get in
  require ((deref (sig (p_iter s)) =? c) && (deref (tl (sig (p_iter s))) =? 0)).

Definition parse_string (code c : Z) (op : list Z -> M Iterator (Z * Z)) : M Parse unit :=
  run* only_sig c in
  let* v := on_it op in
  let* s := get in
  on_msg (set_string code (slice (p_mem s) (fst v) (Z.to_nat (snd v)))).

(** The [switch] over the field code. *)
Definition field_body (code : Z) : M Parse unit :=
  if code =? HEADER_INVALID then err
  else if (code =? HEADER_INTERFACE) || (code =? HEADER_MEMBER) || (code =? HEADER_ERROR_NAME)
       || (code =? HEADER_DESTINATION) || (code =? HEADER_SENDER) then
    parse_string code (chr "s") adbus_iter_string
  else if code =? HEADER_OBJECT_PATH then parse_string code (chr "o") adbus_iter_objectpath
  else if code =? HEADER_SIGNATURE then parse_string code (chr "g") adbus_iter_signature
  else if code =? HEADER_REPLY_SERIAL then
    run* only_sig (chr "u") in
    let* p := on_it (fun _ => adbus_iter_u32) in
    let* r := peek p 4 in
    on_msg (set_reply r)
  else on_it (fun m i => adbus_iter_value m (S (measure i)) i).

(** The body of the loop over the header fields. *)
Definition parse_field : M Parse unit :=
  run* on_it (fun _ => adbus_iter_beginstruct) in
  let* pcode := on_it (fun _ => adbus_iter_u8) in
  let* v := on_it adbus_iter_beginvariant in
  let* code := peek pcode 1 in
  run* field_body code in
  run* on_it (fun _ => adbus_iter_endvariant v) in
  on_it (fun _ => adbus_iter_endstruct).

Fixpoint parse_fields (fuel : nat) (a : IterArray) : M Parse unit :=
  let* more := on_it (fun _ => adbus_iter_inarray a) in
  if more then
    match fuel with
    | O => nofuel
    | S fuel' => run* parse_field in parse_fields fuel' a
    end
  else ret tt.

Definition isSome {A} (o : option A) : bool := match o with Some _ => true | None => false end.

(** "Check that we have the required fields", as one condition. *)
Definition required (m : Message) : bool :=
  match msg_type m with
  | MSG_METHOD => isSome (msg_path m) && isSome (msg_member m)
  | MSG_RETURN => isSome (replySerial m)
  | MSG_ERROR => isSome (msg_error m)
  | MSG_SIGNAL => isSome (msg_interface m) && isSome (msg_member m)
  | MSG_INVALID => true
  end.

(** The [else if] chain: the signature is only looked at when the type's own
    test did not already fail, so all of them must hold. *)
Definition check_required : M Parse unit :=
  let* s := get in
  run* require (required (p_msg s)) in
  require (negb (0 <? argsize (p_msg s)) || isSome (signature (p_msg s))).

(** The fields read from the fixed header. *)
Definition parse_header (t : MessageType) : M Parse unit :=
  let* hfl := peek off_headerFieldLength 4 in
  let* n := peek off_length 4 in
  let* flags := peek off_flags 1 in
  let* serial := peek off_serial 4 in
  let* s := get in
  let sz := ADBUS_ALIGN (hfl + sizeof_ExtendedHeader) 8 + n in
  on_msg (fun _ => mkMsg (p_mem s) sz (drop (Z.to_nat (sz - n)) (p_mem s)) n t flags serial
                     None 0 None None None None None None None None).

(** [adbus_flip_data] on the arguments, in place. *)
Definition flip_args (g : list Z) : M Parse unit :=
  let* s := get in
  run* flip (msg_size (p_msg s) - argsize (p_msg s)) (argsize (p_msg s)) g in
  modify (fun s => mkParse (p_mem s) (p_iter s) (set_mem (p_mem s) (p_msg s))).

(** Parsing after the type check; [sz] is the size of the memory.  Every field
    takes bytes, so [sz] rounds of the loop are enough. *)
Definition parse_body (native : bool) (t : MessageType) (sz : Z) : M Parse unit :=
  run* (if native then ret tt else flip 0 sz HEADER_SIG) in
  run* set_native in
  run* parse_header t in
  run* set_iter (mkIter sizeof_Header (sz - sizeof_Header) (str "a(yv)")) in
  let* a := on_it adbus_iter_beginarray in
  run* parse_fields (S (Z.to_nat sz)) a in
  run* on_it (fun _ => adbus_iter_endarray a) in
  run* check_required in
  let* s := get in
  match signature (p_msg s) with
  | Some g => if native then ret tt else flip_args g
  | None => ret tt
  end.

Definition adbus_parse (sz : Z) : M Parse unit :=
  run* assert_ (sizeof_ExtendedHeader <? sz) in
  let* e := peek off_endianness 1 in
  let* ty := peek off_type 1 in
  match type_of_code ty with
  | Some MSG_INVALID => err
  | Some t => parse_body (e =? adbusI_nativeEndianness) t sz
  | None => ret tt
  end.

(** ** Arguments *)

(** One round of the loop: an entry for the next argument. *)
Definition parse_arg (m : list Z) : M (Iterator * list Argument) unit := fun '(i, args) =>
  if deref (sig i) =? chr "s" then
    match adbus_iter_string m i with
    | Ret (p, sz) i' => Ret tt (i', args ++ [mkArg (Some (slice m p (Z.to_nat sz))) sz])
    | Err i' => Err (i', args)
    | Abort => Abort | Oob => Oob | Nofuel => Nofuel
    end
  else
    match adbus_iter_value m (S (measure i)) i with
    | Ret _ i' => Ret tt (i', args ++ [mkArg None 0])
    | Err i' => Err (i', args)
    | Abort => Abort | Oob => Oob | Nofuel => Nofuel
    end.

(** A message without a signature must not get here: its NULL signature would
    be read. *)
Definition adbus_parseargs : M Message unit := fun m =>
  match msg_arguments m with
  | Some _ => Ret tt m
  | None =>
      match signature m with
      | None => if ndebug then Oob else Abort
      | Some g =>
          match while_ (length g) (fun s => negb (deref (sig (fst s)) =? 0)) (parse_arg (argdata m))
                  (mkIter 0 (argsize m) g, []) with
          | Ret _ (_, []) => Ret tt m
          | Ret _ (_, args) => Ret tt (set_arguments (Some args) m)
          | Err _ => Err m
          | Abort => Abort | Oob => Oob | Nofuel => Nofuel
          end
      end
  end.

(** The vector is freed, its size is cleared, the pointer stays: not NULL, no
    entries. *)
Definition adbus_freeargs (m : Message) : Message :=
  match msg_arguments m with
  | Some _ => set_arguments (Some []) m
  | None => m
  end.
End Ops.

(** ** What every successful step keeps *)

(** The part of a message that the field loop does not touch. *)
Definition fixed (m m' : Message) : Prop :=
  msg_data m' = msg_data m /\ msg_size m' = msg_size m /\ argdata m' = argdata m /\
  argsize m' = argsize m /\ msg_type m' = msg_type m /\ msg_flags m' = msg_flags m /\
  msg_serial m' = msg_serial m /\ signatureSize m' = signatureSize m /\ msg_arguments m' = msg_arguments m.

Lemma fixed_refl (m : Message) : fixed m m.
Proof. by repeat split. Qed.

Lemma fixed_trans (a b c : Message) : fixed a b -> fixed b c -> fixed a c.
Proof. unfold fixed. intuition congruence. Qed.

Lemma fixed_string (code : Z) (v : list Z) (m : Message) : fixed m (set_string code v m).
Proof. by repeat split. Qed.

Lemma fixed_reply (v : Z) (m : Message) : fixed m (set_reply v m).
Proof. by repeat split. Qed.

Section Wp.
Context {B : Build}.

Lemma wp_on_it {A} (op : list Z -> M Iterator A) (s : Parse) (Q : A -> Parse -> Prop) :
  wp true (op (p_mem s) (p_iter s)) (fun a i => Q a (mkParse (p_mem s) i (p_msg s))) ->
  wp true (on_it op s) Q.
Proof. unfold on_it. by destruct (op (p_mem s) (p_iter s)). Qed.

Lemma wp_peek (p : Z) (n : nat) (s : Parse) (Q : Z -> Parse -> Prop) :
  (forall v, Q v s) -> wp true (peek p n s) Q.
Proof.
  intros H. unfold peek. rewrite (bind_Ret get _ s s s eq_refl). apply wp_load; [done|]. intros _. apply H.
Qed.

(** [s'] is reached from [s] inside of the loop: same memory and fixed part,
    and at least [n] bytes fewer. *)
Definition step (n : Z) (s s' : Parse) : Prop :=
  p_mem s' = p_mem s /\ fixed (p_msg s) (p_msg s') /\ good false (p_mem s) (p_iter s') /\
  size (p_iter s') + n <= size (p_iter s).

Lemma step_trans (a b : Z) (s t u : Parse) : step a s t -> step b t u -> step (a + b) s u.
Proof.
  intros (E1 & F1 & G1 & S1) (E2 & F2 & G2 & S2). rewrite E1 in G2. split; [congruence|].
  split; [by eapply fixed_trans|]. split; [done|lia].
Qed.

Lemma step_iter (s : Parse) (i : Iterator) (n : Z) : good false (p_mem s) i ->
  size i + n <= size (p_iter s) -> step n s (mkParse (p_mem s) i (p_msg s)).
Proof. intros Hg Hs. split; [done|]. split; [apply fixed_refl|]. by split. Qed.

Lemma good_moved_step (s : Parse) (i : Iterator) : good false (p_mem s) (p_iter s) ->
  moved (p_iter s) i -> step 0 s (mkParse (p_mem s) i (p_msg s)).
Proof. intros Hg Hm. apply step_iter; [by eapply good_moved|unfold moved in Hm; lia]. Qed.

Definition ok (s : Parse) : Prop := bytes (p_mem s) /\ good false (p_mem s) (p_iter s).

Lemma step_ok (n : Z) (s s' : Parse) : ok s -> step n s s' -> ok s'.
Proof. intros [Hb _] (E & _ & Hg & _). unfold ok. by rewrite E. Qed.

Lemma step_refl (s : Parse) : ok s -> step 0 s s.
Proof. intros [_ Hg]. split; [done|]. split; [apply fixed_refl|]. split; [done|lia]. Qed.

(** Running one operation after the steps so far. *)
Lemma wp_then {A C} (n k : Z) (mm : M Parse A) (f : A -> M Parse C) (s0 s : Parse) (Q : C -> Parse -> Prop) :
  ok s0 -> step n s0 s ->
  (ok s -> wp true (mm s) (fun _ s' => step k s s')) ->
  (forall a s', step (n + k) s0 s' -> wp true (f a s') Q) -> wp true (bind mm f s) Q.
Proof.
  intros Ho Hs Hm Hf. eapply wp_bind; [apply Hm; by eapply step_ok|].
  intros a s' H. apply Hf. by eapply step_trans.
Qed.

Lemma wp_only_sig (c : Z) (s : Parse) : ok s -> wp true (only_sig c s) (fun _ s' => step 0 s s').
Proof.
  intros Ho. unfold only_sig. rewrite (bind_Ret get _ s s s eq_refl). apply wp_require. intros _.
  by apply step_refl.
Qed.

Lemma wp_on_msg (f : Message -> Message) (s : Parse) : ok s -> (forall m, fixed m (f m)) ->
  wp true (on_msg f s) (fun _ s' => step 0 s s').
Proof.
  intros [_ Hg] Hf. apply wp_modify. split; [done|]. split; [apply Hf|]. split; [done|]. cbn. lia.
Qed.

Lemma wp_parse_string (code c : Z) (op : list Z -> M Iterator (Z * Z)) (s : Parse) : ok s ->
  (forall m i, bytes m -> good false m i -> wp true (op m i) (fun _ i' => moved i i')) ->
  wp true (parse_string code c op s) (fun _ s' => step 0 s s').
Proof.
  intros Ho Hop. unfold parse_string.
  eapply (wp_then 0 0); [done|by apply step_refl|by apply wp_only_sig|]. intros ? s1 H1.
  eapply (wp_then 0 0); [done|exact H1| |].
  { intros [Hb Hg]. apply wp_on_it. eapply wp_impl; [by apply Hop|].
    intros v i Hm. by apply good_moved_step. }
  intros v s2 H2. rewrite (bind_Ret get _ s2 s2 s2 eq_refl).
  eapply wp_impl; [apply wp_on_msg; [by eapply step_ok|intros; apply fixed_string]|].
  intros ? s3 H3. exact (step_trans _ _ _ _ _ H2 H3).
Qed.

Lemma wp_str32 (c : Z) (m : list Z) (i : Iterator) : bytes m -> good false m i ->
  wp true (bind (adbusI_iter_sig c) (fun _ => bind adbusI_iter_get32 (fun len =>
    bind (load32 m len) (fun n => adbusI_iter_getstring m n))) i) (fun _ i' => moved i i').
Proof. intros Hb Hg. eapply wp_impl; [by apply (wp_string32 m true Hb)|]. by intros ? i' [Hm _]. Qed.

Lemma wp_str8 (c : Z) (m : list Z) (i : Iterator) : bytes m -> good false m i ->
  wp true (bind (adbusI_iter_sig c) (fun _ => bind adbusI_iter_get8 (fun len =>
    bind (load8 m len) (fun n => adbusI_iter_getstring m n))) i) (fun _ i' => moved i i').
Proof. intros Hb Hg. eapply wp_impl; [by apply (wp_string8 m true Hb)|]. by intros ? i' [[Hm _] _]. Qed.

(** One header field. *)
Lemma wp_parse_field (s : Parse) : ok s -> wp true (parse_field s) (fun _ s' => step 1 s s').
Proof.
  intros Ho. unfold parse_field.
  eapply (wp_then 0 0); [done|by apply step_refl| |].
  { intros [Hb Hg]. apply wp_on_it. unfold adbus_iter_beginstruct.
    eapply wp_bind; [apply wp_sig|]. intros _ ? [-> _].
    eapply wp_impl; [apply wp_align; [auto with adbus|apply Hg]|]. intros ? i' [Hm _].
    apply good_moved_step; [done|]. eapply moved_trans; [apply (moved_set_sig (tl (sig (p_iter s)))), Hg|done]. }
  intros ? s1 H1. eapply (wp_then 0 1); [done|exact H1| |].
  { intros [Hb Hg]. apply wp_on_it. unfold adbus_iter_u8.
    eapply wp_bind; [apply wp_sig|]. intros _ ? [-> _].
    eapply wp_impl; [apply wp_get8|]. intros p i' (_ & -> & Hs). cbn [set_sig size data] in Hs.
    destruct Hg as (Hg1 & Hg2 & _).
    apply step_iter; cbn [set_sig size data advance]; [repeat split; cbn; try lia; done|lia]. }
  intros pcode s2 H2. eapply (wp_then 1 0); [done|exact H2| |].
  { intros [Hb Hg]. apply wp_on_it. eapply wp_impl; [by apply wp_beginvariant|].
    intros v i' (Hm & _). by apply good_moved_step. }
  intros v s3 H3. change (0 + 1 + 0) with 1 in H3.
  eapply wp_bind with (R := fun _ s' => s' = s3); [by apply wp_peek|]. intros code ? ->.
  eapply (wp_then 1 0); [done|exact H3| |].
  - intros Hok. pose proof Hok as [Hb Hg]. unfold field_body.
    destruct (code =? HEADER_INVALID); [done|].
    destruct ((code =? HEADER_INTERFACE) || _ || _ || _ || _).
    { apply wp_parse_string; [done|]. intros. by apply wp_str32. }
    destruct (code =? HEADER_OBJECT_PATH).
    { apply wp_parse_string; [done|]. intros. by apply wp_str32. }
    destruct (code =? HEADER_SIGNATURE).
    { apply wp_parse_string; [done|]. intros. by apply wp_str8. }
    destruct (code =? HEADER_REPLY_SERIAL).
    + eapply (wp_then 0 0); [done|by apply step_refl|by apply wp_only_sig|]. intros ? s4 H4.
      eapply (wp_then 0 0); [done|exact H4| |].
      { intros [Hb4 Hg4]. apply wp_on_it. eapply wp_impl; [apply wp_fixed; [auto with adbus|apply Hg4]|].
        intros ? i' [Hm _]. by apply good_moved_step. }
      intros p s5 H5. eapply wp_bind with (R := fun _ s' => s' = s5); [by apply wp_peek|]. intros r ? ->.
      eapply wp_impl; [apply wp_on_msg; [by eapply step_ok|intros; apply fixed_reply]|].
      intros ? s6 H6. exact (step_trans _ _ _ _ _ H5 H6).
    + apply wp_on_it. eapply wp_impl; [apply (value_wp _ true Hb); [done|done|lia]|].
      intros ? i' (Hg' & Hs' & _). apply step_iter; [done|lia].
  - intros ? s4 H4. change (1 + 0) with 1 in H4. eapply (wp_then 1 0); [done|exact H4| |].
    { intros [Hb Hg]. apply wp_on_it. unfold adbus_iter_endvariant. cbn [bind get].
      unfold require. destruct (deref (sig (p_iter s4)) =? 0); [|done]. cbn.
      apply good_moved_step; [done|]. apply moved_set_sig, Hg. }
    intros ? s5 H5. eapply wp_impl with (Q := fun _ s' => step 0 s5 s').
    + apply wp_on_it. eapply wp_impl; [apply (wp_sig true)|]. intros ? i' [-> _].
      apply (good_moved_step s5); [by eapply step_ok|]. apply moved_set_sig.
      destruct (step_ok _ _ _ Ho H5) as [_ Hg]. apply Hg.
    + intros ? s6 H6. exact (step_trans _ _ _ _ _ H5 H6).
Qed.
End Wp.

Section Parse.
Context {B : Build}.

(** The loop: it ends, and the memory and the fixed part stay. *)
Lemma wp_parse_fields (fuel : nat) : forall (a : IterArray) (s : Parse),
  ok s -> size (p_iter s) < Z.of_nat fuel ->
  wp true (parse_fields fuel a s) (fun _ s' => step 0 s s').
Proof.
  induction fuel as [|fuel IH]; intros a s Ho Hf; [destruct Ho as [_ [H _]]; lia|].
  cbn [parse_fields]. eapply (wp_then 0 0); [done|by apply step_refl| |].
  { intros [Hb Hg]. apply wp_on_it. unfold adbus_iter_inarray. cbn [bind get].
    destruct (data (p_iter s) <? a_data a + a_size a); cbn.
    - apply good_moved_step; [done|]. apply moved_set_sig, Hg.
    - apply good_moved_step; [done|]. apply moved_refl, Hg. }
  intros more s1 H1. destruct more; [|exact H1].
  eapply (wp_then 0 1); [done|exact H1|by apply wp_parse_field|].
  intros ? s2 H2. eapply wp_impl; [apply IH; [by eapply step_ok|]|].
  - destruct H2 as (_ & _ & _ & H2). lia.
  - intros ? s3 H3. destruct (step_trans _ _ _ _ _ H2 H3) as (E & F & G & S0).
    split; [done|]. split; [done|]. split; [done|lia].
Qed.

(** The header as a function of the memory. *)
Definition header_at (m : list Z) (t : MessageType) (x : Message) : Prop :=
  exists hfl n fl ser,
    x = mkMsg m (ADBUS_ALIGN (hfl + sizeof_ExtendedHeader) 8 + n)
          (drop (Z.to_nat (ADBUS_ALIGN (hfl + sizeof_ExtendedHeader) 8)) m) n t fl ser
          None 0 None None None None None None None None.

Lemma wp_parse_header (t : MessageType) (s : Parse) :
  wp true (parse_header t s) (fun _ s' => p_mem s' = p_mem s /\ header_at (p_mem s) t (p_msg s')).
Proof.
  unfold parse_header.
  eapply wp_bind with (R := fun _ s' => s' = s); [by apply wp_peek|]. intros hfl ? ->.
  eapply wp_bind with (R := fun _ s' => s' = s); [by apply wp_peek|]. intros n ? ->.
  eapply wp_bind with (R := fun _ s' => s' = s); [by apply wp_peek|]. intros fl ? ->.
  eapply wp_bind with (R := fun _ s' => s' = s); [by apply wp_peek|]. intros ser ? ->.
  rewrite (bind_Ret get _ s s s eq_refl). apply wp_modify. split; [done|].
  exists hfl, n, fl, ser. cbn [p_msg]. f_equal. f_equal. lia.
Qed.

(** What is true of an accepted message. *)
Definition accepted (t : MessageType) (x : Message) : Prop :=
  msg_type x = t /\ required x = true /\ (0 < argsize x -> signature x <> None) /\
  (exists off, msg_size x = off + argsize x /\ argdata x = drop (Z.to_nat off) (msg_data x) /\ off mod 8 = 0) /\
  msg_arguments x = None.

Lemma wp_check (s : Parse) : wp true (check_required s) (fun _ s' => s' = s /\
  required (p_msg s) = true /\ (0 < argsize (p_msg s) -> signature (p_msg s) <> None)).
Proof.
  unfold check_required. rewrite (bind_Ret get _ s s s eq_refl). unfold bind, require.
  destruct (required (p_msg s)) eqn:E; [|done].
  destruct (negb (0 <? argsize (p_msg s)) || isSome (signature (p_msg s))) eqn:E2; [|done]. cbn.
  split; [done|]. split; [done|]. intros H. rewrite (proj2 (Z.ltb_lt _ _) H) in E2. cbn in E2.
  by destruct (signature (p_msg s)).
Qed.

Lemma wp_parse_body (t : MessageType) (sz : Z) (s : Parse) :
  bytes (p_mem s) -> sizeof_ExtendedHeader <= sz ->
  wp true (parse_body true t sz s) (fun _ s' => accepted t (p_msg s')).
Proof.
  unfold sizeof_ExtendedHeader. intros Hb Hsz. unfold parse_body.
  rewrite (bind_Ret (ret tt) _ s s tt eq_refl).
  eapply wp_bind with (R := fun _ s' => bytes (p_mem s')).
  { apply wp_modify. cbn [p_mem]. apply Forall_insert; [done|]. vm_compute. split; congruence. }
  intros ? s1 Hb1.
  eapply wp_bind with (R := fun _ s' => p_mem s' = p_mem s1 /\ header_at (p_mem s1) t (p_msg s')).
  { apply wp_parse_header. }
  intros ? s2 [E2 H2]. rewrite (bind_Ret (set_iter _) _ s2
    (mkParse (p_mem s2) (mkIter sizeof_Header (sz - sizeof_Header) (str "a(yv)")) (p_msg s2)) tt eq_refl).
  set (s3 := mkParse _ _ _).
  assert (Ho3 : ok s3).
  { split; [unfold s3; cbn [p_mem]; by rewrite E2|]. unfold s3, sizeof_Header. repeat split; cbn; lia || done. }
  eapply (wp_then 0 0); [exact Ho3|by apply step_refl| |].
  { intros [Hb' Hg]. apply wp_on_it. eapply wp_impl; [by apply wp_beginarray|].
    intros ar i (Hm & _). by apply good_moved_step. }
  intros ar s4 H4. eapply (wp_then 0 0); [exact Ho3|exact H4| |].
  { intros Ho4. apply wp_parse_fields; [done|]. destruct H4 as (_ & _ & _ & H4).
    cbn in H4. unfold sizeof_Header in H4. lia. }
  intros ? s5 H5. eapply wp_bind with (R := fun _ s' => p_msg s' = p_msg s5).
  { apply wp_on_it. by apply wp_modify. }
  intros ? s6 E6. eapply wp_bind; [apply wp_check|]. intros ? s7 (-> & Hr & Ha).
  rewrite (bind_Ret get _ s6 s6 s6 eq_refl).
  assert (Hacc : accepted t (p_msg s6)).
  { destruct H5 as (_ & (F1 & F2 & F3 & F4 & F5 & F6 & F7 & F8 & F9) & _). rewrite E6 in Hr, Ha |- *.
    destruct H2 as (hfl & n & fl & ser & E). subst s3. cbn [p_msg] in *. rewrite E in F1, F2, F3, F4, F5, F9.
    cbn [msg_data msg_size argdata argsize msg_type msg_arguments] in *.
    split; [done|]. split; [done|]. split; [done|]. split; [|done].
    exists (ADBUS_ALIGN (hfl + sizeof_ExtendedHeader) 8). rewrite F1, F2, F3, F4.
    split; [done|]. split; [done|]. by apply align_mod, boundary_8. }
  by destruct (signature (p_msg s6)).
Qed.

(** A message of the other endianness: the header flip stops it. *)
Lemma flip_stops (sz : Z) (s : Parse) : 16 <= sz <= len (p_mem s) ->
  forall A (k : unit -> M Parse A) (Q : A -> Parse -> Prop), wp true (bind (flip 0 sz HEADER_SIG) k s) Q.
Proof.
  intros Hsz A k Q.
  destruct (flip_header_stops (p_mem s) sz (Z.to_nat sz + 16) ltac:(lia) ltac:(lia)) as [H1 H2].
  unfold bind, flip. by destruct (adbus_flip_data _ _ _ _ _) as [? []|[]| | |].
Qed.

(** All branches of adbus_parse at once. *)
Lemma wp_parse (sz : Z) (s : Parse) : bytes (p_mem s) -> 16 <= sz <= len (p_mem s) ->
  wp true (adbus_parse sz s) (fun _ s' =>
    (type_of_code (nth 1 (p_mem s) 0) = None /\ s' = s) \/
    (nth 0 (p_mem s) 0 = adbusI_nativeEndianness /\
     exists t, type_of_code (nth 1 (p_mem s) 0) = Some t /\ t <> MSG_INVALID /\ accepted t (p_msg s'))).
Proof.
  intros Hb Hsz. unfold adbus_parse.
  unfold bind at 1, assert_. destruct (_ || ndebug); [|done].
  assert (Hp : forall k, (k < 2)%nat -> peek (Z.of_nat k) 1 s = Ret (nth k (p_mem s) 0) s).
  { intros k Hk. unfold peek. rewrite (bind_Ret get _ s s s eq_refl). unfold load.
    assert (Hin : in_bounds (p_mem s) (Z.of_nat k) (Z.of_nat 1) = true).
    { unfold len in Hsz. apply andb_true_iff; split; apply Z.leb_le; lia. }
    rewrite Hin. unfold slice, ret. rewrite Nat2Z.id. f_equal.
    assert (Hl : (k < length (p_mem s))%nat) by (unfold len in Hsz; lia).
    destruct (lookup_lt_is_Some_2 _ _ Hl) as [x Hx].
    rewrite (drop_S _ _ _ Hx). rewrite (nth_lookup_Some _ _ _ _ Hx). cbn [take le_value]. change (take 0 (drop (S k) (p_mem s))) with (@nil Z). cbn [le_value]. lia. }
  rewrite (bind_Ret _ _ _ _ _ (Hp 0%nat ltac:(lia))), (bind_Ret _ _ _ _ _ (Hp 1%nat ltac:(lia))).
  destruct (type_of_code (nth 1 (p_mem s) 0)) as [t|] eqn:Et; [|by left].
  destruct (Z.eqb_spec (nth 0 (p_mem s) 0) adbusI_nativeEndianness) as [En|En].
  - assert (Hw : wp true (parse_body true t sz s) (fun _ s' => accepted t (p_msg s')))
      by (apply wp_parse_body; [done|unfold sizeof_ExtendedHeader; lia]).
    destruct t; try done; (eapply wp_impl; [exact Hw|]; intros ? s' Ha; right; split; [done|];
      eexists; split; [reflexivity|]; split; [discriminate|exact Ha]).
  - destruct t; try done; apply flip_stops; lia.
Qed.

(** What is accepted: a little-endian message of a known type that has the
    header fields its type requires, or a message whose type code is above the
    last one, for which the structure is left as it was. *)
Lemma parse_required (sz : Z) (m : list Z) (i : Iterator) (x : Message) (s' : Parse) :
  bytes m -> 16 <= sz <= len m -> adbus_parse sz (mkParse m i x) = Ret tt s' ->
  (type_of_code (nth 1 m 0) = None /\ p_msg s' = x) \/
  (nth 0 m 0 = adbusI_nativeEndianness /\
   exists t, type_of_code (nth 1 m 0) = Some t /\ t <> MSG_INVALID /\ accepted t (p_msg s')).
Proof.
  intros Hb Hsz E. pose proof (wp_parse sz (mkParse m i x) Hb Hsz) as H. rewrite E in H. cbn in H.
  destruct H as [[H1 ->]|H]; [by left|by right].
Qed.

(** Parsing ends on every input: the loop over the header fields makes at
    most as many rounds as the message has bytes, and skipping an unknown
    field ends. *)
Theorem parse_terminates (sz : Z) (m : list Z) (i : Iterator) (x : Message) :
  bytes m -> 16 <= sz <= len m -> adbus_parse sz (mkParse m i x) <> Nofuel.
Proof.
  intros Hb Hsz E. pose proof (wp_parse sz (mkParse m i x) Hb Hsz) as H. by rewrite E in H.
Qed.
End Parse.

(** A signal with interface, member and an unknown field. *)
Definition sample_fields : list value :=
  [VStruct [VNum UINT8 HEADER_INTERFACE; VVariant (VStr STRING (str "a.b"))];
   VStruct [VNum UINT8 99; VVariant (VNum UINT64 5)];
   VStruct [VNum UINT8 HEADER_MEMBER; VVariant (VStr STRING (str "M"))]].

Definition sample_message : list Z :=
  let h := [chr "l"; 4; 0; 1] ++ le_bytes 4 0 ++ le_bytes 4 7 ++
    enc 12 (VArray (TStruct [TBasic UINT8; TVariant]) sample_fields) in
  h ++ zeros (pad (len h) 8).

Lemma parse_terminates_witness :
  adbus_parse (B := release_build) (len sample_message) (mkParse sample_message (mkIter 0 0 []) msg_zero) <> Nofuel.
Proof.
  apply (parse_terminates (B := release_build)).
  - by apply bytes_forallb.
  - vm_compute; split; congruence.
Defined.

(** ** Message sizes *)

Lemma lor_shift (a b k : Z) : 0 <= k -> 0 <= a < 2 ^ k -> Z.lor a (Z.shiftl b k) = a + b * 2 ^ k.
Proof.
  intros Hk Ha. rewrite <- Z.add_nocarry_lor.
  - by rewrite Z.shiftl_mul_pow2.
  - apply Z.bits_inj'. intros n Hn. rewrite Z.land_spec, Z.bits_0, Z.shiftl_spec by done.
    destruct (Z.ltb_spec n k).
    + by rewrite (Z.testbit_neg_r b), andb_false_r by lia.
    + destruct (Z.eq_dec a 0) as [->|]; [by rewrite Z.bits_0|].
      rewrite Z.bits_above_log2; [done|lia|]. apply Z.log2_lt_pow2; [lia|].
      eapply Z.lt_le_trans; [apply Ha|]. by apply Z.pow_le_mono_r.
Qed.

Lemma Get32_native (b0 b1 b2 b3 : Z) (r : list Z) : bytes [b0; b1; b2; b3] ->
  Get32 (chr "l") (b0 :: b1 :: b2 :: b3 :: r) = le_value [b0; b1; b2; b3].
Proof.
  intros H. repeat (apply Forall_cons in H as [? H]). unfold Get32. rewrite Z.eqb_refl. cbn [nth le_value].
  rewrite (lor_shift b0 b1 8), (lor_shift _ b2 16), (lor_shift _ b3 24) by (cbn; lia). cbn. lia.
Qed.

Lemma nth_byte (k : nat) (l : list Z) : bytes l -> 0 <= nth k l 0 < 256.
Proof.
  intros H. revert k. induction H as [|b l Hb _ IH]; intros [|k]; cbn; try lia. apply IH.
Qed.

Lemma lor4 (a b c d : Z) : 0 <= a < 256 -> 0 <= b < 256 -> 0 <= c < 256 -> 0 <= d < 256 ->
  0 <= Z.lor (Z.lor (Z.lor a (Z.shiftl b 8)) (Z.shiftl c 16)) (Z.shiftl d 24) < 2 ^ 32.
Proof.
  intros. rewrite (lor_shift a b 8), (lor_shift _ c 16), (lor_shift _ d 24) by (cbn; lia). cbn. lia.
Qed.

Lemma Get32_bounds (e : Z) (l : list Z) : bytes l -> 0 <= Get32 e l < 2 ^ 32.
Proof. intros H. unfold Get32. cbv zeta. destruct (e =? chr "l"); apply lor4; by apply nth_byte. Qed.

Lemma Get32_app (e : Z) (a b : list Z) : (4 <= length a)%nat -> Get32 e (a ++ b) = Get32 e a.
Proof. intros H. unfold Get32. cbv zeta. by rewrite !app_nth1 by lia. Qed.

(** The size adbus_parse gives the message with this header. *)
Definition real_size (d : list Z) : Z :=
  ADBUS_ALIGN (sizeof_ExtendedHeader + Get32 (deref d) (drop 12 d)) 8 + Get32 (deref d) (drop 4 d).

(** Adbus_parse_size starts from the 12-byte header where the parser uses
    the 16-byte one: the size it returns is right unless the length of the
    header fields is 1, 2, 3 or 4 modulo 8, and then it is 8 bytes short. *)
Theorem parse_size_short (d : list Z) (sz : Z) :
  16 <= sz -> 0 <= Get32 (deref d) (drop 12 d) ->
  let r := Get32 (deref d) (drop 12 d) mod 8 in
  adbus_parse_size d sz = if (1 <=? r) && (r <=? 4) then real_size d - 8 else real_size d.
Proof.
  intros Hsz Hn r. unfold adbus_parse_size, real_size, sizeof_ExtendedHeader, sizeof_Header.
  rewrite (proj2 (Z.ltb_ge _ _)) by lia. unfold r. generalize dependent (Get32 (deref d) (drop 12 d)).
  intros n Hn _. rewrite !align_eq by auto with adbus.
  destruct (Z.leb_spec 1 (n mod 8)), (Z.leb_spec (n mod 8) 4); cbn [andb]; Z.div_mod_to_equations; lia.
Qed.

Lemma parse_size_short_witness :
  let m := [chr "l"; 2; 0; 1] ++ le_bytes 4 0 ++ le_bytes 4 7 ++ le_bytes 4 4 ++ zeros 8 in
  real_size m = 24 /\ adbus_parse_size m (len m) = real_size m - 8.
Proof.
  intros m. split; [reflexivity|].
  exact (parse_size_short m (len m) ltac:(vm_compute; discriminate) ltac:(vm_compute; discriminate)).
Defined.
