(* ===== verification/Header.v ===== *)
(** What the header of a message says, byte by byte, and that the parser of
    adbus/parse.c reads it so: every field of an accepted message is the last
    one of its kind in the header block, whatever other fields there are. *)

From Stdlib Require Import ZArith Lia.
From stdpp Require Import base option list numbers strings.
From S2P Require Import Prelude Signature Iterator Values Flip Text MatchRule Message.
#[local] Open Scope Z_scope.

(** ** The bytes of a header *)
Definition byte_at (m : list Z) (p : Z) : Z := le_value (slice m p 1).
Definition word_at (m : list Z) (p : Z) : Z := le_value (slice m p 4).

(** A text with its terminator. *)
Definition text_at (m : list Z) (p : Z) (s : list Z) : Prop := at_ m p (s ++ [0]) /\ no_nul s.

(** A string, and a signature: [q] is where they end. *)
Definition string_at (m : list Z) (p : Z) (s : list Z) (q : Z) : Prop :=
  let p1 := ADBUS_ALIGN p 4 in word_at m p1 = len s /\ text_at m (p1 + 4) s /\ q = p1 + 4 + len s + 1.
Definition signature_at (m : list Z) (p : Z) (s : list Z) (q : Z) : Prop :=
  byte_at m p = len s /\ text_at m (p + 1) s /\ q = p + 1 + len s + 1.

Definition align_of (c : Z) : Z := match field_of c with Some f => field_alignment f | None => 1 end.

Inductive content := Text (s : list Z) | Number (v : Z) | Skipped.

(** The content of a field, at [p], of a signature and with a code: the strings,
    the path, the signature and the serial of the reply; what else there is, is
    skipped as a value of its signature. *)
Inductive content_at {B : Build} (m : list Z) (p : Z) : list Z -> Z -> content -> Z -> Prop :=
| at_string c s q : c ∈ [HEADER_INTERFACE; HEADER_MEMBER; HEADER_ERROR_NAME; HEADER_DESTINATION; HEADER_SENDER] -> string_at m p s q -> content_at m p (str "s") c (Text s) q
| at_path s q : string_at m p s q -> content_at m p (str "o") HEADER_OBJECT_PATH (Text s) q
| at_signature s q : signature_at m p s q -> content_at m p (str "g") HEADER_SIGNATURE (Text s) q
| at_reply : content_at m p (str "u") HEADER_REPLY_SERIAL (Number (word_at m (ADBUS_ALIGN p 4))) (ADBUS_ALIGN p 4 + 4)
| at_other g c sz i : 8 < c -> adbus_iter_value m (S (length g + Z.to_nat sz)) (mkIter p sz g) = Ret tt i -> content_at m p g c Skipped (data i).

(** A field: its code, the signature of a variant, the content; [q] is where it
    ends. *)
Definition field_at {B : Build} (m : list Z) (p : Z) (f : Z * content) (q : Z) : Prop :=
  let p1 := ADBUS_ALIGN p 8 in byte_at m p1 = fst f /\
  exists g p2, signature_at m (p1 + 1) g p2 /\ content_at m (ADBUS_ALIGN p2 (align_of (deref g))) g (fst f) (snd f) q.

(** The fields from [p] on, up to [stop]. *)
Fixpoint fields_at {B : Build} (m : list Z) (p stop : Z) (fs : list (Z * content)) : Prop :=
  match fs with
  | [] => stop <= p
  | f :: fs => p < stop /\ exists q, field_at m p f q /\ fields_at m q stop fs
  end.

(** The last field with a code. *)
Definition last_of (c : Z) (fs : list (Z * content)) : option content :=
  fold_left (fun o f => if fst f =? c then Some (snd f) else o) fs None.
Definition last_text (c : Z) (fs : list (Z * content)) : option (list Z) := match last_of c fs with Some (Text s) => Some s | _ => None end.
Definition last_number (c : Z) (fs : list (Z * content)) : option Z := match last_of c fs with Some (Number v) => Some v | _ => None end.

(** The message is what its bytes say. *)
Record says {B : Build} (m : list Z) (x : Message) : Prop := {
  sy_data : msg_data x = m;
  sy_flags : msg_flags x = byte_at m off_flags;
  sy_serial : msg_serial x = word_at m off_serial;
  sy_argsize : argsize x = word_at m off_length;
  sy_size : msg_size x = ADBUS_ALIGN (word_at m off_headerFieldLength + sizeof_ExtendedHeader) 8 + word_at m off_length;
  sy_args : argdata x = drop (Z.to_nat (ADBUS_ALIGN (word_at m off_headerFieldLength + sizeof_ExtendedHeader) 8)) m;
  sy_fields : exists fs, fields_at m sizeof_ExtendedHeader (sizeof_ExtendedHeader + word_at m off_headerFieldLength) fs /\
    msg_path x = last_text HEADER_OBJECT_PATH fs /\ msg_interface x = last_text HEADER_INTERFACE fs /\ msg_member x = last_text HEADER_MEMBER fs /\
    msg_error x = last_text HEADER_ERROR_NAME fs /\ msg_destination x = last_text HEADER_DESTINATION fs /\ msg_sender x = last_text HEADER_SENDER fs /\
    signature x = last_text HEADER_SIGNATURE fs /\ replySerial x = last_number HEADER_REPLY_SERIAL fs }.

(** ** What a step that returns has read *)
Section Steps.
Context {B : Build}.

Lemma sig_inv (c : Z) (i i' : Iterator) (u : unit) : adbusI_iter_sig c i = Ret u i' -> i' = set_sig (tl (sig i)) i.
Proof. unfold adbusI_iter_sig, bind, get, put, assert_fail, ret. destruct (deref (sig i) =? c); [by intros [= _ <-]|by destruct ndebug]. Qed.

Lemma align_inv (b : Z) (i i' : Iterator) (u : unit) : adbus_iter_align b i = Ret u i' -> data i' = ADBUS_ALIGN (data i) b /\ sig i' = sig i.
Proof.
  unfold adbus_iter_align, bind, get, require, modify. destruct (_ <=? _); [|done]. intros [= _ <-]. cbn. split; [lia|done].
Qed.

Lemma align_one (p : Z) : ADBUS_ALIGN p 1 = p.
Proof. rewrite align_eq by auto with adbus. rewrite Z.div_1_r. lia. Qed.

Lemma alignfield_inv (c : Z) (i i' : Iterator) (u : unit) : adbus_iter_alignfield c i = Ret u i' -> data i' = ADBUS_ALIGN (data i) (align_of c) /\ sig i' = sig i.
Proof.
  unfold adbus_iter_alignfield, align_of. destruct (field_of c) as [f|]; [|unfold assert_fail; by destruct ndebug].
  destruct f as [[]| | | | | |]; cbn [field_alignment]; try apply align_inv; try (unfold assert_fail; by destruct ndebug); intros [= _ <-]; by rewrite align_one.
Qed.

Lemma get8_inv (i i' : Iterator) (p : Z) : adbusI_iter_get8 i = Ret p i' -> p = data i /\ data i' = data i + 1 /\ sig i' = sig i.
Proof. unfold adbusI_iter_get8, bind, get, require, put, ret. destruct (_ <=? _); [|done]. by intros [= <- <-]. Qed.

Lemma iter_get_inv (n : Z) (i i' : Iterator) (p : Z) : iter_get n i = Ret p i' -> p = ADBUS_ALIGN (data i) n /\ data i' = ADBUS_ALIGN (data i) n + n /\ sig i' = sig i.
Proof.
  intros H. unfold iter_get in H. apply bind_inv in H as ([] & i1 & E1 & H). apply align_inv in E1 as [E1 E2]. rewrite <- E1, <- E2. revert H.
  unfold bind, get, require, put, ret. destruct (_ <=? _); [|done]. by intros [= <- <-].
Qed.

Lemma load_inv {T} (m : list Z) (p v : Z) (n : nat) (s s' : T) : load m p n s = Ret v s' -> v = le_value (slice m p n) /\ s' = s.
Proof. unfold load. destruct (in_bounds _ _ _); [|done]. by intros [= <- <-]. Qed.

Lemma memchr_inv {T} (l : list Z) (n : nat) : forall (k r : Z) (s s' : T), memchr_from l 0 n k s = Ret (Some r) s' ->
  exists a b, l = a ++ 0 :: b /\ no_nul a /\ r = k + len a /\ s' = s.
Proof.
  revert l. induction n as [|n IH]; intros [|x l] k r s s'; cbn [memchr_from]; try done. destruct (Z.eqb_spec x 0) as [->|Hx].
  - intros [= <- <-]. exists [], l. split; [done|]. split; [constructor|]. unfold len. cbn. split; [lia|done].
  - intros H. destruct (IH l (k + 1) r s s' H) as (a & b & -> & Ha & -> & ->). exists (x :: a), b. split; [done|]. split; [by constructor|].
    split; [unfold len; cbn [length]; lia|done].
Qed.

Lemma getstring_inv (m : list Z) (n : Z) (i i' : Iterator) (v : Z * Z) : 0 <= n -> adbusI_iter_getstring m n i = Ret v i' ->
  v = (data i, n) /\ data i' = data i + n + 1 /\ sig i' = sig i /\ text_at m (data i) (slice m (data i) (Z.to_nat n)) /\ len (slice m (data i) (Z.to_nat n)) = n.
Proof.
  intros Hn H. unfold adbusI_iter_getstring in H. rewrite (bind_Ret get _ _ _ _ eq_refl) in H. apply bind_inv in H as ([] & i1 & E1 & H).
  unfold require in E1. destruct (_ <=? _); [|done]. injection E1 as <-. apply bind_inv in H as (nul & i2 & E2 & H). unfold memchr in E2.
  destruct (Z.leb_spec 0 (data i)) as [Hp|]; [|done]. destruct nul as [r|]; [|apply bind_inv in H as ([] & i3 & E3 & _); discriminate E3].
  apply memchr_inv in E2 as (a & b & Ed & Ha & -> & ->). apply bind_inv in H as ([] & i3 & E3 & H). unfold require in E3.
  destruct (Z.eqb_spec (data i + len a) (data i + n)) as [El|]; [|done]. injection E3 as <-. unfold bind, put, ret in H. injection H as <- <-.
  assert (Es : slice m (data i) (Z.to_nat n) = a).
  { unfold slice. rewrite Ed. replace (Z.to_nat n) with (length a) by (unfold len in El; lia). by rewrite take_app_length. }
  rewrite Es. split_and!; [done|cbn; lia|done| |lia]. split; [|done]. split; [done|]. rewrite Ed. change (0 :: b) with ([0] ++ b). rewrite app_assoc. apply take_app_length.
Qed.

Lemma value_nonneg (m : list Z) (p : Z) (n : nat) : bytes m -> 0 <= le_value (slice m p n).
Proof. intros H. apply slice_bounds, H. Qed.

(** A string, and a signature, at the iterator. *)
Lemma string_inv (m : list Z) (i i' : Iterator) (v : Z * Z) (c : Z) : bytes m ->
  (run* adbusI_iter_sig c in let* l := adbusI_iter_get32 in let* n := load32 m l in adbusI_iter_getstring m n) i = Ret v i' ->
  let s := slice m (fst v) (Z.to_nat (snd v)) in string_at m (data i) s (data i') /\ sig i' = tl (sig i).
Proof.
  intros Hb H. apply bind_inv in H as ([] & i1 & E1 & H). apply sig_inv in E1 as ->. apply bind_inv in H as (p & i2 & E2 & H). apply iter_get_inv in E2 as (-> & D2 & S2).
  apply bind_inv in H as (n & i3 & E3 & H). apply load_inv in E3 as [-> ->]. apply getstring_inv in H as (-> & D3 & S3 & Ht & Hl); [|by apply value_nonneg].
  cbn [set_sig data sig fst snd] in *. rewrite D2 in *. split; [|congruence]. unfold string_at, word_at. rewrite Hl. split; [done|]. split; [done|]. lia.
Qed.

Lemma signature_inv (m : list Z) (i i' : Iterator) (v : Z * Z) : bytes m ->
  (let* l := adbusI_iter_get8 in let* n := load8 m l in adbusI_iter_getstring m n) i = Ret v i' ->
  let s := slice m (fst v) (Z.to_nat (snd v)) in signature_at m (data i) s (data i') /\ sig i' = sig i /\ fst v = data i + 1.
Proof.
  intros Hb H. apply bind_inv in H as (p & i2 & E2 & H). apply get8_inv in E2 as (-> & D2 & S2).
  apply bind_inv in H as (n & i3 & E3 & H). apply load_inv in E3 as [-> ->]. apply getstring_inv in H as (-> & D3 & S3 & Ht & Hl); [|by apply value_nonneg].
  cbn [fst snd] in *. rewrite D2 in *. split; [|split; [congruence|done]]. unfold signature_at, byte_at. rewrite Hl. split; [done|]. split; [done|]. lia.
Qed.

Lemma text_cstr (m s : list Z) (p : Z) : text_at m p s -> cstr (drop (Z.to_nat p) m) = s.
Proof.
  intros [[_ H] Hn]. rewrite <- (take_drop (length (s ++ [0])) (drop (Z.to_nat p) m)), H, <- app_assoc. by apply cstr_app_nul.
Qed.

Lemma text_first (m s : list Z) (p : Z) : text_at m p s -> byte_at m p = deref s.
Proof.
  intros [[_ H] _]. unfold byte_at, slice. destruct (drop (Z.to_nat p) m) as [|b l]; [by destruct s|]. destruct s as [|c s]; cbn [app length take] in H; [injection H as ->; done|injection H as -> _; cbn [take le_value deref hd]; rewrite take_0; cbn [le_value]; lia].
Qed.

Lemma beginvariant_inv (m : list Z) (i i' : Iterator) (v : IterVariant) : bytes m -> adbus_iter_beginvariant m i = Ret v i' ->
  exists g p2, signature_at m (data i) g p2 /\ data i' = ADBUS_ALIGN p2 (align_of (deref g)) /\ sig i' = g.
Proof.
  intros Hb H. unfold adbus_iter_beginvariant in H. apply bind_inv in H as ([] & i1 & E1 & H). apply sig_inv in E1 as ->.
  assert (X : exists vs i2, (let* l := adbusI_iter_get8 in let* n := load8 m l in adbusI_iter_getstring m n) (set_sig (tl (sig i)) i) = Ret vs i2 /\
    (let* c := load8 m (fst vs) in run* adbus_iter_alignfield c in let* j := get in run* put (set_sig (cstr (drop (Z.to_nat (fst vs)) m)) j) in
     ret (mkVariant (sig j) (cstr (drop (Z.to_nat (fst vs)) m)) (data j) 0)) i2 = Ret v i').
  { apply bind_inv in H as (l & j1 & E1 & H). apply bind_inv in H as (n & j2 & E2 & H). apply bind_inv in H as (vs & j3 & E3 & H). exists vs, j3. split; [|exact H].
    by rewrite (bind_Ret _ _ _ _ _ E1), (bind_Ret _ _ _ _ _ E2). }
  destruct X as (vs & i2 & E2 & H2). clear H. apply signature_inv in E2 as (Hg & _ & Ev); [|done]. cbn [data set_sig] in Hg, Ev.
  set (g := slice m (fst vs) (Z.to_nat (snd vs))) in *. apply bind_inv in H2 as (c & i3 & E3 & H2). apply load_inv in E3 as [-> ->].
  apply bind_inv in H2 as ([] & i4 & E4 & H2). apply alignfield_inv in E4 as [D4 _]. unfold bind, get, put, ret in H2. injection H2 as _ <-.
  exists g, (data i2). split; [exact Hg|]. destruct Hg as (_ & Ht & _). rewrite <- Ev in Ht. cbn [data sig set_sig].
  split; [|by apply text_cstr]. rewrite D4. f_equal. f_equal. exact (text_first m g (fst vs) Ht).
Qed.

(** *** Fields *)
Definition apply_field (x : Message) (f : Z * content) : Message :=
  match snd f with Text s => set_string (fst f) s x | Number v => set_reply v x | Skipped => x end.

Lemma on_it_inv {A} (op : list Z -> M Iterator A) (s s' : Parse) (a : A) : on_it op s = Ret a s' ->
  exists i, op (p_mem s) (p_iter s) = Ret a i /\ s' = mkParse (p_mem s) i (p_msg s).
Proof. unfold on_it. destruct (op _ _) as [b i| | | |]; try done. intros [= <- <-]. by exists i. Qed.

Lemma peek_inv (p v : Z) (n : nat) (s s' : Parse) : peek p n s = Ret v s' -> v = le_value (slice (p_mem s) p n) /\ s' = s.
Proof. unfold peek, bind, get. apply load_inv. Qed.

Lemma only_sig_inv (c : Z) (s s' : Parse) (u : unit) : no_nul (sig (p_iter s)) -> c <> 0 -> only_sig c s = Ret u s' -> sig (p_iter s) = [c] /\ s' = s.
Proof.
  intros Hn Hc. unfold only_sig, bind, get, require. destruct (_ && _) eqn:E; [|done]. intros [= _ <-]. apply andb_true_iff in E as [E1%Z.eqb_eq E2%Z.eqb_eq]. split; [|done].
  destruct (sig (p_iter s)) as [|a [|b l]]; cbn in E1, E2; [by destruct Hc|by rewrite E1|]. by apply Forall_cons in Hn as [_ [? _]%Forall_cons].
Qed.

Lemma parse_string_inv (code c : Z) (op : list Z -> M Iterator (Z * Z)) (s s' : Parse) (u : unit) (at_p : list Z -> Z -> list Z -> Z -> Prop) :
  no_nul (sig (p_iter s)) -> c <> 0 -> bytes (p_mem s) ->
  (forall m i v i', bytes m -> op m i = Ret v i' -> at_p m (data i) (slice m (fst v) (Z.to_nat (snd v))) (data i')) -> parse_string code c op s = Ret u s' ->
  sig (p_iter s) = [c] /\ exists t q, at_p (p_mem s) (data (p_iter s)) t q /\ p_mem s' = p_mem s /\ data (p_iter s') = q /\ p_msg s' = set_string code t (p_msg s).
Proof.
  intros Hn Hc Hb Hop H. unfold parse_string in H. apply bind_inv in H as ([] & s1 & E1 & H). apply only_sig_inv in E1 as [Es ->]; [|done|done].
  apply bind_inv in H as (v & s2 & E2 & H). apply on_it_inv in E2 as (i & E2 & ->). apply Hop in E2; [|done]. unfold bind, get, on_msg, modify in H. injection H as _ <-.
  split; [done|]. by eexists _, _.
Qed.

Lemma byte_nonneg (m : list Z) (p : Z) : bytes m -> 0 <= byte_at m p.
Proof. apply value_nonneg. Qed.

(** The body of a field: its content is there, and stored. *)
Lemma body_inv (code : Z) (s s' : Parse) (u : unit) : 0 <= code -> no_nul (sig (p_iter s)) -> bytes (p_mem s) -> field_body code s = Ret u s' ->
  exists ct, content_at (p_mem s) (data (p_iter s)) (sig (p_iter s)) code ct (data (p_iter s')) /\ p_mem s' = p_mem s /\ p_msg s' = apply_field (p_msg s) (code, ct).
Proof.
  intros H0 Hn Hb H. destruct u. unfold field_body in H. destruct (Z.eqb_spec code HEADER_INVALID) as [|Hc0]; [done|].
  destruct ((code =? HEADER_INTERFACE) || _ || _ || _ || _) eqn:Es.
  { apply (parse_string_inv _ _ _ _ _ _ string_at) in H as (Eg & t & q & Ht & Em & Ed & Ex); [|done|done|done|intros m i v i' Hm Hi; by eapply string_inv].
    exists (Text t). rewrite Eg, Ed. split; [|by split]. apply at_string; [|done]. rewrite !orb_true_iff, !Z.eqb_eq in Es. rewrite !elem_of_cons. tauto. }
  destruct (Z.eqb_spec code HEADER_OBJECT_PATH) as [->|Hc1].
  { apply (parse_string_inv _ _ _ _ _ _ string_at) in H as (Eg & t & q & Ht & Em & Ed & Ex); [|done|done|done|intros m i v i' Hm Hi; by eapply string_inv].
    exists (Text t). rewrite Eg, Ed. split; [|by split]. by apply at_path. }
  destruct (Z.eqb_spec code HEADER_SIGNATURE) as [->|Hc8].
  { apply (parse_string_inv _ _ _ _ _ _ signature_at) in H as (Eg & t & q & Ht & Em & Ed & Ex); [|done|done|done|].
    2:{ intros m i v i' Hm Hi. unfold adbus_iter_signature in Hi. apply bind_inv in Hi as ([] & i1 & E1 & Hi). apply sig_inv in E1 as ->. by apply signature_inv in Hi as [Hi _]. }
    exists (Text t). rewrite Eg, Ed. split; [|by split]. by apply at_signature. }
  destruct (Z.eqb_spec code HEADER_REPLY_SERIAL) as [->|Hc5].
  { apply bind_inv in H as ([] & s1 & E1 & H). apply only_sig_inv in E1 as [Eg ->]; [|done|done]. apply bind_inv in H as (p & s2 & E2 & H).
    apply on_it_inv in E2 as (i & E2 & ->). unfold adbus_iter_u32 in E2. apply bind_inv in E2 as ([] & i1 & E1 & E2). apply sig_inv in E1 as ->.
    apply iter_get_inv in E2 as (-> & D2 & _). apply bind_inv in H as (v & s3 & E3 & H). apply peek_inv in E3 as [-> ->]. unfold on_msg, modify in H. injection H as <-.
    cbn [p_mem p_iter p_msg data set_sig] in *. exists (Number (word_at (p_mem s) (ADBUS_ALIGN (data (p_iter s)) 4))). rewrite Eg, D2. split; [apply at_reply|by split]. }
  apply on_it_inv in H as (i & E & ->). cbn [p_mem p_iter p_msg]. destruct (p_iter s) as [d sz g]. exists Skipped. split; [|by split]. cbn [data sig]. apply (at_other _ _ g code sz); [|exact E].
  rewrite !orb_false_iff, !Z.eqb_neq in Es. unfold HEADER_INVALID, HEADER_OBJECT_PATH, HEADER_INTERFACE, HEADER_MEMBER, HEADER_ERROR_NAME, HEADER_REPLY_SERIAL, HEADER_DESTINATION, HEADER_SENDER, HEADER_SIGNATURE in *. lia.
Qed.

Lemma field_inv (s s' : Parse) (u : unit) : bytes (p_mem s) -> parse_field s = Ret u s' ->
  exists f, field_at (p_mem s) (data (p_iter s)) f (data (p_iter s')) /\ p_mem s' = p_mem s /\ p_msg s' = apply_field (p_msg s) f.
Proof.
  intros Hb H. unfold parse_field in H. apply bind_inv in H as ([] & s1 & E1 & H). apply on_it_inv in E1 as (i1 & E1 & ->). unfold adbus_iter_beginstruct in E1.
  apply bind_inv in E1 as ([] & j1 & F1 & E1). apply sig_inv in F1 as ->. apply align_inv in E1 as [D1 _].
  apply bind_inv in H as (p & s2 & E2 & H). apply on_it_inv in E2 as (i2 & E2 & ->). unfold adbus_iter_u8 in E2. apply bind_inv in E2 as ([] & j2 & F2 & E2).
  apply sig_inv in F2 as ->. apply get8_inv in E2 as (-> & D2 & _). cbn [p_mem p_iter p_msg data set_sig] in *.
  apply bind_inv in H as (v & s3 & E3 & H). apply on_it_inv in E3 as (i3 & E3 & ->). cbn [p_mem p_iter p_msg] in *. apply beginvariant_inv in E3 as (g & p2 & Hg & D3 & S3); [|done].
  apply bind_inv in H as (code & s4 & E4 & H). apply peek_inv in E4 as [-> ->]. cbn [p_mem p_iter p_msg] in *.
  apply bind_inv in H as ([] & s5 & E5 & H). apply body_inv in E5 as (ct & Hct & Em & Ex); [|by apply byte_nonneg|cbn; rewrite S3; apply Hg|done].
  cbn [p_mem p_iter p_msg] in *. apply bind_inv in H as (v' & s6 & E6 & H). apply on_it_inv in E6 as (i6 & E6 & ->). unfold adbus_iter_endvariant, bind, get, require, put, ret in E6.
  destruct (_ =? 0); [|done]. injection E6 as _ <-. apply on_it_inv in H as (i7 & E7 & ->). unfold adbus_iter_endstruct in E7. apply sig_inv in E7 as ->. cbn [p_mem p_iter p_msg data set_sig].
  exists (le_value (slice (p_mem s) (data i1) 1), ct). split; [|by split]. unfold field_at. cbn [fst snd]. rewrite <- D1. split; [done|]. exists g, p2. rewrite <- D2. split; [done|].
  rewrite <- D3, <- S3. exact Hct.
Qed.

Lemma fields_inv (fuel : nat) : forall (a : IterArray) (s s' : Parse) (u : unit), bytes (p_mem s) -> parse_fields fuel a s = Ret u s' ->
  exists fs, fields_at (p_mem s) (data (p_iter s)) (a_data a + a_size a) fs /\ p_mem s' = p_mem s /\ p_msg s' = fold_left apply_field fs (p_msg s).
Proof.
  induction fuel as [|fuel IH]; intros a s s' u Hb H; cbn [parse_fields] in H; apply bind_inv in H as (more & s1 & E1 & H);
    apply on_it_inv in E1 as (i1 & E1 & ->); unfold adbus_iter_inarray, bind, get, put, ret in E1;
    (destruct (Z.ltb_spec (data (p_iter s)) (a_data a + a_size a)) as [Hlt|Hge]; injection E1 as <- <-);
    try (injection H as _ <-; exists []; by split); try done.
  apply bind_inv in H as ([] & s2 & E2 & H). apply field_inv in E2 as (f & Hf & Em & Ex); [|done]. cbn [p_mem p_iter p_msg data set_sig] in *.
  destruct (IH a s2 s' u ltac:(by rewrite Em) H) as (fs & Hfs & Em2 & Ex2). rewrite Em in *. exists (f :: fs). split; [|split; [done|by rewrite Ex2, Ex]].
  split; [done|]. by exists (data (p_iter s2)).
Qed.

(** *** The fields of the message *)
Definition proper (f : Z * content) : Prop :=
  match snd f with Text _ => fst f <> HEADER_REPLY_SERIAL | Number _ => fst f = HEADER_REPLY_SERIAL | Skipped => 8 < fst f end.

Lemma content_proper (m : list Z) (p : Z) (g : list Z) (c : Z) (ct : content) (q : Z) : content_at m p g c ct q -> proper (c, ct).
Proof. destruct 1 as [c s q Hc _| | | |]; try done. intros E. cbn in E. subst c. apply list_elem_of_In in Hc. cbn in Hc. intuition discriminate. Qed.

Lemma fields_proper (fs : list (Z * content)) (m : list Z) (stop : Z) : forall p, fields_at m p stop fs -> Forall proper fs.
Proof.
  induction fs as [|[c ct] fs IH]; intros p; [constructor|]. intros (_ & q & (_ & g & p2 & _ & H) & Hf). constructor; [by eapply content_proper|by eapply IH].
Qed.

Definition slots (fs : list (Z * content)) (x : Message) : Prop :=
  msg_path x = last_text HEADER_OBJECT_PATH fs /\ msg_interface x = last_text HEADER_INTERFACE fs /\ msg_member x = last_text HEADER_MEMBER fs /\
  msg_error x = last_text HEADER_ERROR_NAME fs /\ msg_destination x = last_text HEADER_DESTINATION fs /\ msg_sender x = last_text HEADER_SENDER fs /\
  signature x = last_text HEADER_SIGNATURE fs /\ replySerial x = last_number HEADER_REPLY_SERIAL fs.

Lemma last_snoc (c : Z) (fs : list (Z * content)) (f : Z * content) : last_of c (fs ++ [f]) = if fst f =? c then Some (snd f) else last_of c fs.
Proof. unfold last_of. by rewrite fold_left_app. Qed.

Lemma fields_slots (fs : list (Z * content)) (x : Message) : slots [] x -> Forall proper fs -> slots fs (fold_left apply_field fs x) /\ fixed x (fold_left apply_field fs x).
Proof.
  intros Hx. induction fs as [|f fs IH] using rev_ind; intros Hp; [split; [done|apply fixed_refl]|]. apply Forall_app in Hp as [Hp [Hf _]%Forall_cons].
  destruct (IH Hp) as [(S1 & S2 & S3 & S4 & S5 & S6 & S7 & S8) Hfix]. clear IH. rewrite fold_left_app. cbn [fold_left]. set (y := fold_left apply_field fs x) in *.
  destruct f as [c [s|v|]]; unfold proper in Hf; cbn [fst snd] in Hf; unfold apply_field; cbn [fst snd].
  - split; [|by eapply fixed_trans; [exact Hfix|apply fixed_string]]. unfold slots, last_text, last_number. rewrite !last_snoc. cbn [fst snd].
    rewrite (proj2 (Z.eqb_neq c HEADER_REPLY_SERIAL) Hf). unfold set_string. cbn [msg_path msg_interface msg_member msg_error msg_destination msg_sender signature replySerial].
    fold (last_number HEADER_REPLY_SERIAL fs). rewrite S1, S2, S3, S4, S5, S6, S7, S8. unfold last_text. repeat split; by destruct (c =? _).
  - split; [|by eapply fixed_trans; [exact Hfix|apply fixed_reply]]. subst c. unfold slots, last_text, last_number. rewrite !last_snoc. cbn [fst snd]. by repeat split.
  - split; [|done]. assert (E : forall k, k <= 8 -> (c =? k) = false) by (intros k Hk; apply Z.eqb_neq; lia). unfold slots, last_text, last_number. rewrite !last_snoc. cbn [fst snd].
    rewrite !E by (by vm_compute). by repeat split.
Qed.

Lemma header_inv (t : MessageType) (s s' : Parse) (u : unit) : parse_header t s = Ret u s' -> let m := p_mem s in
  let off := ADBUS_ALIGN (word_at m off_headerFieldLength + sizeof_ExtendedHeader) 8 in
  p_mem s' = m /\ p_iter s' = p_iter s /\
  p_msg s' = mkMsg m (off + word_at m off_length) (drop (Z.to_nat off) m) (word_at m off_length) t (byte_at m off_flags) (word_at m off_serial)
               None 0 None None None None None None None None.
Proof.
  intros H m off. unfold parse_header in H. apply bind_inv in H as (hfl & s1 & E1 & H). apply peek_inv in E1 as [-> ->]. apply bind_inv in H as (n & s1 & E1 & H). apply peek_inv in E1 as [-> ->].
  apply bind_inv in H as (fl & s1 & E1 & H). apply peek_inv in E1 as [-> ->]. apply bind_inv in H as (ser & s1 & E1 & H). apply peek_inv in E1 as [-> ->].
  unfold bind, get, on_msg, modify in H. injection H as _ <-. cbn [p_mem p_iter p_msg]. split; [done|]. split; [done|]. fold m. fold (word_at m off_headerFieldLength) (word_at m off_length) (word_at m off_serial) (byte_at m off_flags).
  unfold off. f_equal. f_equal. lia.
Qed.

(** The array of the fields is at 12, its first field at 16. *)
Lemma open_inv (m : list Z) (sz : Z) (i : Iterator) (a : IterArray) : bytes m -> adbus_iter_beginarray m (mkIter sizeof_Header sz (str "a(yv)")) = Ret a i ->
  data i = sizeof_ExtendedHeader /\ a_data a = sizeof_ExtendedHeader /\ a_size a = word_at m off_headerFieldLength.
Proof.
  intros Hb H. unfold adbus_iter_beginarray in H. apply bind_inv in H as ([] & i1 & E1 & H). apply sig_inv in E1 as ->. apply bind_inv in H as (p & i2 & E2 & H).
  apply iter_get_inv in E2 as (-> & D2 & S2). apply bind_inv in H as (n & i3 & E3 & H). apply load_inv in E3 as [-> ->]. apply bind_inv in H as ([] & i4 & E4 & H).
  unfold require in E4. destruct (_ <=? _); [|done]. injection E4 as <-. rewrite (bind_Ret get _ _ _ _ eq_refl) in H. apply bind_inv in H as ([] & i5 & E5 & H).
  apply alignfield_inv in E5 as [D5 S5]. cbn [data sig set_sig] in *. rewrite S2 in D5, S5. destruct (adbus_nextarg (sig i2)) as [e|]; [|done]. unfold bind, get, ret in H. injection H as <- <-.
  cbn [a_data a_size]. rewrite D5, D2. by repeat split.
Qed.

(** *** The whole message *)
Lemma body_says (t : MessageType) (sz : Z) (m : list Z) (i : Iterator) (x : Message) (s' : Parse) : bytes m -> nth 0 m 0 = adbusI_nativeEndianness -> 0 < len m ->
  parse_body true t sz (mkParse m i x) = Ret tt s' -> says m (p_msg s').
Proof.
  intros Hb Hn Hl H. unfold parse_body in H. rewrite (bind_Ret (ret tt) _ _ _ tt eq_refl) in H.
  assert (Em : <[0%nat := adbusI_nativeEndianness]> m = m).
  { destruct m as [|b m]; [by vm_compute in Hl|]. cbn in Hn. by rewrite Hn. }
  apply bind_inv in H as ([] & s1 & E1 & H). unfold set_native, modify in E1. cbn [p_mem p_iter p_msg] in E1. rewrite Em in E1. injection E1 as <-.
  apply bind_inv in H as ([] & s2 & E2 & H). apply header_inv in E2 as (M2 & _ & X2). cbn [p_mem] in *.
  apply bind_inv in H as ([] & s3 & E3 & H). unfold set_iter, modify in E3. injection E3 as <-. apply bind_inv in H as (a & s4 & E4 & H).
  apply on_it_inv in E4 as (j & E4 & ->). cbn [p_mem p_iter p_msg] in *. rewrite M2 in *. apply open_inv in E4 as (Dj & Da & Sa); [|done].
  apply bind_inv in H as ([] & s5 & E5 & H). apply fields_inv in E5 as (fs & Hfs & M5 & X5); [|done]. cbn [p_mem p_iter p_msg] in *. rewrite Dj, Da, Sa in Hfs. rewrite X2 in X5.
  apply bind_inv in H as ([] & s6 & E6 & H). apply on_it_inv in E6 as (k & _ & ->). apply bind_inv in H as ([] & s7 & E7 & H). unfold check_required in E7.
  rewrite (bind_Ret get _ _ _ _ eq_refl) in E7. apply bind_inv in E7 as ([] & s8 & E8 & E7). unfold require in E8, E7. destruct (required _); [|done]. injection E8 as <-.
  destruct (_ || _); [|done]. injection E7 as <-. rewrite (bind_Ret get _ _ _ _ eq_refl) in H. cbn [p_msg] in H.
  assert (E : s' = mkParse (p_mem s5) k (p_msg s5)) by (destruct (signature _); by injection H). subst s'. cbn [p_msg].
  set (x0 := mkMsg m _ _ _ t _ _ _ _ _ _ _ _ _ _ _ _) in X5.
  destruct (fields_slots fs x0) as [Hslots (F1 & F2 & F3 & F4 & F5 & F6 & F7 & _)]; [by repeat split|by eapply fields_proper|]. rewrite <- X5 in *.
  split; try done. exists fs. split; [exact Hfs|exact Hslots].
Qed.

(** C30: what adbus_parse accepts: a little-endian message of a known type,
    whose fields are those of its header block.  The block is a row of fields
    up to the length that the header gives: a code, the signature of a variant,
    and the content that goes with the code (a string, an object path, a
    signature or a serial; for other codes any value).  Each field of the
    message has the content of the last header field with its code, and is
    absent when there is none.  The fields that the type requires are there
    (path and member for a call, the reply serial for a return, the error name
    for an error, interface and member for a signal), a signature if there are
    arguments, and the arguments follow the header, aligned to 8 bytes.  A
    message whose type code is above the last one is accepted too: the
    structure is left as it was. *)
Theorem parse_accepts (sz : Z) (m : list Z) (i : Iterator) (x : Message) (s' : Parse) :
  bytes m -> 16 <= sz <= len m -> adbus_parse sz (mkParse m i x) = Ret tt s' ->
  (type_of_code (nth 1 m 0) = None /\ p_msg s' = x) \/
  (nth 0 m 0 = adbusI_nativeEndianness /\
   exists t, type_of_code (nth 1 m 0) = Some t /\ t <> MSG_INVALID /\ accepted t (p_msg s') /\ says m (p_msg s')).
Proof.
  intros Hb Hsz E. destruct (parse_required sz m i x s' Hb Hsz E) as [H|(Hn & t & Ht & Hne & Ha)]; [by left|right]. split; [done|]. exists t. split_and!; try done.
  unfold adbus_parse in E. apply bind_inv in E as ([] & s1 & E1 & E). unfold assert_ in E1. assert (s1 = mkParse m i x) as -> by (destruct (_ || _); [by injection E1|done]). clear E1.
  apply bind_inv in E as (e & s2 & E2 & E). apply peek_inv in E2 as [-> ->]. apply bind_inv in E as (ty & s3 & E3 & E). apply peek_inv in E3 as [-> ->]. cbn [p_mem] in E.
  assert (Hbyte : forall k, (k < 2)%nat -> le_value (slice m (Z.of_nat k) 1) = nth k m 0).
  { intros k Hk. unfold slice. rewrite Nat2Z.id. destruct (lookup_lt_is_Some_2 m k) as [b Hkb]; [unfold len in Hsz; lia|].
    rewrite (drop_S _ _ _ Hkb), (nth_lookup_Some _ _ _ _ Hkb). cbn [take]. rewrite take_0. cbn [le_value]. lia. }
  change off_type with (Z.of_nat 1) in E. change off_endianness with (Z.of_nat 0) in E. rewrite !Hbyte, Ht, Hn, Z.eqb_refl in E by lia.
  apply (body_says t sz m i x s' Hb Hn); [lia|]. by destruct t.
Qed.
End Steps.

(** ** Sample: a signal with interface, member and an unknown field *)
Lemma parse_accepts_witness :
  exists s', adbus_parse (B := debug_build) (len sample_message) (mkParse sample_message (mkIter 0 0 []) msg_zero) = Ret tt s' /\
    msg_member (p_msg s') = Some (str "M") /\
    ((type_of_code (nth 1 sample_message 0) = None /\ p_msg s' = msg_zero) \/
     (nth 0 sample_message 0 = adbusI_nativeEndianness /\
      exists t, type_of_code (nth 1 sample_message 0) = Some t /\ t <> MSG_INVALID /\ accepted t (p_msg s') /\ says (B := debug_build) sample_message (p_msg s'))).
Proof.
  eexists. split; [vm_compute; reflexivity|]. split; [vm_compute; reflexivity|].
  apply (parse_accepts (B := debug_build) (len sample_message) sample_message (mkIter 0 0 []) msg_zero).
  - by apply bytes_forallb.
  - vm_compute; split; congruence.
  - vm_compute. reflexivity.
Defined.
