(* ===== verification/Factory.v ===== *)
(** The message factory: struct adbus_MsgFactory (adbus/message.h) and
    adbus/message.c.  A message the factory builds is read back by the parser
    with the same header fields and arguments. *)

From Stdlib Require Import ZArith Lia.
From stdpp Require Import base option list numbers strings.
From S2P Require Import Prelude Signature Iterator Values Buffer Flip Text MatchRule Message.
Open Scope Z_scope.

(** ** State

    A d_String is the characters it holds; an empty one is an unset field. *)
Record MsgFactory := mkFactory {
  buf : Buffer; argbuf : Buffer;
  messageType : MessageType; flags : Z; serial : Z; argumentOffset : Z;
  f_replySerial : Z; hasReplySerial : bool;
  f_path : list Z; f_interface : list Z; f_member : list Z; f_error : list Z;
  f_destination : list Z; f_sender : list Z }.

Definition adbus_msg_new : MsgFactory :=
  mkFactory adbus_buf_new adbus_buf_new MSG_INVALID 0 (-1) 0 0 false [] [] [] [] [] [].

(** The path is not cleared. *)
Definition adbus_msg_reset (f : MsgFactory) : MsgFactory :=
  mkFactory (adbus_buf_reset (buf f)) (adbus_buf_reset (argbuf f)) MSG_INVALID 0 (-1) 0 0 false
    (f_path f) [] [] [] [] [].

(** ** Getters: the string and its length, NULL when it is empty *)
Definition field_str (s : list Z) : option (list Z) := match s with [] => None | _ => Some s end.

Definition adbus_msg_path (f : MsgFactory) := field_str (f_path f).
Definition adbus_msg_interface (f : MsgFactory) := field_str (f_interface f).
Definition adbus_msg_sender (f : MsgFactory) := field_str (f_sender f).
Definition adbus_msg_destination (f : MsgFactory) := field_str (f_destination f).
Definition adbus_msg_member (f : MsgFactory) := field_str (f_member f).
Definition adbus_msg_error (f : MsgFactory) := field_str (f_error f).
Definition adbus_msg_type (f : MsgFactory) := messageType f.
Definition adbus_msg_flags (f : MsgFactory) := flags f.
Definition adbus_msg_serial (f : MsgFactory) := serial f.

(** The flag and the serial that is written to the argument. *)
Definition adbus_msg_reply (f : MsgFactory) : bool * Z := (hasReplySerial f, f_replySerial f).

Definition adbus_msg_argbuffer (f : MsgFactory) := argbuf f.

(** ** Setters *)
Definition set_buf (b : Buffer) (f : MsgFactory) : MsgFactory :=
  mkFactory b (argbuf f) (messageType f) (flags f) (serial f) (argumentOffset f) (f_replySerial f)
    (hasReplySerial f) (f_path f) (f_interface f) (f_member f) (f_error f) (f_destination f) (f_sender f).
Definition adbus_msg_settype (t : MessageType) (f : MsgFactory) : MsgFactory :=
  mkFactory (buf f) (argbuf f) t (flags f) (serial f) (argumentOffset f) (f_replySerial f)
    (hasReplySerial f) (f_path f) (f_interface f) (f_member f) (f_error f) (f_destination f) (f_sender f).
Definition adbus_msg_setserial (n : Z) (f : MsgFactory) : MsgFactory :=
  mkFactory (buf f) (argbuf f) (messageType f) (flags f) n (argumentOffset f) (f_replySerial f)
    (hasReplySerial f) (f_path f) (f_interface f) (f_member f) (f_error f) (f_destination f) (f_sender f).
Definition adbus_msg_setflags (n : Z) (f : MsgFactory) : MsgFactory :=
  mkFactory (buf f) (argbuf f) (messageType f) n (serial f) (argumentOffset f) (f_replySerial f)
    (hasReplySerial f) (f_path f) (f_interface f) (f_member f) (f_error f) (f_destination f) (f_sender f).
Definition adbus_msg_setreply (n : Z) (f : MsgFactory) : MsgFactory :=
  mkFactory (buf f) (argbuf f) (messageType f) (flags f) (serial f) (argumentOffset f) n
    true (f_path f) (f_interface f) (f_member f) (f_error f) (f_destination f) (f_sender f).

(** The argument of a setter: a size of -1 means up to the NUL; an explicit
    size must not go beyond the string. *)
Definition str_arg (s : list Z) (size : Z) : list Z :=
  if size <? 0 then cstr s else take (Z.to_nat size) s.

Definition adbus_msg_setpath (s : list Z) (size : Z) (f : MsgFactory) : MsgFactory :=
  mkFactory (buf f) (argbuf f) (messageType f) (flags f) (serial f) (argumentOffset f) (f_replySerial f)
    (hasReplySerial f) (str_arg s size) (f_interface f) (f_member f) (f_error f) (f_destination f) (f_sender f).
Definition adbus_msg_setinterface (s : list Z) (size : Z) (f : MsgFactory) : MsgFactory :=
  mkFactory (buf f) (argbuf f) (messageType f) (flags f) (serial f) (argumentOffset f) (f_replySerial f)
    (hasReplySerial f) (f_path f) (str_arg s size) (f_member f) (f_error f) (f_destination f) (f_sender f).
Definition adbus_msg_setmember (s : list Z) (size : Z) (f : MsgFactory) : MsgFactory :=
  mkFactory (buf f) (argbuf f) (messageType f) (flags f) (serial f) (argumentOffset f) (f_replySerial f)
    (hasReplySerial f) (f_path f) (f_interface f) (str_arg s size) (f_error f) (f_destination f) (f_sender f).
Definition adbus_msg_seterror (s : list Z) (size : Z) (f : MsgFactory) : MsgFactory :=
  mkFactory (buf f) (argbuf f) (messageType f) (flags f) (serial f) (argumentOffset f) (f_replySerial f)
    (hasReplySerial f) (f_path f) (f_interface f) (f_member f) (str_arg s size) (f_destination f) (f_sender f).
Definition adbus_msg_setdestination (s : list Z) (size : Z) (f : MsgFactory) : MsgFactory :=
  mkFactory (buf f) (argbuf f) (messageType f) (flags f) (serial f) (argumentOffset f) (f_replySerial f)
    (hasReplySerial f) (f_path f) (f_interface f) (f_member f) (f_error f) (str_arg s size) (f_sender f).
Definition adbus_msg_setsender (s : list Z) (size : Z) (f : MsgFactory) : MsgFactory :=
  mkFactory (buf f) (argbuf f) (messageType f) (flags f) (serial f) (argumentOffset f) (f_replySerial f)
    (hasReplySerial f) (f_path f) (f_interface f) (f_member f) (f_error f) (f_destination f) (str_arg s size).

(** ** Building *)
Section Build.
Context {B : Build}.

Definition AppendString (a : BufArray) (code : Z) (field : list Z) : M Buffer unit :=
  if 0 <? len field then
    run* adbus_buf_arrayentry a in
    run* adbus_buf_beginstruct in
    run* adbus_buf_u8 code in
    let* v := adbus_buf_beginvariant (str "s") 1 in
    run* adbus_buf_string field (len field) in
    run* adbus_buf_endvariant v in
    adbus_buf_endstruct
  else ret tt.

(** [field] is the NUL-terminated signature of the argument buffer. *)
Definition AppendSignature (a : BufArray) (code : Z) (field : list Z) : M Buffer unit :=
  run* adbus_buf_arrayentry a in
  run* adbus_buf_beginstruct in
  run* adbus_buf_u8 code in
  let* v := adbus_buf_beginvariant (str "g") 1 in
  run* adbus_buf_signature field (-1) in
  run* adbus_buf_endvariant v in
  adbus_buf_endstruct.

Definition AppendObjectPath (a : BufArray) (code : Z) (field : list Z) : M Buffer unit :=
  if 0 <? len field then
    run* adbus_buf_arrayentry a in
    run* adbus_buf_beginstruct in
    run* adbus_buf_u8 code in
    let* v := adbus_buf_beginvariant (str "o") 1 in
    run* adbus_buf_objectpath field (len field) in
    run* adbus_buf_endvariant v in
    adbus_buf_endstruct
  else ret tt.

Definition AppendUInt32 (a : BufArray) (code : Z) (field : Z) : M Buffer unit :=
  run* adbus_buf_arrayentry a in
  run* adbus_buf_beginstruct in
  run* adbus_buf_u8 code in
  let* v := adbus_buf_beginvariant (str "u") 1 in
  run* adbus_buf_u32 field in
  run* adbus_buf_endvariant v in
  adbus_buf_endstruct.

(** [CHECK(x)] *)
Definition CHECK {S} (c : bool) : M S unit := if c then ret tt else assert_fail.

(** The checks before anything is written. *)
Definition build_checks (f : MsgFactory) : M MsgFactory unit :=
  run* CHECK (0 <=? serial f) in
  match messageType f with
  | MSG_METHOD => CHECK ((0 <? len (f_path f)) && (0 <? len (f_member f)))
  | MSG_RETURN => CHECK (hasReplySerial f)
  | MSG_ERROR => CHECK (0 <? len (f_error f))
  | MSG_SIGNAL => CHECK ((0 <? len (f_interface f)) && (0 <? len (f_member f)))
  | MSG_INVALID => assert_fail
  end.

(** The bytes of struct adbusI_Header; integers are cut to the field. *)
Definition header_bytes (f : MsgFactory) : list Z :=
  [adbusI_nativeEndianness; code_of_type (messageType f)] ++ le_bytes 1 (flags f) ++
  [adbusI_majorProtocolVersion] ++ le_bytes 4 (adbus_buf_size (argbuf f)) ++ le_bytes 4 (serial f).

(** The header fields, in the order of the calls. *)
Definition build_fields (f : MsgFactory) : M Buffer unit :=
  run* adbus_buf_appendsig (str "a(yv)") 5 in
  let* a := adbus_buf_beginarray in
  run* AppendString a HEADER_INTERFACE (f_interface f) in
  run* AppendString a HEADER_MEMBER (f_member f) in
  run* AppendString a HEADER_ERROR_NAME (f_error f) in
  run* AppendString a HEADER_DESTINATION (f_destination f) in
  run* AppendString a HEADER_SENDER (f_sender f) in
  run* AppendObjectPath a HEADER_OBJECT_PATH (f_path f) in
  run* (if hasReplySerial f then AppendUInt32 a HEADER_REPLY_SERIAL (f_replySerial f) else ret tt) in
  run* (if 0 <? adbus_buf_size (argbuf f)
        then AppendSignature a HEADER_SIGNATURE (adbus_buf_sig (argbuf f)) else ret tt) in
  adbus_buf_endarray a.

(** An operation on one of the factory's buffers. *)
Definition on_buf {A} (op : M Buffer A) : M MsgFactory A := fun f =>
  match op (buf f) with
  | Ret a b => Ret a (set_buf b f)
  | Err b => Err (set_buf b f)
  | Abort => Abort | Oob => Oob | Nofuel => Nofuel
  end.

(** [adbus_buf_end(m->argbuf)] only tests. *)
Definition end_args : M MsgFactory unit := fun f =>
  match adbus_buf_end (argbuf f) with
  | Ret _ _ => Ret tt f
  | Err _ => Err f
  | Abort => Abort | Oob => Oob | Nofuel => Nofuel
  end.

(** The message structure over the finished buffer. *)
Definition built_message (f : MsgFactory) : Message :=
  let d := b_data (buf f) in
  let n := adbus_buf_size (argbuf f) in
  let g := if 0 <? n then Some (adbus_buf_sig (argbuf f)) else None in
  mkMsg d (len d) (drop (Z.to_nat (len d - n)) d) n (messageType f) (flags f) (serial f mod 2 ^ 32)
    g (match g with Some s => len s | None => 0 end)
    (if hasReplySerial f then Some (f_replySerial f) else None)
    (field_str (f_path f)) (field_str (f_interface f)) (field_str (f_member f)) (field_str (f_error f))
    (field_str (f_destination f)) (field_str (f_sender f)) None.

Definition adbus_msg_build : M MsgFactory Message :=
  run* modify (fun f => set_buf (adbus_buf_reset (buf f)) f) in
  let* f := get in
  run* build_checks f in
  run* on_buf (adbus_buf_append (header_bytes f)) in
  run* on_buf (build_fields f) in
  run* on_buf (adbus_buf_align 8) in
  let* f := get in
  run* end_args in
  run* (if 0 <? adbus_buf_size (argbuf f)
        then on_buf (adbus_buf_append (adbus_buf_data (argbuf f))) else ret tt) in
  let* f := get in
  ret (built_message f).
End Build.

(** ** The header fields as values *)

Inductive hfield :=
| HStr (code : Z) (b : basic) (s : list Z)
| HNum (z : Z).

Definition hvalue (h : hfield) : value :=
  match h with
  | HStr code b s => VStruct [VNum UINT8 code; VVariant (VStr b s)]
  | HNum z => VStruct [VNum UINT8 HEADER_REPLY_SERIAL; VVariant (VNum UINT32 z)]
  end.

Definition happly (h : hfield) (m : Message) : Message :=
  match h with
  | HStr code _ s => set_string code s m
  | HNum z => set_reply z m
  end.

Definition hstr (code : Z) (b : basic) (s : list Z) : list hfield :=
  if 0 <? len s then [HStr code b s] else [].

Definition hfields (f : MsgFactory) : list hfield :=
  hstr HEADER_INTERFACE STRING (f_interface f) ++ hstr HEADER_MEMBER STRING (f_member f) ++
  hstr HEADER_ERROR_NAME STRING (f_error f) ++ hstr HEADER_DESTINATION STRING (f_destination f) ++
  hstr HEADER_SENDER STRING (f_sender f) ++ hstr HEADER_OBJECT_PATH OBJECT_PATH (f_path f) ++
  (if hasReplySerial f then [HNum (f_replySerial f)] else []) ++
  (if 0 <? adbus_buf_size (argbuf f) then [HStr HEADER_SIGNATURE SIGNATURE (adbus_buf_sig (argbuf f))] else []).

Definition field_ty : ty := TStruct [TBasic UINT8; TVariant].

Definition header_array (f : MsgFactory) : value := VArray field_ty (map hvalue (hfields f)).

Section Written.
Context {B : Build}.

Definition entry (a : BufArray) (v : value) : M Buffer unit :=
  bind (adbus_buf_arrayentry a) (fun _ => write v).

Lemma seq_run_app {S A} (g : A -> M S unit) (l1 l2 : list A) :
  meq (seq_run g (l1 ++ l2)) (bind (seq_run g l1) (fun _ => seq_run g l2)).
Proof.
  induction l1 as [|x l1 IH]; cbn [app seq_run]; [by rewrite meq_ret_l|].
  rewrite meq_assoc. by setoid_rewrite IH.
Qed.

Lemma entry_shape {S V} (e bs u w es : M S unit) (bv : M S V) (ev : V -> M S unit) :
  meq (bind e (fun _ => bind bs (fun _ => bind u (fun _ => bind bv (fun v =>
         bind w (fun _ => bind (ev v) (fun _ => es)))))))
      (bind e (fun _ => bind bs (fun _ =>
         bind (bind u (fun _ => bind (bind bv (fun v => bind w (fun _ => ev v))) (fun _ => ret tt)))
           (fun _ => es)))).
Proof.
  intros s. unfold bind, ret.
  repeat match goal with |- context [match ?x with _ => _ end] => destruct x end; done.
Qed.

(** One header field, as [write] would do it. *)
Lemma entry_meq (a : BufArray) (code : Z) (v : value) (s : list Z) (op : M Buffer unit) :
  adbus_buf_beginvariant s 1 = adbus_buf_beginvariant (sig_of (ty_of v)) (-1) ->
  meq op (write v) ->
  meq (bind (adbus_buf_arrayentry a) (fun _ => bind adbus_buf_beginstruct (fun _ =>
        bind (adbus_buf_u8 code) (fun _ => bind (adbus_buf_beginvariant s 1) (fun bv =>
        bind op (fun _ => bind (adbus_buf_endvariant bv) (fun _ => adbus_buf_endstruct)))))))
      (seq_run (entry a) [VStruct [VNum UINT8 code; VVariant v]]).
Proof.
  intros Hs Ho. cbn [seq_run]. rewrite meq_ret_r. unfold entry. cbn [write seq_run write_num].
  rewrite Hs, entry_shape. apply bind_proper; [reflexivity|]. intros _.
  apply bind_proper; [reflexivity|]. intros _. apply bind_proper; [|by intros _].
  apply bind_proper; [reflexivity|]. intros _. apply bind_proper; [|by intros _].
  apply bind_proper; [reflexivity|]. intros bv. apply bind_proper; [exact Ho|by intros _].
Qed.

Lemma AppendString_meq (a : BufArray) (code : Z) (s : list Z) :
  meq (AppendString a code s) (seq_run (entry a) (map hvalue (hstr code STRING s))).
Proof. unfold AppendString, hstr. destruct (0 <? len s); [by apply entry_meq|done]. Qed.

Lemma AppendObjectPath_meq (a : BufArray) (code : Z) (s : list Z) :
  meq (AppendObjectPath a code s) (seq_run (entry a) (map hvalue (hstr code OBJECT_PATH s))).
Proof. unfold AppendObjectPath, hstr. destruct (0 <? len s); [by apply entry_meq|done]. Qed.

Lemma AppendUInt32_meq (a : BufArray) (z : Z) :
  meq (AppendUInt32 a HEADER_REPLY_SERIAL z) (seq_run (entry a) [hvalue (HNum z)]).
Proof. by apply entry_meq. Qed.

Lemma carg_cstr (s : list Z) : no_nul s -> carg s (-1) = carg s (len s).
Proof.
  intros Hn. unfold carg. cbn [Z.ltb Z.compare]. rewrite cstr_no_nul by done.
  rewrite (proj2 (Z.ltb_ge _ _)), (proj2 (Z.leb_le _ _)) by (unfold len; lia).
  unfold len. by rewrite Nat2Z.id, take_app_length.
Qed.

Lemma AppendSignature_meq (a : BufArray) (s : list Z) : no_nul s ->
  meq (AppendSignature a HEADER_SIGNATURE s) (seq_run (entry a) [hvalue (HStr HEADER_SIGNATURE SIGNATURE s)]).
Proof.
  intros Hn. apply entry_meq; [done|]. cbn [write write_str]. unfold adbus_buf_signature, append_signature.
  by rewrite carg_cstr.
Qed.

(** The whole array, as [write] would do it. *)
Lemma build_fields_meq (f : MsgFactory) :
  meq (build_fields f) (bind (adbus_buf_appendsig (str "a(yv)") 5) (fun _ => write (header_array f))).
Proof.
  unfold build_fields, header_array. apply bind_proper; [reflexivity|]. intros _. cbn [write].
  apply bind_proper; [reflexivity|]. intros a. fold (entry a).
  assert (Hs : forall l1 l2 (k : M Buffer unit), meq (bind (seq_run (entry a) (map hvalue l1))
    (fun _ => bind (seq_run (entry a) (map hvalue l2)) (fun _ => k)))
    (bind (seq_run (entry a) (map hvalue (l1 ++ l2))) (fun _ => k))).
  { intros l1 l2 k. rewrite map_app, seq_run_app, meq_assoc. done. }
  unfold hfields.
  do 6 (rewrite <- Hs; apply bind_proper; [first [apply AppendString_meq|apply AppendObjectPath_meq]|intros _]).
  rewrite <- Hs. apply bind_proper.
  { destruct (hasReplySerial f); [apply AppendUInt32_meq|done]. } intros _.
  apply bind_proper; [|by intros _].
  destruct (0 <? adbus_buf_size (argbuf f)); [|done].
  apply AppendSignature_meq, no_nul_cstr.
Qed.
End Written.

(** ** Parsing one written header field *)

Definition field_wf (h : hfield) : Prop :=
  match h with
  | HStr code b s =>
      wf_str b s /\
      match b with
      | STRING => code = HEADER_INTERFACE \/ code = HEADER_MEMBER \/ code = HEADER_ERROR_NAME \/
                  code = HEADER_DESTINATION \/ code = HEADER_SENDER
      | OBJECT_PATH => code = HEADER_OBJECT_PATH
      | SIGNATURE => code = HEADER_SIGNATURE
      | _ => False
      end
  | HNum z => 0 <= z < 2 ^ 32
  end.

Lemma hvalue_wf (p : Z) (h : hfield) : field_wf h -> wf p (hvalue h).
Proof.
  destruct h as [code b s|z]; cbn [field_wf hvalue].
  - intros [Hw Hc]. rewrite wf_struct. split; [|split; [|done]].
    + cbn [wf]. split; [done|]. change (2 ^ (8 * width UINT8)) with 256.
      destruct b; try done; cbn in Hc; decompose [or] Hc; subst; vm_compute; split; congruence.
    + split; [destruct b; vm_compute; done|exact Hw].
  - intros Hz. rewrite wf_struct. split; [vm_compute; split; [done|split; congruence]|]. split; [|done].
    split; [vm_compute; done|]. split; [done|exact Hz].
Qed.

Lemma hvalue_ty (h : hfield) : ty_of (hvalue h) = field_ty.
Proof. by destruct h. Qed.

Definition inner (h : hfield) : value := match h with HStr _ b s => VStr b s | HNum z => VNum UINT32 z end.
Definition hcode (h : hfield) : Z := match h with HStr c _ _ => c | HNum _ => HEADER_REPLY_SERIAL end.

Lemma hvalue_inner (h : hfield) : hvalue h = VStruct [VNum UINT8 (hcode h); VVariant (inner h)].
Proof. by destruct h. Qed.

Section Field.
Context {B : Build}.

Lemma on_it_Ret {A} (op : list Z -> M Iterator A) (m : list Z) (i i' : Iterator) (x : Message) (a : A) :
  op m i = Ret a i' -> on_it op (mkParse m i x) = Ret a (mkParse m i' x).
Proof. intros H. unfold on_it. cbn [p_mem p_iter p_msg]. by rewrite H. Qed.

Lemma peek_Ret (m : list Z) (i : Iterator) (x : Message) (p v : Z) (n : nat) :
  (forall T (s : T), load m p n s = Ret v s) -> peek p n (mkParse m i x) = Ret v (mkParse m i x).
Proof. intros H. unfold peek. rewrite (bind_Ret get _ _ _ _ eq_refl). apply H. Qed.

Lemma only_sig_ok (c : Z) (m : list Z) (d s : Z) (x : Message) :
  only_sig c (mkParse m (mkIter d s [c]) x) = Ret tt (mkParse m (mkIter d s [c]) x).
Proof.
  unfold only_sig. rewrite (bind_Ret get _ _ _ _ eq_refl). cbn [p_iter sig deref hd tl].
  by rewrite Z.eqb_refl.
Qed.

Lemma slice_at (m l : list Z) (p : Z) : at_ m p l -> slice m p (length l) = l.
Proof. by intros [_ H]. Qed.

(** A string field: the three kinds differ in the type code and the width of
    the length. *)
Lemma parse_string_ok (code c : Z) (op : list Z -> M Iterator (Z * Z)) (m : list Z) (d s p : Z) (v : list Z)
  (x : Message) (d' s' : Z) :
  op m (mkIter d s [c]) = Ret (p, len v) (mkIter d' s' []) -> at_ m p v ->
  parse_string code c op (mkParse m (mkIter d s [c]) x) =
    Ret tt (mkParse m (mkIter d' s' []) (set_string code v x)).
Proof.
  intros Ho Hat. unfold parse_string. rewrite (bind_Ret _ _ _ _ _ (only_sig_ok _ _ _ _ _)).
  rewrite (bind_Ret _ _ _ _ _ (on_it_Ret _ _ _ _ _ _ Ho)). rewrite (bind_Ret get _ _ _ _ eq_refl).
  cbn [p_mem fst snd]. unfold len. by rewrite Nat2Z.id, slice_at.
Qed.

Lemma at_string (m : list Z) (d : Z) (v : list Z) : at_ m d (enc_string d v) -> at_ m (d + pad d 4 + 4) v.
Proof.
  intros H. unfold enc_string in H. apply at_zeros in H; [|auto with adbus].
  apply at_app in H as [_ H]. fold (len (le_bytes 4 (len v))) in H. rewrite len_le_bytes in H.
  by apply at_app in H as [H _].
Qed.

Lemma at_signature (m : list Z) (d : Z) (v : list Z) : at_ m d (enc_signature v) -> at_ m (d + 1) v.
Proof.
  intros H. unfold enc_signature in H. change (len v :: v ++ [0]) with ([len v] ++ v ++ [0]) in H.
  apply at_app in H as [_ H]. by apply at_app in H as [H _].
Qed.

Lemma field_body_ok (h : hfield) (m : list Z) (d s : Z) (x : Message) :
  field_wf h -> at_ m d (enc d (inner h)) -> len (enc d (inner h)) <= s ->
  field_body (hcode h) (mkParse m (mkIter d s (sig_of (ty_of (inner h)))) x) =
    Ret tt (mkParse m (mkIter (d + len (enc d (inner h))) (s - len (enc d (inner h))) []) (happly h x)).
Proof.
  destruct h as [code b v|z]; cbn [field_wf inner hcode happly ty_of sig_of].
  - intros [(Hw & Hb & Hn & Hl) Hc] Hat Hs. destruct b; try done; cbn [enc] in *.
    + assert (E : adbus_iter_string m (mkIter d s [chr "s"]) = Ret (d + pad d 4 + 4, len v)
        (mkIter (d + len (enc_string d v)) (s - len (enc_string d v)) [])).
      { apply (string32_ok m (chr "s") d s [chr "s"] v []); rewrite ?app_nil_r; done. }
      pose proof (at_string m d v Hat) as Hv.
      decompose [or] Hc; subst; exact (parse_string_ok _ _ _ _ _ _ _ _ _ _ _ E Hv).
    + subst. apply (parse_string_ok _ _ _ _ _ _ (d + pad d 4 + 4)); [|by apply at_string].
      apply (string32_ok m (chr "o") d s [chr "o"] v []); rewrite ?app_nil_r; done.
    + subst. apply (parse_string_ok _ _ _ _ _ _ (d + 1)); [|by apply at_signature].
      apply (string8_ok m (chr "g") d s [chr "g"] v []); rewrite ?app_nil_r; done.
  - intros Hz Hat Hs. cbn [enc width] in *. rewrite len_app, len_zeros_pad, len_le_bytes in * by auto with adbus.
    change (Z.of_nat (Z.to_nat 4)) with 4 in *. apply at_zeros in Hat; [|auto with adbus].
    change (field_body HEADER_REPLY_SERIAL) with
      (bind (only_sig (chr "u")) (fun _ => bind (on_it (fun _ => adbus_iter_u32)) (fun p =>
        bind (peek p 4) (fun r => on_msg (set_reply r))))).
    rewrite (bind_Ret _ _ _ _ _ (only_sig_ok _ _ _ _ _)).
    erewrite bind_Ret.
    2:{ apply on_it_Ret. unfold adbus_iter_u32, adbusI_iter_get32. erewrite bind_Ret by by apply sig_ok.
        cbn [tl]. apply iter_get_ok; [lia|auto with adbus]. }
    erewrite bind_Ret.
    2:{ apply peek_Ret. intros T st. eapply (load_le_bytes m _ _ 4 []); [by rewrite app_nil_r|lia|].
        change (8 * Z.of_nat 4) with 32. lia. }
    unfold on_msg, modify. cbn [p_mem p_iter p_msg]. do 3 f_equal; lia.
Qed.

(** The [endvariant] and [endstruct] after the value. *)
Lemma parse_field_ok (h : hfield) (m : list Z) (d s : Z) (x : Message) :
  field_wf h -> at_ m d (enc d (hvalue h)) -> len (enc d (hvalue h)) <= s ->
  parse_field (mkParse m (mkIter d s (str "(yv)")) x) =
    Ret tt (mkParse m (mkIter (d + len (enc d (hvalue h))) (s - len (enc d (hvalue h))) []) (happly h x)).
Proof.
  intros Hf Hat Hs. rewrite hvalue_inner, enc_struct in *. pose proof (hvalue_wf d h Hf) as Hw.
  rewrite hvalue_inner, wf_struct in Hw. destruct Hw as [Hwc [[Hwl Hwv] _]].
  set (q := d + pad d 8) in *. set (t := ty_of (inner h)) in *.
  assert (Eenc : encs q [VNum UINT8 (hcode h); VVariant (inner h)] =
    [hcode h] ++ enc_signature (sig_of t) ++ enc (q + 1 + len (enc_signature (sig_of t))) (inner h)).
  { cbn [encs seq_enc enc width]. rewrite pad_1, app_nil_r. cbn [zeros Z.to_nat repeat app le_bytes].
    destruct Hwc as [_ Hwc]. change (2 ^ (8 * width UINT8)) with 256 in Hwc.
    change (Z.to_nat 1) with 1%nat. cbn [le_bytes app]. rewrite Z.mod_small by lia. reflexivity. }
  rewrite Eenc in *. clear Eenc. set (hs := enc_signature (sig_of t)) in *. set (e := q + 1 + len hs) in *.
  rewrite len_app, len_zeros_pad, len_app, len_app in Hs |- * by auto with adbus.
  change (len [hcode h]) with 1 in *.
  pose proof (wf_head _ _ Hwv) as [Hw1 Hw2]. pose proof (enc_aligned e (inner h) Hw1 Hw2) as Ea.
  pose proof (pad_bounds e _ (head_boundary t)) as Hpad. unfold value_alignment in Ea. fold t in Ea.
  assert (El : len (enc e (inner h)) = pad e (field_alignment (head_of t)) + len (enc (aligned e (inner h)) (inner h))).
  { rewrite Ea at 1. by rewrite len_app, len_zeros_pad by apply head_boundary. }
  assert (Ep : aligned e (inner h) = e + pad e (field_alignment (head_of t))) by reflexivity.
  pose proof (len_nonneg (enc (aligned e (inner h)) (inner h))). pose proof (len_nonneg hs).
  pose proof (pad_bounds d 8 boundary_8).
  apply at_zeros in Hat; [|auto with adbus]. fold q in Hat. pose proof Hat as Hcode.
  apply at_app in Hat as [_ Hat]. change (Z.of_nat (length [hcode h])) with 1 in Hat.
  pose proof Hat as Hsig. apply at_app in Hat as [_ Hat]. fold (len hs) in Hat. fold e in Hat.
  assert (Hin : at_ m (aligned e (inner h)) (enc (aligned e (inner h)) (inner h))).
  { rewrite Ea in Hat. apply at_zeros in Hat; [done|apply head_boundary]. }
  unfold parse_field.
  erewrite bind_Ret by (apply on_it_Ret, begin_scope_ok; [done|lia]). fold q.
  erewrite bind_Ret.
  2:{ apply on_it_Ret. unfold adbus_iter_u8. erewrite bind_Ret by by apply sig_ok. apply get8_ok. lia. }
  erewrite bind_Ret.
  2:{ apply on_it_Ret. exact (beginvariant_ok m (q + 1) (s - pad d 8 - 1) t (str ")")
        (enc e (inner h)) Hsig ltac:(fold hs e; lia)). }
  fold hs e.
  erewrite bind_Ret.
  2:{ apply peek_Ret. intros T st. exact (load8_at m q (hcode h) _ st Hcode). }
  erewrite bind_Ret.
  2:{ change (sig_of t) with (sig_of (ty_of (inner h))). apply field_body_ok; [done| |].
      - rewrite <- Ep. exact Hin.
      - rewrite <- Ep. lia. }
  erewrite bind_Ret.
  2:{ apply on_it_Ret. unfold adbus_iter_endvariant. rewrite (bind_Ret get _ _ _ _ eq_refl).
      cbn [sig deref hd]. rewrite (bind_Ret (require true) _ _ _ tt eq_refl).
      rewrite (bind_Ret (put _) _ _ _ tt eq_refl). reflexivity. }
  unfold set_sig. cbn [data size sig v_origsig].
  erewrite on_it_Ret by (apply sig_ok; reflexivity).
  rewrite <- !Ep. cbn [tl str]. do 3 f_equal; lia.
Qed.
End Field.

(** ** Parsing the whole header *)
Section Header.
Context {B : Build}.

Definition happlies (hs : list hfield) (x : Message) : Message := fold_left (fun x h => happly h x) hs x.

Lemma hvalue_len (d : Z) (h : hfield) : 0 < len (enc d (hvalue h)).
Proof.
  rewrite hvalue_inner, enc_struct. generalize (d + pad d 8) as q. intros q.
  change (encs q [VNum UINT8 (hcode h); VVariant (inner h)]) with
    (enc q (VNum UINT8 (hcode h)) ++ encs (q + len (enc q (VNum UINT8 (hcode h)))) [VVariant (inner h)]).
  generalize (encs (q + len (enc q (VNum UINT8 (hcode h)))) [VVariant (inner h)]) as l. intros l.
  cbn [enc width]. rewrite !len_app, len_le_bytes. change (Z.of_nat (Z.to_nat 1)) with 1.
  pose proof (len_nonneg (zeros (pad d 8))). pose proof (len_nonneg l).
  pose proof (len_nonneg (zeros (pad q 1))). lia.
Qed.

Lemma parse_fields_ok (a : IterArray) (m : list Z) (hs : list hfield) : a_sig a = str "(yv)" ->
  forall fuel d s g x,
  Forall field_wf hs -> at_ m d (encs d (map hvalue hs)) -> len (encs d (map hvalue hs)) <= s ->
  a_data a + a_size a = d + len (encs d (map hvalue hs)) -> (length hs < fuel)%nat ->
  exists g', parse_fields fuel a (mkParse m (mkIter d s g) x) =
    Ret tt (mkParse m (mkIter (d + len (encs d (map hvalue hs))) (s - len (encs d (map hvalue hs))) g')
              (happlies hs x)).
Proof.
  intros Ha. induction hs as [|h hs IH]; intros fuel d s g x Hw Hat Hs Hend Hf.
  - exists g. destruct fuel as [|fuel]; [simpl in Hf; lia|]. cbn [map encs seq_enc] in *.
    change (len []) with 0 in *.
    cbn [parse_fields]. erewrite bind_Ret.
    2:{ apply on_it_Ret. unfold adbus_iter_inarray. rewrite (bind_Ret get _ _ _ _ eq_refl). cbn [data].
        rewrite (proj2 (Z.ltb_ge _ _)) by lia. reflexivity. }
    unfold ret. cbn [happlies fold_left]. do 3 f_equal; lia.
  - destruct fuel as [|fuel]; [simpl in Hf; lia|]. apply Forall_cons in Hw as [Hw Hws].
    cbn [map encs seq_enc] in *. fold (encs (d + len (enc d (hvalue h))) (map hvalue hs)) in *.
    rewrite len_app in *. pose proof (hvalue_len d h).
    pose proof (len_nonneg (encs (d + len (enc d (hvalue h))) (map hvalue hs))).
    apply at_app in Hat as [Hat1 Hat2]. fold (len (enc d (hvalue h))) in Hat2.
    destruct (IH fuel (d + len (enc d (hvalue h))) (s - len (enc d (hvalue h))) [] (happly h x)) as (g' & E);
      [done|done|lia|lia|simpl in Hf; lia|].
    exists g'. cbn [parse_fields]. erewrite bind_Ret.
    2:{ apply on_it_Ret. unfold adbus_iter_inarray. rewrite (bind_Ret get _ _ _ _ eq_refl). cbn [data].
        rewrite (proj2 (Z.ltb_lt _ _)) by lia. reflexivity. }
    unfold set_sig. cbn [data size]. rewrite Ha.
    rewrite (bind_Ret _ _ _ _ _ (parse_field_ok h m d s x Hw Hat1 ltac:(lia))), E.
    cbn [happlies fold_left]. do 3 f_equal; lia.
Qed.

(** The cursor at the start of the header array. *)
Lemma header_beginarray (m : list Z) (n s : Z) (r : list Z) :
  at_ m 12 (le_bytes 4 n ++ r) -> 0 <= n <= ADBUS_MAXIMUM_ARRAY_LENGTH -> 4 <= s ->
  adbus_iter_beginarray m (mkIter 12 s (str "a(yv)")) =
    Ret (mkArray (str "(yv)") 4 16 n) (mkIter 16 (s - 4) (str "(yv)")).
Proof.
  intros Hat Hn Hs. unfold ADBUS_MAXIMUM_ARRAY_LENGTH in Hn.
  change (str "a(yv)") with (chr "a" :: str "(yv)"). unfold adbus_iter_beginarray.
  erewrite bind_Ret by by apply sig_ok. cbn [tl].
  erewrite bind_Ret by (apply (iter_get_ok 4 12); [change (pad 12 4) with 0; lia|auto with adbus]).
  change (12 + pad 12 4) with 12.
  erewrite bind_Ret by (eapply load_le_bytes; [exact Hat|lia|cbn; lia]).
  erewrite bind_Ret by (apply require_true, Z.leb_le; unfold ADBUS_MAXIMUM_ARRAY_LENGTH; lia).
  rewrite (bind_Ret get _ _ _ _ eq_refl).
  erewrite bind_Ret.
  2:{ apply (alignfield_ok field_ty). change (pad (12 + 4) (field_alignment (head_of field_ty))) with 0.
      change (pad 12 4) with 0. lia. }
  change (adbus_nextarg _) with (Some (@nil Z)). cbv beta iota. rewrite (bind_Ret get _ _ _ _ eq_refl).
  change (pad (12 + 4) (field_alignment (head_of field_ty))) with 0. change (pad 12 4) with 0.
  cbn [sig data length str]. unfold ret. do 2 f_equal. lia.
Qed.

Lemma peek_at (m l : list Z) (i : Iterator) (x : Message) (p v : Z) (n : nat) :
  at_ m p (le_bytes n v ++ l) -> (0 < n)%nat -> 0 <= v < 2 ^ (8 * Z.of_nat n) ->
  peek p n (mkParse m i x) = Ret v (mkParse m i x).
Proof. intros H Hn Hv. apply peek_Ret. intros T s. by eapply load_le_bytes. Qed.
End Header.

(** ** Messages as bytes

    A message with the header fields [hs] in any order; what the factory
    builds is one, and so is what FixHeaders makes of it. *)
Section Wire.
Context {B : Build} (t : MessageType) (fl n : Z) (hs : list hfield) (args : list Z).

Definition wire_body : list Z := encs 16 (map hvalue hs).
Definition wire_head : list Z :=
  [adbusI_nativeEndianness; code_of_type t] ++ le_bytes 1 fl ++ [adbusI_majorProtocolVersion] ++ le_bytes 4 (len args) ++ le_bytes 4 n.
Definition wire : list Z :=
  wire_head ++ le_bytes 4 (len wire_body) ++ wire_body ++ zeros (pad (16 + len wire_body) 8) ++ args.

(** The message before the fields are read, and what is read from it. *)
Definition wire_base : Message :=
  mkMsg wire (len wire) args (len args) t fl n None 0 None None None None None None None None.
Definition wire_message : Message := happlies hs wire_base.

Record wf_wire : Prop := {
  ww_type : t <> MSG_INVALID;
  ww_flags : 0 <= fl < 256;
  ww_serial : 0 <= n < 2 ^ 32;
  ww_fields : Forall field_wf hs;
  ww_some : hs <> [];
  ww_body : len wire_body <= ADBUS_MAXIMUM_ARRAY_LENGTH;
  ww_args : len args < 2 ^ 32;
  ww_required : required wire_message = true;
  ww_signature : 0 < len args -> isSome (signature wire_message) = true }.

Lemma len_wire_head : len wire_head = 12.
Proof. unfold wire_head. rewrite !len_app, !len_le_bytes. unfold len. cbn [length]. lia. Qed.

Lemma wire_at :
  at_ wire 0 [chr "l"] /\ at_ wire 1 [code_of_type t] /\ at_ wire 2 (le_bytes 1 fl) /\ at_ wire 4 (le_bytes 4 (len args)) /\
  at_ wire 8 (le_bytes 4 n) /\ at_ wire 12 (le_bytes 4 (len wire_body)) /\ at_ wire 16 wire_body.
Proof.
  pose proof (at_self wire) as H. unfold wire at 2, wire_head in H.
  change ([adbusI_nativeEndianness; code_of_type t]) with ([chr "l"] ++ [code_of_type t]) in H. rewrite <- !app_assoc in H.
  repeat (rewrite at_app in H; rewrite ?length_le_bytes in H; cbn [length Z.of_nat Z.add Pos.of_succ_nat Pos.succ Pos.add] in H).
  tauto.
Qed.

Lemma wire_len : len wire = ADBUS_ALIGN (16 + len wire_body) 8 + len args.
Proof.
  unfold wire. rewrite !len_app, len_wire_head, len_le_bytes, len_zeros_pad, align_pad by auto with adbus. lia.
Qed.

Lemma wire_args : drop (Z.to_nat (len wire - len args)) wire = args.
Proof.
  unfold wire. rewrite !app_assoc. rewrite len_app, Z.add_simpl_r. unfold len at 1. rewrite Nat2Z.id. apply drop_app_length.
Qed.

Lemma code_small (u : MessageType) : 0 <= code_of_type u < 256.
Proof. by destruct u. Qed.

Lemma insert_at_0 (x : Z) (m : list Z) : at_ m 0 [x] -> <[0%nat := x]> m = m.
Proof. intros [_ H]. destruct m; [done|]. cbn in H. injection H as ->. done. Qed.

Context (W : wf_wire).

Lemma wire_body_pos : 0 < len wire_body.
Proof.
  unfold wire_body. pose proof (ww_some W). destruct hs as [|h l]; [done|]. cbn [map encs seq_enc]. rewrite len_app.
  pose proof (hvalue_len 16 h). fold (encs (16 + len (enc 16 (hvalue h))) (map hvalue l)).
  pose proof (len_nonneg (encs (16 + len (enc 16 (hvalue h))) (map hvalue l))). lia.
Qed.

Lemma fields_len : (length hs <= length wire_body)%nat.
Proof.
  unfold wire_body. clear. generalize 16 as p. induction hs as [|h l IH]; intros p; [simpl; lia|].
  cbn [map encs seq_enc]. rewrite length_app. pose proof (hvalue_len p h) as Hh. unfold len in Hh.
  specialize (IH (p + len (enc p (hvalue h)))). unfold encs in IH |- *. cbn [length]. lia.
Qed.

Lemma parse_header_ok (i : Iterator) (x : Message) : parse_header t (mkParse wire i x) = Ret tt (mkParse wire i wire_base).
Proof.
  destruct wire_at as (_ & _ & Hfl & Hn & Hs & Hb & _).
  pose proof (ww_body W) as W1. unfold ADBUS_MAXIMUM_ARRAY_LENGTH in W1. pose proof (ww_args W). pose proof (ww_flags W). pose proof (ww_serial W).
  pose proof (len_nonneg wire_body). pose proof (len_nonneg args). unfold parse_header.
  rewrite <- (app_nil_r (le_bytes 4 (len wire_body))) in Hb. rewrite <- (app_nil_r (le_bytes 4 (len args))) in Hn.
  rewrite <- (app_nil_r (le_bytes 1 fl)) in Hfl. rewrite <- (app_nil_r (le_bytes 4 n)) in Hs.
  erewrite bind_Ret by (eapply peek_at; [exact Hb|lia|cbn; lia]).
  erewrite bind_Ret by (eapply peek_at; [exact Hn|lia|cbn; lia]).
  erewrite bind_Ret by (eapply peek_at; [exact Hfl|lia|cbn; lia]).
  erewrite bind_Ret by (eapply peek_at; [exact Hs|lia|cbn; lia]).
  rewrite (bind_Ret get _ _ _ _ eq_refl). unfold on_msg, modify. cbn [p_mem p_iter p_msg].
  unfold sizeof_ExtendedHeader. rewrite (Z.add_comm (len wire_body) 16), <- wire_len, wire_args. reflexivity.
Qed.

(** The run of adbus_parse; the memory does not change. *)
Lemma wire_parse (i : Iterator) (x : Message) : exists s',
  adbus_parse (len wire) (mkParse wire i x) = Ret tt s' /\ p_msg s' = wire_message /\ p_mem s' = wire.
Proof.
  destruct wire_at as (He & Ht & _ & _ & _ & Hb & Hbody). pose proof wire_body_pos as Hpos.
  assert (Hlen : 16 + len wire_body <= len wire).
  { rewrite wire_len, align_pad. pose proof (pad_bounds (16 + len wire_body) 8 boundary_8). pose proof (len_nonneg args). lia. }
  unfold adbus_parse. erewrite bind_Ret by (apply assert_true, Z.ltb_lt; unfold sizeof_ExtendedHeader; lia).
  rewrite (bind_Ret (peek off_endianness 1) _ (mkParse wire i x) (mkParse wire i x) (chr "l")).
  2:{ apply (peek_at wire [] i x 0 (chr "l") 1); [exact He|lia|done]. }
  rewrite (bind_Ret (peek off_type 1) _ (mkParse wire i x) (mkParse wire i x) (code_of_type t)).
  2:{ apply (peek_at wire [] i x 1 _ 1); [|lia|apply code_small]. by destruct t. }
  rewrite type_of_code_of. unfold adbusI_nativeEndianness. rewrite Z.eqb_refl.
  assert (Hmain : exists s', parse_body true t (len wire) (mkParse wire i x) = Ret tt s' /\ p_msg s' = wire_message /\ p_mem s' = wire).
  2:{ pose proof (ww_type W). by destruct t. }
  unfold parse_body. rewrite (bind_Ret (ret tt) _ (mkParse wire i x) (mkParse wire i x) tt eq_refl).
  rewrite (bind_Ret set_native _ (mkParse wire i x) (mkParse wire i x) tt).
  2:{ unfold set_native, modify, adbusI_nativeEndianness. cbn [p_mem p_iter p_msg]. by rewrite (insert_at_0 _ _ He). }
  rewrite (bind_Ret _ _ _ _ _ (parse_header_ok i x)).
  rewrite (bind_Ret (set_iter _) _ (mkParse wire i wire_base) (mkParse wire (mkIter 12 (len wire - 12) (str "a(yv)")) wire_base) tt eq_refl).
  pose proof (ww_body W) as W1.
  erewrite bind_Ret.
  2:{ apply on_it_Ret. eapply header_beginarray; [rewrite app_nil_r; exact Hb|split; [lia|done]|lia]. }
  destruct (parse_fields_ok (mkArray (str "(yv)") 4 16 (len wire_body)) wire hs eq_refl
    (S (Z.to_nat (len wire))) 16 (len wire - 12 - 4) (str "(yv)") wire_base) as (g' & E);
    [exact (ww_fields W)|exact Hbody|fold wire_body; lia|done|pose proof fields_len; unfold len in *; lia|].
  rewrite (bind_Ret _ _ _ _ _ E). fold wire_message wire_body. erewrite bind_Ret by (apply on_it_Ret; reflexivity).
  set (s6 := mkParse wire _ wire_message).
  rewrite (bind_Ret check_required _ s6 s6 tt).
  2:{ unfold check_required. rewrite (bind_Ret get _ s6 s6 s6 eq_refl). change (p_msg s6) with wire_message.
      rewrite (ww_required W), (bind_Ret (require true) _ s6 s6 tt eq_refl). pose proof (ww_signature W) as Hg.
      assert (Ea : argsize wire_message = len args).
      { unfold wire_message. change (len args) with (argsize wire_base). generalize wire_base as y. clear. induction hs as [|[] l IH]; intros y; [done|..]; cbn [happlies fold_left]; by rewrite IH. }
      rewrite Ea. destruct (Z.ltb_spec 0 (len args)); [by rewrite Hg|done]. }
  rewrite (bind_Ret get _ s6 s6 s6 eq_refl). exists s6. split; [|done]. by destruct (signature (p_msg s6)).
Qed.
End Wire.

(** ** What the factory must hold for a build *)

(** The fields the type needs, as tested by adbus_msg_build. *)
Definition ready (f : MsgFactory) : bool :=
  match messageType f with
  | MSG_METHOD => (0 <? len (f_path f)) && (0 <? len (f_member f))
  | MSG_RETURN => hasReplySerial f
  | MSG_ERROR => 0 <? len (f_error f)
  | MSG_SIGNAL => (0 <? len (f_interface f)) && (0 <? len (f_member f))
  | MSG_INVALID => false
  end.

Definition header_body (f : MsgFactory) : list Z := encs 16 (map hvalue (hfields f)).

Record wf_factory (f : MsgFactory) : Prop := {
  wf_ready : ready f = true;
  wf_serial : 0 <= serial f < 2 ^ 32;
  wf_flags : 0 <= flags f < 256;
  wf_fields : Forall field_wf (hfields f);
  wf_body : len (header_body f) <= ADBUS_MAXIMUM_ARRAY_LENGTH;
  wf_args : len (b_data (argbuf f)) < 2 ^ 32;
  (** every argument of the signature was written *)
  wf_complete : at_sigptr (b_sig (argbuf f)) (b_sigp (argbuf f)) = Some [] }.

(** The bytes of the built message. *)
Definition message_bytes (f : MsgFactory) : list Z :=
  header_bytes f ++ le_bytes 4 (len (header_body f)) ++ header_body f ++
  zeros (pad (16 + len (header_body f)) 8) ++ b_data (argbuf f).

(** *** A bound on the size of the header *)
Definition hsize (h : hfield) : Z := 32 + match h with HStr _ _ s => len s | HNum _ => 0 end.
Definition hsizes (hs : list hfield) : Z := fold_right (fun h n => hsize h + n) 0 hs.

Lemma inner_len (d : Z) (h : hfield) : field_wf h -> len (enc d (VVariant (inner h))) <= 19 + match h with HStr _ _ s => len s | HNum _ => 0 end.
Proof.
  assert (E : forall v, enc d (VVariant v) = enc_signature (sig_of (ty_of v)) ++ enc (d + len (enc_signature (sig_of (ty_of v)))) v) by reflexivity.
  rewrite E, len_app. clear E. generalize (d + len (enc_signature (sig_of (ty_of (inner h))))) as p. intros p. pose proof (pad_bounds p 4 boundary_4).
  destruct h as [code b s|z]; cbn [inner ty_of sig_of field_wf].
  - intros [_ Hc]. assert (Hs : len (enc p (VStr b s)) <= 12 + len s).
    { destruct b; try done; cbn [enc]; unfold enc_string, enc_signature; rewrite ?len_app, ?len_zeros_pad, ?len_le_bytes by auto with adbus;
        unfold len; cbn [length]; rewrite ?length_app; cbn [length]; lia. }
    destruct b; try done; change (len (enc_signature _)) with 3; lia.
  - intros _. change (len (enc_signature _)) with 3. cbn [enc width]. rewrite len_app, len_zeros_pad, len_le_bytes by auto with adbus. lia.
Qed.

Lemma hvalue_len_le (d : Z) (h : hfield) : field_wf h -> len (enc d (hvalue h)) <= hsize h.
Proof.
  intros Hw. rewrite hvalue_inner, enc_struct. pose proof (pad_bounds d 8 boundary_8). rewrite len_app, len_zeros_pad by auto with adbus.
  generalize (d + pad d 8) as q. intros q. change (encs q [VNum UINT8 (hcode h); VVariant (inner h)]) with
    (enc q (VNum UINT8 (hcode h)) ++ enc (q + len (enc q (VNum UINT8 (hcode h)))) (VVariant (inner h)) ++ []).
  rewrite app_nil_r, len_app. pose proof (inner_len (q + len (enc q (VNum UINT8 (hcode h)))) h Hw). pose proof (pad_bounds q 1 boundary_1).
  assert (E : len (enc q (VNum UINT8 (hcode h))) = pad q 1 + 1) by (cbn [enc width]; by rewrite len_app, len_zeros_pad, len_le_bytes by auto with adbus).
  unfold hsize. destruct h; lia.
Qed.

Lemma header_len_le (hs : list hfield) : Forall field_wf hs -> forall p, len (encs p (map hvalue hs)) <= hsizes hs.
Proof.
  induction 1 as [|h hs Hh _ IH]; intros p; [done|]. change (encs p (map hvalue (h :: hs))) with
    (enc p (hvalue h) ++ encs (p + len (enc p (hvalue h))) (map hvalue hs)).
  rewrite len_app. cbn [hsizes fold_right]. fold (hsizes hs). pose proof (hvalue_len_le p h Hh). specialize (IH (p + len (enc p (hvalue h)))). lia.
Qed.

Lemma hsizes_app (a b : list hfield) : hsizes (a ++ b) = hsizes a + hsizes b.
Proof. induction a as [|h a IH]; [done|]. cbn [app hsizes fold_right]. fold (hsizes (a ++ b)). fold (hsizes a). lia. Qed.

Lemma hsizes_hstr (code : Z) (b : basic) (s : list Z) : hsizes (hstr code b s) <= 32 + len s.
Proof. unfold hstr. pose proof (len_nonneg s). destruct (0 <? len s); unfold hsizes, hsize; cbn [fold_right]; lia. Qed.

(** A string of a header field. *)
Definition field_text (s : list Z) : Prop := bytes s /\ no_nul s /\ len s < 2 ^ 20.

Lemma field_text_nil : field_text [].
Proof. by repeat split; try apply Forall_nil. Qed.

Lemma hsizes_short (f : MsgFactory) : field_text (f_interface f) -> field_text (f_member f) -> field_text (f_error f) -> field_text (f_destination f) -> field_text (f_sender f) ->
  field_text (f_path f) -> len (adbus_buf_sig (argbuf f)) < 255 -> hsizes (hfields f) <= 8 * 32 + 6 * 2 ^ 20 + 255.
Proof.
  intros Hi Hm He Hd Hse Hp Hg.
  unfold hfields. rewrite !hsizes_app. pose proof (hsizes_hstr HEADER_INTERFACE STRING (f_interface f)). pose proof (hsizes_hstr HEADER_MEMBER STRING (f_member f)).
  pose proof (hsizes_hstr HEADER_ERROR_NAME STRING (f_error f)). pose proof (hsizes_hstr HEADER_DESTINATION STRING (f_destination f)).
  pose proof (hsizes_hstr HEADER_SENDER STRING (f_sender f)). pose proof (hsizes_hstr HEADER_OBJECT_PATH OBJECT_PATH (f_path f)).
  destruct Hi as (_ & _ & ?), Hm as (_ & _ & ?), He as (_ & _ & ?), Hd as (_ & _ & ?), Hse as (_ & _ & ?), Hp as (_ & _ & ?).
  destruct (hasReplySerial f), (0 <? adbus_buf_size (argbuf f)); unfold hsizes at 7 8; unfold hsize; cbn [fold_right]; lia.
Qed.

Lemma short_text (e : list Z) : forallb is_byte e = true -> forallb (fun c => negb (c =? 0)) e = true -> len e < 2 ^ 20 -> field_text e.
Proof. intros H1 H2 H3. split; [by apply bytes_forallb|]. split; [by apply no_nul_forallb|done]. Qed.

(** What makes a factory with short fields ready to be built. *)
Lemma wf_short (f : MsgFactory) : ready f = true -> 0 <= serial f < 2 ^ 32 -> 0 <= flags f < 256 -> 0 <= f_replySerial f < 2 ^ 32 ->
  field_text (f_interface f) -> field_text (f_member f) -> field_text (f_error f) -> field_text (f_destination f) -> field_text (f_sender f) -> field_text (f_path f) ->
  bytes (adbus_buf_sig (argbuf f)) -> len (adbus_buf_sig (argbuf f)) < 255 -> len (b_data (argbuf f)) < 2 ^ 32 ->
  at_sigptr (b_sig (argbuf f)) (b_sigp (argbuf f)) = Some [] -> wf_factory f.
Proof.
  intros Hr Hs Hfl Hrs Hi Hm He Hd Hse Hp Hb Hg Ha Hc.
  assert (Hstr : forall code s, field_text s -> (code = HEADER_INTERFACE \/ code = HEADER_MEMBER \/ code = HEADER_ERROR_NAME \/
    code = HEADER_DESTINATION \/ code = HEADER_SENDER) -> Forall field_wf (hstr code STRING s)).
  { intros code s (? & ? & ?) Hcode. unfold hstr. destruct (0 <? len s); [|done]. apply Forall_singleton. split; [|done]. split_and!; [done|done|done|lia]. }
  assert (W : Forall field_wf (hfields f)).
  { unfold hfields. repeat (apply Forall_app; split); try (apply Hstr; auto; fail).
    - destruct Hp as (? & ? & ?). unfold hstr. destruct (0 <? len (f_path f)); [|done]. apply Forall_singleton. split; [|done]. split_and!; [done|done|done|lia].
    - destruct (hasReplySerial f); [|done]. by apply Forall_singleton.
    - destruct (0 <? _); [|done]. apply Forall_singleton. split; [|done]. split_and!; [done|done|apply no_nul_cstr|done]. }
  split; try done. unfold header_body. pose proof (header_len_le _ W 16) as L. unfold ADBUS_MAXIMUM_ARRAY_LENGTH.
  pose proof (hsizes_short f Hi Hm He Hd Hse Hp Hg). lia.
Qed.

Section RoundTrip.
Context {B : Build} (f : MsgFactory) (Hf : wf_factory f).

Lemma enc_header_array : enc 12 (header_array f) = le_bytes 4 (len (header_body f)) ++ header_body f.
Proof. unfold header_array. by rewrite enc_array. Qed.

Lemma header_array_wf : wf 12 (header_array f).
Proof.
  unfold header_array. rewrite wf_array. split; [exact (wf_body f Hf)|]. split.
  - generalize (array_data 12 field_ty) as p. induction (wf_fields f Hf) as [|h hs Hh _ IH]; intros p; [done|].
    cbn [map wfs]. split; [by apply hvalue_wf|apply IH].
  - apply Forall_map, Forall_forall. intros h _. apply hvalue_ty.
Qed.

Lemma header_array_canon : canon (header_array f).
Proof.
  unfold header_array. cbn [canon]. induction (hfields f) as [|h hs IH]; [done|]. cbn [map fold_right].
  split; [|done]. destruct h; by repeat split.
Qed.

Lemma build_checks_ok (s : MsgFactory) : build_checks f s = Ret tt s.
Proof.
  unfold build_checks. rewrite (proj2 (Z.leb_le _ _)) by apply (wf_serial f Hf).
  rewrite (bind_Ret (CHECK true) _ s s tt eq_refl). pose proof (wf_ready f Hf) as Hr. unfold ready in Hr.
  by destruct (messageType f); try rewrite Hr.
Qed.

Lemma appendsig_ok (d arr : list Z) (sp : sigptr) : cstr arr = [] ->
  exists arr', adbus_buf_appendsig (str "a(yv)") 5 (mkBuf d arr sp) = Ret tt (mkBuf d arr' sp) /\
    cstr arr' = str "a(yv)".
Proof.
  intros H. exists (memcpy_into arr 0 (str "a(yv)" ++ [0])). split.
  - unfold adbus_buf_appendsig. rewrite (bind_Ret get _ _ _ _ eq_refl). cbn [b_sig]. by rewrite H.
  - unfold memcpy_into. cbn [take app]. rewrite <- app_assoc. apply (cstr_app_nul (str "a(yv)")).
    by apply no_nul_forallb.
Qed.

Lemma cstr_insert_0 (arr : list Z) : cstr (<[0%nat := 0]> arr) = [].
Proof. by destruct arr. Qed.

(** The run of adbus_msg_build. *)
Lemma msg_build_ok : exists arr sp,
  let f' := set_buf (mkBuf (message_bytes f) arr sp) f in
  adbus_msg_build f = Ret (built_message f') f'.
Proof.
  unfold adbus_msg_build. rewrite (bind_Ret (modify (fun f => set_buf (adbus_buf_reset (buf f)) f)) _ f _ tt eq_refl).
  rewrite (bind_Ret get _ _ _ _ eq_refl).
  assert (Ef : forall s, build_checks (set_buf (adbus_buf_reset (buf f)) f) s = Ret tt s) by apply build_checks_ok.
  rewrite (bind_Ret _ _ _ _ _ (Ef _)). clear Ef.
  set (hb := header_bytes (set_buf (adbus_buf_reset (buf f)) f)).
  assert (Hhb : hb = header_bytes f) by reflexivity. rewrite Hhb.
  set (arr0 := <[0%nat := 0]> (b_sig (buf f))).
  rewrite (bind_Ret (on_buf (adbus_buf_append (header_bytes f))) _ (set_buf (adbus_buf_reset (buf f)) f)
    (set_buf (mkBuf (header_bytes f) arr0 (Own 0)) f) tt eq_refl).
  destruct (appendsig_ok (header_bytes f) arr0 (Own 0) (cstr_insert_0 _)) as (arr & E1 & Harr).
  destruct (written_all (header_array f) 12 header_array_wf header_array_canon (header_bytes f) arr (Own 0) [])
    as (sp & E2 & Hsp).
  { done. } { cbn. by rewrite drop_0, Harr. }
  exists arr, sp. cbv zeta.
  rewrite (bind_Ret (on_buf _) _ _ (set_buf (mkBuf (header_bytes f ++ enc 12 (header_array f)) arr sp) f) tt).
  2:{ unfold on_buf. cbn [buf set_buf].
      change (build_fields (set_buf (adbus_buf_reset (buf f)) f)) with (build_fields f).
      rewrite build_fields_meq, (bind_Ret _ _ _ _ _ E1), E2. reflexivity. }
  rewrite enc_header_array. set (d1 := header_bytes f ++ le_bytes 4 (len (header_body f)) ++ header_body f).
  assert (Hd1 : len d1 = 16 + len (header_body f)).
  { unfold d1. rewrite !len_app, len_le_bytes. unfold header_bytes. rewrite !len_app, !len_le_bytes.
    unfold len. cbn [length]. lia. }
  rewrite (bind_Ret (on_buf (adbus_buf_align 8)) _ (set_buf (mkBuf d1 arr sp) f)
    (set_buf (mkBuf (d1 ++ zeros (pad (len d1) 8)) arr sp) f) tt eq_refl).
  rewrite (bind_Ret get _ _ _ _ eq_refl).
  erewrite bind_Ret.
  2:{ unfold end_args, adbus_buf_end. cbn [argbuf set_buf]. rewrite (bind_Ret get _ _ _ _ eq_refl).
      rewrite (wf_complete f Hf). reflexivity. }
  rewrite Hd1. cbn [argbuf set_buf].
  assert (Em : message_bytes f = (d1 ++ zeros (pad (16 + len (header_body f)) 8)) ++ b_data (argbuf f)).
  { unfold message_bytes, d1. by rewrite <- !app_assoc. }
  destruct (Z.ltb_spec 0 (adbus_buf_size (argbuf f))) as [Ha|Ha].
  - erewrite bind_Ret by reflexivity. rewrite Em. reflexivity.
  - assert (b_data (argbuf f) = []) as Eargs.
    { unfold adbus_buf_size, b_size, len in Ha. destruct (b_data (argbuf f)); [done|simpl in Ha; lia]. }
    rewrite Eargs, app_nil_r in Em. rewrite (bind_Ret (ret tt) _ _ _ tt eq_refl). rewrite Em. reflexivity.
Qed.

(** The arguments of the built message. *)
Lemma built_args (d arr : list Z) (sp : sigptr) : d = message_bytes f ->
  argdata (built_message (set_buf (mkBuf d arr sp) f)) = b_data (argbuf f).
Proof.
  intros ->. unfold built_message, adbus_buf_size, b_size. cbn [buf argbuf set_buf b_data argdata].
  unfold message_bytes. rewrite !app_assoc. rewrite len_app, Z.add_simpl_r. unfold len at 1.
  rewrite Nat2Z.id. apply drop_app_length.
Qed.

(** *** The built message is one in bytes *)
Lemma message_wire : message_bytes f = wire (messageType f) (flags f) (serial f) (hfields f) (b_data (argbuf f)).
Proof. reflexivity. Qed.

Lemma hfields_not_nil : hfields f <> [].
Proof.
  pose proof (wf_ready f Hf) as Hr. unfold ready in Hr. unfold hfields, hstr.
  destruct (messageType f); try done; try (apply andb_true_iff in Hr as [H1 H2]; rewrite ?H1, ?H2); rewrite ?Hr;
    repeat match goal with |- context [if ?b then _ else _] => destruct b end; done.
Qed.

(** *** The fields of the parsed message *)

(** The factory's message, except that the parser does not set the length of
    the signature. *)
Definition parsed_message : Message :=
  let d := message_bytes f in
  let n := len (b_data (argbuf f)) in
  mkMsg d (len d) (b_data (argbuf f)) n (messageType f) (flags f) (serial f)
    (if 0 <? n then Some (adbus_buf_sig (argbuf f)) else None) 0
    (if hasReplySerial f then Some (f_replySerial f) else None)
    (field_str (f_path f)) (field_str (f_interface f)) (field_str (f_member f)) (field_str (f_error f))
    (field_str (f_destination f)) (field_str (f_sender f)) None.

Definition parsed_header : Message :=
  let d := message_bytes f in
  mkMsg d (len d) (b_data (argbuf f)) (len (b_data (argbuf f))) (messageType f) (flags f) (serial f)
    None 0 None None None None None None None None.

Lemma field_str_len (s : list Z) : field_str s = if 0 <? len s then Some s else None.
Proof. by destruct s. Qed.

Lemma happlies_app (a b : list hfield) (x : Message) : happlies (a ++ b) x = happlies b (happlies a x).
Proof. unfold happlies. by rewrite fold_left_app. Qed.

Lemma happlies_hstr (code : Z) (b : basic) (s : list Z) (x : Message) :
  happlies (hstr code b s) x = if 0 <? len s then set_string code s x else x.
Proof. unfold hstr. by destruct (0 <? len s). Qed.

Lemma happlies_fields : happlies (hfields f) parsed_header = parsed_message.
Proof.
  unfold hfields, parsed_message. rewrite !happlies_app, !happlies_hstr, !field_str_len.
  unfold adbus_buf_size, b_size.
  destruct (hasReplySerial f), (0 <? len (b_data (argbuf f))); cbn [happlies fold_left happly];
  destruct (0 <? len (f_path f)), (0 <? len (f_interface f)), (0 <? len (f_member f)),
    (0 <? len (f_error f)), (0 <? len (f_destination f)), (0 <? len (f_sender f)); reflexivity.
Qed.

Lemma parsed_required : required parsed_message = true.
Proof.
  pose proof (wf_ready f Hf) as Hr. unfold ready in Hr. unfold required, parsed_message.
  cbn [msg_type msg_path msg_member replySerial msg_error msg_interface]. rewrite !field_str_len.
  destruct (messageType f); try done; try (apply andb_true_iff in Hr as [H1 H2]; rewrite ?H1, ?H2); by rewrite ?Hr.
Qed.

(** *** The run of adbus_parse *)

Lemma factory_wire : wf_wire (messageType f) (flags f) (serial f) (hfields f) (b_data (argbuf f)).
Proof.
  assert (E : wire_message (messageType f) (flags f) (serial f) (hfields f) (b_data (argbuf f)) = parsed_message) by exact happlies_fields.
  split; rewrite ?E; try by destruct Hf.
  - pose proof (wf_ready f Hf) as Hr. intros Ht. unfold ready in Hr. by rewrite Ht in Hr.
  - exact hfields_not_nil.
  - exact parsed_required.
  - intros Ha. unfold parsed_message. cbn [signature]. by rewrite (proj2 (Z.ltb_lt _ _)).
Qed.

Lemma msg_parse_ok (i : Iterator) (x : Message) : exists s',
  adbus_parse (len (message_bytes f)) (mkParse (message_bytes f) i x) = Ret tt s' /\ p_msg s' = parsed_message.
Proof. destruct (wire_parse _ _ _ _ _ factory_wire i x) as (s' & E & Em & _). exists s'. split; [exact E|]. rewrite Em. exact happlies_fields. Qed.
End RoundTrip.

(** C2: A message the factory builds is read back by the parser: for a factory
    whose fields meet the requirements of its message type and whose arguments
    are complete, building succeeds, and parsing the bytes gives the message
    structure the build returned (type, flags, serial, reply serial, path,
    interface, member, error, destination, sender, argument signature and
    argument bytes), except for the length of the signature, which the parser
    leaves at 0. *)
Theorem build_parse_roundtrip {B : Build} (f : MsgFactory) (i : Iterator) (x : Message) :
  wf_factory f ->
  exists f' msg s',
    adbus_msg_build f = Ret msg f' /\
    adbus_parse (msg_size msg) (mkParse (msg_data msg) i x) = Ret tt s' /\
    p_msg s' = mkMsg (msg_data msg) (msg_size msg) (argdata msg) (argsize msg) (msg_type msg)
      (msg_flags msg) (msg_serial msg) (signature msg) 0 (replySerial msg) (msg_path msg)
      (msg_interface msg) (msg_member msg) (msg_error msg) (msg_destination msg) (msg_sender msg) None /\
    msg_path msg = field_str (f_path f) /\ msg_interface msg = field_str (f_interface f) /\
    msg_member msg = field_str (f_member f) /\ msg_error msg = field_str (f_error f) /\
    msg_destination msg = field_str (f_destination f) /\ msg_sender msg = field_str (f_sender f) /\
    msg_type msg = messageType f /\ msg_serial msg = serial f /\ argdata msg = b_data (argbuf f).
Proof.
  intros Hf. destruct (msg_build_ok f Hf) as (arr & sp & E). cbv zeta in E.
  destruct (msg_parse_ok f Hf i x) as (s' & Ep & Es).
  eexists _, _, s'. split; [exact E|]. split; [exact Ep|]. rewrite Es.
  assert (Ea : drop (Z.to_nat (len (message_bytes f) - len (b_data (argbuf f)))) (message_bytes f) = b_data (argbuf f))
    by exact (built_args f _ arr sp eq_refl).
  pose proof (wf_serial f Hf). unfold parsed_message, built_message, adbus_buf_size, b_size.
  cbn [buf argbuf set_buf b_data msg_data msg_size argdata argsize msg_type msg_flags msg_serial signature
    replySerial msg_path msg_interface msg_member msg_error msg_destination msg_sender
    messageType flags serial hasReplySerial f_replySerial f_path f_interface f_member f_error f_destination f_sender].
  rewrite Ea, Z.mod_small by done. repeat split.
Qed.

(** A call with destination and two arguments. *)
Definition sample_factory : MsgFactory :=
  let f := adbus_msg_setmember (str "Do") (-1) (adbus_msg_setpath (str "/a") (-1)
    (adbus_msg_setdestination (str "x.y") 3 (adbus_msg_setserial 5 (adbus_msg_settype MSG_METHOD adbus_msg_new)))) in
  mkFactory (buf f) (mkBuf (encs 0 [VNum UINT32 9; VStr STRING (str "hi")]) (str "us" ++ zeros 254) (Own 2))
    (messageType f) (flags f) (serial f) 0 0 false (f_path f) (f_interface f) (f_member f) (f_error f)
    (f_destination f) (f_sender f).

Lemma build_parse_roundtrip_witness : exists f' msg s',
  adbus_msg_build (B := debug_build) sample_factory = Ret msg f' /\
  adbus_parse (B := debug_build) (msg_size msg) (mkParse (msg_data msg) (mkIter 0 0 []) msg_zero) = Ret tt s' /\
  msg_member (p_msg s') = Some (str "Do").
Proof.
  destruct (build_parse_roundtrip (B := debug_build) sample_factory (mkIter 0 0 []) msg_zero)
    as (f' & msg & s' & H1 & H2 & H3 & H4 & H5 & H6 & _).
  - constructor.
    + reflexivity.
    + split; [discriminate|reflexivity].
    + split; [discriminate|reflexivity].
    + change (hfields sample_factory) with
        [HStr HEADER_MEMBER STRING (str "Do"); HStr HEADER_DESTINATION STRING (str "x.y");
         HStr HEADER_OBJECT_PATH OBJECT_PATH (str "/a"); HStr HEADER_SIGNATURE SIGNATURE (str "us")].
      repeat apply Forall_cons_2; [..|apply Forall_nil_2]; (split; [|cbn; tauto]);
        (split; [done|]); (split; [by apply bytes_forallb|]); (split; [by apply no_nul_forallb|done]).
    + apply Z.leb_le. vm_compute. reflexivity.
    + reflexivity.
    + vm_compute. reflexivity.
  - exists f', msg, s'. split; [exact H1|]. split; [exact H2|]. rewrite H3. exact H6.
Defined.

(** A reset factory keeps the path of the last message. *)
Example reset_keeps_path :
  f_path (adbus_msg_reset (adbus_msg_setpath (str "/a") (-1) adbus_msg_new)) = str "/a".
Proof. reflexivity. Qed.
