(* ===== verification/Server.v ===== *)
(** The bus server's data and its table of names: adbus/server.h and
    adbus/server.c (connecting and disconnecting remotes, requesting and
    releasing names) with [adbusI_serv_ownerchanged] of adbus/server-bus.c.

    Remotes and services are heap objects that point at each other; a pointer
    is an index, and using the index of a freed object is a memory error. *)

From Stdlib Require Import ZArith Lia.
From stdpp Require Import base option list numbers strings gmap.
From S2P Require Import Prelude Signature Iterator Values Buffer Text MatchRule Message.
Open Scope Z_scope.

(** ** adbus.h *)
Definition ADBUS_SERVICE_ALLOW_REPLACEMENT : Z := 1.
Definition ADBUS_SERVICE_REPLACE_EXISTING : Z := 2.
Definition ADBUS_SERVICE_DO_NOT_QUEUE : Z := 4.

Definition ADBUS_SERVICE_SUCCESS : Z := 1.
Definition ADBUS_SERVICE_REQUEST_IN_QUEUE : Z := 2.
Definition ADBUS_SERVICE_REQUEST_FAILED : Z := 3.
Definition ADBUS_SERVICE_REQUEST_ALREADY_OWNER : Z := 4.
Definition ADBUS_SERVICE_RELEASE_INVALID_NAME : Z := 2.
Definition ADBUS_SERVICE_RELEASE_NOT_OWNER : Z := 3.

(** ** server.h *)
Notation rid := nat (only parsing).
Notation sid := nat (only parsing).

Record ServiceOwner := mkOwner { o_remote : rid; allowReplacement : bool }.

(** The owner is the head of the queue. *)
Record Service := mkService { queue : list ServiceOwner; s_name : list Z }.

Inductive ParseState := BEGIN | HEADER | DATA.

(** The send callback and its data are the user's; the buffers hold what comes
    after the space reserved for the message structure. *)
Record Remote := mkRemote {
  unique : list Z; matches : list Match;
  parseState : ParseState; r_msg : Buffer; r_dispatch : Buffer; native : bool;
  headerSize : Z; msgSize : Z; parsedMsgSize : Z;
  haveHello : bool; services : list sid }.

(** The signals of the bus interface, by their arguments; NameLost and
    NameAcquired have a destination. *)
Inductive BusSignal :=
| NameOwnerChanged (name oldowner newowner : list Z)
| NameLost (dest name : list Z)
| NameAcquired (dest name : list Z).

(** [remotes] is the list of live remotes in list order; the two heaps hold
    the live objects; [signals] is what was emitted so far. *)
Record Server := mkServer {
  busRemote : option rid; helloRemote : option rid;
  names : gmap (list Z) sid; remotes : list rid; nextRemote : Z;
  service_heap : gmap sid Service; remote_heap : gmap rid Remote; next_id : nat;
  signals : list BusSignal }.

(** ** Updates *)
Definition set_services (l : list sid) (r : Remote) : Remote :=
  mkRemote (unique r) (matches r) (parseState r) (r_msg r) (r_dispatch r) (native r) (headerSize r)
    (msgSize r) (parsedMsgSize r) (haveHello r) l.
Definition set_hello (h : bool) (r : Remote) : Remote :=
  mkRemote (unique r) (matches r) (parseState r) (r_msg r) (r_dispatch r) (native r) (headerSize r)
    (msgSize r) (parsedMsgSize r) h (services r).
Definition set_matches (l : list Match) (r : Remote) : Remote :=
  mkRemote (unique r) l (parseState r) (r_msg r) (r_dispatch r) (native r) (headerSize r)
    (msgSize r) (parsedMsgSize r) (haveHello r) (services r).
Definition set_queue (q : list ServiceOwner) (v : Service) : Service := mkService q (s_name v).

Definition with_names (n : gmap (list Z) sid) (h : gmap sid Service) (s : Server) : Server :=
  mkServer (busRemote s) (helloRemote s) n (remotes s) (nextRemote s) h (remote_heap s) (next_id s) (signals s).
Definition with_remotes (l : list rid) (h : gmap rid Remote) (s : Server) : Server :=
  mkServer (busRemote s) (helloRemote s) (names s) l (nextRemote s) (service_heap s) h (next_id s) (signals s).
Definition with_bus (b h : option rid) (s : Server) : Server :=
  mkServer b h (names s) (remotes s) (nextRemote s) (service_heap s) (remote_heap s) (next_id s) (signals s).
Definition emit (l : list BusSignal) : M Server unit :=
  modify (fun s => mkServer (busRemote s) (helloRemote s) (names s) (remotes s) (nextRemote s)
                     (service_heap s) (remote_heap s) (next_id s) (signals s ++ l)).

(** A fresh pointer and the next unique number. *)
Definition alloc : M Server nat := fun s =>
  Ret (next_id s) (mkServer (busRemote s) (helloRemote s) (names s) (remotes s) (nextRemote s)
                     (service_heap s) (remote_heap s) (S (next_id s)) (signals s)).
Definition take_number : M Server Z := fun s =>
  Ret (nextRemote s) (mkServer (busRemote s) (helloRemote s) (names s) (remotes s)
                        ((nextRemote s + 1) mod 2 ^ 32)
                        (service_heap s) (remote_heap s) (next_id s) (signals s)).

(** Following a pointer. *)
Definition get_remote (r : rid) : M Server Remote :=
  let* s := get in match remote_heap s !! r with Some x => ret x | None => oob end.
Definition get_service (i : sid) : M Server Service :=
  let* s := get in match service_heap s !! i with Some x => ret x | None => oob end.
Definition put_remote (r : rid) (x : Remote) : M Server unit :=
  modify (fun s => with_remotes (remotes s) (<[r := x]> (remote_heap s)) s).
Definition put_service (i : sid) (x : Service) : M Server unit :=
  modify (fun s => with_names (names s) (<[i := x]> (service_heap s)) s).

Section Ops.
Context {B : Build}.

(** ** adbusI_serv_ownerchanged *)
Definition get_owner (r : option rid) : M Server (option Remote) :=
  match r with
  | None => ret None
  | Some r => let* x := get_remote r in ret (Some x)
  end.

Definition owner_name (r : option Remote) : list Z :=
  match r with Some x => unique x | None => [] end.

Definition adbusI_serv_ownerchanged (name : list Z) (oldowner newowner : option rid) : M Server unit :=
  let* n := get_owner newowner in
  run* assert_ (match n with Some x => haveHello x | None => true end) in
  let* o := get_owner oldowner in
  let o := match o with Some x => if haveHello x then Some x else None | None => None end in
  run* emit [NameOwnerChanged name (owner_name o) (owner_name n)] in
  run* (match o with Some x => emit [NameLost (unique x) name] | None => ret tt end) in
  match n with Some x => emit [NameAcquired (unique x) name] | None => ret tt end.

(** ** Names *)

(** The first occurrence is removed. *)
Fixpoint remove_first (x : nat) (l : list nat) : list nat :=
  match l with
  | [] => []
  | y :: l' => if (y =? x)%nat then l' else y :: remove_first x l'
  end.

Definition adbusI_serv_removeServiceFromRemote (r : rid) (v : sid) : M Server unit :=
  let* x := get_remote r in put_remote r (set_services (remove_first v (services x)) x).

(** The loop over the rest of the queue, from index [i]; it compares the head
    of the queue. *)
Fixpoint release_loop (r : rid) (v : sid) (q : list ServiceOwner) (i : nat) (n : nat) : M Server Z :=
  match n with
  | O => ret ADBUS_SERVICE_RELEASE_NOT_OWNER
  | S n' =>
      match q with
      | [] => oob
      | o :: _ =>
          if (o_remote o =? r)%nat then
            let* x := get_service v in
            run* put_service v (set_queue (take i q ++ drop (i + 1) q) x) in
            ret ADBUS_SERVICE_SUCCESS
          else release_loop r v q (i + 1) n'
      end
  end.

Definition adbusI_serv_releasename (r : rid) (name : list Z) : M Server Z :=
  let* s := get in
  match names s !! name with
  | None => ret ADBUS_SERVICE_RELEASE_INVALID_NAME
  | Some v =>
      run* adbusI_serv_removeServiceFromRemote r v in
      let* serv := get_service v in
      match queue serv with
      | [] => oob
      | o :: q =>
          if (o_remote o =? r)%nat then
            run* put_service v (set_queue q serv) in
            run* (match q with
                  | [] =>
                      run* adbusI_serv_ownerchanged (s_name serv) (Some r) None in
                      modify (fun s => with_names (delete name (names s)) (delete v (service_heap s)) s)
                  | o' :: _ => adbusI_serv_ownerchanged (s_name serv) (Some r) (Some (o_remote o'))
                  end) in
            ret ADBUS_SERVICE_SUCCESS
          else release_loop r v (queue serv) 1 (length q)
      end
  end.

Definition flag (flags f : Z) : bool := negb (Z.land flags f =? 0).

(** [dh_put]: the service of a name, created when there is none. *)
Definition put_name (name : list Z) : M Server sid :=
  let* s := get in
  match names s !! name with
  | Some v => ret v
  | None =>
      let* v := alloc in
      run* modify (fun s => with_names (<[name := v]> (names s)) (<[v := mkService [] name]> (service_heap s)) s) in
      ret v
  end.

(** [dv_push(Service, &r->services, 1)] *)
Definition push_service (r : rid) (v : sid) : M Server unit :=
  let* x := get_remote r in put_remote r (set_services (services x ++ [v]) x).

Fixpoint find_owner (r : rid) (q : list ServiceOwner) (i : nat) : option nat :=
  match q with
  | [] => None
  | o :: q' => if (o_remote o =? r)%nat then Some i else find_owner r q' (i + 1)
  end.

Definition adbusI_serv_requestname (r : rid) (name : list Z) (flags : Z) : M Server Z :=
  let* v := put_name name in
  let* serv := get_service v in
  let me := mkOwner r (flag flags ADBUS_SERVICE_ALLOW_REPLACEMENT) in
  match queue serv with
  | [] =>
      run* push_service r v in
      run* put_service v (set_queue [me] serv) in
      run* adbusI_serv_ownerchanged name None (Some r) in
      ret ADBUS_SERVICE_SUCCESS
  | o :: q =>
      if (o_remote o =? r)%nat then
        run* put_service v (set_queue (me :: q) serv) in
        ret ADBUS_SERVICE_REQUEST_ALREADY_OWNER
      else if flag flags ADBUS_SERVICE_REPLACE_EXISTING && allowReplacement o then
        run* adbusI_serv_releasename r (s_name serv) in
        let* serv := get_service v in
        match queue serv with
        | [] => oob
        | o :: q =>
            run* adbusI_serv_removeServiceFromRemote (o_remote o) v in
            run* put_service v (set_queue (me :: q) serv) in
            run* adbusI_serv_ownerchanged name (Some (o_remote o)) (Some r) in
            ret ADBUS_SERVICE_SUCCESS
        end
      else if negb (flag flags ADBUS_SERVICE_DO_NOT_QUEUE) then
        match find_owner r (queue serv) 0 with
        | Some i =>
            run* put_service v (set_queue (<[i := me]> (queue serv)) serv) in
            ret ADBUS_SERVICE_REQUEST_IN_QUEUE
        | None =>
            run* push_service r v in
            run* put_service v (set_queue (queue serv ++ [me]) serv) in
            ret ADBUS_SERVICE_REQUEST_IN_QUEUE
        end
      else
        run* adbusI_serv_releasename r (s_name serv) in
        ret ADBUS_SERVICE_REQUEST_FAILED
  end.

(** The owner of a name, NULL when the name is not on the bus. *)
Definition adbusI_serv_remote (name : list Z) : M Server (option rid) :=
  let* s := get in
  match names s !! name with
  | None => ret None
  | Some v =>
      let* serv := get_service v in
      match queue serv with
      | [] => oob
      | o :: _ => ret (Some (o_remote o))
      end
  end.

(** ** Remotes *)
Definition BUS_NAME : list Z := str "org.freedesktop.DBus".

Definition adbus_serv_connect : M Server rid :=
  let* r := alloc in
  let* s := get in
  let* u := (match busRemote s with
             | None => ret BUS_NAME
             | Some _ => let* n := take_number in ret (str ":1." ++ dec n)
             end) in
  run* modify (fun s => with_remotes (r :: remotes s)
    (<[r := mkRemote u [] BEGIN adbus_buf_new adbus_buf_new false 0 0 0 false []]> (remote_heap s)) s) in
  ret r.

(** The loop that releases the names; it ends when the list is empty. *)
Fixpoint release_all (fuel : nat) (r : rid) : M Server unit :=
  let* x := get_remote r in
  match services x with
  | [] => ret tt
  | v :: _ =>
      match fuel with
      | O => nofuel
      | S fuel' =>
          let* serv := get_service v in
          run* adbusI_serv_releasename r (s_name serv) in
          release_all fuel' r
      end
  end.

Definition adbus_remote_disconnect (r : rid) : M Server unit :=
  run* modify (fun s => with_remotes (remove_first r (remotes s)) (remote_heap s) s) in
  let* x := get_remote r in
  run* put_remote r (set_matches [] x) in
  run* release_all (length (services x)) r in
  modify (fun s => with_remotes (remotes s) (delete r (remote_heap s)) s).

(** ** adbusI_serv_initbus: the bus is the first remote, and says hello. *)
Definition server_zero : Server := mkServer None None ∅ [] 0 ∅ ∅ 0 [].

Definition adbusI_serv_initbus : M Server unit :=
  let* r := adbus_serv_connect in
  run* modify (fun s => with_bus (Some r) (helloRemote s) s) in
  let* x := get_remote r in
  run* put_remote r (set_hello true x) in
  run* adbusI_serv_requestname r (unique x) 0 in ret tt.
End Ops.

(** ** Histories *)
Inductive op :=
| Connect
| SayHello (r : rid)
| Request (r : rid) (name : list Z) (flags : Z)
| Release (r : rid) (name : list Z)
| Disconnect (r : rid).

Section Run.
Context {B : Build}.

(** Hello as its handler does it. *)
Definition say_hello (r : rid) : M Server unit :=
  let* x := get_remote r in
  run* put_remote r (set_hello true x) in
  run* adbusI_serv_requestname r (unique x) 0 in ret tt.

Definition run_op (o : op) : M Server unit :=
  match o with
  | Connect => run* adbus_serv_connect in ret tt
  | SayHello r => say_hello r
  | Request r n f => run* adbusI_serv_requestname r n f in ret tt
  | Release r n => run* adbusI_serv_releasename r n in ret tt
  | Disconnect r => adbus_remote_disconnect r
  end.

Fixpoint run_ops (l : list op) : M Server unit :=
  match l with
  | [] => ret tt
  | o :: l' => run* run_op o in run_ops l'
  end.
End Run.

Definition bus_start {B : Build} : M Server unit := adbusI_serv_initbus.

(** ** What goes wrong with waiting clients

    Clients 2 and 4 connect and say hello (the bus is 0; the services of the
    unique names are 1, 3 and 5). *)
Definition history (l : list op) : outcome Server unit :=
  bind (bus_start (B := debug_build)) (fun _ => run_ops (B := debug_build)
    ([Connect; SayHello 2; Connect; SayHello 4]%nat ++ l)) server_zero.

Definition owners (o : outcome Server unit) (name : list Z) : option (list rid) :=
  match o with
  | Ret _ s =>
      match names s !! name with
      | Some v => match service_heap s !! v with Some x => Some (map o_remote (queue x)) | None => None end
      | None => None
      end
  | _ => None
  end.

(** The queue of a name still has a client that released it, or that is gone;
    when the owner then releases the name, it goes to freed memory. *)
Theorem waiting_client_stays :
  owners (history [Request 2 (str "a.b") 0; Request 4 (str "a.b") 0; Release 4 (str "a.b")]%nat) (str "a.b")
    = Some [2; 4]%nat /\
  owners (history [Request 2 (str "a.b") 0; Request 4 (str "a.b") 0; Disconnect 4]%nat) (str "a.b")
    = Some [2; 4]%nat /\
  history [Request 2 (str "a.b") 0; Request 4 (str "a.b") 0; Disconnect 4; Release 2 (str "a.b")]%nat = Oob.
Proof. by vm_compute. Qed.

(** A client that takes a name over is not told of it in its own list: when it
    disconnects, the name keeps pointing at it. *)
Theorem replacing_client_stays :
  owners (history [Request 2 (str "a.b") ADBUS_SERVICE_ALLOW_REPLACEMENT;
                   Request 4 (str "a.b") ADBUS_SERVICE_REPLACE_EXISTING; Disconnect 4]%nat) (str "a.b")
    = Some [4]%nat.
Proof. by vm_compute. Qed.

(** A waiting client that takes the name over is in the queue twice, and still
    owns the name after releasing it. *)
Theorem replacing_waiter_twice :
  let h := [Request 2 (str "a.b") ADBUS_SERVICE_ALLOW_REPLACEMENT; Request 4 (str "a.b") 0;
            Request 4 (str "a.b") ADBUS_SERVICE_REPLACE_EXISTING]%nat in
  owners (history h) (str "a.b") = Some [4; 4]%nat /\
  owners (history (h ++ [Release 4 (str "a.b")]%nat)) (str "a.b") = Some [4]%nat.
Proof. by vm_compute. Qed.

(** ** The abstract table: who owns which name *)
Definition owner (s : Server) (name : list Z) : option rid :=
  match names s !! name with
  | None => None
  | Some v =>
      match service_heap s !! v with
      | Some x => match queue x with o :: _ => Some (o_remote o) | [] => None end
      | None => None
      end
  end.

Definition add_signals (l : list BusSignal) (s : Server) : Server :=
  mkServer (busRemote s) (helloRemote s) (names s) (remotes s) (nextRemote s)
    (service_heap s) (remote_heap s) (next_id s) (signals s ++ l).

(** When nobody waits and nobody is replaced. *)
Definition plain_flags (f : Z) : Prop :=
  flag f ADBUS_SERVICE_DO_NOT_QUEUE = true /\ flag f ADBUS_SERVICE_REPLACE_EXISTING = false.

Definition COLON : Z := chr ":".

Record wf_server (s : Server) : Prop := {
  (** the table and the services name each other *)
  w_names : forall n v, names s !! n = Some v -> exists x, service_heap s !! v = Some x /\ s_name x = n;
  w_heap : forall v x, service_heap s !! v = Some x -> names s !! s_name x = Some v;
  (** every service has one owner, a live remote that said hello and knows it *)
  w_owner : forall v x, service_heap s !! v = Some x ->
    exists o R, queue x = [o] /\ remote_heap s !! o_remote o = Some R /\ haveHello R = true /\ v ∈ services R;
  (** a remote's services are live and owned by it *)
  w_services : forall r R, remote_heap s !! r = Some R ->
    NoDup (services R) /\ forall v, v ∈ services R ->
      exists x o, service_heap s !! v = Some x /\ queue x = [o] /\ o_remote o = r;
  (** fresh pointers *)
  w_ids : (forall v, is_Some (service_heap s !! v) -> (v < next_id s)%nat) /\
          (forall r, is_Some (remote_heap s !! r) -> (r < next_id s)%nat);
  (** the list of remotes is the list of the live ones *)
  w_remotes : NoDup (remotes s) /\ forall r, r ∈ remotes s <-> is_Some (remote_heap s !! r);
  (** unique names *)
  w_number : 0 <= nextRemote s < 2 ^ 32;
  w_unique : forall r R, remote_heap s !! r = Some R ->
    unique R = BUS_NAME \/ exists k, unique R = str ":1." ++ dec k /\ 0 <= k < nextRemote s;
  w_distinct : forall r1 r2 R1 R2, remote_heap s !! r1 = Some R1 -> remote_heap s !! r2 = Some R2 ->
    unique R1 = unique R2 -> r1 = r2;
  (** a unique name is only owned by its remote *)
  w_private : forall v x o R, service_heap s !! v = Some x -> queue x = [o] ->
    remote_heap s !! o_remote o = Some R -> deref (s_name x) = COLON -> unique R = s_name x;
  (** the bus is there *)
  w_bus : exists b R, busRemote s = Some b /\ remote_heap s !! b = Some R /\ unique R = BUS_NAME /\
    haveHello R = true }.

(** What a caller has to respect: the remote is connected, says hello once and
    before anything else, and does not ask for a unique name (the RequestName
    handler refuses those). *)
Definition legal (s : Server) (o : op) : Prop :=
  match o with
  | Connect => nextRemote s + 1 < 2 ^ 32
  | SayHello r => exists R, remote_heap s !! r = Some R /\ haveHello R = false
  | Request r n f => (exists R, remote_heap s !! r = Some R /\ haveHello R = true) /\ plain_flags f /\ deref n <> COLON
  | Release r n => exists R, remote_heap s !! r = Some R
  | Disconnect r => (exists R, remote_heap s !! r = Some R) /\ busRemote s <> Some r
  end.
