(* ===== verification/Registry.v ===== *)
(** The table of names of the bus implements an abstract map from names to
    owners, for clients that neither wait in a queue nor replace an owner:
    every operation returns, uses only live objects, changes the map as
    specified, and emits the matching signals. *)

From Stdlib Require Import ZArith Lia.
From stdpp Require Import base option list numbers strings gmap.
From S2P Require Import Prelude Text MatchRule Buffer Server.
Open Scope Z_scope.

(** ** Small steps *)
Section Steps.
Context {B : Build}.

Lemma get_remote_ok (r : rid) (R : Remote) (s : Server) : remote_heap s !! r = Some R ->
  get_remote r s = Ret R s.
Proof. intros H. unfold get_remote. rewrite (bind_Ret get _ s s s eq_refl). by rewrite H. Qed.

Lemma get_service_ok (v : sid) (x : Service) (s : Server) : service_heap s !! v = Some x ->
  get_service v s = Ret x s.
Proof. intros H. unfold get_service. rewrite (bind_Ret get _ s s s eq_refl). by rewrite H. Qed.

Lemma with_remotes_id (s : Server) : with_remotes (remotes s) (remote_heap s) s = s.
Proof. by destruct s. Qed.

Lemma put_remote_id (r : rid) (R : Remote) (s : Server) : remote_heap s !! r = Some R ->
  put_remote r R s = Ret tt s.
Proof. intros H. unfold put_remote, modify. by rewrite insert_id, with_remotes_id. Qed.

(** The signals of one change of owner. *)
Definition change_signals (name : list Z) (o n : option Remote) : list BusSignal :=
  [NameOwnerChanged name (owner_name o) (owner_name n)] ++
  (match o with Some x => [NameLost (unique x) name] | None => [] end) ++
  (match n with Some x => [NameAcquired (unique x) name] | None => [] end).

Definition live (s : Server) (r : option rid) (R : option Remote) : Prop :=
  match r, R with
  | Some r, Some R => remote_heap s !! r = Some R /\ haveHello R = true
  | None, None => True
  | _, _ => False
  end.

Lemma get_owner_ok (r : option rid) (R : option Remote) (s : Server) : live s r R ->
  get_owner r s = Ret R s.
Proof.
  destruct r as [r|], R as [R|]; cbn; try done. intros [H _]. unfold get_owner.
  by rewrite (bind_Ret _ _ _ _ _ (get_remote_ok _ _ _ H)).
Qed.

(** All signals of a change at once. *)
Lemma emits_run (name : list Z) (Ro Rn : option Remote) (s : Server) :
  (run* emit [NameOwnerChanged name (owner_name Ro) (owner_name Rn)] in
   run* (match Ro with Some x => emit [NameLost (unique x) name] | None => ret tt end) in
   match Rn with Some x => emit [NameAcquired (unique x) name] | None => ret tt end) s = Ret tt (add_signals (change_signals name Ro Rn) s).
Proof.
  unfold change_signals, emit, add_signals, bind, modify, ret.
  destruct Ro, Rn; cbn [busRemote helloRemote names remotes nextRemote service_heap remote_heap next_id signals owner_name app]; rewrite <- ?app_assoc; reflexivity.
Qed.

Lemma ownerchanged_ok (name : list Z) (o n : option rid) (Ro Rn : option Remote) (s : Server) :
  live s o Ro -> live s n Rn ->
  adbusI_serv_ownerchanged name o n s = Ret tt (add_signals (change_signals name Ro Rn) s).
Proof.
  intros Ho Hn. unfold adbusI_serv_ownerchanged. rewrite (bind_Ret _ _ _ _ _ (get_owner_ok _ _ _ Hn)).
  rewrite (bind_Ret (assert_ _) _ s s tt).
  2:{ apply assert_true. destruct n, Rn; cbn in Hn; try done. by destruct Hn. }
  rewrite (bind_Ret _ _ _ _ _ (get_owner_ok _ _ _ Ho)).
  assert (Eo : (match Ro with Some x => if haveHello x then Some x else None | None => None end) = Ro).
  { destruct o, Ro; cbn in Ho; try done. by destruct Ho as [_ ->]. }
  rewrite Eo. apply emits_run.
Qed.

Lemma remove_first_notin (x : nat) (l : list nat) : x ∉ l -> remove_first x l = l.
Proof.
  induction l as [|y l IH]; intros H; [done|]. cbn [remove_first].
  destruct (Nat.eqb_spec y x) as [->|]; [set_solver|]. rewrite IH; set_solver.
Qed.

Lemma elem_of_remove_first (x y : nat) (l : list nat) : NoDup l ->
  y ∈ remove_first x l <-> y ∈ l /\ y <> x.
Proof.
  induction 1 as [|z l Hz Hl IH]; [set_solver|]. cbn [remove_first].
  destruct (Nat.eqb_spec z x) as [->|]; [set_solver|]. rewrite !elem_of_cons, IH. set_solver.
Qed.

Lemma NoDup_remove_first (x : nat) (l : list nat) : NoDup l -> NoDup (remove_first x l).
Proof.
  induction 1 as [|z l Hz Hl IH]; [constructor|]. cbn [remove_first].
  destruct (Nat.eqb_spec z x); [done|]. constructor; [|done]. rewrite elem_of_remove_first by done. set_solver.
Qed.

Lemma length_remove_first (x : nat) (l : list nat) : x ∈ l -> S (length (remove_first x l)) = length l.
Proof.
  induction l as [|y l IH]; intros H; [set_solver|]. cbn [remove_first].
  destruct (Nat.eqb_spec y x); [done|]. cbn [length]. rewrite IH; [done|set_solver].
Qed.

(** The bug in the loop: the remote is not the owner, so nothing is found. *)
Lemma release_loop_none (r : rid) (v : sid) (o : ServiceOwner) (q : list ServiceOwner) (n : nat) :
  o_remote o <> r -> forall i s, release_loop r v (o :: q) i n s = Ret ADBUS_SERVICE_RELEASE_NOT_OWNER s.
Proof.
  intros H. induction n as [|n IH]; intros i s; [done|]. cbn [release_loop].
  by rewrite (proj2 (Nat.eqb_neq _ _) H).
Qed.
End Steps.

(** ** The invariant, part by part

    The part about remotes only looks at names and flags of remotes; it
    survives a change of the list of services. *)
Record wf_remotes (s : Server) : Prop := {
  wr_ids : forall r, is_Some (remote_heap s !! r) -> (r < next_id s)%nat;
  wr_list : NoDup (remotes s) /\ forall r, r ∈ remotes s <-> is_Some (remote_heap s !! r);
  wr_number : 0 <= nextRemote s < 2 ^ 32;
  wr_unique : forall r R, remote_heap s !! r = Some R ->
    unique R = BUS_NAME \/ exists k, unique R = str ":1." ++ dec k /\ 0 <= k < nextRemote s;
  wr_distinct : forall r1 r2 R1 R2, remote_heap s !! r1 = Some R1 -> remote_heap s !! r2 = Some R2 ->
    unique R1 = unique R2 -> r1 = r2;
  wr_bus : exists b R, busRemote s = Some b /\ remote_heap s !! b = Some R /\ unique R = BUS_NAME /\
    haveHello R = true }.

(** The links between names, services and remotes. *)
Record wf_links (s : Server) : Prop := {
  wl_names : forall n v, names s !! n = Some v -> exists x, service_heap s !! v = Some x /\ s_name x = n;
  wl_heap : forall v x, service_heap s !! v = Some x -> names s !! s_name x = Some v;
  wl_owner : forall v x, service_heap s !! v = Some x ->
    exists o R, queue x = [o] /\ remote_heap s !! o_remote o = Some R /\ haveHello R = true /\ v ∈ services R;
  wl_services : forall r R, remote_heap s !! r = Some R ->
    NoDup (services R) /\ forall v, v ∈ services R ->
      exists x o, service_heap s !! v = Some x /\ queue x = [o] /\ o_remote o = r;
  wl_ids : forall v, is_Some (service_heap s !! v) -> (v < next_id s)%nat;
  wl_private : forall v x o R, service_heap s !! v = Some x -> queue x = [o] ->
    remote_heap s !! o_remote o = Some R -> deref (s_name x) = COLON -> unique R = s_name x }.

Lemma wf_split (s : Server) : wf_server s <-> wf_remotes s /\ wf_links s.
Proof.
  split.
  - intros [H1 H2 H3 H4 [H5 H6] H7 H8 H9 H10 H11 H12]. split; constructor; assumption.
  - intros [[] []]. by constructor.
Qed.

(** ** The table and its abstract map *)
Section Table.
Context (s : Server) (W : wf_links s).

Lemma owner_some (n : list Z) (r : rid) : owner s n = Some r <->
  exists v x o, names s !! n = Some v /\ service_heap s !! v = Some x /\ s_name x = n /\
    queue x = [o] /\ o_remote o = r.
Proof.
  unfold owner. split.
  - destruct (names s !! n) as [v|] eqn:En; [|done].
    destruct (wl_names s W n v En) as (x & Ex & Hn). rewrite Ex.
    destruct (wl_owner s W v x Ex) as (o & R & Hq & _). rewrite Hq. intros [= <-]. by exists v, x, o.
  - intros (v & x & o & -> & -> & _ & -> & <-). done.
Qed.

Lemma owner_none (n : list Z) : owner s n = None <-> names s !! n = None.
Proof.
  unfold owner. destruct (names s !! n) as [v|] eqn:En; [|done].
  destruct (wl_names s W n v En) as (x & Ex & Hn). rewrite Ex.
  destruct (wl_owner s W v x Ex) as (o & R & Hq & _). by rewrite Hq.
Qed.

Lemma heap_inj (v v' : sid) (x x' : Service) : service_heap s !! v = Some x -> service_heap s !! v' = Some x' ->
  s_name x = s_name x' -> v = v'.
Proof. intros H H' E. apply (wl_heap s W) in H. apply (wl_heap s W) in H'. rewrite E in H. congruence. Qed.
End Table.

(** ** Releasing a name *)

(** The state after the owner [r] released [n]. *)
Definition released (s : Server) (r : rid) (R : Remote) (n : list Z) (v : sid) : Server :=
  add_signals (change_signals n (Some R) None)
    (with_names (delete n (names s)) (delete v (service_heap s))
      (with_remotes (remotes s) (<[r := set_services (remove_first v (services R)) R]> (remote_heap s)) s)).

Section Release.
Context {B : Build} (s : Server) (W : wf_links s) (r : rid) (R : Remote) (HR : remote_heap s !! r = Some R).

Lemma not_owner_services (v : sid) (x : Service) (o : ServiceOwner) :
  service_heap s !! v = Some x -> queue x = [o] -> o_remote o <> r -> v ∉ services R.
Proof.
  intros Hx Hq Hne Hin. destruct (wl_services s W r R HR) as [_ H].
  destruct (H v Hin) as (x' & o' & Hx' & Hq' & Ho). congruence.
Qed.

Lemma release_other (n : list Z) : owner s n <> Some r ->
  adbusI_serv_releasename r n s = Ret (match owner s n with
    | None => ADBUS_SERVICE_RELEASE_INVALID_NAME | Some _ => ADBUS_SERVICE_RELEASE_NOT_OWNER end) s.
Proof.
  intros Hne. unfold adbusI_serv_releasename. rewrite (bind_Ret get _ s s s eq_refl).
  destruct (owner s n) as [o|] eqn:Eo.
  - apply owner_some in Eo as (v & x & q & Hn & Hx & _ & Hq & Ho); [|done]. rewrite Hn. subst o.
    assert (Hne' : o_remote q <> r) by congruence.
    unfold adbusI_serv_removeServiceFromRemote. rewrite bind_assoc, (bind_Ret _ _ _ _ _ (get_remote_ok _ _ _ HR)).
    rewrite remove_first_notin by (by eapply not_owner_services).
    assert (ER : set_services (services R) R = R) by (by destruct R). rewrite ER.
    rewrite (bind_Ret _ _ _ _ _ (put_remote_id _ _ _ HR)), (bind_Ret _ _ _ _ _ (get_service_ok _ _ _ Hx)).
    rewrite Hq, (proj2 (Nat.eqb_neq _ _) Hne'). by apply release_loop_none.
  - apply owner_none in Eo; [|done]. by rewrite Eo.
Qed.

Lemma release_own (n : list Z) : owner s n = Some r ->
  exists v x, names s !! n = Some v /\ service_heap s !! v = Some x /\ v ∈ services R /\
  adbusI_serv_releasename r n s = Ret ADBUS_SERVICE_SUCCESS (released s r R n v).
Proof.
  intros Ho. apply owner_some in Ho as (v & x & o & Hn & Hx & Hname & Hq & Ho); [|done].
  destruct (wl_owner s W v x Hx) as (o' & R' & Hq' & HR' & Hh & Hin).
  assert (o' = o) as -> by congruence. rewrite Ho, HR in HR'. injection HR' as <-.
  exists v, x. split; [done|]. split; [done|]. split; [done|].
  unfold adbusI_serv_releasename. rewrite (bind_Ret get _ s s s eq_refl), Hn.
  unfold adbusI_serv_removeServiceFromRemote. rewrite bind_assoc, (bind_Ret _ _ _ _ _ (get_remote_ok _ _ _ HR)).
  erewrite bind_Ret by reflexivity. set (s1 := with_remotes _ _ s).
  assert (Hx1 : service_heap s1 !! v = Some x) by done.
  rewrite (bind_Ret _ _ _ _ _ (get_service_ok _ _ _ Hx1)). rewrite Hq, (proj2 (Nat.eqb_eq _ _) Ho).
  erewrite bind_Ret by reflexivity. set (s2 := with_names _ _ s1).
  set (R' := set_services (remove_first v (services R)) R).
  assert (HR2 : remote_heap s2 !! r = Some R') by apply lookup_insert_eq.
  assert (Hlive : live s2 (Some r) (Some R')) by done.
  rewrite (bind_Ret (bind _ _) _ s2 (released s r R n v) tt); [done|].
  rewrite (bind_Ret _ _ _ _ _ (ownerchanged_ok _ _ None _ None _ Hlive I)).
  unfold s2, s1, modify, released, add_signals, with_names, with_remotes.
  cbn [busRemote helloRemote names remotes nextRemote service_heap remote_heap next_id signals].
  rewrite delete_insert_eq, Hname. reflexivity.
Qed.
End Release.

(** Replacing a remote by one of the same name and hello flag. *)
Lemma wf_remotes_update (s s' : Server) (r : rid) (R R' : Remote) :
  remote_heap s !! r = Some R -> unique R' = unique R -> (haveHello R = true -> haveHello R' = true) ->
  remote_heap s' = <[r := R']> (remote_heap s) -> remotes s' = remotes s -> nextRemote s' = nextRemote s ->
  busRemote s' = busRemote s -> (next_id s <= next_id s')%nat -> wf_remotes s -> wf_remotes s'.
Proof.
  intros HR Hu Hh Eh Er En Eb Ei W.
  assert (Hback : forall q Q, remote_heap s' !! q = Some Q ->
    exists Q0, remote_heap s !! q = Some Q0 /\ unique Q = unique Q0).
  { intros q Q H. rewrite Eh in H. apply lookup_insert_Some in H as [[<- <-]|[_ H]]; eauto. }
  assert (Hfwd : forall q Q0, remote_heap s !! q = Some Q0 ->
    exists Q, remote_heap s' !! q = Some Q /\ unique Q = unique Q0 /\
      (haveHello Q0 = true -> haveHello Q = true)).
  { intros q Q0 H. rewrite Eh. destruct (decide (q = r)) as [->|Hne].
    - rewrite lookup_insert_eq. exists R'. by rewrite H in HR; injection HR as <-.
    - rewrite lookup_insert_ne by done. eauto. }
  assert (Hsome : forall q, is_Some (remote_heap s' !! q) <-> is_Some (remote_heap s !! q)).
  { intros q. split; intros [Q H]; [destruct (Hback _ _ H) as (?&?&_)|destruct (Hfwd _ _ H) as (?&?&_)]; eauto. }
  constructor.
  - intros q Hq. apply Hsome, (wr_ids s W) in Hq. lia.
  - rewrite Er. split; [apply (wr_list s W)|]. intros q. rewrite Hsome. apply (wr_list s W).
  - rewrite En. apply (wr_number s W).
  - intros q Q H. destruct (Hback _ _ H) as (Q0 & H0 & ->). rewrite En. by eapply (wr_unique s W).
  - intros q1 q2 Q1 Q2 H1 H2. destruct (Hback _ _ H1) as (P1 & G1 & ->).
    destruct (Hback _ _ H2) as (P2 & G2 & ->). by eapply (wr_distinct s W).
  - destruct (wr_bus s W) as (b & Q0 & Hb & HQ & Hu0 & Hh0). destruct (Hfwd _ _ HQ) as (Q & H & Hu' & Hh').
    exists b, Q. rewrite Eb, Hu'. auto.
Qed.

Section WfReleased.
Context (s : Server) (W : wf_links s) (r : rid) (R : Remote) (HR : remote_heap s !! r = Some R).
Context (n : list Z) (v : sid) (x : Service) (Hn : names s !! n = Some v) (Hx : service_heap s !! v = Some x).
Context (Hv : v ∈ services R).

Lemma released_links : wf_links (released s r R n v).
Proof.
  destruct (wl_names s W n v Hn) as (x0 & Hx0 & Hxn). rewrite Hx in Hx0. injection Hx0 as <-.
  destruct (wl_services s W r R HR) as [Hnd Hsv].
  destruct (Hsv v Hv) as (x1 & o & Hx1 & Hq & Ho). rewrite Hx in Hx1. injection Hx1 as <-.
  constructor; cbn [released add_signals with_names with_remotes names service_heap remote_heap next_id].
  - intros n' v' H. apply lookup_delete_Some in H as [Hne H].
    destruct (wl_names s W n' v' H) as (x' & Hx' & Hn'). exists x'. split; [|done].
    rewrite lookup_delete_ne; [done|]. intros ->. congruence.
  - intros v' x' H. apply lookup_delete_Some in H as [Hne H].
    rewrite lookup_delete_ne; [by apply (wl_heap s W)|]. intros E.
    apply (wl_heap s W) in H. rewrite <- E in H. congruence.
  - intros v' x' H. apply lookup_delete_Some in H as [Hne H].
    destruct (wl_owner s W v' x' H) as (o' & R0 & Hq' & HR0 & Hh & Hin). exists o'.
    destruct (decide (o_remote o' = r)) as [E|Hr].
    + rewrite E, lookup_insert_eq. rewrite E, HR in HR0. injection HR0 as <-.
      eexists. split; [done|]. split; [done|]. split; [done|]. cbn [services set_services].
      apply elem_of_remove_first; [done|]. split; [done|congruence].
    + rewrite lookup_insert_ne by done. exists R0. done.
  - intros r' R0 H. apply lookup_insert_Some in H as [[<- <-]|[Hr H]].
    + cbn [services set_services]. split; [by apply NoDup_remove_first|]. intros v' Hin.
      apply elem_of_remove_first in Hin as [Hin Hne]; [|done].
      destruct (Hsv v' Hin) as (x' & o' & Hx' & Hq' & Ho'). exists x', o'.
      rewrite lookup_delete_ne by congruence. done.
    + destruct (wl_services s W r' R0 H) as [Hnd' Hsv']. split; [done|]. intros v' Hin.
      destruct (Hsv' v' Hin) as (x' & o' & Hx' & Hq' & Ho'). exists x', o'.
      rewrite lookup_delete_ne; [done|]. intros <-. congruence.
  - intros v' [y H]. apply lookup_delete_Some in H as [_ H]. apply (wl_ids s W). by exists y.
  - intros v' x' o' R' H Hq' HR' Hc. apply lookup_delete_Some in H as [Hne H].
    apply lookup_insert_Some in HR' as [[E <-]|[_ HR']]; [|by eapply (wl_private s W)].
    apply (wl_private s W v' x' o' R); [done|done|by rewrite <- E|done].
Qed.

Lemma released_owner (n' : list Z) : owner (released s r R n v) n' = if decide (n' = n) then None else owner s n'.
Proof.
  pose proof released_links as W'. destruct (decide (n' = n)) as [->|Hne].
  - apply owner_none; [done|]. cbn. apply lookup_delete_eq.
  - unfold owner. cbn [released add_signals with_names with_remotes names service_heap].
    rewrite lookup_delete_ne by done. destruct (names s !! n') as [v'|] eqn:E; [|done].
    rewrite lookup_delete_ne; [done|]. intros ->.
    destruct (wl_names s W n' _ E) as (y & Hy & Hn'). destruct (wl_names s W n _ Hn) as (z & Hz & Hz'). congruence.
Qed.
End WfReleased.

Lemma released_wf (s : Server) (r : rid) (R : Remote) (n : list Z) (v : sid) (x : Service) :
  wf_server s -> remote_heap s !! r = Some R -> names s !! n = Some v -> service_heap s !! v = Some x ->
  v ∈ services R -> wf_server (released s r R n v).
Proof.
  intros W HR Hn Hx Hv. apply wf_split in W as [W1 W2]. apply wf_split. split; [|by eapply released_links].
  by apply (wf_remotes_update s _ r R (set_services (remove_first v (services R)) R)).
Qed.

(** ** Requesting a name *)

(** A free name. *)
Definition acquired (s : Server) (r : rid) (R : Remote) (n : list Z) (a : bool) : Server :=
  let v := next_id s in
  mkServer (busRemote s) (helloRemote s) (<[n := v]> (names s)) (remotes s) (nextRemote s)
    (<[v := mkService [mkOwner r a] n]> (service_heap s))
    (<[r := set_services (services R ++ [v]) R]> (remote_heap s)) (S v)
    (signals s ++ change_signals n None (Some R)).

(** One's own name: the flag is updated. *)
Definition kept (s : Server) (r : rid) (v : sid) (x : Service) (a : bool) : Server :=
  with_names (names s) (<[v := set_queue [mkOwner r a] x]> (service_heap s)) s.

Section Acquire.
Context (s : Server) (W : wf_links s) (r : rid) (R : Remote) (HR : remote_heap s !! r = Some R).
Context (Hh : haveHello R = true) (n : list Z) (Hn : names s !! n = None) (a : bool).

Lemma fresh_service : service_heap s !! next_id s = None.
Proof.
  destruct (service_heap s !! next_id s) as [x|] eqn:E; [|done].
  pose proof (wl_ids s W (next_id s) ltac:(by exists x)). lia.
Qed.

Lemma fresh_not_in (r' : rid) (R' : Remote) : remote_heap s !! r' = Some R' -> next_id s ∉ services R'.
Proof.
  intros H Hin. destruct (wl_services s W r' R' H) as [_ Hs].
  destruct (Hs _ Hin) as (x & o & Hx & _). pose proof fresh_service. congruence.
Qed.

Lemma acquired_links : (deref n = COLON -> unique R = n) -> wf_links (acquired s r R n a).
Proof.
  intros Hpriv. pose proof fresh_service as Hf. set (v := next_id s) in *.
  constructor; cbn [acquired names service_heap remote_heap next_id]; fold v.
  - intros n' v' H. apply lookup_insert_Some in H as [[<- <-]|[Hne H]].
    + rewrite lookup_insert_eq. by eexists.
    + destruct (wl_names s W n' v' H) as (x' & Hx' & Hn'). exists x'.
      rewrite lookup_insert_ne; [done|congruence].
  - intros v' x' H. apply lookup_insert_Some in H as [[<- <-]|[Hne H]]; [apply lookup_insert_eq|].
    rewrite lookup_insert_ne; [by apply (wl_heap s W)|]. intros E.
    apply (wl_heap s W) in H. congruence.
  - intros v' x' H. apply lookup_insert_Some in H as [[<- <-]|[Hne H]].
    + exists (mkOwner r a), (set_services (services R ++ [v]) R). cbn [o_remote queue].
      rewrite lookup_insert_eq. split; [done|]. split; [done|]. split; [done|]. cbn. set_solver.
    + destruct (wl_owner s W v' x' H) as (o' & R0 & Hq' & HR0 & Hh0 & Hin). exists o'.
      destruct (decide (o_remote o' = r)) as [E|Hr].
      * rewrite E, lookup_insert_eq. rewrite E, HR in HR0. injection HR0 as <-.
        eexists. split; [done|]. split; [done|]. split; [done|]. cbn. set_solver.
      * rewrite lookup_insert_ne by done. by exists R0.
  - intros r' R0 H. apply lookup_insert_Some in H as [[<- <-]|[Hr H]].
    + destruct (wl_services s W r R HR) as [Hnd Hs]. cbn [services set_services]. split.
      { apply NoDup_app. split; [done|]. split; [|apply NoDup_singleton].
        intros y Hy ->%list_elem_of_singleton. by apply (fresh_not_in r R HR). }
      intros v' [Hin| ->%list_elem_of_singleton]%elem_of_app.
      * destruct (Hs v' Hin) as (x' & o' & Hx' & Hq' & Ho'). exists x', o'.
        rewrite lookup_insert_ne by congruence. done.
      * exists (mkService [mkOwner r a] n), (mkOwner r a). by rewrite lookup_insert_eq.
    + destruct (wl_services s W r' R0 H) as [Hnd Hs]. split; [done|]. intros v' Hin.
      destruct (Hs v' Hin) as (x' & o' & Hx' & Hq' & Ho'). exists x', o'.
      rewrite lookup_insert_ne by congruence. done.
  - intros v' [y H]. apply lookup_insert_Some in H as [[<- _]|[_ H]]; [lia|].
    assert (v' < v)%nat by (apply (wl_ids s W); by exists y). lia.
  - intros v' x' o' R' H Hq' HR' Hc. apply lookup_insert_Some in H as [[<- <-]|[Hne H]].
    + cbn in Hq'. injection Hq' as <-. cbn [o_remote] in HR'. rewrite lookup_insert_eq in HR'.
      injection HR' as <-. by apply Hpriv.
    + apply lookup_insert_Some in HR' as [[E <-]|[_ HR']]; [|by eapply (wl_private s W)].
      apply (wl_private s W v' x' o' R); [done|done|by rewrite <- E|done].
Qed.
End Acquire.

Lemma acquired_wf (s : Server) (r : rid) (R : Remote) (n : list Z) (a : bool) :
  wf_server s -> remote_heap s !! r = Some R -> haveHello R = true -> names s !! n = None ->
  (deref n = COLON -> unique R = n) -> wf_server (acquired s r R n a).
Proof.
  intros W HR Hh Hn Hp. apply wf_split in W as [W1 W2]. apply wf_split.
  split; [|by apply acquired_links].
  apply (wf_remotes_update s _ r R (set_services (services R ++ [next_id s]) R)); try done.
  cbn. lia.
Qed.

Lemma kept_wf (s : Server) (r : rid) (v : sid) (x : Service) (o : ServiceOwner) (a : bool) :
  wf_server s -> service_heap s !! v = Some x -> queue x = [o] -> o_remote o = r -> wf_server (kept s r v x a).
Proof.
  intros W Hx Hq Ho. apply wf_split in W as [W1 W2]. apply wf_split.
  split; [destruct W1; by constructor|].
  constructor; cbn [kept with_names names service_heap remote_heap next_id].
  - intros n' v' H. destruct (wl_names s W2 n' v' H) as (x' & Hx' & Hn').
    destruct (decide (v' = v)) as [->|Hne].
    + rewrite lookup_insert_eq. eexists. split; [done|]. cbn. congruence.
    + rewrite lookup_insert_ne by done. by exists x'.
  - intros v' x' H. apply lookup_insert_Some in H as [[<- <-]|[Hne H]];
      [exact (wl_heap s W2 v x Hx)|by apply (wl_heap s W2)].
  - intros v' x' H. apply lookup_insert_Some in H as [[<- <-]|[Hne H]]; [|by apply (wl_owner s W2)].
    destruct (wl_owner s W2 v x Hx) as (o' & R0 & Hq' & H). exists (mkOwner r a), R0. cbn.
    assert (o' = o) as -> by congruence. by rewrite <- Ho.
  - intros r' R0 H. destruct (wl_services s W2 r' R0 H) as [Hnd Hs]. split; [done|]. intros v' Hin.
    destruct (Hs v' Hin) as (x' & o' & Hx' & Hq' & Ho'). destruct (decide (v' = v)) as [->|Hne].
    + rewrite lookup_insert_eq. eexists _, (mkOwner r a). split; [done|]. split; [done|]. cbn. congruence.
    + rewrite lookup_insert_ne by done. by exists x', o'.
  - intros v' [y H]. apply (wl_ids s W2). apply lookup_insert_Some in H as [[<- _]|[_ H]]; by eexists.
  - intros v' x' o' R' H Hq' HR' Hc. apply lookup_insert_Some in H as [[<- <-]|[Hne H]].
    + cbn in Hq'. injection Hq' as <-. cbn [o_remote] in HR'. cbn [set_queue s_name] in *.
      apply (wl_private s W2 v x o R'); [done|done|by rewrite Ho|done].
    + by eapply (wl_private s W2).
Qed.

Lemma acquired_owner (s : Server) (r : rid) (R : Remote) (n n' : list Z) (a : bool) : wf_links s ->
  owner (acquired s r R n a) n' = if decide (n' = n) then Some r else owner s n'.
Proof.
  intros W. unfold owner. cbn [acquired names service_heap]. destruct (decide (n' = n)) as [->|Hne].
  - by rewrite !lookup_insert_eq.
  - rewrite lookup_insert_ne by done. destruct (names s !! n') as [v'|] eqn:E; [|done].
    rewrite lookup_insert_ne; [done|]. intros <-.
    destruct (wl_names s W n' _ E) as (y & Hy & _). pose proof (fresh_service s W). congruence.
Qed.

Lemma kept_owner (s : Server) (r : rid) (v : sid) (x : Service) (o : ServiceOwner) (a : bool) (n' : list Z) :
  service_heap s !! v = Some x -> queue x = [o] -> o_remote o = r ->
  owner (kept s r v x a) n' = owner s n'.
Proof.
  intros Hx Hq Ho. unfold owner. cbn [kept with_names names service_heap].
  destruct (names s !! n') as [v'|]; [|done]. destruct (decide (v' = v)) as [->|Hne].
  - rewrite lookup_insert_eq, Hx, Hq. cbn. by rewrite Ho.
  - by rewrite lookup_insert_ne.
Qed.

(** ** The operations refine the abstract table *)

(** Request by [r]: result, new owner of the name. *)
Definition request_spec (o : option rid) (r : rid) : Z * option rid :=
  match o with
  | None => (ADBUS_SERVICE_SUCCESS, Some r)
  | Some q => if decide (q = r) then (ADBUS_SERVICE_REQUEST_ALREADY_OWNER, Some r)
              else (ADBUS_SERVICE_REQUEST_FAILED, Some q)
  end.

Definition release_spec (o : option rid) (r : rid) : Z * option rid :=
  match o with
  | None => (ADBUS_SERVICE_RELEASE_INVALID_NAME, None)
  | Some q => if decide (q = r) then (ADBUS_SERVICE_SUCCESS, None)
              else (ADBUS_SERVICE_RELEASE_NOT_OWNER, Some q)
  end.

(** The same remotes, that differ in their services only. *)
Definition same_remotes (s s' : Server) : Prop :=
  remotes s' = remotes s /\ busRemote s' = busRemote s /\ helloRemote s' = helloRemote s /\
  forall q, match remote_heap s !! q, remote_heap s' !! q with
            | Some Q, Some Q' => Q' = set_services (services Q') Q
            | None, None => True
            | _, _ => False
            end.

Lemma same_remotes_refl (s s' : Server) : remotes s' = remotes s -> busRemote s' = busRemote s ->
  helloRemote s' = helloRemote s -> remote_heap s' = remote_heap s -> same_remotes s s'.
Proof.
  intros E1 E2 E3 E4. split; [done|]. split; [done|]. split; [done|]. intros q. rewrite E4.
  destruct (remote_heap s !! q) as [Q|]; [by destruct Q|done].
Qed.

Lemma same_remotes_one (s s' : Server) (r : rid) (R : Remote) (l : list sid) : remote_heap s !! r = Some R ->
  remotes s' = remotes s -> busRemote s' = busRemote s -> helloRemote s' = helloRemote s ->
  remote_heap s' = <[r := set_services l R]> (remote_heap s) -> same_remotes s s'.
Proof.
  intros HR E1 E2 E3 E4. split; [done|]. split; [done|]. split; [done|]. intros q. rewrite E4.
  destruct (decide (q = r)) as [->|Hne].
  - by rewrite lookup_insert_eq, HR.
  - rewrite lookup_insert_ne by done. destruct (remote_heap s !! q) as [Q|]; [by destruct Q|done].
Qed.

(** The signals for a change of owner of [n] from [o] to [o']. *)
Definition spec_signals (s : Server) (n : list Z) (o o' : option rid) : list BusSignal :=
  if decide (o = o') then []
  else change_signals n (o ≫= fun r => remote_heap s !! r) (o' ≫= fun r => remote_heap s !! r).

Section Refine.
Context {B : Build}.

Lemma put_name_known (n : list Z) (v : sid) (s : Server) : names s !! n = Some v -> put_name n s = Ret v s.
Proof. intros H. unfold put_name. rewrite (bind_Ret get _ s s s eq_refl). by rewrite H. Qed.

Lemma request_free (s : Server) (r : rid) (R : Remote) (n : list Z) (f : Z) :
  remote_heap s !! r = Some R -> haveHello R = true -> names s !! n = None ->
  adbusI_serv_requestname r n f s =
    Ret ADBUS_SERVICE_SUCCESS (acquired s r R n (flag f ADBUS_SERVICE_ALLOW_REPLACEMENT)).
Proof.
  intros HR Hh Hn. unfold adbusI_serv_requestname.
  rewrite (bind_Ret (put_name n) _ s (mkServer (busRemote s) (helloRemote s) (<[n := next_id s]> (names s)) (remotes s)
    (nextRemote s) (<[next_id s := mkService [] n]> (service_heap s)) (remote_heap s) (S (next_id s)) (signals s)) (next_id s)).
  2:{ unfold put_name. rewrite (bind_Ret get _ s s s eq_refl). by rewrite Hn. }
  erewrite bind_Ret by (apply get_service_ok; cbn; apply lookup_insert_eq). cbn [queue].
  erewrite bind_Ret.
  2:{ unfold push_service. erewrite bind_Ret by (apply get_remote_ok; exact HR). reflexivity. }
  erewrite bind_Ret by reflexivity.
  rewrite (bind_Ret (adbusI_serv_ownerchanged n None (Some r)) _ _
    (acquired s r R n (flag f ADBUS_SERVICE_ALLOW_REPLACEMENT)) tt); [done|].
  rewrite (ownerchanged_ok n None (Some r) None (Some (set_services (services R ++ [next_id s]) R))).
  - unfold add_signals, acquired, with_names, with_remotes, set_queue.
    cbn [busRemote helloRemote names remotes nextRemote service_heap remote_heap next_id signals s_name].
    by rewrite insert_insert_eq.
  - done.
  - cbn. by rewrite lookup_insert_eq.
Qed.

Lemma request_taken (s : Server) (r : rid) (R : Remote) (n : list Z) (f : Z) (q : rid) :
  wf_server s -> remote_heap s !! r = Some R -> plain_flags f -> owner s n = Some q ->
  exists v x o, names s !! n = Some v /\ service_heap s !! v = Some x /\ queue x = [o] /\ o_remote o = q /\
  adbusI_serv_requestname r n f s =
    if decide (q = r) then Ret ADBUS_SERVICE_REQUEST_ALREADY_OWNER
      (kept s r v x (flag f ADBUS_SERVICE_ALLOW_REPLACEMENT))
    else Ret ADBUS_SERVICE_REQUEST_FAILED s.
Proof.
  intros W HR [Hf1 Hf2] Ho. pose proof W as [_ Wl]%wf_split. pose proof Ho as Ho'.
  apply owner_some in Ho as (v & x & o & Hn & Hx & Hname & Hq & Ho); [|done].
  exists v, x, o. split; [done|]. split; [done|]. split; [done|]. split; [done|].
  unfold adbusI_serv_requestname. rewrite (bind_Ret _ _ _ _ _ (put_name_known _ _ _ Hn)).
  rewrite (bind_Ret _ _ _ _ _ (get_service_ok _ _ _ Hx)), Hq.
  destruct (decide (q = r)) as [E|E].
  - rewrite (proj2 (Nat.eqb_eq _ _)) by congruence. reflexivity.
  - rewrite (proj2 (Nat.eqb_neq _ _)) by congruence. rewrite Hf1, Hf2. cbn [andb negb].
    rewrite Hname. rewrite (bind_Ret _ _ _ _ _ (release_other s Wl r R HR n ltac:(congruence))). done.
Qed.

Lemma request_step (s : Server) (r : rid) (R : Remote) (n : list Z) (f : Z) :
  wf_server s -> remote_heap s !! r = Some R -> haveHello R = true -> plain_flags f ->
  (deref n = COLON -> unique R = n) ->
  exists s', adbusI_serv_requestname r n f s = Ret (fst (request_spec (owner s n) r)) s' /\
    wf_server s' /\
    (forall n', owner s' n' = if decide (n' = n) then snd (request_spec (owner s n) r) else owner s n') /\
    signals s' = signals s ++ spec_signals s n (owner s n) (snd (request_spec (owner s n) r)) /\
    same_remotes s s'.
Proof.
  intros W HR Hh Hf Hp. pose proof W as [_ Wl]%wf_split. destruct (owner s n) as [q|] eqn:Eo.
  - destruct (request_taken s r R n f q W HR Hf Eo) as (v & x & o & Hn & Hx & Hq & Ho & E).
    rewrite E. unfold request_spec, spec_signals. destruct (decide (q = r)) as [->|Hne].
    + eexists. split; [reflexivity|]. split; [by eapply kept_wf|]. split.
      * intros n'. rewrite (kept_owner _ _ _ _ _ _ _ Hx Hq Ho). by destruct (decide (n' = n)) as [->|].
      * cbn [snd]. rewrite decide_True, app_nil_r by done. split; [done|]. by apply same_remotes_refl.
    + eexists. split; [reflexivity|]. split; [done|]. split.
      * intros n'. by destruct (decide (n' = n)) as [->|].
      * cbn [snd]. rewrite decide_True, app_nil_r by done. split; [done|]. by apply same_remotes_refl.
  - apply owner_none in Eo; [|done]. rewrite (request_free s r R n f HR Hh Eo).
    eexists. split; [reflexivity|]. split; [by apply acquired_wf|]. split.
    + intros n'. by rewrite acquired_owner.
    + unfold spec_signals. unfold request_spec, mbind, option_bind. cbn [snd]. rewrite HR. split; [done|].
      by eapply same_remotes_one.
Qed.

(** RequestName refines the abstract table: for a client that does not
    queue and does not replace, the request returns success and makes it the
    owner when the name is free, reports it is already the owner, or fails and
    changes nothing when somebody else owns the name; every other name keeps
    its owner, the signals of exactly this change of owner are emitted, and
    the links between names, services and remotes stay intact; no remote
    changes otherwise. *)
Theorem request_refines (s : Server) (r : rid) (R : Remote) (n : list Z) (f : Z) :
  wf_server s -> remote_heap s !! r = Some R -> haveHello R = true -> plain_flags f ->
  (deref n = COLON -> unique R = n) ->
  exists s', adbusI_serv_requestname r n f s = Ret (fst (request_spec (owner s n) r)) s' /\
    wf_server s' /\
    (forall n', owner s' n' = if decide (n' = n) then snd (request_spec (owner s n) r) else owner s n') /\
    signals s' = signals s ++ spec_signals s n (owner s n) (snd (request_spec (owner s n) r)) /\
    same_remotes s s'.
Proof. exact (request_step s r R n f). Qed.

Lemma release_step (s : Server) (r : rid) (R : Remote) (n : list Z) :
  wf_server s -> remote_heap s !! r = Some R ->
  exists s', adbusI_serv_releasename r n s = Ret (fst (release_spec (owner s n) r)) s' /\
    wf_server s' /\
    (forall n', owner s' n' = if decide (n' = n) then snd (release_spec (owner s n) r) else owner s n') /\
    signals s' = signals s ++ spec_signals s n (owner s n) (snd (release_spec (owner s n) r)) /\
    same_remotes s s'.
Proof.
  intros W HR. pose proof W as [_ Wl]%wf_split. destruct (decide (owner s n = Some r)) as [Eo|Hne].
  - destruct (release_own s Wl r R HR n Eo) as (v & x & Hn & Hx & Hv & E). rewrite E, Eo.
    unfold release_spec. rewrite decide_True by done. eexists. split; [reflexivity|].
    split; [by eapply released_wf|]. split.
    + intros n'. by erewrite released_owner.
    + unfold spec_signals, mbind, option_bind. cbn [snd]. rewrite HR. split; [done|].
      by eapply same_remotes_one.
  - rewrite (release_other s Wl r R HR n Hne). unfold release_spec, spec_signals.
    destruct (owner s n) as [q|] eqn:Eo; [rewrite decide_False by congruence|];
      (eexists; split; [reflexivity|]; split; [done|]; split;
        [intros n'; by destruct (decide (n' = n)) as [->|]|]; cbn [snd]; rewrite decide_True, app_nil_r by done;
        split; [done|]; by apply same_remotes_refl).
Qed.

(** ReleaseName refines the abstract table: an owner's release succeeds,
    frees the name and emits the signals of that change; anybody else's
    release reports so and changes nothing; no remote changes otherwise. *)
Theorem release_refines (s : Server) (r : rid) (R : Remote) (n : list Z) :
  wf_server s -> remote_heap s !! r = Some R ->
  exists s', adbusI_serv_releasename r n s = Ret (fst (release_spec (owner s n) r)) s' /\
    wf_server s' /\
    (forall n', owner s' n' = if decide (n' = n) then snd (release_spec (owner s n) r) else owner s n') /\
    signals s' = signals s ++ spec_signals s n (owner s n) (snd (release_spec (owner s n) r)) /\
    same_remotes s s'.
Proof. exact (release_step s r R n). Qed.
End Refine.

(** ** Remotes that come and go *)
Section Life.
Context {B : Build}.

(** Changing a remote in what the links do not look at. *)
Lemma links_update (s s' : Server) (r : rid) (R R' : Remote) :
  wf_links s -> remote_heap s !! r = Some R -> unique R' = unique R -> services R' = services R ->
  (haveHello R = true -> haveHello R' = true) ->
  names s' = names s -> service_heap s' = service_heap s ->
  remote_heap s' = <[r := R']> (remote_heap s) -> next_id s' = next_id s -> wf_links s'.
Proof.
  intros W HR Hu Hs Hh En Eh Er Ei. constructor; rewrite ?En, ?Eh, ?Er, ?Ei; try apply W.
  - intros v x H. destruct (wl_owner s W v x H) as (o & R0 & Hq & HR0 & Hh0 & Hin). exists o.
    destruct (decide (o_remote o = r)) as [E|Hne].
    + exists R'. rewrite E, lookup_insert_eq. rewrite E, HR in HR0. injection HR0 as <-.
      rewrite Hs. auto.
    + exists R0. by rewrite lookup_insert_ne.
  - intros r' R0 H. apply lookup_insert_Some in H as [[<- <-]|[_ H]]; [|by apply (wl_services s W)].
    rewrite Hs. by apply (wl_services s W).
  - intros v x o R0 H Hq H0 Hc. apply lookup_insert_Some in H0 as [[E <-]|[_ H0]]; [|by eapply (wl_private s W)].
    rewrite Hu. apply (wl_private s W v x o R); [done|done|by rewrite <- E|done].
Qed.

(** What releasing all names of [r] leaves. *)
Record cleared (s s' : Server) (r : rid) (R : Remote) : Prop := {
  c_links : wf_links s';
  c_remote : exists R', remote_heap s' !! r = Some R' /\ services R' = [] /\ unique R' = unique R;
  c_others : forall q, q <> r -> remote_heap s' !! q = remote_heap s !! q;
  c_same : remotes s' = remotes s /\ nextRemote s' = nextRemote s /\ busRemote s' = busRemote s /\
           next_id s' = next_id s;
  c_owner : forall n, owner s' n = if decide (owner s n = Some r) then None else owner s n }.

Lemma release_all_ok (fuel : nat) : forall (s : Server) (r : rid) (R : Remote),
  wf_links s -> remote_heap s !! r = Some R -> (length (services R) <= fuel)%nat ->
  exists s', release_all fuel r s = Ret tt s' /\ cleared s s' r R.
Proof.
  induction fuel as [|fuel IH]; intros s r R W HR Hf; cbn [release_all];
    rewrite (bind_Ret _ _ _ _ _ (get_remote_ok _ _ _ HR));
    destruct (services R) as [|v l] eqn:Es; try (cbn in Hf; lia).
  1,2: exists s; split; [done|]; constructor; try done;
    [exists R; done|intros n; destruct (decide _) as [Eo|]; [|done];
     apply owner_some in Eo as (v & x & o & _ & Hx & _ & Hq & Ho); [|done];
     destruct (wl_owner s W v x Hx) as (o' & R0 & Hq' & HR0 & _ & Hin);
     assert (o' = o) as -> by congruence; rewrite Ho, HR in HR0; injection HR0 as <-; rewrite Es in Hin; by apply not_elem_of_nil in Hin].
  destruct (wl_services s W r R HR) as [Hnd Hsv]. destruct (Hsv v) as (x & o & Hx & Hq & Ho); [rewrite Es; by left|].
  pose proof (wl_heap s W v x Hx) as Hn. rewrite (bind_Ret _ _ _ _ _ (get_service_ok _ _ _ Hx)).
  assert (Eo : owner s (s_name x) = Some r) by (apply owner_some; [done|]; by exists v, x, o).
  destruct (release_own s W r R HR (s_name x) Eo) as (v' & x' & Hn' & Hx' & Hv' & E).
  assert (v' = v) as -> by congruence. rewrite (bind_Ret _ _ _ _ _ E).
  set (s1 := released s r R (s_name x) v).
  set (R1 := set_services (remove_first v (services R)) R).
  assert (W1 : wf_links s1) by (by eapply released_links).
  assert (HR1 : remote_heap s1 !! r = Some R1) by apply lookup_insert_eq.
  destruct (IH s1 r R1 W1 HR1) as (s' & E' & [C1 (R' & C2 & C3 & C4) C5 (C6 & C7 & C8 & C9) C10]).
  { pose proof (length_remove_first v (services R) Hv') as Hl. rewrite Es in Hl. cbn [length] in *.
    unfold R1. cbn [services set_services]. rewrite Es. lia. }
  exists s'. split; [exact E'|]. constructor; [done| | |by repeat split|].
  - exists R'. by rewrite C4.
  - intros q Hne. rewrite C5 by done. cbn. by rewrite lookup_insert_ne.
  - intros n. rewrite C10. unfold s1. rewrite (released_owner s W r R HR (s_name x) v x Hn' Hx Hv').
    destruct (decide (n = s_name x)) as [->|Hne]; [|done].
    rewrite decide_False by done. by rewrite decide_True.
Qed.

(** After a disconnection. *)
Definition gone (s : Server) (r : rid) (n : list Z) : option rid :=
  if decide (owner s n = Some r) then None else owner s n.

(** The remote's memory is freed. *)
Definition forget (r : rid) (s : Server) : Server := with_remotes (remotes s) (delete r (remote_heap s)) s.

Lemma forget_links (s : Server) (r : rid) (R : Remote) :
  wf_links s -> remote_heap s !! r = Some R -> services R = [] -> wf_links (forget r s).
Proof.
  intros W HR Hs. constructor; try apply W; cbn [forget with_remotes service_heap remote_heap].
  - intros v x H. destruct (wl_owner s W v x H) as (o & R0 & Hq & HR0 & Hh & Hin).
    exists o, R0. rewrite lookup_delete_ne; [done|]. intros E. rewrite <- E, HR in HR0. injection HR0 as <-.
    rewrite Hs in Hin. by apply not_elem_of_nil in Hin.
  - intros r' R0 H. apply lookup_delete_Some in H as [_ H]. by apply (wl_services s W).
  - intros v x o R0 H Hq H0. apply lookup_delete_Some in H0 as [_ H0]. by eapply (wl_private s W).
Qed.

Lemma forget_remotes (s s' : Server) (r : rid) :
  wf_remotes s -> busRemote s <> Some r -> remotes s' = remove_first r (remotes s) ->
  (forall q, q <> r -> remote_heap s' !! q = remote_heap s !! q) -> remote_heap s' !! r = None ->
  nextRemote s' = nextRemote s -> busRemote s' = busRemote s -> next_id s' = next_id s -> wf_remotes s'.
Proof.
  intros W Hb Er Ho Hr En Eb Ei.
  assert (Hback : forall q Q, remote_heap s' !! q = Some Q -> q <> r /\ remote_heap s !! q = Some Q).
  { intros q Q H. destruct (decide (q = r)) as [->|Hne]; [congruence|]. by rewrite <- (Ho q Hne). }
  constructor; rewrite ?Er, ?En, ?Eb, ?Ei.
  - intros q [Q H]. apply (wr_ids s W). exists Q. by apply Hback in H as [_ H].
  - destruct (wr_list s W) as [Hnd Hl]. split; [by apply NoDup_remove_first|]. intros q.
    rewrite elem_of_remove_first by done. rewrite Hl. split.
    + intros [H Hne]. by rewrite Ho.
    + intros [Q H]. apply Hback in H as [Hne H]. eauto.
  - apply (wr_number s W).
  - intros q Q H. apply Hback in H as [_ H]. by eapply (wr_unique s W).
  - intros q1 q2 Q1 Q2 H1 H2. apply Hback in H1 as [_ H1]. apply Hback in H2 as [_ H2].
    by eapply (wr_distinct s W).
  - destruct (wr_bus s W) as (b & Q & Hb' & HQ & H). exists b, Q. split; [done|].
    rewrite Ho; [done|]. intros ->. congruence.
Qed.

Lemma disconnect_ok (s : Server) (r : rid) (R : Remote) :
  wf_server s -> remote_heap s !! r = Some R -> busRemote s <> Some r ->
  exists s', adbus_remote_disconnect r s = Ret tt s' /\ wf_server s' /\
    remote_heap s' !! r = None /\ (forall n, owner s' n = gone s r n).
Proof.
  intros W HR Hb. pose proof W as [Wr Wl]%wf_split. unfold adbus_remote_disconnect.
  erewrite bind_Ret by reflexivity. set (s1 := with_remotes _ _ s).
  rewrite (bind_Ret _ _ s1 _ _ (get_remote_ok r R s1 HR)). erewrite bind_Ret by reflexivity.
  set (s2 := with_remotes _ _ s1). set (R2 := set_matches [] R).
  assert (W2 : wf_links s2) by (by apply (links_update s s2 r R R2)).
  destruct (release_all_ok (length (services R)) s2 r R2 W2) as (s3 & E & [C1 (R' & C2 & C3 & C4) C5 (C6 & C7 & C8 & C9) C10]);
    [apply lookup_insert_eq|done|].
  rewrite (bind_Ret _ _ _ _ _ E). exists (forget r s3). split; [done|].
  split; [apply wf_split; split|split].
  - apply (forget_remotes s _ r); try done; cbn [forget with_remotes remote_heap].
    + intros q Hne. rewrite lookup_delete_ne, C5 by done. cbn. by rewrite lookup_insert_ne.
    + apply lookup_delete_eq.
  - by apply (forget_links s3 r R').
  - apply lookup_delete_eq.
  - intros n. change (owner (forget r s3) n) with (owner s3 n). by rewrite C10.
Qed.

Lemma bus_name_colon (k : Z) : BUS_NAME <> str ":1." ++ dec k.
Proof. intros E. apply (f_equal deref) in E. discriminate. Qed.

(** The unique name of the next connection is not in use. *)
Lemma fresh_unique (s : Server) : wf_remotes s -> nextRemote s + 1 < 2 ^ 32 ->
  forall q Q, remote_heap s !! q = Some Q -> unique Q <> str ":1." ++ dec (nextRemote s).
Proof.
  intros W Hm q Q H E. destruct (wr_unique s W q Q H) as [E'|(k & E' & Hk)]; rewrite E' in E.
  - by apply bus_name_colon in E.
  - apply app_inv_head, dec_inj in E; pose proof (wr_number s W); lia.
Qed.

(** A new connection. *)
Definition connected (s : Server) : Server :=
  mkServer (busRemote s) (helloRemote s) (names s) (next_id s :: remotes s) ((nextRemote s + 1) mod 2 ^ 32)
    (service_heap s)
    (<[next_id s := mkRemote (str ":1." ++ dec (nextRemote s)) [] BEGIN adbus_buf_new adbus_buf_new
                      false 0 0 0 false []]> (remote_heap s)) (S (next_id s)) (signals s).

Lemma connect_ok (s : Server) (b : rid) : busRemote s = Some b ->
  adbus_serv_connect s = Ret (next_id s) (connected s).
Proof.
  intros Hb. unfold adbus_serv_connect, alloc, get, bind. cbn [busRemote]. unfold connected. by rewrite Hb.
Qed.

Lemma connect_wf (s : Server) : wf_server s -> nextRemote s + 1 < 2 ^ 32 -> wf_server (connected s).
Proof.
  intros W Hm. pose proof W as [Wr Wl]%wf_split. apply wf_split.
  assert (Hf : remote_heap s !! next_id s = None).
  { destruct (remote_heap s !! next_id s) as [Q|] eqn:E; [|done].
    pose proof (wr_ids s Wr (next_id s) ltac:(by exists Q)). lia. }
  pose proof (wr_number s Wr) as Hn. pose proof (fresh_unique s Wr Hm) as Hu.
  split; constructor; cbn [connected names remotes nextRemote service_heap remote_heap next_id busRemote];
    rewrite ?Z.mod_small by lia; try apply Wl.
  - intros r. rewrite lookup_insert_is_Some'. intros [->|H]; [lia|]. apply (wr_ids s Wr) in H. lia.
  - destruct (wr_list s Wr) as [Hnd Hl]. split.
    + constructor; [|done]. rewrite Hl, Hf. intros [? [=]].
    + intros r. rewrite lookup_insert_is_Some', elem_of_cons, Hl. split; intros [->|H]; auto.
  - lia.
  - intros r Q H. apply lookup_insert_Some in H as [[<- <-]|[_ H]]; cbn [unique].
    + right. exists (nextRemote s). split; [done|lia].
    + destruct (wr_unique s Wr r Q H) as [E|(k & E & Hk)]; [by left|right]. exists k. split; [done|lia].
  - intros r1 r2 R1 R2 H1 H2 E. apply lookup_insert_Some in H1 as [[<- <-]|[Hne1 H1]];
      apply lookup_insert_Some in H2 as [[<- <-]|[Hne2 H2]]; cbn [unique] in E.
    + done.
    + symmetry in E. by apply (Hu r2 R2 H2) in E.
    + by apply (Hu r1 R1 H1) in E.
    + by eapply (wr_distinct s Wr).
  - destruct (wr_bus s Wr) as (b & Q & Hb & HQ & H). exists b, Q. split; [done|].
    rewrite lookup_insert_ne; [done|congruence].
  - intros v x H. destruct (wl_owner s Wl v x H) as (o & R0 & Hq & HR0 & H'). exists o, R0.
    rewrite lookup_insert_ne; [done|congruence].
  - intros r R0 H. apply lookup_insert_Some in H as [[<- <-]|[_ H]]; [|by apply (wl_services s Wl)].
    cbn [services]. split; [constructor|]. intros v Hin. by apply not_elem_of_nil in Hin.
  - intros v Hv. apply (wl_ids s Wl) in Hv. lia.
  - intros v x o R0 H Hq H0 Hc. apply lookup_insert_Some in H0 as [[E _]|[_ H0]]; [|by eapply (wl_private s Wl)].
    destruct (wl_owner s Wl v x H) as (o' & R1 & Hq' & HR1 & _). congruence.
Qed.

(** Nobody but the remote itself can own its unique name. *)
Lemma unique_free (s : Server) (r : rid) (R : Remote) : wf_server s ->
  remote_heap s !! r = Some R -> haveHello R = false -> names s !! unique R = None.
Proof.
  intros W HR Hh. pose proof W as [Wr Wl]%wf_split.
  destruct (names s !! unique R) as [v|] eqn:E; [|done]. exfalso.
  destruct (wl_names s Wl _ _ E) as (x & Hx & Hn).
  destruct (wl_owner s Wl v x Hx) as (o & Q & Hq & HQ & Hh' & _).
  destruct (wr_unique s Wr r R HR) as [Eu|(k & Eu & _)].
  - destruct (wr_bus s Wr) as (b & Qb & _ & Hb & Hub & Hhb).
    assert (r = b) as -> by (eapply (wr_distinct s Wr); [done|done|congruence]). congruence.
  - assert (Eq : unique Q = unique R).
    { rewrite (wl_private s Wl v x o Q Hx Hq HQ); [done|]. rewrite Hn, Eu. done. }
    assert (o_remote o = r) by (by eapply (wr_distinct s Wr)). congruence.
Qed.

(** Hello. *)
Definition greeted (s : Server) (r : rid) (R : Remote) : Server :=
  let s1 := with_remotes (remotes s) (<[r := set_hello true R]> (remote_heap s)) s in
  acquired s1 r (set_hello true R) (unique R) false.

Lemma hello_ok (s : Server) (r : rid) (R : Remote) : wf_server s ->
  remote_heap s !! r = Some R -> haveHello R = false ->
  say_hello r s = Ret tt (greeted s r R) /\ wf_server (greeted s r R).
Proof.
  intros W HR Hh. pose proof (unique_free s r R W HR Hh) as Hfree. pose proof W as [Wr Wl]%wf_split.
  unfold greeted. set (s1 := with_remotes _ _ s). set (R1 := set_hello true R).
  assert (W1 : wf_server s1).
  { apply wf_split. split; [by apply (wf_remotes_update s s1 r R R1)|by apply (links_update s s1 r R R1)]. }
  assert (HR1 : remote_heap s1 !! r = Some R1) by apply lookup_insert_eq. split.
  - unfold say_hello. rewrite (bind_Ret _ _ _ _ _ (get_remote_ok _ _ _ HR)).
    erewrite bind_Ret by reflexivity. fold R1. change (with_remotes _ _ s) with s1.
    rewrite (bind_Ret _ _ _ _ _ (request_free s1 r R1 (unique R) 0 HR1 eq_refl Hfree)).
    done.
  - by apply acquired_wf.
Qed.
End Life.

(** ** The server runs *)

(** The state after [adbusI_serv_initbus]. *)
Definition started : Server :=
  mkServer (Some 0%nat) None {[BUS_NAME := 1%nat]} [0%nat] 0
    {[1%nat := mkService [mkOwner 0 false] BUS_NAME]}
    {[0%nat := mkRemote BUS_NAME [] BEGIN adbus_buf_new adbus_buf_new false 0 0 0 true [1%nat]]} 2
    [NameOwnerChanged BUS_NAME [] BUS_NAME; NameAcquired BUS_NAME BUS_NAME].

Lemma bus_start_ok {B : Build} : bus_start server_zero = Ret tt started.
Proof. vm_compute. reflexivity. Qed.

Lemma started_wf : wf_server started.
Proof.
  apply wf_split. split; constructor; cbn [started names service_heap remote_heap next_id remotes nextRemote busRemote].
  - intros r [R H]. apply lookup_singleton_Some in H as [<- _]. lia.
  - split; [apply NoDup_singleton|]. intros r. rewrite list_elem_of_singleton. split.
    + intros ->. rewrite lookup_singleton_eq. by eexists.
    + intros [R H]. by apply lookup_singleton_Some in H as [<- _].
  - lia.
  - intros r R H. apply lookup_singleton_Some in H as [_ <-]. by left.
  - intros r1 r2 R1 R2 H1 H2 _. apply lookup_singleton_Some in H1 as [<- _].
    by apply lookup_singleton_Some in H2 as [<- _].
  - eexists 0%nat, _. rewrite lookup_singleton_eq. done.
  - intros n v H. apply lookup_singleton_Some in H as [<- <-]. eexists. by rewrite lookup_singleton_eq.
  - intros v x H. apply lookup_singleton_Some in H as [<- <-]. apply lookup_singleton_eq.
  - intros v x H. apply lookup_singleton_Some in H as [<- <-]. eexists _, _. split; [done|].
    rewrite lookup_singleton_eq. split; [done|]. split; [done|]. by left.
  - intros r R H. apply lookup_singleton_Some in H as [<- <-]. split; [apply NoDup_singleton|].
    intros v ->%list_elem_of_singleton. eexists _, _. by rewrite lookup_singleton_eq.
  - intros v [x H]. apply lookup_singleton_Some in H as [<- _]. lia.
  - intros v x o R H Hq HR Hc. apply lookup_singleton_Some in H as [<- <-]. discriminate.
Qed.

Section Reach.
Context {B : Build}.

(** What can happen to a server: it starts, and then takes one legal step
    after the other, of any remotes, in any order. *)
Inductive reachable : Server -> Prop :=
| reach_start s : bus_start server_zero = Ret tt s -> reachable s
| reach_step s o s' : reachable s -> legal s o -> run_op o s = Ret tt s' -> reachable s'.

(** One step, on the abstract table. *)
Definition step_spec (s : Server) (o : op) (n : list Z) : option rid :=
  match o with
  | Connect => owner s n
  | SayHello r =>
      match remote_heap s !! r with
      | Some R => if decide (n = unique R) then Some r else owner s n
      | None => owner s n
      end
  | Request r m _ => if decide (n = m) then snd (request_spec (owner s m) r) else owner s n
  | Release r m => if decide (n = m) then snd (release_spec (owner s m) r) else owner s n
  | Disconnect r => gone s r n
  end.

Lemma legal_step_ok (s : Server) (o : op) : wf_server s -> legal s o ->
  exists s', run_op o s = Ret tt s' /\ wf_server s' /\ forall n, owner s' n = step_spec s o n.
Proof.
  intros W H. pose proof W as [Wr Wl]%wf_split. destruct o as [|r|r m f|r m|r]; cbn [run_op legal step_spec] in *.
  - destruct (wr_bus s Wr) as (b & _ & Hb & _). rewrite (bind_Ret _ _ _ _ _ (connect_ok s b Hb)).
    exists (connected s). split; [done|]. split; [by apply connect_wf|]. done.
  - destruct H as (R & HR & Hh). destruct (hello_ok s r R W HR Hh) as [E W']. exists (greeted s r R).
    split; [done|]. split; [done|]. intros n. rewrite HR. unfold greeted. rewrite acquired_owner; [done|].
    by apply (links_update s _ r R (set_hello true R)).
  - destruct H as ((R & HR & Hh) & Hf & Hc).
    destruct (request_step s r R m f W HR Hh Hf) as (s' & E & W' & Ho & _); [by intros ?%Hc|].
    rewrite (bind_Ret _ _ _ _ _ E). eauto.
  - destruct H as (R & HR). destruct (release_step s r R m W HR) as (s' & E & W' & Ho & _).
    rewrite (bind_Ret _ _ _ _ _ E). eauto.
  - destruct H as ((R & HR) & Hb). destruct (disconnect_ok s r R W HR Hb) as (s' & E & W' & _ & Ho). eauto.
Qed.

Lemma reachable_wf (s : Server) : reachable s -> wf_server s.
Proof.
  induction 1 as [s H|s o s' _ IH Hl E].
  - rewrite bus_start_ok in H. injection H as <-. apply started_wf.
  - destruct (legal_step_ok s o IH Hl) as (s2 & E2 & W & _). congruence.
Qed.

(** C3: After any history of connections, hellos, requests, releases and
    disconnections of any number of clients, the next legal operation returns
    without touching freed memory or failing an assertion, keeps every link
    between names, services and remotes (in particular: every name has exactly
    one owner, which is connected and said hello; unique names are distinct
    and owned only by their remote), and changes the owners as the abstract
    table says. *)
Theorem names_safe (s : Server) (o : op) : reachable s -> legal s o ->
  exists s', run_op o s = Ret tt s' /\ reachable s' /\ wf_server s' /\
    forall n, owner s' n = step_spec s o n.
Proof.
  intros H Hl. destruct (legal_step_ok s o (reachable_wf s H) Hl) as (s' & E & W & Ho).
  exists s'. split; [done|]. split; [by apply (reach_step s o)|]. done.
Qed.

(** Disconnecting a remote returns, frees it, and leaves every name it
    owned without owner; other names keep theirs. *)
Theorem disconnect_frees (s : Server) (r : rid) (R : Remote) :
  wf_server s -> remote_heap s !! r = Some R -> busRemote s <> Some r ->
  exists s', adbus_remote_disconnect r s = Ret tt s' /\ wf_server s' /\ remote_heap s' !! r = None /\
    forall n, owner s' n = gone s r n.
Proof. exact (disconnect_ok s r R). Qed.
End Reach.

(** ** Samples *)

(** Legality, decided. *)
Definition legalb (s : Server) (o : op) : bool :=
  match o with
  | Connect => nextRemote s + 1 <? 2 ^ 32
  | SayHello r => match remote_heap s !! r with Some R => negb (haveHello R) | None => false end
  | Request r n f =>
      match remote_heap s !! r with Some R => haveHello R | None => false end &&
      flag f ADBUS_SERVICE_DO_NOT_QUEUE && negb (flag f ADBUS_SERVICE_REPLACE_EXISTING) &&
      negb (deref n =? COLON)
  | Release r n => match remote_heap s !! r with Some _ => true | None => false end
  | Disconnect r =>
      match remote_heap s !! r with Some _ => true | None => false end &&
      match busRemote s with Some b => negb (b =? r)%nat | None => true end
  end.

Lemma legalb_legal (s : Server) (o : op) : legalb s o = true -> legal s o.
Proof.
  destruct o as [|r|r n f|r n|r]; cbn [legalb legal].
  - by intros ?%Z.ltb_lt.
  - destruct (remote_heap s !! r) as [R|]; [|done]. intros ?%negb_true_iff. by exists R.
  - destruct (remote_heap s !! r) as [R|]; [|done].
    rewrite !andb_true_iff, !negb_true_iff, Z.eqb_neq. intros [[[H1 H2] H3] H4].
    split; [by exists R|]. done.
  - destruct (remote_heap s !! r) as [R|]; [|done]. by exists R.
  - destruct (remote_heap s !! r) as [R|]; [|done]. destruct (busRemote s) as [b|]; cbn; intros H;
      (split; [by exists R|]); [|done]. apply negb_true_iff, Nat.eqb_neq in H. congruence.
Qed.

(** Running a history, checking that every step is legal. *)
Fixpoint run_legal {B : Build} (l : list op) (s : Server) : option Server :=
  match l with
  | [] => Some s
  | o :: l' =>
      if legalb s o then match run_op o s with Ret _ s' => run_legal l' s' | _ => None end else None
  end.

Lemma run_legal_reachable {B : Build} (l : list op) : forall (s s' : Server),
  reachable s -> run_legal l s = Some s' -> reachable s'.
Proof.
  induction l as [|o l IH]; intros s s' H; cbn [run_legal]; [by intros [= <-]|].
  destruct (legalb s o) eqn:El; [|done]. destruct (run_op o s) as [[] s1| | | |] eqn:E; try done.
  apply IH. by apply (reach_step s o); [|apply legalb_legal|].
Qed.

(** Clients 2 and 4 say hello; client 2 owns a.b. *)
Definition sample_ops : list op :=
  [Connect; SayHello 2; Connect; SayHello 4; Request 2 (str "a.b") ADBUS_SERVICE_DO_NOT_QUEUE]%nat.
Definition sample_state : Server :=
  match run_legal (B := debug_build) sample_ops started with Some s => s | None => server_zero end.

Lemma sample_reachable : reachable (B := debug_build) sample_state.
Proof. apply (run_legal_reachable sample_ops started); [by apply reach_start|by vm_compute]. Qed.

Lemma sample_wf : wf_server sample_state.
Proof. apply (reachable_wf (B := debug_build)), sample_reachable. Qed.

Lemma sample_legal : legal sample_state (Disconnect 2).
Proof. apply legalb_legal. by vm_compute. Qed.

Lemma names_safe_witness : exists s',
  run_op (B := debug_build) (Disconnect 2) sample_state = Ret tt s' /\ owner s' (str "a.b") = None.
Proof.
  destruct (names_safe (B := debug_build) sample_state (Disconnect 2) sample_reachable
    sample_legal) as (s' & E & _ & _ & Ho).
  exists s'. split; [exact E|]. rewrite Ho. by vm_compute.
Defined.

Definition client (r : rid) : Remote :=
  default (mkRemote [] [] BEGIN adbus_buf_new adbus_buf_new false 0 0 0 false [])
    (remote_heap sample_state !! r).

Lemma request_refines_witness : exists s',
  adbusI_serv_requestname (B := debug_build) 4 (str "a.b") ADBUS_SERVICE_DO_NOT_QUEUE sample_state
    = Ret ADBUS_SERVICE_REQUEST_FAILED s' /\ owner s' (str "a.b") = Some 2%nat.
Proof.
  destruct (request_refines (B := debug_build) sample_state 4 (client 4) (str "a.b") ADBUS_SERVICE_DO_NOT_QUEUE
    sample_wf ltac:(by vm_compute) ltac:(by vm_compute) ltac:(by vm_compute) ltac:(intros H; by vm_compute in H))
    as (s' & E & _ & Ho & _).
  exists s'. split; [rewrite E; by vm_compute|]. rewrite Ho. by vm_compute.
Defined.

Lemma release_refines_witness : exists s',
  adbusI_serv_releasename (B := debug_build) 2 (str "a.b") sample_state = Ret ADBUS_SERVICE_SUCCESS s' /\
  owner s' (str "a.b") = None.
Proof.
  destruct (release_refines (B := debug_build) sample_state 2 (client 2) (str "a.b") sample_wf ltac:(by vm_compute))
    as (s' & E & _ & Ho & _).
  exists s'. split; [rewrite E; by vm_compute|]. rewrite Ho. by vm_compute.
Defined.

Lemma disconnect_frees_witness : exists s',
  adbus_remote_disconnect (B := debug_build) 2 sample_state = Ret tt s' /\ owner s' (str "a.b") = None.
Proof.
  destruct (disconnect_frees (B := debug_build) sample_state 2 (client 2) sample_wf ltac:(by vm_compute)
    ltac:(by vm_compute)) as (s' & E & _ & _ & Ho).
  exists s'. split; [exact E|]. rewrite Ho. by vm_compute.
Defined.
