(* ===== verification/Dispatch.v ===== *)
(** Routing of a message by the bus: adbus/server-dispatch.c.  A message goes
    to the remotes that have a rule matching it, in the order of the list of
    remotes, and then to the owner of its destination, each of them once. *)

From Stdlib Require Import ZArith Lia.
From stdpp Require Import base option list numbers strings gmap.
From S2P Require Import Prelude Iterator Values Buffer Text MatchRule Message Server Registry.
Open Scope Z_scope.

(** ** Does a rule match *)
Definition StringMatches (rule msg : option (list Z)) : bool :=
  match rule, msg with
  | None, _ => true
  | Some _, None => false
  | Some a, Some b => (len a =? len b) && list_eqb a b
  end.

(** Reading [n] bytes at a string field. *)
Definition prefix_eq (n : Z) (a b : list Z) : bool := list_eqb (take (Z.to_nat n) a) (take (Z.to_nat n) b).

Definition arg_matches (rule msg : Argument) : bool :=
  match arg_value rule, arg_value msg with
  | None, _ => true
  | Some _, None => false
  | Some a, Some b => (arg_size msg =? arg_size rule) && prefix_eq (arg_size rule) b a
  end.

(** The loop over the rule's arguments; the message has at least as many. *)
Fixpoint args_match (rule msg : list Argument) : bool :=
  match rule, msg with
  | [], _ => true
  | x :: rule', y :: msg' => arg_matches x y && args_match rule' msg'
  | _, [] => false
  end.

Definition ArgsMatch (rule msg : list Argument) : bool :=
  negb (length msg <? length rule)%nat && args_match rule msg.

(** [m->argumentsSize] entries at [m->arguments]. *)
Definition arguments (m : Message) : list Argument := default [] (msg_arguments m).

(** The tests of the chain before the arguments. *)
Definition fields_match (rule : Match) (m : Message) : bool :=
  negb (bool_decide (m_type rule = MSG_INVALID) && bool_decide (m_type rule <> msg_type m)) &&
  negb (m_checkReply rule && match replySerial m with Some n => negb (m_reply rule =? n) | None => true end) &&
  StringMatches (m_path rule) (msg_path m) &&
  StringMatches (m_interface rule) (msg_interface m) &&
  StringMatches (m_member rule) (msg_member m) &&
  StringMatches (m_error rule) (msg_error m) &&
  StringMatches (m_destination rule) (msg_destination m) &&
  StringMatches (m_sender rule) (msg_sender m).

(** ** Sending

    The world [W] holds the server; [send r m] is the send callback of the
    remote [r]: it may change the world, and returns the number of bytes it
    took or a negative value.  The message is shared, and [adbus_parseargs]
    fills in its arguments. *)
Section Dispatch.
Context {B : Build} {W : Type} (srv : W -> Server) (send : rid -> Message -> M W Z).

Definition D : Type := W * Message.

Definition call_send (r : rid) : M D Z := fun '(w, m) =>
  match send r m w with
  | Ret n w' => Ret n (w', m)
  | Err w' => Err (w', m)
  | Abort => Abort | Oob => Oob | Nofuel => Nofuel
  end.

(** 0, or -1 on error. *)
Definition parseargs_ : M D bool := fun '(w, m) =>
  match adbus_parseargs m with
  | Ret _ m' => Ret true (w, m')
  | Err m' => Ret false (w, m')
  | Abort => Abort | Oob => Oob | Nofuel => Nofuel
  end.

Definition the_message : M D Message := fun '(w, m) => Ret m (w, m).
Definition the_server : M D Server := fun '(w, m) => Ret (srv w) (w, m).

(** The message goes out when a rule matches, and no other rule is tried. *)
Definition send_to (r : rid) : M D Z :=
  let* n := call_send r in
  let* m := the_message in
  ret (if n =? msg_size m then 0 else 1).

(** DL_FOREACH over the remote's rules. *)
Fixpoint match_loop (r : rid) (rules : list Match) : M D Z :=
  match rules with
  | [] => ret 0
  | rule :: rules' =>
      let* m := the_message in
      if negb (fields_match rule m) then match_loop r rules'
      else if (0 <? length (m_arguments rule))%nat then
        let* parsed := parseargs_ in
        if negb parsed then ret (-1)
        else
          let* m := the_message in
          if ArgsMatch (m_arguments rule) (arguments m) then send_to r else match_loop r rules'
      else send_to r
  end.

Definition RemoteDispatchMatch (r : rid) : M D Z :=
  let* s := the_server in
  match remote_heap s !! r with
  | Some x => match_loop r (matches x)
  | None => oob
  end.

(** [i->hl.next]; the remote must still be in the list. *)
Fixpoint next_remote (r : rid) (l : list rid) : option (option rid) :=
  match l with
  | [] => None
  | x :: l' => if (x =? r)%nat then Some (hd_error l') else next_remote r l'
  end.

(** DL_FOREACH over the remotes: the next one is read after the body. *)
Fixpoint remotes_loop (fuel : nat) (direct cur : option rid) : M D bool :=
  match cur with
  | None => ret true
  | Some r =>
      match fuel with
      | O => nofuel
      | S fuel' =>
          let* e := (if bool_decide (direct = Some r) then ret 0 else RemoteDispatchMatch r) in
          if negb (e =? 0) then ret false
          else
            let* s := the_server in
            match next_remote r (remotes s) with
            | Some nxt => remotes_loop fuel' direct nxt
            | None => oob
            end
      end
  end.

(** The owner of the destination; the bus for a call without destination. *)
Definition direct_remote : M D (option rid) :=
  let* s := the_server in
  let* m := the_message in
  match msg_destination m with
  | Some d =>
      match names s !! d with
      | None => ret None
      | Some v =>
          match service_heap s !! v with
          | None => oob
          | Some x => ret (match queue x with o :: _ => Some (o_remote o) | [] => None end)
          end
      end
  | None => ret (if bool_decide (msg_type m = MSG_METHOD) then busRemote s else None)
  end.

Definition adbusI_serv_dispatch : M D Z :=
  let* direct := direct_remote in
  let* s := the_server in
  let* ok := remotes_loop (length (remotes s)) direct (hd_error (remotes s)) in
  if negb ok then ret (-1)
  else
    match direct with
    | None => ret 0
    | Some r =>
        let* n := call_send r in
        let* m := the_message in
        ret (if n =? msg_size m then 0 else -1)
    end.
End Dispatch.

(** ** What is delivered to whom *)
Definition rule_matches (m : Message) (rule : Match) : bool :=
  fields_match rule m &&
  (negb (0 <? length (m_arguments rule))%nat || ArgsMatch (m_arguments rule) (arguments m)).

(** The remote the message is addressed to. *)
Definition addressee (s : Server) (m : Message) : option rid :=
  match msg_destination m with
  | Some d => owner s d
  | None => if bool_decide (msg_type m = MSG_METHOD) then busRemote s else None
  end.

Definition listens (s : Server) (m : Message) (r : rid) : bool :=
  negb (bool_decide (addressee s m = Some r)) &&
  match remote_heap s !! r with Some R => existsb (rule_matches m) (matches R) | None => false end.

Definition recipients (s : Server) (m : Message) : list rid :=
  List.filter (listens s m) (remotes s) ++ option_list (addressee s m).

(** Sending stops after the first recipient that fails. *)
Fixpoint sent (good : rid -> bool) (l : list rid) : list rid :=
  match l with
  | [] => []
  | r :: l' => r :: if good r then sent good l' else []
  end.

(** *** What a rule asks for

    Read off the keys of a rule: a field that is given has to be the one of the
    message, and an argument that is given the one at its place. *)
Definition given (rule msg : option (list Z)) : Prop := forall v, rule = Some v -> msg = Some v.

(** The first [arg_size] bytes are the text of an argument. *)
Definition arg_text (a : Argument) : option (Z * list Z) := (fun v => (arg_size a, take (Z.to_nat (arg_size a)) v)) <$> arg_value a.
Definition arg_given (rule : Argument) (msg : Argument) : Prop := forall t, arg_text rule = Some t -> arg_text msg = Some t.

(** All that a rule asks for but the type. *)
Record asks (rule : Match) (m : Message) : Prop := {
  as_reply : m_checkReply rule = true -> replySerial m = Some (m_reply rule);
  as_path : given (m_path rule) (msg_path m);
  as_interface : given (m_interface rule) (msg_interface m);
  as_member : given (m_member rule) (msg_member m);
  as_error : given (m_error rule) (msg_error m);
  as_destination : given (m_destination rule) (msg_destination m);
  as_sender : given (m_sender rule) (msg_sender m);
  as_arguments : forall i a, m_arguments rule !! i = Some a -> exists b, arguments m !! i = Some b /\ arg_given a b }.

(** The rule is for the message: any type will do when it gives none. *)
Definition rule_for (rule : Match) (m : Message) : Prop := (m_type rule = MSG_INVALID \/ m_type rule = msg_type m) /\ asks rule m.

(** The rules that ask for the message give its type. *)
Definition types_given (s : Server) (m : Message) : Prop := msg_type m <> MSG_INVALID /\
  forall r R, remote_heap s !! r = Some R -> Forall (fun rule => asks rule m -> m_type rule = msg_type m) (matches R).

Lemma given_matches (a b : option (list Z)) : StringMatches a b = true <-> given a b.
Proof.
  unfold StringMatches, given. destruct a as [a|]; [|by split]. destruct b as [b|]; [|split; [done|intros H; by specialize (H a eq_refl)]].
  rewrite andb_true_iff, Z.eqb_eq, list_eqb_eq. split; [by intros [_ ->] v [= ->]|]. intros H. by injection (H a eq_refl) as ->.
Qed.

Lemma arg_given_matches (a b : Argument) : arg_matches a b = true <-> arg_given a b.
Proof.
  unfold arg_matches, arg_given, arg_text, prefix_eq. destruct (arg_value a) as [v|]; [|by split]. destruct (arg_value b) as [w|]; cbn [fmap option_fmap option_map].
  2:{ split; [done|intros H; by specialize (H _ eq_refl)]. }
  rewrite andb_true_iff, Z.eqb_eq, list_eqb_eq. split; [intros [E1 E2] t [= <-]; by rewrite E1, E2|]. intros H. injection (H _ eq_refl) as E1 E2. by rewrite E1 in *.
Qed.

Lemma args_given (l k : list Argument) : ArgsMatch l k = true <-> forall i a, l !! i = Some a -> exists b, k !! i = Some b /\ arg_given a b.
Proof.
  unfold ArgsMatch. revert k. induction l as [|a l IH]; intros k; [by destruct k|]. destruct k as [|b k].
  { cbn. split; [done|]. intros H. by destruct (H 0%nat a eq_refl) as (b & Hb & _). }
  cbn [args_match length]. change (S (length k) <? S (length l))%nat with (length k <? length l)%nat. rewrite andb_true_iff, andb_true_iff, arg_given_matches. split.
  - intros (H1 & H2 & H3) [|i] c; [intros [= <-]; by exists b|]. exact (proj1 (IH k) ltac:(by rewrite H1, H3) i c).
  - intros H. assert (X : forall i c, l !! i = Some c -> exists b, k !! i = Some b /\ arg_given c b) by (intros i; exact (H (S i))).
    apply IH, andb_true_iff in X as [-> ->]. split; [done|]. split; [|done]. by destruct (H 0%nat a eq_refl) as (? & [= <-] & ?).
Qed.

(** The code tests what a rule asks for; of its type only that there is one. *)
Lemma asks_matches (rule : Match) (m : Message) : msg_type m <> MSG_INVALID -> rule_matches m rule = true <-> m_type rule <> MSG_INVALID /\ asks rule m.
Proof.
  intros Hm. unfold rule_matches, fields_match.
  assert (Et : negb (bool_decide (m_type rule = MSG_INVALID) && bool_decide (m_type rule <> msg_type m)) = true <-> m_type rule <> MSG_INVALID).
  { rewrite negb_true_iff, andb_false_iff, !bool_decide_eq_false. split; [|by left]. intros [H|H] E; [done|]. apply H. congruence. }
  assert (Er : negb (m_checkReply rule && match replySerial m with Some n => negb (m_reply rule =? n) | None => true end) = true <->
    (m_checkReply rule = true -> replySerial m = Some (m_reply rule))).
  { destruct (m_checkReply rule); [|by split]. cbn [andb]. destruct (replySerial m) as [n|]; [|split; [done|by intros H; specialize (H eq_refl)]].
    destruct (Z.eqb_spec (m_reply rule) n) as [->|Hn]; cbn [negb]; (split; [done|]); [done|]. intros H. injection (H eq_refl) as ->. done. }
  assert (Ea : negb (0 <? length (m_arguments rule))%nat || ArgsMatch (m_arguments rule) (arguments m) = true <-> ArgsMatch (m_arguments rule) (arguments m) = true).
  { destruct (m_arguments rule); [|done]. split; [done|]. by destruct (arguments m). }
  rewrite !andb_true_iff, Ea, Et, Er, args_given, !given_matches. split; [intros [[[[[[[[??]?]?]?]?]?]?]?]; by repeat split|]. intros [? []]. tauto.
Qed.

Lemma rule_for_matches (s : Server) (m : Message) (r : rid) (R : Remote) (rule : Match) : types_given s m -> remote_heap s !! r = Some R -> rule ∈ matches R ->
  rule_matches m rule = true <-> rule_for rule m.
Proof.
  intros [Hm Ht] HR Hin. specialize (Ht r R HR). rewrite Forall_forall in Ht. specialize (Ht rule Hin). rewrite asks_matches by done. unfold rule_for. split.
  - intros [_ H]. split; [right; by apply Ht|done].
  - intros [_ H]. split; [by rewrite (Ht H)|done].
Qed.

(** A remote that listens: it has a rule for the message, and is not its addressee. *)
Lemma listens_iff (s : Server) (m : Message) (r : rid) : types_given s m ->
  listens s m r = true <-> addressee s m <> Some r /\ exists R rule, remote_heap s !! r = Some R /\ rule ∈ matches R /\ rule_for rule m.
Proof.
  intros Ht. unfold listens. rewrite andb_true_iff, negb_true_iff, bool_decide_eq_false. apply and_iff_compat_l.
  destruct (remote_heap s !! r) as [R|] eqn:ER; [|by split; [|intros (? & ? & ? & _)]]. rewrite existsb_exists. split.
  - intros (rule & Hin & Hr). apply list_elem_of_In in Hin. exists R, rule. split; [done|]. split; [done|]. by apply (rule_for_matches s m r R).
  - intros (R' & rule & [= <-] & Hin & Hr). exists rule. split; [by apply list_elem_of_In|]. by apply (rule_for_matches s m r R).
Qed.

(** Who gets a message: first the remotes with a rule for it, in the order of
    the list, then the addressee. *)
Definition reached_by (s : Server) (m : Message) (l : list rid) : Prop := exists l1,
  l = l1 ++ option_list (addressee s m) /\ l1 `sublist_of` remotes s /\ NoDup l /\
  forall r, r ∈ l1 <-> r ∈ remotes s /\ addressee s m <> Some r /\ exists R rule, remote_heap s !! r = Some R /\ rule ∈ matches R /\ rule_for rule m.

Lemma filter_sub {A} (f : A -> bool) (l : list A) : List.filter f l `sublist_of` l.
Proof. induction l as [|x l IH]; [done|]. cbn. by destruct (f x); constructor. Qed.

Definition no_args (s : Server) : Prop :=
  forall r R, remote_heap s !! r = Some R -> Forall (fun t => m_arguments t = []) (matches R).

Lemma fields_match_args (rule : Match) (m : Message) (a : option (list Argument)) :
  fields_match rule (set_arguments a m) = fields_match rule m.
Proof. by destruct m. Qed.

Lemma set_arguments_same (m : Message) : set_arguments (msg_arguments m) m = m.
Proof. by destruct m. Qed.

(** Parsing the arguments again changes nothing. *)
Lemma parseargs_shape {B : Build} (m m' : Message) : adbus_parseargs m = Ret tt m' ->
  (exists a, m' = set_arguments a m) /\ adbus_parseargs m' = Ret tt m'.
Proof.
  intros H. unfold adbus_parseargs in H. destruct (msg_arguments m) as [a|] eqn:Ea.
  { injection H as <-. split; [exists (Some a); by rewrite <- Ea, set_arguments_same|]. unfold adbus_parseargs. by rewrite Ea. }
  destruct (signature m) as [g|] eqn:Eg; [|by destruct ndebug].
  destruct (while_ _ _ _ _) as [u [i [|x l]]| | | |] eqn:E; try done; injection H as <-.
  - split; [exists None; by rewrite <- Ea, set_arguments_same|]. unfold adbus_parseargs. by rewrite Ea, Eg, E.
  - split; [by eexists|]. done.
Qed.

Lemma next_remote_app (l1 l2 : list rid) (r : rid) : r ∉ l1 -> next_remote r (l1 ++ r :: l2) = Some (hd_error l2).
Proof.
  induction l1 as [|x l1 IH]; intros H; cbn [next_remote app].
  - by rewrite Nat.eqb_refl.
  - rewrite (proj2 (Nat.eqb_neq x r)); [apply IH; set_solver|set_solver].
Qed.

Lemma sent_app (good : rid -> bool) (l1 l2 : list rid) :
  sent good (l1 ++ l2) = if forallb good l1 then l1 ++ sent good l2 else sent good l1.
Proof.
  induction l1 as [|r l1 IH]; [done|]. cbn [app sent forallb]. destruct (good r); [|done].
  cbn [andb]. rewrite IH. by destruct (forallb good l1).
Qed.

Lemma sent_all (good : rid -> bool) (l : list rid) : forallb good l = true -> sent good l = l.
Proof.
  induction l as [|r l IH]; [done|]. cbn [forallb sent]. intros [-> H]%andb_true_iff. by rewrite IH.
Qed.

(** Nobody gets a message twice. *)
Lemma recipients_nodup (s : Server) (m : Message) : NoDup (remotes s) -> NoDup (recipients s m).
Proof.
  intros H. unfold recipients. apply NoDup_app. split; [|split].
  - apply NoDup_ListNoDup, List.NoDup_filter. by apply NoDup_ListNoDup.
  - intros r Hr Ha. apply list_elem_of_In, filter_In in Hr as [_ Hl]. unfold listens in Hl.
    destruct (addressee s m) as [q|] eqn:Ea; cbn in Ha; [|by apply not_elem_of_nil in Ha].
    apply list_elem_of_singleton in Ha as ->. by rewrite bool_decide_true in Hl.
  - destruct (addressee s m); cbn; [apply NoDup_singleton|constructor].
Qed.

(** What routing needs of a server; it also holds inside of an operation,
    while a name changes its owner. *)
Record routable (s : Server) : Prop := {
  ro_nodup : NoDup (remotes s);
  ro_live : forall r, r ∈ remotes s -> is_Some (remote_heap s !! r);
  ro_names : forall n v, names s !! n = Some v -> is_Some (service_heap s !! v) }.

Lemma wf_routable (s : Server) : wf_server s -> routable s.
Proof.
  intros W. destruct (w_remotes s W) as [Hn Hl]. split; [done|intros r Hr; by apply Hl|].
  intros n v Hv. destruct (w_names s W n v Hv) as (x & Hx & _). by exists x.
Qed.

Lemma recipients_reached (s : Server) (m : Message) : NoDup (remotes s) -> types_given s m -> reached_by s m (recipients s m).
Proof.
  intros Hn Ht. exists (List.filter (listens s m) (remotes s)). split; [done|]. split; [apply filter_sub|]. split; [by apply recipients_nodup|].
  intros r. rewrite list_elem_of_In, filter_In, <- list_elem_of_In. by rewrite (listens_iff s m r Ht).
Qed.

Section Routing.
Context {B : Build} {W : Type} (srv : W -> Server) (send : rid -> Message -> M W Z).
(** A send callback does not change what routing looks at, does not look at
    the parsed arguments, and says whether it took the whole message. *)
Context (deliver : rid -> Message -> W -> W) (good : rid -> bool).
Context (Hsend : forall r m w, send r m w = Ret (if good r then msg_size m else -1) (deliver r m w)).
Context (Hsrv : forall r m w, srv (deliver r m w) = srv w).
Context (Hargs : forall r m a w, deliver r (set_arguments a m) w = deliver r m w).
Context (m m' : Message) (Hsize : 0 <= msg_size m) (Hm : exists a, m' = set_arguments a m).

(** The message, before or after its arguments are parsed. *)
Definition some_m (x : Message) : Prop := x = m \/ x = m'.

Lemma some_deliver (x : Message) (r : rid) (w : W) : some_m x -> deliver r x w = deliver r m w.
Proof. intros [->| ->]; [done|]. destruct Hm as [a ->]. apply Hargs. Qed.

Lemma some_fields (x : Message) (rule : Match) : some_m x -> fields_match rule x = fields_match rule m'.
Proof. intros [->| ->]; [|done]. destruct Hm as [a ->]. by rewrite fields_match_args. Qed.

Lemma some_size (x : Message) : some_m x -> msg_size x = msg_size m.
Proof. intros [->| ->]; [done|]. by destruct Hm as [a ->]. Qed.

Lemma send_to_ok (x : Message) (r : rid) (w : W) : some_m x ->
  send_to send r (w, x) = Ret (if good r then 0 else 1) (deliver r m w, x).
Proof.
  intros H. unfold send_to, call_send, the_message, bind. rewrite Hsend, (some_deliver x r w H), (some_size x H).
  unfold ret. destruct (good r); [by rewrite Z.eqb_refl|]. by rewrite (proj2 (Z.eqb_neq _ _)) by lia.
Qed.

(** Parsing the arguments succeeds, or no rule needs them. *)
Definition parses (rules : list Match) : Prop :=
  (adbus_parseargs m = Ret tt m' /\ adbus_parseargs m' = Ret tt m') \/ Forall (fun t => m_arguments t = []) rules.

Lemma match_loop_ok (r : rid) (rules : list Match) (w : W) : parses rules -> forall x, some_m x ->
  exists x', some_m x' /\ match_loop send r rules (w, x) =
    if existsb (rule_matches m') rules then Ret (if good r then 0 else 1) (deliver r m w, x') else Ret 0 (w, x').
Proof.
  intros Hp. induction rules as [|rule rules IH]; intros x Hx; [by exists x|].
  assert (Hp' : parses rules) by (destruct Hp as [?|Hp]; [by left|right; by inversion Hp]).
  cbn [match_loop existsb]. erewrite bind_Ret by reflexivity. rewrite (some_fields x rule Hx).
  unfold rule_matches at 1. destruct (fields_match rule m'); cbn [negb andb orb]; [|by apply IH].
  destruct (0 <? length (m_arguments rule))%nat eqn:En; cbn [negb orb].
  - destruct Hp as [[P1 P2]|Hp]; [|inversion Hp as [|? ? E _]; subst; by rewrite E in En].
    assert (E : parseargs_ (B := B) (W := W) (w, x) = Ret true (w, m')).
    { unfold parseargs_. destruct Hx as [->| ->]; [by rewrite P1|by rewrite P2]. }
    rewrite (bind_Ret _ _ _ _ _ E). cbn [negb]. erewrite bind_Ret by reflexivity.
    destruct (ArgsMatch (m_arguments rule) (arguments m')); cbn [orb].
    + exists m'. split; [by right|]. apply send_to_ok. by right.
    + apply IH; [done|by right].
  - exists x. split; [done|]. by apply send_to_ok.
Qed.

Context (s : Server) (Hro : routable s).
Context (Hp : forall r R, remote_heap s !! r = Some R -> parses (matches R)).

Definition deliver_all (l : list rid) (w : W) : W := fold_left (fun w r => deliver r m w) l w.

Lemma srv_all (l : list rid) (w : W) : srv (deliver_all l w) = srv w.
Proof. revert w. induction l as [|r l IH]; intros w; [done|]. cbn. unfold deliver_all in IH. by rewrite IH, Hsrv. Qed.

Lemma remotes_loop_ok (l2 : list rid) : forall (l1 : list rid) (fuel : nat) (w : W) (x : Message),
  remotes s = l1 ++ l2 -> (length l2 <= fuel)%nat -> some_m x -> srv w = s ->
  exists x', some_m x' /\
    remotes_loop srv send fuel (addressee s m') (hd_error l2) (w, x) =
      let l := List.filter (listens s m') l2 in
      Ret (forallb good l) (deliver_all (sent good l) w, x').
Proof.
  induction l2 as [|r l2 IH]; intros l1 fuel w x E Hf Hx Hw; [by destruct fuel; exists x|].
  destruct fuel as [|fuel]; [cbn in Hf; lia|]. cbn [hd_error remotes_loop List.filter].
  assert (Hr : r ∉ l1). { pose proof (ro_nodup s Hro) as Hnd. rewrite E in Hnd. apply NoDup_app in Hnd as (_ & H & _). intros H1%H. set_solver. }
  destruct (ro_live s Hro r) as [R HR]; [rewrite E; set_solver|].
  assert (Hstep : exists x1, some_m x1 /\
    (if bool_decide (addressee s m' = Some r) then ret 0 else RemoteDispatchMatch srv send r) (w, x) =
    if listens s m' r then Ret (if good r then 0 else 1) (deliver r m w, x1) else Ret 0 (w, x1)).
  { unfold listens. destruct (bool_decide (addressee s m' = Some r)); cbn [negb andb]; [by exists x|].
    unfold RemoteDispatchMatch. erewrite bind_Ret by reflexivity. rewrite Hw, HR.
    by apply match_loop_ok; [eapply Hp|]. }
  destruct Hstep as (x1 & Hx1 & Estep).
  assert (Hgo : forall w1, srv w1 = s -> exists x', some_m x' /\
    bind (the_server srv) (fun s0 => match next_remote r (remotes s0) with
       | Some nxt => remotes_loop srv send fuel (addressee s m') nxt | None => oob end) (w1, x1) =
    Ret (forallb good (List.filter (listens s m') l2)) (deliver_all (sent good (List.filter (listens s m') l2)) w1, x')).
  { intros w1 Hw1. erewrite bind_Ret by reflexivity. rewrite Hw1, E, next_remote_app by done.
    apply (IH (l1 ++ [r])); [by rewrite <- app_assoc|cbn in Hf; lia|done|done]. }
  destruct (listens s m' r) eqn:El.
  - destruct (good r) eqn:Eg; rewrite (bind_Ret _ _ _ _ _ Estep); cbn [negb Z.eqb forallb sent]; rewrite Eg.
    + destruct (Hgo (deliver r m w)) as (x' & Hx' & ->); [by rewrite Hsrv|]. by exists x'.
    + by exists x1.
  - rewrite (bind_Ret _ _ _ _ _ Estep). cbn [negb Z.eqb]. by apply Hgo.
Qed.

Lemma direct_ok (w : W) : srv w = s ->
  direct_remote srv (w, m) = Ret (addressee s m') (w, m).
Proof.
  intros Hw. unfold direct_remote, addressee. do 2 (erewrite bind_Ret by reflexivity). rewrite Hw.
  destruct Hm as [a ->]. cbn [set_arguments msg_destination msg_type].
  destruct (msg_destination m) as [d|]; [|done]. unfold owner. destruct (names s !! d) as [v|] eqn:En; [|done].
  by destruct (ro_names s Hro d v En) as (x & ->).
Qed.

Lemma dispatch_ok (w : W) : srv w = s ->
  let l := recipients s m' in
  exists x', some_m x' /\
    adbusI_serv_dispatch srv send (w, m) = Ret (if forallb good l then 0 else -1) (deliver_all (sent good l) w, x').
Proof.
  intros Hw l. unfold adbusI_serv_dispatch. rewrite (bind_Ret _ _ _ _ _ (direct_ok w Hw)).
  erewrite bind_Ret by reflexivity. rewrite Hw.
  destruct (remotes_loop_ok (remotes s) [] (length (remotes s)) w m eq_refl ltac:(lia) ltac:(by left) Hw)
    as (x & Hx & E). rewrite (bind_Ret _ _ _ _ _ E). cbv zeta. unfold l, recipients.
  set (f := List.filter _ _). rewrite forallb_app, sent_app.
  destruct (forallb good f) eqn:Ef; cbn [negb andb].
  - rewrite (sent_all _ _ Ef). destruct (addressee s m') as [r|].
    + change (option_list (Some r)) with [r]. exists x. split; [done|]. unfold call_send, the_message, bind, ret, deliver_all.
      rewrite Hsend, (some_deliver _ _ _ Hx), (some_size _ Hx), fold_left_app. cbn [fold_left].
      cbn [forallb sent]. destruct (good r); cbn [andb fold_left]; [by rewrite Z.eqb_refl|].
      by rewrite (proj2 (Z.eqb_neq (-1) (msg_size m))) by lia.
    + exists x. split; [done|]. change (option_list (@None nat)) with (@nil nat). by rewrite app_nil_r.
  - by exists x.
Qed.
End Routing.

Section Claims.
Context {B : Build} {W : Type} (srv : W -> Server) (send : rid -> Message -> M W Z).
Context (deliver : rid -> Message -> W -> W) (good : rid -> bool).
Context (Hsend : forall r m w, send r m w = Ret (if good r then msg_size m else -1) (deliver r m w)).
Context (Hsrv : forall r m w, srv (deliver r m w) = srv w).
Context (Hargs : forall r m a w, deliver r (set_arguments a m) w = deliver r m w).

(** C16: routing, for rules that give their type.  A message whose arguments
    parse is sent to every remote that has a rule for it (every field and
    argument the rule gives is that of the message) and is not its addressee,
    in list order, and then to the addressee: the owner of the destination name,
    or the bus for a call without destination.  Nobody gets it twice, and nobody
    else gets it.  When a send fails, the rest is not sent and the result is -1,
    otherwise it is 0.  (A rule without a type never matches, and the type of
    any other is not looked at: see [rule_type_inverted].) *)
Theorem dispatch_routes (m m' : Message) (w : W) : wf_server (srv w) -> 0 <= msg_size m ->
  adbus_parseargs m = Ret tt m' -> types_given (srv w) m' ->
  exists l x, reached_by (srv w) m' l /\ (x = m \/ x = m') /\
    adbusI_serv_dispatch srv send (w, m) =
      Ret (if forallb good l then 0 else -1) (fold_left (fun w r => deliver r m w) (sent good l) w, x).
Proof.
  intros Wf Hs Hp Ht. destruct (w_remotes _ Wf) as [Hnd Hl]. exists (recipients (srv w) m').
  destruct (parseargs_shape m m' Hp) as [Hm Hp'].
  destruct (dispatch_ok srv send deliver good Hsend Hsrv Hargs m m' Hs Hm (srv w) (wf_routable _ Wf) ltac:(by left) w eq_refl) as (x & Hx & E).
  exists x. split; [by apply recipients_reached|]. by split.
Qed.

(** The same when no rule of any remote asks for arguments; the arguments
    of the message are then not looked at, and it need not have any. *)
Theorem dispatch_routes_plain (m : Message) (w : W) : wf_server (srv w) -> 0 <= msg_size m -> no_args (srv w) ->
  let l := recipients (srv w) m in
  NoDup l /\ adbusI_serv_dispatch srv send (w, m) =
    Ret (if forallb good l then 0 else -1) (fold_left (fun w r => deliver r m w) (sent good l) w, m).
Proof.
  intros Wf Hs Hn l. destruct (w_remotes _ Wf) as [Hnd Hl]. split; [by apply recipients_nodup|].
  destruct (dispatch_ok srv send deliver good Hsend Hsrv Hargs m m Hs
    ltac:(exists (msg_arguments m); by rewrite set_arguments_same) (srv w) (wf_routable _ Wf)
    ltac:(intros r R HR; right; by eapply Hn) w eq_refl) as (x & [->| ->] & E); exact E.
Qed.
End Claims.

(** The test of the message type is inverted: a rule without a type (which
    is to match every type) matches no message, and for any other rule the
    type is not looked at. *)
Theorem rule_type_inverted (rule : Match) (m : Message) : msg_type m <> MSG_INVALID ->
  (m_type rule = MSG_INVALID -> rule_matches m rule = false) /\
  (m_type rule <> MSG_INVALID -> forall t, t <> MSG_INVALID -> rule_matches m (set_type t rule) = rule_matches m rule).
Proof.
  intros Hm. unfold rule_matches, fields_match. split.
  - intros Ht. rewrite (bool_decide_true (m_type rule = MSG_INVALID)) by done.
    by rewrite bool_decide_true by congruence.
  - intros Hr t Ht. cbn [set_type m_type m_checkReply m_reply m_path m_interface m_member m_error m_destination
      m_sender m_arguments]. by rewrite !(bool_decide_false (_ = MSG_INVALID)).
Qed.

(** ** Samples

    Client 4 asks for signals whose first argument is "hi"; client 2 sends
    one. *)
Definition rule_hi : Match := default (match_zero []) (adbusI_serv_newmatch (str "type='signal',arg0='hi'")).

Definition listening (rule : Match) : Server :=
  with_remotes (remotes sample_state) (<[4%nat := set_matches [rule] (client 4)]> (remote_heap sample_state)) sample_state.

Lemma client_4 : remote_heap sample_state !! 4%nat = Some (client 4).
Proof. by vm_compute. Qed.

(** Adding rules keeps the table of names consistent. *)
Lemma with_matches_wf (s : Server) (r : rid) (R : Remote) (l : list Match) :
  wf_server s -> remote_heap s !! r = Some R ->
  wf_server (with_remotes (remotes s) (<[r := set_matches l R]> (remote_heap s)) s).
Proof.
  intros [Wr Wl]%wf_split HR. apply wf_split. split.
  - by apply (wf_remotes_update s _ r R (set_matches l R)).
  - by apply (links_update s _ r R (set_matches l R)).
Qed.

Lemma listening_wf (rule : Match) : wf_server (listening rule).
Proof. exact (with_matches_wf sample_state 4 (client 4) [rule] sample_wf client_4). Qed.

Definition hi_args : list Z := [2; 0; 0; 0] ++ str "hi" ++ [0].

Definition signal_hi : Message :=
  mkMsg [] 64 hi_args 7 MSG_SIGNAL 0 1 (Some (str "s")) 1 None (Some (str "/")) (Some (str "a.b")) (Some (str "Hi"))
    None None (Some (str ":1.0")) None.

Definition bare_signal : Message :=
  mkMsg [] 64 [] 0 MSG_SIGNAL 0 1 None 0 None (Some (str "/")) (Some (str "a.b")) (Some (str "Hi"))
    None None (Some (str ":1.0")) None.

Lemma sample_no_rules (r : rid) (R : Remote) : remote_heap sample_state !! r = Some R -> matches R = [].
Proof.
  intros H. apply elem_of_map_to_list, list_elem_of_In in H.
  assert (Hall : forallb (fun p => match matches (snd p) with [] => true | _ => false end)
    (map_to_list (remote_heap sample_state)) = true) by (vm_compute; reflexivity).
  rewrite forallb_forall in Hall. specialize (Hall _ H). cbn [snd] in Hall. by destruct (matches R).
Qed.

(** A world that logs who got what. *)
Definition log_world : Type := Server * list (rid * option (list Z)).
Definition log_deliver (r : rid) (m : Message) (w : log_world) : log_world := (fst w, snd w ++ [(r, msg_member m)]).
Definition log_send (r : rid) (m : Message) : M log_world Z := fun w => Ret (msg_size m) (log_deliver r m w).

Definition signal_parsed : Message := set_arguments (Some [mkArg (Some (str "hi")) 2]) signal_hi.

(** Every rule of the server is for signals. *)
Lemma signals_only : types_given (listening rule_hi) signal_parsed.
Proof.
  split; [done|]. intros r R H. unfold listening in H. cbn [with_remotes remote_heap] in H. apply lookup_insert_Some in H as [[<- <-]|[Hne H]].
  - constructor; [|done]. intros _. vm_compute. reflexivity.
  - by rewrite (sample_no_rules r R H).
Qed.

Lemma dispatch_routes_witness : exists l x, reached_by (listening rule_hi) signal_parsed l /\
  adbusI_serv_dispatch (B := debug_build) fst log_send ((listening rule_hi, []), signal_hi) =
  Ret 0 (fold_left (fun w r => log_deliver r signal_hi w) (sent (fun _ => true) l) (listening rule_hi, []), x).
Proof.
  destruct (dispatch_routes (B := debug_build) fst log_send log_deliver (fun _ => true)
    ltac:(done) ltac:(done) ltac:(done) signal_hi signal_parsed (listening rule_hi, []) (listening_wf rule_hi)
    ltac:(done) ltac:(by vm_compute) signals_only) as (l & x & Hl & _ & E).
  exists l, x. split; [exact Hl|]. by rewrite E, (proj2 (List.forallb_forall _ l)).
Defined.

(** Client 4 is the one that gets the signal. *)
Example signal_delivered : exists x, adbusI_serv_dispatch (B := debug_build) fst log_send ((listening rule_hi, []), signal_hi) =
  Ret 0 ((listening rule_hi, [(4%nat, Some (str "Hi"))]), x).
Proof. eexists. vm_compute. reflexivity. Qed.

Lemma dispatch_routes_plain_witness :
  adbusI_serv_dispatch (B := debug_build) fst log_send ((listening (set_type MSG_METHOD (match_zero [])), []), bare_signal) =
  Ret 0 ((listening (set_type MSG_METHOD (match_zero [])), [(4%nat, Some (str "Hi"))]), bare_signal).
Proof.
  set (rule := set_type MSG_METHOD (match_zero [])).
  assert (Hn : no_args (listening rule)).
  { intros r R H. unfold listening in H. cbn [with_remotes remote_heap] in H. apply lookup_insert_Some in H as [[<- <-]|[Hne H]].
    - by constructor.
    - by rewrite (sample_no_rules r R H). }
  destruct (dispatch_routes_plain (B := debug_build) fst log_send log_deliver (fun _ => true)
    ltac:(done) ltac:(done) ltac:(done) bare_signal (listening rule, []) (listening_wf rule) ltac:(done) Hn) as (_ & E).
  rewrite E. by vm_compute.
Defined.

Lemma rule_type_inverted_witness : rule_matches bare_signal (match_zero []) = false.
Proof.
  destruct (rule_type_inverted (match_zero []) bare_signal) as [H _]; [discriminate|]. by apply H.
Defined.

(** A rule for an argument, and a message without any: the signature that is
    read is NULL. *)
Example argument_rule_crashes :
  adbusI_serv_dispatch (B := debug_build) fst log_send ((listening rule_hi, []), bare_signal) = Abort /\
  adbusI_serv_dispatch (B := release_build) fst log_send ((listening rule_hi, []), bare_signal) = Oob.
Proof. by vm_compute. Qed.
