(* ===== verification/Auth.v ===== *)
(** SASL authentication: adbus/auth.c, without the Windows part.  Sending,
    random bytes, the user's check of an external identity, the effective user
    id and the lines of a keyring file are given from outside. *)

From Stdlib Require Import ZArith Lia.
From stdpp Require Import base option list numbers strings.
From S2P Require Import Prelude Signature Values Buffer Sha1 Text.
Open Scope Z_scope.

(** ** Hexadecimal *)
Definition hex_digit (n : Z) : Z := if n <? 10 then n + 48 else n + 87.

Definition HexEncode (data : list Z) : list Z :=
  concat (map (fun b => [hex_digit (Z.shiftr b 4); hex_digit (Z.land b 15)]) data).

Definition hex_value (c : Z) : option Z :=
  if (48 <=? c) && (c <=? 57) then Some (c - 48)
  else if (97 <=? c) && (c <=? 102) then Some (c - 97 + 10)
  else if (65 <=? c) && (c <=? 70) then Some (c - 65 + 10)
  else None.

(** The loop; it stops at the first character that is no digit, and what was
    decoded so far stays. *)
Fixpoint hex_pairs (s : list Z) : list Z :=
  match s with
  | h :: l :: s' =>
      match hex_value h, hex_value l with
      | Some hi, Some lo => Z.lor (Z.shiftl hi 4) lo :: hex_pairs s'
      | _, _ => []
      end
  | _ => []
  end.

Definition HexDecode (s : list Z) : list Z :=
  if (length s mod 2 =? 0)%nat then hex_pairs s else [].

(** ** Cookies *)
Definition SP : Z := chr " ".

(** The keyring, the id and the rest; the data is a C string. *)
Definition ParseServerData (data : list Z) : option (list Z * list Z * list Z) :=
  match split_at SP (cstr data) with
  | None => None
  | Some (keyring, rest) =>
      match split_at SP rest with
      | None => None
      | Some (id, server) => Some (keyring, id, server)
      end
  end.

Fixpoint is_prefix (p l : list Z) : bool :=
  match p, l with
  | [], _ => true
  | x :: p', y :: l' => (x =? y) && is_prefix p' l'
  | _ :: _, [] => false
  end.

(** The body of the [fgets] loop for the buffer [buf] (a C string): [None] to
    go on, otherwise what was found. *)
Definition cookie_line {S} (id buf : list Z) : M S (option (list Z)) :=
  if is_prefix id buf then
    match drop (length id) buf with
    | [] => ret (Some [])
    | _ :: time =>
        match split_at SP time with
        | None => ret (Some [])
        | Some (_, data) => match data with [] => oob | _ => ret (Some (removelast data)) end
        end
    end
  else ret None.

Fixpoint cookie_lines {S} (id : list Z) (lines : list (list Z)) : M S (list Z) :=
  match lines with
  | [] => ret []
  | buf :: lines' =>
      let* r := cookie_line id buf in
      match r with Some c => ret c | None => cookie_lines id lines' end
  end.

(** ** struct adbus_Auth *)
Inductive Tried := NOT_TRIED | NOT_SUPPORTED | BEGIN.

#[export] Instance Tried_eq_dec : EqDecision Tried.
Proof. solve_decision. Defined.

(** [onData] is NULL or [ClientCookie]; [externalcb] is NULL or the user's
    check. *)
Record Auth := mkAuth {
  server : bool; cookie : Tried; external : Tried;
  externalcb : option (list Z -> bool); onData : bool;
  id : list Z; okCmd : list Z; okSent : bool }.

Definition set_external (e : Tried) (a : Auth) : Auth :=
  mkAuth (server a) (cookie a) e (externalcb a) (onData a) (id a) (okCmd a) (okSent a).
Definition set_cookie (c : Tried) (a : Auth) : Auth :=
  mkAuth (server a) c (external a) (externalcb a) (onData a) (id a) (okCmd a) (okSent a).
Definition set_externalcb (f : option (list Z -> bool)) (a : Auth) : Auth :=
  mkAuth (server a) (cookie a) (external a) f (onData a) (id a) (okCmd a) (okSent a).
Definition set_onData (d : bool) (a : Auth) : Auth :=
  mkAuth (server a) (cookie a) (external a) (externalcb a) d (id a) (okCmd a) (okSent a).
Definition set_id (i : list Z) (a : Auth) : Auth :=
  mkAuth (server a) (cookie a) (external a) (externalcb a) (onData a) i (okCmd a) (okSent a).
Definition set_okCmd (c : list Z) (a : Auth) : Auth :=
  mkAuth (server a) (cookie a) (external a) (externalcb a) (onData a) (id a) c (okSent a).
Definition set_okSent (o : bool) (a : Auth) : Auth :=
  mkAuth (server a) (cookie a) (external a) (externalcb a) (onData a) (id a) (okCmd a) o.

Definition CRLF : list Z := [13; 10].

Definition adbus_sauth_new : Auth :=
  mkAuth true NOT_TRIED NOT_SUPPORTED None false [] (str "OK 1234deadbeef" ++ CRLF) false.

Definition adbus_sauth_setuuid (uuid : list Z) (a : Auth) : Auth :=
  set_okCmd (str "OK " ++ HexEncode (cstr uuid) ++ CRLF) a.

(** [LocalId]: the effective user id. *)
Definition LocalId (uid : Z) : list Z := dec uid.

Definition adbus_cauth_new (uid : Z) : Auth :=
  mkAuth false NOT_TRIED NOT_SUPPORTED None false (LocalId uid) [] false.

(** ** Running: the world [W] and the authentication *)
Section Run.
Context {B : Build} {W : Type}.
(** The callbacks: bytes taken or a negative value; a random byte. *)
Context (send : list Z -> W -> Z * W) (rand : W -> Z * W).
(** $HOME; the buffers [fgets] reads from a file, [None] when it cannot be
    opened; what the stack holds where [SHA1Init] works. *)
Context (home : option (list Z)) (fgets_all : list Z -> option (list (list Z))) (stack : SHA1).

Record St := mkSt { world : W; auth : Auth }.

Definition upd (f : Auth -> Auth) : M St unit := modify (fun s => mkSt (world s) (f (auth s))).

Definition adbus_sauth_external (cb : option (list Z -> bool)) : M St unit :=
  let* s := get in
  run* assert_ (server (auth s) && bool_decide (external (auth s) = NOT_SUPPORTED)) in
  run* upd (set_external NOT_TRIED) in
  upd (set_externalcb cb).

Definition adbus_cauth_external : M St unit :=
  let* s := get in
  run* assert_ (negb (server (auth s)) && bool_decide (external (auth s) = NOT_SUPPORTED)) in
  upd (set_external NOT_TRIED).

(** The result is an [int]: 0, or -1. *)
Definition Send (data : list Z) : M St Z :=
  let data := cstr data in
  let* s := get in
  let '(sent, w) := send data (world s) in
  run* modify (fun s => mkSt w (auth s)) in
  if sent <? 0 then ret (-1)
  else if negb (sent =? len data) then run* assert_ false in ret (-1)
  else ret 0.

Fixpoint random_bytes (n : nat) : M St (list Z) :=
  match n with
  | O => ret []
  | S n' =>
      let* s := get in
      let '(b, w) := rand (world s) in
      run* modify (fun s => mkSt w (auth s)) in
      let* l := random_bytes n' in
      ret (b :: l)
  end.

Definition RandomData : M St (list Z) := random_bytes 64.

(** *** Server *)
Definition ServerReset : M St Z :=
  run* upd (set_okSent false) in Send (str "REJECTED EXTERNAL" ++ CRLF).

Definition ServerOk : M St Z :=
  run* upd (set_okSent true) in
  let* s := get in Send (okCmd (auth s)).

Definition ServerExternalInit : M St Z :=
  run* upd (set_external BEGIN) in
  let* s := get in
  if match externalcb (auth s) with None => true | Some f => f (cstr (id (auth s))) end
  then ServerOk else ServerReset.

Definition MATCH (a b : list Z) : bool := list_eqb a b.

Definition ServerAuth (mech data : list Z) : M St Z :=
  run* upd (set_id data) in
  let* s := get in
  if bool_decide (external (auth s) = NOT_TRIED) && MATCH mech (str "EXTERNAL") then ServerExternalInit
  else ServerReset.

(** *** Client *)
Definition GetCookie (keyring i : list Z) : M St (list Z) :=
  let dir := match home with Some h => h ++ str "/" | None => [] end in
  match fgets_all (dir ++ str ".dbus-keyrings/" ++ keyring) with
  | None => ret []
  | Some lines => cookie_lines i lines
  end.

(** Hashing on the stack. *)
Definition digest (data : list Z) : M St (list Z) := fun s =>
  match bind (SHA1AddBytes data) (fun _ => SHA1GetDigest) (SHA1Init stack) with
  | Ret d _ => Ret d s
  | Err _ => Err s
  | Abort => Abort | Oob => Oob | Nofuel => Nofuel
  end.

Definition ClientCookie (data : list Z) : M St Z :=
  match ParseServerData data with
  | None => ret (-1)
  | Some (keyring, keyringid, servdata) =>
      let* c := GetCookie (cstr keyring) (cstr keyringid) in
      match c with
      | [] => ret (-1)
      | _ =>
          let* localdata := RandomData in
          let* d := digest (servdata ++ str ":" ++ HexEncode localdata ++ str ":" ++ c) in
          let replyarg := HexEncode localdata ++ str " " ++ HexEncode (take 20 d) in
          Send (str "DATA " ++ HexEncode replyarg ++ CRLF)
      end
  end.

Definition ClientReset : M St Z :=
  let* s := get in
  if bool_decide (external (auth s) = NOT_TRIED) then
    run* upd (set_onData false) in
    run* upd (set_external BEGIN) in
    Send (str "AUTH EXTERNAL " ++ HexEncode (id (auth s)) ++ CRLF)
  else if bool_decide (cookie (auth s) = NOT_TRIED) then
    run* upd (set_onData true) in
    run* upd (set_cookie BEGIN) in
    Send (str "AUTH DBUS_COOKIE_SHA1 " ++ HexEncode (id (auth s)) ++ CRLF)
  else ret (-1).

Definition adbus_cauth_start : M St Z := ClientReset.

(** *** Lines *)

(** [if (line[len - 1] == c) len--;] *)
Definition chop {S} (c : Z) (line : list Z) : M S (list Z) :=
  match line with
  | [] => oob
  | _ => ret (if List.last line 0 =? c then removelast line else line)
  end.

(** 1: done, 0: go on, -1: error. *)
Definition adbus_auth_line (line : list Z) : M St Z :=
  let* line := chop 10 line in
  let* line := chop 13 line in
  let* s := get in
  let a := auth s in
  let (cmd, rest) := match split_at SP line with Some (c, r) => (c, Some r) | None => (line, None) end in
  match rest, server a && MATCH cmd (str "AUTH") with
  | Some r, true =>
      match split_at SP r with
      | Some (mech, data) => ServerAuth mech (HexDecode data)
      | None => run* Send (str "ERROR" ++ CRLF) in ret 0
      end
  | _, _ =>
      if onData a && MATCH cmd (str "DATA") then
        ClientCookie (match rest with Some r => HexDecode r | None => [] end)
      else if server a && MATCH cmd (str "CANCEL") then ServerReset
      else if server a && okSent a && MATCH cmd (str "BEGIN") then ret 1
      else if negb (server a) && MATCH cmd (str "OK") then run* Send (str "BEGIN" ++ CRLF) in ret 1
      else if negb (server a) && MATCH cmd (str "REJECTED") then ClientReset
      else if MATCH cmd (str "ERROR") then ret (-1)
      else run* Send (str "ERROR" ++ CRLF) in ret 0
  end.

(** The buffer next to the authentication. *)
Definition on_auth {A} (m : M St A) : M (St * Buffer) A := fun '(s, b) =>
  match m s with
  | Ret a s' => Ret a (s', b)
  | Err s' => Err (s', b)
  | Abort => Abort | Oob => Oob | Nofuel => Nofuel
  end.

Definition on_buffer {A} (m : M Buffer A) : M (St * Buffer) A := fun '(s, b) =>
  match m b with
  | Ret a b' => Ret a (s, b')
  | Err b' => Err (s, b')
  | Abort => Abort | Oob => Oob | Nofuel => Nofuel
  end.

(** The loop of [adbus_auth_parse]; every round takes a line, so the length of
    the buffer is enough fuel. *)
Fixpoint parse_lines (fuel : nat) : M (St * Buffer) Z := fun '(s, b) =>
  match adbus_buf_line b with
  | None => Ret 0 (s, b)
  | Some n =>
      match fuel with
      | O => Nofuel
      | S fuel' =>
          bind (on_auth (adbus_auth_line (take n (b_data b)))) (fun r =>
            run* on_buffer (adbus_buf_remove 0 n) in
            if r =? 0 then parse_lines fuel' else ret r) (s, b)
      end
  end.

Definition adbus_auth_parse : M (St * Buffer) Z := fun '(s, b) =>
  parse_lines (length (b_data b)) (s, b).
End Run.

(** ** Hexadecimal round trip *)
Definition hex_byte_ok (b : Z) : bool :=
  match hex_value (hex_digit (Z.shiftr b 4)), hex_value (hex_digit (Z.land b 15)) with
  | Some hi, Some lo => (Z.lor (Z.shiftl hi 4) lo =? b) && negb (hex_digit (Z.shiftr b 4) =? SP)
      && negb (hex_digit (Z.land b 15) =? SP) && (48 <=? hex_digit (Z.shiftr b 4)) && (48 <=? hex_digit (Z.land b 15))
  | _, _ => false
  end.

Lemma hex_sweep : forallb hex_byte_ok (map Z.of_nat (seq 0 256)) = true.
Proof. by vm_compute. Qed.

Lemma hex_byte (b : Z) : 0 <= b < 256 -> hex_byte_ok b = true.
Proof.
  intros H. pose proof hex_sweep as Hs. rewrite forallb_forall in Hs. apply Hs, in_map_iff.
  exists (Z.to_nat b). split; [lia|]. apply in_seq. lia.
Qed.

Lemma HexEncode_cons (b : Z) (l : list Z) :
  HexEncode (b :: l) = hex_digit (Z.shiftr b 4) :: hex_digit (Z.land b 15) :: HexEncode l.
Proof. done. Qed.

Lemma length_HexEncode (l : list Z) : length (HexEncode l) = (length l * 2)%nat.
Proof. induction l as [|b l IH]; [done|]. rewrite HexEncode_cons. cbn [length]. rewrite IH. lia. Qed.

Lemma hex_roundtrip_ (l : list Z) : bytes l -> HexDecode (HexEncode l) = l.
Proof.
  intros H. unfold HexDecode. rewrite length_HexEncode, Nat.Div0.mod_mul. cbn [Nat.eqb].
  induction H as [|b l Hb _ IH]; [done|]. rewrite HexEncode_cons. cbn [hex_pairs].
  pose proof (hex_byte b Hb) as Hh. unfold hex_byte_ok in Hh.
  destruct (hex_value (hex_digit (Z.shiftr b 4))) as [hi|]; [|done].
  destruct (hex_value (hex_digit (Z.land b 15))) as [lo|]; [|done].
  rewrite !andb_true_iff, Z.eqb_eq in Hh. destruct Hh as [[[[-> _] _] _] _]. by rewrite IH.
Qed.

(** Encoded text has neither spaces nor control characters. *)
Lemma HexEncode_plain (l : list Z) : bytes l -> Forall (fun c => 48 <= c) (HexEncode l).
Proof.
  induction 1 as [|b l Hb _ IH]; [constructor|]. rewrite HexEncode_cons.
  pose proof (hex_byte b Hb) as Hh. unfold hex_byte_ok in Hh.
  destruct (hex_value (hex_digit (Z.shiftr b 4))) as [hi|]; [|done].
  destruct (hex_value (hex_digit (Z.land b 15))) as [lo|]; [|done].
  rewrite !andb_true_iff, !Z.leb_le in Hh. destruct Hh as [[_ H1] H2]. by repeat constructor.
Qed.

(** Decoding what HexEncode wrote gives the bytes back. *)
Theorem hex_roundtrip (l : list Z) : bytes l -> HexDecode (HexEncode l) = l.
Proof. exact (hex_roundtrip_ l). Qed.

Lemma hex_roundtrip_witness : HexDecode (HexEncode [0; 31; 255]) = [0; 31; 255].
Proof. apply hex_roundtrip. apply bytes_forallb. reflexivity. Defined.

(** A bad digit cuts the value short instead of rejecting it: "30zz" is "0". *)
Example hex_decode_keeps_prefix : HexDecode (str "30zz") = str "0".
Proof. by vm_compute. Qed.

(** The line of id 12 is taken for id 1, its time and cookie for the cookie. *)
Example cookie_id_prefix : cookie_lines (S := unit) (str "1") [str "12 99 secret" ++ [10]] tt = Ret (str "99 secret") tt.
Proof. by vm_compute. Qed.

(** ** The server only accepts identities that its check accepts *)
Section Secure.
Context {B : Build} {W : Type} (send : list Z -> W -> Z * W) (rand : W -> Z * W).
Context (home : option (list Z)) (fgets_all : list Z -> option (list (list Z))) (stack : SHA1).
Context (check : list Z -> bool).

Notation line := (adbus_auth_line send rand home fgets_all stack).

Definition guarded (s : St (W := W)) : Prop :=
  server (auth s) = true /\ onData (auth s) = false /\ externalcb (auth s) = Some check /\
  (okSent (auth s) = true -> check (cstr (id (auth s))) = true).

Lemma Send_auth (data : list Z) (s s' : St) (r : Z) : Send send data s = Ret r s' -> auth s' = auth s /\ r <> 1.
Proof.
  unfold Send. intros H. apply bind_inv in H as (s0 & s1 & E & H). injection E as <- <-.
  destruct (send (cstr data) (world s)) as [n w]. apply bind_inv in H as (u & s1 & E & H). injection E as _ <-.
  destruct (n <? 0); [by injection H as <- <-|]. destruct (negb (n =? len (cstr data))).
  - apply bind_inv in H as (v & s2 & E & H). unfold assert_ in E. destruct ndebug; [|done].
    injection E as _ <-. by injection H as <- <-.
  - by injection H as <- <-.
Qed.

Lemma guarded_auth (s s' : St (W := W)) : auth s' = auth s -> guarded s -> guarded s'.
Proof. unfold guarded. by intros ->. Qed.

Lemma guarded_reset (s s' : St) (r : Z) : ServerReset send s = Ret r s' -> guarded s -> guarded s' /\ r <> 1.
Proof.
  unfold ServerReset. intros H (G1 & G2 & G3 & G4). apply bind_inv in H as (u & s1 & E & H). injection E as _ <-.
  apply Send_auth in H as [Ha Hr]. split; [|done]. unfold guarded. rewrite Ha. by repeat split.
Qed.

Lemma guarded_external (s s' : St) (r : Z) (mech data : list Z) :
  ServerAuth send mech data s = Ret r s' -> guarded s -> guarded s' /\ r <> 1.
Proof.
  unfold ServerAuth. intros H (G1 & G2 & G3 & _). apply bind_inv in H as (u & s1 & E & H). injection E as _ <-.
  apply bind_inv in H as (s2 & s3 & E & H). injection E as <- <-. cbn [auth set_id external] in H.
  destruct (_ && _).
  - unfold ServerExternalInit in H. apply bind_inv in H as (v & s2 & E & H). injection E as _ <-.
    apply bind_inv in H as (s3 & s4 & E & H). injection E as <- <-. cbn in H. rewrite G3 in H.
    destruct (check (cstr data)) eqn:Ec.
    + unfold ServerOk in H. apply bind_inv in H as (v' & s3 & E & H). injection E as _ <-.
      apply bind_inv in H as (s4 & s5 & E & H). injection E as <- <-. apply Send_auth in H as [Ha Hr].
      split; [|done]. unfold guarded. rewrite Ha. by repeat split.
    + unfold ServerReset in H. apply bind_inv in H as (v' & s3 & E & H). injection E as _ <-.
      apply Send_auth in H as [Ha Hr]. split; [|done]. unfold guarded. rewrite Ha. by repeat split.
  - unfold ServerReset in H. apply bind_inv in H as (v' & s3 & E & H). injection E as _ <-.
    apply Send_auth in H as [Ha Hr]. split; [|done]. unfold guarded. rewrite Ha. by repeat split.
Qed.

(** Sending and going on. *)
Lemma guarded_send (data : list Z) (r0 r : Z) (s s' : St) :
  bind (Send send data) (fun _ => ret r0) s = Ret r s' -> guarded s -> guarded s' /\ r = r0.
Proof.
  intros H G. apply bind_inv in H as (u & s1 & E & H). injection H as <- <-. apply Send_auth in E as [Ha _].
  split; [by eapply guarded_auth|done].
Qed.

Lemma chop_state {S} (c : Z) (l l' : list Z) (s s' : S) : chop c l s = Ret l' s' -> s' = s.
Proof. unfold chop. destruct l; [done|]. by intros [= _ <-]. Qed.

Lemma guarded_line (l : list Z) (s s' : St) (r : Z) : line l s = Ret r s' -> guarded s ->
  guarded s' /\ (r = 1 -> okSent (auth s') = true).
Proof.
  intros H G. unfold adbus_auth_line in H.
  apply bind_inv in H as (l1 & s1 & E & H). apply chop_state in E as ->.
  apply bind_inv in H as (l2 & s1 & E & H). apply chop_state in E as ->.
  apply bind_inv in H as (s1 & s2 & E & H). injection E as <- <-.
  pose proof G as (G1 & G2 & _ & _). rewrite G1, G2 in H. cbn [negb andb] in H.
  destruct (match split_at SP l2 with Some (c, r) => (c, Some r) | None => (l2, None) end) as [cmd rest].
  assert (Hrest : (if MATCH cmd (str "CANCEL") then ServerReset send
      else if okSent (auth s) && MATCH cmd (str "BEGIN") then ret 1
      else if MATCH cmd (str "ERROR") then ret (-1)
      else run* Send send (str "ERROR" ++ CRLF) in ret 0) s = Ret r s' ->
      guarded s' /\ (r = 1 -> okSent (auth s') = true)).
  { intros H'. destruct (MATCH cmd (str "CANCEL")); [by apply guarded_reset in H' as [? ?]|].
    destruct (okSent (auth s)) eqn:Eo; cbn [andb] in H'; [destruct (MATCH cmd (str "BEGIN")); [by injection H' as <- <-|]|];
      (destruct (MATCH cmd (str "ERROR")); [by injection H' as <- <-|by apply guarded_send in H' as [? ->]]). }
  destruct rest as [rest|]; [destruct (MATCH cmd (str "AUTH"))|]; try (by apply Hrest).
  destruct (split_at SP rest) as [[mech data]|].
  - by apply guarded_external in H as [? ?].
  - by apply guarded_send in H as [? ->].
Qed.

(** Feeding whatever the remote sends, piece by piece, until the result is not
    0; a non-zero result ends the authentication. *)
Fixpoint feed (chunks : list (list Z)) : M (St * Buffer) Z :=
  match chunks with
  | [] => ret 0
  | c :: chunks' =>
      run* on_buffer (W := W) (adbus_buf_append c) in
      let* r := adbus_auth_parse send rand home fgets_all stack in
      if r =? 0 then feed chunks' else ret r
  end.

Lemma guarded_lines (fuel : nat) : forall (s s' : St) (b b' : Buffer) (r : Z),
  parse_lines send rand home fgets_all stack fuel (s, b) = Ret r (s', b') -> guarded s ->
  guarded s' /\ (r = 1 -> okSent (auth s') = true).
Proof.
  induction fuel as [|fuel IH]; intros s s' b b' r H G; cbn [parse_lines] in H;
    destruct (adbus_buf_line b) as [n|]; try done; try (by injection H as <- <- <-).
  apply bind_inv in H as (r1 & [s1 b1] & E & H). unfold on_auth in E.
  destruct (line (take n (b_data b)) s) as [r2 s2| | | |] eqn:El; try done. injection E as <- <- <-.
  apply guarded_line in El as [G2 Hr]; [|done].
  apply bind_inv in H as (u & [s3 b3] & E & H). unfold on_buffer in E.
  destruct (adbus_buf_remove 0 n b) as [v b2| | | |]; try done. injection E as _ <- <-.
  destruct (r2 =? 0); [by eapply IH|]. by injection H as <- <- _.
Qed.

Lemma guarded_feed (chunks : list (list Z)) : forall (s s' : St) (b b' : Buffer) (r : Z),
  feed chunks (s, b) = Ret r (s', b') -> guarded s -> guarded s' /\ (r = 1 -> okSent (auth s') = true).
Proof.
  induction chunks as [|c chunks IH]; intros s s' b b' r H G; cbn [feed] in H; [by injection H as <- <- <-|].
  apply bind_inv in H as (u & [s1 b1] & E & H). injection E as _ <- <-.
  apply bind_inv in H as (r1 & [s1 b1] & E & H). apply guarded_lines in E as [G1 Hr]; [|done].
  destruct (r1 =? 0); [by eapply IH|]. by injection H as <- <- _.
Qed.
End Secure.

(** ** Chunks do not matter *)
Section Chunks.
Context {B : Build} {W : Type} (send : list Z -> W -> Z * W) (rand : W -> Z * W).
Context (home : option (list Z)) (fgets_all : list Z -> option (list (list Z))) (stack : SHA1).

Notation lines := (parse_lines send rand home fgets_all stack).
Notation parse := (adbus_auth_parse send rand home fgets_all stack).

Lemma find_nl_app (l r : list Z) : forall (k n : nat), find_nl l k = Some n -> find_nl (l ++ r) k = Some n.
Proof. induction l as [|c l IH]; intros k n H; [done|]. simpl in *. destruct (c =? 10); [done|by apply IH]. Qed.

Lemma find_nl_bound (l : list Z) : forall (k n : nat), find_nl l k = Some n -> (k <= n < k + length l)%nat.
Proof.
  induction l as [|c l IH]; intros k n H; [done|]. simpl in *. destruct (c =? 10); [injection H as <-; lia|].
  apply IH in H. lia.
Qed.

Lemma line_bound (b : Buffer) (n : nat) : adbus_buf_line b = Some n -> (1 <= n <= length (b_data b))%nat.
Proof.
  unfold adbus_buf_line. destruct (find_nl (b_data b) 0) as [k|] eqn:E; [|done]. intros [= <-].
  apply find_nl_bound in E. lia.
Qed.

Lemma remove_front (b : Buffer) (n : nat) : (n <= length (b_data b))%nat ->
  adbus_buf_remove 0 n b = Ret tt (set_data (drop n (b_data b)) b).
Proof.
  intros H. unfold adbus_buf_remove. erewrite bind_Ret by reflexivity. cbn [Nat.add].
  rewrite (proj2 (Nat.leb_le _ _) H). erewrite bind_Ret by (by apply assert_true). done.
Qed.

(** One round of the loop. *)
Lemma lines_step (fuel n : nat) (s : St (W := W)) (b : Buffer) : adbus_buf_line b = Some n ->
  lines (S fuel) (s, b) =
  match adbus_auth_line send rand home fgets_all stack (take n (b_data b)) s with
  | Ret r s' => if r =? 0 then lines fuel (s', set_data (drop n (b_data b)) b)
                else Ret r (s', set_data (drop n (b_data b)) b)
  | Err s' => Err (s', b) | Abort => Abort | Oob => Oob | Nofuel => Nofuel
  end.
Proof.
  intros H. cbn [parse_lines]. rewrite H. unfold bind at 1, on_auth.
  destruct (adbus_auth_line _ _ _ _ _ _ s) as [r s'| | | |]; try done.
  unfold bind, on_buffer. rewrite remove_front by (apply line_bound in H; lia). by destruct (r =? 0).
Qed.

(** Enough fuel is enough. *)
Lemma lines_fuel (f1 : nat) : forall (f2 : nat) (s : St (W := W)) (b : Buffer),
  (length (b_data b) <= f1)%nat -> (length (b_data b) <= f2)%nat -> lines f1 (s, b) = lines f2 (s, b).
Proof.
  induction f1 as [|f1 IH]; intros f2 s b H1 H2; destruct (adbus_buf_line b) as [n|] eqn:E.
  - apply line_bound in E. lia.
  - destruct f2; cbn [parse_lines]; by rewrite E.
  - pose proof (line_bound b n E). destruct f2 as [|f2]; [lia|]. rewrite !(lines_step _ n) by done.
    destruct (adbus_auth_line _ _ _ _ _ _ s) as [r s'| | | |]; try done.
    destruct (r =? 0); [|done]. apply IH; cbn [b_data set_data]; rewrite length_drop; lia.
  - destruct f2; cbn [parse_lines]; by rewrite E.
Qed.

Lemma line_more (b : Buffer) (d : list Z) (n : nat) : adbus_buf_line b = Some n ->
  adbus_buf_line (set_data (b_data b ++ d) b) = Some n.
Proof.
  unfold adbus_buf_line. cbn [b_data set_data]. destruct (find_nl (b_data b) 0) as [k|] eqn:E; [|done].
  by rewrite (find_nl_app _ d _ _ E).
Qed.

Lemma lines_app (fuel : nat) : forall (s s1 : St (W := W)) (b b1 : Buffer) (d : list Z) (f : nat),
  lines fuel (s, b) = Ret 0 (s1, b1) -> (length (b_data b ++ d) <= f)%nat ->
  lines f (s, set_data (b_data b ++ d) b) =
    lines (length (b_data b1 ++ d)) (s1, set_data (b_data b1 ++ d) b1).
Proof.
  induction fuel as [|fuel IH]; intros s s1 b b1 d f H Hf; destruct (adbus_buf_line b) as [n|] eqn:E.
  - cbn [parse_lines] in H. by rewrite E in H.
  - cbn [parse_lines] in H. rewrite E in H. injection H as <- <-. apply lines_fuel; cbn [b_data set_data]; lia.
  - rewrite (lines_step _ n) in H by done. pose proof (line_bound b n E) as Hn.
    rewrite length_app in Hf. destruct f as [|f]; [lia|].
    rewrite (lines_step _ n) by (by apply line_more). cbn [b_data set_data].
    rewrite take_app_le by lia. destruct (adbus_auth_line _ _ _ _ _ _ s) as [r s'| | | |]; try done.
    destruct (Z.eqb_spec r 0) as [->|Hr]; [|congruence].
    rewrite drop_app_le by lia. apply (IH s' s1 (set_data (drop n (b_data b)) b) b1 d f H).
    cbn [b_data set_data]. rewrite length_app, length_drop. lia.
  - cbn [parse_lines] in H. rewrite E in H. injection H as <- <-. apply lines_fuel; cbn [b_data set_data]; lia.
Qed.

(** How the stream is cut into pieces does not matter: if parsing asks for
    more after a first piece, then receiving a second piece and parsing again
    does exactly what parsing both at once does. *)
Theorem auth_chunks (s s1 : St (W := W)) (b b1 : Buffer) (d : list Z) :
  parse (s, b) = Ret 0 (s1, b1) ->
  parse (s, set_data (b_data b ++ d) b) = parse (s1, set_data (b_data b1 ++ d) b1).
Proof.
  intros H. unfold adbus_auth_parse in *. cbn [b_data set_data]. by eapply lines_app.
Qed.
End Chunks.


(** C27: A server only reports success when the user's check accepted the
    identity it holds: whatever bytes a client sends, in any pieces, and
    however sending goes, result 1 means that the check returned true for the
    identity of the client. *)
Theorem server_checks_identity {B : Build} {W : Type} (send : list Z -> W -> Z * W) (rand : W -> Z * W)
  (home : option (list Z)) (fgets_all : list Z -> option (list (list Z))) (stack : SHA1)
  (check : list Z -> bool) (uuid : list Z) (chunks : list (list Z)) (w : W) (s' : St) (b' : Buffer) :
  bind (on_auth (adbus_sauth_external (Some check))) (fun _ => feed send rand home fgets_all stack chunks)
    (mkSt w (adbus_sauth_setuuid uuid adbus_sauth_new), adbus_buf_new) = Ret 1 (s', b') ->
  check (cstr (id (auth s'))) = true.
Proof.
  intros H. apply bind_inv in H as (u & [s b] & E & H). injection E as _ <- <-.
  apply (guarded_feed send rand home fgets_all stack check) in H as [(_ & _ & _ & Hc) Ho]; [|by repeat split].
  by apply Hc, Ho.
Qed.

(** ** The handshake *)
Section Handshake.
Context {B : Build} (rand : list Z -> Z * list Z).
Context (home : option (list Z)) (fgets_all : list Z -> option (list (list Z))) (stack : SHA1).

(** A connection that takes everything; the world is what was sent. *)
Definition send_log (d w : list Z) : Z * list Z := (len d, w ++ d).

(** Receiving [d] in state [a]: the result, what is sent back, the new state
    and what stays in the buffer. *)
Definition receive (a : Auth) (d : list Z) : option (Z * list Z * Auth * list Z) :=
  match adbus_auth_parse send_log rand home fgets_all stack (mkSt [] a, set_data d adbus_buf_new) with
  | Ret r (s, b) => Some (r, world s, auth s, b_data b)
  | _ => None
  end.

(** Text: neither NUL nor line ends. *)
Definition texty (l : list Z) : Prop := Forall (fun c => 32 <= c) l.

Lemma find_nl_at (l r : list Z) : Forall (fun c => c <> 10) l -> forall (k : nat),
  find_nl (l ++ 10 :: r) k = Some (k + length l)%nat.
Proof.
  induction 1 as [|c l Hc _ IH]; intros k; cbn [find_nl app length]; [f_equal; lia|].
  rewrite (proj2 (Z.eqb_neq c 10)) by done. rewrite IH. f_equal. lia.
Qed.

Lemma texty_free (l : list Z) (c : Z) : texty l -> c < 32 -> free_of c l.
Proof. intros H Hc. eapply Forall_impl; [exact H|]. cbv beta. intros; lia. Qed.

Lemma texty_no_nul (l : list Z) : texty l -> no_nul (l ++ CRLF).
Proof. intros H. apply Forall_app. split; [by apply texty_free|]. by repeat constructor. Qed.

Lemma texty_app (a b : list Z) : texty a -> texty b -> texty (a ++ b).
Proof. intros. by apply Forall_app. Qed.

Lemma texty_hex (l : list Z) : bytes l -> texty (HexEncode l).
Proof. intros H. eapply Forall_impl; [by apply HexEncode_plain|]. intros; cbv beta in *; lia. Qed.

Lemma texty_forallb (l : list Z) : forallb (fun c => 32 <=? c) l = true -> texty l.
Proof.
  intros H. apply Forall_forall. intros c Hc. rewrite forallb_forall in H.
  apply list_elem_of_In, H in Hc. by apply Z.leb_le in Hc.
Qed.

Lemma Send_text (l : list Z) (w : list Z) (a : Auth) : texty l ->
  Send send_log (l ++ CRLF) (mkSt w a) = Ret 0 (mkSt (w ++ l ++ CRLF) a).
Proof.
  intros H. unfold Send. rewrite cstr_no_nul by (by apply texty_no_nul). unfold bind, get, modify, ret. cbn [send_log].
  rewrite (proj2 (Z.ltb_ge _ _)) by (unfold len; lia). by rewrite Z.eqb_refl.
Qed.

Lemma chop_last {S} (c : Z) (l : list Z) (s : S) : chop c (l ++ [c]) s = Ret l s.
Proof.
  unfold chop. rewrite last_last, Z.eqb_refl, removelast_last. by destruct (l ++ [c]) eqn:E; [by destruct l|].
Qed.

(** A whole line in the buffer. *)
Lemma receive_line (a a' : Auth) (l out : list Z) (r : Z) : texty l ->
  adbus_auth_line send_log rand home fgets_all stack (l ++ CRLF) (mkSt [] a) = Ret r (mkSt out a') ->
  receive a (l ++ CRLF) = Some (r, out, a', []).
Proof.
  intros Hl E. unfold receive, adbus_auth_parse. cbn [b_data set_data].
  assert (Hn : adbus_buf_line (set_data (l ++ CRLF) adbus_buf_new) = Some (length (l ++ CRLF))).
  { unfold adbus_buf_line. cbn [b_data set_data]. change CRLF with ([13] ++ 10 :: []). rewrite app_assoc, find_nl_at.
    - rewrite !length_app. f_equal; cbn [length]; lia.
    - apply Forall_app. split; [by apply texty_free|by repeat constructor]. }
  rewrite length_app. replace (length l + length CRLF)%nat with (S (S (length l))) by (cbn; lia).
  rewrite (lines_step _ _ _ _ _ _ _ _ _ Hn). cbn [b_data set_data]. rewrite firstn_all, E, drop_all.
  by destruct (Z.eqb_spec r 0) as [->|].
Qed.

(** What is done with a line, its end cut off: a command and its argument. *)
Definition handle (a : Auth) (cmd : list Z) (rest : option (list Z)) : M (St (W := list Z)) Z :=
  match rest, server a && MATCH cmd (str "AUTH") with
  | Some r, true =>
      match split_at SP r with
      | Some (mech, data) => ServerAuth send_log mech (HexDecode data)
      | None => run* Send send_log (str "ERROR" ++ CRLF) in ret 0
      end
  | _, _ =>
      if onData a && MATCH cmd (str "DATA") then
        ClientCookie send_log rand home fgets_all stack (match rest with Some r => HexDecode r | None => [] end)
      else if server a && MATCH cmd (str "CANCEL") then ServerReset send_log
      else if server a && okSent a && MATCH cmd (str "BEGIN") then ret 1
      else if negb (server a) && MATCH cmd (str "OK") then run* Send send_log (str "BEGIN" ++ CRLF) in ret 1
      else if negb (server a) && MATCH cmd (str "REJECTED") then ClientReset send_log
      else if MATCH cmd (str "ERROR") then ret (-1)
      else run* Send send_log (str "ERROR" ++ CRLF) in ret 0
  end.

Lemma auth_line_handle (a : Auth) (l : list Z) (w : list Z) :
  adbus_auth_line send_log rand home fgets_all stack (l ++ CRLF) (mkSt w a) =
  (let (cmd, rest) := match split_at SP l with Some (c, r) => (c, Some r) | None => (l, None) end in
   handle a cmd rest) (mkSt w a).
Proof.
  unfold adbus_auth_line. change CRLF with ([13] ++ [10]). rewrite app_assoc.
  rewrite (bind_Ret _ _ _ _ _ (chop_last _ _ _)), (bind_Ret _ _ _ _ _ (chop_last _ _ _)).
  erewrite bind_Ret by reflexivity. cbn [auth]. by destruct (split_at SP l) as [[]|].
Qed.

(** A command with an argument, and without. *)
Lemma receive_arg (a a' : Auth) (cmd arg out : list Z) (r : Z) : texty cmd -> free_of SP cmd -> texty arg ->
  handle a cmd (Some arg) (mkSt [] a) = Ret r (mkSt out a') ->
  receive a ((cmd ++ SP :: arg) ++ CRLF) = Some (r, out, a', []).
Proof.
  intros Hc Hs Ha E. apply receive_line.
  - apply texty_app; [done|]. by constructor.
  - by rewrite auth_line_handle, split_at_app.
Qed.

Lemma split_free (c : Z) (l : list Z) : free_of c l -> split_at c l = None.
Proof. induction 1 as [|x l Hx _ IH]; [done|]. cbn [split_at]. by rewrite (proj2 (Z.eqb_neq x c) Hx), IH. Qed.

Lemma receive_bare (a a' : Auth) (cmd out : list Z) (r : Z) : texty cmd -> free_of SP cmd ->
  handle a cmd None (mkSt [] a) = Ret r (mkSt out a') -> receive a (cmd ++ CRLF) = Some (r, out, a', []).
Proof. intros Hc Hs E. apply receive_line; [done|]. by rewrite auth_line_handle, split_free. Qed.

(** Both sides after their setup. *)
Definition client_ready (uid : Z) : Auth := set_external NOT_TRIED (adbus_cauth_new uid).
Definition server_ready (uuid : list Z) (check : list Z -> bool) : Auth :=
  set_externalcb (Some check) (set_external NOT_TRIED (adbus_sauth_setuuid uuid adbus_sauth_new)).

Definition REJECT : list Z := str "REJECTED EXTERNAL" ++ CRLF.
Definition BEGIN_LINE : list Z := str "BEGIN" ++ CRLF.

Section Sides.
Context (uid : Z) (Huid : 0 <= uid < 2 ^ 31) (uuid : list Z) (Huuid : bytes uuid) (check : list Z -> bool).

Lemma uid_bytes : bytes (dec uid).
Proof.
  eapply Forall_impl; [apply (dec_digits uid); lia|]. cbv beta. intros c H. unfold is_digit in H.
  rewrite andb_true_iff, !Z.leb_le in H. lia.
Qed.

Lemma uid_cstr : cstr (dec uid) = dec uid.
Proof.
  apply cstr_no_nul. eapply Forall_impl; [apply (dec_digits uid); lia|]. cbv beta. intros c H. unfold is_digit in H.
  rewrite andb_true_iff, !Z.leb_le in H. lia.
Qed.

(** What the client sends first, and after a rejection. *)
Definition auth_line_of (mech : list Z) : list Z := (str "AUTH" ++ SP :: mech ++ SP :: HexEncode (dec uid)) ++ CRLF.

Lemma client_starts : adbus_cauth_start send_log (mkSt [] (client_ready uid)) =
  Ret 0 (mkSt (auth_line_of (str "EXTERNAL")) (set_external BEGIN (set_onData false (client_ready uid)))).
Proof.
  unfold adbus_cauth_start, ClientReset. erewrite bind_Ret by reflexivity.
  rewrite bool_decide_true by done. do 2 (erewrite bind_Ret by reflexivity).
  pose proof (Send_text (str "AUTH EXTERNAL " ++ HexEncode (dec uid)) []
    (set_external BEGIN (set_onData false (client_ready uid)))) as H.
  rewrite <- app_assoc in H. apply H. apply texty_app; [by apply texty_forallb|]. apply texty_hex, uid_bytes.
Qed.

Lemma arg_texty (mech : list Z) : texty mech -> texty (mech ++ SP :: HexEncode (dec uid)).
Proof. intros H. apply texty_app; [done|]. constructor; [done|]. apply texty_hex, uid_bytes. Qed.

(** What the server answers to an AUTH line. *)
Lemma server_auth_line (a a' : Auth) (mech out : list Z) : server a = true -> texty mech -> free_of SP mech ->
  ServerAuth send_log mech (dec uid) (mkSt [] a) = Ret 0 (mkSt out a') ->
  receive a (auth_line_of mech) = Some (0, out, a', []).
Proof.
  intros Hs Hm Hf E. apply receive_arg; [by apply texty_forallb|by repeat constructor|by apply arg_texty|].
  unfold handle. rewrite Hs. cbn [andb].
  rewrite (proj2 (list_eqb_eq (str "AUTH") (str "AUTH")) eq_refl : MATCH (str "AUTH") (str "AUTH") = true).
  by rewrite split_at_app, hex_roundtrip_ by (done || apply uid_bytes).
Qed.

Definition heard : Auth := set_external BEGIN (set_id (dec uid) (server_ready uuid check)).

Lemma bytes_cstr (l : list Z) : bytes l -> bytes (cstr l).
Proof. induction 1 as [|b l Hb _ IH]; cbn [cstr]; [constructor|]. destruct (b =? 0); [constructor|by constructor]. Qed.

Lemma ok_texty : texty (str "OK " ++ HexEncode (cstr uuid)).
Proof.
  apply texty_app; [by apply texty_forallb|]. by apply texty_hex, bytes_cstr.
Qed.

Lemma server_hears : receive (server_ready uuid check) (auth_line_of (str "EXTERNAL")) =
  Some (0, if check (dec uid) then okCmd heard else REJECT, set_okSent (check (dec uid)) heard, []).
Proof.
  apply server_auth_line; [done|by apply texty_forallb|by repeat constructor|].
  unfold ServerAuth. do 2 (erewrite bind_Ret by reflexivity).
  assert (Em : MATCH (str "EXTERNAL") (str "EXTERNAL") = true) by (by apply list_eqb_eq). rewrite Em.
  cbn [auth set_id server_ready set_externalcb set_external external].
  rewrite bool_decide_true by done. cbn [andb]. unfold ServerExternalInit.
  do 2 (erewrite bind_Ret by reflexivity). cbn [auth externalcb set_external set_id server_ready set_externalcb id].
  rewrite uid_cstr. destruct (check (dec uid)).
  - unfold ServerOk. do 2 (erewrite bind_Ret by reflexivity).
    pose proof (Send_text (str "OK " ++ HexEncode (cstr uuid)) [] (set_okSent true heard) ok_texty) as H.
    rewrite <- app_assoc in H. apply H.
  - unfold ServerReset. erewrite bind_Ret by reflexivity.
    apply (Send_text (str "REJECTED EXTERNAL") [] (set_okSent false heard)). by apply texty_forallb.
Qed.

(** The client after its first line. *)
Definition asked : Auth := set_external BEGIN (set_onData false (client_ready uid)).

Lemma client_accepts : receive asked (okCmd heard) = Some (1, BEGIN_LINE, asked, []).
Proof.
  assert (E : okCmd heard = (str "OK" ++ SP :: HexEncode (cstr uuid)) ++ CRLF) by (by rewrite <- app_assoc).
  rewrite E. apply receive_arg; [by apply texty_forallb|by repeat constructor|..].
  - pose proof ok_texty as H. apply Forall_app in H as [_ H]. exact H.
  - unfold handle. assert (Eo : MATCH (str "OK") (str "OK") = true) by done.
    cbn [asked server set_external set_onData client_ready adbus_cauth_new onData andb negb]. rewrite Eo.
    erewrite bind_Ret; [reflexivity|]. apply (Send_text (str "BEGIN") [] asked). by apply texty_forallb.
Qed.

Lemma server_begins : receive (set_okSent true heard) BEGIN_LINE = Some (1, [], set_okSent true heard, []).
Proof. apply receive_bare; [by apply texty_forallb|by repeat constructor|]. reflexivity. Qed.

Definition retried : Auth := set_cookie BEGIN (set_onData true asked).

Lemma client_retries : receive asked REJECT = Some (0, auth_line_of (str "DBUS_COOKIE_SHA1"), retried, []).
Proof.
  assert (E : REJECT = (str "REJECTED" ++ SP :: str "EXTERNAL") ++ CRLF) by done.
  rewrite E. apply receive_arg; [by apply texty_forallb|by repeat constructor|by apply texty_forallb|].
  unfold handle. cbn [asked server set_external set_onData client_ready adbus_cauth_new onData andb negb].
  change (MATCH (str "REJECTED") (str "OK")) with false. change (MATCH (str "REJECTED") (str "REJECTED")) with true.
  cbv iota. unfold ClientReset. erewrite bind_Ret by reflexivity.
  rewrite bool_decide_false, bool_decide_true by done. do 2 (erewrite bind_Ret by reflexivity).
  pose proof (Send_text (str "AUTH DBUS_COOKIE_SHA1 " ++ HexEncode (dec uid)) [] retried) as H.
  rewrite <- app_assoc in H. apply H. apply texty_app; [by apply texty_forallb|]. apply texty_hex, uid_bytes.
Qed.

Lemma server_rejects (a : Auth) : server a = true -> external a = BEGIN ->
  receive a (auth_line_of (str "DBUS_COOKIE_SHA1")) = Some (0, REJECT, set_okSent false (set_id (dec uid) a), []).
Proof.
  intros Hs He. apply server_auth_line; [done|by apply texty_forallb|by repeat constructor|].
  unfold ServerAuth. do 2 (erewrite bind_Ret by reflexivity). cbn [auth set_id external]. rewrite He.
  rewrite bool_decide_false by done. cbn [andb]. unfold ServerReset. erewrite bind_Ret by reflexivity.
  apply (Send_text (str "REJECTED EXTERNAL") []). by apply texty_forallb.
Qed.

Lemma client_gives_up : receive retried REJECT = Some (-1, [], retried, []).
Proof.
  assert (E : REJECT = (str "REJECTED" ++ SP :: str "EXTERNAL") ++ CRLF) by done.
  rewrite E. by apply receive_arg; [by apply texty_forallb|by repeat constructor|by apply texty_forallb|].
Qed.
End Sides.

(** C37: The handshake of this library's client with this library's server:
    when the server's check accepts the client's user id, the client reports
    success after one answer and the server after BEGIN, holding that id; when
    it does not, the client tries the cookie method, is rejected again (the
    server knows no cookies), and reports an error. *)
Theorem external_handshake (uid : Z) (uuid : list Z) (check : list Z -> bool) :
  0 <= uid < 2 ^ 31 -> bytes uuid ->
  exists hello c1 reply s1,
    bind adbus_cauth_external (fun _ => adbus_cauth_start send_log) (mkSt [] (adbus_cauth_new uid)) =
      Ret 0 (mkSt hello c1) /\
    adbus_sauth_external (Some check) (mkSt [] (adbus_sauth_setuuid uuid adbus_sauth_new)) =
      Ret tt (mkSt (W := list Z) [] (server_ready uuid check)) /\
    receive (server_ready uuid check) hello = Some (0, reply, s1, []) /\
    if check (dec uid) then
      receive c1 reply = Some (1, BEGIN_LINE, c1, []) /\
      receive s1 BEGIN_LINE = Some (1, [], s1, []) /\ id s1 = dec uid
    else
      exists c2 s2 retry, receive c1 reply = Some (0, retry, c2, []) /\
        receive s1 retry = Some (0, reply, s2, []) /\ receive c2 reply = Some (-1, [], c2, []).
Proof.
  intros Hu Hb. exists (auth_line_of uid (str "EXTERNAL")), (asked uid),
    (if check (dec uid) then okCmd (heard uid uuid check) else REJECT),
    (set_okSent (check (dec uid)) (heard uid uuid check)).
  split; [erewrite bind_Ret by reflexivity; by apply client_starts|]. split; [done|].
  split; [by apply server_hears|]. destruct (check (dec uid)).
  - split; [by apply client_accepts|]. split; [by apply server_begins|done].
  - eexists _, _, _. split; [by apply client_retries|]. split; [by apply server_rejects|by apply client_gives_up].
Qed.
End Handshake.

(** ** Samples *)
Definition no_rand (w : list Z) : Z * list Z := (0, w).
Definition no_file (_ : list Z) : option (list (list Z)) := None.
Definition sha_zero : SHA1 := mkSha init_words (repeat 0 64) 0 0.
Definition only_1000 (i : list Z) : bool := list_eqb i (str "1000").

Definition sample_server : St := mkSt (W := list Z) [] (server_ready (str "u") only_1000).
Definition sample_chunks : list (list Z) :=
  [str "AUTH EXTER"; str "NAL 31303030" ++ CRLF ++ str "BEG"; str "IN" ++ CRLF].

Definition sample_end : outcome (St * Buffer) Z :=
  feed (B := debug_build) send_log no_rand None no_file sha_zero sample_chunks (sample_server, adbus_buf_new).
Definition end_state : St := match sample_end with Ret _ (s, _) => s | _ => sample_server end.
Definition end_buffer : Buffer := match sample_end with Ret _ (_, b) => b | _ => adbus_buf_new end.

Lemma server_checks_identity_witness : only_1000 (cstr (id (auth end_state))) = true.
Proof.
  exact (server_checks_identity (B := debug_build) send_log no_rand None no_file sha_zero only_1000 (str "u")
    sample_chunks [] end_state end_buffer ltac:(vm_compute; reflexivity)).
Defined.

Lemma auth_chunks_witness :
  let run := adbus_auth_parse (B := debug_build) send_log no_rand None no_file sha_zero in
  run (sample_server, set_data ((str "CANCEL" ++ CRLF ++ str "AUTH EXTER") ++ str "NAL 30" ++ CRLF) adbus_buf_new) =
  run (mkSt REJECT (auth sample_server), set_data (str "AUTH EXTER" ++ str "NAL 30" ++ CRLF) adbus_buf_new).
Proof.
  exact (auth_chunks (B := debug_build) send_log no_rand None no_file sha_zero sample_server
    (mkSt REJECT (auth sample_server))
    (set_data (str "CANCEL" ++ CRLF ++ str "AUTH EXTER") adbus_buf_new) (set_data (str "AUTH EXTER") adbus_buf_new)
    (str "NAL 30" ++ CRLF) ltac:(vm_compute; reflexivity)).
Defined.

Lemma external_handshake_witness : exists hello c1 reply s1,
  receive (B := debug_build) no_rand None no_file sha_zero (server_ready (str "u") only_1000) hello
    = Some (0, reply, s1, []) /\
  receive (B := debug_build) no_rand None no_file sha_zero c1 reply = Some (1, BEGIN_LINE, c1, []).
Proof.
  destruct (external_handshake (B := debug_build) no_rand None no_file sha_zero 1000 (str "u") only_1000
    ltac:(lia) ltac:(apply bytes_forallb; reflexivity)) as (h & c & r & s & _ & _ & H1 & H2).
  exists h, c, r, s. split; [exact H1|].
  assert (E : only_1000 (dec 1000) = true) by reflexivity. rewrite E in H2. apply H2.
Defined.

(** An empty line reads the byte before the buffer. *)
Example empty_line_underflow :
  adbus_auth_line (B := debug_build) send_log no_rand None no_file sha_zero [10] sample_server = Oob.
Proof. by vm_compute. Qed.
