(* ===== verification/Receive.v ===== *)
(** What the bus does with the bytes of a remote: adbus/server-parse.c.
    Messages are cut out of the stream, the sender field of each is replaced
    by the unique name of the remote, and the message is dispatched. *)

From Stdlib Require Import ZArith Lia.
From stdpp Require Import base option list numbers strings gmap.
From S2P Require Import Prelude Signature Iterator Values Buffer Flip Text MatchRule Message Factory Server Registry Dispatch.
Open Scope Z_scope.

(** ** FixHeaders

    [fx_buf] is the buffer after the room for the message structure;
    [fx_native] and [fx_parsed] are the remote's [native] and
    [parsedMsgSize]. *)
Record Fix := mkFix { fx_buf : Buffer; fx_it : Iterator; fx_native : bool; fx_parsed : Z }.

Definition fx_set_it (i : Iterator) (x : Fix) : Fix := mkFix (fx_buf x) i (fx_native x) (fx_parsed x).
Definition fx_set_buf (b : Buffer) (x : Fix) : Fix := mkFix b (fx_it x) (fx_native x) (fx_parsed x).

(** An iterator operation on the buffer's bytes; a buffer operation. *)
Definition fx_iter {A} (op : list Z -> M Iterator A) : M Fix A := fun x =>
  match op (b_data (fx_buf x)) (fx_it x) with
  | Ret a i => Ret a (fx_set_it i x)
  | Err i => Err (fx_set_it i x)
  | Abort => Abort | Oob => Oob | Nofuel => Nofuel
  end.

Definition fx_write {A} (op : M Buffer A) : M Fix A := fun x =>
  match op (fx_buf x) with
  | Ret a b => Ret a (fx_set_buf b x)
  | Err b => Err (fx_set_buf b x)
  | Abort => Abort | Oob => Oob | Nofuel => Nofuel
  end.

Definition fx_peek (p : Z) (n : nat) : M Fix Z := let* x := get in load (b_data (fx_buf x)) p n.

Section Fix.
Context {B : Build}.

(** [adbus_flip_data] on the whole buffer. *)
Definition fx_flip (s : list Z) : M Fix unit := fun x =>
  let m := b_data (fx_buf x) in
  match adbus_flip_data (length m + 16) m 0 (len m) s with
  | Ret _ (m', _) => Ret tt (fx_set_buf (set_data m' (fx_buf x)) x)
  | Err (m', _) => Err (fx_set_buf (set_data m' (fx_buf x)) x)
  | Abort => Abort | Oob => Oob | Nofuel => Nofuel
  end.

(** The body of the loop over the fields; the result is the array with the
    size of a removed sender field taken off. *)
Definition fix_field (a : IterArray) : M Fix IterArray :=
  let* x := get in
  let fieldbegin := data (fx_it x) in
  run* fx_iter (fun _ => adbus_iter_beginstruct) in
  let* pcode := fx_iter (fun _ => adbus_iter_u8) in
  let* v := fx_iter adbus_iter_beginvariant in
  run* fx_iter (fun m i => adbus_iter_value m (S (measure i)) i) in
  run* fx_iter (fun _ => adbus_iter_endvariant v) in
  run* fx_iter (fun _ => adbus_iter_endstruct) in
  run* fx_iter (fun _ => adbus_iter_align 8) in
  let* code := fx_peek pcode 1 in
  if code =? HEADER_SENDER then
    let* x := get in
    let i := fx_it x in
    let fieldsz := data i - fieldbegin in
    run* fx_write (adbus_buf_remove (Z.to_nat fieldbegin) (Z.to_nat fieldsz)) in
    run* modify (fx_set_it (mkIter (data i - fieldsz) (size i) (sig i))) in
    ret (mkArray (a_sig a) (a_sigsz a) (a_data a) (a_size a - fieldsz))
  else ret a.

Fixpoint fix_fields (fuel : nat) (a : IterArray) : M Fix unit :=
  let* more := fx_iter (fun _ => adbus_iter_inarray a) in
  if more then
    match fuel with
    | O => nofuel
    | S fuel' => let* a := fix_field a in fix_fields fuel' a
    end
  else ret tt.

(** The new sender field. *)
Definition add_sender (unique : list Z) : M Buffer unit :=
  run* adbus_buf_setsig (str "(yv)") 4 in
  run* adbus_buf_beginstruct in
  run* adbus_buf_u8 HEADER_SENDER in
  let* v := adbus_buf_beginvariant (str "s") 1 in
  run* adbus_buf_string unique (len unique) in
  run* adbus_buf_endvariant v in
  adbus_buf_endstruct.

(** Storing into the 4 bytes of [h->headerFieldLength]. *)
Definition store_hfl (v : Z) : M Buffer unit :=
  modify (fun b => set_data (memcpy_into (b_data b) 12 (le_bytes 4 v)) b).

(** Up to the start of the array of fields. *)
Definition fix_open : M Fix IterArray :=
  let* e := fx_peek off_endianness 1 in
  run* modify (fun x => mkFix (set_data (<[0%nat := adbusI_nativeEndianness]> (b_data (fx_buf x))) (fx_buf x))
                         (fx_it x) (e =? adbusI_nativeEndianness) (fx_parsed x)) in
  run* (if e =? adbusI_nativeEndianness then ret tt else fx_flip HEADER_SIG) in
  let* hfl := fx_peek off_headerFieldLength 4 in
  let i := mkIter sizeof_Header (4 + ADBUS_ALIGN hfl 8) (str "a(yv)") in
  run* modify (fx_set_it i) in
  let* x := get in
  run* assert_ (data i + size i =? adbus_buf_size (fx_buf x)) in
  fx_iter adbus_iter_beginarray.

(** From the end of the loop over the fields. *)
Definition fix_close (unique : list Z) (arraybegin msgSize headerSize : Z) : M Fix unit :=
  run* fx_write (add_sender unique) in
  let* x := get in
  let hfl := adbus_buf_size (fx_buf x) - arraybegin in
  run* fx_write (store_hfl hfl) in
  run* fx_write (adbus_buf_align 8) in
  modify (fun x => mkFix (fx_buf x) (fx_it x) (fx_native x)
                     (msgSize - headerSize + ADBUS_ALIGN (hfl mod 2 ^ 32) 8 + sizeof_ExtendedHeader)).

Definition FixHeaders (unique : list Z) (msgSize headerSize : Z) : M Fix unit :=
  let* a := fix_open in
  let* x := get in
  let arraybegin := data (fx_it x) in
  run* fix_fields (S (length (b_data (fx_buf x)))) a in
  fix_close unique arraybegin msgSize headerSize.
End Fix.

(** ** Header fields as values *)

(** A field: its code and its value. *)
Definition field : Type := Z * value.
Definition fieldv (f : field) : value := VStruct [VNum UINT8 (fst f); VVariant (snd f)].

(** A field with the padding after it. *)
Definition block (f : field) : list Z := enc 0 (fieldv f) ++ zeros (pad (len (enc 0 (fieldv f))) 8).

Definition blocks (fs : list field) : list Z := concat (map block fs).

Definition header_enc (fs : list field) : list Z := encs 16 (map fieldv fs).

(** A field is well formed wherever it is put. *)
Definition field_ok (f : field) : Prop := wf 0 (fieldv f).

Section Blocks.

Lemma aligned_8 (d : Z) : d mod 8 = 0 -> d = 0 + 8 * (d / 8).
Proof. intros H. Z.div_mod_to_equations. lia. Qed.

Lemma field_at (d : Z) (f : field) : d mod 8 = 0 -> field_ok f ->
  enc d (fieldv f) = enc 0 (fieldv f) /\ wf d (fieldv f).
Proof. intros Hd Hf. rewrite (aligned_8 d Hd). by apply value_shifts. Qed.

Lemma pad_mod (d n : Z) : d mod 8 = 0 -> pad (d + n) 8 = pad n 8.
Proof.
  intros Hd. rewrite (aligned_8 d Hd). replace (0 + 8 * (d / 8) + n) with (n + 8 * (d / 8)) by lia.
  by apply pad_shift.
Qed.

Lemma len_block (f : field) : len (block f) = len (enc 0 (fieldv f)) + pad (len (enc 0 (fieldv f))) 8.
Proof. unfold block. by rewrite len_app, len_zeros_pad by auto with adbus. Qed.

Lemma block_mod (f : field) : len (block f) mod 8 = 0.
Proof. rewrite len_block, <- align_pad. by apply align_mod. Qed.

Lemma fieldv_len (f : field) (d : Z) : 0 < len (enc d (fieldv f)).
Proof.
  unfold fieldv. rewrite enc_struct, len_app. generalize (d + pad d 8) as q. intros q.
  change (encs q [VNum UINT8 (fst f); VVariant (snd f)]) with
    (enc q (VNum UINT8 (fst f)) ++ encs (q + len (enc q (VNum UINT8 (fst f)))) [VVariant (snd f)]).
  rewrite len_app. cbn [enc width]. rewrite len_app, len_le_bytes.
  pose proof (len_nonneg (zeros (pad d 8))). pose proof (len_nonneg (zeros (pad q 1))).
  match goal with |- context [len (encs ?a ?b)] => pose proof (len_nonneg (encs a b)) end. lia.
Qed.

Lemma block_pos (f : field) : 8 <= len (block f).
Proof.
  pose proof (block_mod f) as Hm. pose proof (fieldv_len f 0). rewrite len_block in *.
  pose proof (pad_bounds (len (enc 0 (fieldv f))) 8 boundary_8). Z.div_mod_to_equations. lia.
Qed.

Lemma blocks_mod (fs : list field) : len (blocks fs) mod 8 = 0.
Proof.
  induction fs as [|f fs IH]; [done|]. cbn [blocks map concat]. rewrite len_app.
  pose proof (block_mod f). fold (blocks fs). Z.div_mod_to_equations. lia.
Qed.

Lemma blocks_app (a b : list field) : blocks (a ++ b) = blocks a ++ blocks b.
Proof. unfold blocks. by rewrite map_app, concat_app. Qed.

Lemma field_padded (p : Z) (f : field) : field_ok f ->
  enc p (fieldv f) = zeros (pad p 8) ++ enc 0 (fieldv f).
Proof.
  intros Hf. destruct (field_at (p + pad p 8) f) as [E _]; [rewrite <- align_pad; by apply align_mod|done|].
  rewrite <- E. unfold fieldv. rewrite !enc_struct, pad_pad by auto with adbus. by rewrite zeros_0, Z.add_0_r.
Qed.

(** The array body with its final padding is the blocks. *)
Lemma encs_blocks (fs : list field) : Forall field_ok fs -> forall p,
  encs p (map fieldv fs) ++ zeros (pad (p + len (encs p (map fieldv fs))) 8) = zeros (pad p 8) ++ blocks fs.
Proof.
  induction 1 as [|f fs Hf _ IH]; intros p.
  - change (encs p (map fieldv [])) with (@nil Z). change (len []) with 0. by rewrite Z.add_0_r, app_nil_r.
  - cbn [map blocks concat]. fold (blocks fs).
    change (encs p (fieldv f :: map fieldv fs)) with
      (enc p (fieldv f) ++ encs (p + len (enc p (fieldv f))) (map fieldv fs)).
    rewrite len_app, Z.add_assoc, <- app_assoc, IH, field_padded by done.
    rewrite len_app, len_zeros_pad by auto with adbus. rewrite Z.add_assoc, pad_mod.
    + unfold block. by rewrite <- !app_assoc.
    + rewrite <- align_pad. by apply align_mod.
Qed.
End Blocks.

Section FieldRun.
Context {B : Build}.

(** The iterator over one encoded field, call by call. *)
Lemma field_run (m : list Z) (d s : Z) (f : field) :
  wf d (fieldv f) -> at_ m d (enc d (fieldv f)) -> len (enc d (fieldv f)) <= s ->
  exists i1 q i2 bv i3 i4 bv' i5 s',
    adbus_iter_beginstruct (mkIter d s (str "(yv)")) = Ret tt i1 /\ adbus_iter_u8 i1 = Ret q i2 /\
    adbus_iter_beginvariant m i2 = Ret bv i3 /\ (forall T (x : T), load m q 1 x = Ret (fst f) x) /\
    adbus_iter_value m (S (measure i3)) i3 = Ret tt i4 /\ adbus_iter_endvariant bv i4 = Ret bv' i5 /\
    adbus_iter_endstruct i5 = Ret tt (mkIter (d + len (enc d (fieldv f))) s' []) /\
    s - len (enc d (fieldv f)) <= s' /\ d <= q < d + len (enc d (fieldv f)).
Proof.
  destruct f as [c v]. unfold fieldv. cbn [fst snd]. rewrite wf_struct, enc_struct.
  intros [Hwc [[Hwl Hwv] _]] Hat Hs. set (q := d + pad d 8) in *. set (t := ty_of v) in *.
  assert (Eenc : encs q [VNum UINT8 c; VVariant v] =
    [c] ++ enc_signature (sig_of t) ++ enc (q + 1 + len (enc_signature (sig_of t))) v).
  { cbn [encs seq_enc enc width]. rewrite pad_1, app_nil_r. cbn [zeros Z.to_nat repeat app le_bytes].
    destruct Hwc as [_ Hwc]. change (2 ^ (8 * width UINT8)) with 256 in Hwc.
    change (Z.to_nat 1) with 1%nat. cbn [le_bytes app]. rewrite Z.mod_small by lia. reflexivity. }
  assert (Ewf : q + len (enc q (VNum UINT8 c)) = q + 1).
  { cbn [enc width]. rewrite pad_1. change (Z.to_nat 1) with 1%nat. done. }
  rewrite Ewf in Hwv. fold t in Hwv.
  rewrite Eenc in *. clear Eenc. set (hs := enc_signature (sig_of t)) in *. set (e := q + 1 + len hs) in *.
  rewrite len_app, len_zeros_pad, len_app, len_app in * by auto with adbus.
  change (len [c]) with 1 in *.
  pose proof (wf_head _ _ Hwv) as [Hw1 Hw2]. pose proof (enc_aligned e v Hw1 Hw2) as Ea.
  pose proof (pad_bounds e _ (head_boundary t)) as Hpad. unfold value_alignment in Ea. fold t in Ea.
  assert (El : len (enc e v) = pad e (field_alignment (head_of t)) + len (enc (aligned e v) v)).
  { rewrite Ea at 1. by rewrite len_app, len_zeros_pad by apply head_boundary. }
  assert (Ep : aligned e v = e + pad e (field_alignment (head_of t))) by reflexivity.
  pose proof (len_nonneg (enc (aligned e v) v)). pose proof (len_nonneg hs).
  pose proof (pad_bounds d 8 boundary_8).
  apply at_zeros in Hat; [|auto with adbus]. fold q in Hat. pose proof Hat as Hcode.
  apply at_app in Hat as [_ Hat]. change (Z.of_nat (length [c])) with 1 in Hat.
  pose proof Hat as Hsig. apply at_app in Hat as [_ Hat]. fold (len hs) in Hat. fold e in Hat.
  assert (Hin : at_ m (aligned e v) (enc (aligned e v) v)).
  { rewrite Ea in Hat. apply at_zeros in Hat; [done|apply head_boundary]. }
  assert (Hwa : wf (aligned e v) v) by (by apply wf_aligned).
  pose proof (vfuel_bound v (aligned e v) Hwa) as Hfuel. fold t in Hfuel.
  eexists _, q, _, _, _, _, _, _, _. split; [apply begin_scope_ok; [done|lia]|]. fold q.
  split; [unfold adbus_iter_u8; erewrite bind_Ret by (by apply sig_ok); apply get8_ok; lia|].
  split; [exact (beginvariant_ok m (q + 1) (s - pad d 8 - 1) t (str ")") (enc e v) Hsig ltac:(fold hs e; lia))|].
  split; [intros T x; exact (load8_at m q c _ x Hcode)|]. fold hs e. rewrite <- !Ep.
  split.
  { rewrite <- (app_nil_r (sig_of t)) at 2. apply (value_skip m v (aligned e v) Hwa Hin); [|lia].
    unfold measure. cbn [sig size]. unfold len in *. lia. }
  split.
  { unfold adbus_iter_endvariant. rewrite (bind_Ret get _ _ _ _ eq_refl).
    cbn [sig deref hd]. rewrite (bind_Ret (require true) _ _ _ tt eq_refl).
    rewrite (bind_Ret (put _) _ _ _ tt eq_refl). reflexivity. }
  unfold set_sig. cbn [data size sig v_origsig].
  split.
  { unfold adbus_iter_endstruct. rewrite sig_ok by done. cbn [tl str]. f_equal.
    instantiate (1 := s - pad d 8 - 1 - (aligned e v - (q + 1)) - len (enc (aligned e v) v) + slack (aligned e v) v).
    f_equal. lia. }
  pose proof (slack_nonneg (aligned e v) v). lia.
Qed.
End FieldRun.

Section FixRun.
Context {B : Build}.

Lemma fx_iter_Ret {A} (op : list Z -> M Iterator A) (b : Buffer) (i i' : Iterator) (n : bool) (p : Z) (a : A) :
  op (b_data b) i = Ret a i' -> fx_iter op (mkFix b i n p) = Ret a (mkFix b i' n p).
Proof. intros H. unfold fx_iter. cbn [fx_buf fx_it]. by rewrite H. Qed.

Lemma fx_write_Ret {A} (op : M Buffer A) (b b' : Buffer) (i : Iterator) (n : bool) (p : Z) (a : A) :
  op b = Ret a b' -> fx_write op (mkFix b i n p) = Ret a (mkFix b' i n p).
Proof. intros H. unfold fx_write. cbn [fx_buf]. by rewrite H. Qed.

Lemma fx_peek_Ret (b : Buffer) (i : Iterator) (n : bool) (q : Z) (p v : Z) (k : nat) :
  (forall T (s : T), load (b_data b) p k s = Ret v s) -> fx_peek p k (mkFix b i n q) = Ret v (mkFix b i n q).
Proof. intros H. unfold fx_peek. rewrite (bind_Ret get _ _ _ _ eq_refl). apply H. Qed.

(** Taking [n] bytes after [P] out. *)
Lemma remove_mid (P E Q arr : list Z) (sp : sigptr) :
  adbus_buf_remove (length P) (length E) (mkBuf (P ++ E ++ Q) arr sp) = Ret tt (mkBuf (P ++ Q) arr sp).
Proof.
  unfold adbus_buf_remove. rewrite (bind_Ret get _ _ _ _ eq_refl). cbn [b_data].
  assert (Hl : (length P + length E <=? length (P ++ E ++ Q))%nat = true).
  { apply Nat.leb_le. rewrite !length_app. lia. }
  rewrite Hl. erewrite bind_Ret by (by apply assert_true). unfold put, set_data. cbn [b_data b_sig b_sigp].
  do 2 f_equal. rewrite take_app_length. f_equal. rewrite <- drop_drop, drop_app_length. apply drop_app_length.
Qed.

Definition is_sender (f : field) : bool := fst f =? HEADER_SENDER.

Lemma fix_field_ok (P Q arr : list Z) (sp : sigptr) (f : field) (s p : Z) (n : bool) (a : IterArray) :
  len P mod 8 = 0 -> field_ok f -> len (block f) <= s ->
  exists s', s - len (block f) <= s' /\
  fix_field a (mkFix (mkBuf (P ++ block f ++ Q) arr sp) (mkIter (len P) s (str "(yv)")) n p) =
  if is_sender f
  then Ret (mkArray (a_sig a) (a_sigsz a) (a_data a) (a_size a - len (block f)))
         (mkFix (mkBuf (P ++ Q) arr sp) (mkIter (len P) s' []) n p)
  else Ret a (mkFix (mkBuf (P ++ block f ++ Q) arr sp) (mkIter (len P + len (block f)) s' []) n p).
Proof.
  intros Hd Hf Hs. set (m := P ++ block f ++ Q). set (d := len P) in *.
  destruct (field_at d f Hd Hf) as [Ee Hw]. set (e := enc 0 (fieldv f)) in *.
  assert (Hb : block f = e ++ zeros (pad (len e) 8)) by reflexivity.
  assert (Hat : at_ m d e).
  { unfold m, d. rewrite Hb. rewrite <- app_assoc. apply at_mid. }
  rewrite <- Ee in Hat. pose proof (pad_bounds (len e) 8 boundary_8) as Hp8.
  assert (Hlb : len (block f) = len e + pad (len e) 8) by apply len_block.
  destruct (field_run m d s f Hw Hat ltac:(rewrite Ee; lia))
    as (i1 & q & i2 & bv & i3 & i4 & bv' & i5 & s1 & E1 & E2 & E3 & E4 & E5 & E6 & E7 & Hs1 & Hq).
  rewrite Ee in E7, Hs1. exists (s1 - pad (len e) 8). split; [lia|].
  unfold fix_field. rewrite (bind_Ret get _ _ _ _ eq_refl). cbn [fx_it data].
  erewrite bind_Ret by (by apply fx_iter_Ret). erewrite bind_Ret by (apply fx_iter_Ret; exact E2).
  erewrite bind_Ret by (apply fx_iter_Ret; exact E3). erewrite bind_Ret by (apply fx_iter_Ret; exact E5).
  erewrite bind_Ret by (apply fx_iter_Ret; exact E6). erewrite bind_Ret by (apply fx_iter_Ret; exact E7).
  erewrite bind_Ret.
  2:{ apply fx_iter_Ret, align_ok. rewrite pad_mod by done. lia. }
  rewrite pad_mod by done. erewrite bind_Ret by (apply fx_peek_Ret; exact E4).
  fold (is_sender f). replace (d + len e + pad (len e) 8) with (d + len (block f)) by lia.
  destruct (is_sender f); [|done]. rewrite (bind_Ret get _ _ _ _ eq_refl). cbn [fx_it data].
  replace (d + len (block f) - d) with (len (block f)) by lia.
  assert (Er : adbus_buf_remove (Z.to_nat d) (Z.to_nat (len (block f))) (mkBuf m arr sp) = Ret tt (mkBuf (P ++ Q) arr sp)).
  { unfold d, len. rewrite !Nat2Z.id. apply remove_mid. }
  erewrite bind_Ret by (apply fx_write_Ret; exact Er).
  erewrite bind_Ret by reflexivity. unfold ret, fx_set_it. cbn [fx_buf fx_it fx_native fx_parsed data size sig].
  do 3 f_equal. lia.
Qed.

(** The loop: sender fields go, the others stay in place. *)
Lemma fix_fields_ok (todo : list field) : forall (P arr : list Z) (sp : sigptr) (s p fp : Z) (n : bool) (a : IterArray) (fuel : nat) (g : list Z),
  len P mod 8 = 0 -> Forall field_ok todo -> len (blocks todo) <= s -> a_sig a = str "(yv)" ->
  a_data a + a_size a = len P + len (blocks todo) - fp -> 0 <= fp < 8 -> (length todo < fuel)%nat ->
  exists it, fix_fields fuel a (mkFix (mkBuf (P ++ blocks todo) arr sp) (mkIter (len P) s g) n p) =
    Ret tt (mkFix (mkBuf (P ++ blocks (List.filter (fun f => negb (is_sender f)) todo)) arr sp) it n p).
Proof.
  induction todo as [|f todo IH]; intros P arr sp s p fp n a fuel g Hd Hf Hs Ha He Hfp Hfuel;
    (destruct fuel as [|fuel]; [cbn in Hfuel; lia|]); cbn [fix_fields].
  - eexists. erewrite bind_Ret.
    2:{ apply fx_iter_Ret. unfold adbus_iter_inarray. rewrite (bind_Ret get _ _ _ _ eq_refl). cbn [data].
        change (len (blocks [])) with 0 in He. rewrite (proj2 (Z.ltb_ge _ _)) by lia. reflexivity. }
    reflexivity.
  - inversion Hf as [|? ? Hf1 Hf2]; subst. cbn [blocks map concat] in *. fold (blocks todo) in *.
    rewrite len_app in *. pose proof (block_pos f). pose proof (len_nonneg (blocks todo)).
    erewrite bind_Ret.
    2:{ apply fx_iter_Ret. unfold adbus_iter_inarray. rewrite (bind_Ret get _ _ _ _ eq_refl). cbn [data].
        rewrite (proj2 (Z.ltb_lt _ _)) by lia. reflexivity. }
    unfold set_sig. cbn [data size]. rewrite Ha.
    destruct (fix_field_ok P (blocks todo) arr sp f s p n a Hd Hf1 ltac:(lia)) as (s' & Hs' & E).
    destruct (is_sender f) eqn:Ef; rewrite (bind_Ret _ _ _ _ _ E); cbn [List.filter]; rewrite Ef; cbn [negb].
    + eapply IH; cbn [a_sig a_data a_size]; try done; [lia|lia|cbn in Hfuel; lia].
    + destruct (IH (P ++ block f) arr sp s' p fp n a fuel []) as (it & E'); try done.
      { rewrite len_app. pose proof (block_mod f). Z.div_mod_to_equations. lia. } { lia. }
      { rewrite len_app. lia. } { cbn in Hfuel; lia. }
      exists it. rewrite len_app, <- !app_assoc in E'. exact E'.
Qed.
End FixRun.

(** ** FixHeaders on an encoded header *)
Definition sender_field (unique : list Z) : field := (HEADER_SENDER, VStr STRING unique).

(** The fields after FixHeaders. *)
Definition fixed_fields (unique : list Z) (fs : list field) : list field :=
  List.filter (fun f => negb (is_sender f)) fs ++ [sender_field unique].

(** A header: 12 bytes, the length of the field array, the fields. *)
Definition header (h : list Z) (fs : list field) : list Z :=
  h ++ le_bytes 4 (len (header_enc fs)) ++ blocks fs.

Definition unique_ok (u : list Z) : Prop := bytes u /\ no_nul u /\ len u < 2 ^ 31.

Lemma sender_field_ok (u : list Z) : unique_ok u -> field_ok (sender_field u).
Proof.
  intros (Hb & Hn & Hl). unfold field_ok, fieldv, sender_field. cbn [fst snd]. rewrite wf_struct.
  split; [vm_compute; split; [done|split; congruence]|]. split; [|done]. split; [vm_compute; done|].
  split; [done|]. split; [done|]. split; [done|lia].
Qed.

Lemma encs_app (a b : list value) : forall p, encs p (a ++ b) = encs p a ++ encs (p + len (encs p a)) b.
Proof.
  induction a as [|v a IH]; intros p.
  - change (encs p []) with (@nil Z). change (len []) with 0. by rewrite Z.add_0_r.
  - change (encs p ((v :: a) ++ b)) with (enc p v ++ encs (p + len (enc p v)) (a ++ b)).
    change (encs p (v :: a)) with (enc p v ++ encs (p + len (enc p v)) a).
    by rewrite IH, len_app, Z.add_assoc, app_assoc.
Qed.

Lemma header_enc_snoc (fs : list field) (f : field) : Forall field_ok fs -> field_ok f ->
  header_enc (fs ++ [f]) = blocks fs ++ enc 0 (fieldv f).
Proof.
  intros Hfs Hf. unfold header_enc. rewrite map_app, encs_app. cbn [map].
  change (encs ?p [fieldv f]) with (enc p (fieldv f) ++ []). rewrite app_nil_r, field_padded by done.
  rewrite app_assoc, encs_blocks by done. done.
Qed.

Lemma header_enc_pad (fs : list field) : Forall field_ok fs ->
  header_enc fs ++ zeros (pad (16 + len (header_enc fs)) 8) = blocks fs.
Proof. intros H. unfold header_enc. by rewrite encs_blocks. Qed.

Lemma header_enc_align (fs : list field) : Forall field_ok fs -> ADBUS_ALIGN (len (header_enc fs)) 8 = len (blocks fs).
Proof.
  intros H. rewrite <- header_enc_pad by done. rewrite len_app, len_zeros_pad, align_pad by auto with adbus.
  by rewrite pad_mod.
Qed.

Section Fixed.
Context {B : Build}.

(** [add_sender] writes the field as a value is written. *)
Lemma add_sender_meq (u : list Z) :
  meq (add_sender u) (bind (adbus_buf_setsig (str "(yv)") 4) (fun _ => write (fieldv (sender_field u)))).
Proof.
  unfold add_sender. apply bind_proper; [reflexivity|]. intros _.
  change (adbus_buf_beginvariant (str "s") 1) with (adbus_buf_beginvariant (sig_of (TBasic STRING)) (-1)).
  unfold fieldv, sender_field. cbn [fst snd write seq_run write_num write_str ty_of]. intros s. unfold bind, ret.
  repeat match goal with |- context [match ?x with _ => _ end] => destruct x end; done.
Qed.

Lemma add_sender_ok (u d arr : list Z) : unique_ok u -> len d mod 8 = 0 ->
  exists arr' sp', add_sender u (mkBuf d arr (Own 0)) = Ret tt (mkBuf (d ++ enc 0 (fieldv (sender_field u))) arr' sp').
Proof.
  intros Hu Hd. pose proof (sender_field_ok u Hu) as Hf. destruct (field_at (len d) _ Hd Hf) as [Ee Hw].
  rewrite add_sender_meq. set (arr1 := memcpy_into arr 0 (str "(yv)" ++ [0])).
  assert (E1 : adbus_buf_setsig (str "(yv)") 4 (mkBuf d arr (Own 0)) = Ret tt (mkBuf d arr1 (Own 0))) by reflexivity.
  rewrite (bind_Ret _ _ _ _ _ E1).
  destruct (written_all (fieldv (sender_field u)) (len d) Hw ltac:(by repeat split) d arr1 (Own 0) [])
    as (sp & E2 & _); [done| |].
  - cbn [at_sigptr]. by rewrite drop_0.
  - exists arr1, sp. by rewrite E2, Ee.
Qed.

Lemma memcpy_mid_12 (h old new r : list Z) : length h = 12%nat -> length old = 4%nat -> length new = 4%nat ->
  memcpy_into (h ++ old ++ r) 12 new = h ++ new ++ r.
Proof.
  intros H1 H2 H3. unfold memcpy_into. rewrite <- H1 at 1. rewrite take_app_length. f_equal. f_equal.
  rewrite H3. replace (12 + 4)%nat with (length h + length old)%nat by lia.
  by rewrite <- drop_drop, drop_app_length, drop_app_length.
Qed.

Lemma len_sender (u : list Z) : len (enc 0 (fieldv (sender_field u))) = 9 + len u.
Proof.
  change (enc 0 (fieldv (sender_field u))) with
    ([7] ++ (enc_signature (str "s") ++ enc_string 4 u) ++ []).
  rewrite app_nil_r, !len_app, len_enc_string, len_enc_signature. change (pad 4 4) with 0.
  change (len [7]) with 1. change (len (str "s")) with 1. lia.
Qed.

Lemma len_kept (fs : list field) : len (blocks (List.filter (fun f => negb (is_sender f)) fs)) <= len (blocks fs).
Proof.
  induction fs as [|f fs IH]; [done|]. cbn [List.filter blocks map concat]. fold (blocks fs).
  destruct (negb (is_sender f)); cbn [blocks map concat];
    try fold (blocks (List.filter (fun f => negb (is_sender f)) fs)); rewrite ?len_app;
    pose proof (len_nonneg (block f)); lia.
Qed.

Lemma len_header (h : list Z) (fs : list field) : length h = 12%nat -> len (header h fs) = 16 + len (blocks fs).
Proof. intros H. unfold header. rewrite !len_app, len_le_bytes. unfold len at 1. lia. Qed.

Lemma length_blocks (fs : list field) : (length fs <= length (blocks fs))%nat.
Proof.
  induction fs as [|f fs IH]; [done|]. cbn [blocks map concat]. fold (blocks fs).
  rewrite length_app. pose proof (block_pos f). unfold len in *. cbn [length]. lia.
Qed.

(** The header is read, marked native, and the iterator stands at its first
    field. *)
Lemma fix_open_ok (h arr : list Z) (fs : list field) (it : Iterator) (n : bool) (p : Z) :
  length h = 12%nat -> deref h = adbusI_nativeEndianness -> Forall field_ok fs ->
  len (header_enc fs) <= ADBUS_MAXIMUM_ARRAY_LENGTH ->
  fix_open (mkFix (mkBuf (header h fs) arr (Own 0)) it n p) =
  Ret (mkArray (str "(yv)") 4 16 (len (header_enc fs)))
    (mkFix (mkBuf (header h fs) arr (Own 0)) (mkIter 16 (4 + len (blocks fs) - 4) (str "(yv)")) true p).
Proof.
  intros Hh He Hfs Hmax. set (k := len (header_enc fs)) in *. pose proof (len_nonneg (header_enc fs)) as Hk.
  fold k in Hk. unfold ADBUS_MAXIMUM_ARRAY_LENGTH in Hmax. set (m := header h fs).
  assert (Hm0 : at_ m 0 [chr "l"]).
  { split; [done|]. unfold m, header. rewrite drop_0. destruct h as [|c h]; [done|]. cbn in He. by subst c. }
  assert (Hm12 : at_ m 12 (le_bytes 4 k ++ blocks fs)).
  { unfold m, header. rewrite <- (app_nil_r (le_bytes 4 _ ++ _)). replace 12 with (Z.of_nat (length h)) by lia. apply at_mid. }
  assert (Hlm : len m = 16 + len (blocks fs)) by (by apply len_header).
  assert (Halign : ADBUS_ALIGN k 8 = len (blocks fs)) by (by apply header_enc_align).
  unfold fix_open.
  erewrite bind_Ret.
  2:{ apply fx_peek_Ret. intros T s. apply (load8_at m 0 (chr "l") []). exact Hm0. }
  erewrite bind_Ret by reflexivity. cbn [fx_buf fx_it fx_native fx_parsed b_data b_sig b_sigp set_data].
  rewrite (insert_at_0 adbusI_nativeEndianness m Hm0).
  unfold set_data. cbn [b_data b_sig b_sigp].
  change (chr "l" =? adbusI_nativeEndianness) with true.
  erewrite bind_Ret by reflexivity.
  erewrite bind_Ret.
  2:{ apply fx_peek_Ret. intros T s. eapply load_le_bytes; [exact Hm12|lia|cbn; lia]. }
  erewrite bind_Ret by reflexivity. rewrite (bind_Ret get _ _ _ _ eq_refl).
  unfold fx_set_it. cbn [fx_buf fx_it fx_native fx_parsed data size]. rewrite Halign.
  unfold sizeof_Header, adbus_buf_size, b_size. cbn [b_data].
  erewrite bind_Ret by (apply assert_true, Z.eqb_eq; fold m; lia).
  apply fx_iter_Ret. eapply header_beginarray; [exact Hm12|unfold ADBUS_MAXIMUM_ARRAY_LENGTH; lia|].
  pose proof (len_nonneg (blocks fs)). lia.
Qed.

(** The sender goes behind the fields that were kept, the length of the array
    is written and the header padded to 8. *)
Lemma fix_close_ok (u h arr old : list Z) (kept : list field) (it : Iterator) (n : bool) (p msz hsz : Z) :
  length h = 12%nat -> length old = 4%nat -> unique_ok u -> Forall field_ok kept ->
  len (blocks kept) <= ADBUS_MAXIMUM_ARRAY_LENGTH + 8 ->
  exists arr' sp',
    fix_close u 16 msz hsz (mkFix (mkBuf (h ++ old ++ blocks kept) arr (Own 0)) it n p) =
    Ret tt (mkFix (mkBuf (header h (kept ++ [sender_field u])) arr' sp') it n
              (msz - hsz + len (header h (kept ++ [sender_field u])))).
Proof.
  intros Hh Ho Hu Hk Hmax. set (snd_ := sender_field u). set (fs' := kept ++ [snd_]). unfold ADBUS_MAXIMUM_ARRAY_LENGTH in Hmax.
  assert (HP : len (h ++ old) = 16) by (rewrite len_app; unfold len; lia).
  assert (Hsnd : field_ok snd_) by (by apply sender_field_ok).
  assert (Hfs' : Forall field_ok fs') by (apply Forall_app; split; [done|constructor; [done|constructor]]).
  assert (En : header_enc fs' = blocks kept ++ enc 0 (fieldv snd_)) by (by apply header_enc_snoc).
  unfold fix_close. rewrite app_assoc.
  destruct (add_sender_ok u ((h ++ old) ++ blocks kept) arr Hu) as (arr2 & sp2 & E2).
  { rewrite len_app, HP. pose proof (blocks_mod kept). Z.div_mod_to_equations. lia. }
  erewrite bind_Ret by (apply fx_write_Ret; exact E2). rewrite (bind_Ret get _ _ _ _ eq_refl).
  unfold adbus_buf_size, b_size. cbn [fx_buf b_data]. rewrite <- (app_assoc (h ++ old)). fold snd_. rewrite <- En.
  assert (Hl : len ((h ++ old) ++ header_enc fs') - 16 = len (header_enc fs')) by (rewrite len_app; lia). rewrite Hl.
  erewrite bind_Ret by (apply fx_write_Ret; reflexivity). unfold set_data. cbn [b_data b_sig b_sigp].
  rewrite <- app_assoc, memcpy_mid_12 by (done || by rewrite length_le_bytes).
  set (k' := len (header_enc fs')). set (d' := h ++ le_bytes 4 k' ++ header_enc fs').
  assert (Hd' : len d' = 16 + k').
  { unfold d'. rewrite !len_app, len_le_bytes. unfold len at 1. fold k'. lia. }
  erewrite bind_Ret by (apply fx_write_Ret, Align_ok). rewrite Hd'.
  assert (Eh : d' ++ zeros (pad (16 + k') 8) = header h fs').
  { unfold d', header, k'. rewrite <- (header_enc_pad fs' Hfs'). by rewrite <- !app_assoc. }
  rewrite Eh. eexists _, _. unfold modify. cbn [fx_buf fx_it fx_native fx_parsed]. do 2 f_equal.
  assert (Hk' : 0 <= k' < 2 ^ 32).
  { unfold k'. pose proof (len_nonneg (header_enc fs')). rewrite En, len_app in *. unfold snd_ in *.
    rewrite len_sender in *. destruct Hu as (_ & _ & Hlu). lia. }
  rewrite Z.mod_small by done. unfold k', sizeof_ExtendedHeader. rewrite (header_enc_align fs' Hfs'), len_header by done. lia.
Qed.

Lemma filter_kept_twice {A} (p : A -> bool) (l : list A) : List.filter p (List.filter p l) = List.filter p l.
Proof. induction l as [|x l IH]; cbn; [done|]. destruct (p x) eqn:E; cbn; [by rewrite E, IH|done]. Qed.

Lemma filter_not_kept {A} (p : A -> bool) (l : list A) : List.filter p (List.filter (fun x => negb (p x)) l) = [].
Proof. induction l as [|x l IH]; cbn; [done|]. destruct (p x) eqn:E; cbn; [done|by rewrite E]. Qed.

(** The run of FixHeaders. *)
Lemma fix_headers_run (u h arr : list Z) (fs : list field) (it : Iterator) (n : bool) (p msz hsz : Z) :
  length h = 12%nat -> deref h = adbusI_nativeEndianness -> unique_ok u -> Forall field_ok fs ->
  len (header_enc fs) <= ADBUS_MAXIMUM_ARRAY_LENGTH ->
  exists arr' sp' it',
    FixHeaders u msz hsz (mkFix (mkBuf (header h fs) arr (Own 0)) it n p) =
    Ret tt (mkFix (mkBuf (header h (fixed_fields u fs)) arr' sp') it' true
              (msz - hsz + len (header h (fixed_fields u fs)))).
Proof.
  intros Hh He Hu Hfs Hmax. set (k := len (header_enc fs)). pose proof (len_nonneg (header_enc fs)) as Hk.
  set (kept := List.filter (fun f => negb (is_sender f)) fs). unfold FixHeaders.
  rewrite (bind_Ret _ _ _ _ _ (fix_open_ok h arr fs it n p Hh He Hfs Hmax)).
  rewrite (bind_Ret get _ _ _ _ eq_refl). cbn [fx_it data fx_buf b_data]. fold k.
  assert (HP : len (h ++ le_bytes 4 k) = 16) by (rewrite len_app, len_le_bytes; unfold len; lia).
  assert (Em : header h fs = (h ++ le_bytes 4 k) ++ blocks fs) by (unfold header; by rewrite <- app_assoc).
  pose proof (header_enc_align fs Hfs) as Halign.
  destruct (fix_fields_ok fs (h ++ le_bytes 4 k) arr (Own 0) (4 + len (blocks fs) - 4) p (pad (16 + k) 8) true
    (mkArray (str "(yv)") 4 16 k) (S (length (header h fs))) (str "(yv)")) as (it1 & E1).
  { by rewrite HP. } { done. } { lia. } { done. }
  { cbn [a_data a_size]. rewrite HP, <- Halign, align_pad. pose proof (pad_mod 16 k eq_refl). unfold k in *. lia. }
  { apply pad_bounds. auto with adbus. }
  { rewrite Em, length_app. pose proof (length_blocks fs). lia. }
  rewrite HP, <- Em in E1. fold kept in E1. rewrite (bind_Ret _ _ _ _ _ E1), <- app_assoc.
  destruct (fix_close_ok u h arr (le_bytes 4 k) kept it1 true p msz hsz) as (arr' & sp' & E2); [done|done|done| | |].
  - apply Forall_forall. intros f Hf. apply list_elem_of_In, filter_In in Hf as [Hf _].
    rewrite Forall_forall in Hfs. apply Hfs. by apply list_elem_of_In.
  - pose proof (len_kept fs). fold kept in H. pose proof (align_bounds (len (header_enc fs)) 8 boundary_8).
    unfold ADBUS_MAXIMUM_ARRAY_LENGTH in *. lia.
  - exists arr', sp', it1. exact E2.
Qed.

(** C25: FixHeaders forces the sender: from the header of a message with any
    fields, and in particular with any number of forged sender fields at any
    place, it makes the header with the same other fields in the same order
    and exactly one sender field, the unique name of the remote; the length
    of the array and the size of the whole message are updated, and no
    assertion fails. *)
Theorem fix_headers_sender (u h arr : list Z) (fs : list field) (it : Iterator) (n : bool) (p msz hsz : Z) :
  length h = 12%nat -> deref h = adbusI_nativeEndianness -> unique_ok u -> Forall field_ok fs ->
  len (header_enc fs) <= ADBUS_MAXIMUM_ARRAY_LENGTH ->
  (exists arr' sp' it',
    FixHeaders u msz hsz (mkFix (mkBuf (header h fs) arr (Own 0)) it n p) =
    Ret tt (mkFix (mkBuf (header h (fixed_fields u fs)) arr' sp') it' true
              (msz - hsz + len (header h (fixed_fields u fs))))) /\
  List.filter is_sender (fixed_fields u fs) = [sender_field u] /\
  List.filter (fun f => negb (is_sender f)) (fixed_fields u fs) = List.filter (fun f => negb (is_sender f)) fs.
Proof.
  intros Hh He Hu Hfs Hmax. split; [by apply fix_headers_run|]. unfold fixed_fields. rewrite !List.filter_app. cbn [List.filter is_sender sender_field fst].
  rewrite filter_not_kept, filter_kept_twice. cbn. by rewrite app_nil_r.
Qed.
End Fixed.

(** ** The remote's buffers and the server

    The world is the server and what the send callbacks work on. *)
Definition set_state (s : ParseState) (r : Remote) : Remote :=
  mkRemote (unique r) (matches r) s (r_msg r) (r_dispatch r) (native r) (headerSize r) (msgSize r)
    (parsedMsgSize r) (haveHello r) (services r).
Definition set_msg (b : Buffer) (r : Remote) : Remote :=
  mkRemote (unique r) (matches r) (parseState r) b (r_dispatch r) (native r) (headerSize r) (msgSize r)
    (parsedMsgSize r) (haveHello r) (services r).
Definition set_dispatch (b : Buffer) (r : Remote) : Remote :=
  mkRemote (unique r) (matches r) (parseState r) (r_msg r) b (native r) (headerSize r) (msgSize r)
    (parsedMsgSize r) (haveHello r) (services r).
Definition set_native_ (n : bool) (r : Remote) : Remote :=
  mkRemote (unique r) (matches r) (parseState r) (r_msg r) (r_dispatch r) n (headerSize r) (msgSize r)
    (parsedMsgSize r) (haveHello r) (services r).
Definition set_sizes (hsz msz psz : Z) (r : Remote) : Remote :=
  mkRemote (unique r) (matches r) (parseState r) (r_msg r) (r_dispatch r) (native r) hsz msz psz
    (haveHello r) (services r).

(** Which of the remote's two buffers. *)
Inductive which := MSG | DISPATCH.
Definition buffer_of (k : which) (r : Remote) : Buffer := match k with MSG => r_msg r | DISPATCH => r_dispatch r end.
Definition set_buffer (k : which) (b : Buffer) (r : Remote) : Remote :=
  match k with MSG => set_msg b r | DISPATCH => set_dispatch b r end.

(** Room for a cleared message structure is put in front; only what follows it
    is kept here. *)
Definition InitBuffer (b : Buffer) : Buffer := adbus_buf_reset b.

Section Receive.
Context {B : Build} {X : Type} (send : rid -> Message -> M (Server * X) Z).

#[local] Abbreviation PW := (Server * X)%type.

Definition on_server {A} (m : M Server A) : M PW A := fun '(s, x) =>
  match m s with
  | Ret a s' => Ret a (s', x)
  | Err s' => Err (s', x)
  | Abort => Abort | Oob => Oob | Nofuel => Nofuel
  end.

Definition update (r : rid) (f : Remote -> Remote) : M PW unit :=
  on_server (let* x := get_remote r in put_remote r (f x)).

(** FixHeaders on a buffer of the remote: 0 or -1. *)
Definition fix_remote (r : rid) (k : which) : M PW Z :=
  let* x := on_server (get_remote r) in
  match FixHeaders (unique x) (msgSize x) (headerSize x)
          (mkFix (buffer_of k x) (mkIter 0 0 []) (native x) (parsedMsgSize x)) with
  | Ret _ y =>
      run* update r (fun x => set_sizes (headerSize x) (msgSize x) (fx_parsed y)
                                (set_native_ (fx_native y) (set_buffer k (fx_buf y) x))) in ret 0
  | Err y =>
      run* update r (fun x => set_sizes (headerSize x) (msgSize x) (fx_parsed y)
                                (set_native_ (fx_native y) (set_buffer k (fx_buf y) x))) in ret (-1)
  | Abort => fun _ => Abort
  | Oob => oob
  | Nofuel => nofuel
  end.

(** A call of Hello on the bus: what a remote has to send first. *)
Definition is_bus (s : option (list Z)) : bool :=
  match s with None => true | Some d => list_eqb d BUS_NAME end.

Definition is_hello (m : Message) : bool :=
  bool_decide (msg_type m = MSG_METHOD) && is_bus (msg_destination m) && is_bus (msg_interface m) &&
  match msg_path m with
  | None => false
  | Some p => list_eqb p (str "/") || list_eqb p (str "/org/freedesktop/DBus")
  end &&
  match msg_member m with None => false | Some n => list_eqb n (str "Hello") end.

(** Parsing the message, and flipping the arguments of a foreign one. *)
Definition parse_message (native : bool) (sz : Z) : M Parse unit :=
  run* adbus_parse sz in
  let* s := get in
  match signature (p_msg s) with
  | Some g => if native then ret tt else flip_args g
  | None => ret tt
  end.

Definition dispatch_ (m : Message) : M PW Z := fun w =>
  match adbusI_serv_dispatch fst send (w, m) with
  | Ret z (w', _) => Ret z w'
  | Err (w', _) => Err w'
  | Abort => Abort | Oob => Oob | Nofuel => Nofuel
  end.

(** The message in a buffer of [r] goes out; the buffer and the sizes are
    cleared after it. *)
Definition DispatchMsg (r : rid) (k : which) : M PW Z :=
  let* x := on_server (get_remote r) in
  let d := b_data (buffer_of k x) in
  match parse_message (native x) (len d) (mkParse d (mkIter 0 0 []) msg_zero) with
  | Err p => run* update r (set_buffer k (set_data (p_mem p) (buffer_of k x))) in ret (-1)
  | Ret _ p =>
      let m := p_msg p in
      run* update r (set_buffer k (set_data (p_mem p) (buffer_of k x))) in
      if negb (haveHello x) && negb (is_hello m) then ret (-1)
      else
        run* (if haveHello x then ret tt
              else
                let* w := get in
                run* assert_ (negb (isSome (helloRemote (fst w)))) in
                on_server (modify (fun s => with_bus (busRemote s) (Some r) s))) in
        let* z := dispatch_ m in
        run* update r (fun x => set_buffer k (adbus_buf_reset (buffer_of k x)) x) in
        run* on_server (modify (fun s => with_bus (busRemote s) None s)) in
        run* update r (set_sizes 0 0 0) in
        ret z
  | Abort => fun _ => Abort
  | Oob => oob
  | Nofuel => nofuel
  end.

(** A message from this process: only the bus uses it. *)
Definition adbus_remote_dispatch (r : rid) (m : Message) : M PW Z :=
  let* x := on_server (get_remote r) in
  run* assert_ ((msgSize x =? parsedMsgSize x) && (msgSize x =? headerSize x) && (msgSize x =? 0)) in
  let hsz := msg_size m - argsize m in
  if in_bounds (msg_data m) 0 hsz then
    run* update r (fun x => set_dispatch (set_data (take (Z.to_nat hsz) (msg_data m)) (InitBuffer (r_dispatch x))) x) in
    let* z := fix_remote r DISPATCH in
    if negb (z =? 0) then ret (-1)
    else if in_bounds (argdata m) 0 (argsize m) then
      run* update r (fun x => set_dispatch
        (set_data (b_data (r_dispatch x) ++ take (Z.to_nat (argsize m)) (argdata m)) (r_dispatch x)) x) in
      DispatchMsg r DISPATCH
    else oob
  else oob.

(** ** adbus_remote_parse

    The state is the world and the bytes that are left; [inr z] leaves the
    function. *)
Definition Move (r : rid) (need : Z) : M (PW * list Z) bool := fun '(w, rest) =>
  let put l := update r (fun x => set_msg (set_data (b_data (r_msg x) ++ l) (r_msg x)) x) w in
  if need <=? len rest then
    match put (take (Z.to_nat need) rest) with
    | Ret _ w' => Ret true (w', drop (Z.to_nat need) rest)
    | Err w' => Err (w', rest) | Abort => Abort | Oob => Oob | Nofuel => Nofuel
    end
  else
    match put rest with
    | Ret _ w' => Ret false (w', [])
    | Err w' => Err (w', rest) | Abort => Abort | Oob => Oob | Nofuel => Nofuel
    end.

Definition on_world {A} (m : M PW A) : M (PW * list Z) A := fun '(w, rest) =>
  match m w with
  | Ret a w' => Ret a (w', rest)
  | Err w' => Err (w', rest)
  | Abort => Abort | Oob => Oob | Nofuel => Nofuel
  end.

Definition the_remote (r : rid) : M (PW * list Z) Remote := on_world (on_server (get_remote r)).

Definition header_phase (r : rid) : M (PW * list Z) (ParseState + Z) :=
  run* on_world (update r (set_state HEADER)) in
  let* x := the_remote r in
  let msize := len (b_data (r_msg x)) in
  run* assert_ (msize <? headerSize x) in
  let* enough := Move r ((headerSize x - msize) mod 2 ^ 64) in
  if negb enough then ret (inr 0)
  else
    let* z := on_world (fix_remote r MSG) in
    ret (if z =? 0 then inl DATA else inr (-1)).

(** The sizes of the message whose header starts with these 16 bytes. *)
Definition begin_sizes (d : list Z) (x : Remote) : Remote :=
  let e := deref d in
  let hsz := ADBUS_ALIGN (sizeof_ExtendedHeader + Get32 e (drop 12 d)) 8 in
  set_sizes hsz (hsz + Get32 e (drop 4 d)) (parsedMsgSize x) (set_msg (InitBuffer (r_msg x)) x).

Definition begin_phase (r : rid) : M (PW * list Z) (ParseState + Z) :=
  run* on_world (update r (set_state BEGIN)) in
  let* s := get in
  if len (snd s) <? sizeof_ExtendedHeader then ret (inr 0)
  else
    run* on_world (update r (begin_sizes (snd s))) in
    header_phase r.

Definition data_phase (r : rid) : M (PW * list Z) (ParseState + Z) :=
  run* on_world (update r (set_state DATA)) in
  let* x := the_remote r in
  let msize := len (b_data (r_msg x)) in
  run* assert_ (msize <=? parsedMsgSize x) in
  let need := (parsedMsgSize x - msize) mod 2 ^ 64 in
  let* enough := (if 0 <? need then Move r need else ret true) in
  if negb enough then ret (inr 0)
  else
    let* z := on_world (DispatchMsg r MSG) in
    ret (if z =? 0 then inl BEGIN else inr (-1)).

Definition phase (r : rid) (st : ParseState) : M (PW * list Z) (ParseState + Z) :=
  match st with BEGIN => begin_phase r | HEADER => header_phase r | DATA => data_phase r end.

(** The [while] loop, entered at the phase [st]; a round from BEGIN on takes
    at least 16 bytes. *)
Fixpoint remote_loop (fuel : nat) (r : rid) (st : ParseState) : M (PW * list Z) Z :=
  match fuel with
  | O => nofuel
  | S fuel' =>
      let* n := phase r st in
      match n with inl st' => remote_loop fuel' r st' | inr z => ret z end
  end.

Definition loop_fuel (rest : list Z) : nat := 3 * length rest + 4.

Definition adbus_remote_parse (r : rid) : M (PW * Buffer) Z := fun '(w, b) =>
  match bind (the_remote r) (fun x => remote_loop (loop_fuel (b_data b)) r (parseState x)) (w, b_data b) with
  | Ret z (w', rest) =>
      if z =? 0 then
        match adbus_buf_remove 0 (length (b_data b) - length rest) b with
        | Ret _ b' => Ret 0 (w', b')
        | Err b' => Err (w', b') | Abort => Abort | Oob => Oob | Nofuel => Nofuel
        end
      else Ret z (w', b)
  | Err (w', _) => Err (w', b)
  | Abort => Abort | Oob => Oob | Nofuel => Nofuel
  end.
End Receive.

(** ** Chunks do not matter *)
Section Stream.
Context {B : Build} {X : Type} (send : rid -> Message -> M (Server * X) Z) (r : rid).

#[local] Abbreviation PW := (Server * X)%type.

Definition put_r (R : Remote) (s : Server) : Server := with_remotes (remotes s) (<[r := R]> (remote_heap s)) s.

Definition add_msg (l : list Z) (R : Remote) : Remote := set_msg (set_data (b_data (r_msg R) ++ l) (r_msg R)) R.

Lemma put_r_lookup (R : Remote) (s : Server) : remote_heap (put_r R s) !! r = Some R.
Proof. apply lookup_insert_eq. Qed.

Lemma put_r_twice (R R' : Remote) (s : Server) : put_r R' (put_r R s) = put_r R' s.
Proof. unfold put_r, with_remotes. cbn. by rewrite insert_insert_eq. Qed.

Lemma update_eq (f : Remote -> Remote) (s : Server) (x : X) :
  update r f (s, x) = match remote_heap s !! r with Some R => Ret tt (put_r (f R) s, x) | None => Oob end.
Proof.
  unfold update, on_server, get_remote. unfold bind at 1 2. unfold get at 1. cbv beta iota.
  by destruct (remote_heap s !! r).
Qed.

Lemma the_remote_eq (s : Server) (x : X) (d : list Z) :
  the_remote r ((s, x), d) = match remote_heap s !! r with Some R => Ret R ((s, x), d) | None => Oob end.
Proof.
  unfold the_remote, on_world, on_server, get_remote. unfold bind at 1. unfold get at 1. cbv beta iota.
  by destruct (remote_heap s !! r).
Qed.

Lemma add_msg_add (a b : list Z) (R : Remote) : add_msg b (add_msg a R) = add_msg (a ++ b) R.
Proof. unfold add_msg, set_msg, set_data. cbn. by rewrite <- app_assoc. Qed.

(** Waiting for [need] bytes and going on with [tail]. *)
Definition take_then (need : Z) (R : Remote) (tail : M (PW) (ParseState + Z)) (s : Server) (x : X) (d : list Z) :
  outcome (PW * list Z) (ParseState + Z) :=
  if need <=? len d then
    match tail (put_r (add_msg (take (Z.to_nat need) d) R) s, x) with
    | Ret z w' => Ret z (w', drop (Z.to_nat need) d)
    | Err w' => Err (w', drop (Z.to_nat need) d)
    | Abort => Abort | Oob => Oob | Nofuel => Nofuel
    end
  else Ret (inr 0) ((put_r (add_msg d R) s, x), []).

Definition fix_tail : M (PW) (ParseState + Z) :=
  let* z := fix_remote r MSG in ret (if z =? 0 then inl DATA else inr (-1)).

Definition dispatch_tail : M (PW) (ParseState + Z) :=
  let* z := DispatchMsg send r MSG in ret (if z =? 0 then inl BEGIN else inr (-1)).

Lemma Move_eq (need : Z) (R : Remote) (s : Server) (x : X) (d : list Z) : remote_heap s !! r = Some R ->
  Move r need ((s, x), d) =
  if need <=? len d then Ret true ((put_r (add_msg (take (Z.to_nat need) d) R) s, x), drop (Z.to_nat need) d)
  else Ret false ((put_r (add_msg d R) s, x), []).
Proof. intros H. unfold Move. rewrite !update_eq, H. by destruct (need <=? len d). Qed.

(** The rest of a phase after its [Move]. *)
Lemma after_move (need : Z) (R : Remote) (tail : M PW Z) (f : Z -> ParseState + Z) (s : Server) (x : X) (d : list Z) :
  remote_heap s !! r = Some R ->
  bind (Move r need) (fun enough => if negb enough then ret (inr 0)
    else let* z := on_world tail in ret (f z)) ((s, x), d) =
  take_then need R (let* z := tail in ret (f z)) s x d.
Proof.
  intros H. unfold take_then. unfold bind at 1. rewrite (Move_eq _ _ _ _ _ H). destruct (need <=? len d); [|done].
  cbn [negb]. unfold bind, on_world, ret. by destruct (tail _).
Qed.

Lemma take_then_put (need : Z) (R R' : Remote) (tail : M PW (ParseState + Z)) (s : Server) (x : X) (d : list Z) :
  take_then need R tail (put_r R' s) x d = take_then need R tail s x d.
Proof. unfold take_then. by rewrite !put_r_twice. Qed.

Lemma header_eq (s : Server) (x : X) (d : list Z) (R0 : Remote) : remote_heap s !! r = Some R0 ->
  header_phase r ((s, x), d) =
  let R := set_state HEADER R0 in
  let msize := len (b_data (r_msg R)) in
  if (msize <? headerSize R) || ndebug then take_then ((headerSize R - msize) mod 2 ^ 64) R fix_tail s x d else Abort.
Proof.
  intros H. unfold header_phase. unfold bind at 1, on_world at 1. rewrite update_eq, H. cbv beta iota zeta.
  set (R := set_state HEADER R0). unfold bind at 1. rewrite the_remote_eq, put_r_lookup. cbv beta iota.
  unfold bind at 1, assert_. destruct (_ || _); [|done].
  rewrite (after_move _ R _ (fun z => if z =? 0 then inl DATA else inr (-1))) by apply put_r_lookup.
  apply take_then_put.
Qed.

Lemma data_eq (s : Server) (x : X) (d : list Z) (R0 : Remote) : remote_heap s !! r = Some R0 ->
  data_phase send r ((s, x), d) =
  let R := set_state DATA R0 in
  let msize := len (b_data (r_msg R)) in
  if (msize <=? parsedMsgSize R) || ndebug
  then take_then ((parsedMsgSize R - msize) mod 2 ^ 64) R dispatch_tail s x d else Abort.
Proof.
  intros H. unfold data_phase. unfold bind at 1, on_world at 1. rewrite update_eq, H. cbv beta iota zeta.
  set (R := set_state DATA R0). unfold bind at 1. rewrite the_remote_eq, put_r_lookup. cbv beta iota.
  unfold bind at 1, assert_. destruct (_ || _); [|done].
  set (need := (parsedMsgSize R - len (b_data (r_msg R))) mod 2 ^ 64).
  assert (Hn : 0 <= need) by (apply Z.mod_pos_bound; lia).
  destruct (Z.ltb_spec 0 need).
  - rewrite (after_move _ R _ (fun z => if z =? 0 then inl BEGIN else inr (-1))) by apply put_r_lookup.
    apply take_then_put.
  - assert (need = 0) as -> by lia. unfold take_then.
    rewrite (proj2 (Z.leb_le 0 _)) by apply len_nonneg. change (Z.to_nat 0) with 0%nat. rewrite take_0, drop_0.
    assert (E : add_msg [] R = R).
    { unfold add_msg, set_msg, set_data. rewrite app_nil_r. by destruct R as [? ? ? [] ? ? ? ? ? ? ?]. }
    rewrite E. rewrite (bind_Ret (ret true) _ _ _ true eq_refl). cbn [negb].
    unfold dispatch_tail, bind, on_world, ret. by destruct (DispatchMsg _ _ _ _).
Qed.

(** A phase that collects bytes up to a target and then goes on. *)
Definition wait (st : ParseState) (target : Remote -> Z) (cmp : Z -> Z -> bool) (tail : M (PW) (ParseState + Z))
  (R0 : Remote) (s : Server) (x : X) (d : list Z) : outcome (PW * list Z) (ParseState + Z) :=
  let R := set_state st R0 in
  let msize := len (b_data (r_msg R)) in
  if cmp msize (target R) || ndebug then take_then ((target R - msize) mod 2 ^ 64) R tail s x d else Abort.

Definition never_zero (tail : M (PW) (ParseState + Z)) : Prop := forall w w', tail w <> Ret (inr 0) w'.

Lemma fix_never_zero : never_zero fix_tail.
Proof.
  intros w w' H. unfold fix_tail in H. apply bind_inv in H as (z & w1 & _ & H).
  unfold ret in H. destruct (z =? 0); congruence.
Qed.

Lemma dispatch_never_zero : never_zero dispatch_tail.
Proof.
  intros w w' H. unfold dispatch_tail in H. apply bind_inv in H as (z & w1 & _ & H).
  unfold ret in H. destruct (z =? 0); congruence.
Qed.

Section Wait.
Context (st : ParseState) (target : Remote -> Z) (cmp : Z -> Z -> bool) (tail : M (PW) (ParseState + Z)).
Context (Ht : never_zero tail).
Context (Hcmp : forall a b k, cmp a b = true -> 0 <= k < b - a -> cmp (a + k) b = true).
Context (Hle : forall a b, cmp a b = true -> a <= b).
Context (Htarget : forall l R, target (add_msg l R) = target R).

Lemma take_then_enough (need : Z) (R : Remote) (s : Server) (x : X) (d1 d2 d1' : list Z)
  (n : ParseState + Z) (w1 : PW) : 0 <= need -> need <= len d1 -> take_then need R tail s x d1 = Ret n (w1, d1') ->
  take_then need R tail s x (d1 ++ d2) = Ret n (w1, d1' ++ d2) /\ n <> inr 0 /\ len d1' = len d1 - need.
Proof.
  intros H0 Hn H. unfold take_then in *. rewrite (proj2 (Z.leb_le _ _) Hn) in H.
  rewrite (proj2 (Z.leb_le need _)) by (rewrite len_app; pose proof (len_nonneg d2); lia).
  unfold len in Hn. rewrite take_app_le, drop_app_le by lia.
  destruct (tail _) as [z w'|w'| | |] eqn:E; try done. injection H as <- <- <-. split; [done|].
  split; [|unfold len; rewrite length_drop; lia]. intros ->. by apply Ht in E.
Qed.

Lemma take_then_short (need : Z) (R : Remote) (s : Server) (x : X) (d1 d2 : list Z) : len d1 < need ->
  take_then need R tail s x (d1 ++ d2) =
    take_then (need - len d1) (add_msg d1 R) tail (put_r (add_msg d1 R) s) x d2.
Proof.
  intros Hn. unfold take_then. rewrite len_app, !put_r_twice, !add_msg_add.
  pose proof (len_nonneg d1). unfold len in *.
  destruct (Z.leb_spec need (Z.of_nat (length d1) + Z.of_nat (length d2))).
  - rewrite (proj2 (Z.leb_le _ _)) by lia.
    rewrite take_app_ge, drop_app_ge by lia.
    by replace (Z.to_nat need - length d1)%nat with (Z.to_nat (need - Z.of_nat (length d1))) by lia.
  - by rewrite (proj2 (Z.leb_gt _ _)) by lia.
Qed.

Lemma wait_more (R0 : Remote) (s : Server) (x : X) (d1 d2 d1' : list Z) (n : ParseState + Z) (w1 : PW) :
  wait st target cmp tail R0 s x d1 = Ret n (w1, d1') ->
  (n <> inr 0 /\ wait st target cmp tail R0 s x (d1 ++ d2) = Ret n (w1, d1' ++ d2) /\
   len d1' = len d1 - (target (set_state st R0) - len (b_data (r_msg R0))) mod 2 ^ 64) \/
  (n = inr 0 /\ d1' = [] /\ let R1 := add_msg d1 (set_state st R0) in w1 = (put_r R1 s, x) /\
   wait st target cmp tail R0 s x (d1 ++ d2) = wait st target cmp tail R1 (put_r R1 s) x d2).
Proof.
  unfold wait. set (R := set_state st R0). cbv zeta.
  change (len (b_data (r_msg R0))) with (len (b_data (r_msg R))).
  set (msize := len (b_data (r_msg R))). set (need := (target R - msize) mod 2 ^ 64).
  assert (H0 : 0 <= need < 2 ^ 64) by (apply Z.mod_pos_bound; lia).
  destruct (cmp msize (target R) || ndebug) eqn:Ec; [|done]. intros H.
  destruct (Z.leb_spec need (len d1)) as [Hn|Hn].
  - left. destruct (take_then_enough need R s x d1 d2 d1' n w1 ltac:(lia) Hn H) as (E & Hne & Hl). done.
  - right. pose proof (take_then_short need R s x d1 d2 Hn) as E. unfold take_then in H at 1.
    rewrite (proj2 (Z.leb_gt _ _)) in H by lia. injection H as <- <- <-.
    split; [done|]. split; [done|]. split; [done|]. rewrite E. pose proof (len_nonneg d1).
    assert (Eq : set_state st (add_msg d1 R) = add_msg d1 R) by done. rewrite Eq, Htarget.
    assert (Em : len (b_data (r_msg (add_msg d1 R))) = msize + len d1) by (cbn; by rewrite len_app).
    rewrite Em.
    assert (Ec' : cmp (msize + len d1) (target R) || ndebug = true).
    { destruct ndebug; [apply orb_true_r|]. rewrite orb_false_r in *. apply Hcmp; [done|].
      apply Hle in Ec. assert (need <= target R - msize) by (apply Z.mod_le; lia). lia. }
    rewrite Ec'. f_equal. apply (Z.mod_unique_pos _ _ ((target R - msize) / 2 ^ 64)); [lia|].
    pose proof (Z_div_mod_eq_full (target R - msize) (2 ^ 64)) as Hdm. fold need in Hdm. lia.
Qed.
End Wait.

Lemma begin_sizes_app (d1 d2 : list Z) (R : Remote) : 16 <= len d1 -> begin_sizes (d1 ++ d2) R = begin_sizes d1 R.
Proof.
  intros H. unfold len in H. unfold begin_sizes. rewrite !drop_app_le by lia.
  rewrite !Get32_app by (rewrite length_drop; lia).
  assert (E : deref (d1 ++ d2) = deref d1) by (destruct d1; [cbn in H; lia|done]). by rewrite E.
Qed.

Lemma begin_eq (s : Server) (x : X) (d : list Z) (R0 : Remote) : remote_heap s !! r = Some R0 ->
  begin_phase r ((s, x), d) =
  if len d <? 16 then Ret (inr 0) ((put_r (set_state BEGIN R0) s, x), d)
  else header_phase r ((put_r (begin_sizes d (set_state BEGIN R0)) s, x), d).
Proof.
  intros H. unfold begin_phase. unfold bind at 1, on_world at 1. rewrite update_eq, H. cbv beta iota.
  rewrite (bind_Ret get _ _ _ _ eq_refl). cbn [snd]. unfold sizeof_ExtendedHeader. destruct (len d <? 16); [done|].
  unfold bind at 1, on_world at 1. rewrite update_eq, put_r_lookup. by rewrite put_r_twice.
Qed.

Lemma phase_dead (st : ParseState) (s : Server) (x : X) (d : list Z) : remote_heap s !! r = None ->
  phase send r st ((s, x), d) = Oob.
Proof.
  intros H. destruct st; cbn [phase]; unfold begin_phase, header_phase, data_phase;
    unfold bind at 1, on_world at 1; by rewrite update_eq, H.
Qed.

Definition rank (st : ParseState) : Z := match st with BEGIN => 1 | DATA => 2 | HEADER => 3 end.

(** What a phase does with more data. *)
Definition more (st : ParseState) (w : PW) (d1 d2 d1' : list Z) (n : ParseState + Z) (w1 : PW) : Prop :=
  (n <> inr 0 /\ phase send r st (w, d1 ++ d2) = Ret n (w1, d1' ++ d2)) \/
  (n = inr 0 /\ exists R1, remote_heap (fst w1) !! r = Some R1 /\
     phase send r st (w, d1 ++ d2) = phase send r (parseState R1) (w1, d1' ++ d2)).

Definition less (st : ParseState) (d1 d1' : list Z) (n : ParseState + Z) : Prop :=
  match n with inl st' => 3 * len d1' + rank st' < 3 * len d1 + rank st | inr _ => True end.

Lemma tail_next (need : Z) (R : Remote) (tail : M PW (ParseState + Z)) (s : Server) (x : X) (d d' : list Z)
  (n : ParseState + Z) (w : PW) (st' : ParseState) :
  (forall w st w', tail w = Ret (inl st) w' -> st = st') ->
  take_then need R tail s x d = Ret n (w, d') -> match n with inl st => st = st' | inr _ => True end.
Proof.
  intros Ht H. unfold take_then in H. destruct (need <=? len d).
  - destruct (tail _) as [z w'|w'| | |] eqn:E; try done. injection H as <- _ _. destruct z; [by eapply Ht|done].
  - by injection H as <- _ _.
Qed.

Lemma header_more (w w1 : PW) (d1 d2 d1' : list Z) (n : ParseState + Z) :
  header_phase r (w, d1) = Ret n (w1, d1') ->
  more HEADER w d1 d2 d1' n w1 /\ less HEADER d1 d1' n.
Proof.
  intros H. destruct w as [s x]. destruct (remote_heap s !! r) as [R0|] eqn:HR.
  2:{ change (phase send r HEADER ((s, x), d1) = Ret n (w1, d1')) in H. by rewrite phase_dead in H. }
  rewrite (header_eq s x d1 R0 HR) in H.
  assert (Hn : match n with inl st => st = DATA | inr _ => True end).
  { cbv zeta in H. destruct (_ || _); [|done]. eapply tail_next; [|exact H].
    intros w st w' E. unfold fix_tail in E. apply bind_inv in E as (z & w2 & _ & E). unfold ret in E.
    destruct (z =? 0); congruence. }
  destruct (wait_more HEADER headerSize Z.ltb fix_tail fix_never_zero
    ltac:(intros a b k Ha Hk; rewrite Z.ltb_lt in *; lia) ltac:(intros a b Ha; rewrite Z.ltb_lt in Ha; lia)
    ltac:(done) R0 s x d1 d2 d1' n w1 H) as [(Hne & E & Hl)|(-> & -> & -> & E)].
  - split; [left; split; [done|]; cbn [phase]; by rewrite (header_eq s x _ R0 HR)|].
    destruct n as [st|]; [|done]. subst st. cbn [less rank].
    match type of Hl with _ = _ - ?k mod _ => pose proof (Z.mod_pos_bound k (2 ^ 64) eq_refl) end. lia.
  - split; [|done]. right. split; [done|]. set (R1 := add_msg d1 (set_state HEADER R0)) in *.
    exists R1. split; [apply put_r_lookup|]. cbn [phase parseState]. rewrite (header_eq s x _ R0 HR), app_nil_l.
    change (parseState R1) with HEADER. cbn [phase]. rewrite (header_eq _ x d2 R1 (put_r_lookup R1 s)). exact E.
Qed.

Lemma data_more (w w1 : PW) (d1 d2 d1' : list Z) (n : ParseState + Z) :
  data_phase send r (w, d1) = Ret n (w1, d1') ->
  more DATA w d1 d2 d1' n w1 /\ less DATA d1 d1' n.
Proof.
  intros H. destruct w as [s x]. destruct (remote_heap s !! r) as [R0|] eqn:HR.
  2:{ change (phase send r DATA ((s, x), d1) = Ret n (w1, d1')) in H. by rewrite phase_dead in H. }
  rewrite (data_eq s x d1 R0 HR) in H.
  assert (Hn : match n with inl st => st = BEGIN | inr _ => True end).
  { cbv zeta in H. destruct (_ || _); [|done]. eapply tail_next; [|exact H].
    intros w st w' E. unfold dispatch_tail in E. apply bind_inv in E as (z & w2 & _ & E). unfold ret in E.
    destruct (z =? 0); congruence. }
  destruct (wait_more DATA parsedMsgSize Z.leb dispatch_tail dispatch_never_zero
    ltac:(intros a b k Ha Hk; rewrite Z.leb_le in *; lia) ltac:(intros a b Ha; rewrite Z.leb_le in Ha; lia)
    ltac:(done) R0 s x d1 d2 d1' n w1 H) as [(Hne & E & Hl)|(-> & -> & -> & E)].
  - split; [left; split; [done|]; cbn [phase]; by rewrite (data_eq s x _ R0 HR)|].
    destruct n as [st|]; [|done]. subst st. cbn [less rank].
    match type of Hl with _ = _ - ?k mod _ => pose proof (Z.mod_pos_bound k (2 ^ 64) eq_refl) end. lia.
  - split; [|done]. right. split; [done|]. set (R1 := add_msg d1 (set_state DATA R0)) in *.
    exists R1. split; [apply put_r_lookup|]. cbn [phase parseState]. rewrite (data_eq s x _ R0 HR), app_nil_l.
    change (parseState R1) with DATA. cbn [phase]. rewrite (data_eq _ x d2 R1 (put_r_lookup R1 s)). exact E.
Qed.

Lemma begin_more (w w1 : PW) (d1 d2 d1' : list Z) (n : ParseState + Z) : bytes d1 ->
  begin_phase r (w, d1) = Ret n (w1, d1') ->
  more BEGIN w d1 d2 d1' n w1 /\ less BEGIN d1 d1' n.
Proof.
  intros Hb H. destruct w as [s x]. destruct (remote_heap s !! r) as [R0|] eqn:HR.
  2:{ change (phase send r BEGIN ((s, x), d1) = Ret n (w1, d1')) in H. by rewrite phase_dead in H. }
  rewrite (begin_eq s x d1 R0 HR) in H. destruct (Z.ltb_spec (len d1) 16) as [Hl|Hl].
  - injection H as <- <- <-. split; [|done]. right. split; [done|]. exists (set_state BEGIN R0).
    split; [apply put_r_lookup|]. cbn [phase parseState set_state fst].
    rewrite (begin_eq s x _ R0 HR), (begin_eq _ x _ _ (put_r_lookup (set_state BEGIN R0) s)).
    by rewrite !put_r_twice.
  - set (R1 := begin_sizes d1 (set_state BEGIN R0)) in *.
    destruct (header_more _ _ d1 d2 d1' n H) as [Hm _]. split.
    + destruct Hm as [[Hne E]|(-> & R2 & HR2 & E)]; [left; split; [done|]|right; split; [done|]; exists R2; split; [done|]];
        rewrite <- E; cbn [phase]; rewrite (begin_eq s x _ R0 HR), begin_sizes_app by done;
        (rewrite (proj2 (Z.ltb_ge _ _)); [done|]; rewrite len_app; pose proof (len_nonneg d2); lia).
    + rewrite (header_eq _ x d1 R1 (put_r_lookup R1 s)) in H. cbv zeta in H.
      destruct (_ || _) in H; [|done]. set (R := set_state HEADER R1) in *.
      assert (Hneed : 16 <= (headerSize R - len (b_data (r_msg R))) mod 2 ^ 64).
      { pose proof (Get32_bounds (deref d1) (drop 12 d1) ltac:(by apply Forall_drop)) as Hg.
        set (g := Get32 (deref d1) (drop 12 d1)) in *.
        change (headerSize R) with (ADBUS_ALIGN (16 + g) 8). change (len (b_data (r_msg R))) with 0.
        pose proof (align_bounds (16 + g) 8 boundary_8) as Ha. generalize dependent (ADBUS_ALIGN (16 + g) 8).
        intros a Ha. change (2 ^ 32) with 4294967296 in Hg. change (2 ^ 64) with 18446744073709551616.
        rewrite Z.mod_small by lia. lia. }
      unfold take_then in H. generalize dependent ((headerSize R - len (b_data (r_msg R))) mod 2 ^ 64).
      intros need H Hneed. destruct (Z.leb_spec need (len d1)).
      * destruct (fix_tail _) as [z w'|w'| | |] eqn:E; try done. injection H as <- _ <-.
        destruct z as [st|]; [|done]. unfold fix_tail in E. apply bind_inv in E as (z & w2 & _ & E). unfold ret in E.
        assert (st = DATA) as -> by (destruct (z =? 0); congruence). cbn [less rank].
        unfold len at 1. rewrite length_drop. unfold len in *. lia.
      * by injection H as <- _ _.
Qed.

Lemma phase_more (st : ParseState) (w w1 : PW) (d1 d2 d1' : list Z) (n : ParseState + Z) : bytes d1 ->
  phase send r st (w, d1) = Ret n (w1, d1') -> more st w d1 d2 d1' n w1 /\ less st d1 d1' n.
Proof. intros Hb H. destruct st; [by apply begin_more|by apply header_more|by apply data_more]. Qed.

(** What is left is what comes after what was taken. *)
Lemma take_then_suffix (need : Z) (R : Remote) (tail : M PW (ParseState + Z)) (s : Server) (x : X) (d d' : list Z)
  (n : ParseState + Z) (w : PW) : take_then need R tail s x d = Ret n (w, d') -> d' `suffix_of` d.
Proof.
  unfold take_then. destruct (need <=? len d).
  - destruct (tail _) as [z w'|w'| | |]; try done. intros [= _ _ <-]. apply suffix_drop.
  - intros [= _ _ <-]. apply suffix_nil.
Qed.

Lemma phase_suffix (st : ParseState) (w w1 : PW) (d d' : list Z) (n : ParseState + Z) :
  phase send r st (w, d) = Ret n (w1, d') -> d' `suffix_of` d.
Proof.
  intros H. destruct w as [s x]. destruct (remote_heap s !! r) as [R0|] eqn:HR; [|by rewrite phase_dead in H].
  destruct st; cbn [phase] in H.
  - rewrite (begin_eq s x d R0 HR) in H. destruct (len d <? 16); [by injection H as _ _ <-|].
    rewrite (header_eq _ x d _ (put_r_lookup _ s)) in H. cbv zeta in H. destruct (_ || _) in H; [|done].
    by apply take_then_suffix in H.
  - rewrite (header_eq s x d R0 HR) in H. cbv zeta in H. destruct (_ || _) in H; [|done]. by apply take_then_suffix in H.
  - rewrite (data_eq s x d R0 HR) in H. cbv zeta in H. destruct (_ || _) in H; [|done]. by apply take_then_suffix in H.
Qed.

Definition work (st : ParseState) (d : list Z) : Z := 3 * len d + rank st.

Lemma rank_bounds (st : ParseState) : 1 <= rank st <= 3.
Proof. destruct st; cbn; lia. Qed.

Lemma loop_step (fuel : nat) (st : ParseState) (w : PW) (d : list Z) :
  remote_loop send (S fuel) r st (w, d) =
  match phase send r st (w, d) with
  | Ret (inl st') s => remote_loop send fuel r st' s
  | Ret (inr z) s => Ret z s
  | Err s => Err s | Abort => Abort | Oob => Oob | Nofuel => Nofuel
  end.
Proof. cbn [remote_loop]. unfold bind. by destruct (phase send r st (w, d)) as [[] ?| | | |]. Qed.

Lemma bytes_suffix (d d' : list Z) : d' `suffix_of` d -> bytes d -> bytes d'.
Proof. intros [k ->] H. by apply Forall_app in H as [_ H]. Qed.

(** Enough fuel is enough. *)
Lemma loop_fuel_ok (f1 : nat) : forall (f2 : nat) (st : ParseState) (w : PW) (d : list Z), bytes d ->
  work st d < Z.of_nat f1 -> work st d < Z.of_nat f2 ->
  remote_loop send f1 r st (w, d) = remote_loop send f2 r st (w, d).
Proof.
  induction f1 as [|f1 IH]; intros f2 st w d Hb H1 H2;
    [unfold work in H1; pose proof (rank_bounds st); pose proof (len_nonneg d); lia|].
  destruct f2 as [|f2]; [unfold work in H2; pose proof (rank_bounds st); pose proof (len_nonneg d); lia|].
  rewrite !loop_step. destruct (phase send r st (w, d)) as [[st'|z] [w' d']| | | |] eqn:E; try done.
  destruct (phase_more st w w' d [] d' (inl st') Hb E) as [_ Hless]. cbn [less] in Hless.
  apply IH; [|unfold work in *; lia|unfold work in *; lia].
  eapply bytes_suffix; [by eapply phase_suffix|done].
Qed.

Lemma loop_fuel_work (st : ParseState) (d : list Z) : work st d < Z.of_nat (loop_fuel d).
Proof. unfold work, loop_fuel, len. pose proof (rank_bounds st). lia. Qed.

Lemma loop_app (fuel : nat) : forall (st : ParseState) (w w1 : PW) (d1 d2 d1' : list Z) (f : nat),
  bytes d1 -> bytes d2 -> remote_loop send fuel r st (w, d1) = Ret 0 (w1, d1') ->
  work st (d1 ++ d2) < Z.of_nat f ->
  d1' `suffix_of` d1 /\ exists R1, remote_heap (fst w1) !! r = Some R1 /\
    remote_loop send f r st (w, d1 ++ d2) =
      remote_loop send (loop_fuel (d1' ++ d2)) r (parseState R1) (w1, d1' ++ d2).
Proof.
  induction fuel as [|fuel IH]; intros st w w1 d1 d2 d1' f Hb1 Hb2 H Hf; [done|].
  rewrite loop_step in H. destruct (phase send r st (w, d1)) as [n [w2 d2']| | | |] eqn:E; try done.
  pose proof (phase_suffix _ _ _ _ _ _ E) as Hsuf.
  destruct (phase_more st w w2 d1 d2 d2' n Hb1 E) as [Hmore Hless].
  assert (Hf0 : exists f', f = S f').
  { destruct f as [|f']; [|by exists f']. unfold work in Hf. pose proof (rank_bounds st).
    pose proof (len_nonneg (d1 ++ d2)). lia. }
  destruct Hf0 as [f' ->]. rewrite loop_step. destruct n as [st'|z].
  - destruct Hmore as [[_ Em]|[? _]]; [|done]. rewrite Em. cbn [less] in Hless.
    destruct (IH st' w2 w1 d2' d2 d1' f') as (Hs & R1 & HR1 & El); [by eapply bytes_suffix|done|done| |].
    + unfold work in *. rewrite len_app in *. lia.
    + split; [by etransitivity|]. by exists R1.
  - injection H as -> <- <-. destruct Hmore as [[Hne _]|(_ & R1 & HR1 & Em)]; [done|].
    split; [done|]. exists R1. split; [done|]. rewrite Em.
    pose proof (loop_fuel_work (parseState R1) (d2' ++ d2)) as Hw. unfold loop_fuel in *.
    rewrite Nat.add_comm. change (4 + ?a)%nat with (S (3 + a)). rewrite loop_step.
    assert (Hb : bytes (d2' ++ d2)) by (apply Forall_app; split; [by eapply bytes_suffix|done]).
    destruct (phase send r (parseState R1) (w2, d2' ++ d2)) as [[st'|z] [w3 d3]| | | |] eqn:E3; try done.
    pose proof (phase_suffix _ _ _ _ _ _ E3) as Hs3.
    destruct (phase_more _ _ _ _ [] _ _ Hb E3) as [_ Hl3]. cbn [less] in Hl3.
    apply loop_fuel_ok; [by eapply bytes_suffix| |unfold work in *; lia].
    destruct (phase_more st w w3 (d1 ++ d2) [] d3 (inl st')) as [_ Hl4].
    { by apply Forall_app. } { by rewrite Em. } cbn [less] in Hl4. unfold work in *. lia.
Qed.

Lemma loop_suffix (fuel : nat) : forall (st : ParseState) (w w1 : PW) (d d' : list Z) (z : Z),
  remote_loop send fuel r st (w, d) = Ret z (w1, d') -> d' `suffix_of` d.
Proof.
  induction fuel as [|fuel IH]; intros st w w1 d d' z H; [done|]. rewrite loop_step in H.
  destruct (phase send r st (w, d)) as [[st'|z'] [w2 d2]| | | |] eqn:E; try done.
  - apply IH in H. apply phase_suffix in E. by etransitivity.
  - injection H as _ <- <-. by apply phase_suffix in E.
Qed.

Lemma remove_to_suffix (b : Buffer) (d : list Z) : d `suffix_of` b_data b ->
  adbus_buf_remove 0 (length (b_data b) - length d) b = Ret tt (set_data d b).
Proof.
  intros [k E]. unfold adbus_buf_remove. rewrite (bind_Ret get _ _ _ _ eq_refl). rewrite E, length_app.
  replace (length k + length d - length d)%nat with (length k) by lia. cbn [Nat.add].
  rewrite (proj2 (Nat.leb_le _ _)) by lia. erewrite bind_Ret by (by apply assert_true).
  unfold put. by rewrite drop_app_length.
Qed.

(** The function, by the loop. *)
Lemma parse_eq (s : Server) (x : X) (b : Buffer) (R : Remote) : remote_heap s !! r = Some R ->
  adbus_remote_parse send r ((s, x), b) =
  match remote_loop send (loop_fuel (b_data b)) r (parseState R) ((s, x), b_data b) with
  | Ret z (w', rest) => if z =? 0 then Ret 0 (w', set_data rest b) else Ret z (w', b)
  | Err (w', _) => Err (w', b)
  | Abort => Abort | Oob => Oob | Nofuel => Nofuel
  end.
Proof.
  intros H. unfold adbus_remote_parse. unfold bind. rewrite the_remote_eq, H.
  destruct (remote_loop _ _ _ _ _) as [z [w' rest]| | | |] eqn:E; try done. destruct (z =? 0); [|done].
  by rewrite remove_to_suffix by (by eapply loop_suffix).
Qed.
End Stream.

(** C26: How the byte stream of a client is cut into pieces does not matter to
    the bus: if adbus_remote_parse asks for more after a first piece, then
    receiving a second piece and parsing again does exactly what parsing both
    pieces at once does: the same messages are dispatched in the same order
    with the same results, and the same bytes are left in the buffer (which
    only counts when the result is not an error). *)
Theorem remote_parse_chunks {B : Build} {X : Type} (send : rid -> Message -> M (Server * X) Z) (r : rid)
  (w w1 : Server * X) (b b1 : Buffer) (d : list Z) : bytes (b_data b) -> bytes d ->
  adbus_remote_parse send r (w, b) = Ret 0 (w1, b1) ->
  same_parse (adbus_remote_parse send r (w, set_data (b_data b ++ d) b))
    (adbus_remote_parse send r (w1, set_data (b_data b1 ++ d) b1)).
Proof.
  intros Hb Hd H. destruct w as [s x]. destruct (remote_heap s !! r) as [R|] eqn:HR.
  2:{ unfold adbus_remote_parse, bind in H. by rewrite the_remote_eq, HR in H. }
  rewrite (parse_eq send r s x b R HR) in H.
  destruct (remote_loop send (loop_fuel (b_data b)) _ _ _) as [z [w2 rest]|[w2 rest]| | |] eqn:E; try done.
  destruct (Z.eqb_spec z 0) as [->|Hz]; [|congruence]. injection H as <- <-.
  destruct (loop_app send r _ _ _ _ _ d _ (loop_fuel (b_data b ++ d)) Hb Hd E (loop_fuel_work _ _))
    as (Hs & R1 & HR1 & El). destruct w2 as [s2 x2].
  rewrite (parse_eq send r s x _ R HR), (parse_eq send r s2 x2 _ R1 HR1). cbn [b_data set_data]. rewrite El.
  destruct (remote_loop send (loop_fuel (rest ++ d)) r (parseState R1) _) as [z [w3 d3]|[w3 d3]| | |]; try done.
  destruct (Z.eqb_spec z 0) as [->|Hz]; cbn [same_parse];
    (split; [reflexivity|]; split; [reflexivity|]); intros H0; [reflexivity|congruence].
Qed.

(** ** Samples *)

(** A message from a client with a forged sender between the path and the
    member. *)
Definition forged : list field :=
  [(HEADER_OBJECT_PATH, VStr OBJECT_PATH (str "/")); (HEADER_SENDER, VStr STRING (str "org.evil"));
   (HEADER_MEMBER, VStr STRING (str "Do"))].

Definition head12 : list Z := [chr "l"; 1; 0; 1; 0; 0; 0; 0; 7; 0; 0; 0].

Lemma fix_headers_sender_witness : exists arr' sp' it',
  FixHeaders (B := debug_build) (str ":1.0") (len (header head12 forged)) (len (header head12 forged))
    (mkFix (mkBuf (header head12 forged) [] (Own 0)) (mkIter 0 0 []) false 0) =
  Ret tt (mkFix (mkBuf (header head12 [(HEADER_OBJECT_PATH, VStr OBJECT_PATH (str "/"));
                                       (HEADER_MEMBER, VStr STRING (str "Do"));
                                       (HEADER_SENDER, VStr STRING (str ":1.0"))]) arr' sp') it' true 64).
Proof.
  destruct (fix_headers_sender (B := debug_build) (str ":1.0") head12 [] forged (mkIter 0 0 []) false 0
    (len (header head12 forged)) (len (header head12 forged))) as ((arr' & sp' & it' & E) & _).
  - done.
  - done.
  - split; [by repeat constructor|]. by split; [repeat constructor|].
  - repeat constructor; by vm_compute.
  - by vm_compute.
  - exists arr', sp', it'. exact E.
Defined.

(** Client 2 sends a call to the owner of a.b, itself, in two pieces. *)
Definition call_bytes : list Z :=
  header head12 [(HEADER_OBJECT_PATH, VStr OBJECT_PATH (str "/")); (HEADER_MEMBER, VStr STRING (str "Do"));
                 (HEADER_DESTINATION, VStr STRING (str "a.b"))].

Definition first_piece : Buffer := mkBuf (take 20 call_bytes) [] (Own 0).

Lemma remote_parse_chunks_witness : exists w1 b1,
  adbus_remote_parse (B := debug_build) log_send 2 ((sample_state, []), first_piece) = Ret 0 (w1, b1) /\
  snd w1 = [] /\
  match adbus_remote_parse (B := debug_build) log_send 2 (w1, set_data (b_data b1 ++ drop 20 call_bytes) b1) with
  | Ret 0 ((_, log), b2) => log = [(2%nat, Some (str "Do"))] /\ b_data b2 = []
  | _ => False
  end /\
  same_parse
    (adbus_remote_parse (B := debug_build) log_send 2 ((sample_state, []), set_data (b_data first_piece ++ drop 20 call_bytes) first_piece))
    (adbus_remote_parse (B := debug_build) log_send 2 (w1, set_data (b_data b1 ++ drop 20 call_bytes) b1)).
Proof.
  destruct (adbus_remote_parse (B := debug_build) log_send 2 ((sample_state, []), first_piece))
    as [z [w1 b1]| | | |] eqn:E; [|by vm_compute in E..].
  assert (z = 0) as -> by (vm_compute in E; congruence).
  exists w1, b1. split; [done|]. split; [by vm_compute in E; injection E as <- <-|].
  split; [by vm_compute in E; injection E as <- <-; vm_compute|].
  apply (remote_parse_chunks (B := debug_build) log_send 2 (sample_state, []) w1 first_piece b1
    (drop 20 call_bytes)).
  - apply bytes_forallb. by vm_compute.
  - apply bytes_forallb. by vm_compute.
  - exact E.
Defined.
