(* ===== verification/Bus.v ===== *)
(** The bus object: the method handlers of adbus/server-bus.c, the checking
    functions they read their arguments with (adbus/riterator.c), error
    replies (adbus/messages.c, adbus/misc.c) and the callback dispatch that
    catches their longjmp.

    Every method of the table that adbusI_serv_initbus sets up is safe on any
    arguments, keeps the bus well formed, and does to the table of names and
    to the match rules what the abstract view says. *)

From Stdlib Require Import ZArith Lia.
From stdpp Require Import base option list numbers strings gmap.
From S2P Require Import Prelude Names Signature Iterator Values Buffer Text MatchRule Message Factory Server Registry.
Open Scope Z_scope.

(** ** A call: adbus_CbData

    [c_serv] is the server (the user data of the bus object), [c_iter] the
    iterator the check functions use (None while its signature is NULL),
    [c_serial] the next serial of the connection. *)
Record Call := mkCall {
  c_serv : Server; c_msg : Message; c_ret : option MsgFactory; c_iter : option Iterator; c_serial : Z }.

Definition with_serv (s : Server) (c : Call) : Call := mkCall s (c_msg c) (c_ret c) (c_iter c) (c_serial c).
Definition with_ret (f : option MsgFactory) (c : Call) : Call := mkCall (c_serv c) (c_msg c) f (c_iter c) (c_serial c).
Definition with_iter (i : option Iterator) (c : Call) : Call := mkCall (c_serv c) (c_msg c) (c_ret c) i (c_serial c).
Definition with_serial (n : Z) (c : Call) : Call := mkCall (c_serv c) (c_msg c) (c_ret c) (c_iter c) n.

(** What a longjmp carries. *)
Inductive jump := ERROR | PARSE_ERROR.
Definition code_of_jump (j : jump) : Z := match j with ERROR => -1 | PARSE_ERROR => -2 end.

(** A computation of a callback: it ends, or jumps. *)
Definition C (A : Type) : Type := M Call (A + jump).

Definition done_ {S A} (a : A) : M S (A + jump) := ret (inl a).
Definition longjmp {S A} (j : jump) : M S (A + jump) := ret (inr j).
Definition seq_ {S A B} (m : M S (A + jump)) (k : A -> M S (B + jump)) : M S (B + jump) :=
  let* r := m in match r with inl a => k a | inr j => longjmp j end.

Notation "'do*' x ':=' m 'in' k" := (seq_ m (fun x => k))
  (at level 10, x strict pattern, m at level 100, k at level 200) : adbus_scope.
Notation "'then*' m 'in' k" := (seq_ m (fun _ => k))
  (at level 10, m at level 100, k at level 200) : adbus_scope.

(** An operation on the server; an error code cannot come out of one. *)
Definition serv {A} (op : M Server A) : C A := fun c =>
  match op (c_serv c) with
  | Ret a s => Ret (inl a) (with_serv s c)
  | Err s => Err (with_serv s c)
  | Abort => Abort | Oob => Oob | Nofuel => Nofuel
  end.

(** [%s] of a format, or strcmp: a NULL pointer is a crash. *)
Definition text (s : option (list Z)) : C (list Z) :=
  match s with Some t => done_ t | None => oob end.

(** *** The return message *)
Definition ret_set (g : MsgFactory -> MsgFactory) : C unit := fun c =>
  match c_ret c with Some f => Ret (inl tt) (with_ret (Some (g f)) c) | None => Oob end.

Definition set_argbuf (b : Buffer) (f : MsgFactory) : MsgFactory :=
  mkFactory (buf f) b (messageType f) (flags f) (serial f) (argumentOffset f) (f_replySerial f)
    (hasReplySerial f) (f_path f) (f_interface f) (f_member f) (f_error f) (f_destination f) (f_sender f).

(** The macros adbus_msg_setsig, adbus_msg_string, ...: an operation of the
    argument buffer. *)
Definition on_args {A} (op : M Buffer A) : C A := fun c =>
  match c_ret c with
  | None => Oob
  | Some f =>
      match op (argbuf f) with
      | Ret a b => Ret (inl a) (with_ret (Some (set_argbuf b f)) c)
      | Err b => Err (with_ret (Some (set_argbuf b f)) c)
      | Abort => Abort | Oob => Oob | Nofuel => Nofuel
      end
  end.

Section Bus.
Context {B : Build}.

Definition adbus_conn_serial : C Z := fun c =>
  let n := if c_serial c =? 2 ^ 32 - 1 then 1 else c_serial c in
  Ret (inl n) (with_serial (n + 1) c).

(** ** Error replies *)
Definition adbus_error (errorName : list Z) (errorMessage : option (list Z)) : C Z :=
  let* c := get in
  match c_ret c with
  | None => done_ 0
  | Some _ =>
      let m := c_msg c in
      then* ret_set adbus_msg_reset in
      then* ret_set (adbus_msg_settype MSG_ERROR) in
      then* ret_set (adbus_msg_setflags 1) in
      do* n := adbus_conn_serial in
      then* ret_set (adbus_msg_setserial n) in
      then* ret_set (adbus_msg_setreply (msg_serial m)) in
      then* ret_set (adbus_msg_seterror errorName (len errorName)) in
      then* (match msg_destination m with
             | Some d => ret_set (adbus_msg_setdestination d (len d))
             | None => done_ tt
             end) in
      match errorMessage with
      | Some e =>
          then* (then* on_args (adbus_buf_setsig (str "s") 1) in
                 then* on_args (adbus_buf_string e (len e)) in on_args adbus_buf_end) in done_ 0
      | None => done_ 0
      end
  end.

Definition adbus_errorf (errorName errorMsg : list Z) : C Z := adbus_error errorName (Some errorMsg).

Definition adbus_error_argument : C Z :=
  let* c := get in
  let m := c_msg c in
  let name := str "nz.co.foobar.adbus.InvalidArgument" in
  match msg_interface m with
  | Some i =>
      do* member := text (msg_member m) in
      do* path := text (msg_path m) in
      adbus_errorf name
        (str "Invalid argument to the method '" ++ i ++ str "." ++ member ++ str "' on " ++ path)
  | None =>
      do* member := text (msg_member m) in
      do* path := text (msg_path m) in
      adbus_errorf name (str "Invalid argument to the method '" ++ member ++ str "' on " ++ path)
  end.

(** ** Reading arguments *)

(** The first character of the signature, if there is one. *)
Definition iter_head (i : option Iterator) : Z := match i with Some i => deref (sig i) | None => 0 end.

Definition Sig (field : Z) : C unit :=
  let* c := get in
  match c_iter c with
  | Some i => if deref (sig i) =? field then done_ tt else then* adbus_error_argument in longjmp ERROR
  | None => then* adbus_error_argument in longjmp ERROR
  end.

(** The iterator works on the argument data of the message. *)
Definition Iter {A} (op : list Z -> M Iterator A) : C A := fun c =>
  match c_iter c with
  | None => Oob
  | Some i =>
      match op (argdata (c_msg c)) i with
      | Ret a i' => Ret (inl a) (with_iter (Some i') c)
      | Err i' => Ret (inr PARSE_ERROR) (with_iter (Some i') c)
      | Abort => Abort | Oob => Oob | Nofuel => Nofuel
      end
  end.

Definition adbus_check_end : C unit :=
  let* c := get in
  if iter_head (c_iter c) =? 0 then done_ tt else then* adbus_error_argument in longjmp ERROR.

(** The string: its characters. *)
Definition adbus_check_string : C (list Z) :=
  then* Sig (chr "s") in
  do* ps := Iter adbus_iter_string in
  let* c := get in
  done_ (slice (argdata (c_msg c)) (fst ps) (Z.to_nat (snd ps))).

Definition adbus_check_u32 : C Z :=
  then* Sig (chr "u") in
  do* p := Iter (fun _ => adbus_iter_u32) in
  let* c := get in
  match load (argdata (c_msg c)) p 4 c with
  | Ret v _ => done_ v
  | _ => oob
  end.

(** ** Replies of the handlers *)
Definition reply (op : C unit) : C Z :=
  let* c := get in
  match c_ret c with None => done_ 0 | Some _ => then* op in done_ 0 end.

Definition reply_string (s : list Z) (size : Z) : C Z :=
  reply (then* on_args (adbus_buf_setsig (str "s") (-1)) in
         then* on_args (adbus_buf_string s size) in on_args adbus_buf_end).

Definition reply_u32 (v : Z) : C Z :=
  reply (then* on_args (adbus_buf_setsig (str "u") (-1)) in
         then* on_args (adbus_buf_u32 v) in on_args adbus_buf_end).

Definition reply_bool (v : Z) : C Z :=
  reply (then* on_args (adbus_buf_setsig (str "b") (-1)) in
         then* on_args (adbus_buf_bool v) in on_args adbus_buf_end).

(** ** The handlers *)

(** [adbusI_serv_remote(s, d->msg->sender)] *)
Definition the_sender : C (option rid) :=
  let* c := get in
  do* s := text (msg_sender (c_msg c)) in serv (adbusI_serv_remote s).

(** A pointer that is used. *)
Definition live_ptr (r : option rid) : C rid := match r with Some r => done_ r | None => oob end.

(** What a handler does once its arguments are read. *)
Definition hello_checked : C Z :=
  let* c := get in
  let already := adbus_error (str "nz.co.foobar.adbus.AlreadyHaveHello") None in
  match helloRemote (c_serv c) with
  | None => already
  | Some r =>
      do* x := serv (get_remote r) in
      if haveHello x then already
      else
        then* serv (put_remote r (set_hello true x)) in
        do* sender := text (msg_sender (c_msg c)) in
        then* serv (adbusI_serv_requestname r sender 0) in
        reply_string sender (-1)
  end.

Definition Hello : C Z := then* adbus_check_end in hello_checked.

Definition bad_name (name : list Z) : bool :=
  (deref name =? chr ":") || negb (adbusI_isValidBusName (Some name)).

Definition request_checked (name : list Z) (flags : Z) : C Z :=
  do* r := the_sender in
  if bad_name name then adbus_errorf (str "TODO") (str "TODO")
  else
    do* r := live_ptr r in
    do* z := serv (adbusI_serv_requestname r name flags) in
    reply_u32 z.

Definition RequestName : C Z :=
  do* name := adbus_check_string in
  do* flags := adbus_check_u32 in
  then* adbus_check_end in
  request_checked name flags.

(** Without a remote [adbusI_serv_releasename] gets as far as looking the
    name up. *)
Definition releasename_ptr (r : option rid) (name : list Z) : C Z :=
  match r with
  | Some r => serv (adbusI_serv_releasename r name)
  | None =>
      let* c := get in
      match names (c_serv c) !! name with
      | None => done_ ADBUS_SERVICE_RELEASE_INVALID_NAME
      | Some _ => oob
      end
  end.

Definition release_checked (name : list Z) : C Z :=
  do* r := the_sender in
  if bad_name name then adbus_errorf (str "TODO") (str "TODO")
  else
    do* z := releasename_ptr r name in
    reply_u32 z.

Definition ReleaseName : C Z :=
  do* name := adbus_check_string in
  then* adbus_check_end in
  release_checked name.

Definition has_owner_checked (name : list Z) : C Z :=
  do* r := serv (adbusI_serv_remote name) in
  reply_bool (match r with Some _ => 1 | None => 0 end).

Definition NameHasOwner : C Z :=
  do* name := adbus_check_string in
  then* adbus_check_end in
  has_owner_checked name.

Definition get_owner_checked (name : list Z) : C Z :=
  do* r := serv (adbusI_serv_remote name) in
  match r with
  | None => adbus_errorf (str "org.freedesktop.DBus.Error.NameHasNoOwner") (str "TODO")
  | Some r =>
      do* x := serv (get_remote r) in
      reply_string (unique x) (len (unique x))
  end.

Definition GetNameOwner : C Z :=
  do* name := adbus_check_string in
  then* adbus_check_end in
  get_owner_checked name.

(** The rule is put in front. *)
Definition add_match (r : rid) (m : Match) : M Server unit :=
  let* x := get_remote r in put_remote r (set_matches (m :: matches x) x).

Definition add_match_checked (mstr : list Z) : C Z :=
  match adbusI_serv_newmatch mstr with
  | None => adbus_errorf (str "TODO") (str "TODO")
  | Some m =>
      do* r := the_sender in
      do* r := live_ptr r in
      then* serv (add_match r m) in done_ 0
  end.

Definition AddMatch : C Z :=
  do* mstr := adbus_check_string in
  then* adbus_check_end in
  add_match_checked mstr.

(** The loop: the first rule with this text is removed. *)
Fixpoint remove_match (mstr : list Z) (l : list Match) : option (list Match) :=
  match l with
  | [] => None
  | m :: l' =>
      if list_eqb (m_data m) mstr then Some l'
      else match remove_match mstr l' with Some l'' => Some (m :: l'') | None => None end
  end.

Definition remove_match_checked (mstr : list Z) : C Z :=
  do* r := the_sender in
  do* r := live_ptr r in
  do* x := serv (get_remote r) in
  match remove_match mstr (matches x) with
  | Some l => then* serv (put_remote r (set_matches l x)) in done_ 0
  | None => then* adbus_errorf (str "TODO") (str "TODO") in done_ 0
  end.

Definition RemoveMatch : C Z :=
  do* mstr := adbus_check_string in
  then* adbus_check_end in
  remove_match_checked mstr.

(** *** ListNames

    The names are written in the order in which the hash table holds them,
    which [dh_order] gives. *)
Context (dh_order : gmap (list Z) sid -> list (list Z * sid)).

Fixpoint list_names (a : BufArray) (l : list (list Z * sid)) : C unit :=
  match l with
  | [] => done_ tt
  | (_, v) :: l' =>
      do* x := serv (get_service v) in
      then* on_args (adbus_buf_arrayentry a) in
      then* on_args (adbus_buf_string (s_name x) (-1)) in
      list_names a l'
  end.

Definition list_array : C unit :=
  do* a := on_args adbus_buf_beginarray in
  let* c := get in
  then* list_names a (dh_order (names (c_serv c))) in
  on_args (adbus_buf_endarray a).

Definition list_checked : C Z :=
  reply
    (then* on_args (adbus_buf_setsig (str "as") (-1)) in
     then* list_array in
     on_args adbus_buf_end).

Definition ListNames : C Z := then* adbus_check_end in list_checked.

(** ** The table of methods, and calling one *)
Definition bus_method (member : list Z) : option (C Z) :=
  if list_eqb member (str "Hello") then Some Hello
  else if list_eqb member (str "RequestName") then Some RequestName
  else if list_eqb member (str "ReleaseName") then Some ReleaseName
  else if list_eqb member (str "ListNames") then Some ListNames
  else if list_eqb member (str "NameHasOwner") then Some NameHasOwner
  else if list_eqb member (str "GetNameOwner") then Some GetNameOwner
  else if list_eqb member (str "AddMatch") then Some AddMatch
  else if list_eqb member (str "RemoveMatch") then Some RemoveMatch
  else None.

(** The signature of the result that [adbusI_serv_initbus] declares. *)
Definition bus_retsig (member : list Z) : list Z :=
  if list_eqb member (str "Hello") then str "s"
  else if list_eqb member (str "RequestName") then str "u"
  else if list_eqb member (str "ReleaseName") then str "u"
  else if list_eqb member (str "ListNames") then str "as"
  else if list_eqb member (str "NameHasOwner") then str "b"
  else if list_eqb member (str "GetNameOwner") then str "s"
  else [].

Definition adbus_iter_args (m : Message) : option Iterator :=
  match signature m with Some g => Some (mkIter 0 (argsize m) g) | None => None end.

(** [setjmp], then the callback. *)
Definition adbus_dispatch (callback : C Z) : M Call Z :=
  run* modify (fun c => with_iter (adbus_iter_args (c_msg c)) c) in
  let* r := callback in
  match r with
  | inl z => ret z
  | inr ERROR => ret 0
  | inr j => ret (code_of_jump j)
  end.

Definition adbusI_methodError : C Z :=
  let* c := get in
  let m := c_msg c in
  let name := str "nz.co.foobar.adbus.InvalidMethod" in
  match msg_interface m with
  | Some i =>
      do* path := text (msg_path m) in
      do* member := text (msg_member m) in
      adbus_errorf name
        (str "The path '" ++ path ++ str "' does not export the method '" ++ i ++ str "." ++ member ++ str "'.")
  | None =>
      do* path := text (msg_path m) in
      do* member := text (msg_member m) in
      adbus_errorf name (str "The path '" ++ path ++ str "' does not export the method '" ++ member ++ str "'.")
  end.
End Bus.

(** ** Reasoning about calls

    [wpC m P J c]: from [c], [m] ends with [P] or jumps with [J]; in
    particular it stops at no assertion and touches no wrong memory. *)
Definition wpC {A} (m : C A) (P : A -> Call -> Prop) (J : jump -> Call -> Prop) (c : Call) : Prop :=
  match m c with
  | Ret (inl a) c' => P a c'
  | Ret (inr j) c' => J j c'
  | _ => False
  end.

Lemma seq_Ret {S A A'} (m : M S (A' + jump)) (k : A' -> M S (A + jump)) (a : A') (s s' : S) :
  m s = Ret (inl a) s' -> seq_ m k s = k a s'.
Proof. intros H. unfold seq_. by rewrite (bind_Ret _ _ _ _ _ H). Qed.

(** The jumps of something that does not jump. *)
Definition nojump (j : jump) (c : Call) : Prop := False.

Section Wp.

Lemma wpC_done {A} (a : A) (P : A -> Call -> Prop) J c : P a c -> wpC (done_ a) P J c.
Proof. done. Qed.

Lemma wpC_weaken {A} (m : C A) (P P' : A -> Call -> Prop) (J J' : jump -> Call -> Prop) c :
  wpC m P J c -> (forall a c', P a c' -> P' a c') -> (forall j c', J j c' -> J' j c') -> wpC m P' J' c.
Proof. unfold wpC. intros H HP HJ. destruct (m c) as [[a|j] c'| | | |]; eauto. Qed.

Lemma wpC_seq {A A'} (m : C A') (k : A' -> C A) (R : A' -> Call -> Prop) (P : A -> Call -> Prop)
  (J : jump -> Call -> Prop) c :
  wpC m R J c -> (forall a c', R a c' -> wpC (k a) P J c') -> wpC (seq_ m k) P J c.
Proof.
  unfold wpC, seq_, bind, longjmp, ret. intros H Hk.
  destruct (m c) as [[a|j] c'| | | |]; try done. by apply Hk.
Qed.

Lemma wpC_seq_nojump {A A'} (m : C A') (k : A' -> C A) (R : A' -> Call -> Prop) (P : A -> Call -> Prop)
  (J : jump -> Call -> Prop) c :
  wpC m R nojump c -> (forall a c', R a c' -> wpC (k a) P J c') -> wpC (seq_ m k) P J c.
Proof. intros H Hk. eapply wpC_seq; [|exact Hk]. eapply wpC_weaken; [exact H|auto|done]. Qed.

Lemma wpC_get {A} (k : Call -> C A) (P : A -> Call -> Prop) J c : wpC (k c) P J c -> wpC (bind get k) P J c.
Proof. done. Qed.

Lemma seq_inl {A A'} (m : C A') (k : A' -> C A) (a : A') c c' : m c = Ret (inl a) c' -> seq_ m k c = k a c'.
Proof. apply seq_Ret. Qed.

Lemma wpC_step {A A'} (m : C A') (k : A' -> C A) (a : A') (P : A -> Call -> Prop) J c c' :
  m c = Ret (inl a) c' -> wpC (k a) P J c' -> wpC (seq_ m k) P J c.
Proof. intros H. unfold wpC. by rewrite (seq_inl _ _ _ _ _ H). Qed.
End Wp.

(** ** Replies *)

(** The server and the message are untouched. *)
Definition frame (c c' : Call) : Prop := c_serv c' = c_serv c /\ c_msg c' = c_msg c.

(** The return message, if one is wanted, holds exactly the values [vs]. *)
Definition answers (vs : list value) (c c' : Call) : Prop :=
  match c_ret c with
  | None => c_ret c' = None
  | Some f => exists arr sp, c_ret c' = Some (set_argbuf (mkBuf (encs 0 vs) arr sp) f) /\
                cstr arr = sigs_of (map ty_of vs)
  end.

(** The return message, if one is wanted, is an error with this name, in
    reply to the call. *)
Definition fails (name : list Z) (c c' : Call) : Prop :=
  match c_ret c with
  | None => c_ret c' = None
  | Some _ => exists f, c_ret c' = Some f /\ messageType f = MSG_ERROR /\ f_error f = name /\
                adbus_msg_reply f = (true, msg_serial (c_msg c))
  end.

(** The return message was reset before the call. *)
Definition fresh (c : Call) : Prop :=
  match c_ret c with None => True | Some f => b_data (argbuf f) = [] /\ b_sigp (argbuf f) = Own 0 end.

Section Replies.
Context {B : Build}.

Lemma setsig_any (s d arr : list Z) (sp : sigptr) (size : Z) : no_nul s -> len s <= 255 ->
  size = -1 \/ size = len s ->
  exists arr', adbus_buf_setsig s size (mkBuf d arr sp) = Ret tt (mkBuf d arr' sp) /\ cstr arr' = s.
Proof.
  intros Hn Hl Hs. pose proof (len_nonneg s). exists (memcpy_into arr 0 (s ++ [0])). split.
  - unfold adbus_buf_setsig.
    assert (Ez : (if size <? 0 then len (cstr s) else size) = len s).
    { destruct Hs as [->| ->]; [by rewrite cstr_no_nul|]. by rewrite (proj2 (Z.ltb_ge _ _)) by lia. }
    rewrite Ez, (proj2 (Z.ltb_ge _ _)) by lia.
    assert (E : carg s (len s + 1) (mkBuf d arr sp) = Ret (s ++ [0]) (mkBuf d arr sp)).
    { unfold carg. rewrite (proj2 (Z.ltb_ge _ _)), (proj2 (Z.leb_le _ _)) by lia. unfold ret. f_equal.
      replace (Z.to_nat (len s + 1)) with (length (s ++ [0]))
        by (rewrite length_app; unfold len; cbn [length]; lia).
      apply firstn_all. }
    by rewrite (bind_Ret _ _ _ _ _ E).
  - unfold memcpy_into. cbn [take app]. rewrite <- app_assoc. cbn [app]. by apply cstr_app_nul.
Qed.

Lemma buf_end_ok (d arr : list Z) (sp : sigptr) : at_sigptr arr sp = Some [] ->
  adbus_buf_end (mkBuf d arr sp) = Ret tt (mkBuf d arr sp).
Proof. intros H. unfold adbus_buf_end. rewrite (bind_Ret get _ _ _ _ eq_refl). cbn [b_sig b_sigp]. rewrite H. by apply assert_true. Qed.

Lemma string_size (s : list Z) (size : Z) (b : Buffer) : size = len s \/ size = -1 /\ no_nul s ->
  adbus_buf_string s size b = adbus_buf_string s (len s) b.
Proof.
  intros [->|[-> Hn]]; [done|]. unfold adbus_buf_string, append_string, bind.
  destruct (SIG (chr "s") b) as [[] b1| | | |]; try done. by rewrite carg_nul, carg_len.
Qed.

Lemma on_args_ok {A} (op : M Buffer A) (a : A) (b b' : Buffer) (f : MsgFactory) (c : Call) :
  op b = Ret a b' ->
  on_args op (with_ret (Some (set_argbuf b f)) c) = Ret (inl a) (with_ret (Some (set_argbuf b' f)) c).
Proof. intros H. unfold on_args. cbn. by rewrite H. Qed.

Lemma with_ret_id (c : Call) (f : MsgFactory) : c_ret c = Some f ->
  c = with_ret (Some (set_argbuf (argbuf f) f)) c.
Proof. destruct c, f. by intros [= ->]. Qed.

(** Setting the signature of a value, writing it and finishing; [op] writes
    the value. *)
Definition writes (op : C unit) (v : value) (c : Call) : Prop := forall b b' f,
  write v b = Ret tt b' ->
  op (with_ret (Some (set_argbuf b f)) c) = Ret (inl tt) (with_ret (Some (set_argbuf b' f)) c).

Lemma writes_buf (op : M Buffer unit) (v : value) (c : Call) : (forall b, op b = write v b) -> writes (on_args op) v c.
Proof. intros H b b' f E. apply on_args_ok. by rewrite H. Qed.

Lemma write_reply (v : value) (op : C unit) (size : Z) (f : MsgFactory) (arr0 : list Z) (c : Call) :
  wf 0 v -> canon v -> len (sig_of (ty_of v)) <= 255 -> (size = -1 \/ size = len (sig_of (ty_of v))) ->
  writes op v c -> exists arr sp,
  seq_ (on_args (adbus_buf_setsig (sig_of (ty_of v)) size)) (fun _ =>
    seq_ op (fun _ => on_args adbus_buf_end))
    (with_ret (Some (set_argbuf (mkBuf [] arr0 (Own 0)) f)) c) =
  Ret (inl tt) (with_ret (Some (set_argbuf (mkBuf (enc 0 v) arr sp) f)) c) /\ cstr arr = sig_of (ty_of v) /\
  at_sigptr arr sp = Some [].
Proof.
  intros Hw Hc Hl Hs Hop.
  destruct (setsig_any (sig_of (ty_of v)) [] arr0 (Own 0) size (no_nul_sig_of _) Hl Hs) as (arr & E & Ea).
  destruct (written_all v 0 Hw Hc [] arr (Own 0) []) as (sp & Ew & Esp); [done| |].
  { cbn [at_sigptr]. by rewrite drop_0, app_nil_r, Ea. }
  exists arr, sp. split; [|by split].
  erewrite seq_inl by (apply on_args_ok; exact E).
  erewrite seq_inl by (apply Hop; exact Ew).
  apply on_args_ok. by apply buf_end_ok.
Qed.

Lemma encs_one (v : value) : encs 0 [v] = enc 0 v.
Proof. change (encs 0 [v]) with (enc 0 v ++ []). apply app_nil_r. Qed.

Lemma sigs_one (t : ty) : sigs_of [t] = sig_of t.
Proof. cbn. apply app_nil_r. Qed.

Lemma reply_ok (v : value) (op : C unit) (c : Call) : fresh c ->
  wf 0 v -> canon v -> len (sig_of (ty_of v)) <= 255 -> writes op v c ->
  wpC (reply (seq_ (on_args (adbus_buf_setsig (sig_of (ty_of v)) (-1))) (fun _ =>
         seq_ op (fun _ => on_args adbus_buf_end))))
    (fun z c' => z = 0 /\ frame c c' /\ answers [v] c c') nojump c.
Proof.
  intros Hf Hw Hc Hl Hop. unfold reply. apply wpC_get. unfold fresh, answers in *.
  destruct (c_ret c) as [f|] eqn:Ef; [|apply wpC_done; by repeat split].
  destruct Hf as [Hd Hp]. destruct (write_reply v op (-1) f (b_sig (argbuf f)) c Hw Hc Hl) as (arr & sp & E & Ea & _);
    [by left|done|].
  assert (Hb : argbuf f = mkBuf [] (b_sig (argbuf f)) (Own 0)) by (destruct (argbuf f); cbn in *; congruence).
  rewrite <- Hb, <- (with_ret_id c f Ef) in E.
  eapply wpC_step; [exact E|]. apply wpC_done. split; [done|]. split; [done|].
  exists arr, sp. change (map ty_of [v]) with [ty_of v]. by rewrite encs_one, sigs_one.
Qed.

(** *** Error replies *)

(** The header of an error reply to [m] with serial [n], and an argument
    buffer that is finished with the text [e]. *)
Definition error_factory (name : list Z) (m : Message) (n : Z) (f : MsgFactory) : MsgFactory :=
  let f1 := adbus_msg_seterror name (len name) (adbus_msg_setreply (msg_serial m) (adbus_msg_setserial n
    (adbus_msg_setflags 1 (adbus_msg_settype MSG_ERROR (adbus_msg_reset f))))) in
  match msg_destination m with Some d => adbus_msg_setdestination d (len d) f1 | None => f1 end.
Definition holds_text (e : list Z) (b : Buffer) : Prop :=
  b_data b = enc 0 (VStr STRING e) /\ cstr (b_sig b) = str "s" /\ at_sigptr (b_sig b) (b_sigp b) = Some [].
Definition serial_now (n : Z) : Z := if n =? 2 ^ 32 - 1 then 1 else n.

Lemma error_exact (name : list Z) (e : option (list Z)) (c : Call) (f : MsgFactory) : c_ret c = Some f ->
  (forall m, e = Some m -> bytes m /\ no_nul m /\ len m < 2 ^ 32) ->
  let n := serial_now (c_serial c) in
  exists b, adbus_error name e c = Ret (inl 0) (with_ret (Some (set_argbuf b (error_factory name (c_msg c) n f))) (with_serial (n + 1) c)) /\
    match e with Some m => holds_text m b | None => True end.
Proof.
  intros Ef He n. unfold adbus_error. rewrite (bind_Ret get _ _ _ _ eq_refl), Ef. rewrite (with_ret_id c f Ef). cbn [c_msg with_ret].
  do 4 (erewrite seq_inl by reflexivity). do 3 (erewrite seq_inl by reflexivity).
  cbn [c_ret with_ret with_serial c_msg c_serv c_iter c_serial].
  set (f1 := adbus_msg_seterror _ _ _). set (f2 := error_factory name (c_msg c) n f). set (c1 := with_ret (Some f1) _).
  assert (Hr : f1 = adbus_msg_seterror name (len name) (adbus_msg_setreply (msg_serial (c_msg c)) (adbus_msg_setserial n
    (adbus_msg_setflags 1 (adbus_msg_settype MSG_ERROR (adbus_msg_reset f)))))).
  { unfold f1, adbus_msg_seterror, str_arg. by rewrite (proj2 (Z.ltb_ge _ _)) by apply len_nonneg. }
  erewrite (seq_inl _ _ tt c1 (with_ret (Some f2) (with_serial (n + 1) c))).
  2:{ unfold f2, error_factory. rewrite <- Hr. by destruct (msg_destination (c_msg c)). }
  assert (H2 : b_data (argbuf f2) = [] /\ b_sigp (argbuf f2) = Own 0) by (unfold f2, error_factory; by destruct (msg_destination (c_msg c))).
  destruct H2 as [Hd Hp]. assert (Eset : set_argbuf (argbuf f2) f2 = f2) by (by destruct f2). destruct e as [m|].
  - destruct (He m eq_refl) as (Hb & Hnn & Hl).
    destruct (write_reply (VStr STRING m) (on_args (adbus_buf_string m (len m))) 1 f2 (b_sig (argbuf f2)) (with_serial (n + 1) c))
      as (arr & sp & E & Ea & Esp).
    { by repeat split. } { done. } { done. } { by right. } { by apply writes_buf. }
    assert (Hbf : argbuf f2 = mkBuf [] (b_sig (argbuf f2)) (Own 0)) by (destruct (argbuf f2); cbn in *; congruence).
    rewrite <- Hbf, Eset in E. rewrite (seq_inl _ _ _ _ _ E). eexists. split; [reflexivity|]. by repeat split.
  - exists (argbuf f2). split; [|done]. by rewrite Eset.
Qed.

Lemma error_ok (name : list Z) (e : option (list Z)) (c : Call) :
  (forall m, e = Some m -> bytes m /\ no_nul m /\ len m < 2 ^ 32) ->
  wpC (adbus_error name e) (fun z c' => z = 0 /\ frame c c' /\ fails name c c') nojump c.
Proof.
  intros He. unfold wpC, fails. destruct (c_ret c) as [f|] eqn:Ef.
  - destruct (error_exact name e c f Ef He) as (b & -> & _). split; [done|]. split; [done|]. eexists. split; [reflexivity|].
    unfold error_factory, adbus_msg_seterror, str_arg. rewrite (proj2 (Z.ltb_ge _ _)) by apply len_nonneg.
    unfold len. rewrite Nat2Z.id, firstn_all. by destruct (msg_destination (c_msg c)).
  - unfold adbus_error. rewrite (bind_Ret get _ _ _ _ eq_refl), Ef. by repeat split.
Qed.

Lemma errorf_ok (name e : list Z) (c : Call) : bytes e -> no_nul e -> len e < 2 ^ 32 ->
  wpC (adbus_errorf name e) (fun z c' => z = 0 /\ frame c c' /\ fails name c c') nojump c.
Proof. intros H1 H2 H3. apply error_ok. by intros m [= <-]. Qed.
End Replies.

(** ** Reading the arguments *)

(** An operation that stops at no assertion. *)
Definition noab {S A} (m : M S A) : Prop := forall s, m s <> Abort.

Section Noab.
Context {S : Type}.

Lemma noab_bind {A A'} (m : M S A) (k : A -> M S A') : noab m -> (forall a, noab (k a)) -> noab (bind m k).
Proof. intros Hm Hk s. unfold bind. specialize (Hm s). destruct (m s); try done. apply Hk. Qed.

Lemma noab_require (c : bool) : noab (S := S) (require c).
Proof. intros s. unfold require. by destruct c. Qed.

Lemma noab_load (m : list Z) (p : Z) (n : nat) : noab (S := S) (load m p n).
Proof. intros s. unfold load. by destruct (in_bounds _ _ _). Qed.

Lemma noab_memchr_from (c : Z) (n : nat) : forall (l : list Z) (k : Z), noab (S := S) (memchr_from l c n k).
Proof. induction n as [|n IH]; intros [|x l] k s; cbn [memchr_from]; try done. destruct (x =? c); [done|apply IH]. Qed.

Lemma noab_memchr (m : list Z) (p c : Z) (n : nat) : noab (S := S) (memchr m p c n).
Proof. intros s. unfold memchr. destruct (0 <=? p); [apply noab_memchr_from|done]. Qed.
End Noab.

Create HintDb noab.
#[export] Hint Resolve noab_require noab_load noab_memchr : noab.

(** One step of a program without assertions. *)
Ltac noab_step :=
  first [apply noab_bind; [solve [auto with noab | by intros ? | noab_tac]|intros] | by intros ?]
with noab_tac := repeat noab_step.

(** A field of the message that goes into the text of an error. *)
Definition plain_text (s : list Z) : Prop := bytes s /\ no_nul s /\ len s < 2 ^ 27.

Lemma plain_lit (s : list Z) : forallb is_byte s = true -> forallb (fun c => negb (c =? 0)) s = true ->
  len s < 2 ^ 27 -> plain_text s.
Proof.
  intros H1 H2 H3. split; [by apply bytes_forallb|]. split; [|done].
  apply Forall_forall. intros c Hc. rewrite forallb_forall in H2. apply list_elem_of_In in Hc.
  specialize (H2 c Hc). by destruct (Z.eqb_spec c 0).
Qed.

Lemma plain_app (a b : list Z) (n k : Z) : bytes a /\ no_nul a /\ len a < n -> bytes b /\ no_nul b /\ len b < k ->
  bytes (a ++ b) /\ no_nul (a ++ b) /\ len (a ++ b) < n + k.
Proof.
  intros (H1 & H2 & H3) (H4 & H5 & H6). split; [by apply Forall_app|]. split; [by apply Forall_app|].
  rewrite len_app. lia.
Qed.

Ltac plain_parts :=
  repeat first [eassumption | eapply plain_app | apply plain_lit; by vm_compute].

Section ReadArgs.
Context {B : Build}.

Lemma noab_iter_get (n : Z) : noab (iter_get n).
Proof. unfold iter_get, adbus_iter_align. noab_tac. Qed.

Lemma noab_getstring (m : list Z) (n : Z) : noab (adbusI_iter_getstring m n).
Proof. unfold adbusI_iter_getstring. noab_tac. Qed.

(** After the test of the type, the value is read or the data are at fault. *)
Lemma string_outcome (m : list Z) (i : Iterator) : bytes m -> good true m i -> deref (sig i) = chr "s" ->
  (exists i', adbus_iter_string m i = Err i') \/
  exists ps i', adbus_iter_string m i = Ret ps i' /\ good true m i'.
Proof.
  intros Hb Hg Hs. pose proof (wp_string32 m false Hb (chr "s") i Hg) as Hw.
  assert (E : adbus_iter_string m i =
    bind adbusI_iter_get32 (fun p => bind (load32 m p) (fun n => adbusI_iter_getstring m n)) (set_sig (tl (sig i)) i)).
  { unfold adbus_iter_string, adbusI_iter_sig. rewrite bind_assoc. rewrite (bind_Ret get _ _ _ _ eq_refl), bind_assoc.
    rewrite (bind_Ret (put _) _ _ _ tt eq_refl). by rewrite Hs, Z.eqb_refl. }
  change (bind (adbusI_iter_sig (chr "s")) _ i) with (adbus_iter_string m i) in Hw. rewrite E in *.
  assert (Hn : noab (bind adbusI_iter_get32 (fun p => bind (load32 m p) (fun n => adbusI_iter_getstring m n)))).
  { apply noab_bind; [apply noab_iter_get|intros]. apply noab_bind; [apply noab_load|intros]. apply noab_getstring. }
  specialize (Hn (set_sig (tl (sig i)) i)).
  destruct (bind _ _ _) as [ps i'|i'| | |]; try done; [|by left; eexists].
  right. exists ps, i'. split; [done|]. destruct Hw as [Hm _]. by eapply good_moved.
Qed.

Lemma u32_outcome (m : list Z) (i : Iterator) : good true m i -> deref (sig i) = chr "u" ->
  (exists i', adbus_iter_u32 i = Err i') \/
  exists p i', adbus_iter_u32 i = Ret p i' /\ good true m i' /\ in_bounds m p 4 = true.
Proof.
  intros Hg Hs. pose proof Hg as (H1 & H2 & H3). specialize (H3 eq_refl).
  set (j := set_sig (tl (sig i)) i). pose proof (wp_iter_get false 4 j ltac:(auto with adbus) H1) as Hw.
  assert (E : adbus_iter_u32 i = iter_get 4 j).
  { unfold adbus_iter_u32, adbusI_iter_sig. rewrite bind_assoc. rewrite (bind_Ret get _ _ _ _ eq_refl), bind_assoc.
    rewrite (bind_Ret (put _) _ _ _ tt eq_refl). by rewrite Hs, Z.eqb_refl. }
  rewrite E. pose proof (noab_iter_get 4 j) as Hn.
  destruct (iter_get 4 j) as [p i'|i'| | |]; try done; [|by left; eexists].
  right. exists p, i'. destruct Hw as (Hm & _ & -> & Hd & _). split; [done|].
  assert (Hg' : good true m i') by (by apply (good_moved true m j)). split; [done|].
  destruct Hg' as (G1 & G2 & G3). specialize (G3 eq_refl). unfold in_bounds. apply andb_true_intro.
  split; apply Z.leb_le; cbn [j set_sig data size] in *; unfold len; lia.
Qed.

(** *** The checks *)

(** What the parser guarantees of a method call. *)
Record msg_ok (m : Message) : Prop := {
  mo_bytes : bytes (argdata m);
  mo_args : 0 <= argsize m <= len (argdata m);
  mo_path : exists t, msg_path m = Some t /\ plain_text t;
  mo_member : exists t, msg_member m = Some t /\ plain_text t;
  mo_interface : forall t, msg_interface m = Some t -> plain_text t }.

(** The iterator of the checks is inside of the arguments. *)
Definition armed (c : Call) : Prop :=
  match c_iter c with None => True | Some i => good true (argdata (c_msg c)) i end.

(** A jump: the server is untouched; for wrong types there is an error reply. *)
Definition refused (c : Call) (j : jump) (c' : Call) : Prop :=
  frame c c' /\
  match j with
  | ERROR => fails (str "nz.co.foobar.adbus.InvalidArgument") c c'
  | PARSE_ERROR => c_ret c' = c_ret c
  end.

Lemma error_argument_ok (c : Call) : msg_ok (c_msg c) ->
  wpC adbus_error_argument (fun z c' => frame c c' /\ fails (str "nz.co.foobar.adbus.InvalidArgument") c c') nojump c.
Proof.
  intros [_ _ (p & Ep & Hp) (n & En & Hn) Hi]. unfold adbus_error_argument. apply wpC_get. rewrite Ep, En.
  destruct (msg_interface (c_msg c)) as [i|].
  - specialize (Hi i eq_refl). do 2 (eapply wpC_step; [reflexivity|]).
    eapply wpC_weaken; [apply errorf_ok|by intros ?? (_ & ?)|done];
      match goal with |- context [_ ++ i ++ ?r] =>
        assert (H : bytes (str "Invalid argument to the method '" ++ i ++ r) /\
                    no_nul (str "Invalid argument to the method '" ++ i ++ r) /\
                    len (str "Invalid argument to the method '" ++ i ++ r) < 2 ^ 27 + (2 ^ 27 + (2 ^ 27 + (2 ^ 27 + (2 ^ 27 + 2 ^ 27)))))
          by plain_parts; destruct H as (H1 & H2 & H3) end; [done|done|lia].
  - do 2 (eapply wpC_step; [reflexivity|]).
    eapply wpC_weaken; [apply errorf_ok|by intros ?? (_ & ?)|done];
      match goal with |- context [_ ++ n ++ ?r] =>
        assert (H : bytes (str "Invalid argument to the method '" ++ n ++ r) /\
                    no_nul (str "Invalid argument to the method '" ++ n ++ r) /\
                    len (str "Invalid argument to the method '" ++ n ++ r) < 2 ^ 27 + (2 ^ 27 + (2 ^ 27 + 2 ^ 27)))
          by plain_parts; destruct H as (H1 & H2 & H3) end; [done|done|lia].
Qed.

(** Giving up after an error reply. *)
Lemma refuse_ok {A} (c : Call) (P : A -> Call -> Prop) : msg_ok (c_msg c) ->
  wpC (then* adbus_error_argument in longjmp ERROR) P (refused c) c.
Proof. intros H. eapply wpC_seq_nojump; [by apply error_argument_ok|]. intros _ c' (Hf & Hr). done. Qed.

Lemma Sig_wp (f : Z) (c : Call) : msg_ok (c_msg c) ->
  wpC (Sig f) (fun _ c' => c' = c /\ exists i, c_iter c = Some i /\ deref (sig i) = f) (refused c) c.
Proof.
  intros Hm. unfold Sig. apply wpC_get. destruct (c_iter c) as [i|] eqn:Ei; [|by apply refuse_ok].
  destruct (Z.eqb_spec (deref (sig i)) f); [|by apply refuse_ok]. apply wpC_done. eauto.
Qed.

Lemma check_end_wp (c : Call) : msg_ok (c_msg c) -> wpC adbus_check_end (fun _ c' => c' = c) (refused c) c.
Proof. intros Hm. unfold adbus_check_end. apply wpC_get. destruct (_ =? 0); [done|by apply refuse_ok]. Qed.

Lemma check_string_wp (c : Call) : msg_ok (c_msg c) -> armed c ->
  wpC adbus_check_string (fun _ c' => exists i, c' = with_iter (Some i) c /\ armed c') (refused c) c.
Proof.
  intros Hm Ha. unfold adbus_check_string. eapply wpC_seq; [by apply Sig_wp|]. intros _ ? (-> & i & Ei & Hs).
  unfold armed in Ha. rewrite Ei in Ha.
  destruct (string_outcome _ i (mo_bytes _ Hm) Ha Hs) as [[i' E]|(ps & i' & E & Hg)].
  - unfold wpC, seq_, bind, Iter. rewrite Ei, E. by split.
  - eapply wpC_step; [unfold Iter; by rewrite Ei, E|]. apply wpC_get, wpC_done. by exists i'.
Qed.

Lemma check_u32_wp (c : Call) : msg_ok (c_msg c) -> armed c ->
  wpC adbus_check_u32 (fun _ c' => exists i, c' = with_iter (Some i) c /\ armed c') (refused c) c.
Proof.
  intros Hm Ha. unfold adbus_check_u32. eapply wpC_seq; [by apply Sig_wp|]. intros _ ? (-> & i & Ei & Hs).
  unfold armed in Ha. rewrite Ei in Ha.
  destruct (u32_outcome _ i Ha Hs) as [[i' E]|(p & i' & E & Hg & Hb)].
  - unfold wpC, seq_, bind, Iter. rewrite Ei, E. by split.
  - eapply wpC_step; [unfold Iter; by rewrite Ei, E|]. apply wpC_get. unfold load. cbn [c_msg with_iter].
    change (Z.of_nat 4) with 4. rewrite Hb. apply wpC_done. by exists i'.
Qed.
End ReadArgs.

(** ** The bus between calls

    The names are well formed and valid bus names, and every remote that said
    hello owns its unique name. *)
Record bus_inv (s : Server) : Prop := {
  bi_wf : wf_server s;
  bi_valid : forall n, is_Some (owner s n) -> adbusI_isValidBusName (Some n) = true;
  bi_unique : forall r R, remote_heap s !! r = Some R -> haveHello R = true -> owner s (unique R) = Some r }.

(** What looking names up relies on: every name has a service with an owner
    that is alive, and all names are valid.  Clients may wait for a name. *)
Record readable (s : Server) : Prop := {
  rd_names : forall n v, names s !! n = Some v -> adbusI_isValidBusName (Some n) = true /\
    exists x o q R, service_heap s !! v = Some x /\ s_name x = n /\ queue x = o :: q /\ remote_heap s !! o_remote o = Some R;
  rd_unique : forall r R, remote_heap s !! r = Some R -> adbusI_isValidBusName (Some (unique R)) = true }.

(** ** The handlers, once their arguments are read *)
Section Checked.
Context {B : Build}.

Lemma bus_links (s : Server) : bus_inv s -> wf_links s.
Proof. intros [W _ _]. by apply wf_split in W as [_ Wl]. Qed.

Lemma serv_remote_ok (s : Server) (n : list Z) : readable s -> adbusI_serv_remote n s = Ret (owner s n) s.
Proof.
  intros W. unfold adbusI_serv_remote, owner. rewrite (bind_Ret get _ _ _ _ eq_refl).
  destruct (names s !! n) as [v|] eqn:En; [|done]. destruct (rd_names s W n v En) as (_ & x & o & q & R & Ex & _ & Hq & _).
  by rewrite (bind_Ret _ _ _ _ _ (get_service_ok _ _ _ Ex)), Ex, Hq.
Qed.

(** A name is in the table exactly when it has an owner, who is alive. *)
Lemma owned_name (s : Server) (n : list Z) : readable s -> is_Some (owner s n) <-> is_Some (names s !! n).
Proof.
  intros W. unfold owner. destruct (names s !! n) as [v|] eqn:En; [|done]. destruct (rd_names s W n v En) as (_ & x & o & q & R & -> & _ & -> & _).
  split; intros _; by eexists.
Qed.

Lemma owner_alive (s : Server) (n : list Z) (r : rid) : readable s -> owner s n = Some r -> exists R, remote_heap s !! r = Some R.
Proof.
  intros W. unfold owner. destruct (names s !! n) as [v|] eqn:En; [|done]. destruct (rd_names s W n v En) as (_ & x & o & q & R & -> & _ & -> & HR).
  intros [= <-]. by exists R.
Qed.

Lemma with_serv_id (c : Call) : with_serv (c_serv c) c = c.
Proof. by destruct c. Qed.

Lemma serv_ok {A} (op : M Server A) (a : A) (s' : Server) (c : Call) :
  op (c_serv c) = Ret a s' -> serv op c = Ret (inl a) (with_serv s' c).
Proof. intros H. unfold serv. by rewrite H. Qed.

Lemma owner_lookup (c : Call) (n : list Z) : readable (c_serv c) ->
  serv (adbusI_serv_remote n) c = Ret (inl (owner (c_serv c) n)) c.
Proof. intros H. rewrite (serv_ok _ _ _ _ (serv_remote_ok _ n H)). by rewrite with_serv_id. Qed.

Lemma valid_plain (n : list Z) : adbusI_isValidBusName (Some n) = true -> bytes n /\ no_nul n /\ len n <= 255.
Proof.
  intros [Hl H]%bus_name_chars. assert (Hc : Forall (fun c => 0 < c < 256) n).
  { eapply List.Forall_impl; [|exact H]. intros c Hc. unfold is_bus_char, is_name_char, is_lower, is_upper, Names.is_digit in Hc.
    change DOT with 46 in Hc. change Names.COLON with 58 in Hc. change UNDERSCORE with 95 in Hc. change DASH with 45 in Hc.
    rewrite !orb_true_iff, !andb_true_iff, !Z.leb_le, !Z.eqb_eq in Hc. lia. }
  split; [|split; [|done]]; eapply List.Forall_impl; try exact Hc; cbn beta; intros; lia.
Qed.

Lemma unique_valid (k : Z) : 0 <= k -> adbusI_isValidBusName (Some (str ":1." ++ dec k)) = true.
Proof.
  intros Hk. apply bus_name_iff. pose proof (length_dec k). split; [rewrite length_app; change (length (str ":1.")) with 3%nat; lia|].
  left. exists (str "1"), [dec k]. split; [by rewrite <- (app_nil_r (dec k)) at 1|].
  split; [repeat constructor|]. split; [|by split].
  constructor; [|constructor]. eapply List.Forall_impl; [|exact (dec_digits k Hk)]. intros c Hc.
  unfold is_bus_char, is_name_char. change (Names.is_digit c) with (Text.is_digit c). rewrite Hc. by rewrite !orb_true_r.
Qed.

Lemma remote_valid (s : Server) (r : rid) (R : Remote) : wf_remotes s -> remote_heap s !! r = Some R ->
  adbusI_isValidBusName (Some (unique R)) = true.
Proof.
  intros W HR. destruct (wr_unique s W r R HR) as [->|(k & -> & Hk)]; [done|]. apply unique_valid. lia.
Qed.

Lemma bus_readable (s : Server) : bus_inv s -> readable s.
Proof.
  intros H. pose proof (bus_links s H) as W. pose proof (bi_wf s H) as [Wr _]%wf_split. split; [|intros r R; by apply remote_valid].
  intros n v En. destruct (wl_names s W n v En) as (x & Ex & Hn). destruct (wl_owner s W v x Ex) as (o & R & Hq & HR & _). split.
  - apply (bi_valid s H). destruct (owner s n) eqn:Eo; [by eexists|]. apply owner_none in Eo; [congruence|done].
  - by exists x, o, [], R.
Qed.

(** Who calls: a remote that said hello. *)
Record caller (c : Call) (r : rid) (R : Remote) : Prop := {
  ca_inv : bus_inv (c_serv c);
  ca_remote : remote_heap (c_serv c) !! r = Some R;
  ca_hello : haveHello R = true;
  ca_sender : msg_sender (c_msg c) = Some (unique R);
  ca_fresh : fresh c }.

Lemma caller_owner (c : Call) (r : rid) (R : Remote) : caller c r R -> owner (c_serv c) (unique R) = Some r.
Proof. intros [H HR Hh _ _]. by apply (bi_unique _ H). Qed.

(** The message is from the remote [r], which owns its unique name. *)
Record sender_is (c : Call) (r : rid) (R : Remote) : Prop := {
  si_readable : readable (c_serv c);
  si_remote : remote_heap (c_serv c) !! r = Some R;
  si_sender : msg_sender (c_msg c) = Some (unique R);
  si_owner : owner (c_serv c) (unique R) = Some r }.

Lemma the_sender_ok (c : Call) (r : rid) (R : Remote) : sender_is c r R -> the_sender c = Ret (inl (Some r)) c.
Proof.
  intros [H _ Hs Ho]. unfold the_sender. rewrite (bind_Ret get _ _ _ _ eq_refl), Hs.
  rewrite (seq_inl (text (Some (unique R))) _ (unique R) c c eq_refl), owner_lookup by done. by rewrite Ho.
Qed.

Lemma caller_sender (c : Call) (r : rid) (R : Remote) : caller c r R -> sender_is c r R.
Proof. intros H. split; [apply bus_readable, (ca_inv c r R H)|apply (ca_remote c r R H)|apply (ca_sender c r R H)|by apply caller_owner]. Qed.

Lemma TODO_text : bytes (str "TODO") /\ no_nul (str "TODO") /\ len (str "TODO") < 2 ^ 32.
Proof. split; [by apply bytes_forallb|]. split; [|done]. repeat constructor; done. Qed.

Lemma error_todo (name : list Z) (c : Call) :
  wpC (adbus_errorf name (str "TODO")) (fun z c' => z = 0 /\ frame c c' /\ fails name c c') nojump c.
Proof. destruct TODO_text as (H1 & H2 & H3). by apply errorf_ok. Qed.

Lemma reply_u32_ok (v : Z) (c : Call) : fresh c -> 0 <= v < 2 ^ 32 ->
  wpC (reply_u32 v) (fun z c' => z = 0 /\ frame c c' /\ answers [VNum UINT32 v] c c') nojump c.
Proof. intros Hf Hv. apply (reply_ok (VNum UINT32 v)); try done. by apply writes_buf. Qed.

Lemma reply_bool_ok (v : Z) (c : Call) : fresh c -> v = 0 \/ v = 1 ->
  wpC (reply_bool v) (fun z c' => z = 0 /\ frame c c' /\ answers [VNum BOOLEAN v] c c') nojump c.
Proof.
  intros Hf Hv. apply (reply_ok (VNum BOOLEAN v)); try done; [..|by apply writes_buf];
    destruct Hv as [->| ->]; try done; intros _; auto.
Qed.

Lemma reply_string_ok (s : list Z) (size : Z) (c : Call) : fresh c -> bytes s -> no_nul s -> len s < 2 ^ 32 ->
  size = len s \/ size = -1 ->
  wpC (reply_string s size) (fun z c' => z = 0 /\ frame c c' /\ answers [VStr STRING s] c c') nojump c.
Proof.
  intros Hf Hb Hn Hl Hs. apply (reply_ok (VStr STRING s)); try done.
  apply writes_buf. intros b. apply string_size. destruct Hs as [->| ->]; [by left|by right].
Qed.
End Checked.

Section Bodies.
Context {B : Build}.

Lemma bad_name_false (n : list Z) : bad_name n = false -> deref n <> COLON /\ adbusI_isValidBusName (Some n) = true.
Proof. unfold bad_name. intros [H1%Z.eqb_neq H2%negb_false_iff]%orb_false_iff. done. Qed.

Lemma has_owner_checked_ok (c : Call) (n : list Z) : readable (c_serv c) -> fresh c ->
  wpC (has_owner_checked n) (fun z c' => z = 0 /\ frame c c' /\
    answers [VNum BOOLEAN (match owner (c_serv c) n with Some _ => 1 | None => 0 end)] c c') nojump c.
Proof.
  intros Hi Hf. unfold has_owner_checked. eapply wpC_step; [by apply owner_lookup|].
  apply reply_bool_ok; [done|]. destruct (owner _ n); auto.
Qed.

Lemma get_owner_checked_ok (c : Call) (n : list Z) : readable (c_serv c) -> fresh c ->
  wpC (get_owner_checked n) (fun z c' => z = 0 /\ frame c c' /\
    match owner (c_serv c) n with
    | None => fails (str "org.freedesktop.DBus.Error.NameHasNoOwner") c c'
    | Some r => exists R, remote_heap (c_serv c) !! r = Some R /\ answers [VStr STRING (unique R)] c c'
    end) nojump c.
Proof.
  intros Hi Hf. unfold get_owner_checked. eapply wpC_step; [by apply owner_lookup|].
  destruct (owner (c_serv c) n) as [r|] eqn:Eo; [|by apply error_todo].
  destruct (owner_alive _ n r Hi Eo) as (R & HR).
  eapply wpC_step; [apply serv_ok, get_remote_ok; exact HR|]. rewrite with_serv_id.
  destruct (valid_plain (unique R) (rd_unique _ Hi r R HR)) as (H1 & H2 & H3).
  eapply wpC_weaken; [apply reply_string_ok; [done|done|done|lia|by left]| |done].
  intros z c' (-> & Hfr & Ha). split; [done|]. split; [done|]. by exists R.
Qed.

(** Changing the rules of a remote keeps the invariant. *)
Lemma bus_inv_matches (s : Server) (r : rid) (R : Remote) (l : list Match) : bus_inv s ->
  remote_heap s !! r = Some R ->
  bus_inv (with_remotes (remotes s) (<[r := set_matches l R]> (remote_heap s)) s).
Proof.
  intros [W Hv Hu] HR. split; [|exact Hv|].
  - apply wf_split in W as [Wr Wl]. apply wf_split. split.
    + by apply (wf_remotes_update s _ r R (set_matches l R)).
    + by apply (links_update s _ r R (set_matches l R)).
  - intros q Q HQ Hh. cbn [with_remotes remote_heap] in HQ. apply lookup_insert_Some in HQ as [[<- <-]|[_ HQ]].
    + exact (Hu r R HR Hh).
    + exact (Hu q Q HQ Hh).
Qed.

(** The server after the rules of [r] changed. *)
Definition rules_become (s s' : Server) (r : rid) (R : Remote) (l : list Match) : Prop :=
  s' = with_remotes (remotes s) (<[r := set_matches l R]> (remote_heap s)) s.

Lemma add_match_checked_ok (c : Call) (r : rid) (R : Remote) (d : list Z) : sender_is c r R ->
  wpC (add_match_checked d) (fun z c' => z = 0 /\ c_msg c' = c_msg c /\
    match adbusI_serv_newmatch d with
    | None => c_serv c' = c_serv c /\ fails (str "TODO") c c'
    | Some m => rules_become (c_serv c) (c_serv c') r R (m :: matches R) /\ c_ret c' = c_ret c
    end) nojump c.
Proof.
  intros Hc. unfold add_match_checked. destruct (adbusI_serv_newmatch d) as [m|].
  - eapply wpC_step; [by eapply the_sender_ok|]. eapply wpC_step; [reflexivity|].
    eapply wpC_step.
    { apply serv_ok. unfold add_match. by rewrite (bind_Ret _ _ _ _ _ (get_remote_ok _ _ _ (si_remote c r R Hc))). }
    by apply wpC_done.
  - eapply wpC_weaken; [apply error_todo| |done]. by intros z c' (-> & [E1 E2] & Hr).
Qed.

Lemma remove_match_checked_ok (c : Call) (r : rid) (R : Remote) (d : list Z) : sender_is c r R ->
  wpC (remove_match_checked d) (fun z c' => z = 0 /\ c_msg c' = c_msg c /\
    match remove_match d (matches R) with
    | None => c_serv c' = c_serv c /\ fails (str "TODO") c c'
    | Some l => rules_become (c_serv c) (c_serv c') r R l /\ c_ret c' = c_ret c
    end) nojump c.
Proof.
  intros Hc. unfold remove_match_checked.
  eapply wpC_step; [by eapply the_sender_ok|]. eapply wpC_step; [reflexivity|].
  eapply wpC_step; [apply serv_ok, get_remote_ok, (si_remote c r R Hc)|]. rewrite with_serv_id.
  destruct (remove_match d (matches R)) as [l|].
  - eapply wpC_step; [by apply serv_ok|]. by apply wpC_done.
  - eapply wpC_seq_nojump; [apply error_todo|]. intros z c' (_ & [E1 E2] & Hr). by apply wpC_done.
Qed.
End Bodies.

(** ** Hello and ListNames *)
Section HelloList.
Context {B : Build}.

(** Who says hello: the remote whose message is dispatched. *)
Record greeter (c : Call) (r : rid) (R : Remote) : Prop := {
  gr_inv : bus_inv (c_serv c);
  gr_remote : remote_heap (c_serv c) !! r = Some R;
  gr_hello : haveHello R = false;
  gr_current : helloRemote (c_serv c) = Some r;
  gr_sender : msg_sender (c_msg c) = Some (unique R);
  gr_fresh : fresh c }.

Lemma greeted_owner (s : Server) (r : rid) (R : Remote) (n : list Z) : wf_server s ->
  remote_heap s !! r = Some R -> owner (greeted s r R) n = if decide (n = unique R) then Some r else owner s n.
Proof.
  intros W HR. pose proof W as [_ Wl]%wf_split. unfold greeted. rewrite acquired_owner; [done|].
  by apply (links_update s _ r R (set_hello true R)).
Qed.

Lemma greeted_inv (s : Server) (r : rid) (R : Remote) : bus_inv s -> remote_heap s !! r = Some R ->
  haveHello R = false -> bus_inv (greeted s r R).
Proof.
  intros [W Hv Hu] HR Hh. destruct (hello_ok s r R W HR Hh) as [_ W']. split; [done| |].
  - intros n. rewrite greeted_owner by done. destruct (decide (n = unique R)) as [->|]; [|apply Hv].
    intros _. apply wf_split in W as [Wr _]. exact (remote_valid s r R Wr HR).
  - intros q Q HQ HhQ. rewrite greeted_owner by done.
    unfold greeted, acquired in HQ. cbn [remote_heap with_remotes] in HQ. rewrite insert_insert_eq in HQ.
    apply lookup_insert_Some in HQ as [[<- <-]|[Hne HQ]]; [by rewrite decide_True|].
    rewrite decide_False; [by apply Hu|]. intros E. by destruct Hne, (w_distinct s W q r Q R HQ HR E).
Qed.

Lemma hello_checked_ok (c : Call) (r : rid) (R : Remote) : greeter c r R ->
  wpC hello_checked (fun z c' => z = 0 /\ c_msg c' = c_msg c /\ c_serv c' = greeted (c_serv c) r R /\
    answers [VStr STRING (unique R)] c c') nojump c.
Proof.
  intros [Hi HR Hh Hcur Hs Hf]. unfold hello_checked. apply wpC_get. rewrite Hcur.
  eapply wpC_step; [apply serv_ok, get_remote_ok; exact HR|]. rewrite with_serv_id, Hh.
  eapply wpC_step; [by apply serv_ok|]. rewrite Hs.
  eapply wpC_step; [reflexivity|].
  pose proof (bi_wf _ Hi) as W. pose proof W as [Wr Wl]%wf_split.
  set (s1 := with_remotes (remotes (c_serv c)) (<[r := set_hello true R]> (remote_heap (c_serv c))) (c_serv c)).
  assert (W1 : wf_links s1) by (by apply (links_update (c_serv c) s1 r R (set_hello true R))).
  eapply wpC_step.
  { apply serv_ok. apply (request_free s1 r (set_hello true R) (unique R) 0); [apply lookup_insert_eq|done|].
    exact (unique_free (c_serv c) r R W HR Hh). }
  destruct (valid_plain (unique R) (remote_valid _ r R Wr HR)) as (H1 & H2 & H3).
  eapply wpC_weaken; [apply reply_string_ok; [exact Hf|done|done|lia|by right]| |done].
  intros z c' (-> & [E1 E2] & Ha). done.
Qed.

(** A second Hello, or one that is not dispatched for a remote. *)
Lemma hello_again_ok (c : Call) : helloRemote (c_serv c) = None ->
  wpC hello_checked (fun z c' => z = 0 /\ frame c c' /\
    fails (str "nz.co.foobar.adbus.AlreadyHaveHello") c c') nojump c.
Proof. intros H. unfold hello_checked. apply wpC_get. rewrite H. by apply error_ok. Qed.

Context (dh_order : gmap (list Z) sid -> list (list Z * sid)).
Context (dh_order_ok : forall g, dh_order g ≡ₚ map_to_list g).

(** The names on the bus, as the reply lists them. *)
Definition listed (s : Server) : list value := map (fun p => VStr STRING (fst p)) (dh_order (names s)).

Lemma list_names_run (a : BufArray) (c : Call) (l : list (list Z * sid)) :
  Forall (fun p => exists x, service_heap (c_serv c) !! snd p = Some x /\ s_name x = fst p /\ no_nul (fst p)) l ->
  forall b b' f,
  seq_run (fun v => bind (adbus_buf_arrayentry a) (fun _ => write v)) (map (fun p => VStr STRING (fst p)) l) b = Ret tt b' ->
  list_names a l (with_ret (Some (set_argbuf b f)) c) = Ret (inl tt) (with_ret (Some (set_argbuf b' f)) c).
Proof.
  induction 1 as [|[n v] l (x & Hx & Hn & Hnul) _ IH]; intros b b' f E.
  - cbn in E. injection E as <-. done.
  - cbn [map seq_run fst snd] in *. apply bind_inv in E as ([] & b2 & E & E2).
    apply bind_inv in E as ([] & b1 & E0 & E1). cbn [list_names].
    rewrite (seq_inl (serv (get_service v)) _ x _ (with_ret (Some (set_argbuf b f)) c)).
    2:{ rewrite (serv_ok _ x (c_serv c)); [by destruct c|]. by apply get_service_ok. }
    rewrite (seq_inl _ _ _ _ _ (on_args_ok _ _ _ _ _ _ E0)).
    erewrite seq_inl; [|apply on_args_ok; rewrite string_size by (right; by rewrite Hn); rewrite Hn; exact E1].
    by apply IH.
Qed.

Lemma list_array_writes (c : Call) : readable (c_serv c) ->
  writes (list_array dh_order) (VArray (TBasic STRING) (listed (c_serv c))) c.
Proof.
  intros Hi b b' f E. cbn [write] in E. apply bind_inv in E as (a & b1 & E1 & E).
  apply bind_inv in E as ([] & b2 & E2 & E3). unfold list_array.
  rewrite (seq_inl _ _ _ _ _ (on_args_ok _ _ _ _ _ _ E1)). rewrite (bind_Ret get _ _ _ _ eq_refl).
  rewrite (seq_inl _ _ tt _ (with_ret (Some (set_argbuf b2 f)) c)); [by apply on_args_ok|].
  apply list_names_run; [|exact E2].
  apply Forall_forall. intros [n v] Hin. cbn [fst snd c_serv with_ret] in *.
  rewrite dh_order_ok in Hin. apply elem_of_map_to_list in Hin.
  destruct (rd_names _ Hi n v Hin) as (Hv & x & o & q & R & Hx & Hn & _). exists x. split; [done|]. split; [done|]. by apply (valid_plain n).
Qed.

(** The array fits a message when there are not too many names. *)
Definition few_names (s : Server) : Prop := Z.of_nat (base.size (names s)) <= 200000.

Lemma listed_size (l : list (list Z)) : Forall (fun n => bytes n /\ no_nul n /\ len n <= 255) l -> forall p,
  len (encs p (map (VStr STRING) l)) <= 263 * Z.of_nat (length l) /\ wfs p (map (VStr STRING) l).
Proof.
  induction 1 as [|n l (Hb & Hn & Hl) _ IH]; intros p; [done|].
  cbn [map wfs]. change (encs p (VStr STRING n :: map (VStr STRING) l)) with
    (enc p (VStr STRING n) ++ encs (p + len (enc p (VStr STRING n))) (map (VStr STRING) l)).
  destruct (IH (p + len (enc p (VStr STRING n)))) as [H1 H2]. split.
  - rewrite len_app. change (enc p (VStr STRING n)) with (enc_string p n) in *. rewrite len_enc_string.
    pose proof (pad_bounds p 4 boundary_4). rewrite len_enc_string in H1. cbn [length]. lia.
  - split; [|done]. split; [done|]. split; [done|]. split; [done|lia].
Qed.

Lemma list_checked_ok (c : Call) : readable (c_serv c) -> fresh c -> few_names (c_serv c) ->
  wpC (list_checked dh_order) (fun z c' => z = 0 /\ frame c c' /\
    answers [VArray (TBasic STRING) (listed (c_serv c))] c c') nojump c.
Proof.
  intros Hi Hf Hsz. apply (reply_ok (VArray (TBasic STRING) (listed (c_serv c)))); [done| | |done|by apply list_array_writes].
  - apply wf_array. set (q := array_data 0 (TBasic STRING)).
    assert (E : listed (c_serv c) = map (VStr STRING) (map fst (dh_order (names (c_serv c))))) by (by rewrite map_map).
    destruct (listed_size (map fst (dh_order (names (c_serv c))))) with (p := q) as [H1 H2].
    { apply Forall_forall. intros n ([n' v] & -> & Hin)%list_elem_of_fmap. cbn [fst].
      rewrite dh_order_ok in Hin. apply elem_of_map_to_list in Hin. by apply valid_plain, (rd_names _ Hi n' v Hin). }
    rewrite E. split; [|split; [done|]].
    + assert (Hl : Z.of_nat (length (map fst (dh_order (names (c_serv c))))) = Z.of_nat (base.size (names (c_serv c)))).
      { rewrite length_map, dh_order_ok. by rewrite length_map_to_list. }
      unfold few_names in Hsz. unfold ADBUS_MAXIMUM_ARRAY_LENGTH. lia.
    + apply Forall_forall. intros v (n & -> & _)%list_elem_of_fmap. done.
  - unfold listed. cbn [canon]. induction (dh_order (names (c_serv c))) as [|p l IH]; [done|]. by split.
Qed.
End HelloList.

(** ** Whole calls *)
Section Calls.
Context {B : Build}.

(** The call as the callback sees it. *)
Definition start (c : Call) : Call := with_iter (adbus_iter_args (c_msg c)) c.

Lemma start_armed (c : Call) : msg_ok (c_msg c) -> armed (start c).
Proof.
  intros H. pose proof (mo_args _ H). unfold armed, start, adbus_iter_args. cbn [c_iter with_iter].
  destruct (signature (c_msg c)); [|done]. unfold good. cbn [data Iterator.size]. unfold len in *. split; [lia|]. split; [lia|].
  intros _. cbn [c_msg with_iter]. lia.
Qed.

Lemma call_dispatch_ok (m : C Z) (P : Call -> Prop) (c : Call) :
  wpC m (fun z c' => z = 0 /\ P c') (refused (start c)) (start c) ->
  exists z c', adbus_dispatch m c = Ret z c' /\
    (z = 0 /\ P c' \/ z = 0 /\ refused (start c) ERROR c' \/ z = -2 /\ refused (start c) PARSE_ERROR c').
Proof.
  unfold wpC, adbus_dispatch. intros H. rewrite (bind_Ret (modify _) _ c (start c) tt eq_refl).
  destruct (m (start c)) as [[z|[]] c'| | | |] eqn:E; try done; rewrite (bind_Ret _ _ _ _ _ E).
  - destruct H as [-> H]. exists 0, c'. auto.
  - exists 0, c'. auto.
  - exists (-2), c'. auto.
Qed.

Lemma dispatch_exact (m : C Z) (P : Call -> Prop) (c : Call) :
  wpC m (fun z c' => z = 0 /\ P c') nojump (start c) ->
  exists c', adbus_dispatch m c = Ret 0 c' /\ P c'.
Proof.
  unfold wpC, adbus_dispatch. intros H. rewrite (bind_Ret (modify _) _ c (start c) tt eq_refl).
  destruct (m (start c)) as [[z|j] c'| | | |] eqn:E; try done. rewrite (bind_Ret _ _ _ _ _ E).
  destruct H as [-> H]. by exists c'.
Qed.

(** *** Any arguments *)
Lemma refused_iter (c : Call) (i : option Iterator) (j : jump) (c' : Call) : refused (with_iter i c) j c' -> refused c j c'.
Proof. done. Qed.

Lemma read_none (k : C Z) (P : Z -> Call -> Prop) (c : Call) : msg_ok (c_msg c) ->
  wpC k P nojump c -> wpC (then* adbus_check_end in k) P (refused c) c.
Proof.
  intros Hm Hk. eapply wpC_seq; [by apply check_end_wp|]. intros _ ? ->. eapply wpC_weaken; [exact Hk|done|done].
Qed.

Lemma read_string (k : list Z -> C Z) (P : Z -> Call -> Prop) (c : Call) : msg_ok (c_msg c) -> armed c ->
  (forall n i, wpC (k n) P nojump (with_iter (Some i) c)) ->
  wpC (do* n := adbus_check_string in then* adbus_check_end in k n) P (refused c) c.
Proof.
  intros Hm Ha Hk. eapply wpC_seq; [by apply check_string_wp|]. intros n ? (i & -> & _).
  exact (read_none (k n) P (with_iter (Some i) c) Hm (Hk n i)).
Qed.

Lemma read_string_u32 (k : list Z -> Z -> C Z) (P : Z -> Call -> Prop) (c : Call) : msg_ok (c_msg c) -> armed c ->
  (forall n f i, (exists c1 c2, adbus_check_string c = Ret (inl n) c1 /\ adbus_check_u32 c1 = Ret (inl f) c2) ->
     wpC (k n f) P nojump (with_iter (Some i) c)) ->
  wpC (do* n := adbus_check_string in do* f := adbus_check_u32 in then* adbus_check_end in k n f) P (refused c) c.
Proof.
  intros Hm Ha Hk. pose proof (check_string_wp c Hm Ha) as H1. unfold wpC in H1.
  destruct (adbus_check_string c) as [[n|j] c1| | | |] eqn:E1; try done; [|unfold wpC, seq_, bind; by rewrite E1].
  eapply wpC_step; [exact E1|]. destruct H1 as (i1 & -> & Ha1).
  pose proof (check_u32_wp (with_iter (Some i1) c) Hm Ha1) as H2. unfold wpC in H2.
  destruct (adbus_check_u32 (with_iter (Some i1) c)) as [[f|j] c2| | | |] eqn:E2; try done; [|unfold wpC, seq_, bind; by rewrite E2].
  eapply wpC_step; [exact E2|]. destruct H2 as (i2 & -> & _).
  exact (read_none (k n f) P (with_iter (Some i2) c) Hm (Hk n f i2 ltac:(eauto))).
Qed.

(** *** Arguments of the right types *)
Definition called_with (vs : list value) (m : Message) : Prop :=
  signature m = match vs with [] => None | _ => Some (sigs_of (map ty_of vs)) end /\
  argdata m = encs 0 vs /\ argsize m = len (encs 0 vs) /\ wfs 0 vs.

Lemma read_none_exact (k : C Z) (c : Call) : called_with [] (c_msg c) ->
  (then* adbus_check_end in k) (start c) = k (start c).
Proof.
  intros (Hs & _). assert (E : c_iter (start c) = None) by (unfold start, adbus_iter_args; by rewrite Hs).
  rewrite (seq_inl adbus_check_end _ tt (start c) (start c)); [done|].
  unfold adbus_check_end. by rewrite (bind_Ret get _ _ _ _ eq_refl), E.
Qed.

(** Reading a string at [d] with [r] left in the signature. *)
Lemma check_string_exact (c : Call) (n rest r : list Z) (d s : Z) : wf_str STRING n ->
  at_ (argdata (c_msg c)) d (enc_string d n ++ rest) -> len (enc_string d n) <= s ->
  c_iter c = Some (mkIter d s (chr "s" :: r)) ->
  adbus_check_string c =
    Ret (inl n) (with_iter (Some (mkIter (d + len (enc_string d n)) (s - len (enc_string d n)) r)) c).
Proof.
  intros (_ & Hb & Hn & Hl) Hat Hs Ei. unfold adbus_check_string.
  rewrite (seq_inl (Sig _) _ tt c c).
  2:{ unfold Sig. rewrite (bind_Ret get _ _ _ _ eq_refl), Ei. done. }
  pose proof (string32_ok (argdata (c_msg c)) (chr "s") d s (chr "s" :: r) n rest eq_refl Hat Hn Hl Hs) as E.
  cbn [tl] in E.
  erewrite seq_inl.
  2:{ unfold Iter. rewrite Ei. unfold adbus_iter_string. rewrite E. reflexivity. }
  rewrite (bind_Ret get _ _ _ _ eq_refl). unfold done_, ret. do 2 f_equal. cbn [c_msg with_iter fst snd].
  unfold enc_string in Hat. rewrite <- !app_assoc in Hat. apply at_zeros in Hat; [|auto with adbus].
  apply at_app in Hat as [_ Hat]. rewrite length_le_bytes in Hat. apply at_app in Hat as [[_ Hat] _].
  unfold slice, len. by rewrite Nat2Z.id.
Qed.

Lemma check_u32_exact (c : Call) (v : Z) (rest r : list Z) (d s : Z) : 0 <= v < 2 ^ 32 ->
  at_ (argdata (c_msg c)) d (enc d (VNum UINT32 v) ++ rest) -> len (enc d (VNum UINT32 v)) <= s ->
  c_iter c = Some (mkIter d s (chr "u" :: r)) ->
  exists i, sig i = r /\ adbus_check_u32 c = Ret (inl v) (with_iter (Some i) c).
Proof.
  intros Hv Hat Hs Ei. cbn [enc width] in *. rewrite len_app, len_zeros_pad, len_le_bytes in Hs by auto with adbus.
  rewrite <- app_assoc in Hat. apply at_zeros in Hat; [|auto with adbus].
  eexists. split; [|unfold adbus_check_u32; rewrite (seq_inl (Sig _) _ tt c c)].
  2:{ erewrite seq_inl.
      2:{ unfold Iter. rewrite Ei. unfold adbus_iter_u32.
          erewrite bind_Ret by (by apply sig_ok).
          change adbusI_iter_get32 with (iter_get 4). erewrite iter_get_ok by (auto with adbus; cbn [tl]; lia). reflexivity. }
      rewrite (bind_Ret get _ _ _ _ eq_refl). cbn [c_msg with_iter]. 
      erewrite load_le_bytes by (first [exact Hat|lia|cbn; lia]). reflexivity. }
  2:{ unfold Sig. rewrite (bind_Ret get _ _ _ _ eq_refl), Ei. done. }
  done.
Qed.

Lemma check_end_exact (c : Call) (i : Iterator) : c_iter c = Some i -> sig i = [] -> adbus_check_end c = Ret (inl tt) c.
Proof. intros E1 E2. unfold adbus_check_end. rewrite (bind_Ret get _ _ _ _ eq_refl), E1. cbn [iter_head]. by rewrite E2. Qed.

Lemma start_iter (c : Call) (v : value) (vs : list value) : called_with (v :: vs) (c_msg c) ->
  c_iter (start c) = Some (mkIter 0 (len (encs 0 (v :: vs))) (sigs_of (map ty_of (v :: vs)))).
Proof. intros (Hs & Ha & Hl & _). unfold start, adbus_iter_args. cbn [c_iter with_iter]. by rewrite Hs, Hl. Qed.

Lemma read_string_exact (k : list Z -> C Z) (n : list Z) (c : Call) : called_with [VStr STRING n] (c_msg c) ->
  exists i, (do* n := adbus_check_string in then* adbus_check_end in k n) (start c) = k n (with_iter (Some i) c).
Proof.
  intros H. pose proof (start_iter c _ _ H) as Ei. destruct H as (Hs & Ha & Hl & Hw & _).
  rewrite encs_one in *. change (enc 0 (VStr STRING n)) with (enc_string 0 n) in *.
  change (sigs_of (map ty_of [VStr STRING n])) with [chr "s"] in Ei.
  eexists. rewrite (seq_inl _ _ _ _ _ (check_string_exact (start c) n [] [] 0 _ Hw
    ltac:(cbn [start c_msg with_iter]; rewrite Ha, app_nil_r; apply at_self) (Z.le_refl _) Ei)).
  erewrite (seq_inl adbus_check_end) by (eapply check_end_exact; reflexivity). reflexivity.
Qed.

Lemma read_string_u32_exact (k : list Z -> Z -> C Z) (n : list Z) (f : Z) (c : Call) :
  called_with [VStr STRING n; VNum UINT32 f] (c_msg c) ->
  exists i, (do* n := adbus_check_string in do* f := adbus_check_u32 in then* adbus_check_end in k n f) (start c)
    = k n f (with_iter (Some i) c).
Proof.
  intros H. pose proof (start_iter c _ _ H) as Ei. destruct H as (Hs & Ha & Hl & Hw & [_ Hf] & _).
  set (e1 := enc_string 0 n). set (e2 := enc (len e1) (VNum UINT32 f)).
  assert (Ee : encs 0 [VStr STRING n; VNum UINT32 f] = e1 ++ e2 ++ []) by reflexivity.
  rewrite Ee in *. change (sigs_of (map ty_of [VStr STRING n; VNum UINT32 f])) with [chr "s"; chr "u"] in Ei.
  rewrite app_nil_r, len_app in *. pose proof (len_nonneg e2).
  assert (Hat : at_ (argdata (c_msg (start c))) 0 (e1 ++ e2)).
  { cbn [start c_msg with_iter]. rewrite Ha. apply at_self. }
  pose proof (check_string_exact (start c) n e2 _ 0 (len e1 + len e2) Hw Hat ltac:(fold e1; lia) Ei) as E1. fold e1 in E1.
  rewrite (seq_inl _ _ _ _ _ E1). apply at_app in Hat as [_ Hat]. fold (len e1) in Hat.
  rewrite <- (app_nil_r e2) in Hat.
  destruct (check_u32_exact (with_iter (Some (mkIter (0 + len e1) (len e1 + len e2 - len e1) [chr "u"])) (start c))
    f [] [] (0 + len e1) (len e1 + len e2 - len e1) Hf Hat ltac:(change (len e2 <= len e1 + len e2 - len e1); lia) eq_refl) as (i & Hi & E2).
  rewrite (seq_inl _ _ _ _ _ E2). exists i.
  rewrite (seq_inl _ _ _ _ _ (check_end_exact (with_iter (Some i) _) i eq_refl Hi)). reflexivity.
Qed.

Lemma caller_iter (c : Call) (i : option Iterator) (r : rid) (R : Remote) : caller c r R -> caller (with_iter i c) r R.
Proof. by intros []. Qed.

Lemma greeter_iter (c : Call) (i : option Iterator) (r : rid) (R : Remote) : greeter c r R -> greeter (with_iter i c) r R.
Proof. by intros []. Qed.

(** A call with the right arguments is what comes after the checks. *)
Lemma dispatch_body (m body : C Z) (P : Call -> Prop) (c : Call) (i : option Iterator) :
  m (start c) = body (with_iter i c) -> wpC body (fun z c' => z = 0 /\ P c') nojump (with_iter i c) ->
  exists c', adbus_dispatch m c = Ret 0 c' /\ P c'.
Proof. intros E H. apply dispatch_exact. unfold wpC in *. by rewrite E. Qed.

Context (dh_order : gmap (list Z) sid -> list (list Z * sid)).

(** Hello of a new client: the reply is its unique name, the client has
    said hello, owns its unique name, and every other name keeps its owner; a
    second Hello is answered with an error and changes nothing. *)
Theorem hello_call (c : Call) (r : rid) (R : Remote) :
  (greeter c r R -> called_with [] (c_msg c) ->
    exists c', adbus_dispatch Hello c = Ret 0 c' /\ bus_inv (c_serv c') /\
      c_serv c' = greeted (c_serv c) r R /\ answers [VStr STRING (unique R)] c c' /\
      (exists R', remote_heap (c_serv c') !! r = Some R' /\ haveHello R' = true /\ unique R' = unique R) /\
      forall n, owner (c_serv c') n = if decide (n = unique R) then Some r else owner (c_serv c) n) /\
  (helloRemote (c_serv c) = None -> called_with [] (c_msg c) ->
    exists c', adbus_dispatch Hello c = Ret 0 c' /\ c_serv c' = c_serv c /\
      fails (str "nz.co.foobar.adbus.AlreadyHaveHello") c c').
Proof.
  split.
  - intros Hg Hw. pose proof (gr_inv c r R Hg) as Hi. pose proof (gr_remote c r R Hg) as HR.
    eapply (dispatch_body Hello hello_checked); [by apply read_none_exact|].
    eapply wpC_weaken; [apply (hello_checked_ok _ r R); by apply greeter_iter| |done].
    intros z c' (-> & Em & Es & Ha). cbn [c_serv with_iter] in Es. split; [done|]. rewrite Es.
    split; [by apply greeted_inv; [done|done|apply (gr_hello c r R Hg)]|]. split; [done|]. split; [done|]. split.
    + eexists. split; [apply lookup_insert_eq|done].
    + intros n. apply greeted_owner; [apply (bi_wf _ Hi)|done].
  - intros Hn Hw. eapply (dispatch_body Hello hello_checked); [by apply read_none_exact|].
    eapply wpC_weaken; [by apply hello_again_ok| |done]. by intros z c' (-> & [Es _] & Hf).
Qed.

(** The queries change nothing and tell the truth: NameHasOwner replies
    whether the name has an owner, GetNameOwner replies the unique name of the
    owner or an error when there is none, and ListNames replies exactly the
    names that have an owner, each once. *)
Theorem query_calls (c : Call) (n : list Z) : readable (c_serv c) -> fresh c ->
  (forall g, dh_order g ≡ₚ map_to_list g) -> few_names (c_serv c) ->
  (called_with [VStr STRING n] (c_msg c) ->
    exists c', adbus_dispatch NameHasOwner c = Ret 0 c' /\ c_serv c' = c_serv c /\
      answers [VNum BOOLEAN (match owner (c_serv c) n with Some _ => 1 | None => 0 end)] c c') /\
  (called_with [VStr STRING n] (c_msg c) ->
    exists c', adbus_dispatch GetNameOwner c = Ret 0 c' /\ c_serv c' = c_serv c /\
      match owner (c_serv c) n with
      | None => fails (str "org.freedesktop.DBus.Error.NameHasNoOwner") c c'
      | Some r => exists R, remote_heap (c_serv c) !! r = Some R /\ answers [VStr STRING (unique R)] c c'
      end) /\
  (called_with [] (c_msg c) ->
    exists c' ns, adbus_dispatch (ListNames dh_order) c = Ret 0 c' /\ c_serv c' = c_serv c /\
      answers [VArray (TBasic STRING) (map (VStr STRING) ns)] c c' /\
      NoDup ns /\ forall m, m ∈ ns <-> is_Some (owner (c_serv c) m)).
Proof.
  intros Hi Hf Hd Hfew. split; [|split].
  - intros Hw. destruct (read_string_exact has_owner_checked n c Hw) as [i E].
    eapply (dispatch_body NameHasOwner (has_owner_checked n)); [exact E|].
    eapply wpC_weaken; [by apply has_owner_checked_ok| |done]. by intros z c' (-> & [Es _] & H).
  - intros Hw. destruct (read_string_exact get_owner_checked n c Hw) as [i E].
    eapply (dispatch_body GetNameOwner (get_owner_checked n)); [exact E|].
    eapply wpC_weaken; [by apply get_owner_checked_ok| |done]. by intros z c' (-> & [Es _] & H).
  - intros Hw. set (ns := map fst (dh_order (names (c_serv c)))).
    destruct (dispatch_body (ListNames dh_order) (list_checked dh_order)
      (fun c' => c_serv c' = c_serv c /\ answers [VArray (TBasic STRING) (map (VStr STRING) ns)] c c') c
      (adbus_iter_args (c_msg c))) as (c' & E & Es & Ha).
    { by apply read_none_exact. }
    { eapply wpC_weaken; [by apply list_checked_ok| |done]. intros z c' (-> & [Es _] & H).
      split; [done|]. split; [done|]. unfold ns. rewrite map_map. exact H. }
    exists c', ns. split; [done|]. split; [done|]. split; [done|].
    assert (Hp : ns ≡ₚ map fst (map_to_list (names (c_serv c)))) by (unfold ns; by rewrite Hd).
    split; [rewrite Hp; apply NoDup_fst_map_to_list|]. intros m. rewrite Hp. split.
    + intros ([m' v] & -> & Hin)%list_elem_of_fmap. apply elem_of_map_to_list in Hin. cbn [fst]. apply (owned_name _ _ Hi). by exists v.
    + intros [v En]%(owned_name _ _ Hi). apply list_elem_of_fmap. exists (m, v). split; [done|]. by apply elem_of_map_to_list.
Qed.

(** *** Match rules *)

(** A rule keeps the text it was made of. *)
Lemma set_key_data (k v : list Z) (m m' : Match) : set_key k v m = Some m' -> m_data m' = m_data m.
Proof.
  unfold set_key. intros H.
  repeat match type of H with context [if ?b then _ else _] => destruct b end;
    try (destruct (type_of_name v); [|done]); try (destruct (IsArgKey k)); injection H as <-; done.
Qed.

Lemma newmatch_loop_data (fuel : nat) : forall (l : list Z) (m m' : Match),
  newmatch_loop fuel l m = Some m' -> m_data m' = m_data m.
Proof.
  induction fuel as [|fuel IH]; intros [|x l] m m' H; cbn [newmatch_loop] in H; try (by injection H as <-); [done|].
  destruct (split_at (chr "=") (x :: l)) as [[key [|q valb]]|]; try done.
  destruct (q =? chr "'"); [|done]. destruct (split_at (chr "'") valb) as [[val [|c line']]|]; try done.
  - by eapply set_key_data.
  - destruct (c =? chr ","); [|done]. destruct (set_key key val m) as [m1|] eqn:E; [|done].
    rewrite (IH _ _ _ H). by eapply set_key_data.
Qed.

Lemma newmatch_data (d : list Z) (m : Match) : adbusI_serv_newmatch d = Some m -> m_data m = d.
Proof. apply newmatch_loop_data. Qed.

(** C29: AddMatch with a rule the parser refuses is answered with an error and
    changes nothing; otherwise the rule is put in front of the rules of the
    caller, and of nobody else, and a later RemoveMatch with the same text by
    the same caller restores the server exactly. *)
Theorem match_calls (c : Call) (r : rid) (R : Remote) (d : list Z) : caller c r R -> called_with [VStr STRING d] (c_msg c) ->
  match adbusI_serv_newmatch d with
  | None => exists c', adbus_dispatch AddMatch c = Ret 0 c' /\ c_serv c' = c_serv c /\ fails (str "TODO") c c'
  | Some m => exists c1, adbus_dispatch AddMatch c = Ret 0 c1 /\ bus_inv (c_serv c1) /\
      rules_become (c_serv c) (c_serv c1) r R (m :: matches R) /\
      forall c2, caller c2 r (set_matches (m :: matches R) R) -> c_serv c2 = c_serv c1 ->
        called_with [VStr STRING d] (c_msg c2) ->
        exists c3, adbus_dispatch RemoveMatch c2 = Ret 0 c3 /\ c_serv c3 = c_serv c
  end.
Proof.
  intros Hc Hw. destruct (read_string_exact add_match_checked d c Hw) as [i E].
  assert (Hadd : wpC (add_match_checked d) (fun z c' => z = 0 /\
    match adbusI_serv_newmatch d with
    | None => c_serv c' = c_serv c /\ fails (str "TODO") c c'
    | Some m => bus_inv (c_serv c') /\ rules_become (c_serv c) (c_serv c') r R (m :: matches R)
    end) nojump (with_iter (Some i) c)).
  { eapply wpC_weaken; [apply (add_match_checked_ok _ r R d); by apply caller_sender, caller_iter| |done].
    intros z c' (-> & Em & H). split; [done|]. destruct (adbusI_serv_newmatch d); [|done].
    destruct H as [H _]. split; [|exact H]. rewrite H. by apply bus_inv_matches; [apply (ca_inv c r R Hc)|apply (ca_remote c r R Hc)]. }
  destruct (dispatch_body AddMatch (add_match_checked d) _ c (Some i) E Hadd) as (c1 & E1 & H1).
  destruct (adbusI_serv_newmatch d) as [m|] eqn:Em; [|by exists c1].
  destruct H1 as [Hi1 Hr1]. exists c1. split; [done|]. split; [done|]. split; [done|].
  intros c2 Hc2 Es2 Hw2. destruct (read_string_exact remove_match_checked d c2 Hw2) as [i2 E2].
  apply (dispatch_body RemoveMatch (remove_match_checked d) (fun c3 => c_serv c3 = c_serv c) c2 (Some i2) E2).
  eapply wpC_weaken; [apply (remove_match_checked_ok _ r (set_matches (m :: matches R) R) d); apply caller_sender, caller_iter; exact Hc2| |done].
  intros z c3 (-> & _ & H). split; [done|]. cbn [matches set_matches remove_match] in H.
  rewrite (newmatch_data d m Em), list_eqb_refl in H. destruct H as [-> _].
  cbn [c_serv with_iter]. rewrite Es2, Hr1. unfold with_remotes. cbn [remotes remote_heap busRemote helloRemote names nextRemote service_heap next_id signals].
  rewrite insert_insert_eq, insert_id; [by destruct (c_serv c)|]. rewrite (ca_remote c r R Hc). by destruct R.
Qed.
End Calls.

(** ** Samples *)

(** The two parts of the invariant that a concrete server can be tested for. *)
Definition bus_invb (s : Server) : bool :=
  forallb (fun p => adbusI_isValidBusName (Some (fst p))) (map_to_list (names s)) &&
  forallb (fun p => negb (haveHello (snd p)) || bool_decide (owner s (unique (snd p)) = Some (fst p)))
    (map_to_list (remote_heap s)).

Lemma bus_invb_inv (s : Server) : wf_server s -> bus_invb s = true -> bus_inv s.
Proof.
  intros W [H1 H2]%andb_true_iff. rewrite forallb_forall in H1, H2. split; [done| |].
  - intros n [r Ho]. destruct (names s !! n) as [v|] eqn:En.
    + apply (H1 (n, v)). apply list_elem_of_In. by apply elem_of_map_to_list.
    + apply wf_split in W as [_ Wl]. apply (owner_none s Wl) in En. congruence.
  - intros r R HR Hh. specialize (H2 (r, R)). cbn [fst snd] in H2. rewrite Hh in H2. cbn [negb orb] in H2.
    specialize (H2 ltac:(apply list_elem_of_In; by apply elem_of_map_to_list)).
    by apply bool_decide_eq_true in H2.
Qed.

Lemma sample_inv : bus_inv sample_state.
Proof. apply bus_invb_inv; [exact sample_wf|by vm_compute]. Qed.

(** A call of a bus method by the owner of the unique name [from]. *)
Definition bus_message (from member sig : list Z) (args : list Z) : Message :=
  mkMsg [] (len args) args (len args) MSG_METHOD 0 5 (match sig with [] => None | _ => Some sig end) 0 None
    (Some (str "/")) (Some BUS_NAME) (Some member) None (Some BUS_NAME) (Some from) None.

Definition sample_call (s : Server) (from member sig : list Z) (args : list Z) : Call :=
  mkCall s (bus_message from member sig args) (Some adbus_msg_new) None 1.

Lemma sample_caller (member sig args : list Z) :
  caller (sample_call sample_state (unique (client 2)) member sig args) 2 (client 2).
Proof. split; [exact sample_inv|by vm_compute..]. Qed.

Lemma sample_msg_ok (from member sig args : list Z) : bytes args -> plain_text member ->
  msg_ok (bus_message from member sig args).
Proof.
  intros Ha Hm. pose proof (len_nonneg args). split; cbn [argdata argsize msg_path msg_member msg_interface bus_message].
  - done.
  - lia.
  - eexists. split; [done|]. by apply plain_lit.
  - by exists member.
  - intros t [= <-]. by apply plain_lit.
Qed.

Definition sample_order (g : gmap (list Z) sid) : list (list Z * sid) := map_to_list g.

(** A third client is connected, and its first message is dispatched. *)
Definition greeting_state : Server :=
  match run_legal (B := debug_build) (sample_ops ++ [Connect]) started with
  | Some s => with_bus (busRemote s) (Some 7%nat) s
  | None => server_zero
  end.

Lemma greeting_wf : wf_server greeting_state.
Proof.
  assert (E : exists s, run_legal (B := debug_build) (sample_ops ++ [Connect]) started = Some s /\
    greeting_state = with_bus (busRemote s) (Some 7%nat) s).
  { unfold greeting_state. destruct (run_legal (B := debug_build) (sample_ops ++ [Connect]) started) as [s|] eqn:E.
    - exists s. split; reflexivity.
    - exfalso. vm_compute in E. discriminate. }
  destruct E as (s & E & ->).
  assert (W : wf_server s).
  { apply (reachable_wf (B := debug_build)). apply (run_legal_reachable (B := debug_build) (sample_ops ++ [Connect]) started);
      [by apply reach_start|exact E]. }
  destruct W. by constructor.
Qed.

Definition newcomer : Remote :=
  default (mkRemote [] [] BEGIN adbus_buf_new adbus_buf_new false 0 0 0 false []) (remote_heap greeting_state !! 7%nat).

Lemma hello_call_witness : exists c',
  adbus_dispatch (Hello (B := debug_build))
    (sample_call greeting_state (unique newcomer) (str "Hello") [] []) = Ret 0 c' /\
  owner (c_serv c') (str ":1.2") = Some 7%nat.
Proof.
  destruct (hello_call (B := debug_build) (sample_call greeting_state (unique newcomer) (str "Hello") [] []) 7 newcomer)
    as [H _].
  destruct H as (c' & E & _ & _ & _ & _ & Ho).
  - split; [apply bus_invb_inv; [exact greeting_wf|by vm_compute]|by vm_compute..].
  - by vm_compute.
  - exists c'. split; [exact E|]. rewrite Ho. by vm_compute.
Defined.

Lemma query_calls_witness : exists c',
  adbus_dispatch (GetNameOwner (B := debug_build))
    (sample_call sample_state (unique (client 4)) (str "GetNameOwner") (str "s") (encs 0 [VStr STRING (str "a.b")]))
    = Ret 0 c' /\
  answers [VStr STRING (str ":1.0")] (sample_call sample_state (unique (client 4)) (str "GetNameOwner") (str "s")
    (encs 0 [VStr STRING (str "a.b")])) c'.
Proof.
  destruct (query_calls (B := debug_build) sample_order (sample_call sample_state (unique (client 4)) (str "GetNameOwner")
    (str "s") (encs 0 [VStr STRING (str "a.b")])) (str "a.b")) as (_ & H & _).
  - exact (bus_readable _ sample_inv).
  - by vm_compute.
  - done.
  - by vm_compute.
  - destruct H as (c' & E & _ & Hb).
    + split; [done|]. split; [done|]. split; [done|]. split; [|done].
      split; [done|]. split; [by apply bytes_forallb|]. by split; [repeat constructor|].
    + exists c'. split; [exact E|]. assert (Eo : owner sample_state (str "a.b") = Some 2%nat) by (by vm_compute).
      cbn [c_serv sample_call] in Hb. rewrite Eo in Hb. destruct Hb as (R & HR & Ha).
      assert (unique R = str ":1.0") as <-; [|exact Ha].
      assert (HR2 : remote_heap sample_state !! 2%nat = Some (client 2)) by (by vm_compute).
      rewrite (Some_inj _ _ (eq_trans (eq_sym HR) HR2)). vm_compute. reflexivity.
Defined.

Lemma match_calls_witness : exists c1,
  adbus_dispatch (AddMatch (B := debug_build))
    (sample_call sample_state (unique (client 2)) (str "AddMatch") (str "s") (encs 0 [VStr STRING (str "member='Hi'")]))
    = Ret 0 c1 /\
  rules_become sample_state (c_serv c1) 2 (client 2) [set_member (str "Hi") (match_zero (str "member='Hi'"))].
Proof.
  pose proof (match_calls (B := debug_build) (sample_call sample_state (unique (client 2)) (str "AddMatch") (str "s")
    (encs 0 [VStr STRING (str "member='Hi'")])) 2 (client 2) (str "member='Hi'")) as H.
  assert (Em : adbusI_serv_newmatch (str "member='Hi'") = Some (set_member (str "Hi") (match_zero (str "member='Hi'"))))
    by (vm_compute; reflexivity).
  rewrite Em in H. clear Em. assert (Er : matches (client 2) = []) by (vm_compute; reflexivity). rewrite Er in H. clear Er.
  destruct H as (c1 & E & _ & Hr & _).
  - apply sample_caller.
  - split; [done|]. split; [done|]. split; [done|]. split; [|done].
    split; [done|]. split; [by apply bytes_forallb|]. by split; [repeat constructor|].
  - exists c1. split; [exact E|exact Hr].
Defined.
