(* ===== verification/Queues.v ===== *)
(** The methods of the bus when clients wait for names and replace owners:
    any method, any arguments and any flags (adbus/server-bus.c), on top of the
    queues of adbus/server.c.

    The table of names is abstract: every name has a queue of clients, the head
    owns it.  [request_queue] and [release_queue] say what becomes of a queue
    and which code is replied.  The invariant [queue_inv] holds between calls:
    everybody in a queue is alive and has said hello.  (A client that
    disconnects while it waits breaks it, see [waiting_client_stays].) *)

From Stdlib Require Import ZArith Lia.
From stdpp Require Import base option list numbers strings gmap.
From S2P Require Import Prelude Names Signature Iterator Values Buffer Text MatchRule Message Factory Server Registry Bus.
#[local] Open Scope Z_scope.
#[local] Open Scope adbus_scope.

(** ** The abstract table *)

(** The queue of a name; nobody is in it when the name is not on the bus. *)
Definition waiting (s : Server) (n : list Z) : list ServiceOwner :=
  match names s !! n with
  | Some v => match service_heap s !! v with Some x => queue x | None => [] end
  | None => []
  end.

(** A request of [me]: the code, and the queue.  A free name is taken; the
    owner only changes its flag; an owner that allows it is replaced, and leaves
    the queue; otherwise [me] waits, or renews its flag where it waits already,
    unless it does not want to. *)
Definition request_queue (me : ServiceOwner) (f : Z) (q : list ServiceOwner) : Z * list ServiceOwner :=
  match q with
  | [] => (ADBUS_SERVICE_SUCCESS, [me])
  | o :: rest =>
      if decide (o_remote o = o_remote me) then (ADBUS_SERVICE_REQUEST_ALREADY_OWNER, me :: rest)
      else if flag f ADBUS_SERVICE_REPLACE_EXISTING && allowReplacement o then (ADBUS_SERVICE_SUCCESS, me :: rest)
      else if flag f ADBUS_SERVICE_DO_NOT_QUEUE then (ADBUS_SERVICE_REQUEST_FAILED, q)
      else (ADBUS_SERVICE_REQUEST_IN_QUEUE,
            match list_find (fun p => o_remote p = o_remote me) q with Some (i, _) => <[i := me]> q | None => q ++ [me] end)
  end.

(** A release by [r]: the next one owns the name. *)
Definition release_queue (r : rid) (q : list ServiceOwner) : Z * list ServiceOwner :=
  match q with
  | [] => (ADBUS_SERVICE_RELEASE_INVALID_NAME, [])
  | o :: rest => if decide (o_remote o = r) then (ADBUS_SERVICE_SUCCESS, rest) else (ADBUS_SERVICE_RELEASE_NOT_OWNER, q)
  end.

Definition head_of (s : Server) (q : list ServiceOwner) : option Remote :=
  match q with [] => None | o :: _ => remote_heap s !! o_remote o end.

(** The signals of a request or a release: those of a new owner, if there is one. *)
Definition queue_signals (s : Server) (n : list Z) (z : Z) (q q' : list ServiceOwner) : list BusSignal :=
  if z =? ADBUS_SERVICE_SUCCESS then change_signals n (head_of s q) (head_of s q') else [].

(** The names and the services name each other. *)
Record table_ok (s : Server) : Prop := {
  tb_names : forall n v, names s !! n = Some v -> exists x, service_heap s !! v = Some x /\ s_name x = n /\ queue x <> [];
  tb_heap : forall v x, service_heap s !! v = Some x -> names s !! s_name x = Some v;
  tb_ids : forall v, is_Some (service_heap s !! v) -> (v < next_id s)%nat }.

(** The queue of [n] becomes [q], and nothing else happens but the signals [l]. *)
Record becomes (s s' : Server) (n : list Z) (q : list ServiceOwner) (l : list BusSignal) : Prop := {
  be_queue : forall n', waiting s' n' = if decide (n' = n) then q else waiting s n';
  be_signals : signals s' = signals s ++ l;
  be_remotes : same_remotes s s';
  be_number : nextRemote s' = nextRemote s;
  be_ids : (next_id s <= next_id s')%nat;
  be_table : table_ok s' }.

(** ** The bus between calls *)
Definition present (s : Server) (o : ServiceOwner) : Prop := exists R, remote_heap s !! o_remote o = Some R /\ haveHello R = true.

Record queue_inv (s : Server) : Prop := {
  qi_remotes : wf_remotes s;
  qi_table : table_ok s;
  (** a name on the bus is valid, and everybody in its queue is there *)
  qi_queue : forall n, waiting s n <> [] -> adbusI_isValidBusName (Some n) = true /\ Forall (present s) (waiting s n);
  (** who said hello owns its unique name for good *)
  qi_unique : forall r R, remote_heap s !! r = Some R -> haveHello R = true -> exists q, waiting s (unique R) = mkOwner r false :: q;
  (** and is the only one to own a unique name *)
  qi_private : forall n o q, waiting s n = o :: q -> deref n = COLON -> exists R, remote_heap s !! o_remote o = Some R /\ unique R = n }.

(** ** Remotes that differ in their services *)
Lemma same_trans (s1 s2 s3 : Server) : same_remotes s1 s2 -> same_remotes s2 s3 -> same_remotes s1 s3.
Proof.
  intros (A1 & A2 & A3 & A4) (B1 & B2 & B3 & B4). split_and!; [congruence..|]. intros q. specialize (A4 q). specialize (B4 q).
  destruct (remote_heap s1 !! q) as [Q1|], (remote_heap s2 !! q) as [Q2|], (remote_heap s3 !! q) as [Q3|]; try done. by rewrite B4, A4.
Qed.

Lemma same_live (s s' : Server) (r : rid) (R : Remote) : same_remotes s s' -> remote_heap s !! r = Some R ->
  exists l, remote_heap s' !! r = Some (set_services l R).
Proof. intros (_ & _ & _ & H) HR. specialize (H r). rewrite HR in H. destruct (remote_heap s' !! r) as [R'|]; [|done]. exists (services R'). by f_equal. Qed.

Lemma same_back (s s' : Server) (r : rid) (R' : Remote) : same_remotes s s' -> remote_heap s' !! r = Some R' ->
  exists R, remote_heap s !! r = Some R /\ R' = set_services (services R') R.
Proof. intros (_ & _ & _ & H) HR. specialize (H r). rewrite HR in H. destruct (remote_heap s !! r) as [R|]; [|done]. by exists R. Qed.

Lemma same_present (s s' : Server) (o : ServiceOwner) : same_remotes s s' -> present s o -> present s' o.
Proof. intros H (R & HR & Hh). destruct (same_live s s' _ R H HR) as [l E]. by eexists. Qed.

Lemma same_wf (s s' : Server) : same_remotes s s' -> nextRemote s' = nextRemote s -> (next_id s <= next_id s')%nat -> wf_remotes s -> wf_remotes s'.
Proof.
  intros Hs Hn Hi [W1 W2 W3 W4 W5 W6]. pose proof Hs as (E1 & E2 & _ & E4).
  assert (Hsome : forall r, is_Some (remote_heap s' !! r) <-> is_Some (remote_heap s !! r)).
  { intros r. specialize (E4 r). destruct (remote_heap s !! r), (remote_heap s' !! r); try done; split; by eexists. }
  split.
  - intros r Hr. apply Hsome, W1 in Hr. lia.
  - rewrite E1. split; [apply W2|]. intros r. rewrite Hsome. apply W2.
  - by rewrite Hn.
  - intros r R' HR'. destruct (same_back _ _ _ _ Hs HR') as (R & HR & ->). rewrite Hn. by apply (W4 r R).
  - intros r1 r2 R1' R2' H1 H2. destruct (same_back _ _ _ _ Hs H1) as (R1 & G1 & ->), (same_back _ _ _ _ Hs H2) as (R2 & G2 & ->). by apply (W5 r1 r2 R1 R2).
  - destruct W6 as (b & R & Hb & HR & Hu & Hh). destruct (same_live _ _ _ _ Hs HR) as [l E]. exists b, (set_services l R). by rewrite E2.
Qed.

Lemma signals_unique (n : list Z) (o o' p p' : option Remote) : unique <$> o = unique <$> o' -> unique <$> p = unique <$> p' ->
  change_signals n o p = change_signals n o' p'.
Proof. unfold change_signals, owner_name. destruct o, o', p, p'; cbn; intros; simplify_eq; congruence. Qed.

(** ** Changing one queue *)
Section Table.
Context (s : Server) (T : table_ok s).

Lemma known_name (n : list Z) (v : sid) (x : Service) : names s !! n = Some v -> service_heap s !! v = Some x -> s_name x = n /\ waiting s n = queue x /\ queue x <> [].
Proof. intros Hn Hx. destruct (tb_names s T n v Hn) as (y & Hy & <- & Hq). unfold waiting. rewrite Hn, Hx. by simplify_eq. Qed.

Lemma waiting_some (n : list Z) (o : ServiceOwner) (q : list ServiceOwner) : waiting s n = o :: q ->
  exists v x, names s !! n = Some v /\ service_heap s !! v = Some x /\ s_name x = n /\ queue x = o :: q.
Proof.
  unfold waiting. destruct (names s !! n) as [v|] eqn:En; [|done]. destruct (tb_names s T n v En) as (x & Hx & Hn & _). rewrite Hx. intros Hq. by exists v, x.
Qed.

Lemma waiting_none (n : list Z) : waiting s n = [] <-> names s !! n = None.
Proof.
  unfold waiting. destruct (names s !! n) as [v|] eqn:En; [|done]. destruct (tb_names s T n v En) as (x & Hx & _ & Hq). rewrite Hx. by split.
Qed.

Lemma service_inj (n n' : list Z) (v : sid) : names s !! n = Some v -> names s !! n' = Some v -> n = n'.
Proof. intros H1 H2. destruct (tb_names s T n v H1) as (x & Hx & <- & _), (tb_names s T n' v H2) as (y & Hy & <- & _). congruence. Qed.

(** The queue of a name that is on the bus. *)
Lemma change_queue (s' : Server) (n : list Z) (v : sid) (x : Service) (q : list ServiceOwner) (l : list BusSignal) :
  names s !! n = Some v -> service_heap s !! v = Some x -> q <> [] -> names s' = names s -> service_heap s' = <[v := mkService q n]> (service_heap s) ->
  signals s' = signals s ++ l -> same_remotes s s' -> nextRemote s' = nextRemote s -> next_id s' = next_id s -> becomes s s' n q l.
Proof.
  intros Hn Hx Hq En Eh Es Hs Er Ei. destruct (known_name n v x Hn Hx) as (Hname & _ & _). split; [|done|done|done|by rewrite Ei|split].
  - intros n'. unfold waiting. rewrite En, Eh. destruct (decide (n' = n)) as [->|Hne]; [by rewrite Hn, lookup_insert_eq|].
    destruct (names s !! n') as [v'|] eqn:En'; [|done]. rewrite lookup_insert_ne; [done|]. intros <-. by apply Hne, (service_inj n' n v).
  - intros n' v' Hn'. rewrite En in Hn'. destruct (tb_names s T n' v' Hn') as (y & Hy & Hyn & Hyq). rewrite Eh. destruct (decide (v' = v)) as [->|Hne].
    + rewrite lookup_insert_eq. eexists. split_and!; [done|cbn|done]. apply (service_inj n n' v Hn Hn').
    + rewrite lookup_insert_ne by done. by exists y.
  - intros v' y. rewrite Eh, lookup_insert_Some, En. intros [[<- <-]|[_ Hy]]; [done|by apply (tb_heap s T)].
  - intros v' [y Hy]. rewrite Eh in Hy. rewrite Ei. apply lookup_insert_Some in Hy as [[<- _]|[_ Hy]]; apply (tb_ids s T); by eexists.
Qed.

(** A name that comes to the bus. *)
Lemma new_queue (s' : Server) (n : list Z) (q : list ServiceOwner) (l : list BusSignal) :
  names s !! n = None -> q <> [] -> names s' = <[n := next_id s]> (names s) -> service_heap s' = <[next_id s := mkService q n]> (service_heap s) ->
  signals s' = signals s ++ l -> same_remotes s s' -> nextRemote s' = nextRemote s -> next_id s' = S (next_id s) -> becomes s s' n q l.
Proof.
  intros Hn Hq En Eh Es Hs Er Ei. assert (Hfresh : forall n' v, names s !! n' = Some v -> v <> next_id s).
  { intros n' v Hv ->. destruct (tb_names s T n' _ Hv) as (x & Hx & _). pose proof (tb_ids s T (next_id s) ltac:(by eexists)). lia. }
  split; [|done|done|done|lia|split].
  - intros n'. unfold waiting. rewrite En, Eh. destruct (decide (n' = n)) as [->|Hne]; [by rewrite !lookup_insert_eq|].
    rewrite lookup_insert_ne by done. destruct (names s !! n') as [v'|] eqn:En'; [|done]. by rewrite lookup_insert_ne by (apply not_eq_sym; eauto).
  - intros n' v'. rewrite En, Eh, lookup_insert_Some. intros [[<- <-]|[Hne Hn']]; [rewrite lookup_insert_eq; by eexists|].
    rewrite lookup_insert_ne by (apply not_eq_sym; eauto). by apply (tb_names s T).
  - intros v' y. rewrite Eh, lookup_insert_Some, En. intros [[<- <-]|[_ Hy]]; [apply lookup_insert_eq|].
    pose proof (tb_heap s T v' y Hy) as H. rewrite lookup_insert_ne; [done|]. intros E. congruence.
  - intros v' [y Hy]. rewrite Eh in Hy. rewrite Ei. apply lookup_insert_Some in Hy as [[<- _]|[_ Hy]]; [lia|]. pose proof (tb_ids s T v' ltac:(by eexists)). lia.
Qed.

(** A name that leaves the bus. *)
Lemma drop_queue (s' : Server) (n : list Z) (v : sid) (l : list BusSignal) :
  names s !! n = Some v -> names s' = delete n (names s) -> service_heap s' = delete v (service_heap s) ->
  signals s' = signals s ++ l -> same_remotes s s' -> nextRemote s' = nextRemote s -> next_id s' = next_id s -> becomes s s' n [] l.
Proof.
  intros Hn En Eh Es Hs Er Ei. split; [|done|done|done|by rewrite Ei|split].
  - intros n'. unfold waiting. rewrite En, Eh. destruct (decide (n' = n)) as [->|Hne]; [by rewrite lookup_delete_eq|].
    rewrite lookup_delete_ne by done. destruct (names s !! n') as [v'|] eqn:En'; [|done]. rewrite lookup_delete_ne; [done|]. intros <-. by apply Hne, (service_inj n' n v).
  - intros n' v'. rewrite En, Eh, lookup_delete_Some. intros [Hne Hn']. rewrite lookup_delete_ne; [by apply (tb_names s T)|]. intros <-. by apply Hne, (service_inj n n' v).
  - intros v' y. rewrite Eh, lookup_delete_Some, En. intros [Hne Hy]. pose proof (tb_heap s T v' y Hy) as H. rewrite lookup_delete_ne; [done|]. intros E. congruence.
  - intros v' [y Hy]. rewrite Eh in Hy. rewrite Ei. apply lookup_delete_Some in Hy as [_ Hy]. apply (tb_ids s T). by eexists.
Qed.

(** Nothing but the services of remotes. *)
Lemma same_queue (s' : Server) (n : list Z) : names s' = names s -> service_heap s' = service_heap s ->
  signals s' = signals s -> same_remotes s s' -> nextRemote s' = nextRemote s -> next_id s' = next_id s -> becomes s s' n (waiting s n) [].
Proof.
  intros En Eh Es Hs Er Ei. split; [|by rewrite app_nil_r|done|done|by rewrite Ei|].
  - intros n'. unfold waiting. rewrite En, Eh. by destruct (decide (n' = n)) as [->|].
  - destruct T as [T1 T2 T3]. split; rewrite ?En, ?Eh, ?Ei; done.
Qed.
End Table.

(** ** Requests and releases *)
Section Ops.
Context {B : Build}.

(** The state with a service taken off the list of a remote. *)
Definition without (s : Server) (r : rid) (R : Remote) (v : sid) : Server :=
  with_remotes (remotes s) (<[r := set_services (remove_first v (services R)) R]> (remote_heap s)) s.

Lemma without_run (s : Server) (r : rid) (R : Remote) (v : sid) : remote_heap s !! r = Some R ->
  adbusI_serv_removeServiceFromRemote r v s = Ret tt (without s r R v) /\ same_remotes s (without s r R v).
Proof.
  intros HR. split; [unfold adbusI_serv_removeServiceFromRemote; by rewrite (bind_Ret _ _ _ _ _ (get_remote_ok _ _ _ HR))|by eapply same_remotes_one].
Qed.

Lemma pushed_run (s : Server) (r : rid) (R : Remote) (v : sid) : remote_heap s !! r = Some R ->
  exists s', push_service r v s = Ret tt s' /\ same_remotes s s' /\ s' = with_remotes (remotes s) (remote_heap s') s.
Proof.
  intros HR. unfold push_service. rewrite (bind_Ret _ _ _ _ _ (get_remote_ok _ _ _ HR)). eexists. split; [reflexivity|]. split; [|done]. by eapply same_remotes_one.
Qed.

(** Who does not own the name gets nothing but a shorter list of services. *)
Lemma release_not_owner (s : Server) (r : rid) (R : Remote) (n : list Z) (v : sid) (x : Service) (o : ServiceOwner) (q : list ServiceOwner) :
  remote_heap s !! r = Some R -> names s !! n = Some v -> service_heap s !! v = Some x -> queue x = o :: q -> o_remote o <> r ->
  adbusI_serv_releasename r n s = Ret ADBUS_SERVICE_RELEASE_NOT_OWNER (without s r R v).
Proof.
  intros HR Hn Hx Hq Ho. unfold adbusI_serv_releasename. rewrite (bind_Ret get _ s s s eq_refl), Hn.
  rewrite (bind_Ret _ _ _ _ _ (proj1 (without_run s r R v HR))). rewrite (bind_Ret _ _ (without s r R v) (without s r R v) x) by (by apply get_service_ok).
  rewrite Hq, (proj2 (Nat.eqb_neq _ _) Ho). by apply release_loop_none.
Qed.

(** The owner changes, and says so. *)
Lemma ownerchanged_run (s s0 : Server) (n : list Z) (o p : option rid) (Ro Rp : option Remote) : live s o Ro -> live s p Rp ->
  unique <$> Ro = unique <$> (o ≫= fun r => remote_heap s0 !! r) -> unique <$> Rp = unique <$> (p ≫= fun r => remote_heap s0 !! r) ->
  adbusI_serv_ownerchanged n o p s =
    Ret tt (add_signals (change_signals n (o ≫= fun r => remote_heap s0 !! r) (p ≫= fun r => remote_heap s0 !! r)) s).
Proof. intros H1 H2 E1 E2. rewrite (ownerchanged_ok n o p Ro Rp s H1 H2). by rewrite (signals_unique n _ _ _ _ E1 E2). Qed.

Lemma live_same (s s' : Server) (r : rid) (R : Remote) : same_remotes s s' -> remote_heap s !! r = Some R -> haveHello R = true ->
  exists R', live s' (Some r) (Some R') /\ unique R' = unique R.
Proof. intros Hs HR Hh. destruct (same_live s s' r R Hs HR) as [l E]. by exists (set_services l R). Qed.

Lemma find_owner_find (r : rid) (q : list ServiceOwner) (k : nat) : find_owner r q k = (fun p => (p.1 + k)%nat) <$> list_find (fun p => o_remote p = r) q.
Proof.
  revert k. induction q as [|o q IH]; intros k; [done|]. cbn [find_owner list_find]. destruct (Nat.eqb_spec (o_remote o) r) as [E|E].
  - by rewrite decide_True.
  - rewrite decide_False by done. rewrite IH. destruct (list_find _ q) as [[i p]|]; cbn; [f_equal; lia|done].
Qed.

Lemma request_nonempty (me : ServiceOwner) (f : Z) (q : list ServiceOwner) : snd (request_queue me f q) <> [].
Proof.
  destruct q as [|o q]; [done|]. cbn [request_queue]. case_decide; [done|]. destruct (_ && _); [done|]. destruct (flag _ _); [done|]. cbn [snd].
  destruct (list_find _ _) as [[i p]|]; [|by destruct q]. by destruct i.
Qed.

Section Request.
Context (s : Server) (T : table_ok s) (r : rid) (R : Remote) (HR : remote_heap s !! r = Some R) (Hh : haveHello R = true).
Context (n : list Z) (f : Z).
Let me := mkOwner r (flag f ADBUS_SERVICE_ALLOW_REPLACEMENT).

(** A name that is free. *)
Lemma request_new : names s !! n = None -> exists s', adbusI_serv_requestname r n f s = Ret ADBUS_SERVICE_SUCCESS s' /\ becomes s s' n [me] (change_signals n None (Some R)).
Proof.
  intros Hn. eexists. split; [by apply request_free|]. apply (new_queue s T); try done. by eapply same_remotes_one.
Qed.

Context (v : sid) (x : Service) (Hn : names s !! n = Some v) (Hx : service_heap s !! v = Some x).
Context (o : ServiceOwner) (q : list ServiceOwner) (Hq : queue x = o :: q) (Hname : s_name x = n).

Lemma request_own : o_remote o = r -> exists s', adbusI_serv_requestname r n f s = Ret ADBUS_SERVICE_REQUEST_ALREADY_OWNER s' /\ becomes s s' n (me :: q) [].
Proof.
  intros Ho. unfold adbusI_serv_requestname. rewrite (bind_Ret _ _ _ _ _ (put_name_known _ _ _ Hn)), (bind_Ret _ _ _ _ _ (get_service_ok _ _ _ Hx)), Hq.
  rewrite (proj2 (Nat.eqb_eq _ _) Ho). eexists. split; [reflexivity|]. apply (change_queue s T _ n v x); try done.
  - by rewrite <- Hname.
  - by rewrite app_nil_r.
  - by apply same_remotes_refl.
Qed.

(** The owner is replaced: its list of services, and that of the new one, are
    shorter. *)
Lemma request_replace : o_remote o <> r -> flag f ADBUS_SERVICE_REPLACE_EXISTING && allowReplacement o = true -> present s o ->
  exists s', adbusI_serv_requestname r n f s = Ret ADBUS_SERVICE_SUCCESS s' /\
    becomes s s' n (me :: q) (change_signals n (remote_heap s !! o_remote o) (Some R)).
Proof.
  intros Ho Hf (Ro & HRo & Hho). unfold adbusI_serv_requestname. rewrite (bind_Ret _ _ _ _ _ (put_name_known _ _ _ Hn)), (bind_Ret _ _ _ _ _ (get_service_ok _ _ _ Hx)), Hq.
  rewrite (proj2 (Nat.eqb_neq _ _) Ho), Hf, Hname. cbv iota. rewrite (bind_Ret _ _ _ _ _ (release_not_owner s r R n v x o q HR Hn Hx Hq Ho)).
  destruct (without_run s r R v HR) as [_ S1]. set (s1 := without s r R v) in *.
  rewrite (bind_Ret _ _ s1 s1 x) by (by apply get_service_ok). rewrite Hq. destruct (same_live s s1 _ Ro S1 HRo) as [l1 H1].
  destruct (without_run s1 _ _ v H1) as [E2 S2]. rewrite (bind_Ret _ _ _ _ _ E2). set (s2 := without s1 _ _ v) in *. pose proof (same_trans _ _ _ S1 S2) as S12.
  erewrite (bind_Ret (put_service v _) _ s2) by reflexivity. set (s3 := with_names _ _ s2).
  destruct (live_same s s2 _ Ro S12 HRo Hho) as (Ro' & Lo & Eo), (live_same s s2 r R S12 HR Hh) as (R' & Lr & Er).
  erewrite bind_Ret by (apply (ownerchanged_run s3 s n (Some (o_remote o)) (Some r) (Some Ro') (Some R') Lo Lr); cbn; [by rewrite HRo; cbn; rewrite Eo|by rewrite HR; cbn; rewrite Er]).
  cbn [mbind option_bind]. rewrite HR. eexists. split; [reflexivity|]. apply (change_queue s T _ n v x); try done. cbn. by rewrite <- Hname.
Qed.

(** Waiting, or staying away. *)
Lemma request_wait : o_remote o <> r -> flag f ADBUS_SERVICE_REPLACE_EXISTING && allowReplacement o = false ->
  flag f ADBUS_SERVICE_DO_NOT_QUEUE = false -> exists s', adbusI_serv_requestname r n f s = Ret ADBUS_SERVICE_REQUEST_IN_QUEUE s' /\
    becomes s s' n (match list_find (fun p => o_remote p = r) (o :: q) with Some (i, _) => <[i := me]> (o :: q) | None => (o :: q) ++ [me] end) [].
Proof.
  intros Ho Hf Hd. unfold adbusI_serv_requestname. rewrite (bind_Ret _ _ _ _ _ (put_name_known _ _ _ Hn)), (bind_Ret _ _ _ _ _ (get_service_ok _ _ _ Hx)), Hq.
  rewrite (proj2 (Nat.eqb_neq _ _) Ho), Hf, Hd. cbn [negb]. cbv iota. rewrite find_owner_find. destruct (list_find _ (o :: q)) as [[i p]|] eqn:Ei; cbn [fmap option_fmap option_map fst].
  - rewrite Nat.add_0_r. eexists. split; [reflexivity|]. apply (change_queue s T _ n v x); try done.
    + by destruct i.
    + by rewrite <- Hname.
    + by rewrite app_nil_r.
    + by apply same_remotes_refl.
  - destruct (pushed_run s r R v HR) as (s1 & E1 & S1 & Es1). rewrite (bind_Ret _ _ _ _ _ E1). eexists. split; [reflexivity|].
    apply (change_queue s T _ n v x); try done; try (by rewrite Es1).
    + cbn [service_heap with_names]. rewrite Es1. cbn [service_heap with_remotes]. by rewrite <- Hname.
    + cbn [signals with_names]. rewrite Es1. by rewrite app_nil_r.
Qed.

Lemma request_refused : o_remote o <> r -> flag f ADBUS_SERVICE_REPLACE_EXISTING && allowReplacement o = false ->
  flag f ADBUS_SERVICE_DO_NOT_QUEUE = true -> exists s', adbusI_serv_requestname r n f s = Ret ADBUS_SERVICE_REQUEST_FAILED s' /\ becomes s s' n (o :: q) [].
Proof.
  intros Ho Hf Hd. unfold adbusI_serv_requestname. rewrite (bind_Ret _ _ _ _ _ (put_name_known _ _ _ Hn)), (bind_Ret _ _ _ _ _ (get_service_ok _ _ _ Hx)), Hq.
  rewrite (proj2 (Nat.eqb_neq _ _) Ho), Hf, Hd, Hname. cbn [negb]. cbv iota. rewrite (bind_Ret _ _ _ _ _ (release_not_owner s r R n v x o q HR Hn Hx Hq Ho)).
  eexists. split; [reflexivity|]. destruct (known_name s T n v x Hn Hx) as (_ & Hw & _). rewrite <- Hq, <- Hw. apply same_queue; try done. apply without_run, HR.
Qed.
End Request.

(** A request does to the queue what the table says. *)
Lemma request_becomes (s : Server) (r : rid) (R : Remote) (n : list Z) (f : Z) : table_ok s -> remote_heap s !! r = Some R -> haveHello R = true ->
  Forall (present s) (waiting s n) -> let me := mkOwner r (flag f ADBUS_SERVICE_ALLOW_REPLACEMENT) in let a := request_queue me f (waiting s n) in
  exists s', adbusI_serv_requestname r n f s = Ret (fst a) s' /\ becomes s s' n (snd a) (queue_signals s n (fst a) (waiting s n) (snd a)).
Proof.
  intros T HR Hh Hp me a. destruct (waiting s n) as [|o q] eqn:Ew.
  { apply (waiting_none s T) in Ew. destruct (request_new s T r R HR Hh n f Ew) as (s' & E & Hb). exists s'. unfold a, queue_signals. cbn. by rewrite HR. }
  destruct (waiting_some s T n o q Ew) as (v & x & Hn & Hx & Hname & Hq). apply Forall_cons in Hp as [Hp _]. unfold a, request_queue. cbn [o_remote me].
  case_decide as Ho; [by apply (request_own s T r n f v x Hn Hx o q Hq Hname Ho)|].
  destruct (flag f ADBUS_SERVICE_REPLACE_EXISTING && allowReplacement o) eqn:Hf.
  { destruct (request_replace s T r R HR Hh n f v x Hn Hx o q Hq Hname Ho Hf Hp) as (s' & E & Hb). exists s'. split; [done|]. unfold queue_signals. cbn. by rewrite HR. }
  destruct (flag f ADBUS_SERVICE_DO_NOT_QUEUE) eqn:Hd; [by apply (request_refused s T r R HR n f v x Hn Hx o q Hq Hname Ho Hf Hd)|].
  by apply (request_wait s T r R HR n f v x Hn Hx o q Hq Hname Ho Hf Hd).
Qed.

(** And so does a release. *)
Lemma release_becomes (s : Server) (r : rid) (R : Remote) (n : list Z) : table_ok s -> remote_heap s !! r = Some R -> haveHello R = true ->
  Forall (present s) (waiting s n) -> let a := release_queue r (waiting s n) in
  exists s', adbusI_serv_releasename r n s = Ret (fst a) s' /\ becomes s s' n (snd a) (queue_signals s n (fst a) (waiting s n) (snd a)).
Proof.
  intros T HR Hh Hp a. destruct (waiting s n) as [|o q] eqn:Ew.
  { pose proof Ew as En. apply (waiting_none s T) in En. exists s. unfold a. cbn [release_queue fst snd]. split.
    - unfold adbusI_serv_releasename. by rewrite (bind_Ret get _ s s s eq_refl), En.
    - rewrite <- Ew at 1. apply same_queue; try done. by apply same_remotes_refl. }
  destruct (waiting_some s T n o q Ew) as (v & x & Hn & Hx & Hname & Hq). unfold a, release_queue. case_decide as Ho; cbn [fst snd].
  2:{ exists (without s r R v). split; [by apply (release_not_owner s r R n v x o q)|]. rewrite <- Ew. apply same_queue; try done. by apply without_run. }
  unfold adbusI_serv_releasename. rewrite (bind_Ret get _ s s s eq_refl), Hn. destruct (without_run s r R v HR) as [E1 S1]. rewrite (bind_Ret _ _ _ _ _ E1).
  set (s1 := without s r R v) in *. rewrite (bind_Ret _ _ s1 s1 x) by (by apply get_service_ok). rewrite Hq, (proj2 (Nat.eqb_eq _ _) Ho).
  erewrite (bind_Ret (put_service v _)) by reflexivity. set (s2 := with_names _ _ s1). destruct (live_same s s1 r R S1 HR Hh) as (R1 & L1 & U1).
  unfold queue_signals. cbn [Z.eqb ADBUS_SERVICE_SUCCESS head_of Pos.eqb]. rewrite Ho, HR, Hname. destruct q as [|o' q].
  - rewrite !bind_assoc. erewrite bind_Ret by (apply (ownerchanged_run s2 s n (Some r) None (Some R1) None L1 I); cbn; [by rewrite HR; cbn; rewrite U1|done]).
    cbn [mbind option_bind]. rewrite HR. eexists. split; [reflexivity|]. apply (drop_queue s T _ n v); try done. cbn. by rewrite delete_insert_eq.
  - apply Forall_cons in Hp as [_ [(R' & HR' & Hh') _]%Forall_cons]. destruct (live_same s s1 _ R' S1 HR' Hh') as (R2 & L2 & U2).
    erewrite bind_Ret by (apply (ownerchanged_run s2 s n (Some r) (Some (o_remote o')) (Some R1) (Some R2) L1 L2); cbn; [by rewrite HR; cbn; rewrite U1|by rewrite HR'; cbn; rewrite U2]).
    cbn [mbind option_bind head_of]. rewrite HR. eexists. split; [reflexivity|]. apply (change_queue s T _ n v x); try done. cbn. by rewrite <- Hname.
Qed.
End Ops.

(** ** The invariant is kept *)
Lemma queue_inv_becomes (s s' : Server) (n : list Z) (q : list ServiceOwner) (l : list BusSignal) : queue_inv s -> becomes s s' n q l ->
  (q <> [] -> adbusI_isValidBusName (Some n) = true) -> Forall (present s) q ->
  (forall r R, remote_heap s !! r = Some R -> haveHello R = true -> unique R = n -> exists q', q = mkOwner r false :: q') ->
  (forall o q', q = o :: q' -> deref n = COLON -> exists R, remote_heap s !! o_remote o = Some R /\ unique R = n) -> queue_inv s'.
Proof.
  intros [I1 I2 I3 I4 I5] [B1 B2 B3 B4 B5 B6] Hv Hp Hu Hpr. split.
  - by apply (same_wf s).
  - done.
  - intros m. rewrite B1. destruct (decide (m = n)) as [->|]; intros Hm; (split; [first [by apply Hv|by apply I3]|]).
    + eapply Forall_impl; [exact Hp|]. intros o. by apply same_present.
    + eapply Forall_impl; [apply I3, Hm|]. intros o. by apply same_present.
  - intros r R' HR' Hh. destruct (same_back s s' r R' B3 HR') as (R & HR & E). rewrite E in Hh |- *. cbn [unique haveHello set_services] in *.
    rewrite B1. destruct (decide (unique R = n)) as [En|]; [by apply (Hu r R)|by apply I4].
  - intros m o q' Hm Hc. rewrite B1 in Hm. assert (X : exists R, remote_heap s !! o_remote o = Some R /\ unique R = m).
    { destruct (decide (m = n)) as [->|]; [by apply (Hpr o q')|by apply (I5 m o q')]. }
    destruct X as (R & HR & <-). destruct (same_live s s' _ R B3 HR) as [k E]. by exists (set_services k R).
Qed.

Lemma request_present (s : Server) (me : ServiceOwner) (f : Z) (q : list ServiceOwner) : present s me -> Forall (present s) q -> Forall (present s) (snd (request_queue me f q)).
Proof.
  intros Hm Hq. destruct q as [|o q]; [by constructor|]. pose proof Hq as [Ho Hr]%Forall_cons. cbn [request_queue].
  case_decide; [by constructor|]. destruct (_ && _); [by constructor|]. destruct (flag _ _); [done|]. cbn [snd].
  destruct (list_find _ _) as [[i p]|]; [by apply Forall_insert|]. apply Forall_app. split; [done|by constructor].
Qed.

(** An owner that does not allow it stays. *)
Lemma request_keeps_owner (me : ServiceOwner) (f : Z) (r : rid) (q : list ServiceOwner) : o_remote me <> r ->
  exists q', snd (request_queue me f (mkOwner r false :: q)) = mkOwner r false :: q'.
Proof.
  intros Hr. cbn [request_queue]. rewrite decide_False by (cbn; congruence). cbn [allowReplacement]. rewrite andb_false_r. destruct (flag _ _); [by exists q|].
  cbn [snd list_find]. rewrite decide_False by (cbn; congruence). destruct (list_find _ q) as [[i p]|]; cbn; by eexists.
Qed.

(** Nobody has the unique name of a remote that did not say hello. *)
Lemma unique_waiting (s : Server) (r : rid) (R : Remote) : queue_inv s -> remote_heap s !! r = Some R -> haveHello R = false -> waiting s (unique R) = [].
Proof.
  intros [Wr T Hq Hu Hp] HR Hh. destruct (waiting s (unique R)) as [|o q] eqn:Ew; [done|]. exfalso.
  destruct (wr_unique s Wr r R HR) as [Eu|(k & Eu & _)].
  - destruct (wr_bus s Wr) as (b & Qb & _ & Hb & Hub & Hhb). assert (r = b) as -> by (eapply (wr_distinct s Wr); [done|done|congruence]). congruence.
  - destruct (Hp _ o q Ew ltac:(by rewrite Eu)) as (Q & HQ & EQ). assert (o_remote o = r) as Er by (by eapply (wr_distinct s Wr)).
    destruct (Hq (unique R) ltac:(by rewrite Ew)) as [_ Hf]. rewrite Ew in Hf. apply Forall_cons in Hf as [(Q' & HQ' & Hh') _]. congruence.
Qed.

(** A client, not the bus itself, has a unique name with a colon. *)
Lemma client_colon (s : Server) (r : rid) (R : Remote) : wf_remotes s -> remote_heap s !! r = Some R -> unique R <> BUS_NAME -> deref (unique R) = COLON.
Proof. intros W HR Hb. by destruct (wr_unique s W r R HR) as [|(k & -> & _)]. Qed.

Lemma queue_readable (s : Server) : queue_inv s -> readable s.
Proof.
  intros [Wr T Hq Hu Hp]. split; [|intros r R; by apply remote_valid]. intros n v Hn. destruct (tb_names s T n v Hn) as (x & Hx & Hname & Hne).
  destruct (known_name s T n v x Hn Hx) as (_ & Hw & _). destruct (Hq n) as [Hv Hf]; [by rewrite Hw|]. split; [done|].
  rewrite Hw in Hf. destruct (queue x) as [|o q] eqn:Eq; [done|]. apply Forall_cons in Hf as [(R & HR & _) _]. by exists x, o, q, R.
Qed.

Lemma owner_waiting (s : Server) (n : list Z) : owner s n = o_remote <$> head (waiting s n).
Proof. unfold owner, waiting. destruct (names s !! n) as [v|]; [|done]. destruct (service_heap s !! v) as [x|]; [|done]. by destruct (queue x). Qed.

Lemma queue_inv_matches (s : Server) (r : rid) (R : Remote) (l : list Match) : queue_inv s -> remote_heap s !! r = Some R ->
  queue_inv (with_remotes (remotes s) (<[r := set_matches l R]> (remote_heap s)) s).
Proof.
  intros [Wr [T1 T2 T3] Hq Hu Hp] HR. set (s' := with_remotes _ _ s).
  assert (Hl : forall q Q, remote_heap s !! q = Some Q -> exists Q', remote_heap s' !! q = Some Q' /\ unique Q' = unique Q /\ haveHello Q' = haveHello Q).
  { intros q Q HQ. cbn. destruct (decide (q = r)) as [->|]; [rewrite lookup_insert_eq|rewrite lookup_insert_ne by done; by exists Q].
    assert (Q = R) as -> by congruence. by eexists. }
  split.
  - by apply (wf_remotes_update s s' r R (set_matches l R)).
  - by split.
  - intros n Hn. destruct (Hq n Hn) as [Hv Hf]. split; [done|]. eapply Forall_impl; [exact Hf|]. intros o (Q & HQ & HhQ).
    destruct (Hl _ Q HQ) as (Q' & HQ' & _ & E). exists Q'. by rewrite E.
  - intros q Q HQ HhQ. cbn in HQ. apply lookup_insert_Some in HQ as [[<- <-]|[_ HQ]]; [exact (Hu r R HR HhQ)|exact (Hu q Q HQ HhQ)].
  - intros n o q Hn Hc. destruct (Hp n o q Hn Hc) as (Q & HQ & E). destruct (Hl _ Q HQ) as (Q' & HQ' & EQ & _). exists Q'. by rewrite EQ.
Qed.

(** ** Calls *)
Section Calls.
Context {B : Build}.

(** Who calls: a client that said hello; the bus itself makes no calls. *)
Record client (c : Call) (r : rid) (R : Remote) : Prop := {
  cl_inv : queue_inv (c_serv c);
  cl_remote : remote_heap (c_serv c) !! r = Some R;
  cl_hello : haveHello R = true;
  cl_bus : unique R <> BUS_NAME;
  cl_sender : msg_sender (c_msg c) = Some (unique R);
  cl_fresh : fresh c }.

Lemma client_sender (c : Call) (r : rid) (R : Remote) : client c r R -> sender_is c r R.
Proof.
  intros [Hi HR Hh _ Hs _]. split; [by apply queue_readable|done|done|]. rewrite owner_waiting. by destruct (qi_unique _ Hi r R HR Hh) as [q ->].
Qed.

Lemma client_iter (c : Call) (i : option Iterator) (r : rid) (R : Remote) : client c r R -> client (with_iter i c) r R.
Proof. by intros []. Qed.

(** *** RequestName and ReleaseName *)
Definition me_of (r : rid) (f : Z) : ServiceOwner := mkOwner r (flag f ADBUS_SERVICE_ALLOW_REPLACEMENT).

(** The queue of [n] becomes that of the abstract table, the code is replied. *)
Definition table_reply (c c' : Call) (n : list Z) (a : Z * list ServiceOwner) : Prop :=
  becomes (c_serv c) (c_serv c') n (snd a) (queue_signals (c_serv c) n (fst a) (waiting (c_serv c) n) (snd a)) /\ answers [VNum UINT32 (fst a)] c c'.

Lemma request_code (me : ServiceOwner) (f : Z) (q : list ServiceOwner) : 0 <= fst (request_queue me f q) < 2 ^ 32.
Proof. destruct q as [|o q]; [by vm_compute|]. cbn [request_queue]. case_decide; [by vm_compute|]. destruct (_ && _); [by vm_compute|]. destruct (flag _ _); by vm_compute. Qed.
Lemma release_code (r : rid) (q : list ServiceOwner) : 0 <= fst (release_queue r q) < 2 ^ 32.
Proof. destruct q as [|o q]; [by vm_compute|]. cbn [release_queue]. case_decide; by vm_compute. Qed.

Lemma valid_present (s : Server) (n : list Z) : queue_inv s -> Forall (present s) (waiting s n).
Proof. intros Hi. destruct (waiting s n) as [|o q] eqn:Ew; [done|]. rewrite <- Ew. apply (qi_queue s Hi n). by rewrite Ew. Qed.

Lemma request_checked_ok (c : Call) (r : rid) (R : Remote) (n : list Z) (f : Z) : client c r R ->
  wpC (request_checked n f) (fun z c' => z = 0 /\ c_msg c' = c_msg c /\ queue_inv (c_serv c') /\
    if bad_name n then c_serv c' = c_serv c /\ fails (str "TODO") c c' else table_reply c c' n (request_queue (me_of r f) f (waiting (c_serv c) n))) nojump c.
Proof.
  intros Hc. pose proof (cl_inv c r R Hc) as Hi. unfold request_checked. eapply wpC_step; [by eapply the_sender_ok, client_sender|]. destruct (bad_name n) eqn:En.
  - eapply wpC_weaken; [apply error_todo| |done]. intros z c' (-> & [E1 E2] & Hr). by rewrite E1.
  - destruct (bad_name_false n En) as [Hn Hv]. pose proof (cl_remote c r R Hc) as HR. pose proof (cl_hello c r R Hc) as Hh. set (s := c_serv c) in *.
    destruct (request_becomes s r R n f (qi_table s Hi) HR Hh (valid_present s n Hi)) as (s' & E & Hb). fold (me_of r f) in E, Hb.
    set (a := request_queue (me_of r f) f (waiting s n)) in *.
    eapply wpC_step; [reflexivity|]. eapply wpC_step; [by apply serv_ok|].
    eapply wpC_weaken; [apply reply_u32_ok; [exact (cl_fresh c r R Hc)|apply request_code]| |done].
    intros z c' (-> & [E1 E2] & Ha). unfold table_reply. rewrite E1. split; [done|]. split; [done|]. split; [|by split].
    apply (queue_inv_becomes s s' n (snd a) _ Hi Hb); [done|..].
    + apply request_present; [by exists R|by apply valid_present].
    + intros r1 R1 HR1 Hh1 En1. destruct (qi_unique s Hi r1 R1 HR1 Hh1) as [q Eq]. rewrite En1 in Eq. unfold a. rewrite Eq. apply request_keeps_owner. cbn.
      intros <-. rewrite HR in HR1. injection HR1 as <-. apply Hn. rewrite <- En1. apply (client_colon s r R (qi_remotes s Hi) HR (cl_bus c r R Hc)).
    + intros o q _ Hcol. by destruct Hn.
Qed.

Lemma release_checked_ok (c : Call) (r : rid) (R : Remote) (n : list Z) : client c r R ->
  wpC (release_checked n) (fun z c' => z = 0 /\ c_msg c' = c_msg c /\ queue_inv (c_serv c') /\
    if bad_name n then c_serv c' = c_serv c /\ fails (str "TODO") c c' else table_reply c c' n (release_queue r (waiting (c_serv c) n))) nojump c.
Proof.
  intros Hc. pose proof (cl_inv c r R Hc) as Hi. unfold release_checked. eapply wpC_step; [by eapply the_sender_ok, client_sender|]. destruct (bad_name n) eqn:En.
  - eapply wpC_weaken; [apply error_todo| |done]. intros z c' (-> & [E1 E2] & Hr). by rewrite E1.
  - destruct (bad_name_false n En) as [Hn Hv]. pose proof (cl_remote c r R Hc) as HR. pose proof (cl_hello c r R Hc) as Hh. set (s := c_serv c) in *.
    destruct (release_becomes s r R n (qi_table s Hi) HR Hh (valid_present s n Hi)) as (s' & E & Hb). set (a := release_queue r (waiting s n)) in *.
    eapply wpC_step; [by apply serv_ok|].
    eapply wpC_weaken; [apply reply_u32_ok; [exact (cl_fresh c r R Hc)|apply release_code]| |done].
    intros z c' (-> & [E1 E2] & Ha). unfold table_reply. rewrite E1. split; [done|]. split; [done|]. split; [|by split].
    apply (queue_inv_becomes s s' n (snd a) _ Hi Hb); [done|..].
    + pose proof (valid_present s n Hi) as Hp. unfold a. destruct (waiting s n) as [|o q]; [done|]. cbn [release_queue]. apply Forall_cons in Hp as [? ?]. case_decide; [done|by constructor].
    + intros r1 R1 HR1 Hh1 En1. destruct (qi_unique s Hi r1 R1 HR1 Hh1) as [q Eq]. rewrite En1 in Eq. unfold a. rewrite Eq. cbn [release_queue o_remote].
      rewrite decide_False; [by exists q|]. intros ->. rewrite HR in HR1. injection HR1 as <-. apply Hn. rewrite <- En1.
      apply (client_colon s r R (qi_remotes s Hi) HR (cl_bus c r R Hc)).
    + intros o q _ Hcol. by destruct Hn.
Qed.

(** *** Hello *)

(** A remote says hello: the one whose message is dispatched. *)
Record newcomer (c : Call) (r : rid) (R : Remote) : Prop := {
  nc_inv : queue_inv (c_serv c);
  nc_remote : remote_heap (c_serv c) !! r = Some R;
  nc_hello : haveHello R = false;
  nc_current : helloRemote (c_serv c) = Some r;
  nc_sender : msg_sender (c_msg c) = Some (unique R);
  nc_fresh : fresh c }.

Definition with_hello (s : Server) (r : rid) (R : Remote) : Server := with_remotes (remotes s) (<[r := set_hello true R]> (remote_heap s)) s.

Lemma hello_inv (s s' : Server) (r : rid) (R : Remote) (l : list BusSignal) : queue_inv s -> remote_heap s !! r = Some R -> haveHello R = false ->
  becomes (with_hello s r R) s' (unique R) [mkOwner r false] l -> queue_inv s'.
Proof.
  intros [Wr T Hq Hu Hp] HR Hh [B1 B2 B3 B4 B5 B6]. set (s1 := with_hello s r R) in *.
  assert (W1 : wf_remotes s1) by (by apply (wf_remotes_update s s1 r R (set_hello true R))).
  assert (HR1 : remote_heap s1 !! r = Some (set_hello true R)) by apply lookup_insert_eq.
  assert (Hpre : forall o, present s o -> present s1 o).
  { intros o (Q & HQ & HhQ). unfold present. cbn. destruct (decide (o_remote o = r)) as [->|]; [rewrite lookup_insert_eq; by eexists|].
    rewrite lookup_insert_ne by done. by exists Q. }
  split.
  - by apply (same_wf s1).
  - done.
  - intros n. rewrite B1. destruct (decide (n = unique R)) as [->|].
    + intros _. split; [by apply (remote_valid s r)|]. constructor; [|done]. apply (same_present s1); [done|]. by exists (set_hello true R).
    + intros Hn. destruct (Hq n Hn) as [Hv Hf]. split; [done|]. eapply Forall_impl; [exact Hf|]. intros o Ho. by apply (same_present s1), Hpre.
  - intros q Q' HQ' HhQ. destruct (same_back s1 s' q Q' B3 HQ') as (Q & HQ & E). rewrite E in HhQ |- *. cbn [unique haveHello set_services] in *.
    rewrite B1. cbn in HQ. apply lookup_insert_Some in HQ as [[<- <-]|[Hne HQ]]; [cbn [unique set_hello]; rewrite decide_True by done; by exists []|].
    rewrite decide_False; [by apply Hu|]. intros Eu. by destruct Hne, (wr_distinct s Wr q r Q R HQ HR Eu).
  - intros n o q. rewrite B1. destruct (decide (n = unique R)) as [->|]; intros Hn Hc.
    + injection Hn as <- _. cbn [o_remote]. destruct (same_live s1 s' r _ B3 HR1) as [k E]. by eexists.
    + destruct (Hp n o q Hn Hc) as (Q & HQ & EQ). assert (X : exists Q1, remote_heap s1 !! o_remote o = Some Q1 /\ unique Q1 = n).
      { cbn. destruct (decide (o_remote o = r)) as [Er|]; [rewrite Er, lookup_insert_eq; eexists; split; [done|]; cbn; congruence|].
        rewrite lookup_insert_ne by done. by exists Q. }
      destruct X as (Q1 & HQ1 & <-). destruct (same_live s1 s' _ Q1 B3 HQ1) as [k E]. by exists (set_services k Q1).
Qed.

Lemma hello_said_ok (c : Call) (r : rid) (R : Remote) : newcomer c r R ->
  wpC hello_checked (fun z c' => z = 0 /\ c_msg c' = c_msg c /\ queue_inv (c_serv c') /\ answers [VStr STRING (unique R)] c c') nojump c.
Proof.
  intros [Hi HR Hh Hcur Hs Hf]. unfold hello_checked. apply wpC_get. rewrite Hcur.
  eapply wpC_step; [apply serv_ok, get_remote_ok; exact HR|]. rewrite with_serv_id, Hh. eapply wpC_step; [by apply serv_ok|]. rewrite Hs.
  eapply wpC_step; [reflexivity|]. set (s1 := with_hello (c_serv c) r R).
  assert (T1 : table_ok s1) by (destruct (qi_table _ Hi); by split). assert (HR1 : remote_heap s1 !! r = Some (set_hello true R)) by apply lookup_insert_eq.
  assert (Ew : waiting s1 (unique R) = []) by exact (unique_waiting _ r R Hi HR Hh).
  destruct (request_becomes s1 r _ (unique R) 0 T1 HR1 eq_refl ltac:(by rewrite Ew)) as (s' & E & Hb). rewrite Ew in E, Hb.
  eapply wpC_step; [apply serv_ok; exact E|]. destruct (valid_plain (unique R) (remote_valid _ r R (qi_remotes _ Hi) HR)) as (H1 & H2 & H3).
  eapply wpC_weaken; [apply reply_string_ok; [exact Hf|done|done|lia|by right]| |done].
  intros z c' (-> & [E1 E2] & Ha). rewrite E1. split; [done|]. split; [done|]. split; [|done]. by apply (hello_inv (c_serv c) s' r R _ Hi HR Hh Hb).
Qed.

(** *** Every method, any arguments *)
Context (dh_order : gmap (list Z) sid -> list (list Z * sid)).

(** The reply is an error, or holds values of the declared types. *)
Definition well_typed (member : list Z) (c c' : Call) : Prop :=
  (exists vs, sigs_of (map ty_of vs) = bus_retsig member /\ answers vs c c') \/
  (bus_retsig member = [] /\ c_ret c' = c_ret c) \/ (exists name, fails name c c').

Definition kept_well (member : list Z) (c c' : Call) : Prop :=
  c_msg c' = c_msg c /\ queue_inv (c_serv c') /\ well_typed member c c'.

Definition may_call (c : Call) (r : rid) (R : Remote) (member : list Z) : Prop :=
  client c r R /\ helloRemote (c_serv c) = None \/ newcomer c r R /\ member = str "Hello".

Lemma may_call_inv (c : Call) (r : rid) (R : Remote) (member : list Z) : may_call c r R member -> queue_inv (c_serv c) /\ fresh c.
Proof. by intros [[[] _]|[[] _]]. Qed.

Lemma may_call_client (c : Call) (r : rid) (R : Remote) (member : list Z) : may_call c r R member -> member <> str "Hello" -> client c r R.
Proof. by intros [[? _]|[_ ?]]. Qed.

Lemma frame_kept (member : list Z) (c c' : Call) : queue_inv (c_serv c) -> frame c c' -> well_typed member c c' -> kept_well member c c'.
Proof. intros Hi [E1 E2] Ht. split; [done|]. by rewrite E1. Qed.

Lemma typed_one (member : list Z) (v : value) (c c' : Call) : answers [v] c c' -> sig_of (ty_of v) = bus_retsig member -> well_typed member c c'.
Proof. intros Ha E. left. exists [v]. split; [|done]. change (map ty_of [v]) with [ty_of v]. by rewrite <- E, sigs_one. Qed.

Lemma typed_error (member name : list Z) (c c' : Call) : fails name c c' -> well_typed member c c'.
Proof. intros H. right. right. by exists name. Qed.

Lemma hello_safe (c : Call) (r : rid) (R : Remote) : may_call c r R (str "Hello") ->
  wpC hello_checked (fun z c' => z = 0 /\ kept_well (str "Hello") c c') nojump c.
Proof.
  intros [(Hc & Hn)|[Hg _]].
  - eapply wpC_weaken; [by apply hello_again_ok| |done]. intros z c' (-> & Hf & Hr). split; [done|].
    apply frame_kept; [apply (cl_inv c r R Hc)|done|by eapply typed_error].
  - eapply wpC_weaken; [exact (hello_said_ok c r R Hg)| |done]. intros z c' (-> & Em & Hi & Hr). split; [done|]. split; [done|]. split; [done|]. by eapply typed_one.
Qed.

(** The methods that change the names or the rules. *)
Lemma names_safe_call (c : Call) (r : rid) (R : Remote) (n : list Z) : client c r R ->
  (forall f, wpC (request_checked n f) (fun z c' => z = 0 /\ kept_well (str "RequestName") c c') nojump c) /\
  wpC (release_checked n) (fun z c' => z = 0 /\ kept_well (str "ReleaseName") c c') nojump c.
Proof.
  intros Hc. split; [intros f|]; (eapply wpC_weaken; [first [by apply (request_checked_ok _ r R)|by apply (release_checked_ok _ r R)]| |done]);
    intros z c' (-> & Em & Hi & Hr); (split; [done|]; split; [done|]; split; [done|]); (destruct (bad_name n); [by eapply typed_error, Hr|by eapply typed_one; [apply Hr|]]).
Qed.

Lemma rules_safe_call (c : Call) (r : rid) (R : Remote) (d : list Z) : client c r R ->
  wpC (add_match_checked d) (fun z c' => z = 0 /\ kept_well (str "AddMatch") c c') nojump c /\
  wpC (remove_match_checked d) (fun z c' => z = 0 /\ kept_well (str "RemoveMatch") c c') nojump c.
Proof.
  intros Hc. pose proof (cl_inv c r R Hc) as Hi. pose proof (cl_remote c r R Hc) as HR. split.
  - eapply wpC_weaken; [by apply (add_match_checked_ok _ r R), client_sender| |done]. intros z c' (-> & Em & H). split; [done|]. split; [done|].
    destruct (adbusI_serv_newmatch d); [|destruct H as [E Hf]; rewrite E; split; [done|by eapply typed_error]].
    destruct H as [E Hr]. rewrite E. split; [by apply queue_inv_matches|]. right. left. by split.
  - eapply wpC_weaken; [by apply (remove_match_checked_ok _ r R), client_sender| |done]. intros z c' (-> & Em & H). split; [done|]. split; [done|].
    destruct (remove_match d (matches R)); [|destruct H as [E Hf]; rewrite E; split; [done|by eapply typed_error]].
    destruct H as [E Hr]. rewrite E. split; [by apply queue_inv_matches|]. right. left. by split.
Qed.

(** The methods that only look. *)
Lemma query_safe_call (c : Call) (n : list Z) : queue_inv (c_serv c) -> fresh c ->
  wpC (has_owner_checked n) (fun z c' => z = 0 /\ kept_well (str "NameHasOwner") c c') nojump c /\
  wpC (get_owner_checked n) (fun z c' => z = 0 /\ kept_well (str "GetNameOwner") c c') nojump c.
Proof.
  intros Hi Hf. pose proof (queue_readable _ Hi) as Hr. split.
  - eapply wpC_weaken; [by apply has_owner_checked_ok| |done]. intros z c' (-> & Hfr & Ha). split; [done|]. apply frame_kept; [done|done|by eapply typed_one].
  - eapply wpC_weaken; [by apply get_owner_checked_ok| |done]. intros z c' (-> & Hfr & Ha). split; [done|]. apply frame_kept; [done|done|].
    destruct (owner _ n); [destruct Ha as (R' & _ & Ha); by eapply typed_one|by eapply typed_error].
Qed.

Lemma method_safe (member : list Z) (m : C Z) (c : Call) (r : rid) (R : Remote) : (forall g, dh_order g ≡ₚ map_to_list g) ->
  bus_method dh_order member = Some m -> msg_ok (c_msg c) -> few_names (c_serv c) -> may_call c r R member ->
  wpC m (fun z c' => z = 0 /\ kept_well member c c') (refused (start c)) (start c).
Proof.
  intros Hd Hm Hok Hfew Hcall. pose proof (start_armed c Hok) as Ha. unfold bus_method in Hm. destruct (may_call_inv c r R member Hcall) as [Hi Hf].
  destruct (list_eqb member (str "Hello")) eqn:E1.
  { injection Hm as <-. apply list_eqb_eq in E1 as ->. apply read_none; [done|]. apply (hello_safe (start c) r R).
    destruct Hcall as [(H1 & H2)|[[] H2]]; [left; split; [by apply client_iter|done]|right; by split]. }
  apply list_eqb_neq in E1. pose proof (may_call_client c r R member Hcall E1) as Hc.
  destruct (list_eqb member (str "RequestName")) eqn:E2.
  { injection Hm as <-. apply list_eqb_eq in E2 as ->. apply read_string_u32; [done|done|]. intros n f i _.
    exact (proj1 (names_safe_call (with_iter (Some i) (start c)) r R n ltac:(by do 2 apply client_iter)) f). }
  destruct (list_eqb member (str "ReleaseName")) eqn:E3.
  { injection Hm as <-. apply list_eqb_eq in E3 as ->. apply read_string; [done|done|]. intros n i. exact (proj2 (names_safe_call (with_iter (Some i) (start c)) r R n ltac:(by do 2 apply client_iter))). }
  destruct (list_eqb member (str "ListNames")) eqn:E4.
  { injection Hm as <-. apply list_eqb_eq in E4 as ->. apply read_none; [done|].
    eapply wpC_weaken; [by apply list_checked_ok; [done|apply queue_readable|..]| |done]. intros z c' (-> & Hfr & Hr). split; [done|].
    apply frame_kept; [done|done|by eapply typed_one]. }
  destruct (list_eqb member (str "NameHasOwner")) eqn:E5.
  { injection Hm as <-. apply list_eqb_eq in E5 as ->. apply read_string; [done|done|]. intros n i. exact (proj1 (query_safe_call (with_iter (Some i) (start c)) n Hi Hf)). }
  destruct (list_eqb member (str "GetNameOwner")) eqn:E6.
  { injection Hm as <-. apply list_eqb_eq in E6 as ->. apply read_string; [done|done|]. intros n i. exact (proj2 (query_safe_call (with_iter (Some i) (start c)) n Hi Hf)). }
  destruct (list_eqb member (str "AddMatch")) eqn:E7.
  { injection Hm as <-. apply list_eqb_eq in E7 as ->. apply read_string; [done|done|]. intros n i. exact (proj1 (rules_safe_call (with_iter (Some i) (start c)) r R n ltac:(by do 2 apply client_iter))). }
  destruct (list_eqb member (str "RemoveMatch")) eqn:E8; [|done].
  injection Hm as <-. apply list_eqb_eq in E8 as ->. apply read_string; [done|done|]. intros n i. exact (proj2 (rules_safe_call (with_iter (Some i) (start c)) r R n ltac:(by do 2 apply client_iter))).
Qed.

(** C13: a call of any method of the bus with arguments of any types, any bytes
    and any flags returns, without touching memory outside of the message or a
    freed object and without failing an assertion: it ends with 0 or with the
    code for malformed data, keeps the invariant (names valid, everybody in a
    queue alive, every client that said hello the owner of its unique name), and
    leaves the server as it was when the data are malformed.  The caller is a
    client that said hello, or one that says it now; there are at most 200000
    names. *)
Theorem bus_calls_safe (member : list Z) (m : C Z) (c : Call) (r : rid) (R : Remote) :
  (forall g, dh_order g ≡ₚ map_to_list g) ->
  bus_method dh_order member = Some m -> msg_ok (c_msg c) -> few_names (c_serv c) -> may_call c r R member ->
  exists z c', adbus_dispatch m c = Ret z c' /\ (z = 0 \/ z = -2) /\ c_msg c' = c_msg c /\
    queue_inv (c_serv c') /\ (z = -2 -> c_serv c' = c_serv c).
Proof.
  intros Hd Hm Hok Hfew Hcall. destruct (may_call_inv c r R member Hcall) as [Hi _].
  destruct (call_dispatch_ok m (kept_well member c) c) as (z & c' & E & H); [by eapply method_safe|].
  exists z, c'. split; [done|]. destruct H as [(-> & Em & Hi' & _)|[(-> & [E1 E2] & _)|(-> & [E1 E2] & _)]].
  - split; [auto|]. done.
  - split; [auto|]. split; [done|]. split; [by rewrite E1|done].
  - split; [auto|]. split; [done|]. split; [by rewrite E1|done].
Qed.

(** C15: the reply to a call of any method of the bus is an error or holds
    values of exactly the types that the introspection data of the bus declare
    for the method, whatever the types and bytes of the arguments and the flags;
    when the data of the call are malformed there is no reply. *)
Theorem bus_replies_typed (member : list Z) (m : C Z) (c : Call) (r : rid) (R : Remote) :
  (forall g, dh_order g ≡ₚ map_to_list g) ->
  bus_method dh_order member = Some m -> msg_ok (c_msg c) -> few_names (c_serv c) -> may_call c r R member ->
  exists z c', adbus_dispatch m c = Ret z c' /\ (z = 0 /\ well_typed member c c' \/ z = -2 /\ c_ret c' = c_ret c).
Proof.
  intros Hd Hm Hok Hfew Hcall.
  destruct (call_dispatch_ok m (kept_well member c) c) as (z & c' & E & H); [by eapply method_safe|].
  exists z, c'. split; [done|]. destruct H as [(-> & _ & _ & Ht)|[(-> & _ & Hr)|(-> & _ & Hr)]]; [left; by split| |right; by split].
  left. split; [done|]. by eapply typed_error.
Qed.

End Calls.

(** ** Samples: the bus and two clients; client 2 owns "a.b" *)
Definition queue_invb (s : Server) : bool :=
  forallb (fun p => negb (haveHello (snd p)) || bool_decide (map (fun o => (o_remote o, allowReplacement o)) (waiting s (unique (snd p))) = [(fst p, false)])) (map_to_list (remote_heap s)).

(** A bus where nobody waits. *)
Lemma plain_queue_inv (s : Server) : bus_inv s -> queue_invb s = true -> queue_inv s.
Proof.
  intros Hb H. pose proof (bi_wf s Hb) as W. pose proof W as [Wr Wl]%wf_split.
  assert (Hone : forall n o q, waiting s n = o :: q -> exists v x R, names s !! n = Some v /\ service_heap s !! v = Some x /\ s_name x = n /\ queue x = [o] /\ q = [] /\
    remote_heap s !! o_remote o = Some R /\ haveHello R = true).
  { intros n o q. unfold waiting. destruct (names s !! n) as [v|] eqn:En; [|done]. destruct (wl_names s Wl n v En) as (x & Hx & Hn). rewrite Hx.
    destruct (wl_owner s Wl v x Hx) as (o' & R & Hq & HR & Hh & _). rewrite Hq. intros [= -> <-]. by exists v, x, R. }
  split; [done|split| | |].
  - intros n v Hn. destruct (wl_names s Wl n v Hn) as (x & Hx & E). destruct (wl_owner s Wl v x Hx) as (o & R & Hq & _). exists x. by rewrite Hq.
  - apply (wl_heap s Wl).
  - apply (wl_ids s Wl).
  - intros n Hn. destruct (waiting s n) as [|o q] eqn:Ew; [done|]. destruct (Hone n o q Ew) as (v & x & R & Hv & Hx & _ & Hq & -> & HR & Hh). split.
    + apply (bi_valid s Hb). unfold owner. rewrite Hv, Hx, Hq. by eexists.
    + constructor; [by exists R|done].
  - intros r R HR Hh. unfold queue_invb in H. rewrite forallb_forall in H. specialize (H (r, R) ltac:(apply list_elem_of_In; by apply elem_of_map_to_list)).
    cbn [fst snd] in H. rewrite Hh in H. apply bool_decide_eq_true in H. exists []. destruct (waiting s (unique R)) as [|[o a] [|]]; cbn in H; try done. by injection H as -> ->.
  - intros n o q Hn Hc. destruct (Hone n o q Hn) as (v & x & R & _ & Hx & Hname & Hq & _ & HR & _). exists R. split; [done|].
    rewrite (wl_private s Wl v x o R Hx Hq HR); [done|by rewrite Hname].
Qed.

Lemma sample_queue_inv : queue_inv sample_state.
Proof. apply plain_queue_inv; [exact sample_inv|by vm_compute]. Qed.

Lemma sample_client (r : rid) (member sig args : list Z) : r = 2%nat \/ r = 4%nat ->
  client (sample_call sample_state (unique (Registry.client r)) member sig args) r (Registry.client r).
Proof. intros [-> | ->]; (split; [exact sample_queue_inv|by vm_compute..]). Qed.

Lemma bus_replies_typed_witness : exists c',
  adbus_dispatch (ListNames (B := debug_build) sample_order)
    (sample_call sample_state (unique (Registry.client 2)) (str "ListNames") [] []) = Ret 0 c' /\
  well_typed (str "ListNames") (sample_call sample_state (unique (Registry.client 2)) (str "ListNames") [] []) c'.
Proof.
  destruct (bus_replies_typed (B := debug_build) sample_order (str "ListNames") (ListNames (B := debug_build) sample_order)
    (sample_call sample_state (unique (Registry.client 2)) (str "ListNames") [] []) 2 (Registry.client 2)) as (z & c' & E & H).
  - done.
  - reflexivity.
  - apply sample_msg_ok; [by apply bytes_forallb|by apply plain_lit].
  - by vm_compute.
  - left. split; [apply sample_client; by left|by vm_compute].
  - exists c'. destruct H as [[-> H]|[-> _]]; [by split|]. exfalso.
    assert (Hz : match adbus_dispatch (ListNames (B := debug_build) sample_order) (sample_call sample_state (unique (Registry.client 2)) (str "ListNames") [] []) with
      | Ret z _ => z | _ => 1 end = 0) by (by vm_compute). by rewrite E in Hz.
Defined.

Lemma bus_calls_safe_witness : exists c',
  adbus_dispatch (RequestName (B := debug_build))
    (sample_call sample_state (unique (Registry.client 2)) (str "RequestName") (str "su") [200; 0; 0; 0]) = Ret (-2) c' /\
  c_serv c' = sample_state.
Proof.
  destruct (bus_calls_safe (B := debug_build) sample_order (str "RequestName") (RequestName (B := debug_build))
    (sample_call sample_state (unique (Registry.client 2)) (str "RequestName") (str "su") [200; 0; 0; 0]) 2 (Registry.client 2))
    as (z & c' & E & _ & _ & _ & Hs).
  - done.
  - reflexivity.
  - apply sample_msg_ok; [by apply bytes_forallb|by apply plain_lit].
  - by vm_compute.
  - left. split; [apply sample_client; by left|by vm_compute].
  - exists c'. assert (z = -2) as -> by (vm_compute in E; congruence). split; [exact E|]. by apply Hs.
Defined.

