(* ===== verification/Checks.v ===== *)
(** The argument checks of handlers that the bus does not use
    (adbus/riterator.c), and the error replies of a connection (adbus/misc.c).
    A handler reads its arguments one by one; a check that fails replies with
    an error and leaves the handler. *)

From Stdlib Require Import ZArith Lia.
From stdpp Require Import base option list numbers strings gmap.
From S2P Require Import Prelude Names Signature Iterator Values Buffer Text MatchRule Message Factory Server Bus.
#[local] Open Scope Z_scope.
#[local] Open Scope adbus_scope.

Section Checks.
Context {B : Build}.

(** ** Reading arguments *)

(** [*ret], for a number of [n] bytes. *)
Definition value_at (p : Z) (n : nat) : C Z :=
  let* c := get in
  match load (argdata (c_msg c)) p n c with
  | Ret v _ => done_ v
  | _ => oob
  end.

(** The unsigned value of [n] bytes as a signed one. *)
Definition to_signed (n : nat) (v : Z) : Z := if v <? 2 ^ (8 * Z.of_nat n - 1) then v else v - 2 ^ (8 * Z.of_nat n).

Definition adbus_check_bool : C Z := then* Sig (chr "b") in do* p := Iter (fun _ => adbus_iter_bool) in value_at p 4.
Definition adbus_check_u8 : C Z := then* Sig (chr "y") in do* p := Iter (fun _ => adbus_iter_u8) in value_at p 1.
Definition adbus_check_i16 : C Z := then* Sig (chr "n") in do* p := Iter (fun _ => adbus_iter_i16) in do* v := value_at p 2 in done_ (to_signed 2 v).
Definition adbus_check_u16 : C Z := then* Sig (chr "q") in do* p := Iter (fun _ => adbus_iter_u16) in value_at p 2.
Definition adbus_check_i32 : C Z := then* Sig (chr "i") in do* p := Iter (fun _ => adbus_iter_i32) in do* v := value_at p 4 in done_ (to_signed 4 v).
Definition adbus_check_i64 : C Z := then* Sig (chr "x") in do* p := Iter (fun _ => adbus_iter_i64) in do* v := value_at p 8 in done_ (to_signed 8 v).
Definition adbus_check_u64 : C Z := then* Sig (chr "t") in do* p := Iter (fun _ => adbus_iter_u64) in value_at p 8.

(** The bits of the double. *)
Definition adbus_check_double : C Z := then* Sig (chr "d") in do* p := Iter (fun _ => adbus_iter_double) in value_at p 8.

(** Both check for a string and read one. *)
Definition adbus_check_objectpath : C (list Z) := adbus_check_string.
Definition adbus_check_signature : C (list Z) := adbus_check_string.

Definition adbus_check_beginarray : C IterArray := then* Sig (chr "a") in Iter adbus_iter_beginarray.
Definition adbus_check_endarray (a : IterArray) : C unit := Iter (fun _ => adbus_iter_endarray a).
Definition adbus_check_beginstruct : C unit := then* Sig (chr "(") in Iter (fun _ => adbus_iter_beginstruct).
Definition adbus_check_endstruct : C unit := then* Sig (chr ")") in Iter (fun _ => adbus_iter_endstruct).
Definition adbus_check_begindictentry : C unit := then* Sig (chr "{") in Iter (fun _ => adbus_iter_begindictentry).
Definition adbus_check_enddictentry : C unit := then* Sig (chr "}") in Iter (fun _ => adbus_iter_enddictentry).

(** The variant, and the signature the iterator is at. *)
Definition adbus_check_beginvariant : C (IterVariant * list Z) :=
  then* Sig (chr "v") in
  do* v := Iter adbus_iter_beginvariant in
  let* c := get in
  done_ (v, match c_iter c with Some i => sig i | None => [] end).
Definition adbus_check_endvariant (v : IterVariant) : C IterVariant := then* Sig 0 in Iter (fun _ => adbus_iter_endvariant v).

Definition adbus_check_inarray (a : IterArray) : C bool := Iter (fun _ => adbus_iter_inarray a).

Definition adbus_check_value : C unit :=
  let* c := get in
  if iter_head (c_iter c) =? 0 then then* adbus_error_argument in longjmp ERROR
  else Iter (fun m i => adbus_iter_value m (S (measure i)) i).

(** ** Error replies of a connection *)

(** The reply is set up, and the callback left. *)
Definition adbus_errorf_jmp {A} (errorName errorMsg : list Z) : C A :=
  then* adbus_error errorName (Some errorMsg) in longjmp ERROR.

Definition adbusI_pathError : C Z :=
  let* c := get in
  do* path := text (msg_path (c_msg c)) in
  adbus_errorf (str "nz.co.foobar.adbus.InvalidPath") (str "The path '" ++ path ++ str "' does not exist.").

Definition adbusI_interfaceError : C Z :=
  let* c := get in
  do* path := text (msg_path (c_msg c)) in
  do* interface := text (msg_interface (c_msg c)) in
  adbus_errorf (str "nz.co.foobar.adbus.InvalidInterface")
    (str "The path '" ++ path ++ str "' does not export the interface '" ++ interface ++ str "'.").

(** The errors of properties: all name the interface and member of the
    message, from the text [format] makes of path, interface and member. *)
Definition property_error (name : list Z) (format : list Z -> list Z -> list Z -> list Z) : C Z :=
  let* c := get in
  let m := c_msg c in
  do* path := text (msg_path m) in
  do* interface := text (msg_interface m) in
  do* member := text (msg_member m) in
  adbus_errorf name (format path interface member).

Definition adbusI_propertyError : C Z :=
  property_error (str "nz.co.foobar.adbus.InvalidProperty") (fun path interface member =>
    str "The path '" ++ path ++ str "' does not export the property '" ++ interface ++ str "." ++ member ++ str "'.").
Definition adbusI_propWriteError : C Z :=
  property_error (str "nz.co.foobar.adbus.ReadOnlyProperty") (fun path interface member =>
    str "The property '" ++ interface ++ str "." ++ member ++ str "' on '" ++ path ++ str "' is read only.").
Definition adbusI_propReadError : C Z :=
  property_error (str "nz.co.foobar.adbus.WriteOnlyProperty") (fun path interface member =>
    str "The property '" ++ interface ++ str "." ++ member ++ str "' on '" ++ path ++ str "' is write only.").
Definition adbusI_propTypeError : C Z :=
  property_error (str "nz.co.foobar.adbus.InvalidPropertyType") (fun path interface member =>
    str "Incorrect property type for '" ++ interface ++ str "." ++ member ++ str "' on " ++ path ++ str ".").
End Checks.
