(* ===== verification/Stream.v ===== *)
(** How a connection cuts messages out of the bytes it receives:
    adbus_conn_parse of adbus/connection.c, for any way to dispatch a message.

    Reading a stream in pieces does what reading it at once does, unless it
    has messages of unknown types: those dispatch the last message again. *)

From Stdlib Require Import ZArith Lia.
From stdpp Require Import base option list numbers strings.
From S2P Require Import Prelude Signature Iterator Values Buffer Flip Text MatchRule Message Factory.
#[local] Open Scope Z_scope.
#[local] Open Scope adbus_scope.

(** ** Cutting messages out

    A message that is parsed goes to [dispatch].  [last] is the message
    structure: None before the first message, and after a message that was
    copied ([parseBuffer] is cleared, so the pointers are dangling).
    adbus_parse leaves it alone when the type is unknown. *)
Inductive parsed :=
| Failed | Untouched | Parsed (m : Message).

Section Stream.
Context {B : Build} {W : Type} (dispatch : Message -> M W Z).

Definition parse_message (d : list Z) : M W parsed :=
  match adbus_parse (len d) (mkParse d (mkIter 0 0 []) msg_zero) with
  | Ret _ s => ret (if bool_decide (type_of_code (nth 1 d 0) = None) then Untouched else Parsed (p_msg s))
  | Err _ => ret Failed
  | Abort => fun _ => Abort | Oob => oob | Nofuel => nofuel
  end.
Definition message_now (last : option Message) (p : parsed) : option Message :=
  match p with Parsed m => Some m | _ => last end.

(** [addr]: the address of the data.  The result comes with the bytes left. *)
Fixpoint parse_loop (fuel : nat) (last : option Message) (addr : Z) (d : list Z) : M W (Z * list Z) :=
  let msgsize := adbus_parse_size d (len d) in
  if (msgsize =? 0) || (len d <? msgsize) then ret (0, d) else
  match fuel with
  | O => nofuel
  | S fuel =>
      let* p := parse_message (take (Z.to_nat msgsize) d) in
      match p with
      | Failed => ret (-1, d)
      | _ =>
          let* m := of_option (message_now last p) in
          let* r := dispatch m in
          if negb (r =? 0) then ret (-1, d) else
          parse_loop fuel (if addr mod 8 =? 0 then Some m else None) (addr + msgsize) (drop (Z.to_nat msgsize) d)
      end
  end.

(** A message has 16 bytes at least. *)
Definition parse_fuel (d : list Z) : nat := length d.

(** On an error the buffer keeps everything. *)
Definition parse_buffer (addr : Z) : M (W * Buffer) Z := fun w =>
  let '(c, b) := w in
  let d := adbus_buf_data b in
  match parse_loop (parse_fuel d) None addr d c with
  | Ret (r, rest) c =>
      if r =? 0 then
        match adbus_buf_remove 0 (length d - length rest) b with
        | Ret _ b => Ret 0 (c, b)
        | Err b => Err (c, b)
        | Abort => Abort | Oob => Oob | Nofuel => Nofuel
        end
      else Ret (-1) (c, b)
  | Err c => Err (c, b)
  | Abort => Abort | Oob => Oob | Nofuel => Nofuel
  end.
End Stream.

(** ** Reading in pieces *)

(** The size of the first message, if all of it is there. *)
Definition first_size (d : list Z) : option nat :=
  let n := adbus_parse_size d (len d) in
  if (n =? 0) || (len d <? n) then None else Some (Z.to_nat n).

(** No message in the bytes has an unknown type. *)
Inductive known_types : list Z -> Prop :=
| known_end d : first_size d = None -> known_types d
| known_more d n : first_size d = Some n -> type_of_code (nth 1 d 0) <> None -> known_types (drop n d) -> known_types d.

Lemma parse_size_bounds (d : list Z) : bytes d -> adbus_parse_size d (len d) = 0 \/ 16 <= adbus_parse_size d (len d).
Proof.
  intros Hb. unfold adbus_parse_size. destruct (_ <? _); [by left|right]. unfold sizeof_Header.
  pose proof (Get32_bounds (deref d) (drop 12 d) ltac:(by apply Forall_drop)) as H1.
  pose proof (Get32_bounds (deref d) (drop 4 d) ltac:(by apply Forall_drop)) as H2.
  rewrite align_eq by auto with adbus. Z.div_mod_to_equations. lia.
Qed.

Lemma first_size_bounds (d : list Z) (n : nat) : bytes d -> first_size d = Some n ->
  (16 <= n <= length d)%nat /\ adbus_parse_size d (len d) = Z.of_nat n.
Proof.
  intros Hb. unfold first_size. destruct (parse_size_bounds d Hb) as [->|H]; [done|].
  destruct (Z.eqb_spec (adbus_parse_size d (len d)) 0), (Z.ltb_spec (len d) (adbus_parse_size d (len d))); try done.
  intros [= <-]. unfold len in *. lia.
Qed.

(** A message that is there stays the first one when more bytes come. *)
Lemma first_size_app (d e : list Z) (n : nat) : bytes d -> first_size d = Some n -> first_size (d ++ e) = Some n.
Proof.
  intros Hb H. destruct (first_size_bounds d n Hb H) as [Hn E]. unfold first_size.
  assert (Es : adbus_parse_size (d ++ e) (len (d ++ e)) = Z.of_nat n).
  { rewrite <- E. unfold adbus_parse_size. unfold len. rewrite length_app.
    unfold sizeof_ExtendedHeader. rewrite !(proj2 (Z.ltb_ge _ _)) by lia.
    rewrite !drop_app_le, !Get32_app by (rewrite ?length_drop; lia). destruct d; [cbn in Hn; lia|done]. }
  rewrite Es, (proj2 (Z.eqb_neq _ _)), (proj2 (Z.ltb_ge _ _)) by (unfold len; rewrite ?length_app; lia). cbn [orb]. by rewrite Nat2Z.id.
Qed.

Section Pieces.
Context {B : Build} {W : Type} (dispatch : Message -> M W Z).
Notation parse_loop := (parse_loop dispatch).

(** The loop without the message structure and the addresses. *)
Fixpoint messages (fuel : nat) (d : list Z) : M W (Z * list Z) :=
  match first_size d, fuel with
  | None, _ => ret (0, d)
  | Some _, O => nofuel
  | Some n, S fuel =>
      let* p := parse_message (take n d) in
      match p with
      | Parsed m => let* r := dispatch m in if negb (r =? 0) then ret (-1, d) else messages fuel (drop n d)
      | _ => ret (-1, d)
      end
  end.

Lemma parse_message_known (d : list Z) (c c' : W) (p : parsed) : type_of_code (nth 1 d 0) <> None -> parse_message d c = Ret p c' -> p <> Untouched.
Proof.
  intros Ht. unfold parse_message. destruct (adbus_parse _ _); [|by intros [= <- _]|done|done|done].
  rewrite bool_decide_false by done. by intros [= <- _].
Qed.

Lemma known_step (d : list Z) (n : nat) : bytes d -> first_size d = Some n -> known_types d ->
  type_of_code (nth 1 (take n d) 0) <> None /\ known_types (drop n d) /\ bytes (drop n d).
Proof.
  intros Hb Hn Hk. destruct (first_size_bounds d n Hb Hn) as [Hl _]. inversion Hk as [? Hnone|? n' Hn' Ht Hr]; simplify_eq.
  split_and!; [|done|by apply Forall_drop]. destruct d as [|x [|y d]], n as [|[|n]]; cbn in *; lia || done.
Qed.

Lemma loop_messages (fuel : nat) : forall (last : option Message) (a : Z) (d : list Z) (c : W), bytes d -> known_types d ->
  parse_loop fuel last a d c = messages fuel d c.
Proof.
  induction fuel as [|fuel IH]; intros last a d c Hb Hk; cbn [Stream.parse_loop messages]; (destruct (first_size d) as [n|] eqn:En; [|unfold first_size in En; by destruct (_ || _)]).
  - unfold first_size in En. by destruct (_ || _).
  - destruct (first_size_bounds d n Hb En) as [Hl Es]. destruct (known_step d n Hb En Hk) as (Ht & Hk' & Hb').
    unfold first_size in En. destruct (_ || _); [done|]. rewrite Es, Nat2Z.id. unfold bind.
    destruct (parse_message (take n d) c) as [p c1| | | |] eqn:Ep; try done. apply parse_message_known in Ep; [|done].
    destruct p as [| |m]; try done. cbn [message_now of_option ret]. destruct (dispatch m c1) as [r c2| | | |]; try done.
    destruct (negb (r =? 0)); [done|]. by apply IH.
Qed.

(** A unit of fuel for each byte is enough. *)
Lemma messages_fuel (f1 : nat) : forall (f2 : nat) (d : list Z) (c : W), bytes d -> (length d <= f1)%nat -> (length d <= f2)%nat ->
  messages f1 d c = messages f2 d c.
Proof.
  induction f1 as [|f1 IH]; intros f2 d c Hb H1 H2.
  - destruct d; [|cbn in H1; lia]. by destruct f2.
  - destruct f2 as [|f2]; [destruct d; [done|cbn in H2; lia]|]. cbn [messages]. destruct (first_size d) as [n|] eqn:En; [|done].
    destruct (first_size_bounds d n Hb En) as [Hl _]. unfold bind. destruct (parse_message (take n d) c) as [[| |m] c1| | | |]; try done.
    destruct (dispatch m c1) as [r c2| | | |]; try done. destruct (negb (r =? 0)); [done|]. apply IH; [by apply Forall_drop|rewrite length_drop; lia..].
Qed.

Lemma messages_split (f1 : nat) : forall (f2 : nat) (d e : list Z) (c : W), bytes (d ++ e) -> (length d <= f1)%nat -> (length (d ++ e) <= f2)%nat ->
  messages f2 (d ++ e) c =
  match messages f1 d c with
  | Ret (r, rest) c => if r =? 0 then messages (length (rest ++ e)) (rest ++ e) c else Ret (r, rest ++ e) c
  | o => o
  end.
Proof.
  induction f1 as [|f1 IH]; intros f2 d e c Hb H1 H2.
  - destruct d; [|cbn in H1; lia]. cbn [messages]. change (first_size []) with (@None nat). by apply messages_fuel.
  - pose proof (proj1 (Forall_app _ _ _) Hb) as [Hd He]. cbn [messages]. destruct (first_size d) as [n|] eqn:En; [|by apply messages_fuel].
    destruct (first_size_bounds d n Hd En) as [Hl _]. destruct f2 as [|f2]; [rewrite length_app in H2; lia|]. cbn [messages]. rewrite (first_size_app d e n Hd En), take_app_le, drop_app_le by lia.
    unfold bind. destruct (parse_message (take n d) c) as [[| |m] c1| | | |]; try done.
    destruct (dispatch m c1) as [r c2| | | |]; try done. destruct (negb (r =? 0)); [done|]. apply IH.
    + apply Forall_app. split; [by apply Forall_drop|done].
    + rewrite length_drop. lia.
    + rewrite length_app in *. rewrite length_drop. lia.
Qed.

Lemma known_prefix (f : nat) : forall (d e : list Z), bytes (d ++ e) -> (length d <= f)%nat -> known_types (d ++ e) -> known_types d.
Proof.
  induction f as [|f IH]; intros d e Hb Hf Hk; (destruct (first_size d) as [n|] eqn:En; [|by apply known_end]);
    destruct (first_size_bounds d n (proj1 (proj1 (Forall_app _ _ _) Hb)) En) as [Hl _]; [lia|].
  pose proof (first_size_app d e n (proj1 (proj1 (Forall_app _ _ _) Hb)) En) as En'.
  inversion Hk as [? Hnone|? n' Hn' Ht Hr]; simplify_eq. rewrite drop_app_le in Hr by lia.
  apply (known_more d n); [done|by rewrite app_nth1 in Ht by lia|]. apply (IH _ e); [|rewrite length_drop; lia|done].
  apply Forall_app in Hb as [? ?]. apply Forall_app. split; [by apply Forall_drop|done].
Qed.

(** What is left is the end of the bytes. *)
Lemma messages_rest (f : nat) : forall (d e : list Z) (c c' : W) (rest : list Z), bytes (d ++ e) -> known_types (d ++ e) ->
  messages f d c = Ret (0, rest) c' -> exists k, rest = drop k d /\ bytes (rest ++ e) /\ known_types (rest ++ e).
Proof.
  induction f as [|f IH]; intros d e c c' rest Hb Hk; cbn [messages]; (destruct (first_size d) as [n|] eqn:En; [|intros [= <- _]; exists 0%nat; by rewrite drop_0]); [done|].
  unfold bind. destruct (parse_message (take n d) c) as [[| |m] c1| | | |]; try done. destruct (dispatch m c1) as [r c2| | | |]; try done.
  destruct (Z.eqb_spec r 0) as [->|]; cbn [negb]; [|by intros [= ]]. pose proof (proj1 (Forall_app _ _ _) Hb) as [Hd _]. destruct (first_size_bounds d n Hd En) as [Hl _].
  destruct (known_step (d ++ e) n Hb (first_size_app d e n Hd En) Hk) as (_ & Hk' & Hb'). rewrite drop_app_le in Hk', Hb' by lia.
  intros E. destruct (IH _ e _ _ _ Hb' Hk' E) as (k & -> & H). exists (n + k)%nat. split; [by rewrite drop_drop|exact H].
Qed.

(** [parse_buffer] on bytes of known types. *)
Lemma parse_buffer_messages (a : Z) (c : W) (b : Buffer) : bytes (b_data b) -> known_types (b_data b) ->
  parse_buffer dispatch a (c, b) =
  match messages (length (b_data b)) (b_data b) c with
  | Ret (r, rest) c => if r =? 0 then Ret 0 (c, set_data rest b) else Ret (-1) (c, b)
  | Err c => Err (c, b)
  | Abort => Abort | Oob => Oob | Nofuel => Nofuel
  end.
Proof.
  intros Hb Hk. unfold parse_buffer, parse_fuel, adbus_buf_data. rewrite loop_messages by done.
  destruct (messages _ _ c) as [[r rest] c'| | | |] eqn:E; try done. destruct (Z.eqb_spec r 0) as [->|]; [|done].
  destruct (messages_rest _ _ [] c c' rest ltac:(by rewrite app_nil_r) ltac:(by rewrite app_nil_r) E) as (k & -> & _).
  unfold adbus_buf_remove. rewrite (bind_Ret get _ _ _ _ eq_refl), length_drop. rewrite (proj2 (Nat.leb_le _ _)) by lia.
  rewrite (bind_Ret (assert_ true) _ b b tt eq_refl). unfold put, set_data. cbn [take app].
  assert (E' : drop (0 + (length (b_data b) - (length (b_data b) - k))) (b_data b) = drop k (b_data b)); [|by rewrite E'].
  destruct (decide (k <= length (b_data b))%nat); [f_equal; lia|]. by rewrite !drop_ge by lia.
Qed.
End Pieces.


(** ** The loop ends

    If every dispatch does, and does not run out of fuel. *)
Lemma loop_stop {B : Build} {W : Type} (dispatch : Message -> M W Z) (f : nat) (last : option Message) (a : Z) (d : list Z) (c : W) :
  first_size d = None -> parse_loop dispatch f last a d c = Ret (0, d) c.
Proof. unfold first_size. destruct f; cbn [parse_loop]; by destruct (_ || _). Qed.

Lemma messages_end {B : Build} {W : Type} (dispatch : Message -> M W Z) (Hd : forall m c, dispatch m c <> Nofuel) (f : nat) :
  forall (last : option Message) (a : Z) (d : list Z) (c : W), bytes d -> (length d <= f)%nat -> parse_loop dispatch f last a d c <> Nofuel.
Proof.
  induction f as [|f IH]; intros last a d c Hb Hf; (destruct (first_size d) as [n|] eqn:En; [|by rewrite loop_stop]);
    destruct (first_size_bounds d n Hb En) as [Hl Es]; [lia|].
  cbn [parse_loop]. unfold first_size in En. destruct (_ || _); [done|]. rewrite Es, Nat2Z.id. unfold bind, parse_message.
  assert (Ht : bytes (take n d)) by (by apply Forall_take).
  pose proof (wp_parse (len (take n d)) (mkParse (take n d) (mkIter 0 0 []) msg_zero) Ht) as P. cbn [p_mem] in P.
  assert (L : len (take n d) = Z.of_nat n) by (unfold len; by rewrite length_take_le by lia). specialize (P ltac:(lia)). destruct (adbus_parse _ _) as [u s|s| | |]; try done.
  cbn [ret]. assert (Hn : forall m, (let* r := dispatch m in if negb (r =? 0) then ret (-1, d) else
    parse_loop dispatch f (if a mod 8 =? 0 then Some m else None) (a + Z.of_nat n) (drop n d)) c <> Nofuel).
  { intros m. unfold bind. pose proof (Hd m c) as Hm. destruct (dispatch m c) as [r c2| | | |]; try done. destruct (negb (r =? 0)); [done|].
    apply IH; [by apply Forall_drop|rewrite length_drop; lia]. }
  case_bool_decide; cbn [message_now]; [|apply (Hn (p_msg s))]. destruct last as [m|]; [apply (Hn m)|done].
Qed.

(** Adbus_conn_parse ends on any bytes, if dispatching ends: every message
    it takes has 16 bytes at least, so that a round for each byte is enough. *)
Theorem parse_ends {B : Build} {W : Type} (dispatch : Message -> M W Z) (a : Z) (c : W) (b : Buffer) :
  (forall m c, dispatch m c <> Nofuel) -> bytes (b_data b) -> parse_buffer dispatch a (c, b) <> Nofuel.
Proof.
  intros Hd Hb. unfold parse_buffer, adbus_buf_data. pose proof (messages_end dispatch Hd (parse_fuel (b_data b)) None a (b_data b) c Hb (Nat.le_refl _)) as H.
  destruct (parse_loop _ _ _ _ _ c) as [[r rest] c'| | | |]; try done. destruct (r =? 0); [|done].
  unfold adbus_buf_remove. rewrite (bind_Ret get _ _ _ _ eq_refl). unfold bind, assert_. destruct (_ || _); [|done]. by destruct (_ <=? _)%nat.
Qed.

(** ** Samples *)
Section Samples.
#[local] Existing Instance debug_build.

(** The state is the list of the serials that were dispatched. *)
Definition note (m : Message) : M (list Z) Z := fun l => Ret 0 (l ++ [msg_serial m]).
Definition signal_at (path : list Z) (serial type : Z) : list Z :=
  let f := adbus_msg_setmember (str "M") (-1) (adbus_msg_setinterface (str "a.b") (-1) (adbus_msg_setpath path (-1)
    (adbus_msg_setserial serial (adbus_msg_settype MSG_SIGNAL adbus_msg_new)))) in
  match adbus_msg_build f with Ret m _ => <[1%nat := type]> (msg_data m) | _ => [] end.
Definition signal_bytes : Z -> Z -> list Z := signal_at (str "/abc").
Definition piece (l : list Z) : Buffer := mkBuf l [] (Own 0).

(** The second message has an unknown type: the first is dispatched again. *)
Lemma stale_message : parse_buffer note 0 ([], piece (signal_bytes 7 4 ++ signal_bytes 8 9)) = Ret 0 ([7; 7], piece []).
Proof. vm_compute. reflexivity. Qed.

(** Alone it is the message structure of nobody. *)
Lemma stale_uninitialised : parse_buffer note 0 ([], piece (signal_bytes 8 9)) = Oob.
Proof. vm_compute. reflexivity. Qed.

(** The size of a message whose fields have 42 bytes is 8 too small, and the
    message is refused. *)
Lemma short_size_refused : fst (match parse_buffer note 0 ([], piece (signal_at (str "/") 7 4)) with Ret r w => (r, Some w) | _ => (7, None) end) = -1.
Proof. vm_compute. reflexivity. Qed.

(** A header without fields and arguments stops at an assertion. *)
Lemma empty_header_aborts : parse_buffer note 0 ([], piece ([chr "l"; 4; 0; 1] ++ le_bytes 4 0 ++ le_bytes 4 7 ++ le_bytes 4 0)) = Abort.
Proof. vm_compute. reflexivity. Qed.

Lemma parse_ends_witness : parse_buffer note 0 ([], piece (signal_bytes 7 4)) <> Nofuel.
Proof. apply parse_ends; [done|]. apply bytes_forallb. vm_compute. reflexivity. Defined.

Definition two_signals : list Z := Eval vm_compute in signal_bytes 7 4 ++ signal_bytes 8 4.
Lemma two_known : known_types two_signals.
Proof.
  apply (known_more _ 64); [vm_compute; reflexivity|vm_compute; congruence|].
  apply (known_more _ 64); [vm_compute; reflexivity|vm_compute; congruence|]. apply known_end. vm_compute. reflexivity.
Qed.

End Samples.
