(* ===== verification/Hash.v ===== *)
(** Hash tables (include/c/dmem/hash.h): open addressing with double hashing,
    two flag bits per bucket packed in 32-bit words, deletion marks, growth
    along a list of primes with an in-place rehash; the hash functions of the
    key types.  The tables are shown to implement finite maps. *)

From Stdlib Require Import ZArith Zdivisibility Lia String Ascii.
From Stdlib Require Import SpecFloat.
From stdpp Require Import base option list numbers strings gmap.
From S2P Require Import Prelude.
#[local] Open Scope Z_scope.
#[local] Open Scope adbus_scope.

(** ** Constants *)
Definition prime_list : list Z := [
  0; 3; 11; 23; 53; 97; 193; 389; 769; 1543; 3079; 6151; 12289; 24593; 49157;
  98317; 196613; 393241; 786433; 1572869; 3145739; 6291469; 12582917; 25165843;
  50331653; 100663319; 201326611; 402653189; 805306457; 1610612741; 3221225473; 4294967291].

(** The IEEE doubles nearest to 0.77 and 0.5. *)
Definition HASH_UPPER : spec_float := S754_finite false 6935543426150564 (-53).
Definition HALF : spec_float := S754_finite false 4503599627370496 (-53).

Definition to_double (n : Z) : spec_float := binary_normalize 53 1024 n 0 false.

(** The conversion of a positive double to an integer drops the fraction. *)
Definition truncate (x : spec_float) : Z :=
  match x with S754_finite false m e => Z.shiftl (Z.pos m) e | _ => 0 end.

Definition u32 (z : Z) : Z := z mod 2 ^ 32.

(** [(khint_t) (n * __ac_HASH_UPPER + 0.5)] *)
Definition upper_of (n : Z) : Z :=
  u32 (truncate (SFadd 53 1024 (SFmul 53 1024 (to_double n) HASH_UPPER) HALF)).

(** ** Keys

    What a table needs of its keys: the hash function and the comparison it
    is instantiated with, and that the comparison decides equality. *)
Class HashKey (K : Type) := {
  hash_func : K -> Z;
  hash_equal : K -> K -> bool;
  hash_func_range : forall k, 0 <= hash_func k < 2 ^ 32;
  hash_equal_eq : forall a b, hash_equal a b = true <-> a = b }.

(** ** Flags

    The words; bit 1 of the two bits of a bucket says that it is empty, bit 0
    that its entry was deleted. *)
Section Flags.
Context {S : Type}.

Definition word (fl : list Z) (i : Z) : M S Z := of_option (fl !! Z.to_nat (Z.shiftr i 4)).
Definition shift (i : Z) : Z := Z.shiftl (Z.land i 15) 1.

Definition isempty (fl : list Z) (i : Z) : M S bool :=
  let* w := word fl i in ret (negb (Z.land (Z.shiftr w (shift i)) 2 =? 0)).
Definition isdel (fl : list Z) (i : Z) : M S bool :=
  let* w := word fl i in ret (negb (Z.land (Z.shiftr w (shift i)) 1 =? 0)).
Definition iseither (fl : list Z) (i : Z) : M S bool :=
  let* w := word fl i in ret (negb (Z.land (Z.shiftr w (shift i)) 3 =? 0)).

Definition set_word (fl : list Z) (i w : Z) : list Z := <[Z.to_nat (Z.shiftr i 4) := w]> fl.

Definition set_isempty_false (fl : list Z) (i : Z) : M S (list Z) :=
  let* w := word fl i in ret (set_word fl i (Z.land w (Z.lnot (Z.shiftl 2 (shift i))))).
Definition set_isboth_false (fl : list Z) (i : Z) : M S (list Z) :=
  let* w := word fl i in ret (set_word fl i (Z.land w (Z.lnot (Z.shiftl 3 (shift i))))).
Definition set_isdel_true (fl : list Z) (i : Z) : M S (list Z) :=
  let* w := word fl i in ret (set_word fl i (Z.lor w (Z.shiftl 1 (shift i)))).

(** [memset(flags, 0xaa, ((n >> 4) + 1) * sizeof(uint32_t))]: all empty. *)
Definition empty_flags (n : Z) : list Z := repeat 0xaaaaaaaa (Z.to_nat (Z.shiftr n 4 + 1)).
End Flags.

(** ** The table

    [keys] and [vals] are memory: [None] in them is a place that was not
    written yet.  [flags] is empty when the table has no memory. *)
Record Hash (K V : Type) := mkHash {
  n_buckets : Z; size : Z; n_occupied : Z; upper_bound : Z;
  flags : list Z; keys : list (option K); vals : list (option V) }.
Arguments mkHash {K V}.
Arguments n_buckets {K V}.
Arguments size {K V}.
Arguments n_occupied {K V}.
Arguments upper_bound {K V}.
Arguments flags {K V}.
Arguments keys {K V}.
Arguments vals {K V}.

Definition hash_zero {K V} : Hash K V := mkHash 0 0 0 0 [] [] [].

(** One step of a search: the next bucket, in 32-bit arithmetic. *)
Definition step (n inc i : Z) : Z :=
  if n <=? u32 (i + inc) then u32 (u32 (i + inc) - n) else u32 (i + inc).

Definition set_counts (sz occ : Z) {K V} (h : Hash K V) : Hash K V :=
  mkHash (n_buckets h) sz occ (upper_bound h) (flags h) (keys h) (vals h).
Definition set_flags (fl : list Z) {K V} (h : Hash K V) : Hash K V :=
  mkHash (n_buckets h) (size h) (n_occupied h) (upper_bound h) fl (keys h) (vals h).
Definition set_keys {K V} (ks : list (option K)) (h : Hash K V) : Hash K V :=
  mkHash (n_buckets h) (size h) (n_occupied h) (upper_bound h) (flags h) ks (vals h).
Definition set_vals {K V} (vs : list (option V)) (h : Hash K V) : Hash K V :=
  mkHash (n_buckets h) (size h) (n_occupied h) (upper_bound h) (flags h) (keys h) vs.

(** [realloc] of an array to [n] places. *)
Definition realloc {A} (n : Z) (l : list (option A)) : list (option A) :=
  take (Z.to_nat n) l ++ repeat None (Z.to_nat n - length l).

Section Table.
Context {K V : Type} `{HashKey K}.
Abbreviation T := (Hash K V).

Definition key_at (i : Z) : M T K := let* h := get in of_option (mjoin (keys h !! Z.to_nat i)).

(** A value may be copied before it was written. *)
Definition val_at (i : Z) : M T (option V) := let* h := get in of_option (vals h !! Z.to_nat i).

Definition write_key (i : Z) (k : K) : M T unit :=
  let* h := get in
  let* _ := of_option (keys h !! Z.to_nat i) in
  put (set_keys (<[Z.to_nat i := Some k]> (keys h)) h).
Definition write_val (i : Z) (v : option V) : M T unit :=
  let* h := get in
  let* _ := of_option (vals h !! Z.to_nat i) in
  put (set_vals (<[Z.to_nat i := v]> (vals h)) h).

Definition dh_clear : M T unit :=
  let* h := get in
  match flags h with
  | [] => ret tt
  | _ => put (set_counts 0 0 (set_flags (empty_flags (n_buckets h)) h))
  end.

(** The condition of the search loops: stop at an empty bucket, or at one
    that holds the key. *)
Definition stop_at (key : K) (i : Z) : M T bool :=
  let* h := get in
  let* e := isempty (flags h) i in
  if e : bool then ret true
  else
    let* d := isdel (flags h) i in
    if d : bool then ret false
    else let* k := key_at i in ret (hash_equal k key).

Fixpoint get_loop (fuel : nat) (key : K) (inc last i : Z) : M T Z :=
  let* h := get in
  let* stop := stop_at key i in
  if stop : bool then
    let* b := iseither (flags h) i in
    ret (if b : bool then n_buckets h else i)
  else
    let i := step (n_buckets h) inc i in
    if i =? last then ret (n_buckets h)
    else match fuel with O => nofuel | S fuel => get_loop fuel key inc last i end.

Definition dh_get (key : K) : M T Z :=
  let* h := get in
  let n := n_buckets h in
  if n =? 0 then ret 0
  else
    let k := hash_func key in
    let i := k mod n in
    get_loop (Z.to_nat n) key (u32 (1 + k mod u32 (n - 1))) i i.

(** *** Resizing *)

(** [while (prime_list[t] > n) --t;] *)
Fixpoint prime_scan (t : nat) (n : Z) : option nat :=
  match prime_list !! t with
  | Some p => if n <? p then match t with O => None | S t => prime_scan t n end else Some t
  | None => None
  end.

(** [while (!isempty(new_flags, i))]: the loop has no other way out. *)
Fixpoint empty_loop (fuel : nat) (fl : list Z) (n inc i : Z) : M T Z :=
  let* e := isempty fl i in
  if e : bool then ret i
  else match fuel with O => nofuel | S fuel => empty_loop fuel fl n inc (step n inc i) end.

(** [while (1)]: the entry goes to its first empty bucket among the new ones;
    the old entry that is in this place is moved next. *)
Fixpoint kick_loop (fuel : nat) (fl : list Z) (n : Z) (key : K) (val : option V) : M T (list Z) :=
  let k := hash_func key in
  let inc := u32 (1 + k mod u32 (n - 1)) in
  let* i := empty_loop (Z.to_nat n) fl n inc (k mod n) in
  let* fl := set_isempty_false fl i in
  let* h := get in
  let* old := (if i <? n_buckets h then let* b := iseither (flags h) i in ret (negb b) else ret false) in
  if old : bool then
    let* key' := key_at i in
    run* write_key i key in
    let* val' := val_at i in
    run* write_val i val in
    let* h := get in
    let* fo := set_isdel_true (flags h) i in
    run* put (set_flags fo h) in
    match fuel with O => nofuel | S fuel => kick_loop fuel fl n key' val' end
  else
    run* write_key i key in
    run* write_val i val in
    ret fl.

(** [for (j = 0; j != h->n_buckets; ++j)]; [todo] buckets are left. *)
Fixpoint rehash_loop (todo : nat) (fl : list Z) (n j : Z) : M T (list Z) :=
  match todo with
  | O => ret fl
  | S todo =>
      let* h := get in
      let* b := iseither (flags h) j in
      let* fl :=
        (if b : bool then ret fl
         else
           let* key := key_at j in
           let* val := val_at j in
           let* fo := set_isdel_true (flags h) j in
           run* put (set_flags fo h) in
           kick_loop (Z.to_nat (n_buckets h)) fl n key val) in
      rehash_loop todo fl n (j + 1)
  end.

Definition dh_resize (new_n_buckets : Z) : M T unit :=
  let* t := of_option (prime_scan 31 new_n_buckets) in
  let* n := of_option (prime_list !! S t) in
  let* h := get in
  if upper_of n <=? size h then ret tt
  else
    run* (if n_buckets h <? n then put (set_vals (realloc n (vals h)) (set_keys (realloc n (keys h)) h)) else ret tt) in
    let* fl := rehash_loop (Z.to_nat (n_buckets h)) (empty_flags n) n 0 in
    run* (if n <? n_buckets h
          then modify (fun h => set_vals (realloc n (vals h)) (set_keys (realloc n (keys h)) h)) else ret tt) in
    modify (fun h => mkHash n (size h) (size h) (upper_of n) fl (keys h) (vals h)).

(** *** Insertion *)

(** The loop of [dh_put]: the [x], [site] and [i] it ends with. *)
Fixpoint put_loop (fuel : nat) (key : K) (inc last x site i : Z) : M T (Z * Z * Z) :=
  let* h := get in
  let* stop := stop_at key i in
  if stop : bool then ret (x, site, i)
  else
    let* d := isdel (flags h) i in
    let site := if d : bool then i else site in
    let i := step (n_buckets h) inc i in
    if i =? last then ret (site, site, i)
    else match fuel with O => nofuel | S fuel => put_loop fuel key inc last x site i end.

(** Where the key goes. *)
Definition put_place (key : K) : M T Z :=
  let* h := get in
  let n := n_buckets h in
  let k := hash_func key in
  if n =? 0 then oob
  else
  let i := k mod n in
  let* e := isempty (flags h) i in
  if e : bool then ret i
  else
    let* xsi := put_loop (Z.to_nat n) key (u32 (1 + k mod u32 (n - 1))) i n n i in
    let '(x, site, i) := xsi in
    if x =? n then
      let* e := isempty (flags h) i in
      ret (if (e : bool) && negb (site =? n) then site else i)
    else ret x.

(** Room for one more entry. *)
Definition put_grow : M T unit :=
  let* h := get in
  if upper_bound h <=? n_occupied h then
    if u32 (Z.shiftl (size h) 1) <? n_buckets h then dh_resize (u32 (n_buckets h - 1))
    else dh_resize (u32 (n_buckets h + 1))
  else ret tt.

(** The entry is made, or found. *)
Definition put_entry (key : K) : M T (Z * Z) :=
  let* x := put_place key in
  let* h := get in
  let* e := isempty (flags h) x in
  if e : bool then
    run* write_key x key in
    let* fl := set_isboth_false (flags h) x in
    run* modify (fun h => set_counts (u32 (size h + 1)) (u32 (n_occupied h + 1)) (set_flags fl h)) in
    ret (x, 1)
  else
    let* d := isdel (flags h) x in
    if d : bool then
      run* write_key x key in
      let* fl := set_isboth_false (flags h) x in
      run* modify (fun h => set_counts (u32 (size h + 1)) (n_occupied h) (set_flags fl h)) in
      ret (x, 2)
    else ret (x, 0).

(** The place of the key and the value of [added]. *)
Definition dh_put (key : K) : M T (Z * Z) := run* put_grow in put_entry key.

Definition dh_del (x : Z) : M T unit :=
  let* h := get in
  if x =? n_buckets h then ret tt
  else
    let* b := iseither (flags h) x in
    if b : bool then ret tt
    else
      let* fl := set_isdel_true (flags h) x in
      put (set_counts (u32 (size h - 1)) (n_occupied h) (set_flags fl h)).

(** *** Access by iterator, and iteration *)
Definition dh_exist (x : Z) : M T bool := let* h := get in let* b := iseither (flags h) x in ret (negb b).
Definition dh_val (x : Z) : M T V := let* v := val_at x in of_option v.
Definition set_val (x : Z) (v : V) : M T unit := write_val x (Some v).

(** [for (i = dh_begin(h); i != dh_end(h); i++) if (dh_exist(h, i))]: the
    entries, in the order of the buckets. *)
Fixpoint dh_entries (todo : nat) (i : Z) : M T (list (K * V)) :=
  match todo with
  | O => ret []
  | S todo =>
      let* b := dh_exist i in
      if b : bool then
        let* k := key_at i in
        let* v := dh_val i in
        let* l := dh_entries todo (i + 1) in
        ret ((k, v) :: l)
      else dh_entries todo (i + 1)
  end.
Definition dh_foreach : M T (list (K * V)) := let* h := get in dh_entries (Z.to_nat (n_buckets h)) 0.
End Table.

(** ** The key types *)

Definition schar (b : Z) : Z := if b <? 128 then b else b - 256.

Definition X31_step (h b : Z) : Z := u32 (u32 (u32 (Z.shiftl h 5) - h) + schar b).

Definition X31_hash_string (s : list Z) : Z :=
  let h := u32 (schar (deref (cstr s))) in
  if h =? 0 then h else fold_left X31_step (tl (cstr s)) h.

Definition X31_hash_stringsz (s : list Z) : Z :=
  match s with [] => 0 | b :: s => fold_left X31_step s (u32 (schar b)) end.

Definition uint64_hash_func (key : Z) : Z :=
  u32 (Z.lxor (Z.lxor (Z.shiftr key 33) key) (Z.shiftl key 11 mod 2 ^ 64)).

Lemma u32_range (z : Z) : 0 <= u32 z < 2 ^ 32.
Proof. by apply Z.mod_pos_bound. Qed.

Lemma fold_X31_range (s : list Z) : forall h, 0 <= h < 2 ^ 32 -> 0 <= fold_left X31_step s h < 2 ^ 32.
Proof. induction s as [|b s IH]; intros h Hh; [done|]. apply IH, u32_range. Qed.

Lemma X31_hash_string_range (s : list Z) : 0 <= X31_hash_string s < 2 ^ 32.
Proof. unfold X31_hash_string. destruct (_ =? 0); [apply u32_range|]. apply fold_X31_range, u32_range. Qed.

Lemma X31_hash_stringsz_range (s : list Z) : 0 <= X31_hash_stringsz s < 2 ^ 32.
Proof. destruct s as [|b s]; [done|]. apply fold_X31_range, u32_range. Qed.

(** The four kinds of keys: 32-bit and 64-bit integers, strings (the list is
    the string before its NUL) and sized strings (any bytes). *)
Definition uint32_key : HashKey Z := {|
  hash_func := u32; hash_equal := Z.eqb; hash_func_range := u32_range; hash_equal_eq := Z.eqb_eq |}.
Definition uint64_key : HashKey Z := {|
  hash_func := uint64_hash_func; hash_equal := Z.eqb;
  hash_func_range := fun k => u32_range _; hash_equal_eq := Z.eqb_eq |}.
Definition str_key : HashKey (list Z) := {|
  hash_func := X31_hash_string; hash_equal := list_eqb;
  hash_func_range := X31_hash_string_range; hash_equal_eq := list_eqb_eq |}.
Definition strsz_key : HashKey (list Z) := {|
  hash_func := X31_hash_stringsz; hash_equal := list_eqb;
  hash_func_range := X31_hash_stringsz_range; hash_equal_eq := list_eqb_eq |}.

(** ** What the flag words say *)
Definition bitE (fl : list Z) (i : Z) : bool := Z.testbit (nth (Z.to_nat (i / 16)) fl 0) (2 * (i mod 16) + 1).
Definition bitD (fl : list Z) (i : Z) : bool := Z.testbit (nth (Z.to_nat (i / 16)) fl 0) (2 * (i mod 16)).

(** The buckets below [n] that are not empty are [N], those with a deletion
    mark are [D]. *)
Record flags_are (fl : list Z) (n : Z) (N D : gset Z) : Prop := {
  fa_len : length fl = Z.to_nat (n / 16 + 1);
  fa_N : forall i, 0 <= i < n -> bitE fl i = bool_decide (i ∉ N);
  fa_D : forall i, 0 <= i < n -> bitD fl i = bool_decide (i ∈ D) }.

Lemma land_bit (x k : Z) : 0 <= k -> (Z.land x (2 ^ k) =? 0) = negb (Z.testbit x k).
Proof.
  intros Hk. destruct (Z.testbit x k) eqn:E; cbn [negb].
  - apply Z.eqb_neq. intros H0. apply (f_equal (fun z => Z.testbit z k)) in H0.
    rewrite Z.land_spec, E, Z.bits_0, Z.pow2_bits_true in H0; done.
  - apply Z.eqb_eq, Z.bits_inj_0. intros m. rewrite Z.land_spec, Z.pow2_bits_eqb by done.
    destruct (Z.eqb_spec k m) as [<-|_]; [by rewrite E|apply andb_false_r].
Qed.

Lemma land_two_bits (x : Z) : (Z.land x 3 =? 0) = negb (Z.testbit x 1 || Z.testbit x 0).
Proof.
  change 3 with (Z.lor (2 ^ 1) (2 ^ 0)). rewrite Z.land_lor_distr_r, negb_orb, <- !land_bit by lia.
  destruct (Z.eqb_spec (Z.lor (Z.land x (2 ^ 1)) (Z.land x (2 ^ 0))) 0) as [E|E].
  - apply Z.lor_eq_0_iff in E as [-> ->]. done.
  - symmetry. apply andb_false_iff. destruct (Z.eqb_spec (Z.land x (2 ^ 1)) 0) as [E1|]; [|by left].
    destruct (Z.eqb_spec (Z.land x (2 ^ 0)) 0) as [E0|]; [|by right]. by rewrite E1, E0 in E.
Qed.

Lemma shift_eq (i : Z) : shift i = 2 * (i mod 16).
Proof. unfold shift. change 15 with (Z.ones 4). rewrite Z.land_ones, Z.shiftl_mul_pow2 by lia. change (2 ^ 4) with 16. lia. Qed.

Lemma index_eq (i : Z) : Z.shiftr i 4 = i / 16.
Proof. by rewrite Z.shiftr_div_pow2. Qed.

Lemma shift_bounds (i : Z) : 0 <= 2 * (i mod 16) < 32.
Proof. Z.div_mod_to_equations. lia. Qed.

Section FlagOps.
Context (fl : list Z) (n : Z) (N D : gset Z) (i : Z).
Context (Hfl : flags_are fl n N D) (Hi : 0 <= i < n).

Lemma index_small (j : Z) : 0 <= j < n -> (Z.to_nat (j / 16) < length fl)%nat.
Proof. intros Hj. rewrite (fa_len _ _ _ _ Hfl). Z.div_mod_to_equations. lia. Qed.

Lemma word_ok {S} (s : S) : word fl i s = Ret (nth (Z.to_nat (i / 16)) fl 0) s.
Proof.
  unfold word. rewrite index_eq. pose proof (index_small i Hi).
  destruct (lookup_lt_is_Some_2 fl (Z.to_nat (i / 16))) as [w E]; [done|]. rewrite E.
  by rewrite (nth_lookup_Some _ _ _ _ E).
Qed.

Lemma isempty_ok {S} (s : S) : isempty fl i s = Ret (bool_decide (i ∉ N)) s.
Proof.
  unfold isempty. rewrite (bind_Ret _ _ _ _ _ (word_ok s)). unfold ret. f_equal.
  rewrite (land_bit _ 1), negb_involutive, Z.shiftr_spec, shift_eq, Z.add_comm by lia.
  rewrite <- (fa_N _ _ _ _ Hfl i Hi). done.
Qed.

Lemma isdel_ok {S} (s : S) : isdel fl i s = Ret (bool_decide (i ∈ D)) s.
Proof.
  unfold isdel. rewrite (bind_Ret _ _ _ _ _ (word_ok s)). unfold ret. f_equal.
  rewrite (land_bit _ 0), negb_involutive, Z.shiftr_spec, shift_eq, Z.add_0_l by lia.
  rewrite <- (fa_D _ _ _ _ Hfl i Hi). done.
Qed.

Lemma iseither_ok {S} (s : S) : iseither fl i s = Ret (bool_decide (i ∉ N ∖ D)) s.
Proof.
  unfold iseither. rewrite (bind_Ret _ _ _ _ _ (word_ok s)). unfold ret. f_equal.
  rewrite land_two_bits, negb_involutive, !Z.shiftr_spec, shift_eq, Z.add_0_l, Z.add_comm by lia.
  fold (bitE fl i) (bitD fl i). rewrite (fa_N _ _ _ _ Hfl i Hi), (fa_D _ _ _ _ Hfl i Hi).
  rewrite <- bool_decide_or. apply bool_decide_ext. symmetry. apply not_elem_of_difference.
Qed.

(** The bits after a word was replaced. *)
Lemma set_word_bit (w j p : Z) : 0 <= j < n ->
  Z.testbit (nth (Z.to_nat (j / 16)) (set_word fl i w) 0) p =
  if j / 16 =? i / 16 then Z.testbit w p else Z.testbit (nth (Z.to_nat (j / 16)) fl 0) p.
Proof.
  intros Hj. unfold set_word. rewrite index_eq. pose proof (index_small i Hi) as Hl.
  destruct (Z.eqb_spec (j / 16) (i / 16)) as [->|Hne].
  - erewrite nth_lookup_Some; [done|]. by rewrite list_lookup_insert_eq.
  - f_equal. rewrite !nth_lookup, list_lookup_insert_ne; [done|]. intros E.
    apply Hne, Z2Nat.inj; [by apply Z.div_pos; lia..|done].
Qed.

Lemma mask_bit (k s p : Z) : 0 <= s -> Z.testbit (Z.shiftl k s) p = Z.testbit k (p - s).
Proof. intros Hs. destruct (Z_lt_dec p 0). { by rewrite !Z.testbit_neg_r by lia. } by apply Z.shiftl_spec, Z.nlt_ge. Qed.

Lemma other_bits (j : Z) : j / 16 = i / 16 -> j <> i -> 2 * (j mod 16) <> 2 * (i mod 16).
Proof. intros H1 H2. Z.div_mod_to_equations. lia. Qed.

Lemma bit_out (k d : Z) : 0 <= k < 4 -> 2 <= d \/ d < 0 -> Z.testbit k d = false.
Proof.
  intros Hk [Hd|Hd]; [|by apply Z.testbit_neg_r].
  destruct (Z.eq_dec k 0) as [->|]; [apply Z.bits_0|]. apply Z.bits_above_log2; [lia|].
  assert (Z.log2 k < 2); [|lia]. apply Z.log2_lt_pow2; lia.
Qed.

(** A word is replaced: the bits of [i] change as the mask [k] says ([f] is
    how it is put on the word), the others stay. *)
Lemma set_word_are (k : Z) (f : bool -> bool -> bool) (w : Z) (N' D' : gset Z) :
  0 <= k < 4 -> (forall b, f b false = b) ->
  (forall p, 0 <= p -> Z.testbit w p = f (Z.testbit (nth (Z.to_nat (i / 16)) fl 0) p) (Z.testbit (Z.shiftl k (2 * (i mod 16))) p)) ->
  (forall j, j <> i -> (j ∈ N' <-> j ∈ N) /\ (j ∈ D' <-> j ∈ D)) ->
  f (bool_decide (i ∉ N)) (Z.testbit k 1) = bool_decide (i ∉ N') ->
  f (bool_decide (i ∈ D)) (Z.testbit k 0) = bool_decide (i ∈ D') ->
  flags_are (set_word fl i w) n N' D'.
Proof.
  intros Hk Hf Hw Hother HN HD. split.
  - unfold set_word. rewrite length_insert. apply Hfl.
  - intros j Hj. unfold bitE. rewrite set_word_bit by done. pose proof (shift_bounds i). pose proof (shift_bounds j).
    destruct (decide (j = i)) as [->|Nji].
    + rewrite Z.eqb_refl, Hw, mask_bit by lia. fold (bitE fl i). rewrite (fa_N _ _ _ _ Hfl i Hi), <- HN. do 2 f_equal. lia.
    + assert (Ei : bool_decide (j ∉ N') = bool_decide (j ∉ N)) by (apply bool_decide_ext; by rewrite (proj1 (Hother j Nji))).
      rewrite Ei, <- (fa_N _ _ _ _ Hfl j Hj). destruct (Z.eqb_spec (j / 16) (i / 16)) as [Eij|_]; [|done].
      pose proof (other_bits j Eij Nji). rewrite Hw, mask_bit, (bit_out k), Hf by lia. unfold bitE. by rewrite Eij.
  - intros j Hj. unfold bitD. rewrite set_word_bit by done. pose proof (shift_bounds i). pose proof (shift_bounds j).
    destruct (decide (j = i)) as [->|Nji].
    + rewrite Z.eqb_refl, Hw, mask_bit by lia. fold (bitD fl i). rewrite (fa_D _ _ _ _ Hfl i Hi), <- HD. do 2 f_equal. lia.
    + assert (Ei : bool_decide (j ∈ D') = bool_decide (j ∈ D)) by (apply bool_decide_ext; by rewrite (proj2 (Hother j Nji))).
      rewrite Ei, <- (fa_D _ _ _ _ Hfl j Hj). destruct (Z.eqb_spec (j / 16) (i / 16)) as [Eij|_]; [|done].
      pose proof (other_bits j Eij Nji). rewrite Hw, mask_bit, (bit_out k), Hf by lia. unfold bitD. by rewrite Eij.
Qed.

Lemma clear_spec (k w p : Z) : 0 <= p -> Z.testbit (Z.land w (Z.lnot (Z.shiftl k (shift i)))) p =
  Z.testbit w p && negb (Z.testbit (Z.shiftl k (2 * (i mod 16))) p).
Proof. intros Hp. by rewrite Z.land_spec, Z.lnot_spec, shift_eq. Qed.

Lemma set_isempty_false_ok {S} (s : S) : exists fl', set_isempty_false fl i s = Ret fl' s /\ flags_are fl' n ({[i]} ∪ N) D.
Proof.
  eexists. split; [unfold set_isempty_false; rewrite (bind_Ret _ _ _ _ _ (word_ok s)); reflexivity|].
  eapply (set_word_are 2 (fun a b => a && negb b)); [lia|by intros []|by apply clear_spec|set_solver| |].
  - rewrite andb_false_r. symmetry. apply bool_decide_eq_false. set_solver.
  - apply andb_true_r.
Qed.

Lemma set_isboth_false_ok {S} (s : S) : exists fl', set_isboth_false fl i s = Ret fl' s /\ flags_are fl' n ({[i]} ∪ N) (D ∖ {[i]}).
Proof.
  eexists. split; [unfold set_isboth_false; rewrite (bind_Ret _ _ _ _ _ (word_ok s)); reflexivity|].
  eapply (set_word_are 3 (fun a b => a && negb b)); [lia|by intros []|by apply clear_spec|set_solver| |].
  - rewrite andb_false_r. symmetry. apply bool_decide_eq_false. set_solver.
  - rewrite andb_false_r. symmetry. apply bool_decide_eq_false. set_solver.
Qed.

Lemma set_isdel_true_ok {S} (s : S) : exists fl', set_isdel_true fl i s = Ret fl' s /\ flags_are fl' n N ({[i]} ∪ D).
Proof.
  eexists. split; [unfold set_isdel_true; rewrite (bind_Ret _ _ _ _ _ (word_ok s)); reflexivity|].
  eapply (set_word_are 1 orb); [lia|by intros []| |set_solver| |].
  - intros p Hp. by rewrite Z.lor_spec, shift_eq.
  - by apply orb_false_r.
  - rewrite orb_true_r. symmetry. apply bool_decide_eq_true. set_solver.
Qed.
End FlagOps.

Lemma empty_flags_are (n : Z) : 0 <= n -> flags_are (empty_flags n) n ∅ ∅.
Proof.
  intros Hn. unfold empty_flags. rewrite index_eq. split; [by rewrite repeat_length| |].
  - intros i Hi. unfold bitE. rewrite nth_repeat_lt by (Z.div_mod_to_equations; lia).
    rewrite bool_decide_true by set_solver. pose proof (Z.mod_pos_bound i 16 eq_refl).
    assert (forallb (fun m => Z.testbit 0xaaaaaaaa (2 * m + 1)) (seqZ 0 16) = true) as E by (vm_compute; reflexivity).
    rewrite forallb_forall in E. apply E, list_elem_of_In, elem_of_seqZ. lia.
  - intros i Hi. unfold bitD. rewrite nth_repeat_lt by (Z.div_mod_to_equations; lia).
    rewrite bool_decide_false by set_solver. pose proof (Z.mod_pos_bound i 16 eq_refl).
    assert (forallb (fun m => negb (Z.testbit 0xaaaaaaaa (2 * m))) (seqZ 0 16) = true) as E by (vm_compute; reflexivity).
    rewrite forallb_forall in E. apply negb_true_iff, E, list_elem_of_In, elem_of_seqZ. lia.
Qed.

(** ** The sizes

    [good n]: a size of the list that is not zero and below 2^31, where the
    search and the counters do not overflow. *)
Definition good (n : Z) : Prop := exists t, (1 <= t <= 29)%nat /\ prime_list !! t = Some n.

(** Trial division. *)
Fixpoint no_divisor (fuel : nat) (d n : Z) : bool :=
  if n <? d * d then true
  else match fuel with
       | O => false
       | S fuel => negb (n mod d =? 0) && no_divisor fuel (d + 2) n
       end.

Definition prime_check (n : Z) : bool := (n =? 3) || (1 <? n) && Z.odd n && no_divisor (Z.to_nat (Z.sqrt n)) 3 n.

Lemma no_divisor_spec (fuel : nat) : forall d n, 0 < d -> no_divisor fuel d n = true ->
  forall k, d <= d + 2 * k -> (d + 2 * k) * (d + 2 * k) <= n -> n mod (d + 2 * k) <> 0.
Proof.
  induction fuel as [|fuel IH]; intros d n Hd H k Hk Hle; cbn [no_divisor] in H;
    (destruct (Z.ltb_spec n (d * d)) as [Hlt|Hge]; [nia|]); [done|].
  apply andb_true_iff in H as [H1%negb_true_iff H2]. apply Z.eqb_neq in H1.
  destruct (Z.eq_dec k 0) as [->|Hk0]; [by rewrite Z.add_0_r|].
  replace (d + 2 * k) with (d + 2 + 2 * (k - 1)) in * by lia. apply (IH (d + 2) n); [lia|done|lia|done].
Qed.

Lemma prime_check_prime (n : Z) : prime_check n = true -> Z.prime n.
Proof.
  unfold prime_check. intros [->%Z.eqb_eq|H]%orb_true_iff; [apply Z.prime_3|].
  apply andb_true_iff in H as [[H1%Z.ltb_lt Ho]%andb_true_iff Hd].
  split; [done|]. intros a Ha [q Hq]. apply Zodd_bool_iff in Ho.
  assert (Hsmall : forall b c, 1 < b -> b <= c -> n = c * b -> False).
  { intros b c Hb Hbc E. assert (Hob : Z.odd b = true).
    { apply Zodd_bool_iff in Ho. rewrite E, Z.odd_mul in Ho. by apply andb_true_iff in Ho as [_ ?]. }
    apply Z.odd_spec in Hob as [m Hm].
    apply (no_divisor_spec _ 3 n ltac:(lia) Hd (m - 1)); [lia|nia|].
    replace (3 + 2 * (m - 1)) with b by lia. rewrite E. apply Z_mod_mult. }
  destruct (Z.le_gt_cases a q).
  - apply (Hsmall a q); lia.
  - apply (Hsmall q a); nia.
Qed.

(** What the sizes and their bounds satisfy. *)
Definition size_check (n m : Z) : bool :=
  prime_check n && (2 <? n) && (n <? 2 ^ 31) && (0 <? upper_of n) && (upper_of n <? n) &&
  (n <=? 2 * upper_of n) && (upper_of n <? upper_of m) && (n <? m) && (upper_of n =? (77 * n + 50) / 100).

Lemma sizes_ok : forallb (fun p => size_check (fst p) (snd p)) (zip (take 29 (drop 1 prime_list)) (drop 2 prime_list)) = true.
Proof. vm_compute. reflexivity. Qed.

Lemma next_size (t : nat) : (1 <= t <= 29)%nat -> exists n m, prime_list !! t = Some n /\ prime_list !! S t = Some m /\
  size_check n m = true.
Proof.
  intros Ht. assert (Hl : length prime_list = 32%nat) by reflexivity.
  destruct (lookup_lt_is_Some_2 prime_list t) as [n En]; [lia|].
  destruct (lookup_lt_is_Some_2 prime_list (S t)) as [m Em]; [lia|].
  exists n, m. split; [done|]. split; [done|]. pose proof sizes_ok as H. rewrite forallb_forall in H.
  apply (H (n, m)). apply list_elem_of_In, (list_elem_of_lookup_2 _ (t - 1)).
  apply lookup_zip_with_Some. exists n, m. split; [done|].
  rewrite lookup_take_lt by lia. rewrite !lookup_drop. replace (1 + (t - 1))%nat with t by lia.
  replace (2 + (t - 1))%nat with (S t) by lia. done.
Qed.

(** ** Probing *)

Definition inc_of (n k : Z) : Z := 1 + k mod (n - 1).
Definition probe (n k : Z) (t : nat) : Z := (k mod n + Z.of_nat t * inc_of n k) mod n.

(** The first [t] probes are in [N] and the next one is [i]. *)
Definition path (N : gset Z) (n k i : Z) : Prop :=
  exists t : nat, (t < Z.to_nat n)%nat /\ probe n k t = i /\ forall t', (t' < t)%nat -> probe n k t' ∈ N.

Lemma path_mono (N N' : gset Z) (n k i : Z) : N ⊆ N' -> path N n k i -> path N' n k i.
Proof. intros Hs (t & Ht & Ei & Hp). exists t. repeat split; try done. intros t' Ht'. by apply Hs, Hp. Qed.

Record prime_size (n : Z) : Prop := { ps_prime : Z.prime n; ps_bounds : 2 < n < 2 ^ 31 }.

Section Probing.
Context (n k : Z) (Hn : prime_size n).

Lemma inc_bounds : 1 <= inc_of n k < n.
Proof. destruct Hn as [_ [H1 _]]. unfold inc_of. pose proof (Z.mod_pos_bound k (n - 1)). lia. Qed.

Lemma inc_eq : u32 (1 + k mod u32 (n - 1)) = inc_of n k.
Proof.
  pose proof inc_bounds. destruct Hn as [_ [H1 H2]]. unfold u32 in *. rewrite (Z.mod_small (n - 1)) by lia.
  fold (inc_of n k). apply Z.mod_small. lia.
Qed.

Lemma probe_bounds (t : nat) : 0 <= probe n k t < n.
Proof. apply Z.mod_pos_bound. destruct Hn. lia. Qed.

Lemma probe_0 : probe n k 0 = k mod n.
Proof. unfold probe. rewrite Z.mul_0_l, Z.add_0_r, Z.mod_mod; [done|]. destruct Hn. lia. Qed.

Lemma step_mod (i : Z) : 0 <= i < n -> step n (inc_of n k) i = (i + inc_of n k) mod n.
Proof.
  intros Hi. pose proof inc_bounds as Hb. destruct Hn as [_ [H1 H2]]. unfold step, u32.
  rewrite (Z.mod_small (i + inc_of n k)) by lia. destruct (Z.leb_spec n (i + inc_of n k)).
  - rewrite (Z.mod_small (_ - n)) by lia. apply (Zmod_unique _ _ 1); lia.
  - by rewrite Z.mod_small by lia.
Qed.

Lemma step_probe (t : nat) : step n (inc_of n k) (probe n k t) = probe n k (S t).
Proof.
  rewrite step_mod by apply probe_bounds. unfold probe. rewrite (Zplus_mod_idemp_l (k mod n + _)), Nat2Z.inj_succ.
  apply (f_equal (fun z => z mod n)). ring.
Qed.

(** The probes of a prime table reach every bucket and do not come back to
    the first one before that. *)
Lemma probe_cover (i : Z) : 0 <= i < n -> exists t, (t < Z.to_nat n)%nat /\ probe n k t = i.
Proof.
  intros Hi. pose proof inc_bounds as Hinc. destruct Hn as [Hp [H1 H2]].
  set (u := Z.invmod (inc_of n k) n).
  assert (Hu : (u * inc_of n k) mod n = 1) by (apply Z.invmod_prime; [done|rewrite Z.mod_small; lia]).
  set (t := ((i - k) * u) mod n). assert (Ht : 0 <= t < n) by (apply Z.mod_pos_bound; lia).
  exists (Z.to_nat t). split; [lia|]. unfold probe. rewrite Z2Nat.id by lia. unfold t.
  rewrite <- Zplus_mod_idemp_r, Zmult_mod_idemp_l, Zplus_mod_idemp_r, Zplus_mod_idemp_l.
  rewrite <- Z.mul_assoc, <- Zplus_mod_idemp_r, <- Zmult_mod_idemp_r, Hu, Zplus_mod_idemp_r, Z.mul_1_r.
  rewrite <- (Z.mod_small i n) at 2 by lia. f_equal. lia.
Qed.

Lemma probe_back (t : nat) : (0 < t)%nat -> (t < Z.to_nat n)%nat -> probe n k t <> k mod n.
Proof.
  intros H0 Ht E. pose proof inc_bounds as Hinc. destruct Hn as [Hp [H1 H2]]. unfold probe in E.
  assert (Hd : (n | Z.of_nat t * inc_of n k)).
  { apply Z.mod_divide; [lia|]. replace (Z.of_nat t * inc_of n k) with (k mod n + Z.of_nat t * inc_of n k - k mod n) by lia.
    rewrite Zminus_mod, E, Z.mod_mod, Z.sub_diag; [apply Z.mod_0_l|]; lia. }
  apply Z.divide_prime_mul in Hd as [Hd|Hd]; [| |done]; apply Z.divide_pos_le in Hd; lia.
Qed.

(** The first probe that satisfies a test. *)
Lemma first_probe (P : Z -> bool) (e : Z) : 0 <= e < n -> P e = true ->
  exists t, (t < Z.to_nat n)%nat /\ P (probe n k t) = true /\ forall t', (t' < t)%nat -> P (probe n k t') = false.
Proof.
  intros He Hpe. destruct (probe_cover e He) as (t & Ht & E). rewrite <- E in Hpe. clear E He.
  revert Ht Hpe. induction (lt_wf t) as [t _ IH]. intros Ht Hpe.
  destruct (existsb (fun t' => P (probe n k t')) (seq 0 t)) eqn:E.
  - apply existsb_exists in E as (t' & Hlt%in_seq & H'). apply (IH t'); [lia|lia|done].
  - exists t. repeat split; try done. intros t' Hlt. apply not_true_is_false. intros H'.
    enough (existsb (fun t' => P (probe n k t')) (seq 0 t) = true) by congruence.
    apply existsb_exists. exists t'. split; [apply in_seq; lia|done].
Qed.
End Probing.

Lemma size_check_prime (n m : Z) : size_check n m = true -> prime_size n.
Proof.
  unfold size_check. intros H. repeat (apply andb_true_iff in H as [H ?]).
  split; [by apply prime_check_prime|]. split; by apply Z.ltb_lt.
Qed.

Lemma good_ok (n : Z) : good n -> prime_size n /\ 0 < upper_of n < n /\ n <= 2 * upper_of n.
Proof.
  intros (t & Ht & E). destruct (next_size t Ht) as (n' & m & E' & _ & Hc). rewrite E in E'. injection E' as <-.
  split; [by eapply size_check_prime|]. unfold size_check in Hc.
  repeat match goal with H : _ && _ = true |- _ => apply andb_true_iff in H as [H ?] end.
  repeat match goal with H : (_ <? _) = true |- _ => apply Z.ltb_lt in H | H : (_ <=? _) = true |- _ => apply Z.leb_le in H end.
  lia.
Qed.

(** ** The table as a finite map

    [P] gives the entries by bucket. *)
Section Contents.
Context {K V : Type} `{Countable K}.
Implicit Types P Q : gmap Z (K * option V).

Definition ents P : list (K * option V) := (map_to_list P).*2.
Definition unique_keys P : Prop := NoDup (ents P).*1.
Definition contents P : gmap K (option V) := list_to_map (ents P).

Lemma ents_insert P (i : Z) (x : K * option V) : P !! i = None -> ents (<[i := x]> P) ≡ₚ x :: ents P.
Proof. intros Hi. unfold ents. by rewrite map_to_list_insert. Qed.

Lemma ents_delete P (i : Z) (x : K * option V) : P !! i = Some x -> ents P ≡ₚ x :: ents (delete i P).
Proof. intros Hi. unfold ents. by rewrite <- (map_to_list_delete P i x). Qed.

Lemma elem_of_ents P (x : K * option V) : x ∈ ents P <-> exists i, P !! i = Some x.
Proof.
  unfold ents. rewrite list_elem_of_fmap. split.
  - intros ([i y] & -> & Hin%elem_of_map_to_list). by exists i.
  - intros [i Hi]. exists (i, x). split; [done|]. by apply elem_of_map_to_list.
Qed.

Lemma size_take P (i : Z) (x : K * option V) : P !! i = Some x -> base.size P = S (base.size (delete i P)).
Proof.
  intros Hi. rewrite map_size_delete_Some by (by eexists). assert (base.size P <> 0%nat); [|lia].
  eapply (map_size_ne_0_lookup_2 _ i). by eexists.
Qed.

Lemma ents_length P : length (ents P) = base.size P.
Proof. unfold ents. by rewrite length_fmap, length_map_to_list. Qed.

Lemma unique_inj P (i j : Z) (k : K) (v w : option V) : unique_keys P ->
  P !! i = Some (k, v) -> P !! j = Some (k, w) -> i = j.
Proof.
  intros Hu Hi Hj. destruct (decide (i = j)) as [|Hne]; [done|]. exfalso. unfold unique_keys in Hu.
  rewrite (ents_delete P i (k, v) Hi) in Hu. rewrite (ents_delete (delete i P) j (k, w)) in Hu.
  - cbn [fmap list_fmap fst] in Hu. apply NoDup_cons in Hu as [Hu _]. apply Hu. left.
  - by rewrite lookup_delete_ne.
Qed.

Lemma contents_lookup P (k : K) (v : option V) : unique_keys P ->
  (contents P !! k = Some v) <-> (exists i, P !! i = Some (k, v)).
Proof.
  intros Hu. unfold contents. rewrite <- (elem_of_list_to_map (M := gmap K)) by done. apply elem_of_ents.
Qed.

Lemma contents_none P (k : K) : unique_keys P -> contents P !! k = None <-> forall i v, P !! i <> Some (k, v).
Proof.
  intros Hu. split.
  - intros Hn i v Hi. assert (contents P !! k = Some v) by (apply contents_lookup; [done|by exists i]). congruence.
  - intros Hn. destruct (contents P !! k) as [v|] eqn:E; [|done]. apply contents_lookup in E as [i Hi]; [|done]. by destruct (Hn i v).
Qed.

Lemma contents_perm P Q : unique_keys P -> ents P ≡ₚ ents Q -> unique_keys Q /\ contents P = contents Q.
Proof.
  intros Hu Hp. split; [unfold unique_keys; by rewrite <- Hp|]. unfold contents. by apply list_to_map_proper.
Qed.

Lemma contents_size P : unique_keys P -> base.size (contents P) = base.size P.
Proof. intros Hu. unfold contents. rewrite map_size_list_to_map by done. apply ents_length. Qed.

Lemma contents_insert P (i : Z) (k : K) (v : option V) : P !! i = None -> contents P !! k = None -> unique_keys P ->
  unique_keys (<[i := (k, v)]> P) /\ contents (<[i := (k, v)]> P) = <[k := v]> (contents P).
Proof.
  intros Hi Hk Hu. pose proof (ents_insert P i (k, v) Hi) as Hp.
  assert (Hu' : NoDup (((k, v) :: ents P).*1)).
  { cbn. apply NoDup_cons. split; [|done]. intros (y & Ey & Hin)%list_elem_of_fmap. apply elem_of_ents in Hin as [j Hj].
    destruct y as [k' w]. cbn in Ey. subst k'. by apply (proj1 (contents_none P k Hu) Hk j w). }
  split; [unfold unique_keys; by rewrite Hp|]. unfold contents.
  rewrite (list_to_map_proper (M := gmap K) _ ((k, v) :: ents P)); [done| |done]. by rewrite Hp.
Qed.

Lemma contents_delete P (i : Z) (k : K) (v : option V) : P !! i = Some (k, v) -> unique_keys P ->
  unique_keys (delete i P) /\ contents (delete i P) = delete k (contents P).
Proof.
  intros Hi Hu. pose proof (ents_delete P i (k, v) Hi) as Hp. pose proof Hu as Hu'. unfold unique_keys in Hu'.
  rewrite Hp in Hu'. cbn in Hu'. apply NoDup_cons in Hu' as [Hni Hu']. split; [done|].
  unfold contents at 2. rewrite (list_to_map_proper (M := gmap K) _ ((k, v) :: ents (delete i P))) by done.
  cbn. rewrite delete_insert_id; [done|]. by apply not_elem_of_list_to_map.
Qed.

Lemma contents_update P (i : Z) (k : K) (v w : option V) : P !! i = Some (k, v) -> unique_keys P ->
  unique_keys (<[i := (k, w)]> P) /\ contents (<[i := (k, w)]> P) = <[k := w]> (contents P).
Proof.
  intros Hi Hu. destruct (contents_delete P i k v Hi Hu) as [Hu' E].
  rewrite <- insert_delete_eq. destruct (contents_insert (delete i P) i k w) as [Hu2 E2]; [by rewrite lookup_delete_eq| |done|].
  - rewrite E. by rewrite lookup_delete_eq.
  - split; [done|]. rewrite E2, E. by rewrite insert_delete_eq.
Qed.
End Contents.

(** ** The invariant

    [repr h n N D P]: a table of [n] buckets, not empty at [N], marked as
    deleted at [D], with the entries [P]. *)
Section Repr.
Context {K V : Type} `{Countable K} `{!HashKey K}.
Implicit Types (h : Hash K V) (P Q : gmap Z (K * option V)) (N D : gset Z).

Definition below (n : Z) N : Prop := forall i, i ∈ N -> 0 <= i < n.

(** The entries are in the arrays. *)
Definition stored h P : Prop := forall i k v, P !! i = Some (k, v) ->
  keys h !! Z.to_nat i = Some (Some k) /\ vals h !! Z.to_nat i = Some v.

Definition paths (N : gset Z) (n : Z) P : Prop := forall i k v, P !! i = Some (k, v) -> path N n (hash_func k) i.

Record repr h (n : Z) N D P : Prop := {
  r_good : good n;
  r_n : n_buckets h = n;
  r_flags : flags_are (flags h) n N D;
  r_keys : length (keys h) = Z.to_nat n;
  r_vals : length (vals h) = Z.to_nat n;
  r_below : below n N;
  r_dom : dom P = N ∖ D;
  r_stored : stored h P;
  r_unique : unique_keys P;
  r_paths : paths N n P;
  r_size : size h = Z.of_nat (base.size P);
  r_occupied : n_occupied h = Z.of_nat (base.size N);
  r_upper : upper_bound h = upper_of n;
  r_load : n_occupied h <= upper_bound h }.

(** A table: without memory, or as above. *)
Definition table h (m : gmap K (option V)) : Prop :=
  (h = hash_zero /\ m = ∅) \/ exists n N D P, repr h n N D P /\ m = contents P.

Definition range (n : Z) : gset Z := list_to_set (seqZ 0 n).

Lemma elem_of_range (n i : Z) : i ∈ range n <-> 0 <= i < n.
Proof. unfold range. rewrite elem_of_list_to_set, elem_of_seqZ. lia. Qed.

Lemma size_range (n : Z) : 0 <= n -> Z.of_nat (base.size (range n)) = n.
Proof. intros Hn. unfold range. rewrite size_list_to_set by apply NoDup_seqZ. rewrite length_seqZ. lia. Qed.

(** A set that has fewer elements than there are buckets leaves one out. *)
Lemma missing (n : Z) N : 0 <= n -> Z.of_nat (base.size N) < n -> exists e, 0 <= e < n /\ e ∉ N.
Proof.
  intros Hn Hlt. destruct (decide (range n ⊆ N)) as [Hs|Hs].
  - apply subseteq_size in Hs. pose proof (size_range n Hn). lia.
  - destruct (set_choose_L (range n ∖ N)) as [e He].
    + intros E. apply Hs. set_solver.
    + exists e. rewrite elem_of_difference, elem_of_range in He. done.
Qed.

Lemma key_read h (i : Z) (k : K) : keys h !! Z.to_nat i = Some (Some k) -> key_at i h = Ret k h.
Proof. intros E. unfold key_at. by rewrite (bind_Ret get _ _ _ _ eq_refl), E. Qed.

Lemma val_read h (i : Z) (v : option V) : vals h !! Z.to_nat i = Some v -> val_at i h = Ret v h.
Proof. intros E. unfold val_at. by rewrite (bind_Ret get _ _ _ _ eq_refl), E. Qed.

Section InTable.
Context (h : Hash K V) (n : Z) (N D : gset Z) (P : gmap Z (K * option V)) (R : repr h n N D P).

Lemma r_prime : prime_size n.
Proof. apply good_ok, (r_good _ _ _ _ _ R). Qed.

Lemma live_iff (i : Z) : i ∈ N ∖ D <-> exists k v, P !! i = Some (k, v).
Proof.
  rewrite <- (r_dom _ _ _ _ _ R), elem_of_dom. split; [intros [[k v] E]; by exists k, v|intros (k & v & E); by eexists].
Qed.

Lemma some_empty : n_occupied h < n -> exists e, 0 <= e < n /\ e ∉ N.
Proof.
  intros Hlt. destruct r_prime as [_ Hb]. apply missing; [lia|]. by rewrite <- (r_occupied _ _ _ _ _ R).
Qed.

Lemma load_below : n_occupied h < n.
Proof.
  pose proof (good_ok n (r_good _ _ _ _ _ R)) as (_ & ? & _). pose proof (r_load _ _ _ _ _ R).
  rewrite (r_upper _ _ _ _ _ R) in *. lia.
Qed.

(** The test of the search loops. *)
Definition hit (key : K) (i : Z) : bool :=
  bool_decide (i ∉ N) || match P !! i with Some (k, _) => bool_decide (k = key) | None => false end.

Lemma key_at_ok (i : Z) (k : K) (v : option V) : P !! i = Some (k, v) -> key_at i h = Ret k h.
Proof.
  intros Hi. destruct (r_stored _ _ _ _ _ R i k v Hi) as [E _]. by apply key_read.
Qed.

Lemma hash_equal_decide (a b : K) : hash_equal a b = bool_decide (a = b).
Proof.
  destruct (hash_equal a b) eqn:E; symmetry; [apply bool_decide_eq_true|apply bool_decide_eq_false].
  - by apply hash_equal_eq.
  - intros Hab. apply hash_equal_eq in Hab. congruence.
Qed.

Lemma stop_at_ok (key : K) (i : Z) : 0 <= i < n -> stop_at key i h = Ret (hit key i) h.
Proof.
  intros Hi. unfold stop_at, hit. rewrite (bind_Ret get _ _ _ _ eq_refl).
  rewrite (bind_Ret _ _ _ _ _ (isempty_ok _ _ _ _ i (r_flags _ _ _ _ _ R) Hi h)).
  destruct (decide (i ∈ N)) as [HN|HN]; [|by rewrite (bool_decide_true (i ∉ N))].
  rewrite (bool_decide_false (i ∉ N)) by set_solver. cbn [orb].
  rewrite (bind_Ret _ _ _ _ _ (isdel_ok _ _ _ _ i (r_flags _ _ _ _ _ R) Hi h)).
  destruct (decide (i ∈ D)) as [HD|HD].
  - rewrite bool_decide_true by done. destruct (P !! i) as [[k v]|] eqn:E; [|done].
    exfalso. assert (i ∈ N ∖ D) by (apply live_iff; by eexists _, _). set_solver.
  - rewrite bool_decide_false by done. destruct (proj1 (live_iff i) ltac:(set_solver)) as (k & v & E).
    rewrite (bind_Ret _ _ _ _ _ (key_at_ok i k v E)), E. unfold ret. by rewrite hash_equal_decide.
Qed.

(** Where the search for a key ends: at its bucket, or at an empty one after
    a path. *)
Lemma search_end (key : K) : exists t, (t < Z.to_nat n)%nat /\
  (forall t', (t' < t)%nat -> hit key (probe n (hash_func key) t') = false) /\
  ((exists v, P !! probe n (hash_func key) t = Some (key, v)) \/
   (probe n (hash_func key) t ∉ N /\ forall i v, P !! i <> Some (key, v))).
Proof.
  destruct (some_empty load_below) as (e & He & Hne).
  destruct (first_probe n (hash_func key) r_prime (hit key) e He) as (t & Ht & Hhit & Hbefore).
  { unfold hit. by rewrite bool_decide_true. }
  exists t. split; [done|]. split; [done|]. unfold hit in Hhit.
  destruct (decide (probe n (hash_func key) t ∈ N)) as [HN|HN].
  - left. rewrite bool_decide_false in Hhit by set_solver. cbn [orb] in Hhit.
    destruct (P !! _) as [[k v]|]; [|done]. apply bool_decide_eq_true in Hhit as ->. by exists v.
  - right. split; [done|]. intros i v Hi. destruct (r_paths _ _ _ _ _ R i key v Hi) as (t1 & Ht1 & E1 & Hp1).
    destruct (Nat.lt_trichotomy t t1) as [Hlt|[<-|Hgt]].
    + by apply HN, Hp1.
    + rewrite E1 in HN. apply HN. assert (i ∈ N ∖ D) by (apply live_iff; by eexists _, _). set_solver.
    + specialize (Hbefore t1 Hgt). unfold hit in Hbefore. rewrite E1, Hi, (bool_decide_true (key = key)) in Hbefore by done.
      by rewrite orb_true_r in Hbefore.
Qed.

Lemma get_loop_ok (key : K) (tend : nat) : (tend < Z.to_nat n)%nat ->
  (forall t', (t' < tend)%nat -> hit key (probe n (hash_func key) t') = false) ->
  hit key (probe n (hash_func key) tend) = true ->
  forall fuel t, (t <= tend)%nat -> (tend - t <= fuel)%nat ->
  get_loop fuel key (inc_of n (hash_func key)) (hash_func key mod n) (probe n (hash_func key) t) h =
  Ret (if bool_decide (probe n (hash_func key) tend ∈ N ∖ D) then probe n (hash_func key) tend else n) h.
Proof.
  intros Hend Hbefore Hat. pose proof r_prime as Hp. 
  induction fuel as [|fuel IH]; intros t Ht Hf; cbn [get_loop]; rewrite (bind_Ret get _ _ _ _ eq_refl);
    pose proof (probe_bounds n (hash_func key) Hp t) as Hb;
    rewrite (bind_Ret _ _ _ _ _ (stop_at_ok key _ Hb)).
  - replace t with tend in * by lia. rewrite Hat.
    rewrite (bind_Ret _ _ _ _ _ (iseither_ok _ _ _ _ _ (r_flags _ _ _ _ _ R) Hb h)), (r_n _ _ _ _ _ R).
    unfold ret. by rewrite bool_decide_not, if_negb.
  - destruct (decide (t = tend)) as [->|Hne].
    + rewrite Hat. rewrite (bind_Ret _ _ _ _ _ (iseither_ok _ _ _ _ _ (r_flags _ _ _ _ _ R) Hb h)), (r_n _ _ _ _ _ R).
      unfold ret. by rewrite bool_decide_not, if_negb.
    + rewrite Hbefore by lia. rewrite (r_n _ _ _ _ _ R), step_probe by done.
      rewrite (proj2 (Z.eqb_neq _ _)) by (apply probe_back; [done|lia|lia]). apply IH; lia.
Qed.

Lemma dh_get_ok (key : K) : exists x, dh_get key h = Ret x h /\
  ((exists v, P !! x = Some (key, v)) \/ (x = n /\ forall i v, P !! i <> Some (key, v))).
Proof.
  pose proof r_prime as Hp.  destruct (search_end key) as (t & Ht & Hbefore & Hend).
  assert (Hat : hit key (probe n (hash_func key) t) = true).
  { unfold hit. destruct Hend as [(v & E)|[HN _]]; [|by rewrite bool_decide_true].
    rewrite E, (bool_decide_true (key = key)) by done. apply orb_true_r. }
  unfold dh_get. rewrite (bind_Ret get _ _ _ _ eq_refl), (r_n _ _ _ _ _ R).
  rewrite (proj2 (Z.eqb_neq n 0)) by (destruct Hp; lia). cbv zeta. rewrite inc_eq by done.
  pose proof (get_loop_ok key t Ht Hbefore Hat (Z.to_nat n) 0 ltac:(lia) ltac:(lia)) as G. rewrite probe_0 in G by done. rewrite G.
  eexists. split; [reflexivity|]. destruct Hend as [(v & E)|[HN Hno]].
  - left. exists v. rewrite bool_decide_true; [done|]. apply live_iff. by exists key, v.
  - right. split; [|done]. rewrite bool_decide_false; [done|]. set_solver.
Qed.

(** *** Insertion *)

(** Where [put_loop] leaves [site]: where it was, or a deleted bucket on the
    path. *)
Definition sited (key : K) (t0 : nat) (site : Z) (tend : nat) (s : Z) : Prop :=
  s = site \/ exists t, (t0 <= t < tend)%nat /\ s = probe n (hash_func key) t /\ s ∈ D.

Lemma put_loop_ok (key : K) (tend : nat) : (tend < Z.to_nat n)%nat ->
  (forall t', (t' < tend)%nat -> hit key (probe n (hash_func key) t') = false) ->
  hit key (probe n (hash_func key) tend) = true ->
  forall fuel t x site, (t <= tend)%nat -> (tend - t <= fuel)%nat ->
  exists s, sited key t site tend s /\
    put_loop fuel key (inc_of n (hash_func key)) (hash_func key mod n) x site (probe n (hash_func key) t) h =
    Ret (x, s, probe n (hash_func key) tend) h.
Proof.
  intros Hend Hbefore Hat. pose proof r_prime as Hp.
  induction fuel as [|fuel IH]; intros t x site Ht Hf; cbn [put_loop]; rewrite (bind_Ret get _ _ _ _ eq_refl);
    pose proof (probe_bounds n (hash_func key) Hp t) as Hb;
    rewrite (bind_Ret _ _ _ _ _ (stop_at_ok key _ Hb)).
  - replace t with tend in * by lia. rewrite Hat. exists site. split; [by left|done].
  - destruct (decide (t = tend)) as [->|Hne]; [rewrite Hat; exists site; split; [by left|done]|].
    rewrite Hbefore by lia.
    rewrite (bind_Ret _ _ _ _ _ (isdel_ok _ _ _ _ _ (r_flags _ _ _ _ _ R) Hb h)), (r_n _ _ _ _ _ R), step_probe by done.
    rewrite (proj2 (Z.eqb_neq _ _)) by (apply probe_back; [done|lia|lia]).
    destruct (IH (S t) x (if bool_decide (probe n (hash_func key) t ∈ D) then probe n (hash_func key) t else site))
      as (s & Hs & E); [lia|lia|]. exists s. split; [|exact E].
    destruct Hs as [->|(t1 & Ht1 & -> & HD)]; [|right; exists t1; repeat split; [lia|lia|done]].
    destruct (decide (probe n (hash_func key) t ∈ D)) as [HD|HD].
    + rewrite bool_decide_true by done. right. exists t. repeat split; [lia|lia|done].
    + rewrite bool_decide_false by done. by left.
Qed.

Lemma before_in_N (key : K) (t : nat) : hit key (probe n (hash_func key) t) = false -> probe n (hash_func key) t ∈ N.
Proof.
  unfold hit. intros [Hf _]%orb_false_iff. apply bool_decide_eq_false in Hf.
  destruct (decide (probe n (hash_func key) t ∈ N)); [done|]. by destruct Hf.
Qed.

(** The place of a key: its bucket, or a free one at the end of a path. *)
Lemma put_place_ok (key : K) : exists x, put_place key h = Ret x h /\ 0 <= x < n /\
  ((exists v, P !! x = Some (key, v)) \/
   ((forall i v, P !! i <> Some (key, v)) /\ path N n (hash_func key) x /\ (x ∉ N \/ x ∈ D))).
Proof.
  pose proof r_prime as Hp. destruct (search_end key) as (t & Ht & Hbefore & Hend).
  assert (Hat : hit key (probe n (hash_func key) t) = true).
  { unfold hit. destruct Hend as [(v & E)|[HN _]]; [|by rewrite bool_decide_true].
    rewrite E, (bool_decide_true (key = key)) by done. apply orb_true_r. }
  pose proof (probe_bounds n (hash_func key) Hp 0) as Hb0. rewrite probe_0 in Hb0 by done.
  assert (Hpath : forall t1, (t1 <= t)%nat -> path N n (hash_func key) (probe n (hash_func key) t1)).
  { intros t1 Ht1. exists t1. split; [lia|]. split; [done|]. intros t' Ht'. apply (before_in_N key), Hbefore. lia. }
  unfold put_place. rewrite (bind_Ret get _ _ _ _ eq_refl), (r_n _ _ _ _ _ R).
  rewrite (proj2 (Z.eqb_neq n 0)) by (destruct Hp; lia). cbv zeta.
  rewrite (bind_Ret _ _ _ _ _ (isempty_ok _ _ _ _ _ (r_flags _ _ _ _ _ R) Hb0 h)).
  destruct (decide (hash_func key mod n ∈ N)) as [H0|H0].
  - rewrite bool_decide_false by set_solver. rewrite inc_eq by done.
    destruct (put_loop_ok key t Ht Hbefore Hat (Z.to_nat n) 0 n n ltac:(lia) ltac:(lia)) as (s & Hs & E).
    rewrite probe_0 in E by done. rewrite (bind_Ret _ _ _ _ _ E), Z.eqb_refl.
    pose proof (probe_bounds n (hash_func key) Hp t) as Hbt.
    rewrite (bind_Ret _ _ _ _ _ (isempty_ok _ _ _ _ _ (r_flags _ _ _ _ _ R) Hbt h)).
    eexists. split; [reflexivity|]. destruct Hend as [(v & Ev)|[HN Hno]].
    + assert (Hin : probe n (hash_func key) t ∈ N ∖ D) by (apply live_iff; by eexists _, _).
      rewrite bool_decide_false by set_solver. cbn [andb]. split; [done|]. left. by exists v.
    + rewrite bool_decide_true by done. cbn [andb]. destruct (Z.eqb_spec s n) as [->|Hne]; cbn [negb].
      * split; [done|]. right. split; [done|]. split; [by apply Hpath|by left].
      * destruct Hs as [->|(t1 & Ht1 & -> & HD)]; [done|]. split; [by apply probe_bounds|].
        right. split; [done|]. split; [apply Hpath; lia|by right].
  - rewrite bool_decide_true by done. eexists. split; [reflexivity|]. split; [done|]. right.
    split; [|split; [rewrite <- (probe_0 n _ Hp); apply Hpath; lia|by left]].
    intros i v Hi. destruct Hend as [(w & Ew)|[_ Hno]]; [|by apply (Hno i v)].
    assert (t = 0%nat) as ->.
    { destruct t as [|t]; [done|]. exfalso. apply H0. rewrite <- (probe_0 n _ Hp). apply (before_in_N key), Hbefore. lia. }
    rewrite probe_0 in Ew by done. apply H0. assert (hash_func key mod n ∈ N ∖ D) by (apply live_iff; by eexists _, _).
    set_solver.
Qed.

(** *** Changes of one bucket *)

Lemma r_entry (i : Z) (k : K) (v : option V) : P !! i = Some (k, v) -> 0 <= i < n /\ i ∈ N /\ i ∉ D.
Proof.
  intros Hi. assert (Hin : i ∈ N ∖ D) by (apply live_iff; by eexists _, _). apply elem_of_difference in Hin as [HN HD].
  split; [by apply (r_below _ _ _ _ _ R)|done].
Qed.

Lemma index_lt {A} (l : list A) (i : Z) : length l = Z.to_nat n -> 0 <= i < n -> is_Some (l !! Z.to_nat i).
Proof. intros Hl Hi. apply lookup_lt_is_Some_2. lia. Qed.

Lemma del_ok (x : Z) (k : K) (v : option V) : P !! x = Some (k, v) ->
  exists h', dh_del x h = Ret tt h' /\ repr h' n N ({[x]} ∪ D) (delete x P).
Proof.
  intros Hx. destruct (r_entry x k v Hx) as (Hb & HN & HD). destruct (good_ok n (r_good _ _ _ _ _ R)) as (Hp & _).
  unfold dh_del. rewrite (bind_Ret get _ _ _ _ eq_refl), (r_n _ _ _ _ _ R), (proj2 (Z.eqb_neq x n)) by lia.
  rewrite (bind_Ret _ _ _ _ _ (iseither_ok _ _ _ _ x (r_flags _ _ _ _ _ R) Hb h)), bool_decide_false by set_solver.
  destruct (set_isdel_true_ok _ _ _ _ x (r_flags _ _ _ _ _ R) Hb h) as (fl & E & Hfl).
  rewrite (bind_Ret _ _ _ _ _ E). eexists. split; [reflexivity|].
  pose proof (size_take P x _ Hx) as Hs.
  destruct (contents_delete P x k v Hx (r_unique _ _ _ _ _ R)) as [Hu _].
  pose proof (r_size _ _ _ _ _ R) as Hsz. pose proof (r_occupied _ _ _ _ _ R). pose proof load_below.
  assert (Hle : Z.of_nat (base.size P) <= n).
  { rewrite <- (size_dom (D := gset Z)), (r_dom _ _ _ _ _ R). pose proof (subseteq_size (N ∖ D) N ltac:(set_solver)). lia. }
  split; cbn; try apply R; try done.
  - rewrite dom_delete_L, (r_dom _ _ _ _ _ R). set_solver.
  - intros i k' v' [Hne Hi]%lookup_delete_Some. by apply (r_stored _ _ _ _ _ R).
  - intros i k' v' [Hne Hi]%lookup_delete_Some. by eapply (r_paths _ _ _ _ _ R).
  - unfold u32. rewrite Z.mod_small; [lia|]. destruct Hp as [_ ?]. lia.
Qed.

Lemma set_val_ok (x : Z) (k : K) (w : option V) (v : V) : P !! x = Some (k, w) ->
  exists h', set_val x v h = Ret tt h' /\ repr h' n N D (<[x := (k, Some v)]> P).
Proof.
  intros Hx. destruct (r_entry x k w Hx) as (Hb & HN & HD).
  destruct (index_lt (vals h) x (r_vals _ _ _ _ _ R) Hb) as [o Eo].
  unfold set_val, write_val. rewrite (bind_Ret get _ _ _ _ eq_refl), Eo. eexists. split; [reflexivity|].
  destruct (contents_update P x k w (Some v) Hx (r_unique _ _ _ _ _ R)) as [Hu _].
  split; cbn; try apply R; try done.
  - rewrite length_insert. apply R.
  - rewrite dom_insert_L, (r_dom _ _ _ _ _ R). set_solver.
  - intros i k' v' Hi. destruct (decide (i = x)) as [->|Hne].
    + rewrite lookup_insert_eq in Hi. injection Hi as <- <-. destruct (r_stored _ _ _ _ _ R x k w Hx) as [Hk _].
      cbn. rewrite list_lookup_insert_eq; [done|]. rewrite (r_vals _ _ _ _ _ R). lia.
    + rewrite lookup_insert_ne in Hi by done. destruct (r_entry i k' v' Hi) as (Hi0 & _). cbn.
      destruct (r_stored _ _ _ _ _ R i k' v' Hi) as [H1 H2]. split; [done|]. rewrite list_lookup_insert_ne by lia. done.
  - intros i k' v' Hi. destruct (decide (i = x)) as [->|Hne].
    + rewrite lookup_insert_eq in Hi. injection Hi as <- <-. by eapply (r_paths _ _ _ _ _ R).
    + rewrite lookup_insert_ne in Hi by done. by eapply (r_paths _ _ _ _ _ R).
  - rewrite map_size_insert_Some by (by eexists). apply R.
Qed.

Lemma free_none (x : Z) : (x ∉ N \/ x ∈ D) -> P !! x = None.
Proof.
  intros Hfree. destruct (P !! x) as [[k v]|] eqn:E; [|done]. destruct (r_entry x k v E) as (_ & ? & ?). by destruct Hfree.
Qed.

(** A free bucket takes a key; its value is what the memory held. *)
Lemma fill_ok (x occ : Z) (key : K) (fl : list Z) : 0 <= x < n -> (forall i v, P !! i <> Some (key, v)) ->
  path N n (hash_func key) x -> (x ∉ N \/ x ∈ D) -> n_occupied h < upper_bound h ->
  occ = Z.of_nat (base.size ({[x]} ∪ N)) -> flags_are fl n ({[x]} ∪ N) (D ∖ {[x]}) ->
  exists w, repr (set_counts (u32 (size h + 1)) occ (set_flags fl (set_keys (<[Z.to_nat x := Some key]> (keys h)) h)))
    n ({[x]} ∪ N) (D ∖ {[x]}) (<[x := (key, w)]> P).
Proof.
  intros Hb Hno Hpath Hfree Hocc -> Hfl. destruct (index_lt (vals h) x (r_vals _ _ _ _ _ R) Hb) as [w Ew]. exists w.
  pose proof (free_none x Hfree) as Hx.
  destruct (contents_insert P x key w Hx (proj2 (contents_none P key (r_unique _ _ _ _ _ R)) Hno) (r_unique _ _ _ _ _ R)) as [Hu _].
  destruct (good_ok n (r_good _ _ _ _ _ R)) as ([_ Hp] & Hup & _).
  pose proof (r_occupied _ _ _ _ _ R) as Ho. pose proof (r_upper _ _ _ _ _ R) as Hub. pose proof (r_size _ _ _ _ _ R) as Hsz.
  pose proof (subseteq_size (N ∖ D) N ltac:(set_solver)) as Hsub. rewrite <- (r_dom _ _ _ _ _ R), size_dom in Hsub.
  assert (Hle : (base.size ({[x]} ∪ N) <= S (base.size N))%nat).
  { rewrite size_union_alt, size_singleton. pose proof (subseteq_size (N ∖ {[x]}) N ltac:(set_solver)). lia. }
  split; cbn; try apply R; try done.
  - rewrite length_insert. apply R.
  - intros i [->%elem_of_singleton|Hi]%elem_of_union; [done|by apply (r_below _ _ _ _ _ R)].
  - rewrite dom_insert_L, (r_dom _ _ _ _ _ R). apply set_eq. intros i. destruct (decide (i = x)); set_solver.
  - intros i k v Hi. destruct (decide (i = x)) as [->|Hne].
    + rewrite lookup_insert_eq in Hi. injection Hi as <- <-. cbn. rewrite list_lookup_insert_eq; [done|].
      rewrite (r_keys _ _ _ _ _ R). lia.
    + rewrite lookup_insert_ne in Hi by done. destruct (r_entry i k v Hi) as (Hi0 & _). cbn.
      destruct (r_stored _ _ _ _ _ R i k v Hi) as [H1 H2]. split; [|done]. rewrite list_lookup_insert_ne by lia. done.
  - intros i k v Hi. apply (path_mono N); [set_solver|]. destruct (decide (i = x)) as [->|Hne].
    + rewrite lookup_insert_eq in Hi. by injection Hi as <- <-.
    + rewrite lookup_insert_ne in Hi by done. by eapply (r_paths _ _ _ _ _ R).
  - rewrite map_size_insert_None by done. unfold u32. rewrite Z.mod_small; lia.
  - lia.
Qed.

(** The place of a key, made when it is new; the value of a new entry is
    what the memory held. *)
Lemma put_entry_ok (key : K) : n_occupied h < upper_bound h ->
  exists x a h' N' D' P', put_entry key h = Ret (x, a) h' /\ repr h' n N' D' P' /\
  ((exists v, P !! x = Some (key, v)) /\ a = 0 /\ P' = P \/
   (forall i v, P !! i <> Some (key, v)) /\ (a = 1 \/ a = 2) /\ P !! x = None /\ exists w, P' = <[x := (key, w)]> P).
Proof.
  intros Hocc. destruct (put_place_ok key) as (x & E & Hb & Hx). unfold put_entry.
  rewrite (bind_Ret _ _ _ _ _ E), (bind_Ret get _ _ _ _ eq_refl).
  rewrite (bind_Ret _ _ _ _ _ (isempty_ok _ _ _ _ x (r_flags _ _ _ _ _ R) Hb h)).
  destruct (index_lt (keys h) x (r_keys _ _ _ _ _ R) Hb) as [o Eo].
  assert (Ew : write_key x key h = Ret tt (set_keys (<[Z.to_nat x := Some key]> (keys h)) h)).
  { unfold write_key. rewrite (bind_Ret get _ _ _ _ eq_refl), Eo. done. }
  assert (Hfl := fun s => set_isboth_false_ok _ _ _ _ x (r_flags _ _ _ _ _ R) Hb (S := Hash K V) s).
  destruct Hx as [[v Ev]|(Hno & Hpath & Hfree)].
  - destruct (r_entry x key v Ev) as (_ & HN & HD). rewrite bool_decide_false by set_solver.
    rewrite (bind_Ret _ _ _ _ _ (isdel_ok _ _ _ _ x (r_flags _ _ _ _ _ R) Hb h)), bool_decide_false by done.
    exists x, 0, h, N, D, P. split; [done|]. split; [done|]. left. split; [by exists v|done].
  - destruct (decide (x ∈ N)) as [HN|HN].
    + assert (HD : x ∈ D) by (by destruct Hfree). rewrite bool_decide_false by set_solver.
      rewrite (bind_Ret _ _ _ _ _ (isdel_ok _ _ _ _ x (r_flags _ _ _ _ _ R) Hb h)), bool_decide_true by done.
      rewrite (bind_Ret _ _ _ _ _ Ew). destruct (Hfl (set_keys (<[Z.to_nat x := Some key]> (keys h)) h)) as (fl & Ef & Hf).
      rewrite (bind_Ret _ _ _ _ _ Ef). rewrite (bind_Ret (modify _) _ _ _ _ eq_refl).
      destruct (fill_ok x (n_occupied h) key fl Hb Hno Hpath Hfree Hocc) as [w Hw]; [|done|].
      { replace ({[x]} ∪ N) with N by set_solver. apply R. }
      exists x, 2. do 4 eexists. split; [reflexivity|]. split; [exact Hw|]. right. split; [done|]. split; [by right|]. split; [by apply free_none|by exists w].
    + rewrite bool_decide_true by done.
      rewrite (bind_Ret _ _ _ _ _ Ew). destruct (Hfl (set_keys (<[Z.to_nat x := Some key]> (keys h)) h)) as (fl & Ef & Hf).
      rewrite (bind_Ret _ _ _ _ _ Ef). rewrite (bind_Ret (modify _) _ _ _ _ eq_refl).
      destruct (fill_ok x (u32 (n_occupied h + 1)) key fl Hb Hno Hpath Hfree Hocc) as [w Hw]; [|done|].
      { rewrite size_union, size_singleton by set_solver. unfold u32. pose proof (r_occupied _ _ _ _ _ R).
        destruct (good_ok n (r_good _ _ _ _ _ R)) as ([_ ?] & ? & _). rewrite (r_upper _ _ _ _ _ R) in *.
        rewrite Z.mod_small; lia. }
      exists x, 1. do 4 eexists. split; [reflexivity|]. split; [exact Hw|]. right. split; [done|]. split; [by left|]. split; [by apply free_none|by exists w].
Qed.
End InTable.

(** *** The rehash in place

    [mid h fl n0 n N0 D0 P Q]: on the way from [n0] to [n] buckets.  [P] are
    the entries that are still at their old buckets (flags in [h]), [Q] those
    that were placed (flags [fl]); no bucket has both. *)
Record mid h (fl : list Z) (n0 n : Z) (N0 D0 : gset Z) P Q : Prop := {
  m_n : n_buckets h = n0;
  m_good : good n;
  m_old : flags_are (flags h) n0 N0 D0;
  m_below : below n0 N0;
  m_dom : dom P = N0 ∖ D0;
  m_stored : stored h P;
  m_new : flags_are fl n (dom Q) ∅;
  m_new_below : below n (dom Q);
  m_new_stored : stored h Q;
  m_new_paths : paths (dom Q) n Q;
  m_disjoint : forall i, i ∈ dom P -> i ∉ dom Q;
  m_keys : n0 <= Z.of_nat (length (keys h)) /\ n <= Z.of_nat (length (keys h));
  m_vals : n0 <= Z.of_nat (length (vals h)) /\ n <= Z.of_nat (length (vals h)) }.

(** What the rehash does not touch. *)
Definition same_shape h h' : Prop :=
  size h' = size h /\ length (keys h') = length (keys h) /\ length (vals h') = length (vals h).

Lemma same_shape_trans h1 h2 h3 : same_shape h1 h2 -> same_shape h2 h3 -> same_shape h1 h3.
Proof. intros (? & ? & ?) (? & ? & ?). repeat split; congruence. Qed.

Lemma empty_loop_ok (fl : list Z) (n k : Z) N (s : Hash K V) : prime_size n -> flags_are fl n N ∅ ->
  Z.of_nat (base.size N) < n ->
  exists x, empty_loop (Z.to_nat n) fl n (inc_of n k) (k mod n) s = Ret x s /\ 0 <= x < n /\ x ∉ N /\ path N n k x.
Proof.
  intros Hp Hfl Hsz. destruct (missing n N) as (e & He & Hne); [destruct Hp; lia|done|].
  destruct (first_probe n k Hp (fun i => bool_decide (i ∉ N)) e He) as (t & Ht & Hat & Hbefore); [by apply bool_decide_true|].
  apply bool_decide_eq_true in Hat. exists (probe n k t). split; [|split; [by apply probe_bounds|split; [done|]]].
  - enough (G : forall fuel t0, (t0 <= t)%nat -> (t - t0 <= fuel)%nat ->
      empty_loop fuel fl n (inc_of n k) (probe n k t0) s = Ret (probe n k t) s).
    { rewrite <- (probe_0 n k Hp). apply G; lia. }
    induction fuel as [|fuel IH]; intros t0 H0 Hf; cbn [empty_loop];
      rewrite (bind_Ret _ _ _ _ _ (isempty_ok _ _ _ _ _ Hfl (probe_bounds n k Hp t0) s)).
    + replace t0 with t by lia. by rewrite bool_decide_true.
    + destruct (decide (t0 = t)) as [->|Hne0]; [by rewrite bool_decide_true|].
      rewrite Hbefore by lia. rewrite step_probe by done. apply IH; lia.
  - exists t. split; [done|]. split; [done|]. intros t' Ht'. specialize (Hbefore t' Ht').
    apply bool_decide_eq_false in Hbefore. destruct (decide (probe n k t' ∈ N)); [done|]. by destruct Hbefore.
Qed.

(** An entry is placed at [x], and the old entry there, if any, is taken
    out. *)
Lemma mid_place h h' (fl fl' fo : list Z) (n0 n x : Z) (N0 D0 D1 : gset Z) P P1 Q (key : K) (val : option V) :
  mid h fl n0 n N0 D0 P Q -> 0 <= x < n -> x ∉ dom Q -> path (dom Q) n (hash_func key) x ->
  flags_are fl' n ({[x]} ∪ dom Q) ∅ -> flags_are fo n0 N0 D1 -> dom P1 = N0 ∖ D1 -> P1 ⊆ P -> P1 !! x = None ->
  h' = set_flags fo (set_vals (<[Z.to_nat x := val]> (vals h)) (set_keys (<[Z.to_nat x := Some key]> (keys h)) h)) ->
  mid h' fl' n0 n N0 D1 P1 (<[x := (key, val)]> Q).
Proof.
  intros M Hx HxQ Hpath Hfl' Hfo Hdom Hsub Hx1 ->.
  assert (HP0 : forall i k v, P1 !! i = Some (k, v) -> 0 <= i /\ i <> x).
  { intros i k v Hi. split; [|by intros ->; congruence].
    assert (i ∈ N0 ∖ D1) as Hin by (rewrite <- Hdom; by apply elem_of_dom). apply elem_of_difference in Hin as [Hin _].
    by apply (m_below _ _ _ _ _ _ _ _ M). }
  assert (HQ0 : forall i k v, Q !! i = Some (k, v) -> 0 <= i /\ i <> x).
  { intros i k v Hi. assert (i ∈ dom Q) as Hin by (by apply elem_of_dom).
    split; [by apply (m_new_below _ _ _ _ _ _ _ _ M)|by intros ->]. }
  destruct (m_keys _ _ _ _ _ _ _ _ M) as [Hk1 Hk2]. destruct (m_vals _ _ _ _ _ _ _ _ M) as [Hv1 Hv2].
  split; cbn; try apply M; try done; rewrite ?dom_insert_L, ?length_insert; try done.
  - intros i k v Hi. destruct (HP0 i k v Hi) as [Hi0 Hne]. cbn. rewrite !list_lookup_insert_ne by lia.
    apply (m_stored _ _ _ _ _ _ _ _ M). by eapply lookup_weaken.
  - intros i [->%elem_of_singleton|Hi]%elem_of_union; [done|]. by apply (m_new_below _ _ _ _ _ _ _ _ M).
  - intros i k v Hi. destruct (decide (i = x)) as [->|Hne].
    + rewrite lookup_insert_eq in Hi. injection Hi as <- <-. cbn. rewrite !list_lookup_insert_eq by lia. done.
    + rewrite lookup_insert_ne in Hi by done. destruct (HQ0 i k v Hi) as [Hi0 _]. cbn.
      rewrite !list_lookup_insert_ne by lia. by apply (m_new_stored _ _ _ _ _ _ _ _ M).
  - intros i k v Hi. apply (path_mono (dom Q)); [set_solver|]. destruct (decide (i = x)) as [->|Hne].
    + rewrite lookup_insert_eq in Hi. by injection Hi as <- <-.
    + rewrite lookup_insert_ne in Hi by done. by eapply (m_new_paths _ _ _ _ _ _ _ _ M).
  - intros i Hi. rewrite not_elem_of_union, not_elem_of_singleton. split.
    + intros ->. apply elem_of_dom in Hi as [? Hi]. congruence.
    + apply (m_disjoint _ _ _ _ _ _ _ _ M). apply elem_of_dom in Hi as [y Hi]. apply elem_of_dom. exists y. by eapply lookup_weaken.
Qed.

Lemma write_entry h (x : Z) (key : K) (val : option V) : 0 <= x ->
  x < Z.of_nat (length (keys h)) -> x < Z.of_nat (length (vals h)) ->
  write_key x key h = Ret tt (set_keys (<[Z.to_nat x := Some key]> (keys h)) h) /\
  write_val x val h = Ret tt (set_vals (<[Z.to_nat x := val]> (vals h)) h).
Proof.
  intros H0 H1 H2. destruct (lookup_lt_is_Some_2 (keys h) (Z.to_nat x)) as [a Ea]; [lia|].
  destruct (lookup_lt_is_Some_2 (vals h) (Z.to_nat x)) as [b Eb]; [lia|].
  unfold write_key, write_val. rewrite !(bind_Ret get _ _ _ _ eq_refl), Ea, Eb. done.
Qed.

Lemma kick_loop_eq (fuel : nat) (fl : list Z) (n : Z) (key : K) (val : option V) :
  kick_loop (V := V) fuel fl n key val =
  let k := hash_func key in
  let inc := u32 (1 + k mod u32 (n - 1)) in
  let* i := empty_loop (Z.to_nat n) fl n inc (k mod n) in
  let* fl := set_isempty_false fl i in
  let* h := get in
  let* old := (if i <? n_buckets h then let* b := iseither (flags h) i in ret (negb b) else ret false) in
  if old : bool then
    let* key' := key_at i in
    run* write_key i key in
    let* val' := val_at i in
    run* write_val i val in
    let* h := get in
    let* fo := set_isdel_true (flags h) i in
    run* put (set_flags fo h) in
    match fuel with O => nofuel | S fuel => kick_loop fuel fl n key' val' end
  else
    run* write_key i key in
    run* write_val i val in
    ret fl.
Proof. by destruct fuel. Qed.

(** One round of the loop: the entry is placed, and the loop ends or goes on
    with the entry that had the bucket. *)
Lemma kick_step (fuel : nat) h fl n0 n N0 D0 P Q (key : K) (val : option V) :
  mid h fl n0 n N0 D0 P Q -> Z.of_nat (base.size Q) < n ->
  exists x fl' h' D', Q !! x = None /\ same_shape h h' /\ mid h' fl' n0 n N0 D' (delete x P) (<[x := (key, val)]> Q) /\
    match P !! x with
    | None => kick_loop fuel fl n key val h = Ret fl' h'
    | Some (k', v') => kick_loop fuel fl n key val h =
        match fuel with O => Nofuel | S fuel => kick_loop fuel fl' n k' v' h' end
    end.
Proof.
  intros M Hsz. destruct (good_ok n (m_good _ _ _ _ _ _ _ _ M)) as (Hp & _).
  destruct (empty_loop_ok fl n (hash_func key) (dom Q) h Hp (m_new _ _ _ _ _ _ _ _ M)) as (x & E & Hx & HxQ & Hpath);
    [by rewrite size_dom|].
  destruct (set_isempty_false_ok fl n (dom Q) ∅ x (m_new _ _ _ _ _ _ _ _ M) Hx h) as (fl' & E' & Hfl').
  destruct (m_keys _ _ _ _ _ _ _ _ M) as [Hk1 Hk2]. destruct (m_vals _ _ _ _ _ _ _ _ M) as [Hv1 Hv2].
  assert (Ew := fun h0 Hk Hv => write_entry h0 x key val ltac:(lia) Hk Hv).
  assert (HQx : Q !! x = None) by (by apply not_elem_of_dom).
  assert (Eold : (if x <? n0 then let* b := iseither (flags h) x in ret (negb b) else ret false) h =
    Ret (bool_decide (x ∈ dom P)) h).
  { destruct (Z.ltb_spec x n0) as [Hlt|Hge].
    - rewrite (bind_Ret _ _ _ _ _ (iseither_ok _ _ _ _ x (m_old _ _ _ _ _ _ _ _ M) ltac:(lia) h)).
      by rewrite bool_decide_not, negb_involutive, (m_dom _ _ _ _ _ _ _ _ M).
    - rewrite bool_decide_false; [done|]. rewrite (m_dom _ _ _ _ _ _ _ _ M). intros [Hin _]%elem_of_difference.
      apply (m_below _ _ _ _ _ _ _ _ M) in Hin. lia. }
  exists x, fl'. rewrite kick_loop_eq. cbv zeta. rewrite inc_eq by done.
  rewrite (bind_Ret _ _ _ _ _ E), (bind_Ret _ _ _ _ _ E'), (bind_Ret get _ _ _ _ eq_refl), (m_n _ _ _ _ _ _ _ _ M).
  rewrite (bind_Ret _ _ _ _ _ Eold). destruct (P !! x) as [[k' v']|] eqn:EP.
  - assert (HxP : x ∈ dom P) by (by apply elem_of_dom). rewrite bool_decide_true by done.
    pose proof HxP as Hx0. rewrite (m_dom _ _ _ _ _ _ _ _ M) in Hx0. apply elem_of_difference in Hx0 as [Hx0 _].
    apply (m_below _ _ _ _ _ _ _ _ M) in Hx0. destruct (m_stored _ _ _ _ _ _ _ _ M x k' v' EP) as [Ek Ev].
    rewrite (bind_Ret _ _ _ _ _ (key_read h x k' Ek)). destruct (Ew h) as [E1 _]; [lia|lia|]. rewrite (bind_Ret _ _ _ _ _ E1).
    set (h1 := set_keys _ h).
    rewrite (bind_Ret _ _ _ _ _ (val_read h1 x v' Ev)). destruct (Ew h1) as [_ E2]; [cbn; rewrite ?length_insert; lia..|].
    rewrite (bind_Ret _ _ _ _ _ E2), (bind_Ret get _ _ _ _ eq_refl). set (h2 := set_vals _ h1).
    destruct (set_isdel_true_ok (flags h) n0 N0 D0 x (m_old _ _ _ _ _ _ _ _ M) Hx0 h2) as (fo & E3 & Hfo).
    change (flags h2) with (flags h). rewrite (bind_Ret _ _ _ _ _ E3), (bind_Ret (put _) _ _ _ _ eq_refl).
    exists (set_flags fo h2), ({[x]} ∪ D0). split; [done|]. split; [repeat split; cbn; by rewrite length_insert|].
    split; [|by destruct fuel].
    eapply (mid_place h _ fl fl' fo n0 n x N0 D0 ({[x]} ∪ D0) P); try done.
    + rewrite dom_delete_L, (m_dom _ _ _ _ _ _ _ _ M). set_solver.
    + apply delete_subseteq.
    + apply lookup_delete_eq.
  - assert (HxP : x ∉ dom P) by (by apply not_elem_of_dom). rewrite bool_decide_false by done.
    destruct (Ew h) as [E1 _]; [lia|lia|]. rewrite (bind_Ret _ _ _ _ _ E1). set (h1 := set_keys _ h).
    destruct (Ew h1) as [_ E2]; [cbn; rewrite ?length_insert; lia..|]. rewrite (bind_Ret _ _ _ _ _ E2).
    exists (set_vals (<[Z.to_nat x := val]> (vals h)) h1), D0. split; [done|].
    split; [repeat split; cbn; by rewrite length_insert|]. split; [|done]. rewrite delete_id by done.
    eapply (mid_place h _ fl fl' (flags h) n0 n x N0 D0 D0 P); try done; apply M.
Qed.

Lemma kick_loop_ok (fuel : nat) : forall h fl n0 n N0 D0 P Q (key : K) (val : option V),
  mid h fl n0 n N0 D0 P Q -> Z.of_nat (base.size P) + Z.of_nat (base.size Q) < n -> (base.size P <= fuel)%nat ->
  exists fl' h' D0' P' Q', kick_loop fuel fl n key val h = Ret fl' h' /\ mid h' fl' n0 n N0 D0' P' Q' /\
    ents P' ++ ents Q' ≡ₚ (key, val) :: ents P ++ ents Q /\ P' ⊆ P /\ same_shape h h'.
Proof.
  induction fuel as [|fuel IH]; intros h fl n0 n N0 D0 P Q key val M Hsz Hf;
    (edestruct (kick_step) as (x & fl' & h' & D' & HQ & Hsh & M' & E); [exact M|lia|]);
    (destruct (P !! x) as [[k' v']|] eqn:EP;
      [|rewrite delete_id in M' by done; exists fl', h', D', P, (<[x := (key, val)]> Q);
        split; [exact E|]; split; [done|]; rewrite ents_insert by done;
        split; [symmetry; apply Permutation_middle|done]]).
  - exfalso. pose proof (size_take P x _ EP). lia.
  - assert (Hs : base.size P = S (base.size (delete x P))).
    { rewrite map_size_delete_Some by (by eexists). assert (base.size P <> 0%nat); [|lia]. eapply (map_size_ne_0_lookup_2 _ x). by eexists. }
    assert (Hs2 : base.size (<[x := (key, val)]> Q) = S (base.size Q)) by (by apply map_size_insert_None).
    destruct (IH h' fl' n0 n N0 D' (delete x P) (<[x := (key, val)]> Q) k' v' M') as (fl2 & h2 & D2 & P2 & Q2 & E2 & M2 & Hp & Hs3 & Hsh2);
      [lia|lia|].
    exists fl2, h2, D2, P2, Q2. rewrite E. split; [done|]. split; [done|]. split; [|split].
    + rewrite Hp, ents_insert by done. rewrite (ents_delete P x (k', v') EP). cbn.
      rewrite <- Permutation_middle. apply perm_swap.
    + etransitivity; [exact Hs3|]. apply delete_subseteq.
    + by eapply same_shape_trans.
Qed.

(** An old entry is taken out of its bucket. *)
Lemma mid_take h (fl fo : list Z) (n0 n j : Z) (N0 D0 : gset Z) P Q : mid h fl n0 n N0 D0 P Q ->
  flags_are fo n0 N0 ({[j]} ∪ D0) -> mid (set_flags fo h) fl n0 n N0 ({[j]} ∪ D0) (delete j P) Q.
Proof.
  intros M Hfo. split; cbn; try apply M; try done.
  - rewrite dom_delete_L, (m_dom _ _ _ _ _ _ _ _ M). set_solver.
  - intros i k v [_ Hi]%lookup_delete_Some. by apply (m_stored _ _ _ _ _ _ _ _ M).
  - intros i Hi. apply (m_disjoint _ _ _ _ _ _ _ _ M). set_solver.
Qed.

Lemma below_size (n : Z) P : 0 <= n -> below n (dom P) -> Z.of_nat (base.size P) <= n.
Proof.
  intros Hn Hb. rewrite <- (size_range n Hn), <- (size_dom (D := gset Z)). apply inj_le, subseteq_size.
  intros i Hi. apply elem_of_range. by apply Hb.
Qed.

Lemma mid_below h fl (n0 n : Z) N0 D0 P Q : mid h fl n0 n N0 D0 P Q -> below n0 (dom P).
Proof.
  intros M i. rewrite (m_dom _ _ _ _ _ _ _ _ M). intros [Hi _]%elem_of_difference. by apply (m_below _ _ _ _ _ _ _ _ M).
Qed.

Lemma rehash_loop_ok (todo : nat) : forall h fl n0 n N0 D0 P Q (j : Z),
  mid h fl n0 n N0 D0 P Q -> 0 <= j -> j + Z.of_nat todo = n0 -> (forall i, i ∈ dom P -> j <= i) ->
  Z.of_nat (base.size P) + Z.of_nat (base.size Q) < n ->
  exists fl' h' D' Q', rehash_loop todo fl n j h = Ret fl' h' /\ mid h' fl' n0 n N0 D' ∅ Q' /\
    ents Q' ≡ₚ ents P ++ ents Q /\ same_shape h h'.
Proof.
  induction todo as [|todo IH]; intros h fl n0 n N0 D0 P Q j M Hj Hn0 Hfrom Hsz; cbn [rehash_loop].
  - assert (P = ∅) as ->.
    { apply dom_empty_inv_L. apply set_eq. intros i. split; [|set_solver]. intros Hi.
      pose proof (Hfrom i Hi). apply (mid_below _ _ _ _ _ _ _ _ M) in Hi. lia. }
    exists fl, h, D0, Q. split; [done|]. split; [done|]. split; [done|]. repeat split.
  - rewrite (bind_Ret get _ _ _ _ eq_refl).
    rewrite (bind_Ret _ _ _ _ _ (iseither_ok _ _ _ _ j (m_old _ _ _ _ _ _ _ _ M) ltac:(lia) h)).
    rewrite bool_decide_not, <- (m_dom _ _ _ _ _ _ _ _ M). destruct (P !! j) as [[k v]|] eqn:EP.
    + rewrite bool_decide_true by (by apply elem_of_dom). cbn [negb].
      destruct (m_stored _ _ _ _ _ _ _ _ M j k v EP) as [Ek Ev].
      destruct (set_isdel_true_ok (flags h) n0 N0 D0 j (m_old _ _ _ _ _ _ _ _ M) ltac:(lia) h) as (fo & Ef & Hfo).
      pose proof (mid_take h fl fo n0 n j N0 D0 P Q M Hfo) as M1.
      pose proof (size_take P j _ EP) as Hs.
      destruct (kick_loop_ok (Z.to_nat n0) (set_flags fo h) fl n0 n N0 ({[j]} ∪ D0) (delete j P) Q k v M1)
        as (fl' & h' & D' & P' & Q' & E' & M' & Hp & Hsub & Hsh); [lia| |].
      { pose proof (below_size n0 (delete j P) ltac:(lia) (mid_below _ _ _ _ _ _ _ _ M1)). lia. }
      pose proof (Permutation_length Hp) as Hl. cbn [length] in Hl. rewrite !length_app, !ents_length in Hl.
      destruct (IH h' fl' n0 n N0 D' P' Q' (j + 1) M') as (fl2 & h2 & D2 & Q2 & E2 & M2 & Hp2 & Hsh2); [lia|lia| |lia|].
      { intros i Hi. apply (subseteq_dom _ _ Hsub) in Hi. rewrite dom_delete_L in Hi.
        apply elem_of_difference in Hi as [Hi Hne]. pose proof (Hfrom i Hi). assert (i <> j) by set_solver. lia. }
      exists fl2, h2, D2, Q2. split; [|split; [done|split]].
      * erewrite bind_Ret; [exact E2|].
        rewrite (bind_Ret _ _ _ _ _ (key_read h j k Ek)), (bind_Ret _ _ _ _ _ (val_read h j v Ev)), (bind_Ret _ _ _ _ _ Ef).
        rewrite (bind_Ret (put _) _ _ _ _ eq_refl), (m_n _ _ _ _ _ _ _ _ M). exact E'.
      * rewrite Hp2, Hp. rewrite (ents_delete P j (k, v) EP). done.
      * eapply same_shape_trans; [|exact Hsh2]. destruct Hsh as (H1 & H2 & H3). by repeat split.
    + rewrite bool_decide_false by (by apply not_elem_of_dom). cbn [negb].
      rewrite (bind_Ret (ret fl) _ _ _ _ eq_refl). apply (IH h fl n0 n N0 D0 P Q (j + 1) M); [lia|lia| |done].
      intros i Hi. pose proof (Hfrom i Hi). assert (i <> j); [|lia]. intros ->. apply elem_of_dom in Hi as [? ?]. congruence.
Qed.

(** *** Resizing *)

Lemma length_realloc {A} (n : Z) (l : list (option A)) : length (realloc n l) = Z.to_nat n.
Proof. unfold realloc. rewrite length_app, length_take, repeat_length. lia. Qed.

Lemma lookup_realloc {A} (n : Z) (l : list (option A)) (i : nat) (a : option A) : (i < Z.to_nat n)%nat ->
  l !! i = Some a -> realloc n l !! i = Some a.
Proof.
  intros Hi Ha. unfold realloc. rewrite lookup_app_l.
  - by rewrite lookup_take_lt.
  - apply lookup_lt_Some in Ha. rewrite length_take. lia.
Qed.

(** The arrays grown. *)
Lemma mid_start h (n0 n : Z) N D P h1 : repr h n0 N D P -> good n ->
  h1 = (if n0 <? n then set_vals (realloc n (vals h)) (set_keys (realloc n (keys h)) h) else h) ->
  mid h1 (empty_flags n) n0 n N D P ∅ /\ size h1 = size h /\
  length (keys h1) = Z.to_nat (Z.max n0 n) /\ length (vals h1) = Z.to_nat (Z.max n0 n).
Proof.
  intros R Hg ->. destruct (good_ok n Hg) as ([_ Hn] & _). destruct (r_prime h n0 N D P R) as [_ Hn0].
  pose proof (r_keys _ _ _ _ _ R) as Hk. pose proof (r_vals _ _ _ _ _ R) as Hv.
  assert (Hb0 : below n ∅) by (intros i; set_solver). pose proof (empty_flags_are n ltac:(lia)) as Hfl.
  destruct (Z.ltb_spec n0 n) as [Hlt|Hge]; (split; [|split; [done|cbn; rewrite ?length_realloc, ?Hk, ?Hv; lia]]);
    split; cbn; try apply R; try done; rewrite ?dom_empty_L, ?length_realloc, ?Hk, ?Hv; try done; try lia; try set_solver.
  intros i k v Hi. destruct (r_entry h n0 N D P R i k v Hi) as (Hi0 & _). cbn.
  destruct (r_stored _ _ _ _ _ R i k v Hi) as [E1 E2]. split; apply lookup_realloc; try done; lia.
Qed.

(** The arrays cut: the new table. *)
Lemma mid_end h fl (n0 n : Z) N0 D0 Q : mid h fl n0 n N0 D0 ∅ Q -> unique_keys Q ->
  size h = Z.of_nat (base.size Q) -> size h < upper_of n ->
  length (keys h) = Z.to_nat (Z.max n0 n) -> length (vals h) = Z.to_nat (Z.max n0 n) ->
  let h1 := if n <? n0 then set_vals (realloc n (vals h)) (set_keys (realloc n (keys h)) h) else h in
  repr (mkHash n (size h1) (size h1) (upper_of n) fl (keys h1) (vals h1)) n (dom Q) ∅ Q.
Proof.
  intros M Hu Hs Hup Hk Hv. cbv zeta. set (h1 := if n <? n0 then _ else h).
  assert (Hs1 : size h1 = size h) by (unfold h1; by destruct (n <? n0)).
  assert (Hl1 : length (keys h1) = Z.to_nat n /\ length (vals h1) = Z.to_nat n).
  { unfold h1. destruct (Z.ltb_spec n n0); cbn; rewrite ?length_realloc; lia. }
  split; cbn; rewrite ?Hs1; try apply M; try done; try apply Hl1.
  - set_solver.
  - intros i k v Hi. cbn. destruct (m_new_stored _ _ _ _ _ _ _ _ M i k v Hi) as [E1 E2].
    assert (Hi0 : 0 <= i < n) by (apply (m_new_below _ _ _ _ _ _ _ _ M); by apply elem_of_dom).
    unfold h1. destruct (n <? n0); [|done]. cbn. split; apply lookup_realloc; try done; lia.
  - by rewrite size_dom.
  - lia.
Qed.

Lemma dh_resize_eq h (req n : Z) (t : nat) : prime_scan 31 req = Some t -> prime_list !! S t = Some n ->
  dh_resize req h =
  if upper_of n <=? size h then Ret tt h
  else
    let h1 := if n_buckets h <? n then set_vals (realloc n (vals h)) (set_keys (realloc n (keys h)) h) else h in
    match rehash_loop (Z.to_nat (n_buckets h)) (empty_flags n) n 0 h1 with
    | Ret fl h2 =>
        let h3 := if n <? n_buckets h then set_vals (realloc n (vals h2)) (set_keys (realloc n (keys h2)) h2) else h2 in
        Ret tt (mkHash n (size h3) (size h3) (upper_of n) fl (keys h3) (vals h3))
    | Err s => Err s | Abort => Abort | Oob => Oob | Nofuel => Nofuel
    end.
Proof.
  intros Et En. unfold dh_resize. rewrite Et. rewrite (bind_Ret (of_option (Some t)) _ _ _ _ eq_refl), En.
  rewrite (bind_Ret (of_option (Some n)) _ _ _ _ eq_refl), (bind_Ret get _ _ _ _ eq_refl).
  destruct (upper_of n <=? size h); [done|]. destruct (n_buckets h <? n) eqn:E1;
    unfold bind, put, ret, modify; destruct (rehash_loop _ _ _ _ _); destruct (n <? n_buckets h) eqn:E2; done.
Qed.

(** Resizing to any size that has room keeps the entries and leaves no
    deletion marks. *)
Lemma dh_resize_ok h (n0 n req : Z) N D P (t : nat) : repr h n0 N D P ->
  prime_scan 31 req = Some t -> prime_list !! S t = Some n -> good n -> size h < upper_of n ->
  exists h' Q, dh_resize req h = Ret tt h' /\ repr h' n (dom Q) ∅ Q /\ contents Q = contents P /\
    n_occupied h' = size h.
Proof.
  intros R Et En Hg Hs. rewrite (dh_resize_eq h req n t Et En), (proj2 (Z.leb_gt _ _) Hs). cbv zeta.
  rewrite (r_n _ _ _ _ _ R). destruct (mid_start h n0 n N D P _ R Hg eq_refl) as (M & Hsz & Hlk & Hlv).
  set (h1 := if n0 <? n then _ else h) in *. pose proof (good_ok n Hg) as (Hp & Hup & _).
  pose proof (r_size _ _ _ _ _ R) as Hsp. destruct (r_prime h n0 N D P R) as [_ Hn0].
  destruct (rehash_loop_ok (Z.to_nat n0) h1 (empty_flags n) n0 n N D P ∅ 0 M) as (fl & h2 & D2 & Q & E & M2 & Hperm & Hsh1 & Hsh2 & Hsh3).
  { lia. } { lia. } { intros i Hi. apply (mid_below _ _ _ _ _ _ _ _ M) in Hi. lia. } { rewrite map_size_empty. lia. }
  rewrite E. assert (He : ents (∅ : gmap Z (K * option V)) = []) by reflexivity. rewrite He, app_nil_r in Hperm.
  destruct (contents_perm P Q (r_unique _ _ _ _ _ R) ltac:(done)) as [Hu Hc].
  assert (HsQ : base.size Q = base.size P) by (rewrite <- !ents_length; by apply Permutation_length).
  eexists _, Q. split; [reflexivity|]. split; [|split; [done|]].
  - eapply (mid_end h2 fl n0 n N D2 Q M2); [done|congruence|congruence|congruence|congruence].
  - cbn. destruct (n <? n0); cbn; congruence.
Qed.

Lemma dh_resize_zero (n req : Z) (t : nat) : prime_scan 31 req = Some t -> prime_list !! S t = Some n -> good n ->
  exists h', dh_resize req (hash_zero (K := K) (V := V)) = Ret tt h' /\ repr h' n ∅ ∅ ∅ /\ n_occupied h' = 0.
Proof.
  intros Et En Hg. pose proof (good_ok n Hg) as ([_ Hp] & Hup & _). rewrite (dh_resize_eq _ req n t Et En). cbn [size hash_zero].
  rewrite (proj2 (Z.leb_gt _ _)) by lia. cbv zeta. cbn [n_buckets hash_zero]. rewrite (proj2 (Z.ltb_lt 0 n)) by lia.
  rewrite (proj2 (Z.ltb_ge n 0)) by lia. cbn [rehash_loop Z.to_nat]. unfold ret. eexists. split; [reflexivity|]. split; [|done].
  split; cbn; rewrite ?length_realloc, ?dom_empty_L; try done; try set_solver; try lia.
  - apply empty_flags_are; lia.
  - apply NoDup_nil_2.
Qed.

Lemma scan_check : forallb (fun t => match prime_list !! t with
  | Some n => bool_decide (prime_scan 31 (n - 1) = Some (t - 1)%nat) && bool_decide (prime_scan 31 (n + 1) = Some t)
  | None => false end) (seq 1 29) = true.
Proof. vm_compute. reflexivity. Qed.

Lemma scan_around (t : nat) (n : Z) : (1 <= t <= 29)%nat -> prime_list !! t = Some n ->
  prime_scan 31 (n - 1) = Some (t - 1)%nat /\ prime_scan 31 (n + 1) = Some t.
Proof.
  intros Ht E. pose proof scan_check as Hc. rewrite forallb_forall in Hc. specialize (Hc t ltac:(apply in_seq; lia)).
  rewrite E in Hc. apply andb_true_iff in Hc as [H1 H2]. by apply bool_decide_eq_true in H1, H2.
Qed.

(** How many entries a table may have before one more is put in: beyond, the
    number of buckets would not fit the 32-bit arithmetic of a search. *)
Definition max_entries : Z := 805306370.

(** After [put_grow] there is room. *)
Lemma put_grow_ok h m : table h m -> Z.of_nat (base.size m) < max_entries ->
  exists h' n N D P, put_grow h = Ret tt h' /\ repr h' n N D P /\ m = contents P /\ n_occupied h' < upper_bound h'.
Proof.
  intros [[-> ->]|(n & N & D & P & R & ->)] Hmax.
  - assert (Hg : good 3) by (exists 1%nat; split; [lia|done]).
    destruct (dh_resize_zero 3 1 0 eq_refl eq_refl Hg) as (h' & E & R & Ho).
    exists h', 3, ∅, ∅, ∅. split; [exact E|]. split; [done|]. split; [done|]. rewrite Ho, (r_upper _ _ _ _ _ R). by vm_compute.
  - rewrite contents_size in Hmax by apply R. unfold put_grow. rewrite (bind_Ret get _ _ _ _ eq_refl).
    destruct (Z.leb_spec (upper_bound h) (n_occupied h)) as [Hfull|Hroom]; [|by exists h, n, N, D, P].
    pose proof (r_size _ _ _ _ _ R) as Hs. pose proof (r_occupied _ _ _ _ _ R) as Ho. pose proof (r_upper _ _ _ _ _ R) as Hu.
    pose proof (r_load _ _ _ _ _ R) as Hl. pose proof (r_good _ _ _ _ _ R) as (t & Ht & Et).
    destruct (good_ok n (r_good _ _ _ _ _ R)) as ([_ Hp] & Hup & Hup2).
    pose proof (subseteq_size (N ∖ D) N ltac:(set_solver)) as Hsub. rewrite <- (r_dom _ _ _ _ _ R), size_dom in Hsub.
    destruct (scan_around t n Ht Et) as [Sd Su].
    assert (E2 : u32 (Z.shiftl (size h) 1) = 2 * size h).
    { rewrite Z.shiftl_mul_pow2 by lia. unfold u32. rewrite Z.mod_small; lia. }
    rewrite E2, (r_n _ _ _ _ _ R). unfold u32. rewrite !Z.mod_small by lia.
    destruct (Z.ltb_spec (2 * size h) n) as [Hlt|Hge].
    + destruct (dh_resize_ok h n n (n - 1) N D P (t - 1) R Sd) as (h' & Q & E & R' & Hc & Ho'); [|apply R|lia|].
      { by replace (S (t - 1)) with t by lia. }
      exists h', n, (dom Q), ∅, Q. split; [done|]. split; [done|]. split; [done|]. rewrite Ho', (r_upper _ _ _ _ _ R'). lia.
    + destruct (next_size t Ht) as (n1 & n' & E1 & En' & Hc). rewrite Et in E1. injection E1 as <-.
      assert (Hups : upper_of n < upper_of n').
      { unfold size_check in Hc. repeat (apply andb_true_iff in Hc as [Hc ?]). by apply Z.ltb_lt. }
      assert (Ht29 : (t <= 28)%nat).
      { destruct (decide (t = 29%nat)) as [->|]; [|lia]. assert (n = 1610612741) by (vm_compute in Et; congruence).
        unfold max_entries in Hmax. lia. }
      destruct (dh_resize_ok h n n' (n + 1) N D P t R Su En') as (h' & Q & E & R' & Hc' & Ho'); [exists (S t); split; [lia|done]|lia|].
      exists h', n', (dom Q), ∅, Q. split; [done|]. split; [done|]. split; [done|]. rewrite Ho', (r_upper _ _ _ _ _ R'). lia.
Qed.
End Repr.

(** ** A table implements a finite map *)
Section Map.
Context {K V : Type} `{Countable K} `{!HashKey K}.
Implicit Types (h : Hash K V) (g : gmap K V) (m : gmap K (option V)).

(** How the program uses a table: the value of a new or old key is set
    through the iterator that [dh_put] returns; a key is looked up and its
    iterator compared with the end. *)
Inductive hash_op := Insert (k : K) (v : V) | Lookup (k : K) | Remove (k : K) | Clear.

Definition hash_run (o : hash_op) : M (Hash K V) (option V) :=
  match o with
  | Insert k v => let* xa := dh_put k in run* set_val (fst xa) v in ret None
  | Lookup k =>
      let* x := dh_get k in
      let* h := get in
      if x =? n_buckets h then ret None else let* v := dh_val x in ret (Some v)
  | Remove k => let* x := dh_get k in run* dh_del x in ret None
  | Clear => run* dh_clear in ret None
  end.

Fixpoint hash_runs (os : list hash_op) : M (Hash K V) (list (option V)) :=
  match os with
  | [] => ret []
  | o :: os => let* r := hash_run o in let* rs := hash_runs os in ret (r :: rs)
  end.

(** The same on a finite map. *)
Definition map_run (o : hash_op) g : option V * gmap K V :=
  match o with
  | Insert k v => (None, <[k := v]> g)
  | Lookup k => (g !! k, g)
  | Remove k => (None, delete k g)
  | Clear => (None, ∅)
  end.

Fixpoint map_runs (os : list hash_op) g : list (option V) * gmap K V :=
  match os with
  | [] => ([], g)
  | o :: os => let '(r, g) := map_run o g in let '(rs, g) := map_runs os g in (r :: rs, g)
  end.

(** The entries of the table are those of [g], all with a value. *)
Definition represents h g : Prop := table h (Some <$> g).

Lemma insert_ok h g (k : K) (v : V) : represents h g -> Z.of_nat (base.size g) < max_entries ->
  exists h', hash_run (Insert k v) h = Ret None h' /\ represents h' (<[k := v]> g).
Proof.
  intros Hr Hmax. destruct (put_grow_ok h (Some <$> g) Hr) as (h1 & n & N & D & P & E1 & R & Hc & Ho);
    [by rewrite map_size_fmap|].
  destruct (put_entry_ok h1 n N D P R k Ho) as (x & a & h2 & N2 & D2 & P2 & E2 & R2 & Hcase).
  assert (Hx : exists w, P2 !! x = Some (k, w) /\ <[k := Some v]> (contents P2) = Some <$> <[k := v]> g).
  { destruct Hcase as [([w Hw] & _ & ->)|(Hno & _ & Hx & w & ->)]; exists w.
    - split; [done|]. by rewrite <- Hc, fmap_insert.
    - split; [apply lookup_insert_eq|].
      destruct (contents_insert P x k w Hx (proj2 (contents_none P k (r_unique _ _ _ _ _ R)) Hno) (r_unique _ _ _ _ _ R)) as [_ ->].
      by rewrite insert_insert_eq, <- Hc, fmap_insert. }
  destruct Hx as (w & Hx & Hg). destruct (set_val_ok h2 n N2 D2 P2 R2 x k w v Hx) as (h3 & E3 & R3).
  exists h3. split.
  - cbn [hash_run]. unfold dh_put. rewrite (bind_Ret _ _ h h2 (x, a)); [by rewrite (bind_Ret _ _ _ _ _ E3)|].
    by rewrite (bind_Ret _ _ _ _ _ E1).
  - right. exists n, N2, D2, (<[x := (k, Some v)]> P2). split; [done|].
    destruct (contents_update P2 x k w (Some v) Hx (r_unique _ _ _ _ _ R2)) as [_ ->]. by rewrite Hg.
Qed.

(** What a lookup finds. *)
Lemma dh_get_entry h n N D P g (k : K) : repr h n N D P -> Some <$> g = contents P ->
  exists x, dh_get k h = Ret x h /\
    match g !! k with Some v => x <> n /\ P !! x = Some (k, Some v) | None => x = n end.
Proof.
  intros R Hc. destruct (dh_get_ok h n N D P R k) as (x & E & Hx). exists x. split; [done|].
  assert (Hl : (Some <$> g) !! k = contents P !! k) by (by rewrite Hc). rewrite lookup_fmap in Hl.
  destruct Hx as [[w Hw]|[-> Hno]].
  - assert (Hk : contents P !! k = Some w) by (apply contents_lookup; [apply R|by exists x]). rewrite Hk in Hl.
    destruct (g !! k) as [v|]; [|done]. cbn in Hl. injection Hl as <-. split; [|done].
    destruct (r_entry h n N D P R x k _ Hw) as (? & _). lia.
  - apply (contents_none P k (r_unique _ _ _ _ _ R)) in Hno. rewrite Hno in Hl. by destruct (g !! k).
Qed.

Lemma fmap_empty_inv g : Some <$> g = ∅ -> g = ∅.
Proof. apply fmap_empty_inv. Qed.

Lemma lookup_ok h g (k : K) : represents h g -> hash_run (Lookup k) h = Ret (g !! k) h.
Proof.
  cbn [hash_run]. intros [[-> ->%fmap_empty_inv]|(n & N & D & P & R & Hc)]; [by rewrite lookup_empty|].
  destruct (dh_get_entry h n N D P g k R Hc) as (x & E & Hx).
  rewrite (bind_Ret _ _ _ _ _ E), (bind_Ret get _ _ _ _ eq_refl), (r_n _ _ _ _ _ R).
  destruct (g !! k) as [v|]; [|by rewrite Hx, Z.eqb_refl]. destruct Hx as [Hne Hx]. rewrite (proj2 (Z.eqb_neq x n) Hne).
  unfold dh_val. rewrite bind_assoc, (bind_Ret _ _ _ _ _ (val_read h x _ (proj2 (r_stored _ _ _ _ _ R x k _ Hx)))). done.
Qed.

Lemma remove_ok h g (k : K) : represents h g ->
  exists h', hash_run (Remove k) h = Ret None h' /\ represents h' (delete k g).
Proof.
  cbn [hash_run]. intros [[-> Hg%fmap_empty_inv]|(n & N & D & P & R & Hc)].
  - exists hash_zero. split; [done|]. left. split; [done|]. by rewrite Hg, delete_empty, fmap_empty.
  - destruct (dh_get_entry h n N D P g k R Hc) as (x & E & Hx). rewrite (bind_Ret _ _ _ _ _ E).
    destruct (g !! k) as [v|] eqn:Eg.
    + destruct Hx as [Hne Hx]. destruct (del_ok h n N D P R x k (Some v) Hx) as (h' & E' & R').
      exists h'. split; [by rewrite (bind_Ret _ _ _ _ _ E')|]. right. exists n, N, ({[x]} ∪ D), (delete x P). split; [done|].
      destruct (contents_delete P x k (Some v) Hx (r_unique _ _ _ _ _ R)) as [_ ->]. by rewrite fmap_delete, Hc.
    + exists h. subst x. split.
      * unfold dh_del. rewrite bind_assoc, (bind_Ret get _ _ _ _ eq_refl), (r_n _ _ _ _ _ R), Z.eqb_refl. done.
      * rewrite delete_id by done. right. by exists n, N, D, P.
Qed.

Lemma clear_ok h g : represents h g -> exists h', hash_run Clear h = Ret None h' /\ represents h' ∅.
Proof.
  cbn [hash_run]. intros [[-> _]|(n & N & D & P & R & Hc)].
  - exists hash_zero. split; [done|]. left. by rewrite fmap_empty.
  - destruct (good_ok n (r_good _ _ _ _ _ R)) as ([_ Hp] & Hup & _).
    assert (Hfl : flags h <> []).
    { intros E. pose proof (fa_len _ _ _ _ (r_flags _ _ _ _ _ R)) as Hl. rewrite E in Hl. cbn [length] in Hl.
      Z.div_mod_to_equations. lia. }
    exists (set_counts 0 0 (set_flags (empty_flags n) h)). split.
    + unfold dh_clear. rewrite bind_assoc, (bind_Ret get _ _ _ _ eq_refl), (r_n _ _ _ _ _ R). by destruct (flags h).
    + right. exists n, ∅, ∅, ∅. split; [|by rewrite fmap_empty].
      split; cbn; try (by apply R); try done; try set_solver.
      * apply empty_flags_are; lia.
      * apply NoDup_nil_2.
      * rewrite (r_upper _ _ _ _ _ R). lia.
Qed.

Lemma hash_runs_ok (os : list hash_op) : forall h g, represents h g ->
  Z.of_nat (base.size g) + Z.of_nat (length os) <= max_entries ->
  exists h', hash_runs os h = Ret (fst (map_runs os g)) h' /\ represents h' (snd (map_runs os g)).
Proof.
  induction os as [|o os IH]; intros h g Hr Hmax; [by exists h|]. cbn [length] in Hmax.
  assert (Ho : exists h', hash_run o h = Ret (fst (map_run o g)) h' /\ represents h' (snd (map_run o g)) /\
    (base.size (snd (map_run o g)) <= S (base.size g))%nat).
  { destruct o as [k v|k|k|]; cbn [map_run fst snd].
    - destruct (insert_ok h g k v Hr) as (h' & E & Hr'); [lia|]. exists h'. split; [done|]. split; [done|].
      rewrite map_size_insert. destruct (g !! k); cbn; lia.
    - exists h. split; [by apply lookup_ok|]. split; [done|]. lia.
    - destruct (remove_ok h g k Hr) as (h' & E & Hr'). exists h'. split; [done|]. split; [done|].
      rewrite map_size_delete. destruct (g !! k); cbn; lia.
    - destruct (clear_ok h g Hr) as (h' & E & Hr'). exists h'. split; [done|]. split; [done|]. rewrite map_size_empty. lia. }
  destruct Ho as (h1 & E1 & Hr1 & Hs1). cbn [hash_runs map_runs]. destruct (map_run o g) as [r g1]. cbn [fst snd] in *.
  destruct (IH h1 g1 Hr1) as (h2 & E2 & Hr2); [lia|]. exists h2. destruct (map_runs os g1) as [rs g2]. cbn [fst snd] in *.
  split; [|done]. by rewrite (bind_Ret _ _ _ _ _ E1), (bind_Ret _ _ _ _ _ E2).
Qed.

(** *** Iteration *)
Lemma dh_entries_ok h n N D P g : repr h n N D P -> Some <$> g = contents P ->
  forall todo i, 0 <= i -> i + Z.of_nat todo = n ->
  exists l, dh_entries todo i h = Ret l h /\ NoDup l.*1 /\
    forall k v, (k, v) ∈ l <-> exists j, i <= j /\ P !! j = Some (k, Some v).
Proof.
  intros R Hc. induction todo as [|todo IH]; intros i Hi Hn; cbn [dh_entries].
  - exists []. split; [done|]. split; [apply NoDup_nil_2|]. intros k v. rewrite elem_of_nil. split; [done|].
    intros (j & Hj & Hp). destruct (r_entry h n N D P R j k _ Hp). lia.
  - unfold dh_exist. rewrite bind_assoc, (bind_Ret get _ _ _ _ eq_refl), bind_assoc.
    rewrite (bind_Ret _ _ _ _ _ (iseither_ok _ _ _ _ i (r_flags _ _ _ _ _ R) ltac:(lia) h)).
    rewrite (bind_Ret (ret _) _ _ _ _ eq_refl), bool_decide_not, negb_involutive, <- (r_dom _ _ _ _ _ R).
    destruct (IH (i + 1) ltac:(lia) ltac:(lia)) as (l & E & Hnd & Hl).
    destruct (P !! i) as [[k w]|] eqn:Ei.
    + rewrite bool_decide_true by (by apply elem_of_dom).
      assert (Hk : contents P !! k = Some w) by (apply contents_lookup; [apply R|by exists i]).
      rewrite <- Hc, lookup_fmap in Hk. destruct (g !! k) as [v|] eqn:Eg; [|done]. cbn in Hk. injection Hk as <-.
      destruct (r_stored _ _ _ _ _ R i k _ Ei) as [Ek Ev].
      exists ((k, v) :: l). split; [|split].
      * rewrite (bind_Ret _ _ _ _ _ (key_read h i k Ek)). unfold dh_val.
        rewrite bind_assoc, (bind_Ret _ _ _ _ _ (val_read h i _ Ev)). rewrite (bind_Ret (of_option (Some v)) _ _ _ _ eq_refl).
        by rewrite (bind_Ret _ _ _ _ _ E).
      * cbn. apply NoDup_cons. split; [|done]. intros ([k' v'] & -> & Hin)%list_elem_of_fmap. apply Hl in Hin as (j & Hj & Hp).
        cbn in *. assert (i = j) by (eapply (unique_inj P); [apply R|done|done]). lia.
      * intros k' v'. rewrite elem_of_cons, Hl. split.
        -- intros [[= -> ->]|(j & Hj & Hp)]; [by exists i|exists j; split; [lia|done]].
        -- intros (j & Hj & Hp). destruct (decide (j = i)) as [->|Hne]; [left; congruence|right; exists j; split; [lia|done]].
    + rewrite bool_decide_false by (by apply not_elem_of_dom). exists l. split; [done|]. split; [done|].
      intros k v. rewrite Hl. split; intros (j & Hj & Hp); exists j; (split; [|done]); [lia|].
      assert (j <> i) by congruence. lia.
Qed.

Lemma foreach_ok h g : represents h g -> exists l, dh_foreach h = Ret l h /\ l ≡ₚ map_to_list g.
Proof.
  intros [[-> Hg%fmap_empty_inv]|(n & N & D & P & R & Hc)].
  - exists []. split; [done|]. by rewrite Hg, map_to_list_empty.
  - destruct (good_ok n (r_good _ _ _ _ _ R)) as ([_ Hp] & _).
    destruct (dh_entries_ok h n N D P g R Hc (Z.to_nat n) 0) as (l & E & Hnd & Hl); [lia|lia|].
    exists l. split.
    + unfold dh_foreach. by rewrite (bind_Ret get _ _ _ _ eq_refl), (r_n _ _ _ _ _ R).
    + apply NoDup_Permutation; [by eapply NoDup_fmap_1|apply NoDup_map_to_list|]. intros [k v].
      rewrite Hl, elem_of_map_to_list. assert (Hk := contents_lookup P k (Some v) (r_unique _ _ _ _ _ R)).
      rewrite <- Hc, lookup_fmap in Hk. split.
      * intros (j & _ & Hj). assert (Some <$> g !! k = Some (Some v)) as Hs by (apply Hk; by exists j).
        destruct (g !! k); [|done]. cbn in Hs. congruence.
      * intros Hg. rewrite Hg in Hk. destruct (proj1 Hk eq_refl) as [j Hj]. exists j. split; [|done].
        destruct (r_entry h n N D P R j k _ Hj). lia.
Qed.

Lemma zero_represents : represents hash_zero ∅.
Proof. left. by rewrite fmap_empty. Qed.

(** C19: The hash table implements a finite map: any sequence of insertions,
    lookups, removals and clearings, from a table of zero bytes on, returns
    (no search and no rehash runs for ever, no access leaves the arrays, no
    memory is read before it was written) with the results a finite map gives,
    and iteration then visits exactly the entries of the map, each once. *)
Theorem hash_implements_map (os : list hash_op) : Z.of_nat (length os) <= max_entries ->
  exists h l, hash_runs os hash_zero = Ret (fst (map_runs os ∅)) h /\
    dh_foreach h = Ret l h /\ l ≡ₚ map_to_list (snd (map_runs os ∅)).
Proof.
  intros Hmax. destruct (hash_runs_ok os hash_zero ∅ zero_represents) as (h & E & Hr); [rewrite map_size_empty; lia|].
  destruct (foreach_ok h _ Hr) as (l & El & Hl). by exists h, l.
Qed.

Lemma represents_bounds h g : represents h g ->
  size h = Z.of_nat (base.size g) /\ size h <= n_occupied h <= upper_bound h /\ (n_buckets h = 0 /\ h = hash_zero \/
   exists n, n = n_buckets h /\ good n /\ upper_bound h = (77 * n + 50) / 100 /\ upper_bound h < n < 2 ^ 31 /\
     Z.of_nat (length (keys h)) = n /\ Z.of_nat (length (vals h)) = n /\ Z.of_nat (length (flags h)) = n / 16 + 1).
Proof.
  intros [[-> Hg%fmap_empty_inv]|(n & N & D & P & R & Hc)].
  - rewrite Hg, map_size_empty. split; [done|]. split; [done|]. by left.
  - pose proof (contents_size P (r_unique _ _ _ _ _ R)) as Hs. rewrite <- Hc, map_size_fmap in Hs.
    pose proof (r_size _ _ _ _ _ R). pose proof (r_occupied _ _ _ _ _ R). pose proof (r_load _ _ _ _ _ R).
    pose proof (subseteq_size (N ∖ D) N ltac:(set_solver)) as Hsub. rewrite <- (r_dom _ _ _ _ _ R), size_dom in Hsub.
    destruct (good_ok n (r_good _ _ _ _ _ R)) as ([_ Hp] & Hup & _).
    split; [congruence|]. split; [lia|]. right. exists n. split; [symmetry; apply R|]. split; [apply R|].
    rewrite (r_upper _ _ _ _ _ R), (r_keys _ _ _ _ _ R), (r_vals _ _ _ _ _ R), (fa_len _ _ _ _ (r_flags _ _ _ _ _ R)).
    split; [|split; [lia|split; [lia|split; [lia|Z.div_mod_to_equations; lia]]]].
    destruct (r_good _ _ _ _ _ R) as (t & Ht & Et). destruct (next_size t Ht) as (n' & m & E' & _ & Hck). rewrite Et in E'.
    injection E' as <-. unfold size_check in Hck. apply andb_true_iff in Hck as [_ Hck]. by apply Z.eqb_eq.
Qed.

(** C31: The sizes of a table stay in bounds: after any sequence of operations
    the entries, and the deletion marks with them, are at most the bound that
    the floating-point product of 0.77 gives, which is 77 percent of the
    buckets, rounded; this leaves an empty bucket in the arrays, whose lengths
    are the number of buckets, and in a search the 32-bit sum of a bucket and
    the step never wraps. *)
Theorem hash_bounds (os : list hash_op) : Z.of_nat (length os) <= max_entries ->
  exists h, hash_runs os hash_zero = Ret (fst (map_runs os ∅)) h /\
    size h = Z.of_nat (base.size (snd (map_runs os ∅))) /\ size h <= n_occupied h <= upper_bound h /\
    (n_buckets h = 0 \/
     upper_bound h = (77 * n_buckets h + 50) / 100 /\ upper_bound h < n_buckets h /\
     Z.of_nat (length (keys h)) = n_buckets h /\ Z.of_nat (length (vals h)) = n_buckets h /\
     Z.of_nat (length (flags h)) = n_buckets h / 16 + 1 /\
     forall (k : K) i, 0 <= i < n_buckets h ->
       let inc := u32 (1 + hash_func k mod u32 (n_buckets h - 1)) in
       i + inc < 2 ^ 32 /\ step (n_buckets h) inc i = (i + inc) mod n_buckets h).
Proof.
  intros Hmax. destruct (hash_runs_ok os hash_zero ∅ zero_represents) as (h & E & Hr); [rewrite map_size_empty; lia|].
  exists h. split; [done|]. destruct (represents_bounds h _ Hr) as (Hs & Ho & Hb). split; [done|]. split; [done|].
  destruct Hb as [[H0 _]|(n & -> & Hg & Hu & Hlt & Hk & Hv & Hf)]; [by left|right].
  do 5 (split; [done || lia|]). intros k i Hi. destruct (good_ok _ Hg) as (Hp & _). cbv zeta. rewrite inc_eq by done.
  pose proof (inc_bounds (n_buckets h) (hash_func k) Hp). split; [lia|]. by apply step_mod.
Qed.

Lemma scan_range : forallb (fun t => match prime_list !! t with Some p => 1610612741 <=? p | None => false end) (seq 29 3) = true.
Proof. reflexivity. Qed.

(** Where the scan of the list ends. *)
Lemma prime_scan_ok (req : Z) : 0 <= req -> forall t, (t < 32)%nat ->
  (forall n, prime_list !! S t = Some n -> req < n) ->
  exists t' p, prime_scan t req = Some t' /\ (t' <= t)%nat /\ prime_list !! t' = Some p /\ p <= req /\
    forall n, prime_list !! S t' = Some n -> req < n.
Proof.
  intros Hreq. induction t as [|t IH]; intros Ht Hnext; cbn [prime_scan].
  - exists 0%nat, 0. cbn [lookup list_lookup prime_list]. rewrite (proj2 (Z.ltb_ge _ _)) by lia. by repeat split.
  - destruct (lookup_lt_is_Some_2 prime_list (S t)) as [p Ep]; [cbn; lia|]. rewrite Ep.
    destruct (Z.ltb_spec req p) as [Hlt|Hge].
    + destruct (IH ltac:(lia)) as (t' & q & E & Hle & Hq); [intros n Hn; congruence|]. exists t', q. split; [done|]. split; [lia|done].
    + exists (S t), p. by repeat split.
Qed.

(** Resizing changes nothing but the buckets: whatever size is asked for,
    the table has the same entries afterwards.  When the first prime above
    that size has room for them it is the new number of buckets and no
    deletion marks are left; otherwise the table stays as it is.  The rehash
    works in the memory of the table. *)
Theorem resize_keeps_map h g (req : Z) : represents h g -> 0 <= req < 1610612741 ->
  exists t n h', prime_scan 31 req = Some t /\ prime_list !! S t = Some n /\ req < n /\
    dh_resize req h = Ret tt h' /\ represents h' g /\ size h' = size h /\
    if size h <? upper_of n then n_buckets h' = n /\ n_occupied h' = size h' else h' = h.
Proof.
  intros Hr Hreq. destruct (prime_scan_ok req ltac:(lia) 31 ltac:(lia)) as (t & p & Et & Ht & Ep & Hp & Hnext).
  { intros n Hn. apply lookup_lt_Some in Hn. cbn in Hn. lia. }
  assert (Ht28 : (t <= 28)%nat).
  { destruct (decide (t <= 28)%nat) as [|Hgt]; [done|]. pose proof scan_range as Hc. rewrite forallb_forall in Hc.
    specialize (Hc t ltac:(apply in_seq; lia)). rewrite Ep in Hc. apply Z.leb_le in Hc. lia. }
  destruct (next_size (S t) ltac:(lia)) as (n & m & En & _ & _).
  assert (Hg : good n) by (exists (S t); split; [lia|done]).
  destruct Hr as [[-> Hg0]|(n0 & N & D & P & R & Hc)].
  - destruct (dh_resize_zero (V := V) n req t Et En Hg) as (h' & E & R & Ho). exists t, n, h'. do 2 (split; [done|]).
    split; [by apply Hnext|]. split; [done|]. pose proof (r_size _ _ _ _ _ R) as Hs. rewrite map_size_empty in Hs.
    split; [right; exists n, ∅, ∅, ∅; split; [done|by rewrite Hg0]|]. split; [done|]. destruct (good_ok n Hg) as (_ & Hup & _). cbn [size hash_zero].
    rewrite (proj2 (Z.ltb_lt _ _)) by lia. split; [apply R|lia].
  - destruct (Z.ltb_spec (size h) (upper_of n)) as [Hlt|Hge].
    + destruct (dh_resize_ok h n0 n req N D P t R Et En Hg Hlt) as (h' & Q & E & R' & Hc' & Ho). exists t, n, h'.
      do 2 (split; [done|]). split; [by apply Hnext|]. split; [done|].
      assert (Hs : size h' = size h).
      { rewrite (r_size _ _ _ _ _ R'), (r_size _ _ _ _ _ R). rewrite <- !contents_size, Hc'; [done|apply R|apply R']. }
      split; [right; exists n, (dom Q), ∅, Q; split; [done|by rewrite Hc, Hc']|]. split; [done|].
      rewrite (proj2 (Z.ltb_lt _ _) Hlt). split; [apply R'|congruence].
    + exists t, n, h. do 2 (split; [done|]). split; [by apply Hnext|]. rewrite (dh_resize_eq h req n t Et En), (proj2 (Z.leb_le _ _)) by lia.
      split; [done|]. split; [right; by exists n0, N, D, P|]. split; [done|].
      by rewrite (proj2 (Z.ltb_ge _ _) Hge).
Qed.
End Map.

(** ** Samples *)

(** Names as the server's table of services holds them; two removals leave
    deletion marks, and the table grows twice. *)
Definition sample_hash_ops : list (hash_op (K := list Z) (V := Z)) :=
  [Lookup (str "a"); Insert (str "org.a") 1; Insert (str "org.b") 2; Insert (str ":1.0") 3; Insert (str ":1.1") 4;
   Remove (str "org.a"); Lookup (str "org.a"); Insert (str "x") 5; Insert (str "y") 6; Insert (str "z") 7;
   Insert (str "org.b") 8; Insert (str ":1.2") 9; Insert (str ":1.3") 10; Remove (str "y"); Insert (str ":1.4") 11;
   Lookup (str "org.b"); Lookup (str ":1.3"); Lookup (str "y")].

Definition sample_hash : Hash (list Z) Z :=
  match hash_runs (HashKey0 := str_key) sample_hash_ops hash_zero with Ret _ h => h | _ => hash_zero end.

Lemma hash_implements_map_witness : exists h l,
  hash_runs (HashKey0 := str_key) sample_hash_ops hash_zero =
    Ret [None; None; None; None; None; None; None; None; None; None; None; None; None; None; None; Some 8; Some 10; None] h /\
  dh_foreach h = Ret l h /\
  l ≡ₚ [(str "org.b", 8); (str ":1.0", 3); (str ":1.1", 4); (str "x", 5); (str "z", 7); (str ":1.2", 9);
        (str ":1.3", 10); (str ":1.4", 11)].
Proof.
  destruct (hash_implements_map (HashKey0 := str_key) sample_hash_ops) as (h & l & E & El & Hl); [by vm_compute|].
  exists h, l. split; [rewrite E; vm_compute; reflexivity|]. split; [exact El|]. rewrite Hl.
  apply (bool_decide_unpack _). vm_compute. exact I.
Defined.

Lemma hash_bounds_witness : exists h,
  hash_runs (HashKey0 := str_key) sample_hash_ops hash_zero = Ret (fst (map_runs sample_hash_ops ∅)) h /\
  size h = 8 /\ n_buckets h = 23.
Proof.
  destruct (hash_bounds (HashKey0 := str_key) sample_hash_ops) as (h & E & Hs & _ & Hb); [by vm_compute|].
  exists h. split; [exact E|]. split; [rewrite Hs; vm_compute; reflexivity|].
  assert (Eh : h = sample_hash) by (unfold sample_hash; by rewrite E). rewrite Eh. vm_compute. reflexivity.
Defined.

Lemma resize_keeps_map_witness : exists h',
  dh_resize (H := str_key) 22 sample_hash = Ret tt h' /\ represents (HashKey0 := str_key) h' (snd (map_runs sample_hash_ops ∅)) /\
  n_buckets sample_hash = 23 /\ n_occupied sample_hash = 9 /\ n_buckets h' = 23 /\ n_occupied h' = 8.
Proof.
  assert (Hr : represents (HashKey0 := str_key) sample_hash (snd (map_runs sample_hash_ops ∅))).
  { destruct (hash_runs_ok (HashKey0 := str_key) sample_hash_ops hash_zero ∅ zero_represents) as (h & E & Hr); [by vm_compute|].
    unfold sample_hash. by rewrite E. }
  destruct (resize_keeps_map (HashKey0 := str_key) sample_hash _ 22 Hr) as (t & n & h' & Et & En & _ & E & Hr' & _); [lia|].
  exists h'. split; [exact E|]. split; [exact Hr'|]. split; [vm_compute; reflexivity|].
  vm_compute in E. injection E as <-. repeat split; vm_compute; reflexivity.
Defined.
