(* ===== verification/DList.v ===== *)
(** Intrusive doubly linked lists (include/c/dmem/list.h): the plain lists
    ([dl_]) and those that keep the next element while they are iterated
    ([dil_]).  They are shown to implement lists, and iteration to visit every
    element when the body removes any but the next one. *)

From Stdlib Require Import ZArith Lia.
From stdpp Require Import base option list numbers gmap.
From S2P Require Import Prelude.
#[local] Open Scope Z_scope.
#[local] Open Scope adbus_scope.

(** ** Handles

    The handle of a list head or of an element is named by a number; an
    element is named by its handle, as the offset between them is fixed.  The
    [iter] field holds the next element in a head, and in an element a pointer
    to the field of its head. *)
Definition id : Type := nat.
Inductive iterval := Cursor (c : option id) | Owner (head : id).
Record handle := mkHandle { next : option id; prev : option id; iter : iterval }.
Notation Heap := (gmap id handle).

Definition set_next (n : option id) (h : handle) : handle := mkHandle n (prev h) (iter h).
Definition set_prev (p : option id) (h : handle) : handle := mkHandle (next h) p (iter h).
Definition set_iter (i : iterval) (h : handle) : handle := mkHandle (next h) (prev h) i.

Definition node (a : id) : M Heap handle := let* m := get in of_option (m !! a).
Definition upd (a : id) (f : handle -> handle) : M Heap unit := let* h := node a in modify (fun m => <[a := f h]> m).
Definition upd_if (a : option id) (f : handle -> handle) : M Heap unit := match a with Some a => upd a f | None => ret tt end.

(** ** Plain lists *)
Definition dl_init (head : id) : M Heap unit := upd head (fun h => set_prev None (set_next None h)).
Definition dl_isempty (head : id) : M Heap bool := let* h := node head in ret (match next h with None => true | Some _ => false end).

Definition dl_remove (v : id) : M Heap unit :=
  let* h := node v in
  run* upd_if (next h) (set_prev (prev h)) in
  let* h := node v in
  run* upd_if (prev h) (set_next (next h)) in
  run* upd v (set_next None) in
  upd v (set_prev None).

Definition dl_insert_after (head v : id) : M Heap unit :=
  run* upd v (set_prev (Some head)) in
  let* hd := node head in
  run* upd v (set_next (next hd)) in
  run* upd head (set_next (Some v)) in
  let* h := node v in
  upd_if (next h) (set_prev (Some v)).

Definition dl_insert_before (head v : id) : M Heap unit :=
  let* hd := node head in
  run* upd v (set_prev (prev hd)) in
  run* upd v (set_next (Some head)) in
  run* upd head (set_prev (Some v)) in
  let* h := node v in
  upd_if (prev h) (set_next (Some v)).

(** ** Lists with an iterator *)
Definition dil_init (head : id) : M Heap unit := run* dl_init head in upd head (set_iter (Cursor None)).
Definition dil_isempty (head : id) : M Heap bool := dl_isempty head.
Definition dil_setiter (head : id) (v : option id) : M Heap unit := upd head (set_iter (Cursor v)).
Definition dil_getiter (head : id) : M Heap (option id) :=
  let* h := node head in match iter h with Cursor c => ret c | Owner _ => oob end.

Definition dil_remove (v : id) : M Heap unit :=
  let* h := node v in
  run* (match iter h with
        | Cursor None => ret tt
        | Cursor (Some _) => oob
        | Owner hd =>
            let* c := dil_getiter hd in
            if bool_decide (c = Some v) then dil_setiter hd None else ret tt
        end) in
  run* dl_remove v in
  upd v (set_iter (Cursor None)).

Definition dil_insert_after (head v : id) : M Heap unit :=
  run* upd v (set_iter (Owner head)) in dl_insert_after head v.

Definition dil_insert_before (head v : id) : M Heap unit :=
  run* upd v (set_iter (Owner head)) in dl_insert_before head v.

(** [DIL_FOREACH]: the result is the list of elements the body ran on. *)
Fixpoint foreach_loop (fuel : nat) (head : id) (body : id -> M Heap unit) (i : option id) : M Heap (list id) :=
  match fuel with
  | O => nofuel
  | S fuel =>
      let* n := (match i with Some v => let* h := node v in ret (next h) | None => ret None end) in
      run* dil_setiter head n in
      match i with
      | None => ret []
      | Some v =>
          run* body v in
          let* j := dil_getiter head in
          let* r := foreach_loop fuel head body j in
          ret (v :: r)
      end
  end.
Definition DIL_FOREACH (fuel : nat) (head : id) (body : id -> M Heap unit) : M Heap (list id) :=
  run* dil_setiter head None in
  let* h := node head in
  foreach_loop fuel head body (next h).

(** ** The abstract list

    [dlist m head l]: the list at [head] has the elements [l]. *)
Definition links (n : list id) (i : nat) (h : handle) : Prop :=
  next h = n !! S i /\ prev h = match i with O => None | S j => n !! j end.

Record dlist (m : Heap) (head : id) (l : list id) : Prop := {
  d_nodup : NoDup (head :: l);
  d_links : forall i a, (head :: l) !! i = Some a -> exists h, m !! a = Some h /\ links (head :: l) i h;
  d_cursor : exists h c, m !! head = Some h /\ iter h = Cursor c;
  d_owner : forall a, a ∈ l -> exists h, m !! a = Some h /\ iter h = Owner head }.

(** The element an iteration goes to next. *)
Definition cursor (m : Heap) (head : id) : option id :=
  match m !! head with Some h => match iter h with Cursor c => c | Owner _ => None end | None => None end.

Lemma node_run (m : Heap) (a : id) (h : handle) : m !! a = Some h -> node a m = Ret h m.
Proof. intros E. unfold node, bind, get. by rewrite E. Qed.

Lemma upd_run (m : Heap) (a : id) (f : handle -> handle) (h : handle) : m !! a = Some h -> upd a f m = Ret tt (<[a := f h]> m).
Proof. intros E. unfold upd. by rewrite (bind_Ret _ _ _ _ _ (node_run m a h E)). Qed.

Lemma setiter_run (m : Heap) (head : id) (h : handle) (v : option id) : m !! head = Some h ->
  dil_setiter head v m = Ret tt (<[head := set_iter (Cursor v) h]> m).
Proof. apply upd_run. Qed.

Lemma getiter_run (m : Heap) (head : id) (l : list id) : dlist m head l -> dil_getiter head m = Ret (cursor m head) m.
Proof.
  intros D. destruct (d_cursor _ _ _ D) as (h & c & Hh & Hc). unfold dil_getiter, cursor. by rewrite (bind_Ret _ _ _ _ _ (node_run m head h Hh)), Hh, Hc.
Qed.

(** Setting the cursor changes nothing else. *)
Lemma dlist_setiter (m : Heap) (head : id) (l : list id) (h : handle) (c : option id) : dlist m head l -> m !! head = Some h ->
  dlist (<[head := set_iter (Cursor c) h]> m) head l /\ cursor (<[head := set_iter (Cursor c) h]> m) head = c.
Proof.
  intros D Hh. split; [|unfold cursor; by rewrite lookup_insert_eq]. split; [apply D| | |].
  - intros i a Hi. destruct (d_links _ _ _ D i a Hi) as (x & Hx & Hl). rewrite lookup_insert. case_decide; [|by exists x].
    subst a. eexists. split; [done|]. assert (x = h) as -> by congruence. exact Hl.
  - eexists _, c. by rewrite lookup_insert_eq.
  - intros a Ha. pose proof (d_nodup _ _ _ D) as [Hni _]%NoDup_cons. rewrite lookup_insert_ne by (intros <-; done). by apply (d_owner _ _ _ D).
Qed.

(** *** Inserting *)

(** The handles after [v] went in behind [head]. *)
Definition inserted (m : Heap) (head v : id) (hd hv : handle) : Heap :=
  let m1 := <[head := set_next (Some v) hd]> (<[v := mkHandle (next hd) (Some head) (Owner head)]> m) in
  match next hd with
  | Some b => match m1 !! b with Some hb => <[b := set_prev (Some v) hb]> m1 | None => m1 end
  | None => m1
  end.

Lemma first_lookup (m : Heap) (head : id) (l : list id) : dlist m head l -> exists h, m !! head = Some h /\ next h = l !! 0%nat /\ prev h = None.
Proof. intros D. destruct (d_links _ _ _ D 0%nat head eq_refl) as (h & Hh & Hn & Hp). by exists h. Qed.

Lemma insert_run (m : Heap) (head v : id) (l : list id) (hv : handle) : dlist m head l -> m !! v = Some hv -> v ∉ head :: l ->
  exists hd, m !! head = Some hd /\ dil_insert_after head v m = Ret tt (inserted m head v hd hv).
Proof.
  intros D Hv Hni. destruct (first_lookup m head l D) as (hd & Hhd & Hn & _). exists hd. split; [done|].
  assert (Hne : v <> head) by (intros ->; apply Hni; left).
  unfold dil_insert_after, dl_insert_after. rewrite (bind_Ret _ _ _ _ _ (upd_run m v _ hv Hv)).
  erewrite bind_Ret by (apply upd_run; apply lookup_insert_eq). rewrite insert_insert_eq.
  erewrite bind_Ret by (apply node_run; rewrite lookup_insert_ne by done; exact Hhd).
  erewrite bind_Ret by (apply upd_run; apply lookup_insert_eq). rewrite insert_insert_eq. cbn [set_prev set_iter set_next next prev iter].
  erewrite bind_Ret by (apply upd_run; rewrite lookup_insert_ne by done; exact Hhd).
  erewrite bind_Ret by (apply node_run; rewrite lookup_insert_ne by done; apply lookup_insert_eq). cbn [next upd_if].
  unfold inserted. set (m1 := <[head := _]> _). rewrite Hn. destruct (l !! 0%nat) as [b|] eqn:Eb; [|done]. cbn [upd_if].
  destruct (d_links _ _ _ D 1%nat b Eb) as (hb & Hb & _).
  assert (Hb1 : m1 !! b = Some hb).
  { unfold m1. rewrite !lookup_insert_ne; [done|intros <-; apply Hni; right; by apply list_elem_of_lookup_2 in Eb|].
    intros <-. pose proof (d_nodup _ _ _ D) as [H _]%NoDup_cons. apply H. by apply list_elem_of_lookup_2 in Eb. }
  rewrite Hb1. by apply upd_run.
Qed.

(** The handles that stay. *)
Lemma inserted_other (m : Heap) (head v : id) (hd hv : handle) (a : id) : a <> head -> a <> v -> next hd <> Some a ->
  inserted m head v hd hv !! a = m !! a.
Proof.
  intros H1 H2 H3. unfold inserted. set (m1 := <[head := _]> _). assert (E : m1 !! a = m !! a) by (unfold m1; by rewrite !lookup_insert_ne).
  destruct (next hd) as [b|]; [|done]. destruct (m1 !! b); [|done]. by rewrite lookup_insert_ne by congruence.
Qed.

Lemma inserted_at (m : Heap) (head v : id) (hd hv : handle) (b : id) : head <> v -> b <> head -> b <> v ->
  (next hd = Some b -> is_Some (m !! b)) -> next hd <> Some head -> next hd <> Some v ->
  inserted m head v hd hv !! head = Some (set_next (Some v) hd) /\
  inserted m head v hd hv !! v = Some (mkHandle (next hd) (Some head) (Owner head)) /\
  (next hd = Some b -> inserted m head v hd hv !! b = set_prev (Some v) <$> m !! b).
Proof.
  intros Hne Hb1 Hb2 Hs Hn1 Hn2. unfold inserted. set (m1 := <[head := _]> _).
  assert (E1 : m1 !! head = Some (set_next (Some v) hd)) by apply lookup_insert_eq.
  assert (E2 : m1 !! v = Some (mkHandle (next hd) (Some head) (Owner head))) by (unfold m1; rewrite lookup_insert_ne by done; apply lookup_insert_eq).
  assert (E3 : m1 !! b = m !! b) by (unfold m1; by rewrite !lookup_insert_ne).
  destruct (next hd) as [c|]; [|by split_and!]. destruct (m1 !! c) as [hc|] eqn:Ec.
  - rewrite !(lookup_insert_ne _ c) by congruence. split_and!; try done. intros [= ->]. rewrite lookup_insert_eq. by rewrite <- E3, Ec.
  - split_and!; try done. intros [= ->]. destruct (Hs eq_refl) as [x Hx]. congruence.
Qed.

Lemma inserted_ok (m : Heap) (head v : id) (l : list id) (hd hv : handle) : dlist m head l -> m !! head = Some hd -> v ∉ head :: l ->
  dlist (inserted m head v hd hv) head (v :: l) /\ cursor (inserted m head v hd hv) head = cursor m head.
Proof.
  intros D Hhd Hni. destruct (first_lookup m head l D) as (hd' & E & Hn & Hp). assert (hd' = hd) as -> by congruence. clear E.
  assert (Hne : head <> v) by (intros <-; apply Hni; left). pose proof (d_nodup _ _ _ D) as Hnd. pose proof Hnd as [Hhl Hl]%NoDup_cons.
  assert (Hvl : v ∉ l) by (intros H; apply Hni; by right).
  assert (Hn1 : next hd <> Some head) by (rewrite Hn; intros H; by apply Hhl, (list_elem_of_lookup_2 _ 0)).
  assert (Hn2 : next hd <> Some v) by (rewrite Hn; intros H; by apply Hvl, (list_elem_of_lookup_2 _ 0)).
  assert (Hat : forall b, b <> head -> b <> v -> (next hd = Some b -> is_Some (m !! b)) -> _) by (intros b H1 H2 H3; exact (inserted_at m head v hd hv b Hne H1 H2 H3 Hn1 Hn2)).
  set (m' := inserted m head v hd hv) in *.
  assert (Hb : forall i a, l !! i = Some a -> exists h, m !! a = Some h /\ links (head :: l) (S i) h /\
     m' !! a = Some (if decide (i = 0%nat) then set_prev (Some v) h else h)).
  { intros i a Hi. destruct (d_links _ _ _ D (S i) a Hi) as (h & Hh & Hlk). exists h. split; [done|]. split; [done|].
    assert (H1 : a <> head) by (intros ->; by apply Hhl, (list_elem_of_lookup_2 _ i)).
    assert (H2 : a <> v) by (intros ->; by apply Hvl, (list_elem_of_lookup_2 _ i)). case_decide as H0.
    - subst i. destruct (Hat a H1 H2 ltac:(by eexists)) as (_ & _ & H3). rewrite H3, Hh by congruence. done.
    - unfold m'. rewrite inserted_other; [done|done|done|]. rewrite Hn. intros H. by pose proof (NoDup_lookup _ _ _ _ Hl Hi H). }
  assert (Hhead : m' !! head = Some (set_next (Some v) hd) /\ m' !! v = Some (mkHandle (next hd) (Some head) (Owner head))).
  { destruct l as [|b l']; [unfold m', inserted; rewrite Hn; cbn; split; [apply lookup_insert_eq|rewrite lookup_insert_ne by done; apply lookup_insert_eq]|].
    destruct (Hb 0%nat b eq_refl) as (hb & Hhb & _). destruct (Hat b) as (H1 & H2 & _); [intros ->; apply Hhl; left|intros ->; apply Hvl; left|by eexists|done]. }
  destruct Hhead as [Eh Ev]. destruct (d_cursor _ _ _ D) as (h0 & c & Hh0 & Hc). assert (h0 = hd) as -> by congruence.
  split; [split|].
  - apply NoDup_cons. split; [intros [->|H]%elem_of_cons; done|]. by apply NoDup_cons.
  - intros [|[|i]] a Hi; cbn in Hi.
    + injection Hi as <-. eexists. split; [exact Eh|]. split; [done|exact Hp].
    + injection Hi as <-. eexists. split; [exact Ev|]. split; [exact Hn|done].
    + destruct (Hb i a Hi) as (h & _ & [L1 L2] & Em). eexists. split; [exact Em|]. destruct i; cbn in *; (split; [exact L1|done]).
  - eexists _, c. split; [exact Eh|exact Hc].
  - intros a [->|Ha]%elem_of_cons; [eexists; split; [exact Ev|done]|].
    apply list_elem_of_lookup in Ha as [i Hi]. destruct (Hb i a Hi) as (h & Hh & _ & Em). eexists. split; [exact Em|].
    destruct (d_owner _ _ _ D a ltac:(by apply (list_elem_of_lookup_2 _ i))) as (h' & Hh' & Ho). assert (h' = h) as -> by congruence. by case_decide.
  - unfold cursor. by rewrite Eh, Hhd.
Qed.

(** *** Removing *)

Definition alter_if (a : option id) (f : handle -> handle) (m : Heap) : Heap := match a with Some a => alter f a m | None => m end.

Lemma lookup_alter_if (o : option id) (f : handle -> handle) (m : Heap) (a : id) :
  alter_if o f m !! a = if decide (o = Some a) then f <$> m !! a else m !! a.
Proof.
  destruct o as [b|]; [|done]. cbn. case_decide as H; [injection H as ->; apply lookup_alter_eq|]. apply lookup_alter_ne. congruence.
Qed.

Lemma upd_if_run (m : Heap) (o : option id) (f : handle -> handle) : (forall a, o = Some a -> is_Some (m !! a)) ->
  upd_if o f m = Ret tt (alter_if o f m).
Proof.
  intros Hs. destruct o as [a|]; [|done]. destruct (Hs a eq_refl) as [h Hh]. cbn. rewrite (upd_run m a f h Hh). f_equal.
  apply map_eq. intros k. destruct (decide (a = k)) as [<-|Hne]; [by rewrite lookup_insert_eq, lookup_alter_eq, Hh|].
  by rewrite lookup_insert_ne, lookup_alter_ne.
Qed.

(** The handles after [v] went out. *)
Definition removed (m : Heap) (v : id) (hv : handle) : Heap :=
  <[v := mkHandle None None (Cursor None)]> (alter_if (prev hv) (set_next (next hv)) (alter_if (next hv) (set_prev (prev hv)) m)).

(** One position of a list less. *)
Lemma nodup_pos (n : list id) (i j : nat) (a : id) : NoDup n -> n !! i = Some a -> n !! j = Some a -> i = j.
Proof. apply NoDup_lookup. Qed.

Section Remove.
Context (m : Heap) (head v : id) (l1 l2 : list id) (D : dlist m head (l1 ++ v :: l2)).
Notation n := (head :: l1 ++ v :: l2).
Notation p := (S (length l1)).

Lemma at_v : n !! p = Some v.
Proof. exact (list_lookup_middle l1 l2 v _ eq_refl). Qed.

Lemma after_v : delete p n = head :: l1 ++ l2.
Proof. exact (delete_middle (head :: l1) l2 v). Qed.

Lemma handle_of (i : nat) (a : id) : n !! i = Some a -> exists h, m !! a = Some h /\ links n i h.
Proof. apply (d_links _ _ _ D). Qed.

Lemma removed_lookup (hv : handle) (i : nat) (a : id) (h : handle) : m !! v = Some hv -> n !! i = Some a -> i <> p -> m !! a = Some h ->
  removed m v hv !! a = Some (mkHandle (if decide (S i = p) then next hv else next h) (if decide (i = S p) then prev hv else prev h) (iter h)).
Proof.
  intros Hv Hi Hne Hh. pose proof (d_nodup _ _ _ D) as Hnd. destruct (handle_of p v at_v) as (hv' & Hv' & L1 & L2). assert (hv' = hv) as -> by congruence.
  assert (a <> v) by (intros ->; by apply Hne, (nodup_pos _ _ _ _ Hnd Hi at_v)).
  unfold removed. rewrite lookup_insert_ne, !lookup_alter_if by done. rewrite Hh.
  assert (D1 : prev hv = Some a <-> S i = p).
  { rewrite L2. split; [intros H1; by rewrite (nodup_pos _ _ _ _ Hnd Hi H1)|intros [= ->]; exact Hi]. }
  assert (D2 : next hv = Some a <-> i = S p).
  { rewrite L1. split; [intros H1; by rewrite (nodup_pos _ _ _ _ Hnd Hi H1)|intros ->; exact Hi]. }
  repeat case_decide; try tauto; cbn; try done; by destruct h.
Qed.

Lemma removed_ok (hv : handle) : m !! v = Some hv -> dlist (removed m v hv) head (l1 ++ l2) /\ cursor (removed m v hv) head = cursor m head.
Proof.
  intros Hv. pose proof (d_nodup _ _ _ D) as Hnd. destruct (handle_of p v at_v) as (hv' & Hv' & L1 & L2). assert (hv' = hv) as -> by congruence. clear Hv'.
  assert (Hold : forall i, (head :: l1 ++ l2) !! i = if decide (i < p)%nat then n !! i else n !! S i).
  { intros i. rewrite <- after_v. case_decide; [by apply list_lookup_delete_lt|apply list_lookup_delete_ge; lia]. }
  destruct (d_cursor _ _ _ D) as (h0 & c & Hh0 & Hc).
  pose proof (removed_lookup hv 0%nat head h0 Hv eq_refl ltac:(lia) Hh0) as E0.
  assert (Hin : forall a, a ∈ l1 ++ l2 -> a ∈ l1 ++ v :: l2) by (intros a [?|?]%elem_of_app; apply elem_of_app; [by left|right; by right]).
  split; [split|].
  - rewrite <- after_v. apply (sublist_NoDup _ n); [done|apply sublist_delete].
  - intros i a Hi. rewrite Hold in Hi. destruct (decide (i < p)%nat) as [Hlt|Hge].
    + destruct (handle_of i a Hi) as (h & Hh & K1 & K2). eexists. split; [apply (removed_lookup hv i a h); try done; lia|].
      split; cbn [next prev].
      * rewrite Hold. destruct (decide (S i = p)) as [E|E]; [rewrite decide_False by lia; by rewrite L1, E|rewrite decide_True by lia; exact K1].
      * rewrite decide_False by lia. rewrite K2. destruct i; [done|]. rewrite Hold, decide_True by lia. done.
    + destruct (handle_of (S i) a Hi) as (h & Hh & K1 & K2). eexists. split; [apply (removed_lookup hv (S i) a h); try done; lia|].
      split; cbn [next prev].
      * rewrite decide_False by lia. rewrite Hold, decide_False by lia. exact K1.
      * destruct i as [|i]; [lia|]. rewrite Hold. destruct (decide (S (S i) = S p)) as [E|E].
        -- rewrite decide_True by lia. rewrite L2. f_equal. lia.
        -- rewrite decide_False by lia. exact K2.
  - eexists _, c. split; [exact E0|exact Hc].
  - intros a Ha. destruct (d_owner _ _ _ D a (Hin a Ha)) as (h & Hh & Ho). apply list_elem_of_lookup in Ha as [i Hi].
    assert (Hi' : (head :: l1 ++ l2) !! S i = Some a) by exact Hi. rewrite Hold in Hi'. destruct (decide (S i < p)%nat) as [Hlt|Hge].
    + eexists. split; [apply (removed_lookup hv (S i) a h); try done; lia|done].
    + eexists. split; [apply (removed_lookup hv (S (S i)) a h); try done; lia|done].
  - unfold cursor. by rewrite E0, Hh0.
Qed.

Lemma dl_remove_run (hv : handle) : m !! v = Some hv ->
  (run* dl_remove v in upd v (set_iter (Cursor None))) m = Ret tt (removed m v hv).
Proof.
  intros Hv. pose proof (d_nodup _ _ _ D) as Hnd. destruct (handle_of p v at_v) as (hv' & Hv' & L1 & L2). assert (hv' = hv) as -> by congruence. clear Hv'.
  assert (Hnv : next hv <> Some v) by (rewrite L1; intros H; by pose proof (nodup_pos _ _ _ _ Hnd at_v H); lia).
  assert (Hpv : prev hv <> Some v) by (rewrite L2; intros H; by pose proof (nodup_pos _ _ _ _ Hnd at_v H); lia).
  assert (Hn : forall a, next hv = Some a -> is_Some (m !! a)) by (intros a Ha; rewrite L1 in Ha; destruct (handle_of _ a Ha) as (h & ? & _); by exists h).
  assert (Hp : forall a, prev hv = Some a -> is_Some (m !! a)) by (intros a Ha; rewrite L2 in Ha; destruct (handle_of _ a Ha) as (h & ? & _); by exists h).
  set (m1 := alter_if (next hv) (set_prev (prev hv)) m). set (m2 := alter_if (prev hv) (set_next (next hv)) m1).
  assert (E1 : m1 !! v = Some hv) by (unfold m1; by rewrite lookup_alter_if, decide_False).
  assert (E2 : m2 !! v = Some hv) by (unfold m2; by rewrite lookup_alter_if, decide_False).
  unfold dl_remove. rewrite bind_assoc, (bind_Ret _ _ _ _ _ (node_run m v hv Hv)), bind_assoc, (bind_Ret _ _ _ _ _ (upd_if_run m _ _ Hn)).
  fold m1. rewrite bind_assoc, (bind_Ret _ _ _ _ _ (node_run m1 v hv E1)), bind_assoc.
  rewrite (bind_Ret _ _ _ m2 tt) by (apply upd_if_run; intros a Ha; destruct (Hp a Ha) as [h Hh]; unfold m1; rewrite lookup_alter_if, Hh; case_decide; by eexists).
  rewrite bind_assoc, (bind_Ret _ _ _ _ _ (upd_run m2 v _ hv E2)). erewrite bind_Ret by (apply upd_run; apply lookup_insert_eq).
  rewrite insert_insert_eq. rewrite (upd_run _ v _ _ (lookup_insert_eq _ _ _)), insert_insert_eq. done.
Qed.
End Remove.

(** Handles of other lists. *)
Definition untouched (m m' : Heap) (n : list id) : Prop := forall a, a ∉ n -> m' !! a = m !! a.

Lemma removed_untouched (m : Heap) (head v : id) (l1 l2 : list id) (hv : handle) : dlist m head (l1 ++ v :: l2) -> m !! v = Some hv ->
  untouched m (removed m v hv) (head :: l1 ++ v :: l2).
Proof.
  intros D Hv a Ha. destruct (handle_of m head v l1 l2 D _ v (at_v head v l1 l2)) as (hv' & Hv' & L1 & L2). assert (hv' = hv) as -> by congruence.
  unfold removed. rewrite lookup_insert_ne, !lookup_alter_if, !decide_False; [done|rewrite L1|rewrite L2|];
    try (intros E; apply Ha; by apply list_elem_of_lookup_2 in E). intros <-. apply Ha. right. apply elem_of_app. right. left.
Qed.

Lemma dil_remove_ok (m : Heap) (head v : id) (l1 l2 : list id) : dlist m head (l1 ++ v :: l2) ->
  exists m', dil_remove v m = Ret tt m' /\ dlist m' head (l1 ++ l2) /\
    cursor m' head = (if decide (cursor m head = Some v) then None else cursor m head) /\ untouched m m' (head :: l1 ++ v :: l2).
Proof.
  intros D. destruct (d_owner _ _ _ D v) as (hv & Hv & Ho); [apply elem_of_app; right; left|].
  destruct (first_lookup m head _ D) as (hd & Hhd & _). pose proof (d_nodup _ _ _ D) as Hnd.
  assert (Hne : v <> head) by (intros ->; apply NoDup_cons in Hnd as [H _]; apply H, elem_of_app; right; left).
  unfold dil_remove. rewrite (bind_Ret _ _ _ _ _ (node_run m v hv Hv)), Ho, bind_assoc, (bind_Ret _ _ _ _ _ (getiter_run m head _ D)).
  case_decide as Hc; [rewrite bool_decide_eq_true_2 by done|rewrite bool_decide_eq_false_2 by done].
  - rewrite (bind_Ret _ _ _ _ _ (setiter_run m head hd None Hhd)). set (m1 := <[head := _]> m).
    destruct (dlist_setiter m head _ hd None D Hhd) as [D1 C1]. assert (Hv1 : m1 !! v = Some hv) by (unfold m1; by rewrite lookup_insert_ne).
    exists (removed m1 v hv). split; [by apply (dl_remove_run m1 head v l1 l2)|]. destruct (removed_ok m1 head v l1 l2 D1 hv Hv1) as [D2 C2].
    split; [done|]. split; [by rewrite C2|]. intros a Ha. rewrite (removed_untouched m1 head v l1 l2 hv D1 Hv1 a Ha). unfold m1.
    rewrite lookup_insert_ne; [done|]. intros <-. apply Ha. left.
  - rewrite (bind_Ret (ret tt) _ _ _ _ eq_refl). exists (removed m v hv). split; [by apply (dl_remove_run m head v l1 l2)|].
    destruct (removed_ok m head v l1 l2 D hv Hv) as [D2 C2]. split; [done|]. split; [done|by apply removed_untouched].
Qed.

Lemma dil_insert_ok (m : Heap) (head v : id) (l : list id) (hv : handle) : dlist m head l -> m !! v = Some hv -> v ∉ head :: l ->
  exists m', dil_insert_after head v m = Ret tt m' /\ dlist m' head (v :: l) /\ cursor m' head = cursor m head /\ untouched m m' (head :: v :: l).
Proof.
  intros D Hv Hni. destruct (insert_run m head v l hv D Hv Hni) as (hd & Hhd & E). exists (inserted m head v hd hv). split; [done|].
  destruct (inserted_ok m head v l hd hv D Hhd Hni) as [D' C']. split; [done|]. split; [done|]. intros a Ha.
  destruct (first_lookup m head l D) as (hd' & E' & Hn & _). assert (hd' = hd) as -> by congruence.
  apply inserted_other; [intros ->; apply Ha; left|intros ->; apply Ha; right; left|]. rewrite Hn. intros H. apply Ha. do 2 right. by apply (list_elem_of_lookup_2 _ 0).
Qed.

Lemma dil_init_ok (m : Heap) (head : id) (h : handle) : m !! head = Some h ->
  exists m', dil_init head m = Ret tt m' /\ dlist m' head [] /\ cursor m' head = None.
Proof.
  intros Hh. exists (<[head := mkHandle None None (Cursor None)]> m). split; [|split; [split|]].
  - unfold dil_init, dl_init. rewrite (bind_Ret _ _ _ _ _ (upd_run m head _ h Hh)), (upd_run _ head _ _ (lookup_insert_eq _ _ _)). by rewrite insert_insert_eq.
  - apply NoDup_singleton.
  - intros [|i] a Hi; [|done]. injection Hi as <-. eexists. by rewrite lookup_insert_eq.
  - eexists _, None. by rewrite lookup_insert_eq.
  - by intros a ?%elem_of_nil.
  - unfold cursor. by rewrite lookup_insert_eq.
Qed.

(** C21: the lists of list.h implement lists: an initialised head is the empty
    list, a list is empty when the code says so, inserting behind the head puts
    an element in front, removing an element takes it out wherever it is, and
    nothing that is not in the list is touched; an iteration in progress goes
    on to the same element, unless that element is removed. *)
Theorem dil_implements_list (m : Heap) (head : id) (l : list id) : dlist m head l ->
  dil_isempty head m = Ret (bool_decide (l = [])) m /\
  (forall v, v ∉ head :: l -> is_Some (m !! v) -> exists m', dil_insert_after head v m = Ret tt m' /\ dlist m' head (v :: l) /\
     cursor m' head = cursor m head /\ untouched m m' (head :: v :: l)) /\
  (forall v l1 l2, l = l1 ++ v :: l2 -> exists m', dil_remove v m = Ret tt m' /\ dlist m' head (l1 ++ l2) /\
     cursor m' head = (if decide (cursor m head = Some v) then None else cursor m head) /\ untouched m m' (head :: l)) /\
  (exists m', dil_init head m = Ret tt m' /\ dlist m' head [] /\ cursor m' head = None).
Proof.
  intros D. destruct (first_lookup m head l D) as (hd & Hhd & Hn & _). split; [|split; [|split]].
  - unfold dil_isempty, dl_isempty. rewrite (bind_Ret _ _ _ _ _ (node_run m head hd Hhd)), Hn. by destruct l.
  - intros v Hni [hv Hv]. by apply (dil_insert_ok m head v l hv).
  - intros v l1 l2 ->. by apply dil_remove_ok.
  - by apply (dil_init_ok m head hd).
Qed.

(** ** Iteration *)

Lemma next_of (m : Heap) (head v : id) (q r : list id) : dlist m head (q ++ v :: r) -> exists h, m !! v = Some h /\ next h = r !! 0%nat.
Proof.
  intros D. destruct (handle_of m head v q r D _ v (at_v head v q r)) as (h & Hh & L & _). exists h. split; [done|]. rewrite L.
  change ((q ++ v :: r) !! S (length q) = r !! 0%nat). rewrite lookup_app_r by lia. replace (S (length q) - length q)%nat with 1%nat by lia. reflexivity.
Qed.

Section Foreach.
Context (head : id) (body : id -> M Heap unit) (Q : list id -> list id -> Prop).

(** The body may do anything to the elements up to the current one and to
    those in front; it leaves the rest, and the element to go to, alone.  [Q]
    relates the elements visited and those in front of the rest. *)
Definition leaves_rest : Prop := forall d q v r m, Q d q -> dlist m head (q ++ v :: r) -> cursor m head = r !! 0%nat ->
  exists m' q', body v m = Ret tt m' /\ Q (d ++ [v]) q' /\ dlist m' head (q' ++ r) /\ cursor m' head = r !! 0%nat.

Lemma foreach_loop_ok (Hb : leaves_rest) (fuel : nat) : forall d q r m, (length r < fuel)%nat -> Q d q -> dlist m head (q ++ r) ->
  exists m' q', foreach_loop fuel head body (r !! 0%nat) m = Ret r m' /\ Q (d ++ r) q' /\ dlist m' head q'.
Proof.
  induction fuel as [|fuel IH]; intros d q r m Hf HQ D; [lia|]. destruct (first_lookup m head _ D) as (hd & Hhd & _). destruct r as [|v r].
  - cbn [foreach_loop lookup list_lookup]. rewrite app_nil_r in D |- *. cbn [lookup list_lookup].
    destruct (dlist_setiter m head q hd None D Hhd) as [D1 _]. eexists _, q. split; [|done].
    change ([] !! 0%nat) with (@None id). by rewrite (bind_Ret (ret None) _ _ _ _ eq_refl), (bind_Ret _ _ _ _ _ (setiter_run m head hd None Hhd)).
  - change ((v :: r) !! 0%nat) with (Some v). cbn [foreach_loop]. destruct (next_of m head v q r D) as (h & Hh & Hn).
    rewrite bind_assoc, (bind_Ret _ _ _ _ _ (node_run m v h Hh)), (bind_Ret (ret _) _ _ _ _ eq_refl), Hn.
    rewrite (bind_Ret _ _ _ _ _ (setiter_run m head hd _ Hhd)). destruct (dlist_setiter m head _ hd (r !! 0%nat) D Hhd) as [D1 C1].
    destruct (Hb d q v r _ HQ D1 C1) as (m2 & q2 & E2 & HQ2 & D2 & C2). rewrite (bind_Ret _ _ _ _ _ E2).
    rewrite (bind_Ret _ _ _ _ _ (getiter_run m2 head _ D2)), C2. cbn [length] in Hf.
    destruct (IH (d ++ [v]) q2 r m2 ltac:(lia) HQ2 D2) as (m3 & q3 & E3 & HQ3 & D3). rewrite <- app_assoc in HQ3.
    exists m3, q3. split; [|by split]. by rewrite (bind_Ret _ _ _ _ _ E3).
Qed.

(** C22: an iteration visits exactly the elements the list had at its start,
    each once and in order, and ends, whatever the body does to the current
    element and to those before it or put in front: it may remove them. *)
Theorem foreach_visits_all (Hb : leaves_rest) (m : Heap) (l : list id) (fuel : nat) : Q [] [] -> dlist m head l -> (length l < fuel)%nat ->
  exists m' q, DIL_FOREACH fuel head body m = Ret l m' /\ Q l q /\ dlist m' head q.
Proof.
  intros HQ D Hf. destruct (first_lookup m head l D) as (hd & Hhd & Hn & _). unfold DIL_FOREACH.
  rewrite (bind_Ret _ _ _ _ _ (setiter_run m head hd None Hhd)). destruct (dlist_setiter m head l hd None D Hhd) as [D1 _].
  erewrite bind_Ret by (apply node_run; apply lookup_insert_eq). cbn [next set_iter]. rewrite Hn.
  exact (foreach_loop_ok Hb fuel [] [] l _ Hf HQ D1).
Qed.
End Foreach.

(** Freeing every element in a loop, as [adbus_conn_deref] does. *)
Lemma remove_leaves_rest (head : id) : leaves_rest head dil_remove (fun _ q => q = []).
Proof.
  intros d q v r m -> D C. destruct (dil_remove_ok m head v [] r D) as (m' & E & D' & C' & _). exists m', [].
  split; [done|]. split; [done|]. split; [done|]. rewrite C'. case_decide as H; [|done]. rewrite C in H.
  pose proof (d_nodup _ _ _ D) as [_ [Hv _]%NoDup_cons]%NoDup_cons. destruct Hv. by apply (list_elem_of_lookup_2 _ 0).
Qed.

(** Removing the element after the current one ends the iteration: the
    elements behind it are not visited, against the comment of list.h. *)
Theorem foreach_ends_early (m : Heap) (head v w : id) (r : list id) (body : id -> M Heap unit) (fuel : nat) :
  dlist m head (v :: w :: r) -> body v = dil_remove w -> (2 <= fuel)%nat ->
  exists m', DIL_FOREACH fuel head body m = Ret [v] m' /\ dlist m' head (v :: r).
Proof.
  intros D Eb Hf. destruct fuel as [|[|fuel]]; [lia|lia|]. destruct (first_lookup m head _ D) as (hd & Hhd & Hn & _). unfold DIL_FOREACH.
  rewrite (bind_Ret _ _ _ _ _ (setiter_run m head hd None Hhd)). destruct (dlist_setiter m head _ hd None D Hhd) as [D1 _].
  erewrite bind_Ret by (apply node_run; apply lookup_insert_eq). cbn [next set_iter]. rewrite Hn. change ((v :: w :: r) !! 0%nat) with (Some v).
  set (m1 := <[head := _]> m) in *. destruct (first_lookup m1 head _ D1) as (hd1 & Hhd1 & _). destruct (next_of m1 head v [] (w :: r) D1) as (h & Hh & Hnx).
  cbn [foreach_loop]. rewrite bind_assoc, (bind_Ret _ _ _ _ _ (node_run m1 v h Hh)), (bind_Ret (ret _) _ _ _ _ eq_refl), Hnx.
  rewrite (bind_Ret _ _ _ _ _ (setiter_run m1 head hd1 _ Hhd1)). destruct (dlist_setiter m1 head _ hd1 ((w :: r) !! 0%nat) D1 Hhd1) as [D2 C2].
  rewrite Eb. destruct (dil_remove_ok _ head w [v] r D2) as (m3 & E3 & D3 & C3 & _). rewrite (bind_Ret _ _ _ _ _ E3).
  rewrite (bind_Ret _ _ _ _ _ (getiter_run m3 head _ D3)), C3, C2. rewrite decide_True by done. cbn [app] in D3.
  destruct (first_lookup m3 head _ D3) as (hd3 & Hhd3 & _). destruct (dlist_setiter m3 head _ hd3 None D3 Hhd3) as [D4 _].
  eexists. split; [|exact D4]. rewrite bind_assoc, (bind_Ret (ret None) _ _ _ _ eq_refl), bind_assoc.
  by rewrite (bind_Ret _ _ _ _ _ (setiter_run m3 head hd3 None Hhd3)).
Qed.

(** ** Witnesses *)
#[local] Open Scope nat_scope.

(** The list 1, 2, 3, and the element 4 outside it. *)
Definition sample : Heap := list_to_map
  [(0, mkHandle (Some 1) None (Cursor None)); (1, mkHandle (Some 2) (Some 0) (Owner 0)); (2, mkHandle (Some 3) (Some 1) (Owner 0));
   (3, mkHandle None (Some 2) (Owner 0)); (4, mkHandle None None (Cursor None))]%nat.

Lemma sample_dlist : dlist sample 0 [1; 2; 3]%nat.
Proof.
  split.
  - by apply (bool_decide_unpack _).
  - intros [|[|[|[|i]]]] a [= <-]; eexists; done.
  - by eexists _, None.
  - intros a [->|[->|[->|[]%elem_of_nil]%elem_of_cons]%elem_of_cons]%elem_of_cons; by eexists.
Qed.

Lemma dil_implements_list_witness : (exists m', dil_insert_after 0 4 sample = Ret tt m' /\ dlist m' 0 [4; 1; 2; 3]%nat) /\
  (exists m', dil_remove 2 sample = Ret tt m' /\ dlist m' 0 [1; 3]%nat).
Proof.
  destruct (dil_implements_list sample 0 [1; 2; 3]%nat sample_dlist) as (_ & Hi & Hr & _). split.
  - destruct (Hi 4%nat) as (m' & E & D & _); [by apply (bool_decide_unpack _)|by eexists|]. by exists m'.
  - destruct (Hr 2%nat [1]%nat [3]%nat eq_refl) as (m' & E & D & _). by exists m'.
Defined.

Lemma foreach_visits_all_witness : exists m' q, DIL_FOREACH 4 0 dil_remove sample = Ret [1; 2; 3]%nat m' /\ q = [] /\ dlist m' 0 q.
Proof. apply (foreach_visits_all 0 dil_remove (fun _ q => q = [])); [apply remove_leaves_rest|done|apply sample_dlist|cbn; lia]. Defined.

Lemma foreach_ends_early_witness : exists m', DIL_FOREACH 2 0 (fun _ => dil_remove 2) sample = Ret [1]%nat m' /\ dlist m' 0 [1; 3]%nat.
Proof. apply (foreach_ends_early sample 0 1 2 [3]%nat (fun _ => dil_remove 2)); [apply sample_dlist|reflexivity|lia]. Defined.
