(* ===== verification/Objects.v ===== *)
(** The objects a connection exports: adbus/bind.c with the interfaces of
    adbus/interface.c that it looks up.  Paths form a tree; binding an
    interface makes the path and its ancestors, unbinding the last one prunes
    them again. *)

From Stdlib Require Import ZArith Lia String Ascii.
From stdpp Require Import base option list numbers strings gmap fin_maps.
From S2P Require Import Prelude Names.
#[local] Open Scope Z_scope.
#[local] Open Scope adbus_scope.

(** ** Data

    Objects, binds and interfaces are heap objects; a pointer is an index,
    and using the index of a freed one is a memory error.  The hash tables are
    finite maps (see Hash). *)
Definition oid : Type := nat.
Definition bid : Type := nat.
Definition iid : Type := nat.

(** Callbacks and the pointers of users are opaque; the user pointer of a
    built-in interface is its object. *)
Definition callback : Type := nat.
Inductive pointer := Null | User (p : nat) | Object (o : oid).

Inductive MemberType := METHOD | SIGNAL | PROPERTY.
#[export] Instance MemberType_eq_dec : EqDecision MemberType.
Proof. solve_decision. Defined.

(** [struct adbus_Member]; [propertyType] is NULL for other members. *)
Record Member := mkMember {
  m_name : list Z; m_interface : iid; m_type : MemberType; propertyType : option (list Z);
  arguments : list (list Z); returns : list (list Z); argsig : list Z; retsig : list Z;
  annotations : gmap (list Z) (list Z);
  methodCallback : option callback; getPropertyCallback : option callback; setPropertyCallback : option callback;
  m_release0 : option callback; m_release1 : option callback; m_ruser0 : pointer; m_ruser1 : pointer;
  methodData : pointer; getPropertyData : pointer; setPropertyData : pointer }.

Record Interface := mkInterface { i_name : list Z; i_ref : Z; members : gmap (list Z) Member }.

(** What a bind carries for its user: [adbus_Bind] without path and
    interface. *)
Record Hooks := mkHooks {
  cuser2 : pointer; proxy : option callback; puser : pointer;
  release0 : option callback; release1 : option callback; ruser0 : pointer; ruser1 : pointer;
  relproxy : option callback; relpuser : pointer }.

Definition hooks_zero : Hooks := mkHooks Null None Null None None Null Null None Null.

Record ConnBind := mkBind { b_path : option oid; b_interface : iid; b_hooks : Hooks }.

(** [struct adbus_Bind]: [pathSize] is -1 when the path ends with a NUL. *)
Record Bind := mkBindArgs { path : list Z; pathSize : Z; interface : iid; hooks : Hooks }.

Record ObjectPath := mkObject {
  o_path : list Z; interfaces : gmap (list Z) bid; children : list oid; parent : option oid }.

(** A call of a release callback, directly or through the proxy. *)
Inductive event := Release (f : callback) (u : pointer) | ReleaseProxy (p : callback) (pu : pointer) (f : callback) (u : pointer).

Record Conn := mkConn {
  paths : gmap (list Z) oid; objects : gmap oid ObjectPath;
  bind_heap : gmap bid ConnBind; binds : list bid; ifaces : gmap iid Interface;
  introspectable : iid; properties : iid; next_o : oid; next_b : bid; released : list event }.

Definition set_paths (m : gmap (list Z) oid) (c : Conn) : Conn :=
  mkConn m (objects c) (bind_heap c) (binds c) (ifaces c) (introspectable c) (properties c) (next_o c) (next_b c) (released c).
Definition set_objects (m : gmap oid ObjectPath) (c : Conn) : Conn :=
  mkConn (paths c) m (bind_heap c) (binds c) (ifaces c) (introspectable c) (properties c) (next_o c) (next_b c) (released c).
Definition set_binds (m : gmap bid ConnBind) (l : list bid) (c : Conn) : Conn :=
  mkConn (paths c) (objects c) m l (ifaces c) (introspectable c) (properties c) (next_o c) (next_b c) (released c).
Definition set_ifaces (m : gmap iid Interface) (c : Conn) : Conn :=
  mkConn (paths c) (objects c) (bind_heap c) (binds c) m (introspectable c) (properties c) (next_o c) (next_b c) (released c).
Definition set_next (o : oid) (b : bid) (c : Conn) : Conn :=
  mkConn (paths c) (objects c) (bind_heap c) (binds c) (ifaces c) (introspectable c) (properties c) o b (released c).
Definition emit_release (e : event) (c : Conn) : Conn :=
  mkConn (paths c) (objects c) (bind_heap c) (binds c) (ifaces c) (introspectable c) (properties c) (next_o c) (next_b c) (released c ++ [e]).

Definition set_interfaces (m : gmap (list Z) bid) (ob : ObjectPath) : ObjectPath :=
  mkObject (o_path ob) m (children ob) (parent ob).
Definition set_children (l : list oid) (ob : ObjectPath) : ObjectPath :=
  mkObject (o_path ob) (interfaces ob) l (parent ob).
Definition set_parent (p : option oid) (ob : ObjectPath) : ObjectPath :=
  mkObject (o_path ob) (interfaces ob) (children ob) p.
Definition set_ref (r : Z) (i : Interface) : Interface := mkInterface (i_name i) r (members i).
Definition set_b_path (p : option oid) (b : ConnBind) : ConnBind := mkBind p (b_interface b) (b_hooks b).

Definition object (o : oid) : M Conn ObjectPath := let* c := get in of_option (objects c !! o).
Definition bind_at (b : bid) : M Conn ConnBind := let* c := get in of_option (bind_heap c !! b).
Definition iface (i : iid) : M Conn Interface := let* c := get in of_option (ifaces c !! i).
Definition put_object (o : oid) (ob : ObjectPath) : M Conn unit := modify (fun c => set_objects (<[o := ob]> (objects c)) c).
Definition put_bind (b : bid) (cb : ConnBind) : M Conn unit := modify (fun c => set_binds (<[b := cb]> (bind_heap c)) (binds c) c).
Definition put_iface (i : iid) (x : Interface) : M Conn unit := modify (fun c => set_ifaces (<[i := x]> (ifaces c)) c).

(** ** Interfaces *)
Definition adbus_iface_ref (i : iid) : M Conn unit :=
  let* x := iface i in put_iface i (set_ref (i_ref x + 1) x).

(** A member is freed: what is seen of it are its release callbacks. *)
Definition FreeMember (m : Member) : M Conn unit :=
  run* (match m_release0 m with Some f => modify (emit_release (Release f (m_ruser0 m))) | None => ret tt end) in
  match m_release1 m with Some f => modify (emit_release (Release f (m_ruser1 m))) | None => ret tt end.

Definition GetMethod (i : iid) (type : MemberType) (name : list Z) : M Conn (option Member) :=
  let* x := iface i in
  match members x !! name with
  | None => ret None
  | Some m => if bool_decide (m_type m = type) then ret (Some m) else ret None
  end.
Definition adbus_iface_method (i : iid) (name : list Z) : M Conn (option Member) := GetMethod i METHOD name.

Section Bind.
Context {B : Build}.

(** The order in which the loops over a hash table meet its entries. *)
Context (dh_order : forall {A : Type}, gmap (list Z) A -> list (list Z * A)).

(** ** Building an interface *)
Definition adbus_iface_new (name : list Z) (size : Z) : Interface := mkInterface (sized name size) 1 ∅.

Definition new_member (i : iid) (type : MemberType) (name : list Z) : Member :=
  mkMember name i type None [] [] [] [] ∅ None None None None None Null Null Null Null Null.

Definition AddMethod (i : iid) (type : MemberType) (name : list Z) (size : Z) : M Conn (list Z) :=
  let name := sized name size in
  let* x := iface i in
  run* (match members x !! name with Some m => FreeMember m | None => ret tt end) in
  run* put_iface i (mkInterface (i_name x) (i_ref x) (<[name := new_member i type name]> (members x))) in
  ret name.

Definition adbus_iface_addmethod (i : iid) (name : list Z) (size : Z) : M Conn (list Z) := AddMethod i METHOD name size.
Definition adbus_iface_addsignal (i : iid) (name : list Z) (size : Z) : M Conn (list Z) := AddMethod i SIGNAL name size.

(** A member is given by its interface and its name. *)
Definition member_do (i : iid) (name : list Z) (f : Member -> M Conn Member) : M Conn unit :=
  let* x := iface i in
  let* m := of_option (members x !! name) in
  let* m := f m in
  put_iface i (mkInterface (i_name x) (i_ref x) (<[name := m]> (members x))).

Definition set_signatures (a r : list Z) (m : Member) : Member :=
  mkMember (m_name m) (m_interface m) (m_type m) (propertyType m) (arguments m) (returns m) a r (annotations m)
    (methodCallback m) (getPropertyCallback m) (setPropertyCallback m) (m_release0 m) (m_release1 m) (m_ruser0 m) (m_ruser1 m)
    (methodData m) (getPropertyData m) (setPropertyData m).
Definition set_names (a r : list (list Z)) (m : Member) : Member :=
  mkMember (m_name m) (m_interface m) (m_type m) (propertyType m) a r (argsig m) (retsig m) (annotations m)
    (methodCallback m) (getPropertyCallback m) (setPropertyCallback m) (m_release0 m) (m_release1 m) (m_ruser0 m) (m_ruser1 m)
    (methodData m) (getPropertyData m) (setPropertyData m).
Definition set_annotations (a : gmap (list Z) (list Z)) (m : Member) : Member :=
  mkMember (m_name m) (m_interface m) (m_type m) (propertyType m) (arguments m) (returns m) (argsig m) (retsig m) a
    (methodCallback m) (getPropertyCallback m) (setPropertyCallback m) (m_release0 m) (m_release1 m) (m_ruser0 m) (m_ruser1 m)
    (methodData m) (getPropertyData m) (setPropertyData m).
Definition set_propertyType (t : option (list Z)) (m : Member) : Member :=
  mkMember (m_name m) (m_interface m) (m_type m) t (arguments m) (returns m) (argsig m) (retsig m) (annotations m)
    (methodCallback m) (getPropertyCallback m) (setPropertyCallback m) (m_release0 m) (m_release1 m) (m_ruser0 m) (m_ruser1 m)
    (methodData m) (getPropertyData m) (setPropertyData m).
Definition set_callbacks (mc g s : option callback) (md gd sd : pointer) (m : Member) : Member :=
  mkMember (m_name m) (m_interface m) (m_type m) (propertyType m) (arguments m) (returns m) (argsig m) (retsig m) (annotations m)
    mc g s (m_release0 m) (m_release1 m) (m_ruser0 m) (m_ruser1 m) md gd sd.
Definition set_releases (r0 r1 : option callback) (u0 u1 : pointer) (m : Member) : Member :=
  mkMember (m_name m) (m_interface m) (m_type m) (propertyType m) (arguments m) (returns m) (argsig m) (retsig m) (annotations m)
    (methodCallback m) (getPropertyCallback m) (setPropertyCallback m) r0 r1 u0 u1
    (methodData m) (getPropertyData m) (setPropertyData m).

Definition is_call (m : Member) : bool := bool_decide (m_type m = METHOD) || bool_decide (m_type m = SIGNAL).

Definition adbus_iface_addproperty (i : iid) (name : list Z) (namesize : Z) (sig : list Z) (sigsize : Z) : M Conn (list Z) :=
  let* n := AddMethod i PROPERTY name namesize in
  run* member_do i n (fun m => ret (set_propertyType (Some (sized sig sigsize)) m)) in
  ret n.

Definition adbus_mbr_argsig (sig : list Z) (size : Z) (m : Member) : M Conn Member :=
  run* assert_ (is_call m) in
  ret (set_signatures (argsig m ++ sized sig size) (retsig m) m).
Definition adbus_mbr_argname (name : list Z) (size : Z) (m : Member) : M Conn Member :=
  run* assert_ (is_call m) in
  ret (set_names (arguments m ++ [sized name size]) (returns m) m).
Definition adbus_mbr_retsig (sig : list Z) (size : Z) (m : Member) : M Conn Member :=
  run* assert_ (bool_decide (m_type m = METHOD)) in
  ret (set_signatures (argsig m) (retsig m ++ sized sig size) m).
Definition adbus_mbr_retname (name : list Z) (size : Z) (m : Member) : M Conn Member :=
  run* assert_ (bool_decide (m_type m = METHOD)) in
  ret (set_names (arguments m) (returns m ++ [sized name size]) m).
Definition adbus_mbr_annotate (name : list Z) (nameSize : Z) (value : list Z) (valueSize : Z) (m : Member) : M Conn Member :=
  ret (set_annotations (<[sized name nameSize := sized value valueSize]> (annotations m)) m).
Definition adbus_mbr_addrelease (release : callback) (ruser : pointer) (m : Member) : M Conn Member :=
  match m_release0 m with
  | Some _ =>
      run* assert_ (negb (bool_decide (is_Some (m_release1 m)))) in
      ret (set_releases (m_release0 m) (Some release) (m_ruser0 m) ruser m)
  | None => ret (set_releases (Some release) (m_release1 m) ruser (m_ruser1 m) m)
  end.
Definition adbus_mbr_setmethod (f : option callback) (user1 : pointer) (m : Member) : M Conn Member :=
  ret (set_callbacks f (getPropertyCallback m) (setPropertyCallback m) user1 (getPropertyData m) (setPropertyData m) m).
Definition adbus_mbr_setgetter (f : option callback) (user1 : pointer) (m : Member) : M Conn Member :=
  ret (set_callbacks (methodCallback m) f (setPropertyCallback m) (methodData m) user1 (setPropertyData m) m).
Definition adbus_mbr_setsetter (f : option callback) (user1 : pointer) (m : Member) : M Conn Member :=
  ret (set_callbacks (methodCallback m) (getPropertyCallback m) f (methodData m) (getPropertyData m) user1 m).

Definition adbus_iface_signal (i : iid) (name : list Z) : M Conn (option Member) := GetMethod i SIGNAL name.
Definition adbus_iface_property (i : iid) (name : list Z) : M Conn (option Member) := GetMethod i PROPERTY name.

Fixpoint free_members (l : list (list Z * Member)) : M Conn unit :=
  match l with
  | [] => ret tt
  | (_, m) :: l => run* FreeMember m in free_members l
  end.

Definition adbus_iface_deref (i : iid) : M Conn unit :=
  let* x := iface i in
  run* put_iface i (set_ref (i_ref x - 1) x) in
  if i_ref x - 1 =? 0 then
    run* free_members (dh_order _ (members x)) in
    modify (fun c => set_ifaces (delete i (ifaces c)) c)
  else ret tt.

(** ** Binding *)
Definition DoBind (o : oid) (i : iid) (h : Hooks) : M Conn (option bid) :=
  let* ob := object o in
  let* x := iface i in
  match interfaces ob !! i_name x with
  | Some _ => ret None
  | None =>
      run* adbus_iface_ref i in
      let* c := get in
      let b := next_b c in
      run* put (set_next (next_o c) (S b) c) in
      run* put_bind b (mkBind (Some o) i h) in
      run* put_object o (set_interfaces (<[i_name x := b]> (interfaces ob)) ob) in
      run* modify (fun c => set_binds (bind_heap c) (b :: binds c) c) in
      ret (Some b)
  end.

(** The hooks of a built-in interface: [b.cuser2 = o]. *)
Definition builtin_hooks (o : oid) : Hooks := mkHooks (Object o) None Null None None Null Null None Null.

(** A new object for a path, with the built-in interfaces. *)
Definition new_object (p : list Z) : M Conn oid :=
  let* c := get in
  let o := next_o c in
  run* put (set_next (S o) (next_b c) c) in
  run* put_object o (mkObject p ∅ [] None) in
  run* modify (fun c => set_paths (<[p := o]> (paths c)) c) in
  run* DoBind o (introspectable c) (builtin_hooks o) in
  run* DoBind o (properties c) (builtin_hooks o) in
  ret o.

Fixpoint GetObject (fuel : nat) (p : list Z) : M Conn oid :=
  match fuel with
  | O => nofuel
  | S fuel =>
      run* assert_ (adbusI_isValidObjectPath (Some p)) in
      let* c := get in
      match paths c !! p with
      | Some o => ret o
      | None =>
          let* o := new_object p in
          let* pp := adbusI_parentPath p in
          match pp with
          | None => ret o
          | Some pp =>
              let* po := GetObject fuel pp in
              let* ob := object o in
              run* put_object o (set_parent (Some po) ob) in
              let* pob := object po in
              run* put_object po (set_children (children pob ++ [o]) pob) in
              ret o
          end
      end
  end.

Definition adbus_conn_bind (b : Bind) : M Conn (option bid) :=
  let p := sized (path b) (pathSize b) in
  let* o := GetObject (S (length p)) p in
  DoBind o (interface b) (hooks b).

(** ** Unbinding *)
Definition run_release (h : Hooks) (f : option callback) (u : pointer) : M Conn unit :=
  match f with
  | None => ret tt
  | Some f =>
      modify (emit_release (match relproxy h with
                            | Some p => ReleaseProxy p (relpuser h) f u
                            | None => Release f u end))
  end.

(** The second half of [adbusI_freeBind]. *)
Definition free_rest (b : bid) : M Conn unit :=
  let* cb := bind_at b in
  let h := b_hooks cb in
  run* run_release h (release0 h) (ruser0 h) in
  run* run_release h (release1 h) (ruser1 h) in
  run* adbus_iface_deref (b_interface cb) in
  modify (fun c => set_binds (delete b (bind_heap c)) (List.filter (fun b' => negb (b' =? b)%nat) (binds c)) c).

Fixpoint remove_child (o : oid) (l : list oid) : list oid :=
  match l with
  | [] => []
  | x :: l => if (x =? o)%nat then l else x :: remove_child o l
  end.

(** The loop over the built-in interfaces, given [adbusI_freeBind]. *)
Fixpoint remove_builtins (freeBind : bid -> M Conn unit) (o : oid) (l : list (list Z * bid)) : M Conn unit :=
  match l with
  | [] => ret tt
  | (n, b) :: l =>
      let* cb := bind_at b in
      run* put_bind b (set_b_path None cb) in
      run* freeBind b in
      let* ob := object o in
      run* put_object o (set_interfaces (delete n (interfaces ob)) ob) in
      remove_builtins freeBind o l
  end.

Fixpoint unset_paths (l : list (list Z * bid)) : M Conn unit :=
  match l with
  | [] => ret tt
  | (_, b) :: l =>
      let* cb := bind_at b in
      run* put_bind b (set_b_path None cb) in
      unset_paths l
  end.

Definition adbusI_freeObjectPath (o : oid) : M Conn unit :=
  let* ob := object o in
  run* modify (fun c => set_paths (delete (o_path ob) (paths c)) c) in
  run* unset_paths (dh_order _ (interfaces ob)) in
  modify (fun c => set_objects (delete o (objects c)) c).

Fixpoint CheckRemoveObject (fuel : nat) (o : oid) : M Conn unit :=
  match fuel with
  | O => nofuel
  | S fuel =>
      let* ob := object o in
      if (2 <? base.size (interfaces ob))%nat || (0 <? length (children ob))%nat then ret tt
      else
        run* remove_builtins (adbusI_freeBind fuel) o (dh_order _ (interfaces ob)) in
        let* ob := object o in
        run* (match parent ob with
              | None => ret tt
              | Some p =>
                  let* pob := object p in
                  run* put_object p (set_children (remove_child o (children pob)) pob) in
                  CheckRemoveObject fuel p
              end) in
        adbusI_freeObjectPath o
  end
with adbusI_freeBind (fuel : nat) (b : bid) : M Conn unit :=
  match fuel with
  | O => nofuel
  | S fuel =>
      let* cb := bind_at b in
      run* (match b_path cb with
            | None => ret tt
            | Some o =>
                let* ob := object o in
                let* x := iface (b_interface cb) in
                run* put_object o (set_interfaces (delete (i_name x) (interfaces ob)) ob) in
                CheckRemoveObject fuel o
            end) in
      free_rest b
  end.

(** Two calls per component of the path. *)
Definition free_fuel (c : Conn) (b : bid) : nat :=
  match bind_heap c !! b with
  | Some cb => match b_path cb with
               | Some o => match objects c !! o with Some ob => length (o_path ob) + 3 | None => 3 end
               | None => 3
               end
  | None => 3
  end%nat.

Definition adbus_conn_unbind (b : bid) : M Conn unit := let* c := get in adbusI_freeBind (free_fuel c b) b.

(** ** Lookup *)
Definition adbus_conn_interface (p n : list Z) : M Conn (option (iid * bid)) :=
  let* c := get in
  match paths c !! p with
  | None => ret None
  | Some o =>
      let* ob := object o in
      match interfaces ob !! n with
      | None => ret None
      | Some b => let* cb := bind_at b in ret (Some (b_interface cb, b))
      end
  end.

Fixpoint method_loop (method : list Z) (l : list (list Z * bid)) : M Conn (option (Member * bid)) :=
  match l with
  | [] => ret None
  | (_, b) :: l =>
      let* cb := bind_at b in
      let* m := adbus_iface_method (b_interface cb) method in
      match m with Some m => ret (Some (m, b)) | None => method_loop method l end
  end.

Definition adbus_conn_method (p method : list Z) : M Conn (option (Member * bid)) :=
  let* c := get in
  match paths c !! p with
  | None => ret None
  | Some o => let* ob := object o in method_loop method (dh_order _ (interfaces ob))
  end.

(** What a call that arrived leads to: an error reply, or the result of the
    member's callback.  [invoke f user1 user2] is [adbus_dispatch] of the
    callback, [hand_over p user call] what a proxy does with the call it is
    given; both work on a state [W] that the objects are a part of. *)
Inductive answer := InterfaceError | MethodError | Answered (err : Z).

Context {W : Type} `{Part W Conn}.
Context (invoke : callback -> pointer -> pointer -> M W Z) (hand_over : callback -> pointer -> M W Z -> M W Z).

Definition DoCall (m : Member) (f : callback) (user2 : pointer) : M W Z :=
  let* err := invoke f (methodData m) user2 in
  run* on_part (adbus_iface_deref (m_interface m)) in
  ret err.

Definition adbus_mbr_call (m : Member) (b : bid) : M W answer :=
  match methodCallback m with
  | None => ret MethodError
  | Some f =>
      run* on_part (adbus_iface_ref (m_interface m)) in
      let* cb := on_part (bind_at b) in
      let h := b_hooks cb in
      let* err := match proxy h with
                  | Some p => hand_over p (puser h) (DoCall m f (cuser2 h))
                  | None => DoCall m f (cuser2 h)
                  end in
      ret (Answered err)
  end.

Definition adbusI_dispatchBind (p member : list Z) (iface_name : option (list Z)) : M W answer :=
  match iface_name with
  | Some n =>
      let* r := on_part (adbus_conn_interface p n) in
      match r with
      | None => ret InterfaceError
      | Some (i, b) =>
          let* m := on_part (adbus_iface_method i member) in
          match m with None => ret MethodError | Some m => adbus_mbr_call m b end
      end
  | None =>
      let* r := on_part (adbus_conn_method p member) in
      match r with
      | None => ret MethodError
      | Some (m, b) => adbus_mbr_call m b
      end
  end.
End Bind.

(** A connection with nothing bound. *)
Definition conn_start (ifs : gmap iid Interface) (intro props : iid) : Conn :=
  mkConn ∅ ∅ ∅ [] ifs intro props 0%nat 0%nat [].

(** ** The tree of paths

    What the tree is made of: path, children and parent of every object. *)
Record Links := mkLinks { l_path : list Z; l_children : list oid; l_parent : option oid }.
Definition links_of (ob : ObjectPath) : Links := mkLinks (o_path ob) (children ob) (parent ob).
Definition tree (c : Conn) : gmap oid Links := links_of <$> objects c.

(** The interface table of every object. *)
Definition tables (c : Conn) : gmap oid (gmap (list Z) bid) := interfaces <$> objects c.

(** [tree_ok O ps tr]: a tree over the table of paths [ps]; the objects in
    [O] are not linked into it (not yet, or not any more). *)
Record tree_ok (O : gset oid) (ps : gmap (list Z) oid) (tr : gmap oid Links) : Prop := {
  t_paths : forall p o, ps !! p = Some o <-> (exists l, tr !! o = Some l /\ l_path l = p);
  t_valid : forall o l, tr !! o = Some l -> exists cs, Forall component cs /\ l_path l = render cs;
  t_parent : forall o l, o ∉ O -> tr !! o = Some l ->
    (l_path l = render [] /\ l_parent l = None) \/
    (exists cs c po pl, Forall component cs /\ component c /\ l_path l = render (cs ++ [c]) /\
       l_parent l = Some po /\ po ∉ O /\ tr !! po = Some pl /\ l_path pl = render cs);
  t_children : forall o l, o ∉ O -> tr !! o = Some l -> NoDup (l_children l) /\
    forall o', o' ∈ l_children l <-> (o' ∉ O /\ exists l', tr !! o' = Some l' /\ l_parent l' = Some o);
  t_loose : forall o l, o ∈ O -> tr !! o = Some l -> l_children l = [] }.

Lemma split_slash (c d x y : list Z) : all_ok is_name_char c -> all_ok is_name_char d ->
  (x = [] \/ deref x = SLASH) -> (y = [] \/ deref y = SLASH) -> c ++ x = d ++ y -> c = d /\ x = y.
Proof.
  intros Hc. revert d. induction Hc as [|a c Ha _ IH]; intros [|b d] Hd Hx Hy E; cbn in E.
  - done.
  - exfalso. inversion Hd; subst. destruct Hx as [?|Hx]; [done|]. cbn in Hx. subst b. done.
  - exfalso. subst y. destruct Hy as [?|Hy]; [done|]. cbn in Hy. subst a. done.
  - injection E as -> E. inversion Hd; subst. destruct (IH d) as [-> ->]; done.
Qed.

Lemma flat_head (cs : list (list Z)) : flat SLASH cs = [] \/ deref (flat SLASH cs) = SLASH.
Proof. destruct cs; [by left|by right]. Qed.

Lemma flat_inj (cs : list (list Z)) : forall ds, Forall component cs -> Forall component ds ->
  flat SLASH cs = flat SLASH ds -> cs = ds.
Proof.
  induction cs as [|c cs IH]; intros [|d ds] Hcs Hds E; try done. cbn in E. injection E as E.
  inversion Hcs as [|? ? [_ Hc] Hcs']; subst. inversion Hds as [|? ? [_ Hd] Hds']; subst.
  apply split_slash in E as [-> E]; [|done|done|apply flat_head|apply flat_head]. f_equal. by apply IH.
Qed.

Lemma render_inj (cs ds : list (list Z)) : Forall component cs -> Forall component ds -> render cs = render ds -> cs = ds.
Proof.
  intros Hcs Hds E. destruct cs as [|c cs], ds as [|d ds]; [done| | |by apply flat_inj]; exfalso.
  - inversion Hds as [|? ? [Hn _] _]; subst. cbn in E. injection E as E. by destruct d.
  - inversion Hcs as [|? ? [Hn _] _]; subst. cbn in E. injection E as E. by destruct c.
Qed.

Lemma remove_child_spec (o : oid) (l : list oid) : NoDup l ->
  NoDup (remove_child o l) /\ forall x, x ∈ remove_child o l <-> (x ∈ l /\ x <> o).
Proof.
  induction 1 as [|y l Hy Hl [IH1 IH2]]; cbn [remove_child].
  - split; [apply NoDup_nil_2|]. intros x. rewrite elem_of_nil. naive_solver.
  - destruct (Nat.eqb_spec y o) as [->|Hne].
    + split; [done|]. intros x. rewrite elem_of_cons. split; [intros Hx; split; [by right|by intros ->]|intros [[->|?] ?]; done].
    + split; [apply NoDup_cons; split; [rewrite IH2; naive_solver|done]|]. intros x. rewrite !elem_of_cons, IH2. naive_solver.
Qed.

Section Tree.
Context (O : gset oid) (ps : gmap (list Z) oid) (tr : gmap oid Links).

(** An object of a path is the only one. *)
Lemma path_unique (o o' : oid) (l l' : Links) : tree_ok O ps tr ->
  tr !! o = Some l -> tr !! o' = Some l' -> l_path l = l_path l' -> o = o'.
Proof.
  intros T H1 H2 E. assert (E1 : ps !! l_path l = Some o) by (apply (t_paths _ _ _ T); by exists l).
  assert (E2 : ps !! l_path l' = Some o') by (apply (t_paths _ _ _ T); by exists l'). congruence.
Qed.

(** A new object: not linked. *)
Lemma tree_new (o : oid) (p : list Z) (cs : list (list Z)) : tree_ok O ps tr -> tr !! o = None -> ps !! p = None ->
  Forall component cs -> p = render cs ->
  tree_ok ({[o]} ∪ O) (<[p := o]> ps) (<[o := mkLinks p [] None]> tr).
Proof.
  intros T Ho Hp Hcs Ecs.
  assert (Hother : forall o' l', <[o := mkLinks p [] None]> tr !! o' = Some l' -> o' <> o -> tr !! o' = Some l').
  { intros o' l' H Hne. by rewrite lookup_insert_ne in H. }
  assert (Hne : forall o' l', tr !! o' = Some l' -> o' <> o) by (intros o' l' H ->; congruence).
  split.
  - intros q o'. rewrite !lookup_insert. repeat case_decide; subst.
    + split; [|done]. intros _. by eexists.
    + split; [congruence|]. intros (l & Hl & E). exfalso.
      assert (ps !! l_path l = Some o') by (apply (t_paths _ _ _ T); by exists l). congruence.
    + split; [|intros (l & [= <-] & E); done]. intros Hq. apply (t_paths _ _ _ T) in Hq as (l & Hl & _). congruence.
    + apply (t_paths _ _ _ T).
  - intros o' l' H. destruct (decide (o' = o)) as [->|Hne']; [rewrite lookup_insert_eq in H; injection H as <-; by exists cs|].
    eapply (t_valid _ _ _ T). by eapply Hother.
  - intros o' l' [H1 H2]%not_elem_of_union H. assert (o' <> o) by set_solver. apply Hother in H; [|done].
    destruct (t_parent _ _ _ T o' l' H2 H) as [?|(ds & c & po & pl & ? & ? & ? & ? & Hpo & Hpl & ?)]; [by left|right].
    exists ds, c, po, pl. split_and!; try done.
    + apply not_elem_of_union. split; [|done]. apply not_elem_of_singleton. by eapply Hne.
    + rewrite lookup_insert_ne; [done|]. intros ->. by apply (Hne po pl).
  - intros o' l' [H1 H2]%not_elem_of_union H. assert (o' <> o) by set_solver. apply Hother in H; [|done].
    destruct (t_children _ _ _ T o' l' H2 H) as [Hnd Hc]. split; [done|]. intros o2. rewrite Hc. split.
    + intros [H3 (l2 & Hl2 & E)]. pose proof (Hne o2 l2 Hl2). split; [set_solver|]. exists l2. by rewrite lookup_insert_ne.
    + intros [[H3 H4]%not_elem_of_union (l2 & Hl2 & E)]. split; [done|]. exists l2. split; [|done].
      apply Hother; [done|set_solver].
  - intros o' l' Hin H. destruct (decide (o' = o)) as [->|Hne']; [rewrite lookup_insert_eq in H; by injection H as <-|].
    apply (t_loose _ _ _ T o'); [set_solver|by apply Hother].
Qed.

(** A loose object is linked below its parent. *)
Lemma tree_link (o po : oid) (l pl : Links) (cs : list (list Z)) (c : list Z) : tree_ok ({[o]} ∪ O) ps tr -> o ∉ O ->
  tr !! o = Some l -> po ∉ {[o]} ∪ O -> tr !! po = Some pl ->
  Forall component cs -> component c -> l_path l = render (cs ++ [c]) -> l_path pl = render cs ->
  tree_ok O ps (<[po := mkLinks (l_path pl) (l_children pl ++ [o]) (l_parent pl)]>
                (<[o := mkLinks (l_path l) (l_children l) (Some po)]> tr)).
Proof.
  intros T Ho Hl [Hpo1 Hpo2]%not_elem_of_union Hpl Hcs Hc Ep Epp. apply not_elem_of_singleton in Hpo1.
  set (tr' := <[po := _]> _).
  assert (Hs : forall o1 l1, tr' !! o1 = Some l1 <-> (o1 = po /\ l1 = mkLinks (l_path pl) (l_children pl ++ [o]) (l_parent pl) \/
      o1 = o /\ l1 = mkLinks (l_path l) (l_children l) (Some po) \/ o1 <> po /\ o1 <> o /\ tr !! o1 = Some l1)).
  { intros o1 l1. unfold tr'. rewrite !lookup_insert. repeat case_decide; subst; naive_solver. }
  assert (Hpath : forall o1 l1, tr' !! o1 = Some l1 -> exists l2, tr !! o1 = Some l2 /\ l_path l2 = l_path l1 /\
      (o1 <> o -> l_parent l2 = l_parent l1)).
  { intros o1 l1 [[-> ->]|[[-> ->]|(? & ? & ?)]]%Hs; eauto. exists l. split_and!; done. }
  assert (Hpath2 : forall o1 l1, tr !! o1 = Some l1 -> exists l2, tr' !! o1 = Some l2 /\ l_path l2 = l_path l1 /\
      (o1 <> o -> l_parent l2 = l_parent l1)).
  { intros o1 l1 H1. destruct (decide (o1 = po)) as [->|]; [|destruct (decide (o1 = o)) as [->|]]; eexists;
      (split; [apply Hs; eauto|]); cbn; (split; [congruence|intros ?; congruence]). }
  assert (Hnone : forall o1 l1, tr !! o1 = Some l1 -> o1 ∉ {[o]} ∪ O -> l_parent l1 <> Some o).
  { intros o1 l1 H1 H2 E. destruct (t_parent _ _ _ T o1 l1 H2 H1) as [[_ ?]|(? & ? & po' & ? & ? & ? & ? & E' & Hni & _)]; [congruence|].
    rewrite E in E'. injection E' as <-. set_solver. }
  split.
  - intros p o1. rewrite (t_paths _ _ _ T). split; intros (l1 & H1 & <-).
    + destruct (Hpath2 o1 l1 H1) as (l2 & ? & ? & _). by exists l2.
    + destruct (Hpath o1 l1 H1) as (l2 & ? & ? & _). by exists l2.
  - intros o1 l1 H1. destruct (Hpath o1 l1 H1) as (l2 & H2 & <- & _). by apply (t_valid _ _ _ T o1).
  - intros o1 l1 Hn1 H1. destruct (decide (o1 = o)) as [->|Hne].
    + right. destruct (Hpath2 po pl Hpl) as (pl' & Hpl' & Epl' & _). exists cs, c, po, pl'.
      apply Hs in H1 as [[-> _]|[[_ ->]|(_ & ? & _)]]; [done| |done]. cbn. split_and!; try done. congruence.
    + destruct (Hpath o1 l1 H1) as (l2 & H2 & E2 & Epar). specialize (Epar Hne). rewrite <- E2, <- Epar.
      destruct (t_parent _ _ _ T o1 l2 ltac:(set_solver) H2) as [?|(ds & d & po' & pl' & ? & ? & ? & ? & Hpo' & Hpl' & Epl')]; [by left|right].
      destruct (Hpath2 po' pl' Hpl') as (pl2 & Hpl2 & Epl2 & _). exists ds, d, po', pl2. split_and!; try done; [set_solver|congruence].
  - intros o1 l1 Hn1 H1. assert (Hchild : forall o2, (o2 ∉ O /\ exists l2, tr' !! o2 = Some l2 /\ l_parent l2 = Some o1) <->
      (o2 = o /\ o1 = po) \/ (o2 ∉ {[o]} ∪ O /\ exists l2, tr !! o2 = Some l2 /\ l_parent l2 = Some o1)).
    { intros o2. split.
      - intros [Hn2 (l2 & H2 & E2)]. destruct (decide (o2 = o)) as [->|Hne2].
        + left. apply Hs in H2 as [[-> _]|[[_ ->]|(_ & ? & _)]]; [done| |done]. cbn in E2. split; congruence.
        + right. split; [set_solver|]. destruct (Hpath o2 l2 H2) as (l3 & H3 & _ & E3). exists l3. split; [done|]. by rewrite E3.
      - intros [[-> ->]|[Hn2 (l2 & H2 & E2)]].
        + split; [done|]. eexists. split; [apply Hs; right; left; done|done].
        + split; [set_solver|]. destruct (Hpath2 o2 l2 H2) as (l3 & H3 & _ & E3). exists l3. split; [done|]. rewrite E3; [done|set_solver]. }
    apply Hs in H1 as [[-> ->]|[[-> ->]|(Hne1 & Hne2 & H1)]]; cbn [l_children].
    + destruct (t_children _ _ _ T po pl ltac:(set_solver) Hpl) as [Hnd Hc']. split.
      * apply NoDup_app. split_and!; [done| |apply NoDup_singleton]. intros o2 H2 ->%list_elem_of_singleton. apply Hc' in H2 as [H2 _]. set_solver.
      * intros o2. rewrite Hchild, elem_of_app, list_elem_of_singleton, Hc'. naive_solver.
    + rewrite (t_loose _ _ _ T o l) by (done || set_solver). split; [apply NoDup_nil_2|]. intros o2. rewrite Hchild. split; [by intros ?%elem_of_nil|].
      intros [[_ ?]|[Hn2 (l2 & H2 & E2)]]; [congruence|]. by destruct (Hnone o2 l2 H2 Hn2).
    + destruct (t_children _ _ _ T o1 l1 ltac:(set_solver) H1) as [Hnd Hc']. split; [done|].
      intros o2. rewrite Hchild, Hc'. naive_solver.
  - intros o1 l1 Hin H1. apply Hs in H1 as [[-> _]|[[-> _]|(_ & _ & H1)]]; [done|done|]. apply (t_loose _ _ _ T o1); [set_solver|done].
Qed.

(** The root is not linked to anything. *)
Lemma tree_root (o : oid) (l : Links) : tree_ok ({[o]} ∪ O) ps tr -> tr !! o = Some l ->
  l_path l = render [] -> l_parent l = None -> l_children l = [] -> tree_ok O ps tr.
Proof.
  intros T Hl Ep Epar Ec. destruct (decide (o ∈ O)) as [Hin|Hni]; [by replace O with ({[o]} ∪ O) by set_solver|].
  assert (Hnone : forall o1 l1, tr !! o1 = Some l1 -> o1 ∉ {[o]} ∪ O -> l_parent l1 <> Some o).
  { intros o1 l1 H1 H2 E. destruct (t_parent _ _ _ T o1 l1 H2 H1) as [[_ ?]|(? & ? & po' & ? & ? & ? & ? & E' & Hni' & _)]; [congruence|].
    rewrite E in E'. injection E' as <-. set_solver. }
  split; try apply T.
  - intros o1 l1 Hn1 H1. destruct (decide (o1 = o)) as [->|Hne]; [left; split; congruence|].
    destruct (t_parent _ _ _ T o1 l1 ltac:(set_solver) H1) as [?|(ds & d & po' & pl' & ? & ? & ? & ? & ? & ? & ?)]; [by left|right].
    exists ds, d, po', pl'. split_and!; try done. set_solver.
  - intros o1 l1 Hn1 H1. destruct (decide (o1 = o)) as [->|Hne].
    + assert (l1 = l) as -> by congruence. rewrite Ec. split; [apply NoDup_nil_2|]. intros o2. split; [by intros ?%elem_of_nil|].
      intros [Hn2 (l2 & H2 & E2)]. destruct (decide (o2 = o)) as [->|]; [congruence|]. by destruct (Hnone o2 l2 H2 ltac:(set_solver)).
    + destruct (t_children _ _ _ T o1 l1 ltac:(set_solver) H1) as [Hnd Hc']. split; [done|].
      intros o2. rewrite Hc'. split; [intros [? ?]; split; [set_solver|done]|]. intros [Hn2 (l2 & H2 & E2)]. split; [|by exists l2].
      assert (o2 <> o) by (intros ->; congruence). set_solver.
  - intros o1 l1 Hin H1. apply (t_loose _ _ _ T o1); [set_solver|done].
Qed.

(** An object without children is nobody's parent. *)
Lemma no_children (o : oid) (l : Links) : tree_ok O ps tr -> o ∉ O -> tr !! o = Some l -> l_children l = [] ->
  forall o1 l1, o1 ∉ O -> tr !! o1 = Some l1 -> l_parent l1 <> Some o.
Proof.
  intros T Ho Hl Hc o1 l1 Hn1 H1 E. destruct (t_children _ _ _ T o l Ho Hl) as [_ Hch]. rewrite Hc in Hch.
  assert (o1 ∈ @nil oid) as Hx by (apply Hch; split; [done|by exists l1]). by apply elem_of_nil in Hx.
Qed.

(** A leaf is taken out of the children of its parent. *)
Lemma tree_unlink (o po : oid) (l pl : Links) : tree_ok O ps tr -> o ∉ O -> tr !! o = Some l -> l_children l = [] ->
  l_parent l = Some po -> tr !! po = Some pl ->
  tree_ok ({[o]} ∪ O) ps (<[po := mkLinks (l_path pl) (remove_child o (l_children pl)) (l_parent pl)]> tr).
Proof.
  intros T Ho Hl Hc Epo Hpl. pose proof (no_children o l T Ho Hl Hc) as Hno.
  assert (Hne : po <> o) by (intros ->; by apply (Hno o l Ho Hl)).
  assert (Hpo : po ∉ O).
  { destruct (t_parent _ _ _ T o l Ho Hl) as [[_ ?]|(? & ? & po' & ? & ? & ? & ? & E & ? & _)]; congruence. }
  set (tr' := <[po := _]> tr).
  assert (Hs : forall o1 l1, tr' !! o1 = Some l1 -> exists l2, tr !! o1 = Some l2 /\ l_path l2 = l_path l1 /\ l_parent l2 = l_parent l1 /\
    (l_children l1 = if decide (o1 = po) then remove_child o (l_children l2) else l_children l2)).
  { intros o1 l1. unfold tr'. rewrite lookup_insert. case_decide; subst; [intros [= <-]; exists pl|intros ?; exists l1];
      by rewrite ?decide_True, ?decide_False by done. }
  assert (Hs2 : forall o1 l1, tr !! o1 = Some l1 -> exists l2, tr' !! o1 = Some l2 /\ l_path l2 = l_path l1 /\ l_parent l2 = l_parent l1).
  { intros o1 l1 H1. unfold tr'. destruct (decide (po = o1)) as [<-|Hn]; [rewrite lookup_insert_eq|rewrite lookup_insert_ne by done].
    - eexists. split; [done|]. cbn. assert (l1 = pl) as -> by congruence. done.
    - by exists l1. }
  split.
  - intros p o1. rewrite (t_paths _ _ _ T). split; intros (l1 & H1 & <-).
    + destruct (Hs2 o1 l1 H1) as (l2 & ? & ? & _). by exists l2.
    + destruct (Hs o1 l1 H1) as (l2 & ? & ? & _). by exists l2.
  - intros o1 l1 H1. destruct (Hs o1 l1 H1) as (l2 & H2 & <- & _). by apply (t_valid _ _ _ T o1).
  - intros o1 l1 [Hn1 Hn2]%not_elem_of_union H1. destruct (Hs o1 l1 H1) as (l2 & H2 & E2 & Ep2 & _). rewrite <- E2, <- Ep2.
    destruct (t_parent _ _ _ T o1 l2 Hn2 H2) as [?|(ds & d & po' & pl' & ? & ? & ? & Epp & Hpo' & Hpl' & ?)]; [by left|right].
    destruct (Hs2 po' pl' Hpl') as (pl2 & Hpl2 & Epl2 & _). exists ds, d, po', pl2. split_and!; try done; [|congruence].
    assert (po' <> o); [|set_solver]. intros ->. by apply (Hno o1 l2).
  - intros o1 l1 [Hn1 Hn2]%not_elem_of_union H1. destruct (Hs o1 l1 H1) as (l2 & H2 & E2 & Ep2 & Ec2).
    destruct (t_children _ _ _ T o1 l2 Hn2 H2) as [Hnd Hch]. destruct (remove_child_spec o (l_children l2) Hnd) as [Hnd' Hrem].
    assert (Hchild : forall o2, (o2 ∉ {[o]} ∪ O /\ exists l3, tr' !! o2 = Some l3 /\ l_parent l3 = Some o1) <->
      (o2 ∈ l_children l2 /\ o2 <> o)).
    { intros o2. rewrite Hch. split.
      - intros [Hn3 (l3 & H3 & E3)]. destruct (Hs o2 l3 H3) as (l4 & H4 & _ & E4 & _). split; [|set_solver].
        split; [set_solver|]. exists l4. split; [done|congruence].
      - intros [[Hn3 (l3 & H3 & E3)] Hne3]. split; [set_solver|]. destruct (Hs2 o2 l3 H3) as (l4 & H4 & _ & E4). exists l4. split; [done|congruence]. }
    rewrite Ec2. destruct (decide (o1 = po)) as [->|Hne1].
    + split; [done|]. intros o2. by rewrite Hrem, Hchild.
    + split; [done|]. intros o2. rewrite Hchild. split; [|naive_solver]. intros Hin. split; [done|]. intros ->.
      apply Hch in Hin as [_ (l3 & H3 & E3)]. congruence.
  - intros o1 l1 Hin H1. destruct (Hs o1 l1 H1) as (l2 & H2 & _ & _ & Ec2). rewrite Ec2.
    destruct (decide (o1 = po)) as [->|Hne1]; [set_solver|]. destruct (decide (o1 = o)) as [->|]; [congruence|].
    apply (t_loose _ _ _ T o1); [set_solver|done].
Qed.

Lemma tree_unlink_root (o : oid) (l : Links) : tree_ok O ps tr -> o ∉ O -> tr !! o = Some l -> l_children l = [] ->
  l_parent l = None -> tree_ok ({[o]} ∪ O) ps tr.
Proof.
  intros T Ho Hl Hc Epo. pose proof (no_children o l T Ho Hl Hc) as Hno. split; try apply T.
  - intros o1 l1 [Hn1 Hn2]%not_elem_of_union H1.
    destruct (t_parent _ _ _ T o1 l1 Hn2 H1) as [?|(ds & d & po' & pl' & ? & ? & ? & Epp & Hpo' & Hpl' & ?)]; [by left|right].
    exists ds, d, po', pl'. split_and!; try done. assert (po' <> o); [|set_solver]. intros ->. by apply (Hno o1 l1).
  - intros o1 l1 [Hn1 Hn2]%not_elem_of_union H1. destruct (t_children _ _ _ T o1 l1 Hn2 H1) as [Hnd Hch]. split; [done|].
    intros o2. rewrite Hch. split; [|set_solver]. intros [Hn3 (l3 & H3 & E3)]. split; [|by exists l3].
    assert (o2 <> o); [|set_solver]. intros ->. congruence.
  - intros o1 l1 Hin H1. destruct (decide (o1 = o)) as [->|]; [congruence|]. apply (t_loose _ _ _ T o1); [set_solver|done].
Qed.

(** A loose object is freed. *)
Lemma tree_free (o : oid) (l : Links) : tree_ok ({[o]} ∪ O) ps tr -> o ∉ O -> tr !! o = Some l ->
  tree_ok O (delete (l_path l) ps) (delete o tr).
Proof.
  intros T Ho Hl.
  assert (Hpath : forall o1 l1, tr !! o1 = Some l1 -> l_path l1 = l_path l -> o1 = o).
  { intros o1 l1 H1 E. assert (E1 : ps !! l_path l1 = Some o1) by (apply (t_paths _ _ _ T); by exists l1).
    assert (E2 : ps !! l_path l = Some o) by (apply (t_paths _ _ _ T); by exists l). congruence. }
  assert (Hd : forall o1 l1, delete o tr !! o1 = Some l1 <-> o1 <> o /\ tr !! o1 = Some l1) by (intros; rewrite lookup_delete_Some; naive_solver).
  split.
  - intros p o1. rewrite lookup_delete_Some, (t_paths _ _ _ T). split.
    + intros [Hne (l1 & H1 & <-)]. exists l1. split; [|done]. apply Hd. split; [|done]. intros ->. congruence.
    + intros (l1 & [Hne H1]%Hd & <-). split; [|by exists l1]. intros E. by apply Hne, (Hpath o1 l1).
  - intros o1 l1 [_ H1]%Hd. by apply (t_valid _ _ _ T o1).
  - intros o1 l1 Hn1 [Hne H1]%Hd.
    destruct (t_parent _ _ _ T o1 l1 ltac:(set_solver) H1) as [?|(ds & d & po' & pl' & ? & ? & ? & Epp & Hpo' & Hpl' & ?)]; [by left|right].
    exists ds, d, po', pl'. split_and!; try done; [set_solver|]. apply Hd. split; [set_solver|done].
  - intros o1 l1 Hn1 [Hne H1]%Hd. destruct (t_children _ _ _ T o1 l1 ltac:(set_solver) H1) as [Hnd Hch]. split; [done|].
    intros o2. rewrite Hch. setoid_rewrite Hd. set_solver.
  - intros o1 l1 Hin [Hne H1]%Hd. apply (t_loose _ _ _ T o1); [set_solver|done].
Qed.
End Tree.

(** ** Binds and tables *)

(** The table entry that a bind should have. *)
Definition bound (c : Conn) (b : bid) (o : oid) (n : list Z) : Prop := exists cb x,
  bind_heap c !! b = Some cb /\ b_path cb = Some o /\ ifaces c !! b_interface cb = Some x /\ i_name x = n.

(** How many binds refer to an interface. *)
Definition refs (h : gmap bid ConnBind) (i : iid) : Z := Z.of_nat (base.size (filter (fun p => b_interface p.2 = i) h)).

Lemma tables_lookup (c : Conn) (o : oid) (m : gmap (list Z) bid) :
  tables c !! o = Some m <-> exists ob, objects c !! o = Some ob /\ interfaces ob = m.
Proof. unfold tables. rewrite lookup_fmap, fmap_Some. naive_solver. Qed.

Lemma tree_lookup (c : Conn) (o : oid) (l : Links) :
  tree c !! o = Some l <-> exists ob, objects c !! o = Some ob /\ links_of ob = l.
Proof. unfold tree. rewrite lookup_fmap, fmap_Some. naive_solver. Qed.

Lemma child_path_of (c : Conn) (o o' : oid) (ob : ObjectPath) (cs : list (list Z)) : tree_ok ∅ (paths c) (tree c) -> objects c !! o = Some ob ->
  o' ∈ children ob -> Forall component cs -> o_path ob = render cs ->
  exists d, component d /\ paths c !! render (cs ++ [d]) = Some o'.
Proof.
  intros T Hob Hin Hcs Ep. assert (Hl : tree c !! o = Some (links_of ob)) by (apply tree_lookup; by exists ob).
  destruct (t_children _ _ _ T o _ ltac:(set_solver) Hl) as [_ Hch]. apply Hch in Hin as [_ (l' & Hl' & Epar)].
  destruct (t_parent _ _ _ T o' l' ltac:(set_solver) Hl') as [[_ ?]|(ds & d & po & pl & Hds & Hdc & El & Epo & _ & Hpl & Epl)]; [congruence|].
  exists d. split; [done|]. apply (t_paths _ _ _ T). exists l'. split; [done|]. assert (po = o) as -> by congruence.
  assert (pl = links_of ob) as -> by congruence. cbn in Epl. rewrite El. do 2 f_equal. apply render_inj; [done..|congruence].
Qed.

Lemma parent_of (c : Conn) (o o' : oid) (l' : Links) (ob : ObjectPath) (cs : list (list Z)) (d : list Z) : tree_ok ∅ (paths c) (tree c) ->
  objects c !! o = Some ob -> Forall component cs -> component d -> o_path ob = render cs ->
  tree c !! o' = Some l' -> l_path l' = render (cs ++ [d]) -> l_parent l' = Some o.
Proof.
  intros T Hob Hcs Hdc Ep Hl' El. assert (Hcd : Forall component (cs ++ [d])) by (apply Forall_app; split; [done|by constructor]).
  destruct (t_parent _ _ _ T o' l' ltac:(set_solver) Hl') as [[E _]|(ds & e & po & pl & Hds & He & El' & -> & _ & Hpl & Epl)].
  - rewrite El in E. apply render_inj in E; [|done..]. by destruct cs.
  - rewrite El in El'. apply render_inj in El'; [|done|apply Forall_app; split; [done|by constructor]]. apply app_inj_tail in El' as [<- _].
    f_equal. apply (path_unique ∅ (paths c) (tree c) po o pl (links_of ob)); try done; [apply tree_lookup; by exists ob|cbn; congruence].
Qed.

Section Binds.
Context {B : Build} (dh_order : forall {A : Type}, gmap (list Z) A -> list (list Z * A)).

(** [own i]: the references to an interface that are not binds; [nI] and
    [nP]: the names of the built-in interfaces. *)
Context (own : iid -> Z) (nI nP : list Z).

Definition builtin (n : list Z) : Prop := n = nI \/ n = nP.

(** A bind of a built-in interface: its user pointer is its object. *)
Definition silent (c : Conn) (cb : ConnBind) : Prop :=
  (exists o, b_hooks cb = builtin_hooks o /\ forall o', b_path cb = Some o' -> o' = o) /\
  (b_interface cb = introspectable c \/ b_interface cb = properties c) /\ 1 <= own (b_interface cb).

(** [binds_ok E X c]: the tables and the heap of binds agree, but for the
    binds in [X], which are being freed; the objects in [E] need not have the
    built-in interfaces. *)
Record binds_ok (E : gset oid) (X : gset bid) (c : Conn) : Prop := {
  b_table : forall o m, tables c !! o = Some m -> forall n b, m !! n = Some b <-> (b ∉ X /\ bound c b o n);
  b_bound : forall b cb, bind_heap c !! b = Some cb -> b ∉ X -> exists o, b_path cb = Some o /\ is_Some (tables c !! o);
  b_iface : forall b cb, bind_heap c !! b = Some cb -> is_Some (ifaces c !! b_interface cb);
  b_builtin : forall o m, o ∉ E -> tables c !! o = Some m -> is_Some (m !! nI) /\ is_Some (m !! nP);
  b_silent : forall b cb x, bind_heap c !! b = Some cb -> ifaces c !! b_interface cb = Some x -> builtin (i_name x) -> silent c cb;
  b_list : NoDup (binds c) /\ forall b, b ∈ binds c <-> is_Some (bind_heap c !! b);
  b_refs : forall i x, ifaces c !! i = Some x -> 0 <= own i /\ i_ref x = own i + refs (bind_heap c) i /\ 0 < i_ref x;
  b_intro : exists x, ifaces c !! introspectable c = Some x /\ i_name x = nI /\ 1 <= own (introspectable c);
  b_props : exists x, ifaces c !! properties c = Some x /\ i_name x = nP /\ 1 <= own (properties c);
  b_own : forall i, 1 <= own i -> is_Some (ifaces c !! i);
  b_fresh : (forall b, is_Some (bind_heap c !! b) -> (b < next_b c)%nat) /\
            (forall o, is_Some (tables c !! o) -> (o < next_o c)%nat) }.

Lemma binds_ok_ext (E : gset oid) (X : gset bid) (c c' : Conn) : binds_ok E X c -> tables c' = tables c ->
  bind_heap c' = bind_heap c -> binds c' = binds c -> ifaces c' = ifaces c -> introspectable c' = introspectable c ->
  properties c' = properties c -> next_b c' = next_b c -> next_o c' = next_o c -> binds_ok E X c'.
Proof.
  intros [] E1 E2 E3 E4 E5 E6 E7 E8. split; unfold bound, silent in *; by rewrite ?E1, ?E2, ?E3, ?E4, ?E5, ?E6, ?E7, ?E8.
Qed.

Lemma refs_insert (h : gmap bid ConnBind) (b : bid) (cb : ConnBind) (i : iid) : h !! b = None ->
  refs (<[b := cb]> h) i = refs h i + (if decide (b_interface cb = i) then 1 else 0).
Proof.
  intros Hb. unfold refs. rewrite map_filter_insert. cbn [snd]. case_decide.
  - rewrite map_size_insert_None; [lia|]. apply map_lookup_filter_None. by left.
  - rewrite delete_id by done. lia.
Qed.

Lemma refs_delete (h : gmap bid ConnBind) (b : bid) (cb : ConnBind) (i : iid) : h !! b = Some cb ->
  refs h i = refs (delete b h) i + (if decide (b_interface cb = i) then 1 else 0).
Proof.
  intros Hb. rewrite <- (insert_delete_id h b cb) at 1 by done. rewrite refs_insert; [done|]. apply lookup_delete_eq.
Qed.

(** A bind leaves the table of its object. *)
Lemma binds_detach (E : gset oid) (X : gset bid) (c : Conn) (o : oid) (ob : ObjectPath) (n : list Z) (b : bid) :
  binds_ok E X c -> objects c !! o = Some ob -> interfaces ob !! n = Some b -> o ∈ E \/ ~ builtin n ->
  binds_ok E ({[b]} ∪ X) (set_objects (<[o := set_interfaces (delete n (interfaces ob)) ob]> (objects c)) c).
Proof.
  intros W Ho Hn Hb. set (c' := set_objects _ c).
  assert (Ht : tables c' = <[o := delete n (interfaces ob)]> (tables c)) by (unfold tables, c'; cbn; by rewrite fmap_insert).
  assert (Hto : tables c !! o = Some (interfaces ob)) by (apply tables_lookup; by exists ob).
  assert (Hsome : forall o', is_Some (tables c' !! o') <-> is_Some (tables c !! o')).
  { intros o'. rewrite Ht. destruct (decide (o = o')) as [<-|Hne]; [rewrite lookup_insert_eq, Hto; split; by eexists|by rewrite lookup_insert_ne]. }
  pose proof (proj1 (b_table _ _ _ W o _ Hto n b) Hn) as [HbX (cb & x & Hcb & Hpath & Hx & Hname)].
  split; try apply W.
  - intros o' m Hm n' b'. change (bound c' b' o' n') with (bound c b' o' n'). rewrite Ht, lookup_insert in Hm. case_decide as Hoo.
    + injection Hm as <-. subst o'. rewrite lookup_delete_Some, (b_table _ _ _ W o _ Hto). split.
      * intros (Hne & HX' & Hbd). split; [|done]. assert (b' <> b); [|set_solver]. intros ->.
        destruct Hbd as (cb' & x' & Hcb' & _ & Hx' & <-). rewrite Hcb in Hcb'. injection Hcb' as <-. congruence.
      * intros [HX' Hbd]. split; [|split; [set_solver|done]]. intros <-. assert (interfaces ob !! n = Some b') by (apply (b_table _ _ _ W o _ Hto); split; [set_solver|done]).
        set_solver.
    + rewrite (b_table _ _ _ W o' m Hm). split; [|intros [? ?]; split; [set_solver|done]]. intros [HX' Hbd]. split; [|done].
      assert (b' <> b); [|set_solver]. intros ->. destruct Hbd as (cb' & x' & Hcb' & Hp' & _). congruence.
  - intros b' cb' Hcb' HX'. destruct (b_bound _ _ _ W b' cb' Hcb' ltac:(set_solver)) as (o' & Hp' & Hs). exists o'. split; [done|by apply Hsome].
  - intros o' m Hni Hm. rewrite Ht, lookup_insert in Hm. case_decide as Hoo; [|by apply (b_builtin _ _ _ W o')]. injection Hm as <-. subst o'.
    destruct Hb as [?|Hb]; [done|]. destruct (b_builtin _ _ _ W o _ Hni Hto) as [H1 H2]. unfold builtin in Hb.
    rewrite !lookup_delete_ne by (intros ->; apply Hb; auto). done.
  - split; [apply (b_fresh _ _ _ W)|]. intros o' Hs. by apply (b_fresh _ _ _ W), Hsome.
Qed.

Definition events (h : Hooks) : list event :=
  let call f u := match relproxy h with Some p => ReleaseProxy p (relpuser h) f u | None => Release f u end in
  match release0 h with Some f => [call f (ruser0 h)] | None => [] end ++
  match release1 h with Some f => [call f (ruser1 h)] | None => [] end.

Lemma run_release_ok (h : Hooks) (c : Conn) :
  exists c', (run* run_release h (release0 h) (ruser0 h) in run_release h (release1 h) (ruser1 h)) c = Ret tt c' /\
  c' = mkConn (paths c) (objects c) (bind_heap c) (binds c) (ifaces c) (introspectable c) (properties c) (next_o c) (next_b c)
         (released c ++ events h).
Proof.
  unfold run_release, bind, events, modify, emit_release. destruct (release0 h), (release1 h); eexists; (split; [reflexivity|]); cbn;
    by rewrite <- ?app_assoc, ?app_nil_r; try (destruct c).
Qed.

(** What stays the same of the interfaces: name and members. *)
Definition ifaces_kept (c c' : Conn) : Prop := forall i x', ifaces c' !! i = Some x' ->
  exists x, ifaces c !! i = Some x /\ i_name x' = i_name x /\ members x' = members x.

(** What freeing a bind leaves alone. *)
Definition same_tree (c c' : Conn) : Prop := paths c' = paths c /\ objects c' = objects c /\
  introspectable c' = introspectable c /\ properties c' = properties c /\ next_o c' = next_o c /\ next_b c' = next_b c.

Definition deref_ifaces (i : iid) (x : Interface) (m : gmap iid Interface) : gmap iid Interface :=
  if i_ref x =? 1 then delete i m else <[i := set_ref (i_ref x - 1) x]> m.

(** The release callbacks of the members of an interface. *)
Definition member_events (m : Member) : list event :=
  match m_release0 m with Some f => [Release f (m_ruser0 m)] | None => [] end ++
  match m_release1 m with Some f => [Release f (m_ruser1 m)] | None => [] end.
Definition iface_events (l : gmap (list Z) Member) : list event := concat (map (fun p => member_events p.2) (dh_order _ l)).
Definition deref_events (x : Interface) : list event := if i_ref x =? 1 then iface_events (members x) else [].

Definition dereffed (c : Conn) (i : iid) (x : Interface) : Conn :=
  mkConn (paths c) (objects c) (bind_heap c) (binds c) (deref_ifaces i x (ifaces c)) (introspectable c) (properties c) (next_o c) (next_b c)
    (released c ++ deref_events x).

Definition emit_all (l : list event) (c : Conn) : Conn :=
  mkConn (paths c) (objects c) (bind_heap c) (binds c) (ifaces c) (introspectable c) (properties c) (next_o c) (next_b c) (released c ++ l).

Lemma free_members_run (l : list (list Z * Member)) : forall c,
  free_members l c = Ret tt (emit_all (concat (map (fun p => member_events p.2) l)) c).
Proof.
  induction l as [|[n m] l IH]; intros c; cbn [free_members map concat].
  - unfold emit_all. rewrite app_nil_r. by destruct c.
  - assert (E : FreeMember m c = Ret tt (emit_all (member_events m) c)).
    { unfold FreeMember, bind, member_events, modify, emit_release, emit_all. destruct (m_release0 m), (m_release1 m); cbn;
        by rewrite <- ?app_assoc, ?app_nil_r; try (destruct c). }
    rewrite (bind_Ret _ _ _ _ _ E), IH. unfold emit_all. cbn. by rewrite app_assoc.
Qed.

Lemma deref_run (c : Conn) (i : iid) (x : Interface) : ifaces c !! i = Some x ->
  adbus_iface_deref dh_order i c = Ret tt (dereffed c i x).
Proof.
  intros Hx. unfold adbus_iface_deref, iface. rewrite bind_assoc, (bind_Ret get _ _ _ _ eq_refl), Hx.
  rewrite (bind_Ret (of_option (Some x)) _ _ _ _ eq_refl), (bind_Ret (put_iface _ _) _ _ _ _ eq_refl).
  unfold dereffed, deref_events, deref_ifaces. destruct (Z.eqb_spec (i_ref x) 1) as [->|Hne].
  - change (1 - 1 =? 0) with true. cbv iota. rewrite (bind_Ret _ _ _ _ _ (free_members_run _ _)).
    unfold modify, emit_all, set_ifaces. cbn. by rewrite delete_insert_eq.
  - replace (i_ref x - 1 =? 0) with false by lia. unfold ret, set_ifaces. cbn. by rewrite app_nil_r.
Qed.

Lemma deref_lookup (i j : iid) (x y' : Interface) (m : gmap iid Interface) : m !! i = Some x -> deref_ifaces i x m !! j = Some y' ->
  exists y, m !! j = Some y /\ i_name y' = i_name y /\ members y' = members y /\
    i_ref y' = i_ref y - (if decide (i = j) then 1 else 0) /\ (i = j -> i_ref y <> 1).
Proof.
  intros Hx. unfold deref_ifaces. destruct (Z.eqb_spec (i_ref x) 1) as [E|E].
  - intros [Hne Hy]%lookup_delete_Some. exists y'. rewrite decide_False by done. split_and!; try done; lia.
  - rewrite lookup_insert. case_decide as Hij.
    + intros [= <-]. subst j. exists x. split_and!; try done; lia.
    + intros Hy. exists y'. split_and!; try done; lia.
Qed.

(** The state after [free_rest]. *)
Definition after_free (c : Conn) (b : bid) (cb : ConnBind) (x : Interface) : Conn :=
  mkConn (paths c) (objects c) (delete b (bind_heap c)) (List.filter (fun b' => negb (b' =? b)%nat) (binds c))
    (deref_ifaces (b_interface cb) x (ifaces c)) (introspectable c) (properties c) (next_o c) (next_b c)
    (released c ++ (events (b_hooks cb) ++ deref_events x)).

Lemma free_rest_run (c : Conn) (b : bid) (cb : ConnBind) (x : Interface) : bind_heap c !! b = Some cb ->
  ifaces c !! b_interface cb = Some x -> free_rest dh_order b c = Ret tt (after_free c b cb x).
Proof.
  intros Hcb Hx. unfold free_rest, bind_at. rewrite bind_assoc, (bind_Ret get _ _ _ _ eq_refl), Hcb.
  rewrite (bind_Ret (of_option (Some cb)) _ _ _ _ eq_refl). cbv zeta. rewrite <- bind_assoc.
  destruct (run_release_ok (b_hooks cb) c) as (c1 & E1 & Ec1). rewrite (bind_Ret _ _ _ _ _ E1).
  rewrite (bind_Ret _ _ _ _ _ (deref_run c1 (b_interface cb) x ltac:(by subst c1))). subst c1. unfold after_free. by rewrite app_assoc.
Qed.

Lemma after_free_kept (c : Conn) (b : bid) (cb : ConnBind) (x : Interface) : ifaces c !! b_interface cb = Some x ->
  ifaces_kept c (after_free c b cb x).
Proof. intros Hx j y' Hy. destruct (deref_lookup _ _ _ _ _ Hx Hy) as (y & ? & ? & ? & _). by exists y. Qed.

Lemma binds_freed (E : gset oid) (X : gset bid) (c : Conn) (b : bid) (cb : ConnBind) (x : Interface) :
  binds_ok E ({[b]} ∪ X) c -> b ∉ X -> bind_heap c !! b = Some cb -> ifaces c !! b_interface cb = Some x ->
  binds_ok E X (after_free c b cb x).
Proof.
  intros W HbX Hcb Hx. destruct (b_refs _ _ _ W _ x Hx) as (Ho & Hr & Hpos).
  pose proof (refs_delete (bind_heap c) b cb (b_interface cb) Hcb) as Hrd. rewrite decide_True in Hrd by done.
  set (fs := deref_ifaces (b_interface cb) x (ifaces c)).
  (** an interface with another bind stays *)
  assert (Hkeep : forall j y, ifaces c !! j = Some y -> 0 < own j + refs (delete b (bind_heap c)) j ->
    exists y', fs !! j = Some y' /\ i_name y' = i_name y).
  { intros j y Hy Hj. unfold fs, deref_ifaces. destruct (Z.eqb_spec (i_ref x) 1) as [E0|E0].
    - exists y. split; [|done]. rewrite lookup_delete_ne; [done|]. intros <-. lia.
    - rewrite lookup_insert. case_decide as Hij; [|by exists y]. subst j. eexists. split; [done|]. cbn. congruence. }
  assert (Hused : forall b' cb', b' <> b -> bind_heap c !! b' = Some cb' -> 0 <= own (b_interface cb') ->
    0 < own (b_interface cb') + refs (delete b (bind_heap c)) (b_interface cb')).
  { intros b' cb' Hne Hcb' Ho'. rewrite (refs_delete (delete b (bind_heap c)) b' cb'); [rewrite decide_True by done|by rewrite lookup_delete_ne].
    unfold refs. lia. }
  assert (Hown : forall b' cb', bind_heap c !! b' = Some cb' -> 0 <= own (b_interface cb')).
  { intros b' cb' Hcb'. destruct (b_iface _ _ _ W b' cb' Hcb') as [y Hy]. by destruct (b_refs _ _ _ W _ y Hy). }
  split; cbn.
  - intros o m Hm n b'. rewrite (b_table _ _ _ W o m Hm). unfold bound. cbn. split.
    + intros [HX' (cb' & y & Hcb' & Hp & Hy & Hnm)]. assert (b' <> b) by set_solver. split; [set_solver|].
      destruct (Hkeep _ y Hy) as (y' & Hy' & Ey); [by apply (Hused b'), (Hown b')|].
      exists cb', y'. rewrite lookup_delete_ne by done. split_and!; try done. congruence.
    + intros [HX' (cb' & y' & [Hne Hcb']%lookup_delete_Some & Hp & Hy' & Hnm)]. split; [set_solver|].
      destruct (deref_lookup _ _ _ _ _ Hx Hy') as (y & Hy & Ey & _). exists cb', y. split_and!; try done. congruence.
  - intros b' cb' [Hne Hcb']%lookup_delete_Some HX'. apply (b_bound _ _ _ W b' cb' Hcb'). set_solver.
  - intros b' cb' [Hne Hcb']%lookup_delete_Some. destruct (b_iface _ _ _ W b' cb' Hcb') as [y Hy].
    destruct (Hkeep _ y Hy) as (y' & Hy' & _); [by apply (Hused b'), (Hown b')|by exists y'].
  - apply W.
  - intros b' cb' y' [Hne Hcb']%lookup_delete_Some Hy' Hbu. destruct (deref_lookup _ _ _ _ _ Hx Hy') as (y & Hy & Ey & _).
    rewrite Ey in Hbu. by apply (b_silent _ _ _ W b' cb' y).
  - destruct (b_list _ _ _ W) as [Hnd Hl]. split; [by apply NoDup_ListNoDup, List.NoDup_filter, NoDup_ListNoDup|]. intros b'. rewrite list_elem_of_In, filter_In, <- list_elem_of_In, Hl.
    rewrite negb_true_iff, Nat.eqb_neq. split.
    + intros [[y Hy] Hne]. exists y. by rewrite lookup_delete_ne.
    + intros [y [Hne Hy]%lookup_delete_Some]. split; [by exists y|done].
  - intros j y' Hy'. destruct (deref_lookup _ _ _ _ _ Hx Hy') as (y & Hy & _ & _ & Er & Hn1).
    destruct (b_refs _ _ _ W j y Hy) as (H1 & H2 & H3). split; [done|].
    rewrite (refs_delete (bind_heap c) b cb j Hcb) in H2. rewrite Er. case_decide; [specialize (Hn1 ltac:(done))|]; split; lia.
  - destruct (b_intro _ _ _ W) as (y & Hy & Hn & Ho'). destruct (Hkeep _ y Hy) as (y' & Hy' & E'); [unfold refs; lia|]. exists y'. split_and!; try done. congruence.
  - destruct (b_props _ _ _ W) as (y & Hy & Hn & Ho'). destruct (Hkeep _ y Hy) as (y' & Hy' & E'); [unfold refs; lia|]. exists y'. split_and!; try done. congruence.
  - intros i Hi. destruct (b_own _ _ _ W i Hi) as [y Hy]. destruct (Hkeep i y Hy) as (y' & Hy' & _); [unfold refs; lia|by exists y'].
  - split; [|apply (b_fresh _ _ _ W)]. intros b' [y [_ Hy]%lookup_delete_Some]. apply (b_fresh _ _ _ W). by exists y.
Qed.

(** The state after a successful [DoBind]. *)
Definition after_bind (c : Conn) (o : oid) (i : iid) (h : Hooks) (ob : ObjectPath) (x : Interface) : Conn :=
  mkConn (paths c) (<[o := set_interfaces (<[i_name x := next_b c]> (interfaces ob)) ob]> (objects c))
    (<[next_b c := mkBind (Some o) i h]> (bind_heap c)) (next_b c :: binds c)
    (<[i := set_ref (i_ref x + 1) x]> (ifaces c)) (introspectable c) (properties c) (next_o c) (S (next_b c)) (released c).

Lemma DoBind_run (c : Conn) (o : oid) (i : iid) (h : Hooks) (ob : ObjectPath) (x : Interface) :
  objects c !! o = Some ob -> ifaces c !! i = Some x ->
  DoBind o i h c = match interfaces ob !! i_name x with
                   | Some _ => Ret None c
                   | None => Ret (Some (next_b c)) (after_bind c o i h ob x)
                   end.
Proof.
  intros Ho Hx. unfold DoBind, object, iface, adbus_iface_ref. rewrite bind_assoc, (bind_Ret get _ _ _ _ eq_refl), Ho.
  rewrite (bind_Ret (of_option (Some ob)) _ _ _ _ eq_refl), bind_assoc, (bind_Ret get _ _ _ _ eq_refl), Hx.
  rewrite (bind_Ret (of_option (Some x)) _ _ _ _ eq_refl). destruct (interfaces ob !! i_name x) as [b|]; [done|].
  unfold iface, bind, get, of_option. rewrite Hx. done.
Qed.

Lemma binds_bind (E : gset oid) (c : Conn) (o : oid) (i : iid) (h : Hooks) (ob : ObjectPath) (x : Interface) :
  binds_ok E ∅ c -> objects c !! o = Some ob -> ifaces c !! i = Some x -> interfaces ob !! i_name x = None ->
  (builtin (i_name x) -> h = builtin_hooks o /\ (i = introspectable c \/ i = properties c) /\ 1 <= own i) -> binds_ok E ∅ (after_bind c o i h ob x).
Proof.
  intros W Ho Hx Hnone Hsil. set (c' := after_bind c o i h ob x). set (b := next_b c).
  assert (Hb : bind_heap c !! b = None).
  { destruct (bind_heap c !! b) eqn:Eb; [|done]. assert (b < next_b c)%nat; [|unfold b in *; lia]. apply (b_fresh _ _ _ W). by eexists. }
  assert (Ht : tables c' = <[o := <[i_name x := b]> (interfaces ob)]> (tables c)) by (unfold tables, c'; cbn; by rewrite fmap_insert).
  assert (Hto : tables c !! o = Some (interfaces ob)) by (apply tables_lookup; by exists ob).
  assert (Hsome : forall o', is_Some (tables c' !! o') <-> is_Some (tables c !! o')).
  { intros o'. rewrite Ht. destruct (decide (o = o')) as [<-|Hne]; [rewrite lookup_insert_eq, Hto; split; by eexists|by rewrite lookup_insert_ne]. }
  assert (Hif : forall j y, ifaces c !! j = Some y -> exists y', ifaces c' !! j = Some y' /\ i_name y' = i_name y).
  { intros j y Hy. cbn. rewrite lookup_insert. case_decide as Hij; [|by exists y]. subst j. eexists. split; [done|]. cbn. congruence. }
  assert (Hif2 : forall j y', ifaces c' !! j = Some y' -> exists y, ifaces c !! j = Some y /\ i_name y' = i_name y).
  { intros j y'. cbn. rewrite lookup_insert. case_decide as Hij; [|by exists y']. subst j. intros [= <-]. by exists x. }
  assert (Hbd : forall b' o' n, bound c' b' o' n <-> (b' = b /\ o' = o /\ n = i_name x) \/ bound c b' o' n).
  { intros b' o' n. split.
    - intros (cb & y' & Hcb & Hp & Hy' & Hn). cbn in Hcb. rewrite lookup_insert in Hcb. destruct (Hif2 _ _ Hy') as (y & Hy & Ey).
      case_decide as Hbb; [left|right; exists cb, y; split_and!; try done; congruence]. injection Hcb as <-. cbn in Hp, Hy. split_and!; [by rewrite <- Hbb|congruence|congruence].
    - intros [(-> & -> & ->)|(cb & y & Hcb & Hp & Hy & Hn)].
      + destruct (Hif i x Hx) as (y' & Hy' & Ey). exists (mkBind (Some o) i h), y'. cbn. rewrite lookup_insert_eq. by split_and!.
      + destruct (Hif _ y Hy) as (y' & Hy' & Ey). exists cb, y'. cbn [bind_heap c' after_bind]. rewrite lookup_insert_ne by (intros <-; unfold b in *; congruence).
        split_and!; try done. congruence. }
  split.
  - intros o' m Hm n b'. rewrite Hbd. rewrite Ht, lookup_insert in Hm. case_decide as Hoo.
    + injection Hm as <-. subst o'. rewrite lookup_insert. pose proof (b_table _ _ _ W o _ Hto n b') as Hold. case_decide as Hn.
      * subst n. rewrite Hnone in Hold. split; [intros [= <-]; split; [set_solver|by left]|]. intros [HX [(-> & _)|Hbd']]; [done|].
        exfalso. assert (None = Some b') by (by apply Hold). done.
      * rewrite Hold. split; [intros [? ?]; split; [done|by right]|]. intros [? [(_ & _ & ->)|?]]; done.
    + rewrite (b_table _ _ _ W o' m Hm). split; [intros [? ?]; split; [done|by right]|]. intros [? [(_ & -> & _)|?]]; done.
  - intros b' cb' Hcb' HX'. cbn in Hcb'. rewrite lookup_insert in Hcb'. case_decide as Hbb.
    + injection Hcb' as <-. exists o. split; [done|]. apply Hsome. by eexists.
    + destruct (b_bound _ _ _ W b' cb' Hcb' HX') as (o' & Hp' & Hs). exists o'. split; [done|by apply Hsome].
  - intros b' cb' Hcb'. cbn in Hcb'. rewrite lookup_insert in Hcb'. case_decide as Hbb.
    + injection Hcb' as <-. destruct (Hif i x Hx) as (y' & Hy' & _). by exists y'.
    + destruct (b_iface _ _ _ W b' cb' Hcb') as [y Hy]. destruct (Hif _ y Hy) as (y' & Hy' & _). by exists y'.
  - intros o' m Hni Hm. rewrite Ht, lookup_insert in Hm. case_decide as Hoo; [|by apply (b_builtin _ _ _ W o')].
    injection Hm as <-. subst o'. destruct (b_builtin _ _ _ W o _ Hni Hto) as [H1 H2].
    rewrite !lookup_insert. split; case_decide; by eauto.
  - intros b' cb' y' Hcb' Hy' Hbu. cbn in Hcb'. rewrite lookup_insert in Hcb'. destruct (Hif2 _ _ Hy') as (y & Hy & Ey). rewrite Ey in Hbu.
    case_decide as Hbb; [|by apply (b_silent _ _ _ W b' cb' y)]. injection Hcb' as <-. cbn in *. destruct Hsil as (-> & Hi & Ho'); [congruence|].
    split; [|by split]. exists o. split; [done|]. by intros o2 [= ->].
  - destruct (b_list _ _ _ W) as [Hnd Hl]. cbn. split.
    + apply NoDup_cons. split; [|done]. rewrite Hl. fold b. rewrite Hb. by intros [? ?].
    + intros b'. rewrite elem_of_cons, Hl, lookup_insert_is_Some. fold b.
      destruct (decide (b = b')) as [<-|Hne]; [split; by left|].
      split; [intros [->|?]; [done|by right]|intros [->|[_ ?]]; [by left|by right]].
  - intros j y' Hy'. assert (Hr : refs (bind_heap c') j = refs (bind_heap c) j + (if decide (i = j) then 1 else 0)) by (apply refs_insert; exact Hb).
    rewrite Hr. cbn in Hy'. rewrite lookup_insert in Hy'. destruct (decide (i = j)) as [<-|Hij].
    + injection Hy' as <-. destruct (b_refs _ _ _ W i x Hx) as (? & ? & ?). cbn. split_and!; lia.
    + destruct (b_refs _ _ _ W j y' Hy') as (? & ? & ?). split_and!; lia.
  - destruct (b_intro _ _ _ W) as (y & Hy & Hn & Ho'). destruct (Hif _ y Hy) as (y' & Hy' & E'). exists y'. split_and!; try done. congruence.
  - destruct (b_props _ _ _ W) as (y & Hy & Hn & Ho'). destruct (Hif _ y Hy) as (y' & Hy' & E'). exists y'. split_and!; try done. congruence.
  - intros i' Hi'. destruct (b_own _ _ _ W i' Hi') as [y Hy]. destruct (Hif i' y Hy) as (y' & Hy' & _). by exists y'.
  - destruct (b_fresh _ _ _ W) as [F1 F2]. split; [|intros o' Hs; by apply F2, Hsome].
    intros b'. cbn. rewrite lookup_insert_is_Some. intros [<-|[_ Hs]]; [lia|]. specialize (F1 b' Hs). lia.
Qed.

(** An object with both built-in interfaces needs no exception. *)
Lemma binds_complete (E : gset oid) (X : gset bid) (c : Conn) (o : oid) (m : gmap (list Z) bid) : binds_ok ({[o]} ∪ E) X c ->
  tables c !! o = Some m -> is_Some (m !! nI) -> is_Some (m !! nP) -> binds_ok E X c.
Proof.
  intros W Hm H1 H2. split; try apply W. intros o' m' Hni Hm'. destruct (decide (o' = o)) as [->|Hne].
  - rewrite Hm in Hm'. injection Hm' as <-. done.
  - apply (b_builtin _ _ _ W o'); [set_solver|done].
Qed.

(** A new object has no interfaces. *)
Lemma binds_new (E : gset oid) (X : gset bid) (c c' : Conn) (p : list Z) : binds_ok E X c ->
  c' = set_objects (<[next_o c := mkObject p ∅ [] None]> (objects c)) (set_next (S (next_o c)) (next_b c) c) ->
  binds_ok ({[next_o c]} ∪ E) X c'.
Proof.
  intros W ->. set (c' := set_objects _ _). set (o := next_o c).
  assert (Ht : tables c' = <[o := ∅]> (tables c)) by (unfold tables, c'; cbn; by rewrite fmap_insert).
  assert (Ho : tables c !! o = None).
  { destruct (tables c !! o) eqn:Eo; [|done]. assert (o < next_o c)%nat; [|unfold o in *; lia]. apply (b_fresh _ _ _ W). by eexists. }
  split; try apply W.
  - intros o' m Hm n b. change (bound c' b o' n) with (bound c b o' n). rewrite Ht, lookup_insert in Hm. case_decide as Hoo.
    + injection Hm as <-. rewrite lookup_empty. split; [done|]. intros [HX (cb & x & Hcb & Hp & _)].
      destruct (b_bound _ _ _ W b cb Hcb HX) as (o2 & Hp2 & [y Hy]). congruence.
    + by apply (b_table _ _ _ W).
  - intros b cb Hcb HX. destruct (b_bound _ _ _ W b cb Hcb HX) as (o' & Hp & Hs). exists o'. split; [done|].
    rewrite Ht, lookup_insert_is_Some. destruct (decide (o = o')); [by left|by right].
  - intros o' m Hni Hm. rewrite Ht, lookup_insert_ne in Hm by set_solver. apply (b_builtin _ _ _ W o'); [set_solver|done].
  - destruct (b_fresh _ _ _ W) as [F1 F2]. split; [done|]. intros o'. rewrite Ht, lookup_insert_is_Some. cbn.
    intros [<-|[_ Hs]]; [unfold o; lia|]. specialize (F2 o' Hs). lia.
Qed.

(** An object without interfaces is freed. *)
Lemma binds_free (E : gset oid) (X : gset bid) (c : Conn) (o : oid) : binds_ok ({[o]} ∪ E) X c -> tables c !! o = Some ∅ ->
  binds_ok E X (set_objects (delete o (objects c)) c).
Proof.
  intros W Ho. set (c' := set_objects _ c).
  assert (Ht : tables c' = delete o (tables c)) by (unfold tables, c'; cbn; by rewrite fmap_delete).
  split; try apply W.
  - intros o' m Hm n b. rewrite Ht in Hm. apply lookup_delete_Some in Hm as [_ Hm]. by apply (b_table _ _ _ W).
  - intros b cb Hcb HX. destruct (b_bound _ _ _ W b cb Hcb HX) as (o' & Hp & Hs). exists o'. split; [done|].
    rewrite Ht, lookup_delete_ne; [done|]. intros <-. destruct (b_iface _ _ _ W b cb Hcb) as [x Hx].
    assert (Hbad : (∅ : gmap (list Z) bid) !! i_name x = Some b) by (apply (b_table _ _ _ W o ∅ Ho); split; [done|by exists cb, x]).
    by rewrite lookup_empty in Hbad.
  - intros o' m Hni Hm. rewrite Ht in Hm. apply lookup_delete_Some in Hm as [Hne Hm]. apply (b_builtin _ _ _ W o'); [set_solver|done].
  - destruct (b_fresh _ _ _ W) as [F1 F2]. split; [done|]. intros o' [m Hm]. rewrite Ht in Hm. apply lookup_delete_Some in Hm as [_ Hm].
    apply F2. by exists m.
Qed.

Lemma binds_weaken (E E' : gset oid) (X : gset bid) (c : Conn) : binds_ok E X c -> E ⊆ E' -> binds_ok E' X c.
Proof. intros W Hs. split; try apply W. intros o m Hni. apply (b_builtin _ _ _ W o). set_solver. Qed.

(** ** Making and pruning objects *)

Definition conn_ok (O E : gset oid) (X : gset bid) (c : Conn) : Prop := tree_ok O (paths c) (tree c) /\ binds_ok E X c.

Lemma tree_insert (c : Conn) (o : oid) (ob : ObjectPath) :
  tree (set_objects (<[o := ob]> (objects c)) c) = <[o := links_of ob]> (tree c).
Proof. unfold tree. cbn. by rewrite fmap_insert. Qed.

Lemma tree_same (c : Conn) (o : oid) (ob ob' : ObjectPath) : objects c !! o = Some ob -> links_of ob' = links_of ob ->
  links_of <$> <[o := ob']> (objects c) = tree c.
Proof. intros Ho El. rewrite fmap_insert, El. apply insert_id. apply tree_lookup. by exists ob. Qed.

Lemma tables_same (c : Conn) (o : oid) (ob ob' : ObjectPath) : objects c !! o = Some ob -> interfaces ob' = interfaces ob ->
  interfaces <$> <[o := ob']> (objects c) = tables c.
Proof. intros Ho El. rewrite fmap_insert, El. apply insert_id. apply tables_lookup. by exists ob. Qed.

(** An object is needed when it has more than the built-in interfaces, or
    children. *)
Definition needed (c : Conn) (o : oid) : Prop := exists ob, objects c !! o = Some ob /\
  ((2 < base.size (interfaces ob))%nat \/ children ob <> []).

Definition all_needed (O : gset oid) (c : Conn) : Prop := forall o, is_Some (objects c !! o) -> o ∉ O -> needed c o.

(** What [GetObject] adds: objects with nothing but the built-in interfaces,
    at the path and its ancestors. *)
Record grown (O : gset oid) (cs : list (list Z)) (c c' : Conn) : Prop := {
  g_tables : forall o m, tables c !! o = Some m -> tables c' !! o = Some m;
  g_new : forall o m, tables c' !! o = Some m -> tables c !! o = None -> forall n b, m !! n = Some b -> builtin n;
  g_paths : forall p o, paths c !! p = Some o -> paths c' !! p = Some o;
  g_prefix : forall p, is_Some (paths c' !! p) -> is_Some (paths c !! p) \/ exists ds, ds `prefix_of` cs /\ p = render ds;
  g_loose : forall o ob, o ∈ O -> objects c !! o = Some ob -> objects c' !! o = Some ob;
  g_heap : forall b cb, bind_heap c !! b = Some cb -> bind_heap c' !! b = Some cb;
  g_released : released c' = released c;
  g_ifaces : forall i x, ifaces c !! i = Some x -> exists x', ifaces c' !! i = Some x' /\ i_name x' = i_name x /\ members x' = members x;
  g_intro : introspectable c' = introspectable c;
  g_props : properties c' = properties c;
  g_kept : ifaces_kept c c' }.

Lemma grown_refl (O : gset oid) (cs : list (list Z)) (c : Conn) : grown O cs c c.
Proof. split; try done; [congruence|by left|by eauto|]. intros i x Hx. by exists x. Qed.

Lemma new_object_ok (O : gset oid) (c : Conn) (cs : list (list Z)) : nI <> nP -> conn_ok O ∅ ∅ c -> Forall component cs ->
  paths c !! render cs = None ->
  exists c', new_object (render cs) c = Ret (next_o c) c' /\
  conn_ok ({[next_o c]} ∪ O) ∅ ∅ c' /\ objects c !! next_o c = None /\
  (exists m, objects c' = <[next_o c := mkObject (render cs) m [] None]> (objects c) /\ forall n b, m !! n = Some b -> builtin n) /\
  paths c' = <[render cs := next_o c]> (paths c) /\ grown O cs c c'.
Proof.
  intros Hn [T W] Hcs Hp. set (o := next_o c). set (ob0 := mkObject (render cs) ∅ [] None).
  assert (Ho : objects c !! o = None).
  { destruct (objects c !! o) as [ob|] eqn:Eo; [|done]. assert (o < next_o c)%nat; [|unfold o in *; lia]. apply (b_fresh _ _ _ W).
    exists (interfaces ob). apply tables_lookup. by exists ob. }
  destruct (b_intro _ _ _ W) as (xi & Hxi & Eni & Hoi). destruct (b_props _ _ _ W) as (xp & Hxp & Enp & Hop).
  set (c1 := set_paths (<[render cs := o]> (paths c)) (set_objects (<[o := ob0]> (objects c)) (set_next (S o) (next_b c) c))).
  assert (W1 : binds_ok {[o]} ∅ c1).
  { pose proof (binds_new ∅ ∅ c _ (render cs) W eq_refl) as W0. rewrite union_empty_r_L in W0. eapply binds_ok_ext; [exact W0|done..]. }
  assert (Ho1 : objects c1 !! o = Some ob0) by apply lookup_insert_eq.
  set (c2 := after_bind c1 o (introspectable c) (builtin_hooks o) ob0 xi).
  assert (W2 : binds_ok {[o]} ∅ c2) by (apply binds_bind; try done; intros _; split_and!; [done|by left|done]).
  set (ob1 := set_interfaces (<[i_name xi := next_b c]> ∅) ob0).
  assert (Ho2 : objects c2 !! o = Some ob1) by (cbn; by rewrite lookup_insert_eq).
  assert (Hxp2 : ifaces c2 !! properties c = Some xp).
  { cbn. rewrite lookup_insert_ne; [done|]. intros E. rewrite E in Hxi. congruence. }
  assert (Hfree : interfaces ob1 !! i_name xp = None) by (cbn; rewrite lookup_insert_ne; [done|congruence]).
  set (c3 := after_bind c2 o (properties c) (builtin_hooks o) ob1 xp).
  assert (W3 : binds_ok ∅ ∅ c3).
  { apply (binds_complete ∅ ∅ c3 o (<[i_name xp := next_b c2]> (interfaces ob1))).
    - rewrite union_empty_r_L. apply binds_bind; try done. intros _. split_and!; [done|by right|done].
    - apply tables_lookup. eexists. split; [cbn; apply lookup_insert_eq|done].
    - cbn. rewrite lookup_insert_ne by congruence. rewrite <- Eni, lookup_insert_eq. by eexists.
    - rewrite <- Enp, lookup_insert_eq. by eexists. }
  exists c3. split.
  { unfold new_object. rewrite (bind_Ret get _ _ _ _ eq_refl), (bind_Ret (put _) _ _ _ _ eq_refl), (bind_Ret (put_object _ _) _ _ _ _ eq_refl), (bind_Ret (modify _) _ _ _ _ eq_refl).
    erewrite bind_Ret by (rewrite (DoBind_run c1 o _ _ ob0 xi Ho1 Hxi); reflexivity).
    erewrite bind_Ret by (rewrite (DoBind_run c2 o _ _ ob1 xp Ho2 Hxp2), Hfree; reflexivity). done. }
  assert (Eobj : objects c3 = <[o := mkObject (render cs) (<[i_name xp := next_b c2]> (interfaces ob1)) [] None]> (objects c)).
  { cbn. by rewrite !insert_insert_eq. }
  assert (Hm : forall n b, <[i_name xp := next_b c2]> (interfaces ob1) !! n = Some b -> builtin n).
  { intros n b. cbn. rewrite !lookup_insert. unfold builtin. repeat case_decide; subst; auto. by rewrite lookup_empty. }
  split; [split; [|exact W3]|split; [done|split; [by eexists|split; [done|]]]].
  - assert (Et : tree c3 = <[o := mkLinks (render cs) [] None]> (tree c)) by (unfold tree; by rewrite Eobj, fmap_insert).
    rewrite Et. apply (tree_new O (paths c) (tree c) o (render cs) cs); try done. unfold tree. by rewrite lookup_fmap, Ho.
  - assert (Ett : forall o', o' <> o -> tables c3 !! o' = tables c !! o').
    { intros o' Hne. unfold tables. rewrite !lookup_fmap, Eobj, lookup_insert_ne by done. done. }
    assert (Hto : tables c !! o = None) by (unfold tables; by rewrite lookup_fmap, Ho).
    split; try done.
    + intros o' m Hm'. rewrite Ett; [done|]. intros ->. congruence.
    + intros o' m Hm' Hno n b Hb. destruct (decide (o' = o)) as [->|Hne]; [|rewrite Ett in Hm' by done; congruence].
      apply tables_lookup in Hm' as (ob & Hob & <-). rewrite Eobj, lookup_insert_eq in Hob. injection Hob as <-. by apply (Hm n b).
    + intros p o' Hpo. cbn. rewrite lookup_insert_ne; [done|]. intros <-. congruence.
    + intros p. cbn. rewrite lookup_insert_is_Some. intros [<-|[_ Hs]]; [right; by exists cs|by left].
    + intros o' ob Hin Hob. rewrite Eobj, lookup_insert_ne; [done|]. intros <-. congruence.
    + intros b cb Hcb. cbn. destruct (b_fresh _ _ _ W) as [F _]. specialize (F b ltac:(by eexists)). rewrite !lookup_insert_ne by lia. done.
    + intros i x Hx. cbn. rewrite lookup_insert. case_decide as Hi; [subst i; rewrite Hxp in Hx; injection Hx as <-; by eexists|].
      rewrite lookup_insert. case_decide as Hi'; [subst i; rewrite Hxi in Hx; injection Hx as <-; by eexists|by exists x].
    + intros i x'. cbn. rewrite !lookup_insert. repeat case_decide; subst; intros Hx; try (injection Hx as <-); eauto.
Qed.

Lemma ifaces_kept_refl (c : Conn) : ifaces_kept c c.
Proof. intros i x Hx. by exists x. Qed.

Lemma ifaces_kept_trans (c1 c2 c3 : Conn) : ifaces_kept c1 c2 -> ifaces_kept c2 c3 -> ifaces_kept c1 c3.
Proof.
  intros K1 K2 i x Hx. destruct (K2 i x Hx) as (y & Hy & ? & ?). destruct (K1 i y Hy) as (z & Hz & ? & ?).
  exists z. split_and!; [done|congruence|congruence].
Qed.

Lemma grown_trans (O O' : gset oid) (cs ds : list (list Z)) (c1 c2 c3 : Conn) : O ⊆ O' -> ds `prefix_of` cs ->
  grown O cs c1 c2 -> grown O' ds c2 c3 -> grown O cs c1 c3.
Proof.
  intros HO Hds G1 G2. split.
  - intros o m Hm. by apply (g_tables _ _ _ _ G2), (g_tables _ _ _ _ G1).
  - intros o m Hm Hn n b Hb. destruct (tables c2 !! o) as [m2|] eqn:E2.
    + assert (m2 = m) as -> by (apply (g_tables _ _ _ _ G2) in E2; congruence). by apply (g_new _ _ _ _ G1 o m E2 Hn n b).
    + by apply (g_new _ _ _ _ G2 o m Hm E2 n b).
  - intros p o Hp. by apply (g_paths _ _ _ _ G2), (g_paths _ _ _ _ G1).
  - intros p Hp. destruct (g_prefix _ _ _ _ G2 p Hp) as [Hp2|(es & Hes & ->)]; [by apply (g_prefix _ _ _ _ G1)|].
    right. exists es. split; [by etransitivity|done].
  - intros o ob Hin Ho. apply (g_loose _ _ _ _ G2); [set_solver|]. by apply (g_loose _ _ _ _ G1).
  - intros b cb Hb. by apply (g_heap _ _ _ _ G2), (g_heap _ _ _ _ G1).
  - by rewrite (g_released _ _ _ _ G2), (g_released _ _ _ _ G1).
  - intros i x Hx. destruct (g_ifaces _ _ _ _ G1 i x Hx) as (y & Hy & E1 & E2).
    destruct (g_ifaces _ _ _ _ G2 i y Hy) as (z & Hz & E3 & E4). exists z. split_and!; [done|congruence|congruence].
  - by rewrite (g_intro _ _ _ _ G2), (g_intro _ _ _ _ G1).
  - by rewrite (g_props _ _ _ _ G2), (g_props _ _ _ _ G1).
  - eapply ifaces_kept_trans; [apply G1|apply G2].
Qed.

(** The objects [o] and [po] linked. *)
Definition linked (c : Conn) (o po : oid) (ob pob : ObjectPath) : Conn :=
  set_objects (<[po := set_children (children pob ++ [o]) pob]> (<[o := set_parent (Some po) ob]> (objects c))) c.

Lemma link_run (c : Conn) (o po : oid) (ob pob : ObjectPath) : o <> po -> objects c !! o = Some ob -> objects c !! po = Some pob ->
  (let* ob := object o in
   run* put_object o (set_parent (Some po) ob) in
   let* pob := object po in
   run* put_object po (set_children (children pob ++ [o]) pob) in
   ret o) c = Ret o (linked c o po ob pob).
Proof.
  intros Hne Ho Hpo. unfold object. rewrite bind_assoc, (bind_Ret get _ _ _ _ eq_refl), Ho.
  rewrite (bind_Ret (of_option (Some ob)) _ _ _ _ eq_refl), (bind_Ret (put_object _ _) _ _ _ _ eq_refl).
  rewrite bind_assoc, (bind_Ret get _ _ _ _ eq_refl). cbn [objects set_objects]. rewrite lookup_insert_ne, Hpo by done. done.
Qed.

Lemma linked_ok (O : gset oid) (c : Conn) (o po : oid) (ob pob : ObjectPath) (cs : list (list Z)) (d : list Z) :
  conn_ok ({[o]} ∪ O) ∅ ∅ c -> o ∉ O -> po ∉ {[o]} ∪ O -> objects c !! o = Some ob -> objects c !! po = Some pob ->
  Forall component cs -> component d -> o_path ob = render (cs ++ [d]) -> o_path pob = render cs ->
  conn_ok O ∅ ∅ (linked c o po ob pob) /\ tables (linked c o po ob pob) = tables c.
Proof.
  intros [T W] Ho Hpo Hob Hpob Hcs Hd Ep Epp. assert (Hne : po <> o) by set_solver.
  assert (Et : tables (linked c o po ob pob) = tables c).
  { unfold tables, linked. cbn. rewrite !fmap_insert. cbn. rewrite insert_id.
    - apply insert_id. apply tables_lookup. by exists ob.
    - rewrite lookup_insert_ne by done. apply tables_lookup. by exists pob. }
  split; [split|done].
  - change (paths (linked c o po ob pob)) with (paths c).
    assert (E : tree (linked c o po ob pob) = <[po := mkLinks (o_path pob) (children pob ++ [o]) (parent pob)]>
      (<[o := mkLinks (o_path ob) (children ob) (Some po)]> (tree c))) by (unfold tree, linked; cbn; by rewrite !fmap_insert).
    rewrite E. apply (tree_link O (paths c) (tree c) o po (links_of ob) (links_of pob) cs d); try done; apply tree_lookup; by eexists.
  - by eapply binds_ok_ext.
Qed.

Lemma needed_same (c c' : Conn) (o : oid) : objects c' !! o = objects c !! o -> needed c o -> needed c' o.
Proof. intros E (ob & Hob & Hn). exists ob. by rewrite E. Qed.

(** The parent of a linked object is needed, and the others stay so. *)
Lemma linked_needed (O : gset oid) (c : Conn) (o po : oid) (ob pob : ObjectPath) : po <> o ->
  all_needed ({[po]} ∪ ({[o]} ∪ O)) c -> all_needed ({[o]} ∪ O) (linked c o po ob pob).
Proof.
  intros Hne Hall o' Hs Hni. destruct (decide (o' = po)) as [->|Hne'].
  - exists (set_children (children pob ++ [o]) pob). split; [apply lookup_insert_eq|]. right. cbn. by destruct (children pob).
  - assert (o' <> o) by set_solver.
    assert (E : objects (linked c o po ob pob) !! o' = objects c !! o') by (cbn; by rewrite !lookup_insert_ne).
    rewrite E in Hs. apply (needed_same c); [done|]. apply Hall; [done|set_solver].
Qed.

Lemma GetObject_ok (fuel : nat) : nI <> nP -> forall (cs : list (list Z)) (O : gset oid) (c : Conn), (length cs < fuel)%nat ->
  conn_ok O ∅ ∅ c -> Forall component cs -> (forall o, o ∈ O -> is_Some (objects c !! o)) ->
  (forall ds o, ds `prefix_of` cs -> paths c !! render ds = Some o -> o ∉ O) -> all_needed O c ->
  exists o c', GetObject fuel (render cs) c = Ret o c' /\ conn_ok O ∅ ∅ c' /\ o ∉ O /\ paths c' !! render cs = Some o /\
    all_needed ({[o]} ∪ O) c' /\ grown O cs c c'.
Proof.
  intros Hn. induction fuel as [|fuel IH]; intros cs O c Hf Hc Hcs HO Hp Hneed; [lia|]. cbn [GetObject].
  rewrite (bind_Ret _ _ _ _ _ (assert_true _ c (proj2 (object_path_iff (render cs)) (ex_intro _ cs (conj Hcs eq_refl))))).
  rewrite (bind_Ret get _ _ _ _ eq_refl). destruct (paths c !! render cs) as [o|] eqn:Eo.
  { exists o, c. split; [done|]. split; [done|]. split; [by apply (Hp cs)|]. split; [done|]. split; [|apply grown_refl].
    intros o' Hs Hni. apply Hneed; [done|set_solver]. }
  destruct (new_object_ok O c cs Hn Hc Hcs Eo) as (c1 & E1 & Hc1 & Hfresh & (m & Eobj & Hm) & Epaths & G1).
  set (o := next_o c) in *. rewrite (bind_Ret _ _ _ _ _ E1).
  assert (HoO : o ∉ O) by (intros Hin; destruct (HO o Hin); congruence).
  assert (Hob : objects c1 !! o = Some (mkObject (render cs) m [] None)) by (rewrite Eobj; apply lookup_insert_eq).
  assert (Hpo : paths c1 !! render cs = Some o) by (rewrite Epaths; apply lookup_insert_eq).
  assert (Hneed1 : all_needed ({[o]} ∪ O) c1).
  { intros o' Hs Hni. assert (E : objects c1 !! o' = objects c !! o') by (rewrite Eobj, lookup_insert_ne by set_solver; done).
    rewrite E in Hs. apply (needed_same c); [done|]. apply Hneed; [done|set_solver]. }
  destruct (decide (cs = [])) as [->|Hcs0]; [|destruct (exists_last Hcs0) as (ds & d & ->)].
  - rewrite (bind_Ret _ _ _ _ _ (parent_path_root c1)). exists o, c1. split; [done|]. split; [|split_and!; done].
    destruct Hc1 as [T1 W1]. split; [|done]. apply (tree_root O _ _ o (links_of (mkObject (render []) m [] None))); try done.
    apply tree_lookup. by eexists.
  - pose proof Hcs as Hcs'. apply Forall_app in Hcs' as [Hds Hd]. apply List.Forall_inv in Hd.
    rewrite (bind_Ret _ _ _ _ _ (parent_path_snoc ds d c1 Hds Hd)).
    destruct (IH ds ({[o]} ∪ O) c1) as (po & c2 & E2 & Hc2 & Hpo2 & Hpp & Hneed2 & G2).
    { rewrite length_app in Hf. cbn in Hf. lia. } { done. } { done. }
    { intros o' [->%elem_of_singleton|Hin]%elem_of_union; [by eexists|]. destruct (HO o' Hin) as [ob' Hob']. exists ob'.
      by apply (g_loose _ _ _ _ G1). }
    { intros es o' Hes Ho'. rewrite Epaths in Ho'. rewrite lookup_insert_ne in Ho'.
      - apply not_elem_of_union. split; [|apply (Hp es); [by apply prefix_app_r|done]].
        intros ->%elem_of_singleton. apply (t_paths _ _ _ (proj1 Hc)) in Ho' as (l & Hl & _).
        apply tree_lookup in Hl as (ob' & Hob' & _). congruence.
      - intros E. apply render_inj in E; [|done|].
        + apply prefix_length in Hes. rewrite <- E, length_app in Hes. cbn in Hes. lia.
        + destruct Hes as [k ->]. by apply Forall_app in Hds as [? _]. }
    { done. }
    rewrite (bind_Ret _ _ _ _ _ E2).
    assert (Hob2 : objects c2 !! o = Some (mkObject (render (ds ++ [d])) m [] None)) by (apply (g_loose _ _ _ _ G2); [set_solver|done]).
    destruct (proj1 (t_paths _ _ _ (proj1 Hc2) (render ds) po) Hpp) as (l & Hl & El).
    apply tree_lookup in Hl as (pob & Hpob & <-). cbn in El.
    assert (Hne : po <> o) by set_solver.
    rewrite (link_run c2 o po _ pob ltac:(done) Hob2 Hpob).
    destruct (linked_ok O c2 o po _ pob ds d Hc2 HoO Hpo2 Hob2 Hpob Hds Hd eq_refl El) as [Hc3 Et3].
    eexists o, _. split; [reflexivity|]. split; [done|]. split; [done|]. split; [|split].
    + apply (g_paths _ _ _ _ G2). done.
    + by apply linked_needed.
    + assert (G : grown O (ds ++ [d]) c c2) by (eapply (grown_trans O ({[o]} ∪ O) (ds ++ [d]) ds); [set_solver|by exists [d]|done|done]).
      destruct G. split; rewrite ?Et3; try done. intros o' ob' Hin Hob'. cbn. rewrite !lookup_insert_ne; [by apply g_loose0| |]; set_solver.
Qed.

(** *** Pruning *)

(** What pruning takes away: objects and binds of built-in interfaces; the
    objects in [O] and the binds in [X] stay. *)
Record shrunk (O : gset oid) (X : gset bid) (c c' : Conn) : Prop := {
  s_tables : forall o m, tables c' !! o = Some m -> tables c !! o = Some m;
  s_gone : forall o m, tables c !! o = Some m -> tables c' !! o = None -> forall n b, m !! n = Some b -> builtin n;
  s_paths : forall p o, paths c' !! p = Some o -> paths c !! p = Some o;
  s_loose : forall o, o ∈ O -> objects c' !! o = objects c !! o;
  s_heap : forall b, b ∈ X -> bind_heap c' !! b = bind_heap c !! b;
  s_kept : forall b cb, bind_heap c' !! b = Some cb -> bind_heap c !! b = Some cb;
  s_released : released c' = released c;
  s_ifaces : ifaces_kept c c';
  s_intro : introspectable c' = introspectable c;
  s_props : properties c' = properties c;
  s_next : next_o c' = next_o c /\ next_b c' = next_b c }.

Lemma shrunk_refl (O : gset oid) (X : gset bid) (c : Conn) : shrunk O X c c.
Proof. split; try done; [congruence|apply ifaces_kept_refl]. Qed.

Lemma shrunk_trans (O O' : gset oid) (X : gset bid) (c1 c2 c3 : Conn) : O ⊆ O' ->
  shrunk O X c1 c2 -> shrunk O' X c2 c3 -> shrunk O X c1 c3.
Proof.
  intros HO S1 S2. split.
  - intros o m Hm. by apply (s_tables _ _ _ _ S1), (s_tables _ _ _ _ S2).
  - intros o m Hm Hn n b Hb. destruct (tables c2 !! o) as [m2|] eqn:E2.
    + assert (m2 = m) as -> by (apply (s_tables _ _ _ _ S1) in E2; congruence). by apply (s_gone _ _ _ _ S2 o m E2 Hn n b).
    + by apply (s_gone _ _ _ _ S1 o m Hm E2 n b).
  - intros p o Hp. by apply (s_paths _ _ _ _ S1), (s_paths _ _ _ _ S2).
  - intros o Hin. rewrite (s_loose _ _ _ _ S2) by set_solver. by apply (s_loose _ _ _ _ S1).
  - intros b Hb. by rewrite (s_heap _ _ _ _ S2), (s_heap _ _ _ _ S1).
  - intros b cb Hb. by apply (s_kept _ _ _ _ S1), (s_kept _ _ _ _ S2).
  - by rewrite (s_released _ _ _ _ S2), (s_released _ _ _ _ S1).
  - eapply ifaces_kept_trans; [apply S1|apply S2].
  - by rewrite (s_intro _ _ _ _ S2), (s_intro _ _ _ _ S1).
  - by rewrite (s_props _ _ _ _ S2), (s_props _ _ _ _ S1).
  - destruct (s_next _ _ _ _ S1), (s_next _ _ _ _ S2). split; congruence.
Qed.

(** What the loop over the built-in binds of [o] leaves alone. *)
Record stripped (X : gset bid) (c c' : Conn) : Prop := {
  st_paths : paths c' = paths c;
  st_heap : forall b, b ∈ X -> bind_heap c' !! b = bind_heap c !! b;
  st_kept : forall b cb, bind_heap c' !! b = Some cb -> bind_heap c !! b = Some cb;
  st_released : released c' = released c;
  st_ifaces : ifaces_kept c c';
  st_rest : introspectable c' = introspectable c /\ properties c' = properties c /\ next_o c' = next_o c /\ next_b c' = next_b c }.

(** One round: the bind is freed and leaves the table. *)
Lemma remove_builtin_ok (fuel : nat) (E : gset oid) (X : gset bid) (c : Conn) (o : oid) (ob : ObjectPath) (n : list Z) (b : bid)
  (l : list (list Z * bid)) : binds_ok E X c -> o ∈ E -> objects c !! o = Some ob -> interfaces ob !! n = Some b -> builtin n ->
  exists c', remove_builtins (adbusI_freeBind dh_order (S fuel)) o ((n, b) :: l) c =
    remove_builtins (adbusI_freeBind dh_order (S fuel)) o l c' /\
    binds_ok E X c' /\ objects c' = <[o := set_interfaces (delete n (interfaces ob)) ob]> (objects c) /\ stripped X c c'.
Proof.
  intros W Ho Hob Hn Hbu. assert (Hto : tables c !! o = Some (interfaces ob)) by (apply tables_lookup; by exists ob).
  pose proof (proj1 (b_table _ _ _ W o _ Hto n b) Hn) as [HbX (cb & x & Hcb & Hpath & Hx & Hname)].
  destruct (b_silent _ _ _ W b cb x Hcb Hx ltac:(by rewrite Hname)) as ((oh & Eh & _) & _ & Hown).
  assert (Er0 : release0 (b_hooks cb) = None) by (by rewrite Eh). assert (Er1 : release1 (b_hooks cb) = None) by (by rewrite Eh).
  assert (Eev : events (b_hooks cb) ++ deref_events x = []).
  { unfold events, deref_events. destruct (b_refs _ _ _ W _ x Hx) as (_ & Hr & _). rewrite (refs_delete _ b cb _ Hcb), decide_True in Hr by done.
    rewrite Er0, Er1. replace (i_ref x =? 1) with false; [done|]. unfold refs in Hr. lia. }
  pose proof (binds_detach E X c o ob n b W Hob Hn (or_introl Ho)) as WD. set (cD := set_objects _ c) in WD.
  pose proof (binds_freed E X cD b cb x WD HbX Hcb Hx) as WF.
  exists (after_free cD b cb x). split; [|split; [done|split; [done|]]].
  - cbn [remove_builtins]. unfold bind_at at 1. rewrite bind_assoc, (bind_Ret get _ _ _ _ eq_refl), Hcb.
    rewrite (bind_Ret (of_option (Some cb)) _ _ _ _ eq_refl), (bind_Ret (put_bind _ _) _ _ _ _ eq_refl).
    set (c1 := set_binds (<[b := set_b_path None cb]> (bind_heap c)) (binds c) c).
    assert (Hc1 : bind_heap c1 !! b = Some (set_b_path None cb)) by apply lookup_insert_eq.
    assert (E1 : adbusI_freeBind dh_order (S fuel) b c1 = Ret tt (after_free c1 b (set_b_path None cb) x)).
    { cbn [adbusI_freeBind]. unfold bind_at. rewrite bind_assoc, (bind_Ret get _ _ _ _ eq_refl), Hc1.
      rewrite (bind_Ret (of_option (Some _)) _ _ _ _ eq_refl). cbn [b_path set_b_path]. rewrite (bind_Ret (ret tt) _ _ _ _ eq_refl).
      by apply free_rest_run. }
    rewrite (bind_Ret _ _ _ _ _ E1). unfold object. rewrite bind_assoc, (bind_Ret get _ _ _ _ eq_refl).
    cbn [objects after_free c1 set_binds]. rewrite Hob. rewrite (bind_Ret (of_option (Some ob)) _ _ _ _ eq_refl).
    rewrite (bind_Ret (put_object _ _) _ _ _ _ eq_refl). f_equal. unfold after_free, set_objects, cD, c1. cbn. by rewrite delete_insert_eq.
  - split; cbn; try done.
    + intros b' Hb'. rewrite lookup_delete_ne; [done|]. set_solver.
    + intros b' cb' [_ Hcb']%lookup_delete_Some. done.
    + by rewrite Eev, app_nil_r.
    + by apply (after_free_kept cD b cb x).
Qed.

Lemma stripped_trans (X : gset bid) (c1 c2 c3 : Conn) : stripped X c1 c2 -> stripped X c2 c3 -> stripped X c1 c3.
Proof.
  intros S1 S2. split.
  - by rewrite (st_paths _ _ _ S2), (st_paths _ _ _ S1).
  - intros b Hb. by rewrite (st_heap _ _ _ S2), (st_heap _ _ _ S1).
  - intros b cb Hb. by apply (st_kept _ _ _ S1), (st_kept _ _ _ S2).
  - by rewrite (st_released _ _ _ S2), (st_released _ _ _ S1).
  - eapply ifaces_kept_trans; [apply S1|apply S2].
  - destruct (st_rest _ _ _ S1) as (? & ? & ? & ?), (st_rest _ _ _ S2) as (? & ? & ? & ?). split_and!; congruence.
Qed.

Lemma remove_builtins_ok (fuel : nat) (E : gset oid) (X : gset bid) (o : oid) (l : list (list Z * bid)) : forall (c : Conn) (ob : ObjectPath),
  binds_ok E X c -> o ∈ E -> objects c !! o = Some ob -> NoDup l.*1 -> interfaces ob = list_to_map l ->
  (forall n b, (n, b) ∈ l -> builtin n) ->
  exists c', remove_builtins (adbusI_freeBind dh_order (S fuel)) o l c = Ret tt c' /\ binds_ok E X c' /\
    objects c' = <[o := set_interfaces ∅ ob]> (objects c) /\ stripped X c c'.
Proof.
  induction l as [|[n b] l IH]; intros c ob W Ho Hob Hnd Hm Hbu.
  - exists c. split; [done|]. split; [done|]. split.
    + rewrite insert_id; [done|]. rewrite Hob. f_equal. destruct ob; cbn in *. by subst.
    + split; try done. apply ifaces_kept_refl.
  - cbn in Hnd, Hm. apply NoDup_cons in Hnd as [Hni Hnd].
    destruct (remove_builtin_ok fuel E X c o ob n b l W Ho Hob) as (c1 & E1 & W1 & Eo1 & S1).
    { rewrite Hm. apply lookup_insert_eq. } { apply (Hbu n b). left. }
    destruct (IH c1 (set_interfaces (delete n (interfaces ob)) ob) W1 Ho) as (c2 & E2 & W2 & Eo2 & S2).
    { rewrite Eo1. apply lookup_insert_eq. } { done. }
    { cbn. rewrite Hm, delete_insert_id; [done|]. by apply not_elem_of_list_to_map. }
    { intros n' b' Hin. apply (Hbu n' b'). by right. }
    exists c2. rewrite E1. split; [done|]. split; [done|]. split; [|by eapply stripped_trans].
    rewrite Eo2, Eo1, insert_insert_eq. done.
Qed.

Context (Hd : forall A (g : gmap (list Z) A), dh_order A g ≡ₚ map_to_list g) (Hn : nI <> nP).

Lemma order_nodup (g : gmap (list Z) bid) : NoDup (dh_order _ g).*1.
Proof. rewrite Hd. apply NoDup_fst_map_to_list. Qed.

Lemma order_map (g : gmap (list Z) bid) : list_to_map (dh_order _ g) = g.
Proof. rewrite (list_to_map_proper (M := gmap (list Z)) _ (map_to_list g)); [apply list_to_map_to_list|apply order_nodup|apply Hd]. Qed.

Lemma order_empty : dh_order bid ∅ = [].
Proof. apply Permutation_nil_r. by rewrite Hd, map_to_list_empty. Qed.

Lemma only_builtin (m : gmap (list Z) bid) : is_Some (m !! nI) -> is_Some (m !! nP) -> (base.size m <= 2)%nat ->
  forall n b, m !! n = Some b -> builtin n.
Proof.
  intros H1 H2 Hs n b Hb. destruct (decide (n = nI)) as [|Hne1]; [by left|]. destruct (decide (n = nP)) as [|Hne2]; [by right|]. exfalso.
  assert (H3 : base.size (delete nP (delete nI m)) = 0%nat).
  { rewrite !map_size_delete_Some; [lia|done|by rewrite lookup_delete_ne]. }
  apply map_size_empty_inv in H3. assert (Hx : delete nP (delete nI m) !! n = Some b) by (by rewrite !lookup_delete_ne).
  rewrite H3 in Hx. by rewrite lookup_empty in Hx.
Qed.

(** The object is freed: it has neither interfaces nor a parent's link. *)
Definition freed (c : Conn) (o : oid) (ob : ObjectPath) : Conn :=
  set_objects (delete o (objects c)) (set_paths (delete (o_path ob) (paths c)) c).

Lemma freeObjectPath_run (c : Conn) (o : oid) (ob : ObjectPath) : objects c !! o = Some ob -> interfaces ob = ∅ ->
  adbusI_freeObjectPath dh_order o c = Ret tt (freed c o ob).
Proof.
  intros Ho Hi. unfold adbusI_freeObjectPath, object. rewrite bind_assoc, (bind_Ret get _ _ _ _ eq_refl), Ho.
  rewrite (bind_Ret (of_option (Some ob)) _ _ _ _ eq_refl), (bind_Ret (modify _) _ _ _ _ eq_refl), Hi, order_empty. done.
Qed.

Lemma freed_ok (O : gset oid) (X : gset bid) (c : Conn) (o : oid) (ob : ObjectPath) : conn_ok ({[o]} ∪ O) ({[o]} ∪ O) X c -> o ∉ O ->
  objects c !! o = Some ob -> interfaces ob = ∅ -> all_needed ({[o]} ∪ O) c ->
  conn_ok O O X (freed c o ob) /\ all_needed O (freed c o ob).
Proof.
  intros [T W] Ho Hob Hi Hall. assert (Hto : tables c !! o = Some ∅) by (apply tables_lookup; by exists ob).
  split; [split|].
  - assert (Et : tree (freed c o ob) = delete o (tree c)) by (unfold tree, freed; cbn; by rewrite fmap_delete).
    rewrite Et. apply (tree_free O (paths c) (tree c) o (links_of ob) T Ho). apply tree_lookup. by exists ob.
  - pose proof (binds_free O X c o W Hto) as WF. by refine (binds_ok_ext _ _ _ _ WF _ _ _ _ _ _ _ _).
  - intros o' [ob' Hob'] Hni. cbn in Hob'. apply lookup_delete_Some in Hob' as [Hne Hob'].
    apply (needed_same c); [cbn; by rewrite lookup_delete_ne|]. apply Hall; [by exists ob'|set_solver].
Qed.

(** [o] is stripped, its ancestors are pruned and it is freed. *)
Lemma prune_shrunk (O : gset oid) (X : gset bid) (c c2 c3 : Conn) (o : oid) (ob ob3 : ObjectPath) : o ∉ O ->
  objects c !! o = Some ob -> (forall n b, interfaces ob !! n = Some b -> builtin n) ->
  stripped X c c2 -> tables c2 = <[o := ∅]> (tables c) -> (forall o', o' ∈ O -> objects c2 !! o' = objects c !! o') ->
  shrunk ({[o]} ∪ O) X c2 c3 -> shrunk O X c (freed c3 o ob3).
Proof.
  intros Ho Hob Hbu S2 Et Hloose S3. assert (Hto : tables c !! o = Some (interfaces ob)) by (apply tables_lookup; by exists ob).
  assert (Ett : tables (freed c3 o ob3) = delete o (tables c3)) by (unfold tables, freed; cbn; by rewrite fmap_delete).
  destruct (st_rest _ _ _ S2) as (? & ? & ? & ?), (s_next _ _ _ _ S3) as [? ?]. split.
  - intros o' m Hm. rewrite Ett in Hm. apply lookup_delete_Some in Hm as [Hne Hm]. apply (s_tables _ _ _ _ S3) in Hm.
    by rewrite Et, lookup_insert_ne in Hm.
  - intros o' m Hm Hno n b Hb. destruct (decide (o = o')) as [<-|Hne]; [apply (Hbu n b); congruence|].
    rewrite Ett, lookup_delete_ne in Hno by done. refine (s_gone _ _ _ _ S3 o' m _ Hno n b Hb). by rewrite Et, lookup_insert_ne.
  - intros p o' Hp. cbn in Hp. apply lookup_delete_Some in Hp as [_ Hp]. apply (s_paths _ _ _ _ S3) in Hp. by rewrite (st_paths _ _ _ S2) in Hp.
  - intros o' Hin. cbn. rewrite lookup_delete_ne by (intros <-; done). rewrite (s_loose _ _ _ _ S3) by set_solver. by apply Hloose.
  - intros b Hb. cbn. by rewrite (s_heap _ _ _ _ S3), (st_heap _ _ _ S2).
  - intros b cb Hb. by apply (st_kept _ _ _ S2), (s_kept _ _ _ _ S3).
  - cbn. by rewrite (s_released _ _ _ _ S3), (st_released _ _ _ S2).
  - eapply ifaces_kept_trans; [apply S2|]. exact (s_ifaces _ _ _ _ S3).
  - cbn. by rewrite (s_intro _ _ _ _ S3).
  - cbn. by rewrite (s_props _ _ _ _ S3).
  - cbn. split; congruence.
Qed.

(** The built-in binds of an object without others are freed. *)
Lemma strip_ok (fuel : nat) (O : gset oid) (X : gset bid) (c : Conn) (o : oid) (ob : ObjectPath) : binds_ok O X c -> o ∉ O ->
  objects c !! o = Some ob -> (forall n b, interfaces ob !! n = Some b -> builtin n) ->
  exists c', remove_builtins (adbusI_freeBind dh_order (S fuel)) o (dh_order _ (interfaces ob)) c = Ret tt c' /\
    binds_ok ({[o]} ∪ O) X c' /\ objects c' = <[o := set_interfaces ∅ ob]> (objects c) /\ tree c' = tree c /\ stripped X c c'.
Proof.
  intros W Ho Hob Hbu.
  destruct (remove_builtins_ok fuel ({[o]} ∪ O) X o (dh_order _ (interfaces ob)) c ob) as (c1 & E1 & W1 & Eo1 & S1).
  { eapply binds_weaken; [done|set_solver]. } { set_solver. } { done. } { apply order_nodup. } { by rewrite order_map. }
  { intros n b Hin. apply (Hbu n b). rewrite Hd in Hin. by apply elem_of_map_to_list in Hin. }
  exists c1. split_and!; try done. unfold tree at 1. rewrite Eo1. by apply (tree_same c o ob).
Qed.

(** The parent loses a child. *)
Definition orphaned (c : Conn) (o po : oid) (pob : ObjectPath) : Conn :=
  set_objects (<[po := set_children (remove_child o (children pob)) pob]> (objects c)) c.

Lemma orphaned_ok (O : gset oid) (X : gset bid) (c : Conn) (o po : oid) (ob pob : ObjectPath) : tree_ok O (paths c) (tree c) ->
  binds_ok ({[o]} ∪ O) X c -> o ∉ O -> objects c !! o = Some ob -> children ob = [] -> parent ob = Some po ->
  objects c !! po = Some pob -> all_needed ({[o]} ∪ O) c ->
  conn_ok ({[o]} ∪ O) ({[o]} ∪ O) X (orphaned c o po pob) /\ all_needed ({[po]} ∪ ({[o]} ∪ O)) (orphaned c o po pob) /\
  tables (orphaned c o po pob) = tables c.
Proof.
  intros T W Ho Hob Hc Epo Hpob Hall.
  assert (Et : tables (orphaned c o po pob) = tables c) by (by apply (tables_same c po pob)).
  split; [split|split; [|done]].
  - assert (E : tree (orphaned c o po pob) = <[po := mkLinks (o_path pob) (remove_child o (children pob)) (parent pob)]> (tree c))
      by (unfold tree, orphaned; cbn; by rewrite fmap_insert).
    rewrite E. apply (tree_unlink O (paths c) (tree c) o po (links_of ob) (links_of pob)); try done; apply tree_lookup; by eexists.
  - by refine (binds_ok_ext _ _ _ _ W Et _ _ _ _ _ _ _).
  - intros o' Hs Hni. assert (E : objects (orphaned c o po pob) !! o' = objects c !! o') by (cbn; rewrite lookup_insert_ne by set_solver; done).
    rewrite E in Hs. apply (needed_same c); [done|]. apply Hall; [done|set_solver].
Qed.

Lemma orphaned_stripped (X : gset bid) (c c1 : Conn) (o po : oid) (pob : ObjectPath) : stripped X c c1 -> stripped X c (orphaned c1 o po pob).
Proof. by intros []. Qed.

Lemma CheckRemove_kept (fuel : nat) (O : gset oid) (X : gset bid) (c : Conn) (o : oid) (ob : ObjectPath) : objects c !! o = Some ob ->
  ((2 < base.size (interfaces ob))%nat \/ children ob <> []) -> all_needed ({[o]} ∪ O) c ->
  CheckRemoveObject dh_order (S fuel) o c = Ret tt c /\ all_needed O c.
Proof.
  intros Hob Hk Hall. split.
  - cbn [CheckRemoveObject]. unfold object at 1. rewrite bind_assoc, (bind_Ret get _ _ _ _ eq_refl), Hob, (bind_Ret (of_option (Some _)) _ _ _ _ eq_refl).
    destruct Hk as [H|H]; [apply Nat.ltb_lt in H; by rewrite H|]. destruct (children ob); [done|]. by rewrite orb_true_r.
  - intros o' Hs Hni. destruct (decide (o' = o)) as [->|Hne]; [by exists ob|]. apply Hall; [done|set_solver].
Qed.

(** What is left of the pruning of a stripped object. *)
Definition prune_rest (fuel : nat) (o : oid) (p : option oid) : M Conn unit :=
  run* (match p with
        | None => ret tt
        | Some p =>
            let* pob := object p in
            run* put_object p (set_children (remove_child o (children pob)) pob) in
            CheckRemoveObject dh_order fuel p
        end) in
  adbusI_freeObjectPath dh_order o.

Lemma CheckRemove_strip (fuel : nat) (c c1 : Conn) (o : oid) (ob : ObjectPath) : objects c !! o = Some ob ->
  (base.size (interfaces ob) <= 2)%nat -> children ob = [] ->
  remove_builtins (adbusI_freeBind dh_order fuel) o (dh_order _ (interfaces ob)) c = Ret tt c1 ->
  objects c1 !! o = Some (set_interfaces ∅ ob) ->
  CheckRemoveObject dh_order (S fuel) o c = prune_rest fuel o (parent ob) c1.
Proof.
  intros Hob Hsz Hch E1 Hob1. cbn [CheckRemoveObject]. unfold object at 1.
  rewrite bind_assoc, (bind_Ret get _ _ _ _ eq_refl), Hob, (bind_Ret (of_option (Some _)) _ _ _ _ eq_refl), Hch.
  apply Nat.ltb_ge in Hsz. rewrite Hsz. cbn [orb length Nat.ltb Nat.leb]. rewrite (bind_Ret _ _ _ _ _ E1). unfold object at 1.
  by rewrite bind_assoc, (bind_Ret get _ _ _ _ eq_refl), Hob1, (bind_Ret (of_option (Some _)) _ _ _ _ eq_refl).
Qed.

Lemma CheckRemove_ok (fuel : nat) : forall (O : gset oid) (X : gset bid) (c : Conn) (o : oid) (ob : ObjectPath) (cs : list (list Z)),
  (length cs + 2 <= fuel)%nat -> conn_ok O O X c -> o ∉ O -> objects c !! o = Some ob -> Forall component cs -> o_path ob = render cs ->
  all_needed ({[o]} ∪ O) c ->
  exists c', CheckRemoveObject dh_order fuel o c = Ret tt c' /\ conn_ok O O X c' /\ all_needed O c' /\ shrunk O X c c'.
Proof.
  induction fuel as [|[|fuel] IH]; intros O X c o ob cs Hf [T W] Ho Hob Hcs Ep Hall; [lia|lia|].
  destruct (decide ((2 < base.size (interfaces ob))%nat \/ children ob <> [])) as [Hk|Hk].
  { destruct (CheckRemove_kept (S fuel) O X c o ob Hob Hk Hall) as [E Hall']. exists c. split_and!; [done..|apply shrunk_refl]. }
  apply Decidable.not_or in Hk as [Hsz Hch]. apply Nat.nlt_ge in Hsz. apply dec_stable in Hch.
  destruct (b_builtin _ _ _ W o (interfaces ob) Ho ltac:(apply tables_lookup; by exists ob)) as [HI HP].
  pose proof (only_builtin _ HI HP Hsz) as Hbu.
  destruct (strip_ok fuel O X c o ob W Ho Hob Hbu) as (c1 & E1 & W1 & Eo1 & Et1 & S1).
  assert (Hob1 : objects c1 !! o = Some (set_interfaces ∅ ob)) by (rewrite Eo1; apply lookup_insert_eq).
  rewrite (CheckRemove_strip _ _ _ _ _ Hob Hsz Hch E1 Hob1).
  assert (Ett : tables c1 = <[o := ∅]> (tables c)) by (unfold tables; by rewrite Eo1, fmap_insert).
  assert (Hother : forall o', o' <> o -> objects c1 !! o' = objects c !! o') by (intros o' Hne; by rewrite Eo1, lookup_insert_ne).
  assert (Hall1 : all_needed ({[o]} ∪ O) c1).
  { intros o' Hs Hni. rewrite Hother in Hs by set_solver. apply (needed_same c); [apply Hother; set_solver|by apply Hall]. }
  assert (Hloose : forall o', o' ∈ O -> objects c1 !! o' = objects c !! o') by (intros o' Hin; apply Hother; by intros ->).
  assert (Hl : tree c1 !! o = Some (links_of ob)) by (rewrite Et1; apply tree_lookup; by exists ob).
  assert (T1 : tree_ok O (paths c1) (tree c1)) by (by rewrite Et1, (st_paths _ _ _ S1)).
  unfold prune_rest. destruct (parent ob) as [po|] eqn:Epar.
  - destruct (t_parent _ _ _ T1 o (links_of ob) Ho Hl) as [[_ ?]|(ds & d & po' & pl & Hds & Hdc & El & Epo & Hpo & Hpl & Epl)]; [cbn in *; congruence|].
    cbn in Epo, El. assert (po' = po) as -> by congruence. clear Epo. apply tree_lookup in Hpl as (pob & Hpob & <-).
    assert (cs = ds ++ [d]) as -> by (apply render_inj; [done|apply Forall_app; split; [done|by constructor]|congruence]).
    destruct (orphaned_ok O X c1 o po (set_interfaces ∅ ob) pob T1 W1 Ho Hob1 Hch Epar Hpob Hall1) as (C2 & Hall2 & Et2).
    assert (Hne : po <> o).
    { intros ->. rewrite Hob1 in Hpob. injection Hpob as <-. assert (El2 : render (ds ++ [d]) = render ds) by (rewrite <- El, <- Epl; done).
      apply render_inj in El2; [|apply Forall_app; split; [done|by constructor]|done]. apply (f_equal length) in El2. rewrite length_app in El2. cbn in El2. lia. }
    destruct (IH ({[o]} ∪ O) X (orphaned c1 o po pob) po (set_children (remove_child o (children pob)) pob) ds) as (c3 & E3 & C3 & Hall3 & S3); try done.
    { rewrite length_app in Hf. cbn in Hf. lia. } { set_solver. } { apply lookup_insert_eq. }
    cbn match. unfold object at 1. rewrite !bind_assoc, (bind_Ret get _ _ _ _ eq_refl), Hpob, (bind_Ret (of_option (Some _)) _ _ _ _ eq_refl).
    rewrite bind_assoc, (bind_Ret (put_object _ _) _ _ _ _ eq_refl), (bind_Ret _ _ _ _ _ E3).
    assert (Hob3 : objects c3 !! o = Some (set_interfaces ∅ ob)).
    { rewrite (s_loose _ _ _ _ S3) by set_solver. cbn. by rewrite lookup_insert_ne. }
    destruct (freed_ok O X c3 o _ C3 Ho Hob3 eq_refl Hall3) as [F1 F2].
    eexists. split; [by apply freeObjectPath_run|]. split; [done|]. split; [done|].
    apply (prune_shrunk O X c (orphaned c1 o po pob) c3 o ob); try done; [by apply orphaned_stripped|by rewrite Et2|].
    intros o' Hin. cbn. rewrite lookup_insert_ne; [by apply Hloose|]. intros <-. done.
  - rewrite (bind_Ret (ret tt) _ _ _ _ eq_refl). eexists. split; [by apply freeObjectPath_run|].
    destruct (freed_ok O X c1 o (set_interfaces ∅ ob)) as [F1 F2]; try done.
    { split; [|done]. by apply (tree_unlink_root O _ _ o (links_of ob)). }
    split; [done|]. split; [done|]. eapply prune_shrunk; try done. apply shrunk_refl.
Qed.
(** *** Exported binds

    The bind [e] is what a lookup of [n] at [p] finds. *)
Record Export := mkExport { x_bind : bid; x_iface : iid; x_hooks : Hooks }.

Definition exported (c : Conn) (p n : list Z) (e : Export) : Prop := exists o m,
  paths c !! p = Some o /\ tables c !! o = Some m /\ m !! n = Some (x_bind e) /\
  bind_heap c !! x_bind e = Some (mkBind (Some o) (x_iface e) (x_hooks e)).

(** An object keeps its path. *)
Lemma same_path (O O' : gset oid) (c c' : Conn) (p q : list Z) (o : oid) : tree_ok O (paths c) (tree c) -> tree_ok O' (paths c') (tree c') ->
  paths c !! p = Some o -> paths c' !! q = Some o -> (paths c' !! p = Some o \/ paths c !! q = Some o) -> p = q.
Proof.
  intros T T' H1 H2 [H|H].
  - apply (t_paths _ _ _ T') in H, H2. destruct H as (l & ? & <-), H2 as (l' & ? & <-). congruence.
  - apply (t_paths _ _ _ T) in H, H1. destruct H as (l & ? & <-), H1 as (l' & ? & <-). congruence.
Qed.

Lemma path_of (O : gset oid) (c : Conn) (o : oid) : tree_ok O (paths c) (tree c) -> is_Some (tables c !! o) -> exists p, paths c !! p = Some o.
Proof.
  intros T [m (ob & Hob & _)%tables_lookup]. exists (o_path ob). apply (t_paths _ _ _ T). exists (links_of ob). split; [|done].
  apply tree_lookup. by exists ob.
Qed.

Lemma bound_heap (E : gset oid) (X : gset bid) (c : Conn) (o : oid) (m : gmap (list Z) bid) (n : list Z) (b : bid) : binds_ok E X c ->
  tables c !! o = Some m -> m !! n = Some b -> exists cb, bind_heap c !! b = Some cb.
Proof. intros W Hm Hb. apply (b_table _ _ _ W o m Hm n b) in Hb as [_ (cb & _ & Hcb & _)]. by exists cb. Qed.

Lemma grown_exports (O O' E E' : gset oid) (X X' : gset bid) (cs : list (list Z)) (c c' : Conn) (p n : list Z) (e : Export) :
  conn_ok O E X c -> conn_ok O' E' X' c' -> grown O cs c c' -> ~ builtin n -> exported c' p n e <-> exported c p n e.
Proof.
  intros [T W] [T' W'] G Hbu. split.
  - intros (o & m & Hp & Hm & Hb & Hh). destruct (tables c !! o) as [m0|] eqn:Em; [|destruct (Hbu (g_new _ _ _ _ G o m Hm Em n _ Hb))].
    assert (m0 = m) as -> by (apply (g_tables _ _ _ _ G) in Em; congruence).
    destruct (path_of O c o T ltac:(by eexists)) as [q Hq].
    assert (q = p) as -> by (eapply (same_path O O' c c'); [done..|left; by apply (g_paths _ _ _ _ G)]).
    destruct (bound_heap _ _ _ _ _ _ _ W Em Hb) as [cb Hcb]. exists o, m. split_and!; try done.
    apply (g_heap _ _ _ _ G) in Hcb as Hcb'. congruence.
  - intros (o & m & Hp & Hm & Hb & Hh). exists o, m. split_and!; [by apply (g_paths _ _ _ _ G)|by apply (g_tables _ _ _ _ G)|done|by apply (g_heap _ _ _ _ G)].
Qed.

Lemma shrunk_exports (O O' E E' L : gset oid) (X X' Y : gset bid) (c c' : Conn) (p n : list Z) (e : Export) :
  conn_ok O E X c -> conn_ok O' E' X' c' -> shrunk L Y c c' -> ~ builtin n -> exported c' p n e <-> exported c p n e.
Proof.
  intros [T W] [T' W'] S Hbu. split.
  - intros (o & m & Hp & Hm & Hb & Hh). exists o, m. split_and!; [by apply (s_paths _ _ _ _ S)|by apply (s_tables _ _ _ _ S)|done|by apply (s_kept _ _ _ _ S)].
  - intros (o & m & Hp & Hm & Hb & Hh). destruct (tables c' !! o) as [m0|] eqn:Em; [|destruct (Hbu (s_gone _ _ _ _ S o m Hm Em n _ Hb))].
    assert (m0 = m) as -> by (apply (s_tables _ _ _ _ S) in Em; congruence).
    destruct (path_of O' c' o T' ltac:(by eexists)) as [q Hq].
    assert (p = q) as -> by (eapply (same_path O O' c c'); [done..|right; by apply (s_paths _ _ _ _ S)]).
    destruct (bound_heap _ _ _ _ _ _ _ W' Em Hb) as [cb Hcb]. exists o, m. split_and!; try done.
    apply (s_kept _ _ _ _ S) in Hcb as Hcb'. congruence.
Qed.
(** What a bind, a detached bind and a freed bind change. *)
Lemma bind_exports (O E : gset oid) (c : Conn) (o : oid) (i : iid) (h : Hooks) (ob : ObjectPath) (x : Interface) (p q n : list Z) (e : Export) :
  conn_ok O E ∅ c -> objects c !! o = Some ob -> interfaces ob !! i_name x = None -> paths c !! p = Some o ->
  exported (after_bind c o i h ob x) q n e <->
  exported c q n e \/ (q = p /\ n = i_name x /\ e = mkExport (next_b c) i h).
Proof.
  intros [T W] Hob Hnone Hp. set (c' := after_bind c o i h ob x). assert (Hto : tables c !! o = Some (interfaces ob)) by (apply tables_lookup; by exists ob).
  assert (Ht : tables c' = <[o := <[i_name x := next_b c]> (interfaces ob)]> (tables c)) by (unfold tables, c'; cbn; by rewrite fmap_insert).
  assert (Hfresh : bind_heap c !! next_b c = None).
  { destruct (bind_heap c !! next_b c) eqn:Eb; [|done]. destruct (b_fresh _ _ _ W) as [F _]. specialize (F (next_b c) ltac:(by eexists)). lia. }
  assert (Hkeep : forall b cb, bind_heap c !! b = Some cb -> bind_heap c' !! b = Some cb).
  { intros b cb Hcb. cbn. rewrite lookup_insert_ne; [done|]. intros E'. congruence. }
  split.
  - intros (o' & m & Hq & Hm & Hb & Hh). change (paths c !! q = Some o') in Hq. rewrite Ht, lookup_insert in Hm. case_decide as Ho.
    + subst o'. injection Hm as <-. rewrite lookup_insert in Hb. case_decide as En.
      * right. injection Hb as Eb. rewrite <- Eb in Hh. cbn in Hh. rewrite lookup_insert_eq in Hh. injection Hh as Ei Eh.
        split_and!; [|done|destruct e; cbn in *; congruence].
        apply (t_paths _ _ _ T) in Hp as (l & Hl & <-), Hq as (l' & Hl' & <-). congruence.
      * left. exists o, (interfaces ob). split_and!; try done. destruct (bound_heap _ _ _ _ _ _ _ W Hto Hb) as [cb Hcb].
        apply Hkeep in Hcb as Hcb'. congruence.
    + left. exists o', m. split_and!; try done. destruct (bound_heap _ _ _ _ _ _ _ W Hm Hb) as [cb Hcb]. apply Hkeep in Hcb as Hcb'. congruence.
  - intros [(o' & m & Hq & Hm & Hb & Hh)|(-> & -> & ->)].
    + destruct (decide (o = o')) as [<-|Ho].
      * exists o, (<[i_name x := next_b c]> (interfaces ob)). split_and!; [done|by rewrite Ht, lookup_insert_eq| |by apply Hkeep].
        rewrite lookup_insert_ne by congruence. congruence.
      * exists o', m. split_and!; [done|by rewrite Ht, lookup_insert_ne|done|by apply Hkeep].
    + exists o, (<[i_name x := next_b c]> (interfaces ob)). split_and!; [done|by rewrite Ht, lookup_insert_eq|apply lookup_insert_eq|apply lookup_insert_eq].
Qed.

Definition detached (c : Conn) (o : oid) (ob : ObjectPath) (n : list Z) : Conn :=
  set_objects (<[o := set_interfaces (delete n (interfaces ob)) ob]> (objects c)) c.

Lemma detach_exports (O : gset oid) (c : Conn) (o : oid) (ob : ObjectPath) (p n q n' : list Z) (e : Export) : tree_ok O (paths c) (tree c) ->
  objects c !! o = Some ob -> paths c !! p = Some o ->
  exported (detached c o ob n) q n' e <-> exported c q n' e /\ ~ (q = p /\ n' = n).
Proof.
  intros T Hob Hp. assert (Hto : tables c !! o = Some (interfaces ob)) by (apply tables_lookup; by exists ob).
  assert (Ht : tables (detached c o ob n) = <[o := delete n (interfaces ob)]> (tables c)) by (unfold tables, detached; cbn; by rewrite fmap_insert).
  split.
  - intros (o' & m & Hq & Hm & Hb & Hh). change (paths c !! q = Some o') in Hq. rewrite Ht, lookup_insert in Hm. case_decide as Ho.
    + subst o'. injection Hm as <-. apply lookup_delete_Some in Hb as [Hne Hb]. split; [|by intros [_ ->]]. by exists o, (interfaces ob).
    + split; [by exists o', m|]. intros [-> _]. congruence.
  - intros [(o' & m & Hq & Hm & Hb & Hh) Hne]. destruct (decide (o = o')) as [<-|Ho].
    + exists o, (delete n (interfaces ob)). split_and!; [done|by rewrite Ht, lookup_insert_eq| |done].
      rewrite lookup_delete_ne; [congruence|]. intros <-. apply Hne. split; [|done].
      apply (t_paths _ _ _ T) in Hp as (l & Hl & <-), Hq as (l' & Hl' & <-). congruence.
    + exists o', m. split_and!; try done. by rewrite Ht, lookup_insert_ne.
Qed.

Lemma freed_exports (E : gset oid) (c : Conn) (b : bid) (cb : ConnBind) (x : Interface) (q n : list Z) (e : Export) : binds_ok E {[b]} c ->
  exported (after_free c b cb x) q n e <-> exported c q n e.
Proof.
  intros W. split; intros (o & m & Hq & Hm & Hb & Hh); exists o, m; split_and!; try done.
  - cbn in Hh. by apply lookup_delete_Some in Hh as [_ ?].
  - cbn. rewrite lookup_delete_ne; [done|]. intros ->. apply (b_table _ _ _ W o m Hm n) in Hb as [Hb _]. set_solver.
Qed.
Lemma length_render (cs : list (list Z)) : Forall component cs -> (length cs <= length (render cs))%nat.
Proof.
  intros _. destruct cs as [|d cs]; [cbn; lia|]. cbn [render]. generalize (d :: cs). intros l. induction l as [|a l IH]; [done|].
  change (flat SLASH (a :: l)) with (SLASH :: a ++ flat SLASH l). cbn [length]. rewrite length_app. lia.
Qed.

(** [o] has a bind of its own. *)
Lemma size_needed (m : gmap (list Z) bid) (n : list Z) : is_Some (m !! nI) -> is_Some (m !! nP) -> ~ builtin n -> is_Some (m !! n) ->
  (2 < base.size m)%nat.
Proof.
  intros H1 H2 Hbu [b Hb]. destruct (decide (base.size m <= 2)%nat) as [Hle|]; [|lia].
  destruct (Hbu (only_builtin m H1 H2 Hle n b Hb)).
Qed.

Lemma own_needed (O : gset oid) (c : Conn) (o : oid) (ob : ObjectPath) (n : list Z) : conn_ok O O ∅ c -> o ∉ O -> objects c !! o = Some ob ->
  ~ builtin n -> is_Some (interfaces ob !! n) -> all_needed ({[o]} ∪ O) c -> all_needed O c.
Proof.
  intros [T W] Ho Hob Hbu Hs Hall o' Hs' Hni. destruct (decide (o' = o)) as [->|Hne]; [|apply Hall; [done|set_solver]].
  exists ob. split; [done|left]. destruct (b_builtin _ _ _ W o (interfaces ob) Ho ltac:(apply tables_lookup; by exists ob)) as [H1 H2].
  by apply (size_needed _ n).
Qed.

Lemma after_bind_tree (c : Conn) (o : oid) (i : iid) (h : Hooks) (ob : ObjectPath) (x : Interface) : objects c !! o = Some ob ->
  tree (after_bind c o i h ob x) = tree c.
Proof. intros Hob. by apply (tree_same c o ob). Qed.

Lemma after_bind_needed (c : Conn) (o : oid) (i : iid) (h : Hooks) (ob : ObjectPath) (x : Interface) (O : gset oid) : o ∈ O ->
  all_needed O c -> all_needed O (after_bind c o i h ob x).
Proof.
  intros Ho Hall o' Hs Hni. assert (E : objects (after_bind c o i h ob x) !! o' = objects c !! o') by (cbn; rewrite lookup_insert_ne; [done|by intros <-]).
  rewrite E in Hs. apply (needed_same c); [done|]. by apply Hall.
Qed.

Definition ifaces_grown (c c' : Conn) : Prop := forall i x, ifaces c !! i = Some x ->
  exists x', ifaces c' !! i = Some x' /\ i_name x' = i_name x /\ members x' = members x.

(** What a bind of [i] to [p] does to the exports. *)
Definition bind_post (p : list Z) (i : iid) (h : Hooks) (n : list Z) (c c' : Conn) (r : option bid) : Prop :=
  released c' = released c /\ ifaces_grown c c' /\ ifaces_kept c c' /\
  (r = None <-> exists e, exported c p n e) /\ (forall b, r = Some b -> bind_heap c !! b = None) /\
  (forall q n' e, ~ builtin n' -> exported c' q n' e <->
     exported c q n' e \/ (r = Some (x_bind e) /\ q = p /\ n' = n /\ x_iface e = i /\ x_hooks e = h)).

Lemma bind_taken (c c1 : Conn) (cs : list (list Z)) (o : oid) (ob : ObjectPath) (i : iid) (h : Hooks) (n : list Z) (b : bid) :
  conn_ok ∅ ∅ ∅ c -> conn_ok ∅ ∅ ∅ c1 -> grown ∅ cs c c1 -> ~ builtin n -> paths c1 !! render cs = Some o -> objects c1 !! o = Some ob ->
  interfaces ob !! n = Some b -> bind_post (render cs) i h n c c1 None.
Proof.
  intros C C1 G Hbu Hp Hob Hb. assert (Hto : tables c1 !! o = Some (interfaces ob)) by (apply tables_lookup; by exists ob).
  split; [apply G|]. split; [exact (g_ifaces _ _ _ _ G)|]. split; [exact (g_kept _ _ _ _ G)|]. split; [|split; [done|]].
  - split; [|done]. intros _. destruct C1 as [T1 W1]. destruct (proj1 (b_table _ _ _ W1 o _ Hto n b) Hb) as [_ (cb & x & Hcb & Hpath & _)].
    exists (mkExport b (b_interface cb) (b_hooks cb)). apply (grown_exports ∅ ∅ ∅ ∅ ∅ ∅ cs c c1); try done.
    exists o, (interfaces ob). split_and!; try done. cbn. rewrite Hcb. f_equal. destruct cb; cbn in *; congruence.
  - intros q n' e Hbu'. rewrite (grown_exports ∅ ∅ ∅ ∅ ∅ ∅ cs c c1) by done. split; [by left|]. by intros [?|(? & _)].
Qed.

Lemma bind_made (c c1 : Conn) (cs : list (list Z)) (o : oid) (ob : ObjectPath) (i : iid) (h : Hooks) (x : Interface) :
  conn_ok ∅ ∅ ∅ c -> conn_ok ∅ ∅ ∅ c1 -> grown ∅ cs c c1 -> ~ builtin (i_name x) -> paths c1 !! render cs = Some o -> objects c1 !! o = Some ob ->
  ifaces c1 !! i = Some x -> interfaces ob !! i_name x = None ->
  bind_post (render cs) i h (i_name x) c (after_bind c1 o i h ob x) (Some (next_b c1)).
Proof.
  intros C C1 G Hbu Hp Hob Hx Hnone. assert (Hto : tables c1 !! o = Some (interfaces ob)) by (apply tables_lookup; by exists ob).
  assert (Hg : forall q n' e, ~ builtin n' -> exported c1 q n' e <-> exported c q n' e) by (intros; by apply (grown_exports ∅ ∅ ∅ ∅ ∅ ∅ cs c c1)).
  split; [apply G|]. split; [|split; [|split; [|split]]].
  - intros j y Hy. destruct (g_ifaces _ _ _ _ G j y Hy) as (y1 & Hy1 & ? & ?). cbn. rewrite lookup_insert. case_decide; [|by exists y1].
    subst j. eexists. split; [done|]. cbn. split; congruence.
  - eapply ifaces_kept_trans; [exact (g_kept _ _ _ _ G)|]. intros j y'. cbn. rewrite lookup_insert. case_decide; [|by exists y'].
    subst j. intros [= <-]. by exists x.
  - split; [done|]. intros [e He]. exfalso. apply Hg in He; [|done]. destruct He as (o' & m & Hp' & Hm & Hb & _).
    assert (o' = o) as -> by congruence. congruence.
  - intros b [= <-]. destruct (bind_heap c !! next_b c1) as [cb|] eqn:Eb; [|done]. apply (g_heap _ _ _ _ G) in Eb.
    destruct (b_fresh _ _ _ (proj2 C1)) as [F _]. specialize (F (next_b c1) ltac:(by eexists)). lia.
  - intros q n' e Hbu'. rewrite (bind_exports ∅ ∅ c1 o i h ob x (render cs)), Hg by done. split.
    + intros [?|(-> & -> & ->)]; [by left|right]. done.
    + intros [?|([= Eb] & -> & -> & Ei & Eh)]; [by left|right]. split_and!; try done. destruct e; cbn in *; congruence.
Qed.

Lemma bind_ok (c : Conn) (a : Bind) (cs : list (list Z)) (x : Interface) : conn_ok ∅ ∅ ∅ c -> all_needed ∅ c ->
  Forall component cs -> sized (path a) (pathSize a) = render cs -> ifaces c !! interface a = Some x -> ~ builtin (i_name x) ->
  exists r c', adbus_conn_bind a c = Ret r c' /\ conn_ok ∅ ∅ ∅ c' /\ all_needed ∅ c' /\
    bind_post (render cs) (interface a) (hooks a) (i_name x) c c' r.
Proof.
  intros C Hall Hcs Ep Hx Hbu. pose proof (length_render cs Hcs) as Hl.
  destruct (GetObject_ok (S (length (render cs))) Hn cs ∅ c ltac:(lia) C Hcs ltac:(set_solver) ltac:(set_solver) Hall)
    as (o & c1 & E1 & C1 & _ & Hp & Hall1 & G).
  destruct (proj1 (t_paths _ _ _ (proj1 C1) (render cs) o) Hp) as (l & (ob & Hob & _)%tree_lookup & _).
  destruct (g_ifaces _ _ _ _ G _ x Hx) as (x1 & Hx1 & En & _). rewrite <- En in Hbu |- *.
  unfold adbus_conn_bind. cbv zeta. rewrite Ep, (bind_Ret _ _ _ _ _ E1), (DoBind_run c1 o _ _ ob x1 Hob Hx1).
  destruct (interfaces ob !! i_name x1) as [b|] eqn:Eb.
  - exists None, c1. split; [done|]. split; [done|]. split; [apply (own_needed ∅ c1 o ob (i_name x1)); try done; set_solver|].
    by apply (bind_taken c c1 cs o ob _ _ _ b).
  - set (c2 := after_bind c1 o (interface a) (hooks a) ob x1). exists (Some (next_b c1)), c2. split; [done|].
    assert (C2 : conn_ok ∅ ∅ ∅ c2).
    { split; [|by apply binds_bind; [apply C1|..]]. unfold c2 at 2. rewrite after_bind_tree by done. apply C1. }
    split; [done|]. split; [|by apply bind_made].
    apply (own_needed ∅ c2 o (set_interfaces (<[i_name x1 := next_b c1]> (interfaces ob)) ob) (i_name x1)); try done; [apply lookup_insert_eq| |].
    + cbn. rewrite lookup_insert_eq. by eexists.
    + apply after_bind_needed; [set_solver|done].
Qed.
Lemma detached_ok (c : Conn) (o : oid) (ob : ObjectPath) (n : list Z) (b : bid) : conn_ok ∅ ∅ ∅ c -> all_needed ∅ c ->
  objects c !! o = Some ob -> interfaces ob !! n = Some b -> ~ builtin n ->
  conn_ok ∅ ∅ {[b]} (detached c o ob n) /\ all_needed ({[o]} ∪ ∅) (detached c o ob n).
Proof.
  intros [T W] Hall Hob Hb Hbu. split; [split|].
  - assert (Et : tree (detached c o ob n) = tree c) by (by apply (tree_same c o ob)). by rewrite Et.
  - pose proof (binds_detach ∅ ∅ c o ob n b W Hob Hb (or_intror Hbu)) as WD. by rewrite union_empty_r_L in WD.
  - intros o' Hs Hni. assert (E : objects (detached c o ob n) !! o' = objects c !! o') by (cbn; rewrite lookup_insert_ne by set_solver; done).
    rewrite E in Hs. apply (needed_same c); [done|]. apply Hall; [done|set_solver].
Qed.

Lemma freeBind_run (fuel : nat) (c c2 : Conn) (o : oid) (ob : ObjectPath) (b : bid) (cb : ConnBind) (x x2 : Interface) :
  bind_heap c !! b = Some cb -> b_path cb = Some o -> objects c !! o = Some ob -> ifaces c !! b_interface cb = Some x ->
  CheckRemoveObject dh_order fuel o (detached c o ob (i_name x)) = Ret tt c2 -> bind_heap c2 !! b = Some cb -> ifaces c2 !! b_interface cb = Some x2 ->
  adbusI_freeBind dh_order (S fuel) b c = Ret tt (after_free c2 b cb x2).
Proof.
  intros Hcb Hp Hob Hx E Hcb2 Hx2. cbn [adbusI_freeBind]. unfold bind_at, object, iface.
  rewrite bind_assoc, (bind_Ret get _ _ _ _ eq_refl), Hcb, (bind_Ret (of_option (Some _)) _ _ _ _ eq_refl), Hp.
  rewrite !bind_assoc, (bind_Ret get _ _ _ _ eq_refl), Hob, (bind_Ret (of_option (Some _)) _ _ _ _ eq_refl).
  rewrite !bind_assoc, (bind_Ret get _ _ _ _ eq_refl), Hx, (bind_Ret (of_option (Some _)) _ _ _ _ eq_refl).
  rewrite bind_assoc, (bind_Ret (put_object _ _) _ _ _ _ eq_refl). change (set_objects _ c) with (detached c o ob (i_name x)).
  rewrite (bind_Ret _ _ _ _ _ E). by apply free_rest_run.
Qed.

Lemma unbind_ok (c : Conn) (p n : list Z) (e : Export) : conn_ok ∅ ∅ ∅ c -> all_needed ∅ c -> ~ builtin n -> exported c p n e ->
  exists c', adbus_conn_unbind dh_order (x_bind e) c = Ret tt c' /\ conn_ok ∅ ∅ ∅ c' /\ all_needed ∅ c' /\
    ifaces_kept c c' /\ (forall x, ifaces c !! x_iface e = Some x -> released c' = released c ++ events (x_hooks e) ++
      match ifaces c' !! x_iface e with Some _ => [] | None => iface_events (members x) end) /\
    (forall q n' e', ~ builtin n' -> exported c' q n' e' <-> exported c q n' e' /\ ~ (q = p /\ n' = n)).
Proof.
  intros C Hall Hbu (o & m & Hp & Hm & Hb & Hh). set (b := x_bind e) in *. apply tables_lookup in Hm as Hob. destruct Hob as (ob & Hob & <-).
  destruct C as [T W]. destruct (proj1 (b_table _ _ _ W o _ Hm n b) Hb) as [_ (cb & x & Hcb & _ & Hx & En)].
  rewrite Hh in Hcb. injection Hcb as <-. cbn in Hx. rewrite <- En in *.
  destruct (detached_ok c o ob (i_name x) b (conj T W) Hall Hob Hb Hbu) as [CD HallD].
  destruct (proj1 (t_paths _ _ _ T p o) Hp) as (l & Hl & El). destruct (t_valid _ _ _ T o l Hl) as (cs & Hcs & Ecs).
  apply tree_lookup in Hl as (ob' & Hob' & <-). assert (ob' = ob) as -> by congruence. cbn in Ecs. clear Hob'.
  pose proof (length_render cs Hcs) as Hlen.
  destruct (CheckRemove_ok (length (o_path ob) + 2) ∅ {[b]} (detached c o ob (i_name x)) o
    (set_interfaces (delete (i_name x) (interfaces ob)) ob) cs) as (c2 & E2 & C2 & Hall2 & S2); try done.
  { rewrite Ecs. lia. } { apply lookup_insert_eq. }
  assert (Hcb2 : bind_heap c2 !! b = Some (mkBind (Some o) (x_iface e) (x_hooks e))) by (rewrite (s_heap _ _ _ _ S2) by set_solver; done).
  destruct (b_iface _ _ _ (proj2 C2) b _ Hcb2) as [x2 Hx2]. cbn in Hx2.
  assert (Hrun : adbus_conn_unbind dh_order b c = Ret tt (after_free c2 b (mkBind (Some o) (x_iface e) (x_hooks e)) x2)).
  { unfold adbus_conn_unbind, free_fuel. rewrite (bind_Ret get _ _ _ _ eq_refl), Hh. cbn [b_path]. rewrite Hob.
    replace (length (o_path ob) + 3)%nat with (S (length (o_path ob) + 2)) by lia. by apply (freeBind_run _ c c2 o ob b _ x x2). }
  eexists. split; [exact Hrun|]. split; [|split; [|split; [|split]]].
  - split; [apply C2|]. apply binds_freed; [by rewrite union_empty_r_L; apply C2|set_solver|done|done].
  - exact Hall2.
  - eapply ifaces_kept_trans; [exact (s_ifaces _ _ _ _ S2)|]. by apply after_free_kept.
  - intros y Hy. cbn. rewrite (s_released _ _ _ _ S2). do 2 f_equal. unfold deref_events, deref_ifaces.
    destruct (s_ifaces _ _ _ _ S2 _ x2 Hx2) as (z & Hz & _ & ->). assert (z = y) as -> by (cbn in Hz; congruence).
    destruct (i_ref x2 =? 1); [by rewrite lookup_delete_eq|by rewrite lookup_insert_eq].
  - intros q n' e' Hbu'. rewrite (freed_exports ∅ c2), (shrunk_exports ∅ ∅ ∅ ∅ ∅ {[b]} {[b]} {[b]} (detached c o ob (i_name x)) c2); try done; [|apply C2].
    by apply (detach_exports ∅).
Qed.
(** *** Which paths are registered *)

Lemma more_than_builtin (m : gmap (list Z) bid) : (2 < base.size m)%nat -> exists n b, m !! n = Some b /\ ~ builtin n.
Proof.
  intros Hs. destruct (decide (delete nP (delete nI m) = ∅)) as [E|E].
  - apply (f_equal base.size) in E. rewrite map_size_empty, !map_size_delete in E. repeat destruct (_ !! _); cbn in E; lia.
  - apply map_choose in E as (n & b & [H1 [H2 Hb]%lookup_delete_Some]%lookup_delete_Some). exists n, b. split; [done|]. intros [->| ->]; done.
Qed.

Lemma registered_export (c : Conn) (N : nat) : conn_ok ∅ ∅ ∅ c -> all_needed ∅ c -> (forall q o, paths c !! q = Some o -> (length q <= N)%nat) ->
  forall k cs o, (N < length cs + k)%nat -> Forall component cs -> paths c !! render cs = Some o ->
  exists ds n e, Forall component (cs ++ ds) /\ ~ builtin n /\ exported c (render (cs ++ ds)) n e.
Proof.
  intros [T W] Hall HN. induction k as [|k IH]; intros cs o Hk Hcs Hp.
  - pose proof (length_render cs Hcs). specialize (HN _ _ Hp). lia.
  - destruct (proj1 (t_paths _ _ _ T _ o) Hp) as (l & (ob & Hob & <-)%tree_lookup & Ep). cbn in Ep.
    destruct (Hall o ltac:(by eexists) ltac:(set_solver)) as (ob' & Hob' & Hneed). assert (ob' = ob) as -> by congruence.
    destruct Hneed as [Hs|Hc].
    + destruct (more_than_builtin _ Hs) as (n & b & Hb & Hbu). assert (Hto : tables c !! o = Some (interfaces ob)) by (apply tables_lookup; by exists ob).
      destruct (proj1 (b_table _ _ _ W o _ Hto n b) Hb) as [_ (cb & x & Hcb & Hpath & _)].
      exists [], n, (mkExport b (b_interface cb) (b_hooks cb)). rewrite app_nil_r. split_and!; [done|done|].
      exists o, (interfaces ob). split_and!; try done. cbn. rewrite Hcb. f_equal. destruct cb; cbn in *; congruence.
    + destruct (children ob) as [|o' l'] eqn:Ec; [done|]. destruct (child_path_of c o o' ob cs T Hob) as (d & Hdc & Hp'); [rewrite Ec; by left|done|done|].
      destruct (IH (cs ++ [d]) o') as (ds & n & e & H1 & H2 & H3).
      { rewrite length_app. cbn. lia. } { apply Forall_app. split; [done|by constructor]. } { done. }
      rewrite <- app_assoc in H1, H3. by exists ([d] ++ ds), n, e.
Qed.

Lemma prefix_registered (c : Conn) (cs : list (list Z)) : tree_ok ∅ (paths c) (tree c) -> forall ds o, Forall component (cs ++ ds) ->
  paths c !! render (cs ++ ds) = Some o -> is_Some (paths c !! render cs).
Proof.
  intros T ds. induction ds as [|d ds IH] using rev_ind; intros o Hcs Hp; [rewrite app_nil_r in Hp; by eexists|].
  destruct (proj1 (t_paths _ _ _ T _ o) Hp) as (l & Hl & El). rewrite app_assoc in El, Hcs.
  destruct (t_parent _ _ _ T o l ltac:(set_solver) Hl) as [[Er _]|(es & f & po & pl & Hes & Hf & Ep & _ & _ & Hpl & Epl)].
  - rewrite El in Er. apply render_inj in Er; [|done..]. apply (f_equal length) in Er. rewrite length_app in Er. cbn in Er. lia.
  - rewrite El in Ep. apply render_inj in Ep; [|done|apply Forall_app; split; [done|by constructor]]. apply app_inj_tail in Ep as [Ees _].
    rewrite <- Ees in *. apply (IH po); [done|]. apply (t_paths _ _ _ T). by exists pl.
Qed.

Lemma registered_iff (c : Conn) (p : list Z) : conn_ok ∅ ∅ ∅ c -> all_needed ∅ c ->
  is_Some (paths c !! p) <->
  exists cs ds n e, p = render cs /\ Forall component (cs ++ ds) /\ ~ builtin n /\ exported c (render (cs ++ ds)) n e.
Proof.
  intros C Hall. pose proof C as [T W]. split.
  - intros [o Hp]. destruct (proj1 (t_paths _ _ _ T p o) Hp) as (l & Hl & El). destruct (t_valid _ _ _ T o l Hl) as (cs & Hcs & Ecs).
    assert (p = render cs) as -> by congruence. clear Ecs.
    set (N := max_list (length <$> (map_to_list (paths c)).*1)).
    destruct (registered_export c N C Hall) with (k := S N) (cs := cs) (o := o) as (ds & n & e & H1 & H2 & H3); [|lia|done|done|by exists cs, ds, n, e].
    intros q o' Hq. apply max_list_elem_of_le, list_elem_of_fmap. exists q. split; [done|]. apply list_elem_of_fmap. exists (q, o').
    split; [done|]. by apply elem_of_map_to_list.
  - intros (cs & ds & n & e & -> & Hcs & _ & (o & m & Hp & _)). by apply (prefix_registered c cs T ds o).
Qed.
(** *** Interfaces in use *)

Lemma refs_pos (h : gmap bid ConnBind) (i : iid) : 0 < refs h i -> exists b cb, h !! b = Some cb /\ b_interface cb = i.
Proof.
  unfold refs. intros Hs. destruct (decide (filter (fun p => b_interface p.2 = i) h = ∅)) as [E|E].
  - rewrite E, map_size_empty in Hs. lia.
  - apply map_choose in E as (b & cb & [Hb Hi]%map_lookup_filter_Some). by exists b, cb.
Qed.

Lemma in_use (c : Conn) (i : iid) (y : Interface) : conn_ok ∅ ∅ ∅ c -> ifaces c !! i = Some y -> own i < 1 ->
  exists p e, exported c p (i_name y) e /\ x_iface e = i.
Proof.
  intros [T W] Hy Ho. destruct (b_refs _ _ _ W i y Hy) as (H1 & H2 & H3).
  destruct (refs_pos (bind_heap c) i ltac:(lia)) as (b & cb & Hcb & <-).
  destruct (b_bound _ _ _ W b cb Hcb ltac:(set_solver)) as (o & Hp & [m Hm]). destruct (path_of ∅ c o T ltac:(by eexists)) as [p Hpo].
  exists p, (mkExport b (b_interface cb) (b_hooks cb)). split; [|done]. exists o, m. split_and!; try done.
  - apply (b_table _ _ _ W o m Hm). split; [set_solver|by exists cb, y].
  - cbn. rewrite Hcb. f_equal. destruct cb; cbn in *; congruence.
Qed.

Lemma export_iface (E : gset oid) (c : Conn) (p n : list Z) (e : Export) : binds_ok E ∅ c -> exported c p n e ->
  exists y, ifaces c !! x_iface e = Some y /\ i_name y = n.
Proof.
  intros W (o & m & Hp & Hm & Hb & Hh). apply (b_table _ _ _ W o m Hm) in Hb as [_ (cb & y & Hcb & _ & Hy & En)].
  rewrite Hh in Hcb. injection Hcb as <-. by exists y.
Qed.
End Binds.

(** A reference of the user is dropped. *)
Definition dropped (own : iid -> Z) (i : iid) : iid -> Z := fun j => if decide (j = i) then own j - 1 else own j.

Lemma dereffed_ok (dh_order : forall A : Type, gmap (list Z) A -> list (list Z * A)) (own : iid -> Z) (nI nP : list Z) (c : Conn) (i : iid) (x : Interface) :
  conn_ok own nI nP ∅ ∅ ∅ c -> ifaces c !! i = Some x -> ~ builtin nI nP (i_name x) -> 1 <= own i ->
  conn_ok (dropped own i) nI nP ∅ ∅ ∅ (dereffed dh_order c i x) /\ ifaces_kept c (dereffed dh_order c i x).
Proof.
  intros [T W] Hx Hbu Ho. set (c' := dereffed dh_order c i x).
  assert (Hk : ifaces_kept c c') by (intros j y' Hy; destruct (deref_lookup _ _ _ _ _ Hx Hy) as (y & ? & ? & ? & _); by exists y).
  destruct (b_refs _ _ _ _ _ _ W i x Hx) as (_ & Hr & _).
  assert (Hlive : forall j y, ifaces c !! j = Some y -> (j = i -> i_ref x <> 1) -> exists y', ifaces c' !! j = Some y' /\ i_name y' = i_name y).
  { intros j y Hy Hj. cbn. unfold deref_ifaces. destruct (Z.eqb_spec (i_ref x) 1) as [E|E].
    - exists y. split; [|done]. rewrite lookup_delete_ne; [done|]. intros <-. by apply Hj.
    - rewrite lookup_insert. case_decide as Hij; [|by exists y]. subst j. eexists. split; [done|]. cbn. congruence. }
  assert (Hused : forall b cb, bind_heap c !! b = Some cb -> b_interface cb = i -> i_ref x <> 1).
  { intros b cb Hcb E. rewrite (refs_delete _ b cb i Hcb), decide_True in Hr by done. unfold refs in Hr. lia. }
  assert (Hbd : forall b o n, bound c' b o n <-> bound c b o n).
  { intros b o n. split; intros (cb & y & Hcb & Hp & Hy & En).
    - destruct (Hk _ _ Hy) as (z & Hz & Ez & _). exists cb, z. split_and!; try done. congruence.
    - destruct (Hlive _ y Hy) as (z & Hz & Ez); [by apply (Hused b)|]. exists cb, z. split_and!; try done. congruence. }
  assert (Hne : forall j y, ifaces c !! j = Some y -> builtin nI nP (i_name y) -> j <> i) by (intros j y Hy Hb ->; congruence).
  assert (Hdrop : forall j, j <> i -> dropped own i j = own j) by (intros j Hj; unfold dropped; by rewrite decide_False).
  split; [split; [exact T|]|done]. split; try apply W.
  - intros o m Hm n b. rewrite Hbd. by apply (b_table _ _ _ _ _ _ W).
  - intros b cb Hcb. destruct (b_iface _ _ _ _ _ _ W b cb Hcb) as [y Hy]. destruct (Hlive _ y Hy) as (z & Hz & _); [by apply (Hused b)|by exists z].
  - intros b cb y' Hcb Hy Hb. destruct (Hk _ _ Hy) as (y & Hy' & En & _). rewrite En in Hb.
    unfold silent. rewrite Hdrop by (by apply (Hne _ y)). by apply (b_silent _ _ _ _ _ _ W b cb y).
  - intros j y' Hy. destruct (deref_lookup _ _ _ _ _ Hx Hy) as (y & Hy' & _ & _ & Er & Hn1). destruct (b_refs _ _ _ _ _ _ W j y Hy') as (? & ? & ?).
    change (bind_heap c') with (bind_heap c). rewrite Er. unfold dropped.
    destruct (decide (i = j)) as [<-|Hij]; [rewrite decide_True by done; specialize (Hn1 eq_refl)|rewrite decide_False by done]; split_and!; lia.
  - destruct (b_intro _ _ _ _ _ _ W) as (y & Hy & En & Hoy). assert (introspectable c <> i) by (apply (Hne _ y); [done|by left]).
    destruct (Hlive _ y Hy) as (z & Hz & Ez); [done|]. exists z. cbn. rewrite Hdrop by done. split_and!; try done. congruence.
  - destruct (b_props _ _ _ _ _ _ W) as (y & Hy & En & Hoy). assert (properties c <> i) by (apply (Hne _ y); [done|by right]).
    destruct (Hlive _ y Hy) as (z & Hz & Ez); [done|]. exists z. cbn. rewrite Hdrop by done. split_and!; try done. congruence.
  - intros j Hj. unfold dropped in Hj. destruct (b_own _ _ _ _ _ _ W j) as [y Hy]; [case_decide; lia|].
    destruct (Hlive j y Hy) as (z & Hz & _); [|by exists z]. intros ->. rewrite decide_True in Hj by done. unfold refs in Hr. lia.
Qed.

(** A reference is taken. *)
Definition taken (own : iid -> Z) (i : iid) : iid -> Z := fun j => if decide (j = i) then own j + 1 else own j.

Definition held (c : Conn) (i : iid) (x : Interface) : Conn := set_ifaces (<[i := set_ref (i_ref x + 1) x]> (ifaces c)) c.

Lemma ref_run (c : Conn) (i : iid) (x : Interface) : ifaces c !! i = Some x -> adbus_iface_ref i c = Ret tt (held c i x).
Proof. intros Hx. unfold adbus_iface_ref, iface, bind, get, of_option. by rewrite Hx. Qed.

Lemma held_ok (own : iid -> Z) (nI nP : list Z) (c : Conn) (i : iid) (x : Interface) :
  conn_ok own nI nP ∅ ∅ ∅ c -> ifaces c !! i = Some x ->
  conn_ok (taken own i) nI nP ∅ ∅ ∅ (held c i x) /\ ifaces_kept c (held c i x).
Proof.
  intros [T W] Hx. set (c' := held c i x).
  assert (Hk : ifaces_kept c c') by (intros j y'; cbn; rewrite lookup_insert; case_decide as Hij; [subst j; intros [= <-]; by exists x|by exists y']).
  assert (Hlive : forall j y, ifaces c !! j = Some y -> exists y', ifaces c' !! j = Some y' /\ i_name y' = i_name y).
  { intros j y Hy. cbn. rewrite lookup_insert. case_decide as Hij; [|by exists y]. subst j. eexists. split; [done|]. cbn. congruence. }
  assert (Hbd : forall b o n, bound c' b o n <-> bound c b o n).
  { intros b o n. split; intros (cb & y & Hcb & Hp & Hy & En).
    - destruct (Hk _ _ Hy) as (z & Hz & Ez & _). exists cb, z. split_and!; try done. congruence.
    - destruct (Hlive _ y Hy) as (z & Hz & Ez). exists cb, z. split_and!; try done. congruence. }
  assert (Hle : forall j, own j <= taken own i j) by (intros j; unfold taken; case_decide; lia).
  split; [split; [exact T|]|done]. split; try apply W.
  - intros o m Hm n b. rewrite Hbd. by apply (b_table _ _ _ _ _ _ W).
  - intros b cb Hcb. destruct (b_iface _ _ _ _ _ _ W b cb Hcb) as [y Hy]. destruct (Hlive _ y Hy) as (z & Hz & _). by exists z.
  - intros b cb y' Hcb Hy Hb. destruct (Hk _ _ Hy) as (y & Hy' & En & _). rewrite En in Hb.
    destruct (b_silent _ _ _ _ _ _ W b cb y Hcb Hy' Hb) as (? & ? & ?). split_and!; try done. specialize (Hle (b_interface cb)). lia.
  - intros j y' Hy. cbn in Hy. rewrite lookup_insert in Hy. change (bind_heap c') with (bind_heap c). unfold taken. case_decide as Hij.
    + subst j. injection Hy as <-. rewrite decide_True by done. destruct (b_refs _ _ _ _ _ _ W i x Hx) as (? & ? & ?). cbn. split_and!; lia.
    + rewrite decide_False by done. by apply (b_refs _ _ _ _ _ _ W).
  - destruct (b_intro _ _ _ _ _ _ W) as (y & Hy & En & Ho). destruct (Hlive _ y Hy) as (z & Hz & Ez). exists z. specialize (Hle (introspectable c)).
    split_and!; [done|congruence|]. change (introspectable c') with (introspectable c). lia.
  - destruct (b_props _ _ _ _ _ _ W) as (y & Hy & En & Ho). destruct (Hlive _ y Hy) as (z & Hz & Ez). exists z. specialize (Hle (properties c)).
    split_and!; [done|congruence|]. change (properties c') with (properties c). lia.
  - intros j Hj. destruct (decide (j = i)) as [->|Hji]; [destruct (Hlive i x Hx) as (z & Hz & _); by exists z|].
    destruct (b_own _ _ _ _ _ _ W j) as [y Hy]; [unfold taken in Hj; by rewrite decide_False in Hj|]. destruct (Hlive j y Hy) as (z & Hz & _). by exists z.
Qed.

(** ** Exports as a map

    The abstract state: the binds of users by path and interface name, and the
    references that users hold to interfaces. *)
Notation Exports := (gmap (list Z * list Z) Export).

(** An interface is alive while a user holds it or a bind uses it. *)
Definition alive (own : iid -> Z) (E : Exports) (i : iid) : bool :=
  (1 <=? own i) || existsb (fun ke => (x_iface ke.2 =? i)%nat) (map_to_list E).

Lemma alive_iff (own : iid -> Z) (E : Exports) (i : iid) :
  alive own E i = true <-> 1 <= own i \/ exists k e, E !! k = Some e /\ x_iface e = i.
Proof.
  unfold alive. rewrite orb_true_iff, Z.leb_le, existsb_exists. split; (intros [?|H]; [by left|right]).
  - destruct H as ([k e] & Hin & Ei%Nat.eqb_eq). exists k, e. split; [|done]. by apply elem_of_map_to_list, list_elem_of_In.
  - destruct H as (k & e & Hk & <-). exists (k, e). split; [by apply list_elem_of_In, elem_of_map_to_list|by apply Nat.eqb_eq].
Qed.

Section Refine.
Context {B : Build} (dh_order : forall A : Type, gmap (list Z) A -> list (list Z * A)).

(** The interfaces there are, with what they count of references at the
    start, and the two built-in ones. *)
Context (ifs : gmap iid Interface) (intro props : iid) (nI nP : list Z).

Definition own0 (i : iid) : Z := match ifs !! i with Some x => i_ref x | None => 0 end.

Record ifaces_good : Prop := {
  f_intro : exists x, ifs !! intro = Some x /\ i_name x = nI;
  f_props : exists x, ifs !! props = Some x /\ i_name x = nP;
  f_names : nI <> nP;
  f_refs : forall i x, ifs !! i = Some x -> 1 <= i_ref x;
  f_members : forall i x n m, ifs !! i = Some x -> members x !! n = Some m -> m_interface m = i }.

(** The release callbacks of the members of an interface that dies. *)
Definition dead_events (own : iid -> Z) (E : Exports) (i : iid) : list event :=
  if alive own E i then [] else match ifs !! i with Some x => iface_events dh_order (members x) | None => [] end.

Definition spec_bind (E : Exports) (a : Bind) (n : list Z) (r : option bid) : Exports :=
  match r with
  | Some b => <[(sized (path a) (pathSize a), n) := mkExport b (interface a) (hooks a)]> E
  | None => E
  end.

(** An interface that users may bind and free. *)
Definition user_iface (i : iid) (x : Interface) : Prop := ifs !! i = Some x /\ ~ builtin nI nP (i_name x).

Definition bindable (own : iid -> Z) (E : Exports) (a : Bind) (x : Interface) : Prop :=
  user_iface (interface a) x /\ alive own E (interface a) = true /\
  adbusI_isValidObjectPath (Some (sized (path a) (pathSize a))) = true.

(** What users can do: bind a live interface to a valid path, unbind what is
    bound, refer to a live interface, and free an interface they hold. *)
Inductive reached : (iid -> Z) -> Exports -> list event -> Conn -> Prop :=
| reached_start : reached own0 ∅ [] (conn_start ifs intro props)
| reached_bind own E evs c a x r c' : reached own E evs c -> bindable own E a x -> adbus_conn_bind a c = Ret r c' ->
    reached own (spec_bind E a (i_name x) r) evs c'
| reached_unbind own E evs c k e c' : reached own E evs c -> E !! k = Some e -> adbus_conn_unbind dh_order (x_bind e) c = Ret tt c' ->
    reached own (delete k E) (evs ++ events (x_hooks e) ++ dead_events own (delete k E) (x_iface e)) c'
| reached_ref own E evs c i x c' : reached own E evs c -> user_iface i x -> alive own E i = true -> adbus_iface_ref i c = Ret tt c' ->
    reached (taken own i) E evs c'
| reached_free own E evs c i x c' : reached own E evs c -> user_iface i x -> 1 <= own i -> adbus_iface_deref dh_order i c = Ret tt c' ->
    reached (dropped own i) E (evs ++ dead_events (dropped own i) E i) c'.

Context (Hd : forall A (g : gmap (list Z) A), dh_order A g ≡ₚ map_to_list g) (F : ifaces_good).
Notation builtin := (builtin nI nP).
Notation conn_ok own := (conn_ok own nI nP ∅ ∅ ∅).

(** The connection and the abstract state agree. *)
Record models (own : iid -> Z) (E : Exports) (c : Conn) : Prop := {
  m_ok : conn_ok own c;
  m_needed : all_needed ∅ c;
  m_ifaces : forall i x', ifaces c !! i = Some x' -> exists x, ifs !! i = Some x /\ i_name x' = i_name x /\ members x' = members x;
  m_exports : forall p n e, E !! (p, n) = Some e <-> ~ builtin n /\ exported c p n e }.

Lemma kept_models (c c' : Conn) : ifaces_kept c c' ->
  (forall i x', ifaces c !! i = Some x' -> exists x, ifs !! i = Some x /\ i_name x' = i_name x /\ members x' = members x) ->
  forall i x', ifaces c' !! i = Some x' -> exists x, ifs !! i = Some x /\ i_name x' = i_name x /\ members x' = members x.
Proof.
  intros K Hm i x' Hx. destruct (K i x' Hx) as (y & Hy & E1 & E2). destruct (Hm i y Hy) as (z & Hz & E3 & E4).
  exists z. split_and!; [done|congruence|congruence].
Qed.

Lemma models_alive (own : iid -> Z) (E : Exports) (c : Conn) (i : iid) (x : Interface) : models own E c -> user_iface i x ->
  is_Some (ifaces c !! i) <-> alive own E i = true.
Proof.
  intros M [Hx Hbu]. rewrite alive_iff. split.
  - intros [y Hy]. destruct (Z_lt_ge_dec (own i) 1) as [Ho|]; [right|left; lia].
    destruct (in_use dh_order own nI nP Hd (f_names F) c i y (m_ok _ _ _ M) Hy Ho) as (p & e & He & Ei).
    destruct (m_ifaces _ _ _ M i y Hy) as (x' & Hx' & En & _). assert (x' = x) as -> by congruence. rewrite En in He.
    exists (p, i_name x), e. split; [|done]. by apply (m_exports _ _ _ M).
  - intros [Ho|([p n] & e & Hk & <-)]; [by apply (b_own _ _ _ _ _ _ (proj2 (m_ok _ _ _ M)))|].
    apply (m_exports _ _ _ M) in Hk as [_ He]. destruct (export_iface own nI nP ∅ c p n e (proj2 (m_ok _ _ _ M)) He) as (y & Hy & _). by exists y.
Qed.

Lemma models_dead (own : iid -> Z) (E : Exports) (c : Conn) (i : iid) (x : Interface) (l : gmap (list Z) Member) : models own E c -> user_iface i x ->
  l = members x -> match ifaces c !! i with Some _ => [] | None => iface_events dh_order l end = dead_events own E i.
Proof.
  intros M Hu ->. unfold dead_events. pose proof (models_alive own E c i x M Hu) as Ha. destruct Hu as [-> _].
  destruct (ifaces c !! i) as [y|]; [by rewrite (proj1 Ha)|]. destruct (alive own E i); [|done]. by destruct (proj2 Ha eq_refl).
Qed.

(** The interface of an export is one of the user. *)
Lemma export_user (own : iid -> Z) (E : Exports) (c : Conn) (p n : list Z) (e : Export) : models own E c -> E !! (p, n) = Some e ->
  exists x y, user_iface (x_iface e) x /\ i_name x = n /\ ifaces c !! x_iface e = Some y /\ members y = members x.
Proof.
  intros M Hk. apply (m_exports _ _ _ M) in Hk as [Hbu He].
  destruct (export_iface own nI nP ∅ c p n e (proj2 (m_ok _ _ _ M)) He) as (y & Hy & En).
  destruct (m_ifaces _ _ _ M _ y Hy) as (x & Hx & Ex & Em). exists x, y. split_and!; [|congruence|done|done]. split; [done|congruence].
Qed.
Lemma models_start : models own0 ∅ (conn_start ifs intro props).
Proof.
  destruct (f_intro F) as (xi & Hxi & Eni), (f_props F) as (xp & Hxp & Enp). split; [split| | |].
  - split; cbn; unfold tree; cbn; intros *; rewrite ?fmap_empty, ?lookup_empty; try done. split; [done|by intros (l & ? & _)].
  - split; cbn; unfold tables; cbn; intros *; rewrite ?fmap_empty, ?lookup_empty; try done.
    + split; [apply NoDup_nil_2|]. intros b. rewrite lookup_empty, elem_of_nil. split; [done|by intros [? ?]].
    + intros Hx. unfold refs. rewrite map_filter_empty, map_size_empty. pose proof (f_refs F i x Hx). unfold own0. rewrite Hx. split_and!; lia.
    + exists xi. unfold own0. rewrite Hxi. split_and!; [done|done|by apply (f_refs F intro)].
    + exists xp. unfold own0. rewrite Hxp. split_and!; [done|done|by apply (f_refs F props)].
    + unfold own0. destruct (ifs !! i); [by eexists|lia].
    + split; intros ?; rewrite ?lookup_empty; by intros [? ?].
  - intros o [ob Hob]. cbn in Hob. by rewrite lookup_empty in Hob.
  - intros i x Hx. by exists x.
  - intros p n e. rewrite lookup_empty. split; [done|]. intros [_ (o & m & Hp & _)]. cbn in Hp. by rewrite lookup_empty in Hp.
Qed.

Lemma models_bind (own : iid -> Z) (E : Exports) (c : Conn) (a : Bind) (x : Interface) : models own E c -> bindable own E a x ->
  exists r c', adbus_conn_bind a c = Ret r c' /\ models own (spec_bind E a (i_name x) r) c' /\ released c' = released c /\
    (r = None <-> is_Some (E !! (sized (path a) (pathSize a), i_name x))) /\
    (forall b, r = Some b -> forall k e, E !! k = Some e -> x_bind e <> b).
Proof.
  intros M (Hu & Ha & Hv). destruct (proj1 (object_path_iff _) Hv) as (cs & Hcs & Ep).
  destruct (proj2 (models_alive own E c _ x M Hu) Ha) as [y Hy]. destruct (m_ifaces _ _ _ M _ y Hy) as (x' & Hx' & En & _).
  destruct Hu as [Hx Hbu]. assert (x' = x) as -> by congruence. clear Hx'. rewrite <- En in Hbu |- *.
  destruct (bind_ok dh_order own nI nP Hd (f_names F) c a cs y (m_ok _ _ _ M) (m_needed _ _ _ M) Hcs Ep Hy Hbu)
    as (r & c' & E1 & C' & Hall' & Hrel & _ & Hk & Hnone & Hfresh & Hex).
  exists r, c'. split; [done|].
  assert (Hr : r = None <-> is_Some (E !! (render cs, i_name y))).
  { rewrite Hnone. split; [intros [e He]; exists e; by apply (m_exports _ _ _ M)|intros [e He]; exists e; by apply (m_exports _ _ _ M) in He as [_ ?]]. }
  split; [|rewrite Ep; split_and!; [done|done|]].
  - split; [done|done|by apply (kept_models c); [|apply M]|]. intros p n e. unfold spec_bind. rewrite Ep. split.
    + intros He. assert (Hn : ~ builtin n /\ (exported c p n e \/ (r = Some (x_bind e) /\ p = render cs /\ n = i_name y /\ x_iface e = interface a /\ x_hooks e = hooks a))).
      { destruct r as [b|]; [|apply (m_exports _ _ _ M) in He as [? ?]; auto]. rewrite lookup_insert in He. case_decide as Ek.
        - injection Ek as <- <-. injection He as <-. by split; [|right].
        - apply (m_exports _ _ _ M) in He as [? ?]; auto. }
      destruct Hn as [Hn He']. split; [done|]. by apply Hex.
    + intros [Hn He]. apply Hex in He as [He|(-> & -> & -> & Ei & Eh)]; [|rewrite lookup_insert_eq; destruct e; cbn in *; congruence|done].
      assert (Hold : E !! (p, n) = Some e) by (by apply (m_exports _ _ _ M)). destruct r as [b|]; [|done].
      rewrite lookup_insert_ne; [done|]. intros [= <- <-]. assert (Some b = None) by (apply Hr; by eexists). done.
  - intros b Hb [p n] e Hk' Eb. apply (m_exports _ _ _ M) in Hk' as [_ (o & m & _ & _ & _ & Hh)]. rewrite Eb in Hh.
    specialize (Hfresh b Hb). congruence.
Qed.

Lemma models_unbind (own : iid -> Z) (E : Exports) (c : Conn) (k : list Z * list Z) (e : Export) : models own E c -> E !! k = Some e ->
  exists c', adbus_conn_unbind dh_order (x_bind e) c = Ret tt c' /\ models own (delete k E) c' /\
    released c' = released c ++ events (x_hooks e) ++ dead_events own (delete k E) (x_iface e).
Proof.
  destruct k as [p n]. intros M Hk. destruct (export_user own E c p n e M Hk) as (x & y & Hu & _ & Hy & Em).
  destruct (proj1 (m_exports _ _ _ M p n e) Hk) as [Hbu He].
  destruct (unbind_ok dh_order own nI nP Hd (f_names F) c p n e (m_ok _ _ _ M) (m_needed _ _ _ M) Hbu He)
    as (c' & E1 & C' & Hall' & Hkept & Hrel & Hex).
  assert (M' : models own (delete (p, n) E) c').
  { split; [done|done|by apply (kept_models c); [|apply M]|]. intros q n' e'. rewrite lookup_delete_Some, (m_exports _ _ _ M). split.
    - intros (Hne & Hn' & He'). split; [done|]. apply Hex; [done|]. split; [done|]. intros [-> ->]. done.
    - intros [Hn' He']. apply Hex in He' as [He' Hne]; [|done]. split_and!; try done. intros [= <- <-]. by apply Hne. }
  exists c'. split; [done|]. split; [done|]. rewrite (Hrel y Hy). do 2 f_equal. by apply (models_dead own _ c' _ x).
Qed.

Lemma models_free (own : iid -> Z) (E : Exports) (c : Conn) (i : iid) (x : Interface) : models own E c -> user_iface i x -> 1 <= own i ->
  exists c', adbus_iface_deref dh_order i c = Ret tt c' /\ models (dropped own i) E c' /\
    released c' = released c ++ dead_events (dropped own i) E i.
Proof.
  intros M Hu Ho. destruct (b_own _ _ _ _ _ _ (proj2 (m_ok _ _ _ M)) i Ho) as [y Hy].
  destruct (m_ifaces _ _ _ M i y Hy) as (x' & Hx' & En & Em). assert (x' = x) as -> by (destruct Hu; congruence).
  destruct (dereffed_ok dh_order own nI nP c i y (m_ok _ _ _ M) Hy) as [C' Hk]; [rewrite En; by destruct Hu|done|].
  assert (M' : models (dropped own i) E (dereffed dh_order c i y)).
  { split; [done| |by apply (kept_models c); [|apply M]|].
    - intros o Hs Hni. apply (needed_same c); [done|]. by apply (m_needed _ _ _ M).
    - exact (m_exports _ _ _ M). }
  eexists. split; [by apply deref_run|]. split; [exact M'|]. cbn. f_equal.
  rewrite <- (models_dead _ E _ i x (members y) M' Hu Em). unfold deref_events. cbn. unfold deref_ifaces.
  destruct (i_ref y =? 1); [by rewrite lookup_delete_eq|by rewrite lookup_insert_eq].
Qed.

Lemma models_ref (own : iid -> Z) (E : Exports) (c : Conn) (i : iid) (x : Interface) : models own E c -> user_iface i x -> alive own E i = true ->
  exists y, ifaces c !! i = Some y /\ adbus_iface_ref i c = Ret tt (held c i y) /\ models (taken own i) E (held c i y).
Proof.
  intros M Hu Ha. destruct (proj2 (models_alive own E c i x M Hu) Ha) as [y Hy]. exists y. split; [done|]. split; [by apply ref_run|].
  destruct (held_ok own nI nP c i y (m_ok _ _ _ M) Hy) as [C' Hk]. split; [done| |by apply (kept_models c); [|apply M]|].
  - intros o Hs Hni. apply (needed_same c); [done|]. by apply (m_needed _ _ _ M).
  - exact (m_exports _ _ _ M).
Qed.

Lemma reached_models (own : iid -> Z) (E : Exports) (evs : list event) (c : Conn) : reached own E evs c ->
  models own E c /\ released c = evs.
Proof.
  induction 1 as [|own E evs c a x r c' _ [M R] Hb E1|own E evs c k e c' _ [M R] Hk E1|own E evs c i x c' _ [M R] Hu Ha E1|own E evs c i x c' _ [M R] Hu Ho E1].
  - split; [apply models_start|done].
  - destruct (models_bind own E c a x M Hb) as (r' & c'' & E2 & M' & R' & _). rewrite E1 in E2. injection E2 as <- <-. split; [done|congruence].
  - destruct (models_unbind own E c k e M Hk) as (c'' & E2 & M' & R'). rewrite E1 in E2. injection E2 as <-. split; [done|congruence].
  - destruct (models_ref own E c i x M Hu Ha) as (y & _ & E2 & M'). rewrite E1 in E2. injection E2 as ->. split; [done|exact R].
  - destruct (models_free own E c i x M Hu Ho) as (c'' & E2 & M' & R'). rewrite E1 in E2. injection E2 as <-. split; [done|congruence].
Qed.
(** A lookup finds the export. *)
Lemma lookup_exact (own : iid -> Z) (E : Exports) (c : Conn) (p n : list Z) : models own E c -> ~ builtin n ->
  adbus_conn_interface p n c = Ret (match E !! (p, n) with Some e => Some (x_iface e, x_bind e) | None => None end) c.
Proof.
  intros M Hbu. destruct (m_ok _ _ _ M) as [T W]. unfold adbus_conn_interface. rewrite (bind_Ret get _ _ _ _ eq_refl).
  assert (Hnone : (forall e, ~ exported c p n e) -> E !! (p, n) = None).
  { intros H. destruct (E !! (p, n)) as [e|] eqn:Ee; [|done]. apply (m_exports _ _ _ M) in Ee as [_ He]. by destruct (H e). }
  destruct (paths c !! p) as [o|] eqn:Ep; [|rewrite Hnone; [done|]; intros e (o & m & Hp & _); congruence].
  destruct (proj1 (t_paths _ _ _ T p o) Ep) as (l & (ob & Hob & _)%tree_lookup & _).
  assert (Hto : tables c !! o = Some (interfaces ob)) by (apply tables_lookup; by exists ob).
  unfold object, bind_at. rewrite bind_assoc, (bind_Ret get _ _ _ _ eq_refl), Hob, (bind_Ret (of_option (Some _)) _ _ _ _ eq_refl).
  destruct (interfaces ob !! n) as [b|] eqn:Eb.
  - destruct (bound_heap own nI nP ∅ ∅ c o _ n b W Hto Eb) as [cb Hcb]. rewrite bind_assoc, (bind_Ret get _ _ _ _ eq_refl), Hcb.
    rewrite (bind_Ret (of_option (Some _)) _ _ _ _ eq_refl).
    assert (Ee : E !! (p, n) = Some (mkExport b (b_interface cb) (b_hooks cb))); [|by rewrite Ee].
    apply (m_exports _ _ _ M). split; [done|]. exists o, (interfaces ob). split_and!; try done. cbn. rewrite Hcb. f_equal.
    apply (b_table _ _ _ _ _ _ W o _ Hto) in Eb as [_ (cb' & x & Hcb' & Hpath & _)]. assert (cb' = cb) as -> by congruence. destruct cb; cbn in *; congruence.
  - rewrite Hnone; [done|]. intros e (o' & m & Hp & Hm & Hb & _). assert (o' = o) as -> by congruence. congruence.
Qed.
(** *** Calls *)
Context {W : Type} `{PartLaws W Conn}.
Context (invoke : callback -> pointer -> pointer -> M W Z) (hand_over : callback -> pointer -> M W Z -> M W Z).

(** The method that a name denotes in an interface. *)
Definition method_of (i : iid) (name : list Z) : option Member :=
  match ifs !! i with
  | Some x => match members x !! name with
              | Some m => if bool_decide (m_type m = METHOD) then Some m else None
              | None => None
              end
  | None => None
  end.

(** The call of the callback [f] of [m] for the export [e]. *)
Definition called (e : Export) (m : Member) (f : callback) : M W answer :=
  let h := x_hooks e in
  let* err := match proxy h with
              | Some pr => hand_over pr (puser h) (DoCall dh_order invoke m f (cuser2 h))
              | None => DoCall dh_order invoke m f (cuser2 h)
              end in
  ret (Answered err).

Lemma method_exact (own : iid -> Z) (E : Exports) (c : Conn) (p n name : list Z) (e : Export) : models own E c -> E !! (p, n) = Some e ->
  adbus_iface_method (x_iface e) name c = Ret (method_of (x_iface e) name) c.
Proof.
  intros M Hk. destruct (export_user own E c p n e M Hk) as (x & y & [Hx _] & _ & Hy & Em). unfold adbus_iface_method, GetMethod, iface, method_of.
  rewrite bind_assoc, (bind_Ret get _ _ _ _ eq_refl), Hy, (bind_Ret (of_option (Some _)) _ _ _ _ eq_refl), Hx, Em.
  destruct (members x !! name) as [m|]; [|done]. by case_bool_decide.
Qed.

Lemma method_iface (i : iid) (name : list Z) (m : Member) : method_of i name = Some m -> m_interface m = i.
Proof.
  unfold method_of. destruct (ifs !! i) as [x|] eqn:Ex; [|done]. destruct (members x !! name) as [m'|] eqn:Em; [|done].
  case_bool_decide; [|done]. intros [= ->]. by apply (f_members F i x name m).
Qed.

Lemma mbr_call_exact (own : iid -> Z) (E : Exports) (c : W) (p n : list Z) (e : Export) (m : Member) : models own E (part c) -> E !! (p, n) = Some e ->
  m_interface m = x_iface e -> exists y, ifaces (part c) !! x_iface e = Some y /\
  adbus_mbr_call dh_order invoke hand_over m (x_bind e) c =
  match methodCallback m with None => Ret MethodError c | Some f => called e m f (set_part (held (part c) (x_iface e) y) c) end.
Proof.
  intros M Hk Em. destruct (export_user own E (part c) p n e M Hk) as (x & y & _ & _ & Hy & _). exists y. split; [done|].
  unfold adbus_mbr_call. destruct (methodCallback m) as [f|]; [|done]. rewrite Em, (bind_Ret _ _ _ _ _ (on_part_Ret _ c _ _ (ref_run (part c) _ y Hy))).
  apply (m_exports _ _ _ M) in Hk as [_ (o & t & _ & _ & _ & Hh)]. set (w := set_part (held (part c) (x_iface e) y) c).
  assert (Eb : bind_at (x_bind e) (part w) = Ret (mkBind (Some o) (x_iface e) (x_hooks e)) (part w)).
  { unfold w. rewrite part_set. unfold bind_at, bind, get. change (bind_heap (held (part c) (x_iface e) y)) with (bind_heap (part c)). by rewrite Hh. }
  by rewrite (bind_Ret _ _ _ _ _ (on_part_read _ w _ Eb)).
Qed.

(** What a call to an exported interface does. *)
Lemma bind_dispatch_exact (own : iid -> Z) (E : Exports) (c : W) (p n name : list Z) : models own E (part c) -> ~ builtin n ->
  adbusI_dispatchBind dh_order invoke hand_over p name (Some n) c =
  match E !! (p, n) with
  | None => Ret InterfaceError c
  | Some e => match method_of (x_iface e) name with
              | None => Ret MethodError c
              | Some m => adbus_mbr_call dh_order invoke hand_over m (x_bind e) c
              end
  end.
Proof.
  intros M Hbu. unfold adbusI_dispatchBind. rewrite (bind_Ret _ _ _ _ _ (on_part_read _ c _ (lookup_exact own E (part c) p n M Hbu))).
  destruct (E !! (p, n)) as [e|] eqn:Ee; [|done]. rewrite (bind_Ret _ _ _ _ _ (on_part_read _ c _ (method_exact own E (part c) p n name e M Ee))).
  by destruct (method_of (x_iface e) name).
Qed.

(** The same references. *)
Definition same_refs (own own' : iid -> Z) : Prop := forall j, own' j = own j.

(** The callbacks do what users can do, and hold the references they found
    when they return; proxies make the call they are given. *)
Definition plays_by_the_rules : Prop :=
  (forall f d u own E evs (c : W), reached own E evs (part c) ->
     exists err c' own' E' evs', invoke f d u c = Ret err c' /\ same_refs own own' /\ reached own' E' evs' (part c')) /\
  (forall pr u call c, hand_over pr u call c = call c).

Lemma called_safe (own : iid -> Z) (E : Exports) (evs : list event) (c : W) (p n : list Z) (e : Export) (m : Member) (f : callback) (y : Interface) :
  plays_by_the_rules -> reached own E evs (part c) -> E !! (p, n) = Some e -> m_interface m = x_iface e -> ifaces (part c) !! x_iface e = Some y ->
  exists err c2 c3 own' E' evs', invoke f (methodData m) (cuser2 (x_hooks e)) (set_part (held (part c) (x_iface e) y) c) = Ret err c2 /\
    adbus_iface_deref dh_order (x_iface e) (part c2) = Ret tt c3 /\
    called e m f (set_part (held (part c) (x_iface e) y) c) = Ret (Answered err) (set_part c3 c2) /\
    same_refs own own' /\ reached own' E' evs' (part (set_part c3 c2)).
Proof.
  intros [Hinv Hover] R Hk Em Hy. destruct (reached_models own E evs (part c) R) as [M _].
  destruct (export_user own E (part c) p n e M Hk) as (x & _ & Hu & _). set (i := x_iface e) in *.
  assert (Ha : alive own E i = true) by (apply alive_iff; right; by exists (p, n), e).
  set (c1 := set_part (held (part c) i y) c).
  assert (R1 : reached (taken own i) E evs (part c1)) by (unfold c1; rewrite part_set; eapply reached_ref; [done|done|done|by apply ref_run]).
  destruct (Hinv f (methodData m) (cuser2 (x_hooks e)) _ _ _ _ R1) as (err & c2 & own2 & E2 & evs2 & Ei & Hs & R2).
  assert (Hpos : 1 <= own2 i).
  { rewrite Hs. unfold taken. rewrite decide_True by done. destruct (b_refs _ _ _ _ _ _ (proj2 (m_ok _ _ _ M)) i y Hy). lia. }
  destruct (models_free _ _ (part c2) i x (proj1 (reached_models _ _ _ _ R2)) Hu Hpos) as (c3 & E3 & _).
  assert (Ec : DoCall dh_order invoke m f (cuser2 (x_hooks e)) c1 = Ret err (set_part c3 c2)).
  { unfold DoCall. by rewrite (bind_Ret _ _ _ _ _ Ei), Em, (bind_Ret _ _ _ _ _ (on_part_Ret _ c2 _ _ E3)). }
  exists err, c2, c3, (dropped own2 i), E2. eexists. split; [exact Ei|]. split; [exact E3|]. split; [|split; [|rewrite part_set; by eapply reached_free]].
  - unfold called. destruct (proxy (x_hooks e)) as [pr|]; [by erewrite bind_Ret by (rewrite Hover; exact Ec)|by rewrite (bind_Ret _ _ _ _ _ Ec)].
  - intros j. unfold dropped. rewrite Hs. unfold taken. case_decide; lia.
Qed.

(** C4: whatever binds, unbinds and releases of interfaces a program makes,
    the connection is the map from paths and interface names to binds that
    they describe.  The release callbacks that ran are those of the binds that
    were unbound and of the members of the interfaces that lost their last
    reference, in that order; a lookup finds the entry of the map; the paths
    that are registered are the exported ones and their ancestors; an interface
    exists while somebody refers to it; and each operation returns: a bind
    fails when the entry is taken, and gives a bind not yet in use otherwise. *)
Theorem exports_refined (own : iid -> Z) (E : Exports) (evs : list event) (c : Conn) : reached own E evs c ->
  released c = evs /\
  (forall p n, ~ builtin n -> adbus_conn_interface p n c =
     Ret (match E !! (p, n) with Some e => Some (x_iface e, x_bind e) | None => None end) c) /\
  (forall p, is_Some (paths c !! p) <->
     exists cs ds n e, p = render cs /\ Forall component (cs ++ ds) /\ E !! (render (cs ++ ds), n) = Some e) /\
  (forall i x, user_iface i x -> is_Some (ifaces c !! i) <-> alive own E i = true) /\
  (forall a x, bindable own E a x -> exists r c', adbus_conn_bind a c = Ret r c' /\
     (r = None <-> is_Some (E !! (sized (path a) (pathSize a), i_name x))) /\
     (forall b, r = Some b -> forall k e, E !! k = Some e -> x_bind e <> b)) /\
  (forall k e, E !! k = Some e -> exists c', adbus_conn_unbind dh_order (x_bind e) c = Ret tt c') /\
  (forall i x, user_iface i x -> 1 <= own i -> exists c', adbus_iface_deref dh_order i c = Ret tt c').
Proof.
  intros R. destruct (reached_models own E evs c R) as [M Er]. split_and!.
  - exact Er.
  - intros p n Hbu. by apply (lookup_exact own).
  - intros p. rewrite (registered_iff dh_order own nI nP Hd (f_names F) c p (m_ok _ _ _ M) (m_needed _ _ _ M)).
    split; intros (cs & ds & n & e & -> & Hcs & He); exists cs, ds, n, e; split_and!; try done.
    + by apply (m_exports _ _ _ M).
    + by apply (m_exports _ _ _ M) in He as [? _].
    + by apply (m_exports _ _ _ M) in He as [_ ?].
  - intros i x Hu. by apply (models_alive own E c i x).
  - intros a x Hb. destruct (models_bind own E c a x M Hb) as (r & c' & E1 & _ & _ & H1 & H2). by exists r, c'.
  - intros k e Hk. destruct (models_unbind own E c k e M Hk) as (c' & E1 & _). by exists c'.
  - intros i x Hu Ho. destruct (models_free own E c i x M Hu Ho) as (c' & E1 & _). by exists c'.
Qed.

(** What the callback of a method does to a call: it is run once, with the data
    of the method and of the bind, while a reference to the interface is held;
    the reference is given back and its result is the answer. *)
Definition answered_by (e : Export) (m : Member) (f : callback) (c : W) (ans : answer) (c' : W) : Prop :=
  exists y err c2 c3, ifaces (part c) !! x_iface e = Some y /\
    invoke f (methodData m) (cuser2 (x_hooks e)) (set_part (held (part c) (x_iface e) y) c) = Ret err c2 /\
    adbus_iface_deref dh_order (x_iface e) (part c2) = Ret tt c3 /\ ans = Answered err /\ c' = set_part c3 c2.

(** C20: a method call to an exported interface is answered: with an error, and
    nothing changed, exactly when the interface is not exported at the path, or
    has no such method with a callback; otherwise the callback of the method
    is run, once, with its data and those of the bind, and the answer is its
    result.  The callbacks are such as users may write: they return, may bind
    and unbind what they like, the bind they are called for included, and leave
    as many references to the interfaces as they found; these are afterwards
    what they were before. *)
Theorem call_answered (own : iid -> Z) (E : Exports) (evs : list event) (c : W) (p n name : list Z) :
  plays_by_the_rules -> reached own E evs (part c) -> ~ builtin n ->
  exists ans c' own' E' evs', adbusI_dispatchBind dh_order invoke hand_over p name (Some n) c = Ret ans c' /\
    same_refs own own' /\ reached own' E' evs' (part c') /\
    match E !! (p, n) with
    | None => ans = InterfaceError /\ c' = c
    | Some e => match method_of (x_iface e) name with
                | Some m => match methodCallback m with Some f => answered_by e m f c ans c' | None => ans = MethodError /\ c' = c end
                | None => ans = MethodError /\ c' = c
                end
    end.
Proof.
  intros P R Hbu. destruct (reached_models own E evs (part c) R) as [M _]. rewrite (bind_dispatch_exact own E c p n name M Hbu).
  destruct (E !! (p, n)) as [e|] eqn:Ee; [|by exists InterfaceError, c, own, E, evs].
  destruct (method_of (x_iface e) name) as [m|] eqn:Em; [|by exists MethodError, c, own, E, evs].
  apply method_iface in Em. destruct (mbr_call_exact own E c p n e m M Ee Em) as (y & Hy & ->).
  destruct (methodCallback m) as [f|]; [|by exists MethodError, c, own, E, evs].
  destruct (called_safe own E evs c p n e m f y P R Ee Em Hy) as (err & c2 & c3 & own' & E' & evs' & Ei & Ed & Ec & Hs & R').
  exists (Answered err), (set_part c3 c2), own', E', evs'. split_and!; try done. by exists y, err, c2, c3.
Qed.
End Refine.

(** A connection with a bind at "/a/b". *)
Definition sample_iface : Interface :=
  mkInterface (str "u") 1 {[str "m" := mkMember (str "m") 2%nat METHOD None [] [] [] [] ∅ (Some 7%nat) None None (Some 8%nat) None (User 2) Null (User 1) Null Null]}.

Definition sample_ifaces : gmap iid Interface :=
  <[0%nat := mkInterface (str "I") 1 ∅]> (<[1%nat := mkInterface (str "P") 1 ∅]>
  {[2%nat := sample_iface]}).

Definition sample_order (A : Type) (g : gmap (list Z) A) : list (list Z * A) := map_to_list g.

Definition sample_bind : Bind := mkBindArgs (str "/a/b") 4 2%nat (mkHooks (User 3) None Null (Some 9%nat) None (User 4) Null None Null).

Lemma sample_good : ifaces_good sample_ifaces 0%nat 1%nat (str "I") (str "P").
Proof.
  split; [by eexists|by eexists|done| |].
  - intros i x. unfold sample_ifaces. rewrite !lookup_insert, lookup_singleton. repeat case_decide; by intros [= <-].
  - intros i x n m Hx Hm. unfold sample_ifaces in Hx. rewrite !lookup_insert, lookup_singleton in Hx.
    repeat case_decide; simplify_eq; cbn in Hm; [by rewrite lookup_empty in Hm..|]. by apply lookup_singleton_Some in Hm as [_ <-].
Qed.

Definition sample_start : Conn := conn_start sample_ifaces 0%nat 1%nat.
Definition sample_state : Conn :=
  match adbus_conn_bind (B := debug_build) sample_bind sample_start with Ret _ c => c | _ => sample_start end.
Definition sample_export : Export := mkExport 6%nat 2%nat (hooks sample_bind).
Definition sample_exports : Exports := <[(str "/a/b", str "u") := sample_export]> ∅.
Notation sample_reached := (reached (B := debug_build) sample_order sample_ifaces 0%nat 1%nat (str "I") (str "P")).

Lemma sample_user : user_iface sample_ifaces (str "I") (str "P") 2%nat sample_iface.
Proof. split; [done|]. by intros [?|?]. Qed.

Lemma sample_state_reached : sample_reached (own0 sample_ifaces) sample_exports [] sample_state.
Proof.
  refine (reached_bind sample_order sample_ifaces 0%nat 1%nat (str "I") (str "P") (own0 sample_ifaces) ∅ [] sample_start sample_bind sample_iface (Some 6%nat) sample_state _ _ _).
  - apply reached_start.
  - split_and!; [exact sample_user|by vm_compute|by vm_compute].
  - by vm_compute.
Qed.

Lemma sample_perm (A : Type) (g : gmap (list Z) A) : sample_order A g ≡ₚ map_to_list g.
Proof. done. Qed.

Lemma exports_refined_witness : is_Some (paths sample_state !! str "/a").
Proof.
  destruct (exports_refined (B := debug_build) sample_order sample_ifaces 0%nat 1%nat (str "I") (str "P") sample_perm sample_good
    (own0 sample_ifaces) sample_exports [] sample_state sample_state_reached) as (_ & _ & Hp & _).
  apply Hp. exists [str "a"], [str "b"], (str "u"), sample_export. split; [done|]. split; [|by vm_compute].
  repeat constructor; vm_compute; congruence.
Defined.

(** A callback that unbinds the object it is called for. *)
Definition unbind_self (f : callback) (d u : pointer) : M Conn Z :=
  let* r := adbus_conn_interface (str "/a/b") (str "u") in
  match r with
  | Some (_, b) => run* adbus_conn_unbind sample_order b in ret 0
  | None => ret 0
  end.

Lemma unbind_self_plays : plays_by_the_rules (B := debug_build) sample_order sample_ifaces 0%nat 1%nat (str "I") (str "P") unbind_self (fun _ _ call => call).
Proof.
  split; [|done]. intros f d u own E evs c R.
  destruct (reached_models (B := debug_build) sample_order sample_ifaces 0%nat 1%nat (str "I") (str "P") sample_perm sample_good own E evs c R) as [M _].
  unfold unbind_self. assert (Hbu : ~ builtin (str "I") (str "P") (str "u")) by (by intros [?|?]).
  rewrite (bind_Ret _ _ _ _ _ (lookup_exact _ _ _ own E c (str "/a/b") (str "u") M Hbu)).
  destruct (E !! (str "/a/b", str "u")) as [e|] eqn:Ee; [|by exists 0, c, own, E, evs].
  destruct (models_unbind sample_order sample_ifaces 0%nat 1%nat (str "I") (str "P") sample_perm sample_good own E c _ e M Ee) as (c' & E1 & _ & _).
  rewrite (bind_Ret _ _ _ _ _ E1). do 5 eexists. split; [done|]. split; [by intros ?|]. by eapply reached_unbind.
Qed.

Lemma call_answered_witness : exists c' own' E' evs',
  adbusI_dispatchBind sample_order unbind_self (fun _ _ call => call) (str "/a/b") (str "m") (Some (str "u")) sample_state = Ret (Answered 0) c' /\
  sample_reached own' E' evs' c'.
Proof.
  destruct (call_answered (B := debug_build) sample_order sample_ifaces 0%nat 1%nat (str "I") (str "P") sample_perm sample_good unbind_self (fun _ _ call => call)
    (own0 sample_ifaces) sample_exports [] sample_state (str "/a/b") (str "u") (str "m") unbind_self_plays sample_state_reached)
    as (ans & c' & own' & E' & evs' & E1 & _ & R & _); [by intros [?|?]|].
  exists c', own', E', evs'. split; [|done]. rewrite E1. f_equal.
  assert (H : match adbusI_dispatchBind sample_order unbind_self (fun _ _ call => call) (str "/a/b") (str "m") (Some (str "u")) sample_state with
    | Ret a _ => a | _ => MethodError end = Answered 0) by (by vm_compute). by rewrite E1 in H.
Defined.
