(* ===== verification/Introspect.v ===== *)
(** Introspection: the XML that adbus/interface.c writes about an object,
    its interfaces with their members, and the objects below it. *)

From Stdlib Require Import ZArith Lia String Ascii.
From stdpp Require Import base option list numbers strings gmap fin_maps.
From S2P Require Import Prelude Names Signature Objects.
#[local] Open Scope Z_scope.
#[local] Open Scope adbus_scope.

(** Text of the source, with [']for the double quote, [^] for the tab and [$]
    for the end of a line. *)
Definition xml_char (c : Z) : Z :=
  if c =? chr "'" then 34 else if c =? chr "^" then 9 else if c =? chr "$" then 10 else c.
Definition xml (s : string) : list Z := map xml_char (str s).

Section Introspect.
Context {B : Build} (dh_order : forall A : Type, gmap (list Z) A -> list (list Z * A)).

(** The loop over a signature: [argi] is the number of the argument at
    [arg], [names] the names of arguments, [suffix] the end of a line. *)
Fixpoint arg_loop (fuel : nat) (suffix : list Z) (names : list (list Z)) (argi : nat) (arg : list Z) : M Conn (list Z * nat) :=
  if deref arg =? 0 then ret ([], argi)
  else match fuel with
  | O => nofuel
  | S fuel =>
      let* next := of_option (adbus_nextarg arg) in
      let* r := arg_loop fuel suffix names (S argi) next in
      ret (xml "^^^<arg type='" ++ take (length arg - length next) arg ++
           (match names !! argi with Some n => xml "' name='" ++ cstr n | None => [] end) ++ suffix ++ r.1, r.2)
  end.

Definition IntrospectArguments (m : Member) : M Conn (list Z) :=
  let* a := arg_loop (length (argsig m)) (xml "'/>$") (arguments m) 0 (argsig m) in
  run* assert_ (length (arguments m) <=? a.2)%nat in
  let* r := arg_loop (length (retsig m)) (xml "' direction='out'/>$") (returns m) 0 (retsig m) in
  run* assert_ (length (returns m) <=? r.2)%nat in
  ret (a.1 ++ r.1).

Definition annotation (a : list Z * list Z) : list Z :=
  xml "^^^<annotation name='" ++ cstr a.1 ++ xml "' value='" ++ cstr a.2 ++ xml "'/>$".
Definition IntrospectAnnotations (m : Member) : list Z := concat (map annotation (dh_order _ (annotations m))).

(** What a property says of its access; a debug build stops when there is
    none. *)
Definition access (m : Member) : M Conn (list Z) :=
  match getPropertyCallback m, setPropertyCallback m with
  | Some _, Some _ => ret (xml "readwrite")
  | Some _, None => ret (xml "read")
  | None, Some _ => ret (xml "write")
  | None, None => run* assert_ false in ret []
  end.

Definition IntrospectMember (m : Member) : M Conn (list Z) :=
  match m_type m with
  | PROPERTY =>
      let* type := of_option (propertyType m) in
      let* acc := access m in
      ret (xml "^^<property name='" ++ m_name m ++ xml "' type='" ++ cstr type ++ xml "' access='" ++ acc ++
           (if (base.size (annotations m) =? 0)%nat then xml "'/>$"
            else xml "'>$" ++ IntrospectAnnotations m ++ xml "^^</property>$"))
  | METHOD =>
      let* args := IntrospectArguments m in
      ret (xml "^^<method name='" ++ m_name m ++ xml "'>$" ++ IntrospectAnnotations m ++ args ++ xml "^^</method>$")
  | SIGNAL =>
      let* args := IntrospectArguments m in
      ret (xml "^^<signal name='" ++ m_name m ++ xml "'>$" ++ IntrospectAnnotations m ++ args ++ xml "^^</signal>$")
  end.

Fixpoint members_loop (l : list (list Z * Member)) : M Conn (list Z) :=
  match l with
  | [] => ret []
  | (_, m) :: l => let* a := IntrospectMember m in let* r := members_loop l in ret (a ++ r)
  end.

(** One round of the loop of [IntrospectInterfaces]. *)
Definition introspect_interface (b : bid) : M Conn (list Z) :=
  let* cb := bind_at b in
  let* x := iface (b_interface cb) in
  let* ms := members_loop (dh_order _ (members x)) in
  ret (xml "^<interface name='" ++ i_name x ++ xml "'>$" ++ ms ++ xml "^</interface>$").

Fixpoint interfaces_loop (l : list (list Z * bid)) : M Conn (list Z) :=
  match l with
  | [] => ret []
  | (_, b) :: l => let* a := introspect_interface b in let* r := interfaces_loop l in ret (a ++ r)
  end.
Definition IntrospectInterfaces (ob : ObjectPath) : M Conn (list Z) := interfaces_loop (dh_order _ (interfaces ob)).

(** The tail of the path of a child. *)
Definition child_tail (p child : list Z) : list Z :=
  let child := drop (length p) child in
  if (1 <? length p)%nat then drop 1 child else child.

Definition node_line (name : list Z) : list Z := xml "^<node name='" ++ name ++ xml "'/>$".

Fixpoint children_loop (p : list Z) (l : list oid) : M Conn (list Z) :=
  match l with
  | [] => ret []
  | o :: l =>
      let* ob := object o in
      let* r := children_loop p l in
      ret (node_line (cstr (child_tail p (o_path ob))) ++ r)
  end.

Definition doctype : list Z :=
  xml "<!DOCTYPE node PUBLIC '-//freedesktop/DTD D-BUS Object Introspection 1.0//EN'$'http://www.freedesktop.org/standards/dbus/1.0/introspect.dtd'>$<node>$".

Definition IntrospectNode (o : oid) : M Conn (list Z) :=
  let* ob := object o in
  let* i := IntrospectInterfaces ob in
  let* n := children_loop (o_path ob) (children ob) in
  ret (doctype ++ i ++ n ++ xml "</node>$").

(** ** Arguments *)

(** The line of the [i]th argument, of type [t]. *)
Definition arg_line (suffix : list Z) (names : list (list Z)) (i : nat) (t : ty) : list Z :=
  xml "^^^<arg type='" ++ sig_of t ++ (match names !! i with Some n => xml "' name='" ++ cstr n | None => [] end) ++ suffix.

Fixpoint arg_lines (suffix : list Z) (names : list (list Z)) (i : nat) (ts : list ty) : list Z :=
  match ts with
  | [] => []
  | t :: ts => arg_line suffix names i t ++ arg_lines suffix names (S i) ts
  end.

Lemma arg_loop_ok (suffix : list Z) (names : list (list Z)) (ts : list ty) (c : Conn) : forall (fuel i : nat), (length ts <= fuel)%nat ->
  arg_loop fuel suffix names i (sigs_of ts) c = Ret (arg_lines suffix names i ts, (i + length ts)%nat) c.
Proof.
  induction ts as [|t ts IH]; intros fuel i Hf.
  - destruct fuel; cbn; by rewrite Nat.add_0_r.
  - cbn [length] in Hf. destruct fuel as [|fuel]; [lia|]. change (sigs_of (t :: ts)) with (sig_of t ++ sigs_of ts). cbn [arg_loop].
    assert (Hd : (deref (sig_of t ++ sigs_of ts) =? 0) = false).
    { rewrite sig_of_deref. pose proof (code_of_range (head_of t)). lia. }
    rewrite Hd, nextarg_one, (bind_Ret (of_option (Some _)) _ _ _ _ eq_refl), (bind_Ret _ _ _ _ _ (IH fuel (S i) ltac:(lia))).
    rewrite length_app. replace (length (sig_of t) + length (sigs_of ts) - length (sigs_of ts))%nat with (length (sig_of t)) by lia.
    rewrite take_app_length. unfold ret. cbn [arg_lines fst snd length]. unfold arg_line. rewrite <- !app_assoc. do 2 f_equal. lia.
Qed.
(** ** What is written is well formed *)

(** What adbus.h asks of the members of an interface that is bound. *)
Definition wf_member (m : Member) : Prop := exists ats rts,
  argsig m = sigs_of ats /\ retsig m = sigs_of rts /\ (length (arguments m) <= length ats)%nat /\ (length (returns m) <= length rts)%nat /\
  (m_type m = PROPERTY -> is_Some (propertyType m) /\ (is_Some (getPropertyCallback m) \/ is_Some (setPropertyCallback m))).

Lemma arguments_exact (m : Member) (ats rts : list ty) (c : Conn) : argsig m = sigs_of ats -> retsig m = sigs_of rts ->
  (length (arguments m) <= length ats)%nat -> (length (returns m) <= length rts)%nat ->
  IntrospectArguments m c =
  Ret (arg_lines (xml "'/>$") (arguments m) 0 ats ++ arg_lines (xml "' direction='out'/>$") (returns m) 0 rts) c.
Proof.
  intros Ea Er Ha Hr. unfold IntrospectArguments. rewrite Ea, Er.
  rewrite (bind_Ret _ _ _ _ _ (arg_loop_ok _ _ ats c _ 0 (length_sigs ats))), (bind_Ret _ _ _ _ _ (assert_true _ c (proj2 (Nat.leb_le _ _) Ha))).
  rewrite (bind_Ret _ _ _ _ _ (arg_loop_ok _ _ rts c _ 0 (length_sigs rts))), (bind_Ret _ _ _ _ _ (assert_true _ c (proj2 (Nat.leb_le _ _) Hr))).
  done.
Qed.

Lemma member_returns (m : Member) (c : Conn) : wf_member m -> exists t, IntrospectMember m c = Ret t c.
Proof.
  intros (ats & rts & Ea & Er & Ha & Hr & Hp). unfold IntrospectMember.
  destruct (m_type m); [eexists; by rewrite (bind_Ret _ _ _ _ _ (arguments_exact m ats rts c Ea Er Ha Hr))..|].
  destruct (Hp eq_refl) as [[t ->] Hacc]. rewrite (bind_Ret (of_option (Some _)) _ _ _ _ eq_refl).
  assert (Hr' : exists a, access m c = Ret a c).
  { unfold access. destruct (getPropertyCallback m), (setPropertyCallback m); try (by eexists). by destruct Hacc as [[? ?]|[? ?]]. }
  destruct Hr' as [a Ea']. eexists. by rewrite (bind_Ret _ _ _ _ _ Ea').
Qed.

Lemma members_return (l : list (list Z * Member)) (c : Conn) : Forall (fun p => wf_member p.2) l -> exists t, members_loop l c = Ret t c.
Proof.
  induction 1 as [|[n m] l Hm _ [t IH]]; [by eexists|]. cbn [members_loop]. destruct (member_returns m c Hm) as [a Ea].
  eexists. by rewrite (bind_Ret _ _ _ _ _ Ea), (bind_Ret _ _ _ _ _ IH).
Qed.

(** The text of an interface. *)
Definition interface_text (n ms : list Z) : list Z := xml "^<interface name='" ++ n ++ xml "'>$" ++ ms ++ xml "^</interface>$".

Context (Hd : forall A (g : gmap (list Z) A), dh_order A g ≡ₚ map_to_list g).

Lemma interface_exact (c : Conn) (b : bid) (cb : ConnBind) (x : Interface) : bind_heap c !! b = Some cb -> ifaces c !! b_interface cb = Some x ->
  (forall n m, members x !! n = Some m -> wf_member m) ->
  exists ms, introspect_interface b c = Ret (interface_text (i_name x) ms) c.
Proof.
  intros Hcb Hx Hm. destruct (members_return (dh_order _ (members x)) c) as [ms Ems].
  { rewrite Hd. apply Forall_forall. intros [n m] Hin. by apply elem_of_map_to_list, Hm in Hin. }
  exists ms. unfold introspect_interface, bind_at, iface.
  rewrite bind_assoc, (bind_Ret get _ _ _ _ eq_refl), Hcb, (bind_Ret (of_option (Some _)) _ _ _ _ eq_refl).
  rewrite bind_assoc, (bind_Ret get _ _ _ _ eq_refl), Hx, (bind_Ret (of_option (Some _)) _ _ _ _ eq_refl).
  by rewrite (bind_Ret _ _ _ _ _ Ems).
Qed.

Lemma interfaces_exact (c : Conn) (l : list (list Z * bid)) :
  Forall (fun nb => exists ms, introspect_interface nb.2 c = Ret (interface_text nb.1 ms) c) l ->
  exists texts, interfaces_loop l c = Ret (concat texts) c /\
    Forall2 (fun nb t => introspect_interface nb.2 c = Ret t c /\ exists ms, t = interface_text nb.1 ms) l texts.
Proof.
  induction 1 as [|[n b] l [ms Em] _ (ts & IH & H2)]; [by exists []|]. exists (interface_text n ms :: ts). cbn [interfaces_loop]. cbn in Em.
  rewrite (bind_Ret _ _ _ _ _ Em), (bind_Ret _ _ _ _ _ IH). split; [done|]. constructor; [|done]. split; [done|by eexists].
Qed.

(** ** Children *)

Lemma component_cstr (d : list Z) : component d -> cstr d = d.
Proof.
  intros [_ Hc]. apply cstr_no_nul. eapply Forall_impl; [exact Hc|]. intros x Hx ->. done.
Qed.

Lemma child_tail_render (cs : list (list Z)) (d : list Z) : Forall component cs -> child_tail (render cs) (render (cs ++ [d])) = d.
Proof.
  intros Hcs. unfold child_tail. destruct cs as [|e cs].
  - cbn. by rewrite app_nil_r.
  - assert (E : render ((e :: cs) ++ [d]) = render (e :: cs) ++ SLASH :: d).
    { cbn [render app]. change (e :: cs ++ [d]) with ((e :: cs) ++ [d]). rewrite flat_app. cbn. by rewrite app_nil_r. }
    rewrite E, drop_app_length. pose proof (Forall_inv Hcs) as [Hn _].
    assert (Hl : (1 <? length (render (e :: cs)))%nat = true); [|by rewrite Hl].
    apply Nat.ltb_lt. cbn. rewrite length_app. destruct e; [done|cbn; lia].
Qed.

Lemma children_exact (c : Conn) (cs : list (list Z)) (l : list oid) (ds : list (list Z)) : Forall component cs ->
  Forall2 (fun o d => component d /\ exists ob, objects c !! o = Some ob /\ o_path ob = render (cs ++ [d])) l ds ->
  children_loop (render cs) l c = Ret (concat (map node_line ds)) c.
Proof.
  intros Hcs. induction 1 as [|o d l ds (Hdc & ob & Hob & Ep) _ IH]; [done|]. cbn [children_loop map concat]. unfold object.
  rewrite bind_assoc, (bind_Ret get _ _ _ _ eq_refl), Hob, (bind_Ret (of_option (Some _)) _ _ _ _ eq_refl), (bind_Ret _ _ _ _ _ IH).
  by rewrite Ep, child_tail_render, component_cstr.
Qed.

(** The children of an object are the paths one component longer. *)
Lemma children_names (c : Conn) (o : oid) (ob : ObjectPath) (cs : list (list Z)) : tree_ok ∅ (paths c) (tree c) -> objects c !! o = Some ob ->
  Forall component cs -> o_path ob = render cs ->
  exists ds, Forall2 (fun o d => component d /\ exists ob, objects c !! o = Some ob /\ o_path ob = render (cs ++ [d])) (children ob) ds /\
    NoDup ds /\ forall d, d ∈ ds <-> component d /\ is_Some (paths c !! render (cs ++ [d])).
Proof.
  intros T Hob Hcs Ep. assert (Hl : tree c !! o = Some (links_of ob)) by (apply tree_lookup; by exists ob).
  destruct (t_children _ _ _ T o _ ltac:(set_solver) Hl) as [Hnd Hch]. cbn in Hnd, Hch.
  assert (Hcp : forall o', o' ∈ children ob -> exists d, component d /\ paths c !! render (cs ++ [d]) = Some o').
  { intros o' Hin. by apply (child_path_of c o o' ob cs). }
  assert (Hds : exists ds, Forall2 (fun o' d => component d /\ paths c !! render (cs ++ [d]) = Some o') (children ob) ds).
  { clear -Hcp. induction (children ob) as [|o' l IH]; [by exists []|]. destruct (Hcp o' ltac:(by left)) as (d & ? & ?).
    destruct IH as [ds Hds]; [intros o2 Hin; apply Hcp; by right|]. exists (d :: ds). by constructor. }
  destruct Hds as [ds Hds]. exists ds. split; [|split].
  - eapply Forall2_impl; [exact Hds|]. intros o' d [Hdc Hp]. split; [done|].
    apply (t_paths _ _ _ T) in Hp as (l & (ob' & Hob' & <-)%tree_lookup & E). by exists ob'.
  - clear -Hnd Hds. induction Hds as [|o' d l ds [Hdc Hp] Hds IH]; [apply NoDup_nil_2|]. apply NoDup_cons in Hnd as [Hni Hnd].
    apply NoDup_cons. split; [|by apply IH]. intros Hin. apply Hni.
    apply list_elem_of_lookup in Hin as [k Hk]. destruct (Forall2_lookup_r _ _ _ _ _ Hds Hk) as (o2 & Ho2 & _ & Hp2).
    assert (o2 = o') as -> by congruence. by apply list_elem_of_lookup_2 in Ho2.
  - intros d. split.
    + intros Hin. apply list_elem_of_lookup in Hin as [k Hk]. destruct (Forall2_lookup_r _ _ _ _ _ Hds Hk) as (o2 & _ & Hdc & Hp). split; [done|by eexists].
    + intros [Hdc [o' Hp]]. destruct (proj1 (t_paths _ _ _ T _ o') Hp) as (l' & Hl' & El).
      assert (Hin : o' ∈ children ob).
      { apply Hch. split; [set_solver|]. exists l'. split; [done|]. by apply (parent_of c o o' l' ob cs d). }
      apply list_elem_of_lookup in Hin as [k Hk]. destruct (Forall2_lookup_l _ _ _ _ _ Hds Hk) as (d' & Hk' & Hdc' & Hp').
      assert (d' = d) as ->; [|by apply list_elem_of_lookup_2 in Hk'].
      assert (E : render (cs ++ [d']) = render (cs ++ [d])).
      { apply (t_paths _ _ _ T) in Hp' as (l2 & Hl2 & E2). congruence. }
      apply render_inj in E; [by apply app_inj_tail in E as [_ ?]|apply Forall_app; split; [done|by constructor]..].
Qed.
(** ** Introspection of an exported object *)
Context (ifs : gmap iid Interface) (intro props : iid) (nI nP : list Z) (F : ifaces_good ifs intro props nI nP).
Notation builtin := (builtin nI nP).
Notation models := (models ifs nI nP).

(** The interfaces at a path: the built-in ones and the exported ones. *)
Lemma interface_names (own : iid -> Z) (E : Exports) (c : Conn) (p : list Z) (o : oid) (ob : ObjectPath) (n : list Z) : models own E c ->
  paths c !! p = Some o -> objects c !! o = Some ob ->
  is_Some (interfaces ob !! n) <-> builtin n \/ is_Some (E !! (p, n)).
Proof.
  intros M Hp Hob. destruct (m_ok _ _ _ _ _ _ M) as [T W]. assert (Hto : tables c !! o = Some (interfaces ob)) by (apply tables_lookup; by exists ob).
  split.
  - intros [b Hb]. destruct (decide (n = nI)) as [->|H1]; [left; by left|]. destruct (decide (n = nP)) as [->|H2]; [left; by right|]. right.
    destruct (proj1 (b_table _ _ _ _ _ _ W o _ Hto n b) Hb) as [_ (cb & x & Hcb & Hpath & _)].
    exists (mkExport b (b_interface cb) (b_hooks cb)). apply (m_exports _ _ _ _ _ _ M). split; [by intros [?|?]|].
    exists o, (interfaces ob). split_and!; try done. cbn. rewrite Hcb. f_equal. destruct cb; cbn in *; congruence.
  - intros [Hb|[e He]].
    + destruct (b_builtin _ _ _ _ _ _ W o _ ltac:(set_solver) Hto) as [H1 H2]. by destruct Hb as [->| ->].
    + apply (m_exports _ _ _ _ _ _ M) in He as [_ (o' & m & Hp' & Hm & Hb & _)]. assert (o' = o) as -> by congruence.
      assert (m = interfaces ob) as -> by congruence. by eexists.
Qed.

(** C33: introspecting a registered path writes the document type, one element
    for each of its interfaces (the built-in ones and those exported there,
    under their names and no other), one element for each child (the registered
    paths that are one component longer, each once, under that component), and
    the end; it returns whatever the interfaces are, as long as their members
    are what adbus.h asks for. *)
Theorem introspect_node (own : iid -> Z) (E : Exports) (evs : list event) (c : Conn) (cs : list (list Z)) (o : oid) :
  reached dh_order ifs intro props nI nP own E evs c -> Forall component cs -> paths c !! render cs = Some o ->
  (forall i x n m, ifs !! i = Some x -> members x !! n = Some m -> wf_member m) ->
  exists table blocks names,
    IntrospectNode o c = Ret (doctype ++ concat blocks ++ concat (map node_line names) ++ xml "</node>$") c /\
    NoDup table.*1 /\ (forall n, n ∈ table.*1 <-> builtin n \/ is_Some (E !! (render cs, n))) /\
    Forall2 (fun nb t => introspect_interface nb.2 c = Ret t c /\ exists ms, t = interface_text nb.1 ms) table blocks /\
    NoDup names /\ (forall d, d ∈ names <-> component d /\ is_Some (paths c !! render (cs ++ [d]))).
Proof.
  intros R Hcs Hp Hm. destruct (reached_models dh_order ifs intro props nI nP Hd F own E evs c R) as [M _].
  destruct (m_ok _ _ _ _ _ _ M) as [T W]. destruct (proj1 (t_paths _ _ _ T _ o) Hp) as (l & (ob & Hob & <-)%tree_lookup & Ep). cbn in Ep.
  assert (Hto : tables c !! o = Some (interfaces ob)) by (apply tables_lookup; by exists ob).
  destruct (interfaces_exact c (dh_order _ (interfaces ob))) as (blocks & Eb & Hb).
  { rewrite Hd. apply Forall_forall. intros [n b] Hin. apply elem_of_map_to_list in Hin.
    destruct (proj1 (b_table _ _ _ _ _ _ W o _ Hto n b) Hin) as [_ (cb & x & Hcb & _ & Hx & En)]. cbn. rewrite <- En.
    apply (interface_exact c b cb x Hcb Hx). destruct (m_ifaces _ _ _ _ _ _ M _ x Hx) as (x0 & Hx0 & _ & ->). intros k m. exact (Hm _ x0 k m Hx0). }
  destruct (children_names c o ob cs T Hob Hcs Ep) as (names & Hn2 & Hnd & Hn).
  exists (dh_order _ (interfaces ob)), blocks, names. split.
  { unfold IntrospectNode, object. rewrite bind_assoc, (bind_Ret get _ _ _ _ eq_refl), Hob, (bind_Ret (of_option (Some _)) _ _ _ _ eq_refl).
    unfold IntrospectInterfaces. by rewrite (bind_Ret _ _ _ _ _ Eb), Ep, (bind_Ret _ _ _ _ _ (children_exact c cs _ names Hcs Hn2)). }
  split; [by apply order_nodup|]. split; [|split; [done|split; done]].
  intros n. rewrite <- (interface_names own E c (render cs) o ob n M Hp Hob), list_elem_of_fmap. split.
  - intros ([n' b] & -> & Hin). rewrite Hd in Hin. apply elem_of_map_to_list in Hin. by eexists.
  - intros [b Hb']. exists (n, b). split; [done|]. rewrite Hd. by apply elem_of_map_to_list.
Qed.

(** The arguments of a member are written one line for each type of its
    signatures, arguments before results, each with the name it was given, if
    any; the loops end and the checks of a debug build hold whenever there are
    not more names than types. *)
Theorem introspect_arguments (m : Member) (ats rts : list ty) (c : Conn) : argsig m = sigs_of ats -> retsig m = sigs_of rts ->
  (length (arguments m) <= length ats)%nat -> (length (returns m) <= length rts)%nat ->
  IntrospectArguments m c =
  Ret (arg_lines (xml "'/>$") (arguments m) 0 ats ++ arg_lines (xml "' direction='out'/>$") (returns m) 0 rts) c.
Proof. exact (arguments_exact m ats rts c). Qed.
End Introspect.

Lemma introspect_node_witness : exists out,
  IntrospectNode (B := debug_build) sample_order 1%nat sample_state = Ret out sample_state.
Proof.
  destruct (introspect_node (B := debug_build) sample_order sample_perm sample_ifaces 0%nat 1%nat (str "I") (str "P") sample_good
    (own0 sample_ifaces) sample_exports [] sample_state [str "a"] 1%nat sample_state_reached) as (tbl & bs & ns & E1 & _);
    [repeat constructor; vm_compute; congruence|by vm_compute| |by eexists].
  intros i x n m Hx Hm. unfold sample_ifaces in Hx. rewrite !lookup_insert, lookup_singleton in Hx.
  repeat case_decide; simplify_eq; cbn in Hm; [by rewrite lookup_empty in Hm..|]. apply lookup_singleton_Some in Hm as [_ <-].
  exists [], []. split_and!; try done; cbn; lia.
Defined.

(** An "a{sv}" argument called "options" and an "s" result. *)
Lemma introspect_arguments_witness :
  IntrospectArguments (B := debug_build) (set_names [str "options"] [] (set_signatures (str "a{sv}") (str "s") (new_member 0%nat METHOD (str "m")))) sample_state =
  Ret (xml "^^^<arg type='a{sv}' name='options'/>$^^^<arg type='s' direction='out'/>$") sample_state.
Proof.
  rewrite (introspect_arguments (B := debug_build) _ [TArray (TDict (TBasic STRING) TVariant)] [TBasic STRING] sample_state); [done|done|done|cbn; lia|cbn; lia].
Defined.
