(* ===== verification/Client.v ===== *)
(** The client side of a connection, in one thread: the replies and matches
    that are registered with it (adbus/reply.c, adbus/match.c), the tracking of
    the owners of service names (adbus/client-service.c), the states and
    proxies that register through it (adbus/state.c, adbus/proxy.c), its
    serials, and what it sends (adbus/connection.c, adbus/bus.c).

    No function of other threads is set ([should_proxy] and [proxy] of
    adbus_ConnectionCallbacks are NULL); messages and releases may still be
    handed over ([get_proxy]). *)

From Stdlib Require Import ZArith Lia.
From stdpp Require Import base option list numbers strings gmap.
From S2P Require Import Prelude Objects Names Signature Iterator Values Buffer MatchRule Message Factory Server Bus.
#[local] Open Scope Z_scope.
#[local] Open Scope adbus_scope.

(** ** State

    Heap objects are entries of finite maps; their indices are never used
    again, and using the index of a freed object is a memory error. *)
Definition remid : Type := nat.
Definition repid : Type := nat.
Definition matid : Type := nat.
Definition svcid : Type := nat.
Definition stid : Type := nat.
Definition datid : Type := nat.
Definition scid : Type := nat.

Inductive pointer := Null | User (p : nat) | TheService (s : svcid) | TheData (d : datid).
#[export] Instance pointer_eq_dec : EqDecision pointer.
Proof. solve_decision. Defined.

(** adbus_Callback and adbus_MsgCallback: those of the library, and opaque
    ones of users. *)
Inductive Callback := ReleaseDataCallback | UserRelease (f : nat).
Inductive MsgCallback := GetNameOwner | NameOwnerChanged | ConnectCallback | UserCallback (f : nat).

(** The fields release, ruser, relproxy and relpuser of a registration. *)
Record Release := mkRelease {
  release0 : option Callback; ruser0 : pointer; release1 : option Callback; ruser1 : pointer;
  relproxy : option nat; relpuser : pointer }.

(** [struct adbus_Reply] without the remote and serial. *)
Record ReplyHooks := mkReplyHooks {
  y_callback : option MsgCallback; y_cuser : pointer; y_error : option MsgCallback; y_euser : pointer;
  y_proxy : option nat; y_puser : pointer; y_release : Release }.
Record adbus_Reply := mkReply { y_serial : Z; y_remote : option (list Z); y_remoteSize : Z; y_hooks : ReplyHooks }.

(** [struct adbus_Match]: [x_m] holds the fields that the rule language has. *)
Record MatchReg := mkMatchReg {
  x_m : adbus_Match; x_addMatchToBusDaemon : bool; x_replySerial : Z;
  x_error : option (list Z); x_errorSize : Z;
  x_callback : option MsgCallback; x_cuser : pointer; x_proxy : option nat; x_puser : pointer; x_release : Release }.

Record ConnReply := mkConnReply { r_remote : option remid; r_serial : Z; r_hooks : ReplyHooks }.
Record ConnMatch := mkConnMatch { m_reg : MatchReg; m_service : option svcid }.

(** [r_connected]: the pointer to the connection is set. *)
Record Remote := mkRemote { r_connected : bool; r_name : list Z; r_replies : gmap Z repid }.
Record ServiceLookup := mkService { s_service : list Z; s_unique : option (list Z) }.

(** [struct Data] of state.c; [d_data] is what the connection returned. *)
Inductive target := NoTarget | ToReply (r : repid) | ToMatch (m : matid).
Record Data := mkData { d_conn : scid; d_data : target; d_release : Release }.

(** [struct Conn] of state.c: the lists of a state for a connection, and what
    get_proxy returned.  A state has one for this connection once it
    registered something there. *)
Record StateConn := mkStateConn {
  st_matches : list datid; st_replies : list datid; st_relproxy : option nat; st_relpuser : pointer }.
Definition State : Type := option scid.

(** [enum CallType], [struct adbus_Proxy]; strings as the characters. *)
Inductive CallType := METHOD_CALL | GET_PROP_CALL | SET_PROP_CALL.
Record Proxy := mkProxy {
  p_state : stid; p_message : MsgFactory; p_service : list Z; p_path : list Z; p_interface : list Z;
  p_type : CallType; p_variant : option BufVariant }.

(** What the rest of the program sees: messages sent, release callbacks and
    the callback of adbus_conn_connect. *)
Inductive event :=
| Sent (m : Message)
| Released (f : Callback) (u : pointer)
| ReleasedBy (p : nat) (pu : pointer) (f : Callback) (u : pointer)
| ConnectedCall (f : nat) (u : pointer).

Record Client := mkClient {
  c_ref : Z; remotes : gmap (list Z) remid; remote_heap : gmap remid Remote;
  reply_heap : gmap repid ConnReply; replies : list repid; reply_iter : option repid;
  match_heap : gmap matid ConnMatch; matches : list matid; services : gmap (list Z) svcid;
  service_heap : gmap svcid ServiceLookup; states : gmap stid State; conn_heap : gmap scid StateConn;
  data_heap : gmap datid Data; c_state : stid; nextSerial : Z; connected : bool;
  uniqueService : option (list Z); connectCallback : option nat; connectData : pointer; bus : Proxy;
  conn : Objects.Conn; returnMessage : MsgFactory; next_id : nat; log : list event }.

Definition set_c_ref (v : Z) (c : Client) : Client :=
  mkClient v (remotes c) (remote_heap c) (reply_heap c) (replies c) (reply_iter c) (match_heap c) (matches c) (services c) (service_heap c) (states c) (conn_heap c) (data_heap c) (c_state c) (nextSerial c) (connected c) (uniqueService c) (connectCallback c) (connectData c) (bus c) (conn c) (returnMessage c) (next_id c) (log c).
Definition set_remotes (v : gmap (list Z) remid) (c : Client) : Client :=
  mkClient (c_ref c) v (remote_heap c) (reply_heap c) (replies c) (reply_iter c) (match_heap c) (matches c) (services c) (service_heap c) (states c) (conn_heap c) (data_heap c) (c_state c) (nextSerial c) (connected c) (uniqueService c) (connectCallback c) (connectData c) (bus c) (conn c) (returnMessage c) (next_id c) (log c).
Definition set_remote_heap (v : gmap remid Remote) (c : Client) : Client :=
  mkClient (c_ref c) (remotes c) v (reply_heap c) (replies c) (reply_iter c) (match_heap c) (matches c) (services c) (service_heap c) (states c) (conn_heap c) (data_heap c) (c_state c) (nextSerial c) (connected c) (uniqueService c) (connectCallback c) (connectData c) (bus c) (conn c) (returnMessage c) (next_id c) (log c).
Definition set_reply_heap (v : gmap repid ConnReply) (c : Client) : Client :=
  mkClient (c_ref c) (remotes c) (remote_heap c) v (replies c) (reply_iter c) (match_heap c) (matches c) (services c) (service_heap c) (states c) (conn_heap c) (data_heap c) (c_state c) (nextSerial c) (connected c) (uniqueService c) (connectCallback c) (connectData c) (bus c) (conn c) (returnMessage c) (next_id c) (log c).
Definition set_replies (v : list repid) (c : Client) : Client :=
  mkClient (c_ref c) (remotes c) (remote_heap c) (reply_heap c) v (reply_iter c) (match_heap c) (matches c) (services c) (service_heap c) (states c) (conn_heap c) (data_heap c) (c_state c) (nextSerial c) (connected c) (uniqueService c) (connectCallback c) (connectData c) (bus c) (conn c) (returnMessage c) (next_id c) (log c).
Definition set_reply_iter (v : option repid) (c : Client) : Client :=
  mkClient (c_ref c) (remotes c) (remote_heap c) (reply_heap c) (replies c) v (match_heap c) (matches c) (services c) (service_heap c) (states c) (conn_heap c) (data_heap c) (c_state c) (nextSerial c) (connected c) (uniqueService c) (connectCallback c) (connectData c) (bus c) (conn c) (returnMessage c) (next_id c) (log c).
Definition set_match_heap (v : gmap matid ConnMatch) (c : Client) : Client :=
  mkClient (c_ref c) (remotes c) (remote_heap c) (reply_heap c) (replies c) (reply_iter c) v (matches c) (services c) (service_heap c) (states c) (conn_heap c) (data_heap c) (c_state c) (nextSerial c) (connected c) (uniqueService c) (connectCallback c) (connectData c) (bus c) (conn c) (returnMessage c) (next_id c) (log c).
Definition set_matches (v : list matid) (c : Client) : Client :=
  mkClient (c_ref c) (remotes c) (remote_heap c) (reply_heap c) (replies c) (reply_iter c) (match_heap c) v (services c) (service_heap c) (states c) (conn_heap c) (data_heap c) (c_state c) (nextSerial c) (connected c) (uniqueService c) (connectCallback c) (connectData c) (bus c) (conn c) (returnMessage c) (next_id c) (log c).
Definition set_services (v : gmap (list Z) svcid) (c : Client) : Client :=
  mkClient (c_ref c) (remotes c) (remote_heap c) (reply_heap c) (replies c) (reply_iter c) (match_heap c) (matches c) v (service_heap c) (states c) (conn_heap c) (data_heap c) (c_state c) (nextSerial c) (connected c) (uniqueService c) (connectCallback c) (connectData c) (bus c) (conn c) (returnMessage c) (next_id c) (log c).
Definition set_service_heap (v : gmap svcid ServiceLookup) (c : Client) : Client :=
  mkClient (c_ref c) (remotes c) (remote_heap c) (reply_heap c) (replies c) (reply_iter c) (match_heap c) (matches c) (services c) v (states c) (conn_heap c) (data_heap c) (c_state c) (nextSerial c) (connected c) (uniqueService c) (connectCallback c) (connectData c) (bus c) (conn c) (returnMessage c) (next_id c) (log c).
Definition set_states (v : gmap stid State) (c : Client) : Client :=
  mkClient (c_ref c) (remotes c) (remote_heap c) (reply_heap c) (replies c) (reply_iter c) (match_heap c) (matches c) (services c) (service_heap c) v (conn_heap c) (data_heap c) (c_state c) (nextSerial c) (connected c) (uniqueService c) (connectCallback c) (connectData c) (bus c) (conn c) (returnMessage c) (next_id c) (log c).
Definition set_conn_heap (v : gmap scid StateConn) (c : Client) : Client :=
  mkClient (c_ref c) (remotes c) (remote_heap c) (reply_heap c) (replies c) (reply_iter c) (match_heap c) (matches c) (services c) (service_heap c) (states c) v (data_heap c) (c_state c) (nextSerial c) (connected c) (uniqueService c) (connectCallback c) (connectData c) (bus c) (conn c) (returnMessage c) (next_id c) (log c).
Definition set_data_heap (v : gmap datid Data) (c : Client) : Client :=
  mkClient (c_ref c) (remotes c) (remote_heap c) (reply_heap c) (replies c) (reply_iter c) (match_heap c) (matches c) (services c) (service_heap c) (states c) (conn_heap c) v (c_state c) (nextSerial c) (connected c) (uniqueService c) (connectCallback c) (connectData c) (bus c) (conn c) (returnMessage c) (next_id c) (log c).
Definition set_nextSerial (v : Z) (c : Client) : Client :=
  mkClient (c_ref c) (remotes c) (remote_heap c) (reply_heap c) (replies c) (reply_iter c) (match_heap c) (matches c) (services c) (service_heap c) (states c) (conn_heap c) (data_heap c) (c_state c) v (connected c) (uniqueService c) (connectCallback c) (connectData c) (bus c) (conn c) (returnMessage c) (next_id c) (log c).
Definition set_bus (v : Proxy) (c : Client) : Client :=
  mkClient (c_ref c) (remotes c) (remote_heap c) (reply_heap c) (replies c) (reply_iter c) (match_heap c) (matches c) (services c) (service_heap c) (states c) (conn_heap c) (data_heap c) (c_state c) (nextSerial c) (connected c) (uniqueService c) (connectCallback c) (connectData c) v (conn c) (returnMessage c) (next_id c) (log c).
Definition set_conn (v : Objects.Conn) (c : Client) : Client :=
  mkClient (c_ref c) (remotes c) (remote_heap c) (reply_heap c) (replies c) (reply_iter c) (match_heap c) (matches c) (services c) (service_heap c) (states c) (conn_heap c) (data_heap c) (c_state c) (nextSerial c) (connected c) (uniqueService c) (connectCallback c) (connectData c) (bus c) v (returnMessage c) (next_id c) (log c).
Definition set_returnMessage (v : MsgFactory) (c : Client) : Client :=
  mkClient (c_ref c) (remotes c) (remote_heap c) (reply_heap c) (replies c) (reply_iter c) (match_heap c) (matches c) (services c) (service_heap c) (states c) (conn_heap c) (data_heap c) (c_state c) (nextSerial c) (connected c) (uniqueService c) (connectCallback c) (connectData c) (bus c) (conn c) v (next_id c) (log c).
Definition set_next_id (v : nat) (c : Client) : Client :=
  mkClient (c_ref c) (remotes c) (remote_heap c) (reply_heap c) (replies c) (reply_iter c) (match_heap c) (matches c) (services c) (service_heap c) (states c) (conn_heap c) (data_heap c) (c_state c) (nextSerial c) (connected c) (uniqueService c) (connectCallback c) (connectData c) (bus c) (conn c) (returnMessage c) v (log c).
Definition set_log (v : list event) (c : Client) : Client :=
  mkClient (c_ref c) (remotes c) (remote_heap c) (reply_heap c) (replies c) (reply_iter c) (match_heap c) (matches c) (services c) (service_heap c) (states c) (conn_heap c) (data_heap c) (c_state c) (nextSerial c) (connected c) (uniqueService c) (connectCallback c) (connectData c) (bus c) (conn c) (returnMessage c) (next_id c) v.
Definition set_connection (con : bool) (u : option (list Z)) (f : option nat) (d : pointer) (c : Client) : Client :=
  mkClient (c_ref c) (remotes c) (remote_heap c) (reply_heap c) (replies c) (reply_iter c) (match_heap c) (matches c) (services c) (service_heap c) (states c) (conn_heap c) (data_heap c) (c_state c) (nextSerial c) con u f d (bus c) (conn c) (returnMessage c) (next_id c) (log c).

#[export] Instance client_conn : Part Client Objects.Conn := { part := conn; set_part := set_conn }.
#[export] Instance client_conn_laws : PartLaws Client Objects.Conn.
Proof. split; [done|by intros []|done]. Qed.

(** *** Access *)
Definition remote_at (m : remid) : M Client Remote := let* c := get in of_option (remote_heap c !! m).
Definition reply_at (r : repid) : M Client ConnReply := let* c := get in of_option (reply_heap c !! r).
Definition match_at (m : matid) : M Client ConnMatch := let* c := get in of_option (match_heap c !! m).
Definition service_at (s : svcid) : M Client ServiceLookup := let* c := get in of_option (service_heap c !! s).
Definition conn_at (k : scid) : M Client StateConn := let* c := get in of_option (conn_heap c !! k).
Definition data_at (d : datid) : M Client Data := let* c := get in of_option (data_heap c !! d).
Definition put_remote (m : remid) (x : Remote) : M Client unit := modify (fun c => set_remote_heap (<[m := x]> (remote_heap c)) c).
Definition put_reply (r : repid) (x : ConnReply) : M Client unit := modify (fun c => set_reply_heap (<[r := x]> (reply_heap c)) c).
Definition put_match (m : matid) (x : ConnMatch) : M Client unit := modify (fun c => set_match_heap (<[m := x]> (match_heap c)) c).
Definition put_service (s : svcid) (x : ServiceLookup) : M Client unit := modify (fun c => set_service_heap (<[s := x]> (service_heap c)) c).
Definition put_conn (k : scid) (x : StateConn) : M Client unit := modify (fun c => set_conn_heap (<[k := x]> (conn_heap c)) c).
Definition put_data (d : datid) (x : Data) : M Client unit := modify (fun c => set_data_heap (<[d := x]> (data_heap c)) c).
Definition alloc : M Client nat := let* c := get in run* put (set_next_id (S (next_id c)) c) in ret (next_id c).
Definition emit (e : event) : M Client unit := modify (fun c => set_log (log c ++ [e]) c).

Definition set_r_replies (t : gmap Z repid) (x : Remote) : Remote := mkRemote (r_connected x) (r_name x) t.
Definition set_r_connected (b : bool) (x : Remote) : Remote := mkRemote b (r_name x) (r_replies x).
Definition set_r_remote (m : option remid) (y : ConnReply) : ConnReply := mkConnReply m (r_serial y) (r_hooks y).

(** [dil_remove] of an element of a list of ids. *)
Definition without (i : nat) (l : list nat) : list nat := List.filter (fun j => negb (j =? i)%nat) l.

(** ** Releasing *)

(** [FreeData]: its own release callbacks are those of the user. *)
Definition data_release (k : StateConn) (f : option Callback) (u : pointer) : M Client unit :=
  match f with
  | None => ret tt
  | Some f => emit (match st_relproxy k with Some p => ReleasedBy p (st_relpuser k) f u | None => Released f u end)
  end.
Definition FreeData (d : datid) : M Client unit :=
  let* x := data_at d in
  let* k := conn_at (d_conn x) in
  run* put_conn (d_conn x) (mkStateConn (without d (st_matches k)) (without d (st_replies k)) (st_relproxy k) (st_relpuser k)) in
  run* data_release k (release0 (d_release x)) (ruser0 (d_release x)) in
  run* data_release k (release1 (d_release x)) (ruser1 (d_release x)) in
  modify (fun c => set_data_heap (delete d (data_heap c)) c).

Definition run_release (h : Release) (f : option Callback) (u : pointer) : M Client unit :=
  match f with
  | None => ret tt
  | Some f =>
      match relproxy h with
      | Some p => emit (ReleasedBy p (relpuser h) f u)
      | None =>
          match f with
          | UserRelease _ => emit (Released f u)
          | ReleaseDataCallback => match u with TheData d => FreeData d | _ => oob end
          end
      end
  end.
Definition run_releases (h : Release) : M Client unit :=
  run* run_release h (release0 h) (ruser0 h) in run_release h (release1 h) (ruser1 h).

Definition release_zero : Release := mkRelease None Null None Null None Null.

(** ** Replies *)
Definition adbus_reply_init : adbus_Reply := mkReply 0 None (-1) (mkReplyHooks None Null None Null None Null release_zero).

(** The replies of a remote that goes away; the order does not matter. *)
Fixpoint unset_remotes (l : list repid) : M Client unit :=
  match l with
  | [] => ret tt
  | r :: l => let* y := reply_at r in run* put_reply r (set_r_remote None y) in unset_remotes l
  end.

Definition adbusI_freeRemote (m : remid) : M Client unit :=
  let* x := remote_at m in
  run* (if r_connected x then modify (fun c => set_remotes (delete (r_name x) (remotes c)) c) else ret tt) in
  run* unset_remotes (map snd (map_to_list (r_replies x))) in
  modify (fun c => set_remote_heap (delete m (remote_heap c)) c).

(** [dil_remove(Reply, r, &r->fl)] *)
Definition remove_reply (r : repid) : M Client unit :=
  modify (fun c => set_reply_iter (if bool_decide (reply_iter c = Some r) then None else reply_iter c)
                     (set_replies (without r (replies c)) c)).

Definition adbusI_freeReply (r : repid) : M Client unit :=
  let* y := reply_at r in
  run* (match r_remote y with
        | None => ret tt
        | Some m =>
            let* x := remote_at m in
            let t := delete (r_serial y) (r_replies x) in
            run* put_remote m (set_r_replies t x) in
            if (base.size t =? 0)%nat then adbusI_freeRemote m else ret tt
        end) in
  run* run_releases (y_release (r_hooks y)) in
  run* remove_reply r in
  modify (fun c => set_reply_heap (delete r (reply_heap c)) c).

Definition adbus_conn_removereply (r : repid) : M Client unit := adbusI_freeReply r.

(** A new remote in the table. *)
Definition new_remote (name : list Z) : M Client remid :=
  let* m := alloc in
  run* put_remote m (mkRemote true name ∅) in
  run* modify (fun c => set_remotes (<[name := m]> (remotes c)) c) in
  ret m.

Section Client.
Context {B : Build}.

(** *** Owners of services *)
Fixpoint move_replies (um : remid) (l : list (Z * repid)) : M Client unit :=
  match l with
  | [] => ret tt
  | (_, r) :: l =>
      let* y := reply_at r in
      let* x := remote_at um in
      run* assert_ (bool_decide (r_replies x !! r_serial y = None)) in
      run* put_reply r (set_r_remote (Some um) y) in
      run* put_remote um (set_r_replies (<[r_serial y := r]> (r_replies x)) x) in
      move_replies um l
  end.

(** The entry of the new name is made first: it is read uninitialised if the
    owner has the name of the service itself. *)
Definition MoveReplies (s : svcid) : M Client unit :=
  let* sv := service_at s in
  let* unique := of_option (s_unique sv) in
  let* c := get in
  let ui := remotes c !! unique in
  if bool_decide (ui = None) && list_eqb unique (s_service sv) then oob else
  match remotes c !! s_service sv with
  | None => ret tt
  | Some sm =>
      let* um := (match ui with Some um => ret um | None => new_remote unique end) in
      let* x := remote_at sm in
      run* move_replies um (map_to_list (r_replies x)) in
      run* modify (fun c => set_remotes (delete (s_service sv) (remotes c)) c) in
      let* x := remote_at sm in
      run* put_remote sm (set_r_connected false (set_r_replies ∅ x)) in
      adbusI_freeRemote sm
  end.

(** *** The callbacks of the library

    [on_call has_ret m i op]: a computation of a callback for the message [m],
    with [i] as the iterator of the check functions, and the return message of
    the connection if a reply is wanted; the result comes with the iterator
    afterwards.  There is no server. *)
Definition on_call {A} (has_ret : bool) (m : Message) (i : option Iterator) (op : C A) : M Client ((A + jump) * option Iterator) := fun c =>
  match op (mkCall server_zero m (if has_ret then Some (returnMessage c) else None) i (nextSerial c)) with
  | Ret r d => Ret (r, c_iter d) (set_nextSerial (c_serial d) (match c_ret d with Some f => set_returnMessage f c | None => c end))
  | Err _ => Err c
  | Abort => Abort | Oob => Oob | Nofuel => Nofuel
  end.

(** The arguments of [m] are read, with no message to reply with. *)
Definition checked {A} (m : Message) (op : C A) : M Client (A + jump) :=
  let* r := on_call false m (adbus_iter_args m) op in ret (fst r).

(** What [adbus_dispatch] returns after a jump. *)
Definition caught (j : jump) : Z := match j with ERROR => 0 | _ => code_of_jump j end.

Definition service_owner (u : pointer) (unique : list Z) : M Client unit :=
  match u with
  | TheService s =>
      let* sv := service_at s in
      run* put_service s (mkService (s_service sv) (Some unique)) in
      MoveReplies s
  | _ => oob
  end.

Definition get_name_owner (u : pointer) (m : Message) : M Client Z :=
  let* r := checked m (do* unique := adbus_check_string in then* adbus_check_end in done_ unique) in
  match r with
  | inr j => ret (caught j)
  | inl unique =>
      let* sv := (match u with TheService s => service_at s | _ => oob end) in
      run* assert_ (bool_decide (s_unique sv = None)) in
      run* service_owner u unique in
      ret 0
  end.

Definition name_owner_changed (u : pointer) (m : Message) : M Client Z :=
  let* r := checked m
    (do* n := adbus_check_string in do* from := adbus_check_string in do* to := adbus_check_string in
     then* adbus_check_end in done_ to) in
  match r with
  | inr j => ret (caught j)
  | inl to => run* service_owner u to in ret 0
  end.

Definition adbusI_ConnectCallback (m : Message) : M Client Z :=
  let* r := checked m adbus_check_string in
  match r with
  | inr j => ret (caught j)
  | inl unique =>
      let* c := get in
      run* assert_ (bool_decide (uniqueService c = None)) in
      run* modify (set_connection true (Some (cstr unique)) (connectCallback c) (connectData c)) in
      run* (match connectCallback c with Some f => emit (ConnectedCall f (connectData c)) | None => ret tt end) in
      ret 0
  end.

(** [invoke f user1 m] is [adbus_dispatch] of a user's callback, and
    [hand_over p user call] what a proxy of [get_proxy] does with a call. *)
Context (invoke : nat -> pointer -> Message -> M Client Z) (hand_over : nat -> pointer -> M Client Z -> M Client Z).

Definition adbus_dispatch (cb : option MsgCallback) (user1 : pointer) (m : Message) : M Client Z :=
  match cb with
  | None => oob
  | Some GetNameOwner => get_name_owner user1 m
  | Some NameOwnerChanged => name_owner_changed user1 m
  | Some ConnectCallback => adbusI_ConnectCallback m
  | Some (UserCallback f) => invoke f user1 m
  end.
Definition dispatch_by (proxy : option nat) (puser : pointer) (cb : option MsgCallback) (user1 : pointer) (m : Message) : M Client Z :=
  match proxy with
  | Some p => hand_over p puser (adbus_dispatch cb user1 m)
  | None => adbus_dispatch cb user1 m
  end.

(** *** A reply arrives *)
Definition reply_target (t : MessageType) (h : ReplyHooks) : option MsgCallback * pointer :=
  match t, y_callback h, y_error h with
  | MSG_RETURN, Some f, _ => (Some f, y_cuser h)
  | MSG_ERROR, _, Some f => (Some f, y_euser h)
  | _, _, _ => (None, Null)
  end.

Definition adbusI_dispatchReply (m : Message) : M Client Z :=
  if negb (bool_decide (msg_type m = MSG_RETURN) || bool_decide (msg_type m = MSG_ERROR)) then ret 0 else
  match replySerial m, msg_sender m with
  | Some serial, Some sender =>
      let* c := get in
      match remotes c !! sender with
      | None => ret 0
      | Some rm =>
          let* x := remote_at rm in
          match r_replies x !! serial with
          | None => ret 0
          | Some r =>
              run* modify (set_reply_iter (Some r)) in
              let* y := reply_at r in
              run* assert_ (bool_decide (r_remote y = Some rm)) in
              run* put_reply r (set_r_remote None y) in
              let t := delete serial (r_replies x) in
              run* put_remote rm (set_r_replies t x) in
              run* (if (base.size t =? 0)%nat then
                      run* put_remote rm (set_r_connected false (set_r_replies t x)) in
                      run* modify (fun c => set_remotes (delete sender (remotes c)) c) in
                      adbusI_freeRemote rm
                    else ret tt) in
              let h := r_hooks y in
              let '(cb, user1) := reply_target (msg_type m) h in
              let* res := dispatch_by (y_proxy h) (y_puser h) cb user1 m in
              let* c := get in
              run* put (set_reply_iter None c) in
              run* (if bool_decide (reply_iter c = Some r) then adbusI_freeReply r else ret tt) in
              ret res
          end
      end
  | _, _ => ret 0
  end.

(** ** Serials, sending *)
Definition adbus_conn_serial : M Client Z :=
  let* c := get in
  let n := if nextSerial c =? 2 ^ 32 - 1 then 1 else nextSerial c in
  run* put (set_nextSerial (n + 1) c) in
  ret n.

(** [send_message m]: the bytes that the callback of the user wrote. *)
Context (send_message : option (Message -> Z)).
Definition adbus_conn_send (m : Message) : M Client Z :=
  run* assert_ (negb (msg_serial m =? 0)) in
  match send_message with
  | None => ret (-1)
  | Some send => run* emit (Sent m) in ret (if send m =? msg_size m then 0 else -1)
  end.

(** The result, and the factory afterwards. *)
Definition adbus_msg_send (f : MsgFactory) : M Client (Z * MsgFactory) :=
  let* f := (if adbus_msg_serial f <? 0 then let* n := adbus_conn_serial in ret (adbus_msg_setserial n f) else ret f) in
  match adbus_msg_build f with
  | Ret m f => let* r := adbus_conn_send m in ret (r, f)
  | Err f => ret (-1, f)
  | Abort => fun _ => Abort
  | Oob => oob
  | Nofuel => nofuel
  end.

(** An operation on the arguments of a message that is built. *)
Definition arg_op {A} (op : M Buffer A) (f : MsgFactory) : M Client (A * MsgFactory) :=
  match op (argbuf f) with
  | Ret a b => ret (a, set_argbuf b f)
  | Err _ => err
  | Abort => fun _ => Abort
  | Oob => oob
  | Nofuel => nofuel
  end.
Definition arg_ (op : M Buffer unit) (p : Proxy) : M Client Proxy :=
  let* x := arg_op op (p_message p) in
  ret (mkProxy (p_state p) (snd x) (p_service p) (p_path p) (p_interface p) (p_type p) (p_variant p)).

(** ** Proxies *)
Definition adbus_proxy_new (state : stid) : Proxy := mkProxy state adbus_msg_new [] [] [] METHOD_CALL None.
Definition adbus_proxy_init (service : list Z) (ssize : Z) (path : list Z) (psize : Z) (p : Proxy) : Proxy :=
  mkProxy (p_state p) (p_message p) (sized service ssize) (sized path psize) [] (p_type p) (p_variant p).
Definition adbus_proxy_setinterface (interface : list Z) (isize : Z) (p : Proxy) : Proxy :=
  mkProxy (p_state p) (p_message p) (p_service p) (p_path p) (sized interface isize) (p_type p) (p_variant p).
Definition set_p_message (f : MsgFactory) (p : Proxy) : Proxy :=
  mkProxy (p_state p) f (p_service p) (p_path p) (p_interface p) (p_type p) (p_variant p).

(** [struct adbus_Call] without the message, which is the proxy's. *)
Record adbus_Call := mkCallRec {
  k_callback : option MsgCallback; k_cuser : pointer; k_error : option MsgCallback; k_euser : pointer;
  k_release0 : option Callback; k_ruser0 : pointer; k_release1 : option Callback; k_ruser1 : pointer }.
Definition call_zero : adbus_Call := mkCallRec None Null None Null None Null None Null.

(** The header of a call, as all three kinds write it. *)
Definition call_header (p : Proxy) : M Client MsgFactory :=
  let* n := adbus_conn_serial in
  let m := adbus_msg_setserial n (adbus_msg_settype MSG_METHOD (adbus_msg_reset (p_message p))) in
  ret (adbus_msg_setpath (p_path p) (len (p_path p)) (adbus_msg_setdestination (p_service p) (len (p_service p)) m)).

Definition adbus_call_method (p : Proxy) (method : list Z) (size : Z) : M Client Proxy :=
  let* m := call_header p in
  let m := if 0 <? len (p_interface p) then adbus_msg_setinterface (p_interface p) (len (p_interface p)) m else m in
  ret (set_p_message (adbus_msg_setmember method size m) p).

Definition adbus_call_setproperty (p : Proxy) (property : list Z) (propsize : Z) (type : list Z) (typesize : Z) : M Client Proxy :=
  run* assert_ (0 <? len (p_interface p)) in
  let* m := call_header p in
  let m := adbus_msg_setmember (str "Set") (-1) (adbus_msg_setinterface (str "org.freedesktop.DBus.Properties") (-1) m) in
  let p := mkProxy (p_state p) m (p_service p) (p_path p) (p_interface p) SET_PROP_CALL (p_variant p) in
  let* p := arg_ (adbus_buf_setsig (str "ssv") 3) p in
  let* p := arg_ (adbus_buf_string (p_interface p) (len (p_interface p))) p in
  let* p := arg_ (adbus_buf_string property propsize) p in
  let* x := arg_op (adbus_buf_beginvariant type typesize) (p_message p) in
  ret (mkProxy (p_state p) (snd x) (p_service p) (p_path p) (p_interface p) SET_PROP_CALL (Some (fst x))).

Definition adbus_call_getproperty (p : Proxy) (property : list Z) (size : Z) : M Client Proxy :=
  run* assert_ (0 <? len (p_interface p)) in
  let* m := call_header p in
  let m := adbus_msg_setmember (str "Get") (-1) (adbus_msg_setinterface (str "org.freedesktop.DBus.Properties") (-1) m) in
  let p := mkProxy (p_state p) m (p_service p) (p_path p) (p_interface p) GET_PROP_CALL (p_variant p) in
  let* p := arg_ (adbus_buf_setsig (str "ss") 2) p in
  let* p := arg_ (adbus_buf_string (p_interface p) (len (p_interface p))) p in
  arg_ (adbus_buf_string property size) p.

(** ** Registering

    The lookup of a service registers a match and a reply, and registering
    looks up services: [lookup] is [adbusI_lookupService]. *)
Section Register.
Context (lookup : option (list Z) -> Z -> M Client (option svcid)).

(** *** Replies *)
Definition addreply_ (reg : adbus_Reply) : M Client (option repid) :=
  let* remote := (match y_remote reg with
                  | Some s => ret (sized s (y_remoteSize reg))
                  | None => if y_remoteSize reg =? 0 then ret [] else oob
                  end) in
  run* assert_ (bool_decide (y_callback (y_hooks reg) <> None)) in
  if (length remote =? 0)%nat then ret None else
  let* service := lookup (Some remote) (len remote) in
  let* name := (match service with
                | Some s => let* sv := service_at s in ret (default remote (s_unique sv))
                | None => ret remote
                end) in
  let* c := get in
  let* m := (match remotes c !! name with Some m => ret m | None => new_remote name end) in
  let* x := remote_at m in
  let serial := y_serial reg mod 2 ^ 32 in
  match r_replies x !! serial with
  | Some _ => run* assert_ false in ret None
  | None =>
      let* r := alloc in
      run* put_reply r (mkConnReply (Some m) serial (y_hooks reg)) in
      run* put_remote m (set_r_replies (<[serial := r]> (r_replies x)) x) in
      run* modify (fun c => set_replies (r :: replies c) c) in
      ret (Some r)
  end.

(** *** States *)

(** [get_proxy]: the proxy of release callbacks it returns, with its user
    pointer. *)
Context (get_proxy : option (nat * pointer)).
Definition LookupConnection (s : stid) : M Client scid :=
  let* c := get in
  let* st := of_option (states c !! s) in
  match st with
  | Some k => ret k
  | None =>
      let* k := alloc in
      run* put_conn k (mkStateConn [] [] (fst <$> get_proxy) (from_option snd Null get_proxy)) in
      run* modify (fun c => set_states (<[s := Some k]> (states c)) c) in
      run* modify (fun c => set_c_ref (c_ref c + 1) c) in
      ret k
  end.

(** The hooks that a state puts in place of the user's. *)
Definition data_hooks (h : Release) (d : datid) : Release :=
  mkRelease (Some ReleaseDataCallback) (TheData d) None Null (relproxy h) (relpuser h).

Definition DoAddReply (d : datid) (r : adbus_Reply) : M Client bool :=
  let* x := data_at d in
  let h := y_hooks r in
  run* put_data d (mkData (d_conn x) NoTarget (y_release h)) in
  let h' := mkReplyHooks (y_callback h) (y_cuser h) (y_error h) (y_euser h) (y_proxy h) (y_puser h) (data_hooks (y_release h) d) in
  let* res := addreply_ (mkReply (y_serial r) (y_remote r) (y_remoteSize r) h') in
  match res with
  | None => ret true
  | Some rr =>
      run* put_data d (mkData (d_conn x) (ToReply rr) (y_release h)) in
      let* k := conn_at (d_conn x) in
      run* put_conn (d_conn x) (mkStateConn (st_matches k) (d :: st_replies k) (st_relproxy k) (st_relpuser k)) in
      ret false
  end.

Definition state_addreply_ (s : stid) (r : adbus_Reply) : M Client unit :=
  run* assert_ (bool_decide (y_proxy (y_hooks r) = None) && bool_decide (relproxy (y_release (y_hooks r)) = None)) in
  let* d := alloc in
  let* k := LookupConnection s in
  run* put_data d (mkData k NoTarget release_zero) in
  let* failed := DoAddReply d r in
  if failed : bool then FreeData d else ret tt.

(** *** Sending a call *)
Definition call_send_ (p : Proxy) (call : adbus_Call) : M Client Proxy :=
  let* p := (match p_type p with
             | SET_PROP_CALL => match p_variant p with Some v => arg_ (adbus_buf_endvariant v) p | None => oob end
             | _ => ret p
             end) in
  let* p := arg_ adbus_buf_end p in
  let* p :=
    (if bool_decide (k_callback call <> None) || bool_decide (k_error call <> None) then
       run* state_addreply_ (p_state p)
         (mkReply (adbus_msg_serial (p_message p) mod 2 ^ 32) (Some (p_service p)) (len (p_service p))
            (mkReplyHooks (k_callback call) (k_cuser call) (k_error call) (k_euser call) None Null
               (mkRelease (k_release0 call) (k_ruser0 call) (k_release1 call) (k_ruser1 call) None Null))) in
       ret p
     else
       run* assert_ (bool_decide (k_cuser call = Null) && bool_decide (k_euser call = Null)) in
       run* assert_ (bool_decide (k_release0 call = None) && bool_decide (k_ruser0 call = Null)) in
       run* assert_ (bool_decide (k_release1 call = None) && bool_decide (k_ruser1 call = Null)) in
       ret (set_p_message (adbus_msg_setflags (Z.lor (adbus_msg_flags (p_message p)) 1) (p_message p)) p)) in
  let* r := adbus_msg_send (p_message p) in
  ret (set_p_message (snd r) p).

(** *** Matches *)
Definition CloneString (s : option (list Z)) (size : Z) : option (list Z) * Z :=
  match s with
  | None => (None, 0)
  | Some s => (Some (sized s size), len (sized s size))
  end.
Definition clone_arg (a : Argument) : Argument :=
  let '(v, n) := CloneString (arg_value a) (arg_size a) in mkArg v n.

(** The sender is left out. *)
Definition CloneMatch (g : MatchReg) : MatchReg :=
  let f := x_m g in
  let '(dest, destn) := CloneString (destination f) (destinationSize f) in
  let '(ifc, ifcn) := CloneString (interface f) (interfaceSize f) in
  let '(mem, memn) := CloneString (member f) (memberSize f) in
  let '(e, en) := CloneString (x_error g) (x_errorSize g) in
  let '(pth, pthn) := match path f with
                      | None => (None, 0)
                      | Some q => let q := adbusI_relativePath q (pathSize f) [] 0 in (Some q, len q)
                      end in
  mkMatchReg (mkCMatch (cm_type f) None 0 dest destn ifc ifcn pth pthn mem memn (map clone_arg (arguments f)))
    (x_addMatchToBusDaemon g) (x_replySerial g) e en (x_callback g) (x_cuser g) (x_proxy g) (x_puser g) (x_release g).

Definition set_match_sender (s : option (list Z)) (n : Z) (g : MatchReg) : MatchReg :=
  let f := x_m g in
  mkMatchReg (mkCMatch (cm_type f) s n (destination f) (destinationSize f) (interface f) (interfaceSize f)
                (path f) (pathSize f) (member f) (memberSize f) (arguments f))
    (x_addMatchToBusDaemon g) (x_replySerial g) (x_error g) (x_errorSize g) (x_callback g) (x_cuser g) (x_proxy g) (x_puser g) (x_release g).

(** The call of AddMatch or RemoveMatch that the bus proxy sends. *)
Definition bus_rule (method : list Z) (g : MatchReg) : M Client unit :=
  if x_addMatchToBusDaemon g then
    let* c := get in
    let* p := adbus_call_method (bus c) method (-1) in
    let* p := arg_ (adbus_buf_setsig (str "s") 1) p in
    let s := adbusI_matchString [] (x_m g) in
    let* p := arg_ (adbus_buf_string s (len s)) p in
    let* p := call_send_ p call_zero in
    modify (set_bus p)
  else ret tt.

Definition addmatch_ (reg : MatchReg) : M Client matid :=
  run* assert_ (bool_decide (x_callback reg <> None)) in
  let* m := alloc in
  let g := CloneMatch reg in
  let* service := lookup (sender (x_m reg)) (senderSize (x_m reg)) in
  let g := match service with
           | Some _ => g
           | None => let '(s, n) := CloneString (sender (x_m reg)) (senderSize (x_m reg)) in set_match_sender s n g
           end in
  run* bus_rule (str "AddMatch") g in
  run* put_match m (mkConnMatch g service) in
  run* modify (fun c => set_matches (m :: matches c) c) in
  ret m.

Definition set_match_release (h : Release) (g : MatchReg) : MatchReg :=
  mkMatchReg (x_m g) (x_addMatchToBusDaemon g) (x_replySerial g) (x_error g) (x_errorSize g) (x_callback g) (x_cuser g) (x_proxy g) (x_puser g) h.

Definition DoAddMatch (d : datid) (g : MatchReg) : M Client bool :=
  let* x := data_at d in
  run* put_data d (mkData (d_conn x) NoTarget (x_release g)) in
  let* m := addmatch_ (set_match_release (data_hooks (x_release g) d) g) in
  run* put_data d (mkData (d_conn x) (ToMatch m) (x_release g)) in
  let* k := conn_at (d_conn x) in
  run* put_conn (d_conn x) (mkStateConn (d :: st_matches k) (st_replies k) (st_relproxy k) (st_relpuser k)) in
  ret false.

Definition state_addmatch_ (s : stid) (g : MatchReg) : M Client unit :=
  run* assert_ (bool_decide (x_proxy g = None) && bool_decide (relproxy (x_release g) = None)) in
  let* d := alloc in
  let* k := LookupConnection s in
  run* put_data d (mkData k NoTarget release_zero) in
  let* failed := DoAddMatch d g in
  if failed : bool then FreeData d else ret tt.

(** [adbus_proxy_signal] *)
Definition proxy_signal_ (p : Proxy) (g : MatchReg) (signal : list Z) (size : Z) : M Client unit :=
  let f := x_m g in
  let '(ifc, ifcn) := if 0 <? len (p_interface p) then (Some (p_interface p), len (p_interface p)) else (interface f, interfaceSize f) in
  state_addmatch_ (p_state p)
    (mkMatchReg (mkCMatch MSG_SIGNAL (Some (p_service p)) (len (p_service p)) (destination f) (destinationSize f) ifc ifcn
                   (Some (p_path p)) (len (p_path p)) (Some signal) size (arguments f))
       true (x_replySerial g) (x_error g) (x_errorSize g) (x_callback g) (x_cuser g) (x_proxy g) (x_puser g) (x_release g)).
End Register.

(** *** Looking up a service

    The bus itself is not looked up, so the calls inside need one level. *)
Context (get_proxy : option (nat * pointer)).
Definition BUS : list Z := str "org.freedesktop.DBus".
Definition match_init : MatchReg := mkMatchReg adbus_match_init false (-1) None (-1) None Null None Null release_zero.

(** The match of the lookup of service [s]. *)
Definition owner_changed_match (s : svcid) (name : list Z) : MatchReg :=
  let f := adbus_match_init in
  mkMatchReg (mkCMatch (cm_type f) (sender f) (senderSize f) (destination f) (destinationSize f) (interface f) (interfaceSize f)
                (path f) (pathSize f) (member f) (memberSize f) [mkArg (Some name) (len name)])
    false (-1) None (-1) (Some NameOwnerChanged) (TheService s) None Null release_zero.

Definition bus_proxy (state : stid) : Proxy := adbus_proxy_init BUS (-1) (str "/org/freedesktop/DBus") (-1) (adbus_proxy_new state).

Fixpoint adbusI_lookupService (fuel : nat) (service : option (list Z)) (size : Z) : M Client (option svcid) :=
  match fuel with
  | O => nofuel
  | S fuel =>
      match service with
      | None => ret None
      | Some service =>
          let name := sized service size in
          if (length name =? 0)%nat || (deref name =? chr ":") then ret None
          else if list_eqb name BUS then ret None
          else
            let* c := get in
            match services c !! name with
            | Some s => ret (Some s)
            | None =>
                let* s := alloc in
                run* put_service s (mkService name None) in
                run* modify (fun c => set_services (<[name := s]> (services c)) c) in
                let p := bus_proxy (c_state c) in
                run* proxy_signal_ (adbusI_lookupService fuel) get_proxy p (owner_changed_match s name)
                       (str "NameOwnerChanged") (-1) in
                let* p := adbus_call_method p (str "GetNameOwner") (-1) in
                let* p := arg_ (adbus_buf_setsig (str "s") 1) p in
                let* p := arg_ (adbus_buf_string name (len name)) p in
                run* call_send_ (adbusI_lookupService fuel) get_proxy p
                       (mkCallRec (Some GetNameOwner) (TheService s) None Null None Null None Null) in
                ret (Some s)
            end
      end
  end.

Definition lookup_service : option (list Z) -> Z -> M Client (option svcid) := adbusI_lookupService 2.
Definition adbus_conn_addreply : adbus_Reply -> M Client (option repid) := addreply_ lookup_service.
Definition adbus_conn_addmatch : MatchReg -> M Client matid := addmatch_ lookup_service get_proxy.
Definition adbus_state_addreply : stid -> adbus_Reply -> M Client unit := state_addreply_ lookup_service get_proxy.
Definition adbus_state_addmatch : stid -> MatchReg -> M Client unit := state_addmatch_ lookup_service get_proxy.
Definition adbus_proxy_signal : Proxy -> MatchReg -> list Z -> Z -> M Client unit := proxy_signal_ lookup_service get_proxy.
Definition adbus_call_send : Proxy -> adbus_Call -> M Client Proxy := call_send_ lookup_service get_proxy.

(** ** Matches *)
Definition adbusI_freeMatch (m : matid) : M Client unit :=
  let* x := match_at m in
  run* modify (fun c => set_matches (without m (matches c)) c) in
  run* run_releases (x_release (m_reg x)) in
  modify (fun c => set_match_heap (delete m (match_heap c)) c).

Definition adbus_conn_removematch (m : matid) : M Client unit :=
  let* x := match_at m in
  run* bus_rule lookup_service get_proxy (str "RemoveMatch") (m_reg x) in
  adbusI_freeMatch m.

(** *** A message is matched *)
Definition memeq (a b : list Z) (n : Z) : bool := list_eqb (take (Z.to_nat n) a) (take (Z.to_nat n) b).

(** The strings of messages have the size of their characters. *)
Definition Matches (matchstr : option (list Z)) (matchsz : Z) (msgstr : option (list Z)) : bool :=
  match matchstr, msgstr with
  | None, _ => true
  | Some _, None => false
  | Some a, Some b => (matchsz =? len b) && memeq a b matchsz
  end.

Fixpoint args_match (rule msg : list Argument) : bool :=
  match rule, msg with
  | [], _ => true
  | a :: rule, b :: msg =>
      match arg_value a with
      | None => args_match rule msg
      | Some v =>
          match arg_value b with
          | None => false
          | Some w => (arg_size b =? arg_size a) && memeq w v (arg_size a) && args_match rule msg
          end
      end
  | _ :: _, [] => false
  end.
Definition ArgsMatch (rule : list Argument) (m : Message) : bool :=
  let args := default [] (msg_arguments m) in
  negb (length args <? length rule)%nat && args_match rule args.

Definition match_fields (g : MatchReg) (unique : option (list Z)) (m : Message) : bool :=
  let f := x_m g in
  negb (negb (bool_decide (cm_type f = MSG_INVALID)) && negb (bool_decide (msg_type m = cm_type f))) &&
  negb ((0 <=? x_replySerial g) && match replySerial m with Some n => negb (n =? x_replySerial g) | None => true end) &&
  Matches unique (from_option len 0 unique) (msg_sender m) &&
  Matches (sender f) (senderSize f) (msg_sender m) &&
  Matches (destination f) (destinationSize f) (msg_destination m) &&
  Matches (interface f) (interfaceSize f) (msg_interface m) &&
  Matches (path f) (pathSize f) (msg_path m) &&
  Matches (member f) (memberSize f) (msg_member m) &&
  Matches (x_error g) (x_errorSize g) (msg_error m).

(** The result, and the message with its arguments parsed. *)
Fixpoint match_loop (l : list matid) (m : Message) : M Client (Z * Message) :=
  match l with
  | [] => ret (0, m)
  | i :: l =>
      let* x := match_at i in
      let g := m_reg x in
      let* unique := (match m_service x with
                      | Some s => let* sv := service_at s in ret (s_unique sv)
                      | None => ret None
                      end) in
      if negb (match_fields g unique m) then match_loop l m
      else
        let call m :=
          let* r := dispatch_by (x_proxy g) (x_puser g) (x_callback g) (x_cuser g) m in ret (r, m) in
        match arguments (x_m g) with
        | [] => call m
        | rule =>
            match adbus_parseargs m with
            | Ret _ m => if ArgsMatch rule m then call m else match_loop l m
            | Err m => ret (-1, m)
            | Abort => fun _ => Abort
            | Oob => oob
            | Nofuel => nofuel
            end
        end
  end.
Definition adbusI_dispatchMatch (m : Message) : M Client (Z * Message) :=
  let* c := get in match_loop (matches c) m.

(** ** States: removing everything

    Each loop is a DIL_FOREACH whose body removes the current element; it
    visits the elements of the start (see DList). *)
Fixpoint reset_matches (l : list datid) : M Client unit :=
  match l with
  | [] => ret tt
  | d :: l =>
      let* x := data_at d in
      run* (match d_data x with ToMatch m => adbus_conn_removematch m | _ => oob end) in
      reset_matches l
  end.
Fixpoint reset_replies (l : list datid) : M Client unit :=
  match l with
  | [] => ret tt
  | d :: l =>
      let* x := data_at d in
      run* (match d_data x with ToReply r => adbus_conn_removereply r | _ => oob end) in
      reset_replies l
  end.

(** The last reference to the connection is not dropped here. *)
Definition ResetConn (k : scid) : M Client unit :=
  let* x := conn_at k in
  run* reset_matches (st_matches x) in
  let* x := conn_at k in
  run* assert_ (bool_decide (st_matches x = [])) in
  run* reset_replies (st_replies x) in
  let* x := conn_at k in
  run* assert_ (bool_decide (st_replies x = [])) in
  run* modify (fun c => set_c_ref (c_ref c - 1) c) in
  modify (fun c => set_conn_heap (delete k (conn_heap c)) c).

Definition adbus_state_new : M Client stid :=
  let* s := alloc in
  run* modify (fun c => set_states (<[s := None]> (states c)) c) in
  ret s.
Definition adbus_state_reset (s : stid) : M Client unit :=
  let* c := get in
  let* st := of_option (states c !! s) in
  match st with
  | None => ret tt
  | Some k =>
      run* modify (fun c => set_states (<[s := None]> (states c)) c) in
      ResetConn k
  end.
Definition adbus_state_free (s : stid) : M Client unit :=
  run* adbus_state_reset s in
  modify (fun c => set_states (delete s (states c)) c).

(** ** The connection *)
(** The callbacks that the library gives to its own interfaces. *)
Definition INTROSPECT : Objects.callback := 0%nat.
Definition GET_PROPERTY : Objects.callback := 1%nat.
Definition GET_ALL_PROPERTIES : Objects.callback := 2%nat.
Definition SET_PROPERTY : Objects.callback := 3%nat.

(** A method of a built-in interface. *)
Definition builtin_method (i : Objects.iid) (name : list Z) (f : Objects.callback) (rest : Objects.Member -> M Objects.Conn Objects.Member) : M Objects.Conn unit :=
  let* n := Objects.adbus_iface_addmethod i name (-1) in
  Objects.member_do i n (fun m => let* m := Objects.adbus_mbr_setmethod (Some f) Objects.Null m in rest m).

Definition builtin_methods : M Objects.Conn unit :=
  run* builtin_method 0%nat (str "Introspect") INTROSPECT (Objects.adbus_mbr_retsig (str "s") (-1)) in
  run* builtin_method 1%nat (str "Get") GET_PROPERTY (fun m =>
    let* m := Objects.adbus_mbr_argsig (str "ss") (-1) m in
    let* m := Objects.adbus_mbr_argname (str "interface_name") (-1) m in
    let* m := Objects.adbus_mbr_argname (str "property_name") (-1) m in
    Objects.adbus_mbr_retsig (str "v") (-1) m) in
  run* builtin_method 1%nat (str "GetAll") GET_ALL_PROPERTIES (fun m =>
    let* m := Objects.adbus_mbr_argsig (str "s") (-1) m in
    let* m := Objects.adbus_mbr_argname (str "interface_name") (-1) m in
    Objects.adbus_mbr_retsig (str "a{sv}") (-1) m) in
  builtin_method 1%nat (str "Set") SET_PROPERTY (fun m =>
    let* m := Objects.adbus_mbr_argsig (str "ssv") (-1) m in
    let* m := Objects.adbus_mbr_argname (str "interface_name") (-1) m in
    let* m := Objects.adbus_mbr_argname (str "property_name") (-1) m in
    Objects.adbus_mbr_argname (str "value") (-1) m).

(** The interfaces of a new connection. *)
Definition builtin_ifaces : gmap Objects.iid Objects.Interface :=
  <[0%nat := Objects.adbus_iface_new (str "org.freedesktop.DBus.Introspectable") (-1)]>
  (<[1%nat := Objects.adbus_iface_new (str "org.freedesktop.DBus.Properties") (-1)]> ∅).
Definition conn_objects : Objects.Conn :=
  match builtin_methods (Objects.conn_start builtin_ifaces 0%nat 1%nat) with Ret _ c => c | _ => Objects.conn_start builtin_ifaces 0%nat 1%nat end.

Definition adbus_conn_new : Client :=
  let st := 0%nat in
  let bus := adbus_proxy_setinterface BUS (-1) (bus_proxy st) in
  mkClient 1 ∅ ∅ ∅ [] None ∅ [] ∅ ∅ {[ st := None ]} ∅ ∅ st 1 false None None Null bus conn_objects adbus_msg_new 1 [].

Definition adbus_conn_connect (callback : option nat) (user : pointer) : M Client unit :=
  let* c := get in
  run* assert_ (negb (connected c) && bool_decide (connectCallback c = None)) in
  run* modify (set_connection (connected c) (uniqueService c) callback user) in
  let* c := get in
  let* p := adbus_call_method (bus c) (str "Hello") (-1) in
  let* p := adbus_call_send p (mkCallRec (Some ConnectCallback) Null None Null None Null None Null) in
  modify (set_bus p).
Definition adbus_conn_isconnected (c : Client) : bool := connected c.
Definition adbus_conn_uniquename (c : Client) : option (list Z) := if connected c then uniqueService c else None.
End Client.
