(* ===== verification/Pending.v ===== *)
(** The replies a client waits for (adbus/reply.c, adbus/client-service.c): the
    tables of remotes and replies are a map from a sender and a serial to a
    registered reply, and every operation does to the map what it promises. *)

From Stdlib Require Import ZArith Lia.
From stdpp Require Import base option list numbers strings gmap.
From S2P Require Import Prelude Names Signature Iterator Values Buffer MatchRule Message Factory Server Bus Client.
#[local] Open Scope Z_scope.
#[local] Open Scope adbus_scope.

(** ** The map *)
Definition pending (c : Client) (name : list Z) (serial : Z) : option repid :=
  m ← remotes c !! name; x ← remote_heap c !! m; r_replies x !! serial.

(** The tables agree: a remote is in the table of remotes under its name and
    has replies, a reply that points to a remote is in the table of that
    remote under its serial, and the list of replies has those that are live. *)
Record replies_ok (c : Client) : Prop := {
  ok_remotes : forall n m, remotes c !! n = Some m -> exists x, remote_heap c !! m = Some x /\ r_name x = n;
  ok_remote : forall m x, remote_heap c !! m = Some x -> r_connected x = true /\ remotes c !! r_name x = Some m /\ r_replies x <> ∅;
  ok_pending : forall m x k r, remote_heap c !! m = Some x -> r_replies x !! k = Some r ->
    exists y, reply_heap c !! r = Some y /\ r_remote y = Some m /\ r_serial y = k;
  ok_reply : forall r y m, reply_heap c !! r = Some y -> r_remote y = Some m ->
    exists x, remote_heap c !! m = Some x /\ r_replies x !! r_serial y = Some r;
  ok_list : forall r, r ∈ replies c <-> is_Some (reply_heap c !! r);
  ok_iter : forall r, reply_iter c = Some r -> is_Some (reply_heap c !! r);
  ok_fresh_m : forall m x, remote_heap c !! m = Some x -> (m < next_id c)%nat;
  ok_fresh_r : forall r y, reply_heap c !! r = Some y -> (r < next_id c)%nat }.

(** A release of the library is one of the [struct Data] made for [t]. *)
Definition hooked (D : gmap datid Data) (t : target) (h : Release) : Prop :=
  release1 h <> Some ReleaseDataCallback /\
  (release0 h = Some ReleaseDataCallback -> relproxy h = None -> exists d x, ruser0 h = TheData d /\ D !! d = Some x /\ d_data x = t).

Record data_ok (c : Client) : Prop := {
  dk_conn : forall d x, data_heap c !! d = Some x -> is_Some (conn_heap c !! d_conn x);
  dk_reply : forall r y, reply_heap c !! r = Some y -> hooked (data_heap c) (ToReply r) (y_release (r_hooks y));
  dk_match : forall m x, match_heap c !! m = Some x -> hooked (data_heap c) (ToMatch m) (x_release (m_reg x)) }.

(** The parts of the state that the replies live in. *)
Definition same_replies (c c' : Client) : Prop :=
  remotes c' = remotes c /\ remote_heap c' = remote_heap c /\ reply_heap c' = reply_heap c /\ replies c' = replies c /\
  reply_iter c' = reply_iter c /\ next_id c' = next_id c.
(** The others, without the data of states. *)
Definition same_rest (c c' : Client) : Prop :=
  match_heap c' = match_heap c /\ matches c' = matches c /\ services c' = services c /\ service_heap c' = service_heap c /\
  states c' = states c /\ c_ref c' = c_ref c /\ nextSerial c' = nextSerial c /\ connected c' = connected c /\
  uniqueService c' = uniqueService c /\ bus c' = bus c /\ c_state c' = c_state c.

Lemma same_replies_ok (c c' : Client) : same_replies c c' -> replies_ok c -> replies_ok c'.
Proof. intros (E1 & E2 & E3 & E4 & E5 & E6) [H1 H2 H3 H4 H5 H6 H7 H8]. by split; rewrite ?E1, ?E2, ?E3, ?E4, ?E5, ?E6. Qed.

Lemma same_pending (c c' : Client) : same_replies c c' -> forall n k, pending c' n k = pending c n k.
Proof. intros (E1 & E2 & _) n k. unfold pending. by rewrite E1, E2. Qed.

(** ** Reading *)
Lemma of_option_run {A} (o : option A) (a : A) (c : Client) : o = Some a -> (of_option o : M Client A) c = Ret a c.
Proof. by intros ->. Qed.
Lemma remote_run (c : Client) (m : remid) (x : Remote) : remote_heap c !! m = Some x -> remote_at m c = Ret x c.
Proof. intros E. unfold remote_at, bind, get. by rewrite E. Qed.
Lemma reply_run (c : Client) (r : repid) (y : ConnReply) : reply_heap c !! r = Some y -> reply_at r c = Ret y c.
Proof. intros E. unfold reply_at, bind, get. by rewrite E. Qed.
Lemma data_run (c : Client) (d : datid) (x : Data) : data_heap c !! d = Some x -> data_at d c = Ret x c.
Proof. intros E. unfold data_at, bind, get. by rewrite E. Qed.
Lemma conn_run (c : Client) (k : scid) (x : StateConn) : conn_heap c !! k = Some x -> conn_at k c = Ret x c.
Proof. intros E. unfold conn_at, bind, get. by rewrite E. Qed.

Lemma service_run (c : Client) (s : svcid) (x : ServiceLookup) : service_heap c !! s = Some x -> service_at s c = Ret x c.
Proof. intros E. unfold service_at, bind, get. by rewrite E. Qed.

(** ** Releasing *)

(** The call of one callback of a registration, and of the data of a state: it is
    made in place, or handed to the proxy for releases. *)
Definition hook_event (h : Release) (f : option Callback) (u : pointer) : list event :=
  match f with
  | None => []
  | Some f => [match relproxy h with Some p => ReleasedBy p (relpuser h) f u | None => Released f u end]
  end.
Definition data_event (k : StateConn) (f : option Callback) (u : pointer) : list event :=
  match f with
  | None => []
  | Some f => [match st_relproxy k with Some p => ReleasedBy p (st_relpuser k) f u | None => Released f u end]
  end.

(** Data that a state keeps for a registration: the callbacks of the user. *)
Definition data_events (c : Client) (d : datid) : list event :=
  match data_heap c !! d with
  | Some x =>
      match conn_heap c !! d_conn x with
      | Some k => data_event k (release0 (d_release x)) (ruser0 (d_release x)) ++ data_event k (release1 (d_release x)) (ruser1 (d_release x))
      | None => []
      end
  | None => []
  end.

(** All that is called when a registration with these callbacks is removed: each
    callback once, in their order. *)
Definition release_log (c : Client) (h : Release) : list event :=
  match release0 h, relproxy h, ruser0 h with
  | Some ReleaseDataCallback, None, TheData d => data_events c d
  | f, _, u => hook_event h f u
  end ++ hook_event h (release1 h) (ruser1 h).

(** What a release leaves: the log grows, the data of the target may go. *)
Definition released (t : target) (l : list event) (c c' : Client) : Prop :=
  same_replies c c' /\ same_rest c c' /\ (forall k, is_Some (conn_heap c !! k) -> is_Some (conn_heap c' !! k)) /\
  (data_heap c' = data_heap c \/ exists d x, data_heap c !! d = Some x /\ d_data x = t /\ data_heap c' = delete d (data_heap c)) /\
  log c' = log c ++ l.

Lemma data_release_run (k : StateConn) (f : option Callback) (u : pointer) (c : Client) :
  data_release k f u c = Ret tt (set_log (log c ++ data_event k f u) c).
Proof. destruct f as [f|]; [done|]. cbn. rewrite app_nil_r. by destruct c. Qed.

Lemma FreeData_ok (c : Client) (d : datid) (x : Data) : data_ok c -> data_heap c !! d = Some x ->
  exists c', FreeData d c = Ret tt c' /\ released (d_data x) (data_events c d) c c'.
Proof.
  intros D Hd. destruct (dk_conn c D d x Hd) as [k Hk]. unfold FreeData, data_events. rewrite Hd, Hk.
  rewrite (bind_Ret _ _ _ _ _ (data_run c d x Hd)), (bind_Ret _ _ _ _ _ (conn_run c _ k Hk)).
  match goal with |- context [put_conn ?i ?kk] => rewrite (bind_Ret (put_conn i kk) _ c _ tt eq_refl) end.
  rewrite (bind_Ret _ _ _ _ _ (data_release_run k _ _ _)), (bind_Ret _ _ _ _ _ (data_release_run k _ _ _)).
  eexists. split; [reflexivity|]. split; [done|]. split; [done|]. split; [|split].
  - intros k' Hk'. cbn. destruct (decide (d_conn x = k')) as [<-|]; [rewrite lookup_insert_eq; by eexists|by rewrite lookup_insert_ne].
  - right. by exists d, x.
  - cbn. by rewrite <- app_assoc.
Qed.

Lemma released_refl (t : target) (c : Client) : released t [] c c.
Proof. repeat split; try done; [by left|by rewrite app_nil_r]. Qed.

Lemma emit_released (t : target) (c : Client) (e : event) : released t [e] c (set_log (log c ++ [e]) c).
Proof. repeat split; try done. by left. Qed.

Lemma run_releases_ok (c : Client) (t : target) (h : Release) : data_ok c -> hooked (data_heap c) t h ->
  exists c', run_releases h c = Ret tt c' /\ released t (release_log c h) c c'.
Proof.
  intros D [H1 H0]. unfold run_releases, release_log.
  assert (E : exists c1, run_release h (release0 h) (ruser0 h) c = Ret tt c1 /\
    released t (match release0 h, relproxy h, ruser0 h with Some ReleaseDataCallback, None, TheData d => data_events c d | f, _, u => hook_event h f u end) c c1).
  { unfold run_release, hook_event. destruct (release0 h) as [f|]; [|exists c; split; [done|apply released_refl]].
    destruct (relproxy h) as [p|]; [eexists; split; [reflexivity|destruct f; apply emit_released]|].
    destruct f as [|f]; [|eexists; split; [reflexivity|apply emit_released]].
    destruct (H0 eq_refl eq_refl) as (d & x & -> & Hd & <-). by apply FreeData_ok. }
  destruct E as (c1 & E & R). rewrite (bind_Ret _ _ _ _ _ E). clear E. set (l := match release0 h with Some _ => _ | None => _ end) in *.
  assert (E : run_release h (release1 h) (ruser1 h) c1 = Ret tt (set_log (log c1 ++ hook_event h (release1 h) (ruser1 h)) c1)).
  { unfold run_release, hook_event. destruct (release1 h) as [f|]; [|rewrite app_nil_r; by destruct c1].
    destruct (relproxy h) as [p|]; [done|]. by destruct f as [|f]. }
  eexists. split; [exact E|]. destruct R as (R1 & R2 & R3 & R4 & R5). split; [exact R1|]. split; [exact R2|].
  split; [exact R3|]. split; [exact R4|]. cbn. by rewrite R5, app_assoc.
Qed.

(** ** Taking an entry out *)

(** The tables without the entry [k] of remote [m]. *)
Definition forget (m : remid) (x : Remote) (k : Z) (c : Client) : Client :=
  let t := delete k (r_replies x) in
  if (base.size t =? 0)%nat then set_remote_heap (delete m (remote_heap c)) (set_remotes (delete (r_name x) (remotes c)) c)
  else set_remote_heap (<[m := set_r_replies t x]> (remote_heap c)) c.

Lemma freeRemote_empty (c : Client) (m : remid) (x : Remote) : remote_heap c !! m = Some x -> r_replies x = ∅ ->
  adbusI_freeRemote m c = Ret tt (set_remote_heap (delete m (remote_heap c)) (if r_connected x then set_remotes (delete (r_name x) (remotes c)) c else c)).
Proof.
  intros Hm Hx. unfold adbusI_freeRemote. rewrite (bind_Ret _ _ _ _ _ (remote_run c m x Hm)), Hx, map_to_list_empty. by destruct (r_connected x).
Qed.

Lemma size_zero {A} (t : gmap Z A) : (base.size t =? 0)%nat = true <-> t = ∅.
Proof. rewrite Nat.eqb_eq. apply map_size_empty_iff. Qed.

(** As [adbusI_freeReply] takes it out. *)
Lemma forget_run (c : Client) (m : remid) (x : Remote) (k : Z) : remote_heap c !! m = Some x -> r_connected x = true ->
  (let t := delete k (r_replies x) in
   run* put_remote m (set_r_replies t x) in if (base.size t =? 0)%nat then adbusI_freeRemote m else ret tt) c = Ret tt (forget m x k c).
Proof.
  intros Hm Hx. cbv zeta. rewrite (bind_Ret (put_remote m _) _ c _ tt eq_refl). unfold forget. destruct (_ =? 0)%nat eqn:E; [|done].
  apply size_zero in E. rewrite (freeRemote_empty _ m (set_r_replies (delete k (r_replies x)) x)) by (cbn; rewrite ?lookup_insert_eq; done).
  cbn [set_r_replies r_connected r_name]. rewrite Hx. by destruct c; cbn; rewrite delete_insert_eq.
Qed.

(** As [adbusI_dispatchReply] does. *)
Lemma forget_dispatch_run (c : Client) (m : remid) (x : Remote) (k : Z) : remote_heap c !! m = Some x ->
  (let t := delete k (r_replies x) in
   run* put_remote m (set_r_replies t x) in
   if (base.size t =? 0)%nat then
     run* put_remote m (set_r_connected false (set_r_replies t x)) in
     run* modify (fun c => set_remotes (delete (r_name x) (remotes c)) c) in
     adbusI_freeRemote m
   else ret tt) c = Ret tt (forget m x k c).
Proof.
  intros Hm. cbv zeta. rewrite (bind_Ret (put_remote m _) _ c _ tt eq_refl). unfold forget. destruct (_ =? 0)%nat eqn:E; [|done].
  apply size_zero in E. set (c1 := set_remote_heap _ c). rewrite (bind_Ret (put_remote m _) _ c1 _ tt eq_refl). set (c2 := set_remote_heap _ c1).
  rewrite (bind_Ret (modify _) _ c2 _ tt eq_refl). rewrite (freeRemote_empty _ m (set_r_connected false (set_r_replies (delete k (r_replies x)) x))).
  - cbn. by destruct c; cbn; rewrite insert_insert_eq, delete_insert_eq.
  - cbn. by rewrite lookup_insert_eq.
  - done.
Qed.

Lemma pending_some (c : Client) (n : list Z) (k : Z) (r : repid) : pending c n k = Some r <->
  exists m x, remotes c !! n = Some m /\ remote_heap c !! m = Some x /\ r_replies x !! k = Some r.
Proof.
  unfold pending. split.
  - destruct (remotes c !! n) as [m|]; [|done]. cbn. destruct (remote_heap c !! m) as [x|] eqn:Hx; [|done]. cbn. intros Hr. by exists m, x.
  - intros (m & x & Hm & Hx & Hr). by rewrite Hm; cbn; rewrite Hx.
Qed.

Lemma forget_heap (m : remid) (x : Remote) (k : Z) (c : Client) : remote_heap (forget m x k c) =
  if decide (delete k (r_replies x) = ∅) then delete m (remote_heap c) else <[m := set_r_replies (delete k (r_replies x)) x]> (remote_heap c).
Proof. unfold forget. case_decide as E; [by rewrite (proj2 (size_zero _) E)|]. by destruct (_ =? 0)%nat eqn:E1; [apply size_zero in E1|]. Qed.

Lemma forget_table (m : remid) (x : Remote) (k : Z) (c : Client) : remotes (forget m x k c) =
  if decide (delete k (r_replies x) = ∅) then delete (r_name x) (remotes c) else remotes c.
Proof. unfold forget. case_decide as E; [by rewrite (proj2 (size_zero _) E)|]. by destruct (_ =? 0)%nat eqn:E1; [apply size_zero in E1|]. Qed.

Lemma forget_rest (m : remid) (x : Remote) (k : Z) (c : Client) : reply_heap (forget m x k c) = reply_heap c /\ replies (forget m x k c) = replies c /\
  reply_iter (forget m x k c) = reply_iter c /\ next_id (forget m x k c) = next_id c /\ same_rest c (forget m x k c) /\
  data_heap (forget m x k c) = data_heap c /\ conn_heap (forget m x k c) = conn_heap c /\ log (forget m x k c) = log c.
Proof. unfold forget. by destruct (_ =? 0)%nat. Qed.

(** What a remote of the tables looks like afterwards. *)
Lemma forget_lookup (m : remid) (x : Remote) (k : Z) (c : Client) (i : remid) (x' : Remote) : remote_heap c !! m = Some x ->
  remote_heap (forget m x k c) !! i = Some x' -> exists x0, remote_heap c !! i = Some x0 /\ r_name x' = r_name x0 /\
    r_connected x' = r_connected x0 /\ r_replies x' = if decide (i = m) then delete k (r_replies x0) else r_replies x0.
Proof.
  intros Hm. rewrite forget_heap. case_decide as E.
  - intros [Hne Hi]%lookup_delete_Some. exists x'. by rewrite decide_False by congruence.
  - destruct (decide (i = m)) as [->|Hne]; [rewrite lookup_insert_eq; intros [= <-]; by exists x|].
    rewrite lookup_insert_ne by done. intros Hi. by exists x'.
Qed.

Lemma forget_lookup_r (m : remid) (x : Remote) (k k' : Z) (c : Client) (i : remid) (x0 : Remote) (r : repid) : remote_heap c !! m = Some x ->
  remote_heap c !! i = Some x0 -> r_replies x0 !! k' = Some r -> (i, k') <> (m, k) ->
  exists x', remote_heap (forget m x k c) !! i = Some x' /\ r_name x' = r_name x0 /\ r_replies x' !! k' = Some r.
Proof.
  intros Hm Hi Hr Hne. rewrite forget_heap. destruct (decide (i = m)) as [->|Him].
  - assert (x0 = x) as -> by congruence. assert (k <> k') by congruence. rewrite decide_False; [eexists; rewrite lookup_insert_eq; split_and!; try done; cbn; by rewrite lookup_delete_ne|].
    intros E. apply (f_equal (lookup k')) in E. rewrite lookup_delete_ne, Hr, lookup_empty in E by done. done.
  - exists x0. case_decide; [by rewrite lookup_delete_ne|by rewrite lookup_insert_ne].
Qed.

Section Forget.
Context (c : Client) (Ok : replies_ok c) (m : remid) (x : Remote) (Hm : remote_heap c !! m = Some x).

(** Names and remotes are one to one. *)
Lemma same_remote (i : remid) (x' : Remote) : remote_heap c !! i = Some x' -> r_name x' = r_name x -> i = m.
Proof. intros Hi E. destruct (ok_remote c Ok i x' Hi) as (_ & E1 & _). destruct (ok_remote c Ok m x Hm) as (_ & E2 & _). congruence. Qed.

Lemma pending_forget (k k' : Z) (n : list Z) :
  pending (forget m x k c) n k' = if decide ((n, k') = (r_name x, k)) then None else pending c n k'.
Proof.
  destruct (ok_remote c Ok m x Hm) as (_ & Hn & _). apply option_eq. intros r. case_decide as E.
  - injection E as -> ->. split; [|done]. rewrite pending_some. intros (i & x' & Hi & Hx' & Hr). rewrite forget_table in Hi. case_decide as E1.
    + by rewrite lookup_delete_eq in Hi.
    + assert (i = m) as -> by congruence. destruct (forget_lookup m x k c m x' Hm Hx') as (x0 & _ & _ & _ & E2).
      rewrite E2, decide_True, lookup_delete_eq in Hr by done. done.
  - rewrite !pending_some. split.
    + intros (i & x' & Hi & Hx' & Hr). assert (Hi' : remotes c !! n = Some i).
      { rewrite forget_table in Hi. case_decide; [by apply lookup_delete_Some in Hi as [_ Hi]|done]. }
      destruct (forget_lookup m x k c i x' Hm Hx') as (x0 & Hx0 & En & _ & Er).
      exists i, x0. split; [done|split; [done|]].
      * rewrite Er in Hr. case_decide; [by apply lookup_delete_Some in Hr as [_ Hr]|done].
    + intros (i & x0 & Hi & Hx0 & Hr). destruct (ok_remotes c Ok n i Hi) as (x1 & Hx1 & En). assert (x1 = x0) as -> by congruence.
      assert (Hne : (i, k') <> (m, k)). { intros [= -> ->]. apply E. assert (x0 = x) as -> by congruence. by rewrite En. }
      destruct (forget_lookup_r m x k k' c i x0 r Hm Hx0 Hr Hne) as (x' & Hx' & En' & Hr'). exists i, x'. split; [|done].
      rewrite forget_table. case_decide as E1; [|done]. rewrite lookup_delete_ne; [done|]. intros <-.
      assert (i = m) as -> by congruence. assert (x0 = x) as -> by congruence. assert (k <> k') by congruence.
      apply (f_equal (lookup k')) in E1. rewrite lookup_delete_ne, Hr, lookup_empty in E1 by done. done.
Qed.

Lemma pending_reply (r : repid) (y : ConnReply) : reply_heap c !! r = Some y -> r_remote y = Some m -> pending c (r_name x) (r_serial y) = Some r.
Proof.
  intros Hy Hr. destruct (ok_reply c Ok r y m Hy Hr) as (x' & Hx' & Hk). assert (x' = x) as -> by congruence.
  destruct (ok_remote c Ok m x Hm) as (_ & Hn & _). apply pending_some. by exists m, x.
Qed.

(** The reply no longer waits. *)
Definition detached (r : repid) (y : ConnReply) : Client :=
  let c' := forget m x (r_serial y) c in set_reply_heap (<[r := set_r_remote None y]> (reply_heap c')) c'.

Lemma unpended_ok (r : repid) (y : ConnReply) : reply_heap c !! r = Some y -> r_remote y = Some m -> replies_ok (detached r y).
Proof.
  intros Hy Hr. set (k := r_serial y). destruct (forget_rest m x k c) as (F1 & F2 & F3 & F4 & _).
  destruct (ok_remote c Ok m x Hm) as (_ & Hn & _).
  assert (E1 : remotes (detached r y) = remotes (forget m x k c)) by done.
  assert (E2 : remote_heap (detached r y) = remote_heap (forget m x k c)) by done.
  assert (E3 : reply_heap (detached r y) = <[r := set_r_remote None y]> (reply_heap c)) by (unfold detached; cbn [reply_heap set_reply_heap]; fold k; by rewrite F1).
  assert (E5 : replies (detached r y) = replies c) by exact F2. assert (E6 : reply_iter (detached r y) = reply_iter c) by exact F3.
  assert (E7 : next_id (detached r y) = next_id c) by exact F4.
  assert (E4 : forall i, is_Some (<[r := set_r_remote None y]> (reply_heap c) !! i) <-> is_Some (reply_heap c !! i)).
  { intros i. rewrite lookup_insert_is_Some'. split; [intros [<-|?]; [by eexists|done]|by right]. }
  split; rewrite ?E1, ?E2, ?E3, ?E5, ?E6, ?E7; clear E1 E2 E3 E5 E6 E7.
  - intros n i Hi. rewrite forget_table in Hi. rewrite forget_heap. case_decide as E.
    + apply lookup_delete_Some in Hi as [Hne Hi]. destruct (ok_remotes c Ok n i Hi) as (x' & Hx' & En). exists x'.
      rewrite lookup_delete_ne by (intros <-; apply Hne; congruence). done.
    + destruct (ok_remotes c Ok n i Hi) as (x' & Hx' & En). destruct (decide (i = m)) as [->|Hne].
      * eexists. rewrite lookup_insert_eq. split; [done|]. cbn. congruence.
      * exists x'. by rewrite lookup_insert_ne.
  - intros i x' Hi. destruct (forget_lookup m x k c i x' Hm Hi) as (x0 & Hx0 & En & Ec & Er). destruct (ok_remote c Ok i x0 Hx0) as (K1 & K2 & K3).
    rewrite forget_heap in Hi. rewrite forget_table. destruct (decide (delete k (r_replies x) = ∅)) as [E|E].
    + apply lookup_delete_Some in Hi as [Hne Hi]. rewrite Ec, En, Er, decide_False by done. split_and!; try done.
      rewrite lookup_delete_ne; [done|]. intros E'. apply Hne. symmetry. by apply (same_remote i x0).
    + rewrite Ec, En, Er. split_and!; try done. case_decide as Ei; [|done]. subst i. by assert (x0 = x) as -> by congruence.
  - intros i x' k' r' Hi Hr'. destruct (forget_lookup m x k c i x' Hm Hi) as (x0 & Hx0 & En & Ec & Er). rewrite Er in Hr'.
    assert (Hr0 : r_replies x0 !! k' = Some r' /\ (i, k') <> (m, k)).
    { case_decide as Ei; [apply lookup_delete_Some in Hr' as [Hne Hr']; split; [done|congruence]|split; [done|congruence]]. }
    destruct Hr0 as [Hr0 Hne]. destruct (ok_pending c Ok i x0 k' r' Hx0 Hr0) as (y' & Hy' & K1 & K2). exists y'. split; [|done].
    rewrite lookup_insert_ne; [done|]. intros <-. apply Hne. assert (y' = y) as -> by congruence. unfold k. congruence.
  - intros r' y' i Hy' Hi. destruct (decide (r = r')) as [<-|Hne]; [rewrite lookup_insert_eq in Hy'; by injection Hy' as <-|].
    rewrite lookup_insert_ne in Hy' by done. destruct (ok_reply c Ok r' y' i Hy' Hi) as (x0 & Hx0 & Hr0).
    destruct (forget_lookup_r m x k (r_serial y') c i x0 r' Hm Hx0 Hr0) as (x' & Hx' & _ & Hr'); [|by exists x'].
    intros [= -> Ek]. destruct (ok_reply c Ok r y m Hy Hr) as (x1 & Hx1 & Hr1). assert (x1 = x0) as -> by congruence. unfold k in Ek. congruence.
  - intros i. rewrite E4. apply (ok_list c Ok).
  - intros i. rewrite E4. apply (ok_iter c Ok).
  - intros i x' Hi. destruct (forget_lookup m x k c i x' Hm Hi) as (x0 & Hx0 & _). by apply (ok_fresh_m c Ok i x0).
  - intros i y' Hi. assert (Hs : is_Some (reply_heap c !! i)) by (rewrite <- E4; by eexists).
    destruct Hs as [y0 H0]. by apply (ok_fresh_r c Ok i y0).
Qed.
End Forget.

(** ** Freeing a reply *)

Lemma data_ok_same (c c' : Client) : reply_heap c' = reply_heap c -> match_heap c' = match_heap c -> data_heap c' = data_heap c ->
  conn_heap c' = conn_heap c -> data_ok c -> data_ok c'.
Proof. intros E1 E2 E3 E4 [H1 H2 H3]. by split; rewrite ?E1, ?E2, ?E3, ?E4. Qed.

(** What a release took away was not for another registration. *)
Lemma hooked_released (c c' : Client) (t t' : target) (l : list event) (h : Release) : released t l c c' -> t' <> t -> hooked (data_heap c) t' h -> hooked (data_heap c') t' h.
Proof.
  intros (_ & _ & _ & [->|(d & x & Hd & Hx & ->)] & _) Hne [H1 H0]; [done|]. split; [done|]. intros E1 E2.
  destruct (H0 E1 E2) as (d' & x' & E3 & Hd' & E4). exists d', x'. split; [done|]. split; [|done]. rewrite lookup_delete_ne; [done|]. intros <-.
  apply Hne. congruence.
Qed.

Lemma released_conn (c c' : Client) (t : target) (l : list event) : released t l c c' -> data_ok c -> forall d x, data_heap c' !! d = Some x -> is_Some (conn_heap c' !! d_conn x).
Proof.
  intros (_ & _ & Hk & Hd & _) D d x Hx. apply Hk, (dk_conn c D d). destruct Hd as [E|(d' & x' & _ & _ & E)]; rewrite E in Hx; [done|].
  by apply lookup_delete_Some in Hx as [_ Hx].
Qed.

Definition drop_reply (r : repid) (c : Client) : Client :=
  set_reply_heap (delete r (reply_heap c))
    (set_reply_iter (if bool_decide (reply_iter c = Some r) then None else reply_iter c) (set_replies (without r (replies c)) c)).

Lemma elem_of_without (i j : nat) (l : list nat) : j ∈ without i l <-> j ∈ l /\ j <> i.
Proof. unfold without. rewrite !list_elem_of_In, filter_In, negb_true_iff, Nat.eqb_neq. done. Qed.

Lemma dropped_ok (c : Client) (r : repid) (y : ConnReply) : replies_ok c -> reply_heap c !! r = Some y -> r_remote y = None ->
  replies_ok (drop_reply r c) /\ forall n k, pending (drop_reply r c) n k = pending c n k.
Proof.
  intros Ok Hy Hr. assert (Hd : forall i, is_Some (delete r (reply_heap c) !! i) <-> is_Some (reply_heap c !! i) /\ i <> r).
  { intros i. rewrite lookup_delete_is_Some. naive_solver. }
  split; [|done]. split; cbn [drop_reply set_reply_heap set_reply_iter set_replies remotes remote_heap reply_heap replies reply_iter next_id].
  - apply Ok.
  - apply Ok.
  - intros m x k r' Hm Hr'. destruct (ok_pending c Ok m x k r' Hm Hr') as (y' & Hy' & E1 & E2). exists y'. split; [|done].
    rewrite lookup_delete_ne; [done|]. intros <-. congruence.
  - intros r' y' m [_ Hy']%lookup_delete_Some Hm. by apply (ok_reply c Ok).
  - intros i. by rewrite elem_of_without, Hd, (ok_list c Ok).
  - intros i Hi. rewrite Hd. case_bool_decide as E; [done|]. split; [by apply (ok_iter c Ok)|congruence].
  - apply Ok.
  - intros i y' [_ Hy']%lookup_delete_Some. by apply (ok_fresh_r c Ok i y').
Qed.

Lemma pending_back (c : Client) (n : list Z) (k : Z) (r : repid) (y : ConnReply) : replies_ok c -> reply_heap c !! r = Some y -> pending c n k = Some r ->
  exists m x, r_remote y = Some m /\ remote_heap c !! m = Some x /\ n = r_name x /\ k = r_serial y.
Proof.
  intros Ok Hy (m & x & Hn & Hx & Hk)%pending_some. destruct (ok_pending c Ok m x k r Hx Hk) as (y' & Hy' & E1 & E2). assert (y' = y) as -> by congruence.
  destruct (ok_remotes c Ok n m Hn) as (x' & Hx' & E3). exists m, x. split; [done|]. split; [done|]. split; congruence.
Qed.

(** The end of [adbusI_freeReply]. *)
Lemma free_end (c : Client) (r : repid) (h : Release) : data_ok c -> hooked (data_heap c) (ToReply r) h ->
  exists c', (run* run_releases h in run* remove_reply r in modify (fun c => set_reply_heap (delete r (reply_heap c)) c)) c = Ret tt c' /\
    same_replies (drop_reply r c) c' /\ data_ok c' /\ same_rest c c' /\ log c' = log c ++ release_log c h.
Proof.
  intros D H. destruct (run_releases_ok c (ToReply r) h D H) as (c1 & E & R). rewrite (bind_Ret _ _ _ _ _ E).
  pose proof R as ((E1 & E2 & E3 & E4 & E5 & E6) & S & Hk & _ & El). exists (drop_reply r c1). split; [done|].
  split. { unfold same_replies, drop_reply. cbn. by rewrite E1, E2, E3, E4, E5, E6. }
  split; [|split; [exact S|exact El]]. split; cbn.
  - exact (released_conn c c1 _ _ R D).
  - intros r' y' [Hne Hy']%lookup_delete_Some. rewrite E3 in Hy'. apply (hooked_released c c1 (ToReply r) _ _ _ R); [congruence|by apply (dk_reply c D)].
  - intros m x Hx. destruct S as (E7 & _). rewrite E7 in Hx. apply (hooked_released c c1 (ToReply r) _ _ _ R); [congruence|by apply (dk_match c D)].
Qed.

Lemma freeReply_ok (c : Client) (r : repid) (y : ConnReply) : replies_ok c -> data_ok c -> reply_heap c !! r = Some y ->
  exists c', adbusI_freeReply r c = Ret tt c' /\ replies_ok c' /\ data_ok c' /\ same_rest c c' /\ reply_heap c' = delete r (reply_heap c) /\
    (forall n k, pending c' n k = if decide (pending c n k = Some r) then None else pending c n k) /\
    (reply_iter c = None -> reply_iter c' = None) /\ log c' = log c ++ release_log c (y_release (r_hooks y)).
Proof.
  intros Ok D Hy. unfold adbusI_freeReply. rewrite (bind_Ret _ _ _ _ _ (reply_run c r y Hy)). pose proof (dk_reply c D r y Hy) as Hh.
  destruct (r_remote y) as [m|] eqn:Er.
  - destruct (ok_reply c Ok r y m Hy Er) as (x & Hx & Hk). destruct (ok_remote c Ok m x Hx) as (Hc & _).
    rewrite bind_assoc, (bind_Ret _ _ _ _ _ (remote_run c m x Hx)), (bind_Ret _ _ _ _ _ (forget_run c m x (r_serial y) Hx Hc)).
    destruct (forget_rest m x (r_serial y) c) as (F1 & F2 & F3 & F4 & F5 & F6 & F7 & F8). set (c1 := forget m x (r_serial y) c) in *.
    assert (D1 : data_ok c1) by (apply (data_ok_same c); try done; apply F5).
    destruct (free_end c1 r (y_release (r_hooks y)) D1) as (c2 & E & S & D2 & R & El); [by rewrite F6|]. exists c2. split; [exact E|].
    pose proof (unpended_ok c Ok m x Hx r y Hy Er) as Ok1.
    destruct (dropped_ok _ r (set_r_remote None y) Ok1) as [Ok2 P2]; [apply lookup_insert_eq|done|].
    assert (S' : same_replies (drop_reply r (detached c m x r y)) c2).
    { destruct S as (S1 & S2 & S3 & S4 & S5 & S6). unfold same_replies. rewrite S1, S2, S3, S4, S5, S6. split_and!; try done. cbn. by rewrite delete_insert_eq. }
    split; [by apply (same_replies_ok _ _ S')|]. split; [done|]. split.
    { destruct F5 as (G1 & G2 & G3 & G4 & G5 & G6 & G7 & G8 & G9 & G10 & G11). unfold same_rest in *. by rewrite <- G1, <- G2, <- G3, <- G4, <- G5, <- G6, <- G7, <- G8, <- G9, <- G10, <- G11. }
    split. { destruct S as (_ & _ & S3 & _). rewrite S3. cbn. by rewrite F1. }
    split; [|split; [|rewrite El, F8; unfold release_log, data_events; by rewrite F6, F7]]; [|intros Hn; destruct S as (_ & _ & _ & _ & S5 & _); rewrite S5; cbn; by rewrite F3, Hn].
    intros n k. rewrite (same_pending _ _ S'), P2.
    change (pending (detached c m x r y) n k) with (pending c1 n k). unfold c1. rewrite (pending_forget c Ok m x Hx).
    destruct (decide (pending c n k = Some r)) as [E1|E1].
    + destruct (pending_back c n k r y Ok Hy E1) as (m' & x' & K1 & K2 & -> & ->). assert (m' = m) as -> by congruence.
      assert (x' = x) as -> by congruence. by rewrite decide_True.
    + rewrite decide_False; [done|]. intros [= -> ->]. apply E1. by apply (pending_reply c Ok m x Hx).
  - rewrite (bind_Ret (ret tt) _ c c tt eq_refl). destruct (free_end c r _ D Hh) as (c2 & E & S & D2 & R & El). exists c2. split; [exact E|].
    destruct (dropped_ok c r y Ok Hy Er) as [Ok2 P2]. split; [by apply (same_replies_ok _ _ S)|]. split; [done|]. split; [done|].
    split; [apply S|]. split; [|split; [|exact El]]; [|intros Hn; destruct S as (_ & _ & _ & _ & S5 & _); rewrite S5; cbn; by rewrite Hn].
    intros n k. rewrite (same_pending _ _ S), P2. case_decide as E1; [|done].
    by destruct (pending_back c n k r y Ok Hy E1) as (m & x & K1 & _); congruence.
Qed.

(** ** A reply arrives *)
Section Dispatch.
Context {B : Build} (invoke : nat -> pointer -> Message -> M Client Z) (hand_over : nat -> pointer -> M Client Z -> M Client Z).

(** The state in which the callback runs: the reply waits no longer, and the
    iterator of the list of replies tells whether it is still there. *)
Definition during (c : Client) (m : remid) (x : Remote) (r : repid) (y : ConnReply) : Client := set_reply_iter (Some r) (detached c m x r y).

Lemma during_run (c : Client) (m : remid) (x : Remote) (r : repid) (y : ConnReply) (k : Z) :
  r_serial y = k -> forget m x k (set_reply_heap (<[r := set_r_remote None y]> (reply_heap c)) (set_reply_iter (Some r) c)) = during c m x r y.
Proof. intros <-. unfold during, detached, forget. by destruct (_ =? 0)%nat. Qed.

Lemma during_ok (c : Client) (m : remid) (x : Remote) (r : repid) (y : ConnReply) : replies_ok c -> data_ok c -> remote_heap c !! m = Some x ->
  reply_heap c !! r = Some y -> r_remote y = Some m ->
  replies_ok (during c m x r y) /\ data_ok (during c m x r y) /\ same_rest c (during c m x r y) /\ reply_heap (during c m x r y) !! r = Some (set_r_remote None y) /\
  forall n k, pending (during c m x r y) n k = if decide ((n, k) = (r_name x, r_serial y)) then None else pending c n k.
Proof.
  intros Ok D Hx Hy Hr. destruct (unpended_ok c Ok m x Hx r y Hy Hr) as [H1 H2 H3 H4 H5 H6 H7 H8].
  destruct (forget_rest m x (r_serial y) c) as (F1 & F2 & F3 & F4 & F5 & F6 & F7 & F8).
  assert (Hl : reply_heap (during c m x r y) !! r = Some (set_r_remote None y)) by apply lookup_insert_eq.
  split; [split; try done; intros i [= <-]; by eexists|]. split; [|split; [exact F5|split; [exact Hl|]]].
  - assert (E3 : reply_heap (during c m x r y) = <[r := set_r_remote None y]> (reply_heap c)) by (change (<[r := set_r_remote None y]> (reply_heap (forget m x (r_serial y) c)) = <[r := set_r_remote None y]> (reply_heap c)); by rewrite F1).
    assert (E4 : data_heap (during c m x r y) = data_heap c) by exact F6. assert (E5 : conn_heap (during c m x r y) = conn_heap c) by exact F7.
    assert (E6 : match_heap (during c m x r y) = match_heap c) by apply F5. destruct D as [D1 D2 D3]. split; rewrite ?E3, ?E4, ?E5, ?E6; try done.
    intros i z Hz. destruct (decide (r = i)) as [<-|Hne]; [rewrite lookup_insert_eq in Hz; injection Hz as <-; exact (D2 r y Hy)|].
    rewrite lookup_insert_ne in Hz by done. by apply D2.
  - intros n k. change (pending (during c m x r y) n k) with (pending (forget m x (r_serial y) c) n k). by apply pending_forget.
Qed.

(** What [adbusI_dispatchReply] does after the callback. *)
Definition finish (r : repid) (res : Z) : M Client Z :=
  let* c := get in
  run* put (set_reply_iter None c) in
  run* (if bool_decide (reply_iter c = Some r) then adbusI_freeReply r else ret tt) in
  ret res.

Lemma dispatch_run (c : Client) (m : Message) (sender : list Z) (serial : Z) (r : repid) (y : ConnReply) (i : remid) (x : Remote) :
  replies_ok c -> msg_type m = MSG_RETURN \/ msg_type m = MSG_ERROR -> msg_sender m = Some sender -> replySerial m = Some serial ->
  remotes c !! sender = Some i -> remote_heap c !! i = Some x -> r_replies x !! serial = Some r -> reply_heap c !! r = Some y ->
  adbusI_dispatchReply invoke hand_over m c =
    (let* res := dispatch_by invoke hand_over (y_proxy (r_hooks y)) (y_puser (r_hooks y)) (fst (reply_target (msg_type m) (r_hooks y)))
                   (snd (reply_target (msg_type m) (r_hooks y))) m in finish r res) (during c i x r y).
Proof.
  intros Ok Ht Hs Hn Hi Hx Hr Hy. unfold adbusI_dispatchReply.
  replace (negb _) with false by (destruct Ht as [-> | ->]; done). rewrite Hn, Hs. rewrite (bind_Ret get _ _ _ _ eq_refl), Hi.
  rewrite (bind_Ret _ _ _ _ _ (remote_run c i x Hx)), Hr. rewrite (bind_Ret (modify _) _ c _ tt eq_refl). set (c1 := set_reply_iter (Some r) c).
  rewrite (bind_Ret _ _ _ _ _ (reply_run c1 r y Hy)). destruct (ok_pending c Ok i x serial r Hx Hr) as (y' & Hy' & E1 & E2). assert (y' = y) as -> by congruence.
  rewrite (bind_Ret (assert_ _) _ c1 c1 tt) by (by apply assert_true, bool_decide_eq_true_2). rewrite (bind_Ret (put_reply r _) _ c1 _ tt eq_refl).
  set (c2 := set_reply_heap _ c1). destruct (ok_remotes c Ok sender i Hi) as (x' & Hx' & En). assert (x' = x) as -> by congruence.
  pose proof (forget_dispatch_run c2 i x serial Hx) as F. cbv zeta in F. rewrite En in F. rewrite <- bind_assoc. rewrite (bind_Ret _ _ _ _ _ F).
  rewrite (during_run c i x r y serial E2 : forget i x serial c2 = _). by destruct (reply_target _ _).
Qed.

Lemma finish_ok (c : Client) (r : repid) (res : Z) : replies_ok c -> data_ok c ->
  exists c', finish r res c = Ret res c' /\ replies_ok c' /\ data_ok c' /\ same_rest c c' /\ reply_iter c' = None /\
    reply_heap c' = (if decide (reply_iter c = Some r) then delete r (reply_heap c) else reply_heap c) /\
    forall n k, pending c' n k = if decide (reply_iter c = Some r /\ pending c n k = Some r) then None else pending c n k.
Proof.
  intros Ok D. unfold finish. rewrite (bind_Ret get _ _ _ _ eq_refl), (bind_Ret (put _) _ c _ tt eq_refl). set (c1 := set_reply_iter None c).
  assert (Ok1 : replies_ok c1) by (destruct Ok; by split). assert (D1 : data_ok c1) by (by apply (data_ok_same c)).
  destruct (decide (reply_iter c = Some r)) as [E|E].
  - rewrite bool_decide_eq_true_2 by done. destruct (ok_iter c Ok r E) as [y Hy]. destruct (freeReply_ok c1 r y Ok1 D1 Hy) as (c2 & E2 & Ok2 & D2 & S2 & H2 & P2 & I2 & _).
    rewrite (bind_Ret _ _ _ _ _ E2). exists c2. split; [done|]. split; [done|]. split; [done|]. split; [exact S2|]. split; [by apply I2|split; [exact H2|]].
    intros n k. rewrite P2. change (pending c1 n k) with (pending c n k). case_decide; [by rewrite decide_True|rewrite decide_False; [done|naive_solver]].
  - rewrite bool_decide_eq_false_2 by done. rewrite (bind_Ret (ret tt) _ c1 c1 tt eq_refl). exists c1. split_and!; try done.
    intros n k. rewrite decide_False by naive_solver. done.
Qed.

(** C6: a reply that arrives goes to the callback that was registered for its
    sender and serial, once: while the callback runs the entry is gone and the
    other entries are there; afterwards the reply is freed, unless the callback
    has done so; a reply nobody waits for changes nothing. *)
Theorem reply_dispatched (c : Client) (m : Message) (sender : list Z) (serial : Z) : replies_ok c -> data_ok c ->
  msg_type m = MSG_RETURN \/ msg_type m = MSG_ERROR -> msg_sender m = Some sender -> replySerial m = Some serial ->
  (pending c sender serial = None -> adbusI_dispatchReply invoke hand_over m c = Ret 0 c) /\
  (forall r y, pending c sender serial = Some r -> reply_heap c !! r = Some y -> exists c1,
    replies_ok c1 /\ data_ok c1 /\ same_rest c c1 /\ reply_heap c1 !! r = Some (set_r_remote None y) /\
    (forall n k, pending c1 n k = if decide ((n, k) = (sender, serial)) then None else pending c n k) /\
    (forall res c2, let '(f, u) := reply_target (msg_type m) (r_hooks y) in
       dispatch_by invoke hand_over (y_proxy (r_hooks y)) (y_puser (r_hooks y)) f u m c1 = Ret res c2 -> replies_ok c2 -> data_ok c2 ->
       exists c3, adbusI_dispatchReply invoke hand_over m c = Ret res c3 /\ replies_ok c3 /\ data_ok c3 /\ same_rest c2 c3 /\ reply_iter c3 = None /\
         reply_heap c3 = (if decide (reply_iter c2 = Some r) then delete r (reply_heap c2) else reply_heap c2) /\
         forall n k, pending c3 n k = if decide (reply_iter c2 = Some r /\ pending c2 n k = Some r) then None else pending c2 n k)).
Proof.
  intros Ok D Ht Hs Hn. split.
  - intros Hp. unfold adbusI_dispatchReply. replace (negb _) with false by (destruct Ht as [-> | ->]; done). rewrite Hn, Hs, (bind_Ret get _ _ _ _ eq_refl).
    unfold pending in Hp. destruct (remotes c !! sender) as [i|] eqn:Hi; [|done]. destruct (ok_remotes c Ok sender i Hi) as (x & Hx & _).
    rewrite (bind_Ret _ _ _ _ _ (remote_run c i x Hx)). cbn in Hp. rewrite Hx in Hp. cbn in Hp. by rewrite Hp.
  - intros r y Hp Hy. pose proof (pending_back c sender serial r y Ok Hy Hp) as (i & x & Hr & Hx & -> & ->). apply pending_some in Hp as (i' & x' & Hi & Hx' & Hk).
    destruct (ok_remote c Ok i x Hx) as (_ & Hi2 & _). assert (i' = i) as -> by congruence. assert (x' = x) as -> by congruence.
    destruct (during_ok c i x r y Ok D Hx Hy Hr) as (Ok1 & D1 & S1 & L1 & P1). exists (during c i x r y). split_and!; try done.
    intros res c2. rewrite (dispatch_run c m (r_name x) (r_serial y) r y i x Ok Ht Hs Hn Hi Hx Hk Hy). destruct (reply_target _ _) as [f u]. intros E Ok2 D2.
    destruct (finish_ok c2 r res Ok2 D2) as (c3 & E3 & H3). exists c3. split; [|exact H3]. cbn [fst snd]. by rewrite (bind_Ret _ _ _ _ _ E).
Qed.
End Dispatch.

(** ** A service gets an owner *)
Section Move.
Context {B : Build}.

(** What [move_replies] leaves. *)
Definition moved (um : remid) (xu : Remote) (l : list (Z * repid)) (c c' : Client) : Prop :=
  remotes c' = remotes c /\ replies c' = replies c /\ reply_iter c' = reply_iter c /\ next_id c' = next_id c /\ same_rest c c' /\
  data_heap c' = data_heap c /\ conn_heap c' = conn_heap c /\ log c' = log c /\
  remote_heap c' = <[um := set_r_replies (list_to_map l ∪ r_replies xu) xu]> (remote_heap c) /\
  forall r, reply_heap c' !! r = if decide (r ∈ l.*2) then set_r_remote (Some um) <$> reply_heap c !! r else reply_heap c !! r.

Lemma move_run (um : remid) (l : list (Z * repid)) : forall (c : Client) (xu : Remote), NoDup (l.*1) -> NoDup (l.*2) -> remote_heap c !! um = Some xu ->
  (forall k r, (k, r) ∈ l -> r_replies xu !! k = None /\ exists y, reply_heap c !! r = Some y /\ r_serial y = k) ->
  exists c', move_replies um l c = Ret tt c' /\ moved um xu l c c'.
Proof.
  induction l as [|[k r] l IH]; intros c xu Hk Hr Hu Hl.
  - exists c. split; [done|]. split_and!; try done.
    rewrite (left_id_L ∅ (∪) (r_replies xu) : list_to_map [] ∪ r_replies xu = r_replies xu). rewrite insert_id; [done|]. rewrite Hu. by destruct xu.
  - cbn [fmap list_fmap fst snd] in Hk, Hr. apply NoDup_cons in Hk as [Hk1 Hk2]. apply NoDup_cons in Hr as [Hr1 Hr2].
    destruct (Hl k r ltac:(left)) as (Hf & y & Hy & <-). cbn [move_replies].
    rewrite (bind_Ret _ _ _ _ _ (reply_run c r y Hy)), (bind_Ret _ _ _ _ _ (remote_run c um xu Hu)).
    rewrite (bind_Ret (assert_ _) _ c c tt) by (by apply assert_true, bool_decide_eq_true_2).
    rewrite (bind_Ret (put_reply r _) _ c _ tt eq_refl). set (c1 := set_reply_heap _ c). rewrite (bind_Ret (put_remote um _) _ c1 _ tt eq_refl).
    set (xu' := set_r_replies _ xu). set (c2 := set_remote_heap _ c1).
    assert (Hlk : forall k' r', (k', r') ∈ l -> k' <> r_serial y /\ r' <> r).
    { intros k' r' H. split; intros ->; [apply Hk1|apply Hr1]; apply list_elem_of_fmap; by eexists (_, _). }
    destruct (IH c2 xu' Hk2 Hr2) as (c' & E & M).
    + cbn. by rewrite lookup_insert_eq.
    + intros k' r' H. destruct (Hlk k' r' H) as [N1 N2]. destruct (Hl k' r' ltac:(by right)) as (Hf' & y' & Hy' & Ek'). split.
      * cbn. by rewrite lookup_insert_ne.
      * exists y'. cbn. by rewrite lookup_insert_ne.
    + exists c'. split; [exact E|]. destruct M as (M1 & M2 & M3 & M4 & M5 & M6 & M7 & M8 & M9 & M10). unfold moved. split_and!; try assumption.
      * rewrite M9. cbn [c2 c1 set_remote_heap remote_heap set_reply_heap]. rewrite insert_insert_eq. f_equal. unfold xu', set_r_replies. cbn. f_equal.
        rewrite <- insert_union_l. symmetry. apply insert_union_r. apply not_elem_of_list_to_map_1. done.
      * intros r'. rewrite M10. cbn [c2 c1 set_remote_heap reply_heap set_reply_heap fmap list_fmap snd]. destruct (decide (r' = r)) as [->|Hne].
        -- rewrite lookup_insert_eq, decide_False by done. rewrite decide_True by left. by rewrite Hy.
        -- rewrite lookup_insert_ne by done. destruct (decide (r' ∈ l.*2)) as [H|H]; [by rewrite decide_True by (by right)|].
           rewrite decide_False; [done|]. rewrite elem_of_cons. naive_solver.
Qed.

(** The tables after the replies of remote [sm] went to [um]. *)
Section Merge.
Context (c : Client) (Ok : replies_ok c) (n u : list Z) (sm um : remid) (sx xu : Remote).
Context (Hsm : remote_heap c !! sm = Some sx) (Hn : r_name sx = n) (Hnu : n <> u) (Hxu : r_name xu = u) (Hxc : r_connected xu = true).
Context (F1 : forall i x, remote_heap c !! i = Some x -> (r_name x = u <-> i = um)).
Context (F3 : forall k r, r_replies xu !! k = Some r -> exists y, reply_heap c !! r = Some y /\ r_remote y = Some um /\ r_serial y = k).
Context (F4 : forall r y, reply_heap c !! r = Some y -> r_remote y = Some um -> r_replies xu !! r_serial y = Some r).
Context (F5 : forall k r, r_replies sx !! k = Some r -> r_replies xu !! k = None).
Context (c' : Client) (G1 : remotes c' = delete n (<[u := um]> (remotes c)))
  (G2 : remote_heap c' = delete sm (<[um := set_r_replies (r_replies sx ∪ r_replies xu) xu]> (remote_heap c)))
  (G3 : forall r, reply_heap c' !! r = if decide (r ∈ (map_to_list (r_replies sx)).*2) then set_r_remote (Some um) <$> reply_heap c !! r else reply_heap c !! r)
  (G4 : replies c' = replies c) (G5 : reply_iter c' = reply_iter c) (G6 : (next_id c <= next_id c')%nat) (G7 : (um < next_id c')%nat).

Lemma sm_um : sm <> um.
Proof. intros E. apply (F1 sm sx Hsm) in E. congruence. Qed.

Lemma in_moved (r : repid) : r ∈ (map_to_list (r_replies sx)).*2 <-> exists k, r_replies sx !! k = Some r.
Proof.
  rewrite list_elem_of_fmap. split.
  - intros ([k r'] & -> & H%elem_of_map_to_list). by exists k.
  - intros [k H%elem_of_map_to_list]. by exists (k, r).
Qed.

Lemma um_lookup : remote_heap c' !! um = Some (set_r_replies (r_replies sx ∪ r_replies xu) xu).
Proof. rewrite G2, lookup_delete_ne by apply sm_um. apply lookup_insert_eq. Qed.

Lemma other_lookup (i : remid) : i <> um -> i <> sm -> remote_heap c' !! i = remote_heap c !! i.
Proof. intros H1 H2. by rewrite G2, lookup_delete_ne, lookup_insert_ne. Qed.

Lemma heap_cases (i : remid) (x : Remote) : remote_heap c' !! i = Some x ->
  (i = um /\ x = set_r_replies (r_replies sx ∪ r_replies xu) xu) \/ (i <> um /\ i <> sm /\ remote_heap c !! i = Some x).
Proof.
  intros H. destruct (decide (i = um)) as [->|Hu]; [left; split; [done|]; rewrite um_lookup in H; congruence|].
  right. assert (Hs : i <> sm) by (intros ->; by rewrite G2, lookup_delete_eq in H). by rewrite other_lookup in H.
Qed.

Lemma merged_reply (k : Z) (r : repid) : r_replies sx !! k = Some r ->
  exists y, reply_heap c !! r = Some y /\ r_serial y = k /\ reply_heap c' !! r = Some (set_r_remote (Some um) y).
Proof.
  intros Hk. destruct (ok_pending c Ok sm sx k r Hsm Hk) as (y & Hy & _ & Ek). exists y. split; [done|]. split; [done|].
  rewrite G3, decide_True by (apply in_moved; by exists k). by rewrite Hy.
Qed.

Lemma kept_reply (r : repid) (y : ConnReply) : reply_heap c !! r = Some y -> r_remote y <> Some sm -> reply_heap c' !! r = Some y.
Proof.
  intros Hy Hr. rewrite G3, decide_False; [done|]. intros [k Hk]%in_moved. destruct (ok_pending c Ok sm sx k r Hsm Hk) as (y' & Hy' & E & _). congruence.
Qed.

Lemma name_lookup (n' : list Z) : n' <> n -> n' <> u -> remotes c' !! n' = remotes c !! n'.
Proof. intros H1 H2. by rewrite G1, lookup_delete_ne, lookup_insert_ne. Qed.

Lemma merged_ok : replies_ok c'.
Proof.
  split; try rewrite G4; try rewrite G5.
  - intros n' m' H. rewrite G1 in H. apply lookup_delete_Some in H as [H1 H]. destruct (decide (u = n')) as [<-|H2].
    + rewrite lookup_insert_eq in H. injection H as <-. eexists. split; [apply um_lookup|done].
    + rewrite lookup_insert_ne in H by done. destruct (ok_remotes c Ok n' m' H) as (x & Hx & En). exists x. rewrite other_lookup; [done| |].
      * intros E. apply (F1 m' x Hx) in E. congruence.
      * intros ->. congruence.
  - intros i x [[-> ->]|(H1 & H2 & H)]%heap_cases.
    + cbn. rewrite Hxc, Hxu. split; [done|]. split; [by rewrite G1, lookup_delete_ne, lookup_insert_eq|].
      destruct (ok_remote c Ok sm sx Hsm) as (_ & _ & Hne). by apply map_positive_l_alt.
    + destruct (ok_remote c Ok i x H) as (K1 & K2 & K3). split; [done|]. split; [|done]. rewrite name_lookup; [done| |].
      * intros E. apply H2. apply (same_remote c Ok sm sx Hsm i x H). congruence.
      * intros E. apply H1. by apply (F1 i x H).
  - intros i x k r [[-> ->]|(H1 & H2 & H)]%heap_cases Hr.
    + cbn in Hr. apply lookup_union_Some_raw in Hr as [Hr|[_ Hr]].
      * destruct (merged_reply k r Hr) as (y & _ & Ek & Hy). by eexists.
      * destruct (F3 k r Hr) as (y & Hy & E1 & E2). exists y. split; [|done]. apply kept_reply; [done|]. rewrite E1. intros [= E]. by apply sm_um.
    + destruct (ok_pending c Ok i x k r H Hr) as (y & Hy & E1 & E2). exists y. split; [|done]. apply kept_reply; [done|]. congruence.
  - intros r y' m' Hy' Hm'. rewrite G3 in Hy'. case_decide as Hin.
    + apply in_moved in Hin as [k Hk]. destruct (merged_reply k r Hk) as (y & Hy & Ek & _). rewrite Hy in Hy'. injection Hy' as <-. injection Hm' as <-.
      eexists. split; [apply um_lookup|]. cbn. rewrite Ek. by apply lookup_union_Some_l.
    + destruct (decide (m' = um)) as [->|Hu].
      * eexists. split; [apply um_lookup|]. cbn. pose proof (F4 r y' Hy' Hm') as Hk. rewrite lookup_union_r; [done|].
        destruct (r_replies sx !! r_serial y') as [r2|] eqn:E; [|done]. rewrite (F5 _ _ E) in Hk. done.
      * destruct (ok_reply c Ok r y' m' Hy' Hm') as (x & Hx & Hk). exists x. rewrite other_lookup; [done|done|]. intros ->. apply Hin, in_moved.
        eexists. assert (x = sx) as -> by congruence. exact Hk.
  - intros r. rewrite (ok_list c Ok r), G3. case_decide; [|done]. by rewrite fmap_is_Some.
  - intros r Hr. rewrite G3. pose proof (ok_iter c Ok r Hr). case_decide; [by apply fmap_is_Some|done].
  - intros i x [[-> _]|(_ & _ & H)]%heap_cases; [done|]. pose proof (ok_fresh_m c Ok i x H). lia.
  - intros r y Hy. assert (Hs : is_Some (reply_heap c !! r)).
    { rewrite G3 in Hy. case_decide; [apply fmap_Some in Hy as (y0 & Hy & _)|]; by eexists. }
    destruct Hs as [y0 H0]. pose proof (ok_fresh_r c Ok r y0 H0). lia.
Qed.

Lemma merged_pending (n' : list Z) (k : Z) : pending c' n' k =
  if decide (n' = n) then None else if decide (n' = u) then (r_replies sx ∪ r_replies xu) !! k else pending c n' k.
Proof.
  unfold pending. destruct (decide (n' = n)) as [->|H1]; [by rewrite G1, lookup_delete_eq|].
  destruct (decide (n' = u)) as [->|H2].
  - rewrite G1, lookup_delete_ne, lookup_insert_eq by done. cbn. by rewrite um_lookup.
  - rewrite name_lookup by done. destruct (remotes c !! n') as [i|] eqn:Hi; [|done]. cbn. destruct (ok_remotes c Ok n' i Hi) as (x & Hx & En).
    rewrite other_lookup; [done| |]; intros ->; [apply H2; rewrite <- En; by apply (F1 um x Hx)|congruence].
Qed.
End Merge.

Lemma set_remote_heap_id (c : Client) (m : remid) (x : Remote) : remote_heap c !! m = Some x -> <[m := x]> (remote_heap c) = remote_heap c.
Proof. apply insert_id. Qed.

(** The remote of the owner, which may be new. *)
Lemma owner_remote (c : Client) (u : list Z) : replies_ok c -> exists um xu c0,
  (match remotes c !! u with Some um => ret um | None => new_remote u end) c = Ret um c0 /\
  remotes c0 = <[u := um]> (remotes c) /\ remote_heap c0 = <[um := xu]> (remote_heap c) /\ reply_heap c0 = reply_heap c /\ replies c0 = replies c /\
  reply_iter c0 = reply_iter c /\ (next_id c <= next_id c0)%nat /\ (um < next_id c0)%nat /\ same_rest c c0 /\ data_heap c0 = data_heap c /\
  conn_heap c0 = conn_heap c /\ log c0 = log c /\
  r_name xu = u /\ r_connected xu = true /\ (forall k, r_replies xu !! k = pending c u k) /\
  (forall i x, remote_heap c !! i = Some x -> (r_name x = u <-> i = um)) /\
  (forall k r, r_replies xu !! k = Some r -> exists y, reply_heap c !! r = Some y /\ r_remote y = Some um /\ r_serial y = k) /\
  (forall r y, reply_heap c !! r = Some y -> r_remote y = Some um -> r_replies xu !! r_serial y = Some r).
Proof.
  intros Ok. destruct (remotes c !! u) as [um|] eqn:Hu.
  - destruct (ok_remotes c Ok u um Hu) as (xu & Hx & En). destruct (ok_remote c Ok um xu Hx) as (Hc & _). exists um, xu, c. split; [done|].
    rewrite !insert_id by done. split_and!; try done; try lia.
    + by apply (ok_fresh_m c Ok um xu).
    + intros k. unfold pending. by rewrite Hu; cbn; rewrite Hx.
    + intros i x Hi. split; [intros E; apply (same_remote c Ok um xu Hx i x Hi); congruence|intros ->; congruence].
    + intros k r. by apply (ok_pending c Ok).
    + intros r y Hy Hr. destruct (ok_reply c Ok r y um Hy Hr) as (x & Hx' & Hk). by assert (x = xu) as -> by congruence.
  - exists (next_id c), (mkRemote true u ∅). eexists. split; [reflexivity|]. split_and!; try done; cbn; try lia.
    + intros k. unfold pending. by rewrite Hu, lookup_empty.
    + intros i x Hi. split; [intros E; destruct (ok_remote c Ok i x Hi) as (_ & Hn & _); congruence|intros ->; pose proof (ok_fresh_m c Ok _ x Hi); lia].
    + intros r y Hy Hr. destruct (ok_reply c Ok r y _ Hy Hr) as (x & Hx & _). pose proof (ok_fresh_m c Ok _ x Hx). lia.
Qed.

Lemma MoveReplies_ok (c : Client) (s : svcid) (n u : list Z) : replies_ok c -> data_ok c -> service_heap c !! s = Some (mkService n (Some u)) -> n <> u ->
  (forall k r, pending c n k = Some r -> pending c u k = None) ->
  exists c', MoveReplies s c = Ret tt c' /\ replies_ok c' /\ data_ok c' /\ same_rest c c' /\ log c' = log c /\
    forall n' k, pending c' n' k = if decide (n' = n) then None
      else if decide (n' = u) then match pending c n k with Some r => Some r | None => pending c u k end else pending c n' k.
Proof.
  intros Ok D Hs Hnu Hdis. unfold MoveReplies. rewrite (bind_Ret _ _ _ _ _ (service_run c s _ Hs)). cbn [s_unique s_service].
  rewrite (bind_Ret (of_option (Some u)) _ c c u eq_refl), (bind_Ret get _ _ _ _ eq_refl).
  rewrite (proj2 (list_eqb_neq u n)) by done. rewrite andb_false_r. destruct (remotes c !! n) as [sm|] eqn:Hsm.
  2:{ exists c. split_and!; try done. intros n' k. destruct (decide (n' = n)) as [->|]; [unfold pending; by rewrite Hsm|]. case_decide; [|done]. subst n'. unfold pending at 2. by rewrite Hsm. }
  destruct (ok_remotes c Ok n sm Hsm) as (sx & Hsx & En). destruct (owner_remote c u Ok) as (um & xu & c0 & E0 & K1 & K2 & K3 & K4 & K5 & K6 & K7 & K8 & K9 & K10 & K11 & K12 & K13 & K14 & F1 & F3 & F4).
  rewrite (bind_Ret _ _ _ _ _ E0). clear E0. pose proof (sm_um c n u sm um sx Hsx En Hnu F1) as Hsu.
  assert (Pn : forall k, pending c n k = r_replies sx !! k) by (intros k; unfold pending; by rewrite Hsm; cbn; rewrite Hsx).
  assert (F5 : forall k r, r_replies sx !! k = Some r -> r_replies xu !! k = None) by (intros k r H; rewrite K14; apply (Hdis k r); by rewrite Pn).
  assert (Hsx0 : remote_heap c0 !! sm = Some sx) by (by rewrite K2, lookup_insert_ne).
  rewrite (bind_Ret _ _ _ _ _ (remote_run c0 sm sx Hsx0)).
  destruct (move_run um (map_to_list (r_replies sx)) c0 xu) as (c1 & E1 & M1 & M2 & M3 & M4 & M5 & M6 & M7 & M8 & M9 & M10).
  { apply NoDup_fst_map_to_list. }
  { apply NoDup_fmap_2_strong; [|apply NoDup_map_to_list]. intros [k1 r1] [k2 r2] H1%elem_of_map_to_list H2%elem_of_map_to_list E. cbn in E. subst r2.
    destruct (ok_pending c Ok sm sx k1 r1 Hsx H1) as (y1 & Hy1 & _ & <-). destruct (ok_pending c Ok sm sx k2 r1 Hsx H2) as (y2 & Hy2 & _ & <-). congruence. }
  { by rewrite K2, lookup_insert_eq. }
  { intros k r H%elem_of_map_to_list. split; [by apply (F5 k r)|]. destruct (ok_pending c Ok sm sx k r Hsx H) as (y & Hy & _ & Ek). exists y. by rewrite K3. }
  rewrite (bind_Ret _ _ _ _ _ E1). rewrite (bind_Ret (modify _) _ c1 _ tt eq_refl). rewrite list_to_map_to_list in M9. set (c2 := set_remotes _ c1).
  assert (Hsx2 : remote_heap c2 !! sm = Some sx) by (change (remote_heap c1 !! sm = Some sx); by rewrite M9, lookup_insert_ne).
  rewrite (bind_Ret _ _ _ _ _ (remote_run c2 sm sx Hsx2)). rewrite (bind_Ret (put_remote sm _) _ c2 _ tt eq_refl). set (c3 := set_remote_heap _ c2).
  rewrite (freeRemote_empty c3 sm (set_r_connected false (set_r_replies ∅ sx))) by (try done; apply lookup_insert_eq). cbn [r_connected set_r_connected set_r_replies].
  set (c4 := set_remote_heap _ c3). exists c4. split; [done|].
  assert (G1 : remotes c4 = delete n (<[u := um]> (remotes c))) by (change (delete n (remotes c1) = delete n (<[u := um]> (remotes c))); by rewrite M1, K1).
  assert (G2 : remote_heap c4 = delete sm (<[um := set_r_replies (r_replies sx ∪ r_replies xu) xu]> (remote_heap c))).
  { change (delete sm (<[sm := set_r_connected false (set_r_replies ∅ sx)]> (remote_heap c1)) = delete sm (<[um := set_r_replies (r_replies sx ∪ r_replies xu) xu]> (remote_heap c))).
    by rewrite delete_insert_eq, M9, K2, insert_insert_eq. }
  assert (G3 : forall r, reply_heap c4 !! r = if decide (r ∈ (map_to_list (r_replies sx)).*2) then set_r_remote (Some um) <$> reply_heap c !! r else reply_heap c !! r).
  { intros r. change (reply_heap c4) with (reply_heap c1). by rewrite M10, K3. }
  split. { apply (merged_ok c Ok n u sm um sx xu); try done; [change (replies c1 = replies c); by rewrite M2|change (reply_iter c1 = reply_iter c); by rewrite M3|
             change (next_id c <= next_id c1)%nat; by rewrite M4|change (um < next_id c1)%nat; by rewrite M4]. }
  split. { destruct D as [D1 D2 D3]. assert (H1 : data_heap c4 = data_heap c) by (change (data_heap c1 = data_heap c); by rewrite M6).
    assert (H2 : conn_heap c4 = conn_heap c) by (change (conn_heap c1 = conn_heap c); by rewrite M7).
    assert (H3 : match_heap c4 = match_heap c) by (change (match_heap c1 = match_heap c); destruct M5 as (-> & _); by destruct K8 as (-> & _)).
    split; rewrite ?H1, ?H2, ?H3; try done. intros r y' Hy'. rewrite G3 in Hy'. case_decide; [apply fmap_Some in Hy' as (y & Hy & ->); exact (D2 r y Hy)|by apply D2]. }
  split. { destruct K8 as (A1 & A2 & A3 & A4 & A5 & A6 & A7 & A8 & A9 & A10 & A11). change (same_rest c c1). unfold same_rest in *. by rewrite <- A1, <- A2, <- A3, <- A4, <- A5, <- A6, <- A7, <- A8, <- A9, <- A10, <- A11. }
  split. { change (log c1 = log c). by rewrite M8. }
  intros n' k. rewrite (merged_pending c Ok n u sm um sx xu) by done. repeat case_decide; try done. subst n'. rewrite lookup_union, K14, Pn. by destruct (r_replies sx !! k), (pending c u k).
Qed.
End Move.

(** ** Registering *)
Section Register.
Context {B : Build} (send_message : option (Message -> Z)) (get_proxy : option (nat * pointer)).

(** The name under which a reply from [name] is registered, when the owner of
    a service need not be asked for. *)
Definition send_name (c : Client) (name : list Z) : option (list Z) :=
  if (length name =? 0)%nat || (deref name =? chr ":") || list_eqb name BUS then Some name
  else s ← services c !! name; sv ← service_heap c !! s; Some (default name (s_unique sv)).

Lemma sized_len (s : list Z) : sized s (len s) = s.
Proof. unfold sized, len. rewrite (proj2 (Z.ltb_ge _ _)) by lia. by rewrite Nat2Z.id, firstn_all. Qed.

Lemma lookup_run (c : Client) (name n : list Z) : send_name c name = Some n ->
  exists svc, lookup_service send_message get_proxy (Some name) (len name) c = Ret svc c /\
    (match svc with Some s => let* sv := service_at s in ret (default name (s_unique sv)) | None => ret name end) c = Ret n c.
Proof.
  unfold send_name, lookup_service. cbn [adbusI_lookupService]. rewrite sized_len. intros H.
  destruct ((length name =? 0)%nat || (deref name =? chr ":")) eqn:E1; [injection H as <-; by exists None|].
  destruct (list_eqb name BUS) eqn:E2; [injection H as <-; by exists None|]. cbn in H. rewrite (bind_Ret get _ _ _ _ eq_refl).
  destruct (services c !! name) as [s|]; [|done]. cbn in H. destruct (service_heap c !! s) as [sv|] eqn:Es; [|done]. injection H as <-. exists (Some s). split; [done|].
  by rewrite (bind_Ret _ _ _ _ _ (service_run c s sv Es)).
Qed.

(** The state with the new entry. *)
Lemma registered_ok (c c0 c' : Client) (n : list Z) (m : remid) (r : repid) (x : Remote) (k : Z) (h : ReplyHooks) : replies_ok c ->
  remotes c0 = <[n := m]> (remotes c) -> remote_heap c0 = <[m := x]> (remote_heap c) -> r_name x = n -> r_connected x = true ->
  (forall i x', remote_heap c !! i = Some x' -> (r_name x' = n <-> i = m)) ->
  (forall k r, r_replies x !! k = Some r -> exists y, reply_heap c !! r = Some y /\ r_remote y = Some m /\ r_serial y = k) ->
  (forall r y, reply_heap c !! r = Some y -> r_remote y = Some m -> r_replies x !! r_serial y = Some r) ->
  (forall k, r_replies x !! k = pending c n k) -> r_replies x !! k = None -> (next_id c <= r)%nat -> (m < r)%nat ->
  remotes c' = remotes c0 -> remote_heap c' = <[m := set_r_replies (<[k := r]> (r_replies x)) x]> (remote_heap c0) ->
  reply_heap c' = <[r := mkConnReply (Some m) k h]> (reply_heap c) -> replies c' = r :: replies c -> reply_iter c' = reply_iter c -> next_id c' = S r ->
  replies_ok c' /\ forall n' k', pending c' n' k' = if decide ((n', k') = (n, k)) then Some r else pending c n' k'.
Proof.
  intros Ok K1 K2 Hn Hc F1 F3 F4 Fp Hk Hr Hm G1 G2 G3 G4 G5 G6. rewrite K1 in G1. rewrite K2, insert_insert_eq in G2. clear K1 K2.
  assert (Hr0 : reply_heap c !! r = None) by (destruct (reply_heap c !! r) as [y|] eqn:E; [pose proof (ok_fresh_r c Ok r y E); lia|done]).
  assert (Hy : forall r' y, reply_heap c !! r' = Some y -> r' <> r) by (intros r' y H ->; congruence).
  assert (Hx : remote_heap c' !! m = Some (set_r_replies (<[k := r]> (r_replies x)) x)) by (rewrite G2; apply lookup_insert_eq).
  assert (Ho : forall i : remid, i <> m -> remote_heap c' !! i = remote_heap c !! i) by (intros i Hi; by rewrite G2, lookup_insert_ne).
  split; [split; rewrite ?G4, ?G5, ?G6|].
  - intros n' i. rewrite G1. destruct (decide (n = n')) as [<-|Hne]; [rewrite lookup_insert_eq; intros [= <-]; by eexists|].
    rewrite lookup_insert_ne by done. intros Hi. destruct (ok_remotes c Ok n' i Hi) as (x' & Hx' & En). exists x'. rewrite Ho; [done|]. intros E. apply (F1 i x' Hx') in E. congruence.
  - intros i x' Hi. destruct (decide (i = m)) as [->|Hne].
    + rewrite Hx in Hi. injection Hi as <-. cbn. rewrite Hn, G1, lookup_insert_eq. split_and!; try done. apply insert_non_empty.
    + rewrite Ho in Hi by done. destruct (ok_remote c Ok i x' Hi) as (E1 & E2 & E3). rewrite G1, lookup_insert_ne; [done|]. intros E. apply Hne. by apply (F1 i x' Hi).
  - intros i x' k' r' Hi Hr'. rewrite G3. destruct (decide (i = m)) as [->|Hne].
    + rewrite Hx in Hi. injection Hi as <-. cbn in Hr'. destruct (decide (k = k')) as [<-|Hkk].
      * rewrite lookup_insert_eq in Hr'. injection Hr' as <-. eexists. by rewrite lookup_insert_eq.
      * rewrite lookup_insert_ne in Hr' by done. destruct (F3 k' r' Hr') as (y & Hy' & E). exists y. by rewrite lookup_insert_ne by (intros <-; by apply (Hy r y)).
    + rewrite Ho in Hi by done. destruct (ok_pending c Ok i x' k' r' Hi Hr') as (y & Hy' & E). exists y. by rewrite lookup_insert_ne by (intros <-; by apply (Hy r y)).
  - intros r' y i. rewrite G3. destruct (decide (r = r')) as [<-|Hne].
    + rewrite lookup_insert_eq. intros [= <-] [= <-]. eexists. split; [exact Hx|]. cbn. apply lookup_insert_eq.
    + rewrite lookup_insert_ne by done. intros Hy' Hi. destruct (decide (i = m)) as [->|Him].
      * eexists. split; [exact Hx|]. cbn. pose proof (F4 r' y Hy' Hi). rewrite lookup_insert_ne by congruence. done.
      * rewrite Ho by done. by apply (ok_reply c Ok).
  - intros r'. rewrite elem_of_cons, G3, (ok_list c Ok), lookup_insert_is_Some'. naive_solver.
  - intros r' Hr'. rewrite G3, lookup_insert_is_Some'. right. by apply (ok_iter c Ok).
  - intros i x' Hi. destruct (decide (i = m)) as [->|Hne]; [lia|]. rewrite Ho in Hi by done. pose proof (ok_fresh_m c Ok i x' Hi). lia.
  - intros r' y. rewrite G3. destruct (decide (r = r')) as [<-|Hne]; [lia|]. rewrite lookup_insert_ne by done. intros Hy'. pose proof (ok_fresh_r c Ok r' y Hy'). lia.
  - intros n' k'. unfold pending at 1. rewrite G1. destruct (decide (n = n')) as [<-|Hne].
    + rewrite lookup_insert_eq. cbn. rewrite Hx. cbn. destruct (decide (k = k')) as [<-|Hkk]; [by rewrite lookup_insert_eq, decide_True|].
      rewrite lookup_insert_ne, decide_False by (done || congruence). apply Fp.
    + rewrite lookup_insert_ne, decide_False by (done || congruence). unfold pending. destruct (remotes c !! n') as [i|] eqn:Hi; [|done]. cbn.
      rewrite Ho; [done|]. intros ->. destruct (ok_remotes c Ok n' m Hi) as (x' & Hx' & En). apply Hne. rewrite <- En. symmetry. by apply (F1 m x' Hx').
Qed.

(** Release callbacks of a user: not those of states. *)
Definition user_release (h : Release) : Prop := release0 h <> Some ReleaseDataCallback /\ release1 h <> Some ReleaseDataCallback.

Lemma addreply_ok (c : Client) (reg : adbus_Reply) (s name n : list Z) : replies_ok c -> data_ok c -> y_remote reg = Some s -> sized s (y_remoteSize reg) = name ->
  name <> [] -> y_callback (y_hooks reg) <> None -> user_release (y_release (y_hooks reg)) -> send_name c name = Some n ->
  pending c n (y_serial reg mod 2 ^ 32) = None ->
  exists r c', adbus_conn_addreply send_message get_proxy reg c = Ret (Some r) c' /\ replies_ok c' /\ data_ok c' /\ same_rest c c' /\ log c' = log c /\
    reply_heap c !! r = None /\ (exists m, reply_heap c' = <[r := mkConnReply (Some m) (y_serial reg mod 2 ^ 32) (y_hooks reg)]> (reply_heap c)) /\
    forall n' k', pending c' n' k' = if decide ((n', k') = (n, y_serial reg mod 2 ^ 32)) then Some r else pending c n' k'.
Proof.
  intros Ok D Es Hn Hne Hcb [U0 U1] Hs Hp. unfold adbus_conn_addreply, addreply_. rewrite Es, Hn, (bind_Ret (ret name) _ c c name eq_refl).
  rewrite (bind_Ret (assert_ _) _ c c tt) by (by apply assert_true, bool_decide_eq_true_2). replace (length name =? 0)%nat with false by (by destruct name).
  destruct (lookup_run c name n Hs) as (svc & L1 & L2). rewrite (bind_Ret _ _ _ _ _ L1), (bind_Ret _ _ _ _ _ L2), (bind_Ret get _ _ _ _ eq_refl).
  destruct (owner_remote c n Ok) as (m & x & c0 & E0 & K1 & K2 & K3 & K4 & K5 & K6 & K7 & K8 & K9 & K10 & K11 & K12 & K13 & K14 & F1 & F3 & F4).
  rewrite (bind_Ret _ _ _ _ _ E0). assert (Hx : remote_heap c0 !! m = Some x) by (by rewrite K2, lookup_insert_eq).
  rewrite (bind_Ret _ _ _ _ _ (remote_run c0 m x Hx)). set (k := y_serial reg mod 2 ^ 32) in *. assert (Hk : r_replies x !! k = None) by (by rewrite K14). rewrite Hk.
  set (r := next_id c0). rewrite (bind_Ret alloc _ c0 (set_next_id (S r) c0) r eq_refl). set (c1 := set_next_id (S r) c0).
  rewrite (bind_Ret (put_reply r _) _ c1 _ tt eq_refl). set (c2 := set_reply_heap _ c1). rewrite (bind_Ret (put_remote m _) _ c2 _ tt eq_refl).
  set (c3 := set_remote_heap _ c2). rewrite (bind_Ret (modify _) _ c3 _ tt eq_refl). set (c4 := set_replies _ c3).
  assert (G3 : reply_heap c4 = <[r := mkConnReply (Some m) k (y_hooks reg)]> (reply_heap c)).
  { change (<[r := mkConnReply (Some m) k (y_hooks reg)]> (reply_heap c0) = <[r := mkConnReply (Some m) k (y_hooks reg)]> (reply_heap c)). by rewrite K3. }
  destruct (registered_ok c c0 c4 n m r x k (y_hooks reg) Ok) as [Ok4 P4]; try done; try (change (r :: replies c0 = r :: replies c); by rewrite K4).
  exists r, c4. split; [done|]. split; [done|]. split.
  { destruct D as [D1 D2 D3]. assert (H1 : data_heap c4 = data_heap c) by exact K9. assert (H2 : conn_heap c4 = conn_heap c) by exact K10.
    assert (H3 : match_heap c4 = match_heap c) by apply K8. split; rewrite ?G3, ?H1, ?H2, ?H3; try done.
    intros r' y. destruct (decide (r = r')) as [<-|Hr]; [rewrite lookup_insert_eq; intros [= <-]; by split|rewrite lookup_insert_ne by done; apply D2]. }
  split; [exact K8|]. split; [exact K11|]. split.
  { destruct (reply_heap c !! r) as [y|] eqn:E; [|done]. pose proof (ok_fresh_r c Ok r y E). unfold r in *. lia. }
  split; [by exists m|exact P4].
Qed.

End Register.

(** ** Witnesses *)
Lemma new_ok {B : Build} : replies_ok adbus_conn_new /\ data_ok adbus_conn_new.
Proof.
  split; split; cbn; intros *; rewrite ?lookup_empty; try done. split; [by intros ?%elem_of_nil|by intros [? ?]].
Qed.

Definition sample_reply (name : list Z) (serial : Z) : adbus_Reply :=
  mkReply serial (Some name) (-1) (mkReplyHooks (Some (UserCallback 3)) (User 1) None Null None Null (mkRelease (Some (UserRelease 4)) (User 1) None Null None Null)).

Lemma sample_registered : exists r c', adbus_conn_addreply (B := debug_build) None None (sample_reply (str ":1.5") 7) (adbus_conn_new (B := debug_build)) = Ret (Some r) c' /\
  replies_ok c' /\ data_ok c' /\ (exists m, reply_heap c' !! r = Some (mkConnReply (Some m) 7 (y_hooks (sample_reply (str ":1.5") 7)))) /\ pending c' (str ":1.5") 7 = Some r.
Proof.
  destruct (new_ok (B := debug_build)) as [Ok D]. destruct (addreply_ok (B := debug_build) None None (adbus_conn_new (B := debug_build)) (sample_reply (str ":1.5") 7) (str ":1.5") (str ":1.5") (str ":1.5") Ok D)
    as (r & c' & H1 & H2 & H3 & _ & _ & _ & [m H4] & H5); [reflexivity|reflexivity|discriminate|discriminate|split; discriminate|reflexivity|reflexivity|].
  exists r, c'. split; [exact H1|]. split; [exact H2|]. split; [exact H3|]. split; [exists m; by rewrite H4, lookup_insert_eq|by rewrite H5].
Qed.


Definition sample_return : Message := set_string HEADER_SENDER (str ":1.5") (set_reply 7 (mkMsg [] 0 [] 0 MSG_RETURN 0 9 None 0 None None None None None None None None)).

Lemma reply_dispatched_witness : exists c c3 r, pending c (str ":1.5") 7 = Some r /\
  adbusI_dispatchReply (B := debug_build) (fun _ _ _ => ret 5) (fun _ _ k => k) sample_return c = Ret 5 c3 /\ pending c3 (str ":1.5") 7 = None.
Proof.
  destruct sample_registered as (r & c & _ & Ok & D & [m Hr] & Hp).
  destruct (reply_dispatched (B := debug_build) (fun _ _ _ => ret 5) (fun _ _ k => k) c sample_return (str ":1.5") 7 Ok D) as [_ H]; [left; reflexivity|reflexivity|reflexivity|].
  destruct (H r _ Hp Hr) as (c1 & Ok1 & D1 & _ & _ & P1 & H1). destruct (H1 5 c1 eq_refl Ok1 D1) as (c3 & E3 & _ & _ & _ & _ & _ & P3).
  exists c, c3, r. split; [exact Hp|]. split; [exact E3|]. rewrite P3. rewrite P1, (decide_True (P := (str ":1.5", 7) = (str ":1.5", 7))) by reflexivity.
  rewrite decide_False; [reflexivity|]. intros [_ ?]; discriminate.
Defined.
