(* ===== verification/Watching.v ===== *)
(** The matches of a client (adbus/match.c) and its serials: which callback a
    message goes to, and what happens while the owner of a service is not
    known yet (adbus/client-service.c). *)

From Stdlib Require Import ZArith Lia.
From stdpp Require Import base option list numbers strings gmap.
From S2P Require Import Prelude Names Signature Iterator Values Buffer MatchRule Message Factory Server Bus Client.
#[local] Open Scope Z_scope.
#[local] Open Scope adbus_scope.

(** ** Serials *)
Fixpoint serials (n : nat) : M Client (list Z) :=
  match n with
  | O => ret []
  | S n => let* k := adbus_conn_serial in let* l := serials n in ret (k :: l)
  end.

(** The number of serials in a round. *)
Definition ROUND : Z := 2 ^ 32 - 2.

Lemma serial_run (c : Client) : 1 <= nextSerial c < 2 ^ 32 ->
  exists k, adbus_conn_serial c = Ret k (set_nextSerial (k + 1) c) /\ k = 1 + (nextSerial c - 1) mod ROUND /\ 1 <= k < 2 ^ 32 - 1.
Proof.
  intros H. unfold adbus_conn_serial. rewrite (bind_Ret get _ _ _ _ eq_refl). rewrite (bind_Ret (put _) _ c _ tt eq_refl). eexists. split; [reflexivity|].
  unfold ROUND. destruct (Z.eqb_spec (nextSerial c) (2 ^ 32 - 1)) as [E|E].
  - rewrite E. split; [reflexivity|lia].
  - rewrite Z.mod_small by lia. lia.
Qed.

Lemma round_step (a i : Z) : 0 <= a -> 0 <= i -> (a mod ROUND + 1 + i) mod ROUND = (a + 1 + i) mod ROUND.
Proof. intros Ha Hi. rewrite <- (Z.add_assoc (a mod ROUND)), <- (Z.add_assoc a), Z.add_mod_idemp_l; [done|discriminate]. Qed.

Lemma serials_run (n : nat) : forall c, 1 <= nextSerial c < 2 ^ 32 ->
  exists l c', serials n c = Ret l c' /\ length l = n /\ forall i k, l !! i = Some k -> k = 1 + (nextSerial c - 1 + Z.of_nat i) mod ROUND.
Proof.
  induction n as [|n IH]; intros c H; [by exists [], c|]. destruct (serial_run c H) as (k & E & Ek & Hk).
  destruct (IH (set_nextSerial (k + 1) c)) as (l & c' & El & Hl & Hi); [cbn; lia|]. exists (k :: l), c'. split; [|split; [cbn; lia|]].
  - cbn [serials]. by rewrite (bind_Ret _ _ _ _ _ E), (bind_Ret _ _ _ _ _ El).
  - intros [|i] j; cbn [lookup list_lookup]; [intros [= <-]; by rewrite Z.add_0_r|]. intros Hj. rewrite (Hi i j Hj). cbn [nextSerial set_nextSerial].
    rewrite Ek. f_equal. replace (1 + (nextSerial c - 1) mod ROUND + 1 - 1 + Z.of_nat i) with ((nextSerial c - 1) mod ROUND + 1 + Z.of_nat i) by lia.
    rewrite round_step by lia. f_equal. lia.
Qed.

Lemma round_distinct (a b : Z) : a mod ROUND = b mod ROUND -> a <= b < a + ROUND -> a = b.
Proof.
  intros E H. assert (E2 : (b - a) mod ROUND = 0) by (rewrite Zminus_mod, E, Z.sub_diag; reflexivity).
  rewrite Z.mod_small in E2 by lia. lia.
Qed.

(** The serials of a connection are 1 to 2^32 - 2, and no serial comes
    again before 2^32 - 2 others. *)
Theorem serials_distinct (c : Client) (n : nat) : 1 <= nextSerial c < 2 ^ 32 ->
  exists l c', serials n c = Ret l c' /\ length l = n /\ Forall (fun k => 1 <= k < 2 ^ 32 - 1) l /\
    forall i j k, (i < j)%nat -> Z.of_nat j < Z.of_nat i + (2 ^ 32 - 2) -> l !! i = Some k -> l !! j <> Some k.
Proof.
  intros H. destruct (serials_run n c H) as (l & c' & E & Hl & Hi). exists l, c'. split; [done|]. split; [done|]. split.
  - apply Forall_lookup. intros i k Hk. rewrite (Hi i k Hk). pose proof (Z.mod_pos_bound (nextSerial c - 1 + Z.of_nat i) ROUND eq_refl). unfold ROUND in *. lia.
  - intros i j k Hij Hr Hk Hk2. rewrite (Hi i k Hk) in *. pose proof (Hi j _ Hk2) as E2.
    assert (E3 : nextSerial c - 1 + Z.of_nat i = nextSerial c - 1 + Z.of_nat j) by (apply round_distinct; unfold ROUND in *; lia). lia.
Qed.

(** ** The match a message goes to *)

(** A string of a match comes with its length. *)
Definition sized_field (o : option (list Z)) (n : Z) : Prop := forall s, o = Some s -> n = len s.
Record sized_match (g : MatchReg) : Prop := {
  sm_sender : sized_field (sender (x_m g)) (senderSize (x_m g));
  sm_destination : sized_field (destination (x_m g)) (destinationSize (x_m g));
  sm_interface : sized_field (interface (x_m g)) (interfaceSize (x_m g));
  sm_path : sized_field (path (x_m g)) (pathSize (x_m g));
  sm_member : sized_field (member (x_m g)) (memberSize (x_m g));
  sm_error : sized_field (x_error g) (x_errorSize g);
  sm_arguments : Forall (fun a => sized_field (arg_value a) (arg_size a)) (arguments (x_m g)) }.

Record matches_ok (c : Client) : Prop := {
  mo_match : forall i, i ∈ matches c -> is_Some (match_heap c !! i);
  mo_sized : forall i x, match_heap c !! i = Some x -> sized_match (m_reg x);
  mo_service : forall i x s, match_heap c !! i = Some x -> m_service x = Some s -> is_Some (service_heap c !! s) }.

(** The owner that a match asks for. *)
Definition wanted (c : Client) (x : ConnMatch) : option (list Z) := s ← m_service x; sv ← service_heap c !! s; s_unique sv.

(** A field of the match is the field of the message, if it is given. *)
Definition asks (o v : option (list Z)) : Prop := forall s, o = Some s -> v = Some s.

(** The arguments of the match are those of the message, where they are given. *)
Definition asks_arguments (rule msg : list Argument) : Prop := (length rule <= length msg)%nat /\
  forall k a v, rule !! k = Some a -> arg_value a = Some v ->
    exists b w, msg !! k = Some b /\ arg_value b = Some w /\ arg_size b = len v /\ take (length v) w = v.

(** What it means that a match, for a service with owner [unique], is for a
    message. *)
Definition meant_for (g : MatchReg) (unique : option (list Z)) (m : Message) : Prop :=
  (cm_type (x_m g) = MSG_INVALID \/ msg_type m = cm_type (x_m g)) /\
  (x_replySerial g < 0 \/ replySerial m = Some (x_replySerial g)) /\
  asks unique (msg_sender m) /\ asks (sender (x_m g)) (msg_sender m) /\ asks (destination (x_m g)) (msg_destination m) /\
  asks (interface (x_m g)) (msg_interface m) /\ asks (path (x_m g)) (msg_path m) /\ asks (member (x_m g)) (msg_member m) /\
  asks (x_error g) (msg_error m) /\
  (arguments (x_m g) <> [] -> asks_arguments (arguments (x_m g)) (default [] (msg_arguments m))).

(** A match asks for a message: for the owner of the service it follows, if it
    follows one, and for the fields it was given. *)
Definition asks_for (c : Client) (x : ConnMatch) (m : Message) : Prop :=
  (is_Some (m_service x) -> exists u, wanted c x = Some u /\ msg_sender m = Some u) /\ meant_for (m_reg x) None m.

(** The owner of every service that a match follows is known. *)
Definition owners_known (c : Client) : Prop := forall i x, match_heap c !! i = Some x -> is_Some (m_service x) -> is_Some (wanted c x).

Lemma asks_meant (c : Client) (m : Message) (i : matid) (x : ConnMatch) : owners_known c -> match_heap c !! i = Some x ->
  meant_for (m_reg x) (wanted c x) m <-> asks_for c x m.
Proof.
  intros Ho Hx. specialize (Ho i x Hx). unfold asks_for, meant_for. destruct (m_service x) as [s|] eqn:Es.
  - destruct Ho as [u Hu]; [by eexists|]. rewrite Hu. split.
    + intros (H1 & H2 & H3 & H). split; [intros _; exists u; split; [done|by apply H3]|]. split; [done|]. split; [done|]. split; [by intros ?|exact H].
    + intros [H3 (H1 & H2 & _ & H)]. destruct H3 as (v & [= <-] & Hv); [by eexists|]. split; [done|]. split; [done|]. split; [by intros v [= <-]|exact H].
  - assert (Hw : wanted c x = None) by (unfold wanted; by rewrite Es). rewrite Hw. split; [intros H; split; [by intros [? ?]|exact H]|by intros [_ H]].
Qed.

(** The same, as the code tests it: the arguments of the message are parsed. *)
Definition is_for (c : Client) (m : Message) (i : matid) : bool :=
  match match_heap c !! i with
  | None => false
  | Some x => match_fields (m_reg x) (wanted c x) m &&
              match arguments (x_m (m_reg x)) with [] => true | rule => ArgsMatch rule m end
  end.

Lemma Matches_asks (o : option (list Z)) (n : Z) (v : option (list Z)) : sized_field o n -> Matches o n v = true <-> asks o v.
Proof.
  intros Hs. unfold asks. destruct o as [a|]; [|by split]. rewrite (Hs a eq_refl). destruct v as [b|]; cbn [Matches]; [|split; [done|by intros H; specialize (H a eq_refl)]].
  unfold memeq. split.
  - intros [E1 E2]%andb_true_iff s [= <-]. apply Z.eqb_eq in E1. apply list_eqb_eq in E2. unfold len in *. apply Nat2Z.inj in E1.
    rewrite Nat2Z.id, take_ge, take_ge in E2 by lia. by rewrite E2.
  - intros H. specialize (H a eq_refl) as [= ->]. rewrite Z.eqb_refl. by apply list_eqb_eq.
Qed.

Lemma args_match_asks (rule : list Argument) : Forall (fun a => sized_field (arg_value a) (arg_size a)) rule -> forall msg,
  negb (length msg <? length rule)%nat && args_match rule msg = true <-> asks_arguments rule msg.
Proof.
  induction 1 as [|a rule Ha _ IH]; intros msg; unfold asks_arguments.
  - cbn. split; [|by destruct (length msg)]. intros _. split; [lia|done].
  - destruct msg as [|b msg]; [split; [done|intros [H _]; cbn in H; lia]|]. specialize (IH msg).
    assert (El : negb (length (b :: msg) <? length (a :: rule))%nat = negb (length msg <? length rule)%nat)
      by (f_equal; apply eq_true_iff_eq; rewrite !Nat.ltb_lt; cbn [length]; lia). rewrite El. cbn [args_match].
    assert (Hrest : asks_arguments (a :: rule) (b :: msg) <-> asks_arguments rule msg /\
      forall v, arg_value a = Some v -> exists w, arg_value b = Some w /\ arg_size b = len v /\ take (length v) w = v).
    { unfold asks_arguments. cbn [length]. split.
      - intros [H1 H2]. split; [split; [lia|intros k; apply (H2 (S k))]|]. intros v Hv. by destruct (H2 0%nat a v eq_refl Hv) as (? & w & [= <-] & ?); exists w.
      - intros [[H1 H2] H3]. split; [lia|]. intros [|k] x v; cbn [lookup list_lookup]; [intros [= <-] Hv; destruct (H3 v Hv) as (w & ?); by exists b, w|apply H2]. }
    fold (asks_arguments (a :: rule) (b :: msg)). rewrite Hrest, <- IH. destruct (arg_value a) as [v|] eqn:Ev; [|split; [by intros ->|by intros [-> _]]].
    rewrite (Ha v eq_refl). destruct (arg_value b) as [w|]; [|split; [by rewrite andb_false_r|by intros [_ H]; destruct (H v eq_refl) as (? & ? & _)]].
    assert (Em : (arg_size b =? len v) && memeq w v (len v) = true <-> arg_size b = len v /\ take (length v) w = v).
    { unfold memeq, len. rewrite andb_true_iff, Z.eqb_eq, Nat2Z.id, firstn_all, list_eqb_eq. done. }
    rewrite !andb_true_iff, <- andb_true_iff, Em. split; [intros (? & ? & ?); split; [done|]; intros ? [= <-]; by exists w|].
    intros [? H]. destruct (H v eq_refl) as (? & [= <-] & ?). tauto.
Qed.

Lemma is_for_meant (c : Client) (m : Message) (i : matid) (x : ConnMatch) : matches_ok c -> match_heap c !! i = Some x ->
  is_for c m i = true <-> meant_for (m_reg x) (wanted c x) m.
Proof.
  intros H Hx. destruct (mo_sized c H i x Hx) as [S1 S2 S3 S4 S5 S6 S7]. unfold is_for, match_fields, meant_for. rewrite Hx.
  rewrite !andb_true_iff, !Matches_asks by (done || by intros s ->).
  assert (E1 : negb (negb (bool_decide (cm_type (x_m (m_reg x)) = MSG_INVALID)) && negb (bool_decide (msg_type m = cm_type (x_m (m_reg x))))) = true <->
    (cm_type (x_m (m_reg x)) = MSG_INVALID \/ msg_type m = cm_type (x_m (m_reg x)))) by (repeat case_bool_decide; cbn; intuition congruence).
  assert (E2 : negb ((0 <=? x_replySerial (m_reg x)) && match replySerial m with Some n => negb (n =? x_replySerial (m_reg x)) | None => true end) = true <->
    (x_replySerial (m_reg x) < 0 \/ replySerial m = Some (x_replySerial (m_reg x)))).
  { destruct (Z.leb_spec 0 (x_replySerial (m_reg x))), (replySerial m) as [n|]; cbn; try (split; [by left|done]).
    - destruct (Z.eqb_spec n (x_replySerial (m_reg x))); cbn; [subst; split; [by right|done]|split; [done|intros [?|[= ?]]; [lia|done]]].
    - split; [done|intros [?|?]; [lia|done]]. }
  assert (E3 : match arguments (x_m (m_reg x)) with [] => true | rule => ArgsMatch rule m end = true <->
    (arguments (x_m (m_reg x)) <> [] -> asks_arguments (arguments (x_m (m_reg x))) (default [] (msg_arguments m)))).
  { destruct (arguments (x_m (m_reg x))) as [|a rule] eqn:Ea; [by split|]. unfold ArgsMatch. rewrite args_match_asks by done. split; [done|auto]. }
  rewrite E1, E2, E3. tauto.
Qed.

Section Matched.
Context {B : Build} (invoke : nat -> pointer -> Message -> M Client Z) (hand_over : nat -> pointer -> M Client Z -> M Client Z).
(** [m'] is [m] with its arguments parsed, if any match asks for some. *)
Context (c : Client) (m m' : Message) (Hm : exists a, m' = set_arguments a m).
Definition no_arguments : Prop := forall i x, match_heap c !! i = Some x -> arguments (x_m (m_reg x)) = [].
Context (P : (adbus_parseargs m = Ret tt m' /\ adbus_parseargs m' = Ret tt m') \/ (m' = m /\ no_arguments)).

Lemma match_run (i : matid) (x : ConnMatch) : match_heap c !! i = Some x -> match_at i c = Ret x c.
Proof. intros E. unfold match_at, bind, get. by rewrite E. Qed.

Lemma wanted_run (i : matid) (x : ConnMatch) : matches_ok c -> match_heap c !! i = Some x ->
  (match m_service x with Some s => let* sv := service_at s in ret (s_unique sv) | None => ret None end) c = Ret (wanted c x) c.
Proof.
  intros H Hx. unfold wanted. destruct (m_service x) as [s|] eqn:Es; [|done]. destruct (mo_service c H i x s Hx Es) as [sv Hs].
  cbn. rewrite Hs. cbn. unfold service_at, bind, get. by rewrite Hs.
Qed.

Lemma fields_parsed (g : MatchReg) (u : option (list Z)) (n : Message) : n = m \/ n = m' -> match_fields g u n = match_fields g u m.
Proof. destruct Hm as [a ->]. by intros [-> | ->]. Qed.

Lemma parse_either (i : matid) (x : ConnMatch) (n : Message) : match_heap c !! i = Some x -> arguments (x_m (m_reg x)) <> [] -> n = m \/ n = m' ->
  adbus_parseargs n = Ret tt m'.
Proof. intros Hx Hn. destruct P as [[P1 P2]|[_ Hno]]; [by intros [-> | ->]|]. by pose proof (Hno i x Hx). Qed.

(** The call of the callback of a match. *)
Definition call_match (x : ConnMatch) (n : Message) : M Client (Z * Message) :=
  let g := m_reg x in
  let* r := dispatch_by invoke hand_over (x_proxy g) (x_puser g) (x_callback g) (x_cuser g) n in ret (r, n).

Lemma loop_skip (i : matid) (l : list matid) (n : Message) : matches_ok c -> is_Some (match_heap c !! i) -> n = m \/ n = m' ->
  is_for c m' i = false -> exists n', (n' = m \/ n' = m') /\ match_loop invoke hand_over (i :: l) n c = match_loop invoke hand_over l n' c.
Proof.
  intros H [x Hx] Hn Hf. unfold is_for in Hf. rewrite Hx, (fields_parsed _ _ m') in Hf by (by right). cbn [match_loop].
  rewrite (bind_Ret _ _ _ _ _ (match_run i x Hx)), (bind_Ret _ _ _ _ _ (wanted_run i x H Hx)), (fields_parsed _ _ n Hn).
  destruct (match_fields (m_reg x) (wanted c x) m); [|by exists n]. cbn [negb andb] in *.
  pose proof (parse_either i x n Hx) as Hp. destruct (arguments (x_m (m_reg x))) as [|a rule]; [done|]. rewrite (Hp ltac:(done) Hn), Hf. exists m'. split; [by right|done].
Qed.

Lemma loop_call (i : matid) (x : ConnMatch) (l : list matid) (n : Message) : matches_ok c -> match_heap c !! i = Some x -> n = m \/ n = m' ->
  is_for c m' i = true -> exists n', (n' = m \/ n' = m') /\ match_loop invoke hand_over (i :: l) n c = call_match x n' c.
Proof.
  intros H Hx Hn Hf. unfold is_for in Hf. rewrite Hx, (fields_parsed _ _ m') in Hf by (by right). cbn [match_loop].
  rewrite (bind_Ret _ _ _ _ _ (match_run i x Hx)), (bind_Ret _ _ _ _ _ (wanted_run i x H Hx)), (fields_parsed _ _ n Hn).
  apply andb_true_iff in Hf as [-> Hf]. cbn [negb]. pose proof (parse_either i x n Hx) as Hp. destruct (arguments (x_m (m_reg x))) as [|a rule]; [by exists n|].
  rewrite (Hp ltac:(done) Hn), Hf. exists m'. split; [by right|done].
Qed.

Lemma loop_first (l : list matid) : matches_ok c -> (forall i, i ∈ l -> is_Some (match_heap c !! i)) -> forall n, n = m \/ n = m' ->
  exists n', (n' = m \/ n' = m') /\
    match List.find (is_for c m') l with
    | None => match_loop invoke hand_over l n c = Ret (0, n') c
    | Some i => exists x, match_heap c !! i = Some x /\ match_loop invoke hand_over l n c = call_match x n' c
    end.
Proof.
  intros H. induction l as [|i l IH]; intros Hl n Hn; [by exists n|]. cbn [List.find]. destruct (Hl i ltac:(left)) as [x Hx].
  destruct (is_for c m' i) eqn:E.
  - destruct (loop_call i x l n H Hx Hn E) as (n' & Hn' & E'). exists n'. split; [done|]. by exists x.
  - destruct (loop_skip i l n H ltac:(by eexists) Hn E) as (n1 & Hn1 & ->). apply IH; [|done]. intros j Hj. apply Hl. by right.
Qed.

Lemma find_first (p : matid -> bool) (l : list matid) (i : matid) : List.find p l = Some i ->
  exists l1 l2, l = l1 ++ i :: l2 /\ p i = true /\ forall j, j ∈ l1 -> p j = false.
Proof.
  induction l as [|j l IH]; [done|]. cbn [List.find]. destruct (p j) eqn:E.
  - intros [= ->]. exists [], l. split; [done|]. split; [done|]. by intros ? ?%elem_of_nil.
  - intros H. destruct (IH H) as (l1 & l2 & -> & Hp & Hn). exists (j :: l1), l2. split; [done|]. split; [done|]. by intros k [->|Hk]%elem_of_cons; [|apply Hn].
Qed.

(** No match of the list is for the message. *)
Definition nobody (l : list matid) : Prop := forall i x, i ∈ l -> match_heap c !! i = Some x -> ~ meant_for (m_reg x) (wanted c x) m'.

Lemma nobody_find (l : list matid) : matches_ok c -> (forall j, j ∈ l -> is_for c m' j = false) -> nobody l.
Proof. intros H Hl i x Hi Hx Hf. apply (is_for_meant c m' i x H Hx) in Hf. by rewrite (Hl i Hi) in Hf. Qed.

(** The first match of the list that the message is for is called, and no later
    one: of several matches that ask for a message, only the one that was added
    last gets it. *)
Lemma first_match_only : matches_ok c -> exists n, (n = m \/ n = m') /\
  ((nobody (matches c) /\ adbusI_dispatchMatch invoke hand_over m c = Ret (0, n) c) \/
   (exists l1 i l2 x, matches c = l1 ++ i :: l2 /\ nobody l1 /\ match_heap c !! i = Some x /\ meant_for (m_reg x) (wanted c x) m' /\
     adbusI_dispatchMatch invoke hand_over m c = call_match x n c)).
Proof.
  intros H. destruct (loop_first (matches c) H (mo_match c H) m (or_introl eq_refl)) as (n & Hn & E). exists n. split; [done|].
  unfold adbusI_dispatchMatch. rewrite (bind_Ret get _ _ _ _ eq_refl). destruct (List.find _ _) as [i|] eqn:F.
  - right. destruct E as (x & Hx & E). destruct (find_first _ _ _ F) as (l1 & l2 & El & Hi & Hl). exists l1, i, l2, x.
    split_and!; [done|by apply nobody_find|done|by apply (is_for_meant c m' i)|done].
  - left. split; [|done]. apply nobody_find; [done|]. intros j Hj%list_elem_of_In. by apply (List.find_none _ _ F).
Qed.

Definition nobody_asks (l : list matid) : Prop := forall i x, i ∈ l -> match_heap c !! i = Some x -> ~ asks_for c x m'.

End Matched.

(** ** Samples *)

(** A message with string arguments. *)
Fixpoint put_strings {B : Build} (l : list (list Z)) : M Buffer unit :=
  match l with [] => ret tt | s :: l => run* adbus_buf_string s (len s) in put_strings l end.
Definition sample_message {B : Build} (t : MessageType) (l : list (list Z)) (g : MsgFactory -> MsgFactory) : Message :=
  let f := g (adbus_msg_setserial 7 (adbus_msg_settype t adbus_msg_new)) in
  match (run* adbus_buf_setsig (repeat (chr "s") (length l)) (Z.of_nat (length l)) in run* put_strings l in adbus_buf_end) (argbuf f) with
  | Ret _ b => match adbus_msg_build (set_argbuf b f) with Ret m _ => m | _ => msg_zero end
  | _ => msg_zero
  end.

Definition quiet (f : nat) (u : pointer) (m : Message) : M Client Z := ret (Z.of_nat f).
Definition handed (p : nat) (u : pointer) (call : M Client Z) : M Client Z := call.
Definition all_sent : option (Message -> Z) := Some msg_size.
Definition after {A} (d : Client) (o : outcome Client A) : Client := match o with Ret _ c => c | _ => d end.

(** A match of a user for a member of a sender. *)
Definition sample_match (s mem : list Z) (f : nat) : MatchReg :=
  mkMatchReg (mkCMatch MSG_INVALID (Some s) (-1) None (-1) None (-1) None (-1) (Some mem) (-1) [])
    false (-1) None (-1) (Some (UserCallback f)) (User 1) None Null release_zero.
Definition from_bus (mem : list Z) (f : MsgFactory) : MsgFactory :=
  adbus_msg_setsender BUS (-1) (adbus_msg_setmember mem (-1) (adbus_msg_setinterface BUS (-1) (adbus_msg_setpath (str "/org/freedesktop/DBus") (-1) f))).

Section Samples.
#[local] Existing Instance debug_build.
(** A match for the service a.b was added: its owner is asked for. *)
Definition watching : Client := after adbus_conn_new (adbus_conn_addmatch all_sent None (sample_match (str "a.b") (str "M") 3) adbus_conn_new).
Definition owner_signal (owner : list Z) : Message := sample_message MSG_SIGNAL [str "a.b"; []; owner] (from_bus (str "NameOwnerChanged")).
Definition owner_reply (serial : Z) (owner : list Z) : Message :=
  sample_message MSG_RETURN [owner] (fun f => adbus_msg_setreply serial (adbus_msg_setsender BUS (-1) f)).
Definition no_owner (serial : Z) : Message :=
  sample_message MSG_ERROR [] (fun f => adbus_msg_seterror (str "org.freedesktop.DBus.Error.NameHasNoOwner") (-1) (adbus_msg_setreply serial (adbus_msg_setsender BUS (-1) f))).
Definition signal_from (s : list Z) : Message :=
  sample_message MSG_SIGNAL [] (fun f => adbus_msg_setsender s (-1) (adbus_msg_setmember (str "M") (-1) (adbus_msg_setinterface (str "a.I") (-1) (adbus_msg_setpath (str "/") (-1) f)))).

(** Two calls are sent: AddMatch with a rule for the changes, and GetNameOwner. *)
Lemma watching_asks : map (fun e => match e with Sent m => msg_member m | _ => None end) (log watching) = [Some (str "AddMatch"); Some (str "GetNameOwner")] /\
  c_ref watching = 2.
Proof. split; vm_compute; reflexivity. Qed.

(** The reply tells the owner. *)
Lemma owner_learnt : (s_unique <$> service_heap (after watching (adbusI_dispatchReply quiet handed (owner_reply 2 (str ":1.5")) watching)) !! 2%nat) = Some (Some (str ":1.5")).
Proof. vm_compute. reflexivity. Qed.

(** Until then the match is for the messages of any sender. *)
Lemma unresolved_matches_any : is_for watching (signal_from (str ":1.9")) 1%nat = true.
Proof. vm_compute. reflexivity. Qed.

(** A signal that comes before the reply makes the reply stop at an assertion. *)
Definition signalled (owner : list Z) : Client := after watching (adbusI_dispatchMatch quiet handed (owner_signal owner) watching).
Lemma owner_race_stops : returns (adbusI_dispatchMatch quiet handed (owner_signal (str ":1.5")) watching) = true /\
  adbusI_dispatchReply quiet handed (owner_reply 2 (str ":1.5")) (signalled (str ":1.5")) = Abort.
Proof. split; vm_compute; reflexivity. Qed.

(** The error that a name without owner is answered with calls a NULL
    callback. *)
Lemma no_owner_crashes : adbusI_dispatchReply quiet handed (no_owner 2) watching = Oob.
Proof. vm_compute. reflexivity. Qed.

(** When the owner goes away its name is the empty string, and replies that
    are added then wait under that name. *)
Definition lost_reply : outcome Client (option repid) := adbus_conn_addreply all_sent None
  (mkReply 9 (Some (str "a.b")) (-1) (mkReplyHooks (Some (UserCallback 3)) Null None Null None Null release_zero)) (signalled []).
Lemma lost_owner_name : match lost_reply with Ret (Some r) c => bool_decide ((m ← remotes c !! []; x ← remote_heap c !! m; r_replies x !! 9) = Some r) | _ => false end = true.
Proof. vm_compute. reflexivity. Qed.
End Samples.

(** ** Witnesses *)
Lemma serials_distinct_witness : exists l c', serials 3 (adbus_conn_new (B := debug_build)) = Ret l c' /\ length l = 3%nat.
Proof. destruct (serials_distinct (adbus_conn_new (B := debug_build)) 3) as (l & c' & E & H & _); [cbn; lia|]. by exists l, c'. Defined.

(** Two matches of users; the second one is for the signal. *)
Definition two_matches : Client := after (adbus_conn_new (B := debug_build)) ((let* _ := adbus_conn_addmatch (B := debug_build) all_sent None (sample_match (str ":1.8") (str "M") 3) in
  adbus_conn_addmatch (B := debug_build) all_sent None (sample_match (str ":1.9") (str "M") 5)) (adbus_conn_new (B := debug_build))).

Lemma two_matches_ok : matches_ok two_matches /\ no_arguments two_matches.
Proof.
  split; [split|].
  - assert (E : matches two_matches = [2; 1]%nat) by (vm_compute; reflexivity). intros i. rewrite E.
    intros [->|[->|[]%elem_of_nil]%elem_of_cons]%elem_of_cons; vm_compute; by eexists.
  - intros i x Hx. revert i x Hx. apply (map_Forall_to_list (fun _ x => sized_match (m_reg x))). vm_compute.
    repeat constructor; by intros ? [= <-].
  - intros i x s Hx. revert s. revert i x Hx. apply (map_Forall_to_list (fun _ x => forall s, m_service x = Some s -> is_Some (service_heap two_matches !! s))).
    by repeat constructor.
  - intros i x Hx. revert i x Hx. apply (map_Forall_to_list (fun _ x => arguments (x_m (m_reg x)) = [])). by repeat constructor.
Qed.

Lemma two_matches_known : owners_known two_matches.
Proof.
  intros i x Hx. revert i x Hx. apply (map_Forall_to_list (fun _ x => is_Some (m_service x) -> is_Some (wanted two_matches x))).
  repeat constructor; vm_compute; by intros [? ?].
Qed.

