(* ===== verification/Connection.v ===== *)
(** What a connection does with the messages it receives: the handlers of its
    built-in interfaces (adbus/interface.c), the dispatch of a message to
    binds, matches and replies, and cutting messages out of a stream
    (adbus/connection.c).

    Every call that wants a reply gets exactly one; reading the stream in
    pieces does what reading it at once does. *)

From Stdlib Require Import ZArith Lia.
From stdpp Require Import base option list numbers strings gmap.
From S2P Require Import Prelude Objects Introspect Names Signature Iterator Values Buffer MatchRule Message Factory Server Bus Checks Stream Client.
#[local] Open Scope Z_scope.
#[local] Open Scope adbus_scope.

(** ** Handlers

    [cb_iter] is [checkiter] of adbus_CbData, the connection is the client;
    the message, and whether there is a message to reply with ([ret]), are
    arguments. *)
Record CbData := mkCbData { cb_client : Client; cb_iter : option Iterator }.
Definition H (A : Type) : Type := M CbData (A + jump).

Definition lift {A} (op : M Client A) : H A := fun d =>
  match op (cb_client d) with
  | Ret a c => Ret (inl a) (mkCbData c (cb_iter d))
  | Err c => Err (mkCbData c (cb_iter d))
  | Abort => Abort | Oob => Oob | Nofuel => Nofuel
  end.
Definition objects {A} (op : M Objects.Conn A) : H A := lift (on_part op).

Section Connection.
Context {B : Build} (dh_order : forall {A : Type}, gmap (list Z) A -> list (list Z * A)).

(** Callbacks of users for methods and properties: message, whether a reply
    is wanted, callback, [user1], [user2].  [call_by] is what the proxy of a
    bind does with a call; it ends before [call_by] returns. *)
Context (user_call : Message -> bool -> Objects.callback -> Objects.pointer -> Objects.pointer -> H Z).
Context (call_by : forall {S A : Type}, Objects.callback -> Objects.pointer -> M S A -> M S A).

Section Handlers.
Context (m : Message) (has_ret : bool).

(** A function of the library that works on the iterator and the reply. *)
Definition call_op {A} (op : C A) : H A := fun d =>
  match on_call has_ret m (cb_iter d) op (cb_client d) with
  | Ret (r, i) c => Ret r (mkCbData c i)
  | Err c => Err (mkCbData c (cb_iter d))
  | Abort => Abort | Oob => Oob | Nofuel => Nofuel
  end.

(** The object that a built-in interface is bound to. *)
Definition the_object (user2 : Objects.pointer) : H Objects.oid :=
  match user2 with Objects.Object o => done_ o | _ => oob end.

Definition adbusI_introspect (user2 : Objects.pointer) : H Z :=
  then* call_op adbus_check_end in
  if negb has_ret then done_ 0 else
  do* o := the_object user2 in
  do* out := objects (IntrospectNode dh_order o) in
  call_op (then* on_args (adbus_buf_setsig (str "s") 1) in
           then* on_args (adbus_buf_string out (len out)) in
           then* on_args adbus_buf_end in done_ 0).

(** *** Properties *)

(** A call of a handler, directly or through the proxy of the bind. *)
Definition through (h : Objects.Hooks) (call : H Z) : H Z :=
  match Objects.proxy h with Some p => call_by _ _ p (Objects.puser h) call | None => call end.

(** The interface [iname] at the path of the object, with its bind. *)
Definition interface_at (user2 : Objects.pointer) (iname : list Z) : H (option (Objects.iid * Objects.bid)) :=
  do* o := the_object user2 in
  do* ob := objects (Objects.object o) in
  objects (Objects.adbus_conn_interface (Objects.o_path ob) iname).

Definition begin_value (mbr : Objects.Member) : H BufVariant :=
  do* t := call_op (text (Objects.propertyType mbr)) in
  call_op (on_args (adbus_buf_beginvariant t (-1))).

(** The variant is not ended: the signature stays that of the value. *)
Definition ProxiedGetProperty (mbr : Objects.Member) (f : Objects.callback) (user2 : Objects.pointer) : H Z :=
  then* call_op (on_args (adbus_buf_setsig (str "v") 1)) in
  then* begin_value mbr in
  do* err := user_call m has_ret f (Objects.getPropertyData mbr) user2 in
  then* objects (Objects.adbus_iface_deref dh_order (Objects.m_interface mbr)) in
  done_ err.

Definition adbusI_getProperty (user2 : Objects.pointer) : H Z :=
  do* iname := call_op adbus_check_string in
  do* mname := call_op adbus_check_string in
  then* call_op adbus_check_end in
  do* r := interface_at user2 iname in
  match r with
  | None => call_op adbusI_interfaceError
  | Some (i, b) =>
      do* p := objects (Objects.adbus_iface_property i mname) in
      match p with
      | None => call_op adbusI_propertyError
      | Some mbr =>
          match Objects.getPropertyCallback mbr with
          | None => call_op adbusI_propReadError
          | Some f =>
              if negb has_ret then done_ 0 else
              then* objects (Objects.adbus_iface_ref i) in
              do* cb := objects (Objects.bind_at b) in
              let h := Objects.b_hooks cb in
              through h (ProxiedGetProperty mbr f (Objects.cuser2 h))
          end
      end
  end.

(** The return message is an error. *)
Definition ret_is_error : H bool := fun d =>
  Ret (inl (bool_decide (adbus_msg_type (returnMessage (cb_client d)) = MSG_ERROR))) d.

(** The loop over the members; false is the jump to [err]. *)
Fixpoint properties_loop (user2 : Objects.pointer) (a : BufArray) (l : list (list Z * Objects.Member)) : H bool :=
  match l with
  | [] => done_ true
  | (_, mbr) :: l =>
      match bool_decide (Objects.m_type mbr = Objects.PROPERTY), Objects.getPropertyCallback mbr with
      | true, Some callback =>
          then* call_op (on_args (adbus_buf_arrayentry a)) in
          then* call_op (on_args adbus_buf_begindictentry) in
          then* call_op (on_args (adbus_buf_string (Objects.m_name mbr) (len (Objects.m_name mbr)))) in
          do* v := begin_value mbr in
          do* err := user_call m has_ret callback (Objects.getPropertyData mbr) user2 in
          do* failed := ret_is_error in
          if negb (err =? 0) || failed then done_ false else
          then* call_op (on_args (adbus_buf_endvariant v)) in
          then* call_op (on_args adbus_buf_enddictentry) in
          properties_loop user2 a l
      | _, _ => properties_loop user2 a l
      end
  end.

Definition ProxiedGetAllProperties (i : Objects.iid) (user2 : Objects.pointer) : H Z :=
  then* call_op (on_args (adbus_buf_setsig (str "a{sv}") 5)) in
  do* a := call_op (on_args adbus_buf_beginarray) in
  do* x := objects (Objects.iface i) in
  do* ok := properties_loop user2 a (dh_order _ (Objects.members x)) in
  if ok : bool then
    then* call_op (on_args (adbus_buf_endarray a)) in
    then* call_op (on_args adbus_buf_end) in
    then* objects (Objects.adbus_iface_deref dh_order i) in
    done_ 0
  else
    then* objects (Objects.adbus_iface_deref dh_order i) in
    done_ (-1).

Definition adbusI_getAllProperties (user2 : Objects.pointer) : H Z :=
  do* iname := call_op adbus_check_string in
  then* call_op adbus_check_end in
  do* r := interface_at user2 iname in
  match r with
  | None => call_op adbusI_interfaceError
  | Some (i, b) =>
      if negb has_ret then done_ 0 else
      then* objects (Objects.adbus_iface_ref i) in
      do* cb := objects (Objects.bind_at b) in
      let h := Objects.b_hooks cb in
      through h (ProxiedGetAllProperties i (Objects.cuser2 h))
  end.

(** [setprop] is the iterator as it is. *)
Definition ProxiedSetProperty (mbr : Objects.Member) (f : Objects.callback) (user2 : Objects.pointer) : H Z :=
  do* err := user_call m has_ret f (Objects.setPropertyData mbr) user2 in
  then* objects (Objects.adbus_iface_deref dh_order (Objects.m_interface mbr)) in
  done_ err.

Definition adbusI_setProperty (user2 : Objects.pointer) : H Z :=
  do* iname := call_op adbus_check_string in
  do* mname := call_op adbus_check_string in
  do* r := interface_at user2 iname in
  match r with
  | None => call_op adbusI_interfaceError
  | Some (i, b) =>
      do* p := objects (Objects.adbus_iface_property i mname) in
      match p with
      | None => call_op adbusI_propertyError
      | Some mbr =>
          match Objects.setPropertyCallback mbr with
          | None => call_op adbusI_propWriteError
          | Some f =>
              do* v := call_op adbus_check_beginvariant in
              do* t := call_op (text (Objects.propertyType mbr)) in
              if negb (list_eqb t (snd v)) then call_op adbusI_propTypeError else
              then* objects (Objects.adbus_iface_ref i) in
              do* cb := objects (Objects.bind_at b) in
              let h := Objects.b_hooks cb in
              through h (ProxiedSetProperty mbr f (Objects.cuser2 h))
          end
      end
  end.

(** *** The callback of a method *)
Definition handler (f : Objects.callback) (user1 user2 : Objects.pointer) : H Z :=
  if (f =? INTROSPECT)%nat then adbusI_introspect user2
  else if (f =? GET_PROPERTY)%nat then adbusI_getProperty user2
  else if (f =? GET_ALL_PROPERTIES)%nat then adbusI_getAllProperties user2
  else if (f =? SET_PROPERTY)%nat then adbusI_setProperty user2
  else user_call m has_ret f user1 user2.

(** [adbus_dispatch] *)
Definition invoke_method (f : Objects.callback) (user1 user2 : Objects.pointer) : M Client Z := fun c =>
  match handler f user1 user2 (mkCbData c (adbus_iter_args m)) with
  | Ret (inl z) d => Ret z (cb_client d)
  | Ret (inr j) d => Ret (caught j) (cb_client d)
  | Err d => Err (cb_client d)
  | Abort => Abort | Oob => Oob | Nofuel => Nofuel
  end.
End Handlers.

(** ** Dispatch

    [invoke] and [hand_over]: callbacks of users for matches and replies, and
    their proxies (see Client); [send_message] as there. *)
Context (invoke : nat -> Client.pointer -> Message -> M Client Z) (hand_over : nat -> Client.pointer -> M Client Z -> M Client Z).
Context (send_message : option (Message -> Z)).

(** An error reply where no callback runs: there is nothing to jump to. *)
Definition reply_error (m : Message) (has_ret : bool) (op : C Z) : M Client Z :=
  let* r := on_call has_ret m None op in
  match fst r with inl z => ret z | inr _ => oob end.

Definition adbusI_dispatchBind (m : Message) (has_ret : bool) : M Client Z :=
  run* assert_ (bool_decide (msg_path m <> None)) in
  run* assert_ (bool_decide (msg_member m <> None)) in
  let* path := of_option (msg_path m) in
  let* member := of_option (msg_member m) in
  let* a := Objects.adbusI_dispatchBind dh_order (invoke_method m has_ret) (call_by Client Z) path member (msg_interface m) in
  match a with
  | Objects.InterfaceError => reply_error m has_ret adbusI_interfaceError
  | Objects.MethodError => reply_error m has_ret adbusI_methodError
  | Objects.Answered err => ret err
  end.

Definition on_ret (g : MsgFactory -> MsgFactory) : M Client unit := modify (fun c => set_returnMessage (g (returnMessage c)) c).

(** The fields of the reply that the callback need not set. *)
Definition finish_return (m : Message) : M Client unit :=
  let* c := get in
  run* (if bool_decide (adbus_msg_type (returnMessage c) = MSG_INVALID) then on_ret (adbus_msg_settype MSG_RETURN) else ret tt) in
  run* (if adbus_msg_serial (returnMessage c) =? 0
        then let* n := Client.adbus_conn_serial in on_ret (adbus_msg_setserial n) else ret tt) in
  run* on_ret (fun f => adbus_msg_setflags (Z.lor (adbus_msg_flags f) 1) f) in
  run* on_ret (adbus_msg_setreply (msg_serial m)) in
  match msg_sender m with Some s => on_ret (adbus_msg_setdestination s (len s)) | None => ret tt end.

(** [!flags & NO_REPLY] is [(!flags) & 1]. *)
Definition wants_reply (m : Message) : bool := bool_decide (msg_type m = MSG_METHOD) && (msg_flags m =? 0).

(** The result, and whether [d->ret] is still set. *)
Definition Dispatch (m : Message) : M Client (Z * bool) :=
  if msg_size m =? 0 then ret (0, true) else
  let has_ret := wants_reply m in
  run* (if has_ret then on_ret adbus_msg_reset else ret tt) in
  let* failed :=
    (if bool_decide (msg_type m = MSG_METHOD) then
       let* err := adbusI_dispatchBind m has_ret in
       if negb (err =? 0) then ret true
       else run* (if has_ret then finish_return m else ret tt) in ret false
     else ret false) in
  if failed : bool then ret (-1, has_ret) else
  let* x := Client.adbusI_dispatchMatch invoke hand_over m in
  if negb (fst x =? 0) then ret (1, has_ret) else
  let* e := Client.adbusI_dispatchReply invoke hand_over (snd x) in
  ret (if e =? 0 then 0 else 1, has_ret).

Definition adbus_conn_dispatch (m : Message) : M Client Z :=
  if msg_size m =? 0 then ret 0 else
  let* r := Dispatch m in
  if negb (fst r =? 0) then ret (-1) else
  run* (if (snd r) : bool then
          let* c := get in
          let* x := Client.adbus_msg_send send_message (returnMessage c) in
          modify (set_returnMessage (snd x))
        else ret tt) in
  ret 0.

Definition adbus_conn_parse (addr : Z) : M (Client * Buffer) Z := parse_buffer adbus_conn_dispatch addr.
End Connection.
