(* ===== verification/Answering.v ===== *)
(** The replies of a connection: every method call that wants a reply gets
    exactly one, addressed to its sender with the serial of the call, whether
    it is answered by a callback, by the properties of an object, or with an
    error (adbus/connection.c, adbus/bind.c, adbus/interface.c). *)

From Stdlib Require Import ZArith Lia.
From stdpp Require Import base option list numbers strings gmap.
From S2P Require Import Prelude Objects Names Signature Iterator Values Buffer MatchRule Message Factory Server Bus Checks Client Watching Connection.
#[local] Open Scope Z_scope.
#[local] Open Scope adbus_scope.

(** ** The finished reply *)

(** What the connection adds to the reply of a callback; [n] is its serial. *)
Definition completed (m : Message) (n : Z) (f : MsgFactory) : MsgFactory :=
  let f := if bool_decide (messageType f = MSG_INVALID) then adbus_msg_settype MSG_RETURN f else f in
  let f := adbus_msg_setreply (msg_serial m) (adbus_msg_setflags (Z.lor (flags f) 1) (adbus_msg_setserial n f)) in
  match msg_sender m with Some s => adbus_msg_setdestination s (len s) f | None => f end.

(** The reply that a callback set up can be sent as a reply to [m]. *)
Definition reply_ready (m : Message) (f : MsgFactory) : Prop := wf_factory (completed m 1 f) /\ serial f < 2 ^ 32.

(** No match is for the message, whatever its arguments are. *)
Definition no_match (c : Client) (m : Message) : Prop :=
  Forall (fun i => exists x, match_heap c !! i = Some x /\
    (forall s, m_service x = Some s -> is_Some (service_heap c !! s)) /\ match_fields (m_reg x) (wanted c x) m = false) (matches c).

(** The message [x] is the reply to [m] that [f] was set up for. *)
Record replies_to (m : Message) (f : MsgFactory) (x : Message) : Prop := {
  rt_type : msg_type x = if bool_decide (messageType f = MSG_INVALID) then MSG_RETURN else messageType f;
  rt_reply : replySerial x = Some (msg_serial m);
  rt_destination : forall s, msg_sender m = Some s -> msg_destination x = field_str s;
  rt_serial : 1 <= msg_serial x < 2 ^ 32;
  rt_flags : Z.testbit (msg_flags x) 0 = true;
  rt_error : msg_error x = field_str (f_error f);
  rt_signature : signature x = if 0 <? len (b_data (argbuf f)) then Some (adbus_buf_sig (argbuf f)) else None;
  rt_args : argdata x = b_data (argbuf f) }.

Section Finish.
Context {B : Build}.

Lemma wf_serial_any (n k : Z) (f : MsgFactory) : 0 <= n < 2 ^ 32 -> wf_factory (adbus_msg_setserial k f) -> wf_factory (adbus_msg_setserial n f).
Proof. intros Hn []. by split. Qed.

Lemma completed_serial (m : Message) (n k : Z) (f : MsgFactory) : adbus_msg_setserial n (completed m k f) = completed m n f.
Proof. unfold completed. destruct (bool_decide _), (msg_sender m); reflexivity. Qed.

Lemma completed_set (m : Message) (n k : Z) (f : MsgFactory) : completed m n (adbus_msg_setserial k f) = completed m n f.
Proof. unfold completed. cbn [messageType adbus_msg_setserial]. destruct (bool_decide _), (msg_sender m); reflexivity. Qed.

Lemma ready_any (m : Message) (n : Z) (f : MsgFactory) : 0 <= n < 2 ^ 32 -> reply_ready m f -> wf_factory (completed m n f).
Proof. intros Hn [H _]. rewrite <- (completed_serial m 1 1) in H. rewrite <- (completed_serial m n 1). by apply (wf_serial_any n 1). Qed.

(** The message that is built from the finished reply. *)
Lemma completed_built (m : Message) (n : Z) (f : MsgFactory) : 1 <= n < 2 ^ 32 -> wf_factory (completed m n f) ->
  exists x f', adbus_msg_build (completed m n f) = Ret x f' /\ replies_to m f x.
Proof.
  intros Hn Hw. destruct (msg_build_ok _ Hw) as (arr & sp & E). cbv zeta in E. eexists _, _. split; [exact E|].
  assert (Ea : b_data (argbuf (completed m n f)) = b_data (argbuf f)) by (unfold completed; by destruct (bool_decide _), (msg_sender m)).
  assert (Eb : argbuf (completed m n f) = argbuf f) by (unfold completed; by destruct (bool_decide _), (msg_sender m)).
  split.
  - unfold completed, built_message. by destruct (bool_decide _), (msg_sender m).
  - unfold completed, built_message. by destruct (bool_decide _), (msg_sender m).
  - intros s Hs. unfold completed, built_message. rewrite Hs. unfold adbus_msg_setdestination, str_arg. rewrite (proj2 (Z.ltb_ge _ _)) by apply len_nonneg.
    unfold len. rewrite Nat2Z.id, firstn_all. by destruct (bool_decide _).
  - assert (Es : serial (completed m n f) = n) by (unfold completed; by destruct (bool_decide _), (msg_sender m)).
    unfold built_message. cbn [msg_serial serial set_buf]. rewrite Es, Z.mod_small by lia. lia.
  - assert (Es : flags (completed m n f) = Z.lor (flags f) 1) by (unfold completed; by destruct (bool_decide _), (msg_sender m)).
    unfold built_message. cbn [msg_flags flags set_buf]. rewrite Es, Z.lor_spec, orb_true_iff. by right.
  - unfold completed, built_message. by destruct (bool_decide _), (msg_sender m).
  - unfold built_message. cbn [signature argbuf set_buf]. unfold adbus_buf_size, b_size. rewrite Ea, Eb. reflexivity.
  - rewrite built_args by done. exact Ea.
Qed.
End Finish.

Section Reply.
Context {B : Build} (dh_order : forall A : Type, gmap (list Z) A -> list (list Z * A)).
Context (user_call : Message -> bool -> Objects.callback -> Objects.pointer -> Objects.pointer -> H Z).
Context (call_by : forall S A : Type, Objects.callback -> Objects.pointer -> M S A -> M S A).
Context (invoke : nat -> Client.pointer -> Message -> M Client Z) (hand_over : nat -> Client.pointer -> M Client Z -> M Client Z) (send : Message -> Z).
Notation dispatch_bind := (Connection.adbusI_dispatchBind dh_order user_call call_by).
Notation conn_dispatch := (adbus_conn_dispatch dh_order user_call call_by invoke hand_over (Some send)).

(** The connection when the objects get a call. *)
Definition reset_return (c : Client) : Client := set_returnMessage (adbus_msg_reset (returnMessage c)) c.

Lemma serial_step (c : Client) : 1 <= nextSerial c < 2 ^ 32 -> let n := serial_now (nextSerial c) in
  Client.adbus_conn_serial c = Ret n (set_nextSerial (n + 1) c) /\ 1 <= n < 2 ^ 32 - 1.
Proof. intros Hc n. split; [reflexivity|]. unfold n, serial_now. destruct (Z.eqb_spec (nextSerial c) (2 ^ 32 - 1)); lia. Qed.

Lemma on_ret_run (g : MsgFactory -> MsgFactory) (c : Client) : on_ret g c = Ret tt (set_returnMessage (g (returnMessage c)) c).
Proof. reflexivity. Qed.

Lemma finish_run (m : Message) (c : Client) : 1 <= nextSerial c < 2 ^ 32 -> exists n k, n <> 0 /\ 1 <= k < 2 ^ 32 /\
  (n = serial (returnMessage c) \/ 1 <= n < 2 ^ 32) /\
  finish_return m c = Ret tt (set_nextSerial k (set_returnMessage (completed m n (returnMessage c)) c)).
Proof.
  intros Hc. destruct (serial_step c Hc) as [_ Hn]. set (f := returnMessage c).
  set (n := if serial f =? 0 then serial_now (nextSerial c) else serial f).
  exists n, (if serial f =? 0 then serial_now (nextSerial c) + 1 else nextSerial c). unfold n. split_and!; try (destruct (Z.eqb_spec (serial f) 0); lia).
  unfold finish_return. rewrite (bind_Ret get _ _ _ _ eq_refl). unfold completed, adbus_msg_type, adbus_msg_serial, adbus_msg_flags. fold f.
  destruct (bool_decide (messageType f = MSG_INVALID)), (serial f =? 0), (msg_sender m); unfold f; destruct c as [????????????????????[]???]; reflexivity.
Qed.

Lemma send_run (m : Message) (n : Z) (f : MsgFactory) (c : Client) : 1 <= nextSerial c < 2 ^ 32 -> n <> 0 -> n < 2 ^ 32 -> reply_ready m f ->
  returnMessage c = completed m n f -> exists x c',
  (let* c := get in let* x := Client.adbus_msg_send (Some send) (returnMessage c) in modify (set_returnMessage (snd x))) c = Ret tt c' /\
  replies_to m f x /\ log c' = log c ++ [Sent x] /\ conn c' = conn c.
Proof.
  intros Hc Hn Hn2 Hr Ef. destruct (serial_step c Hc) as [Es Hk]. cbv zeta in Es. set (k := serial_now (nextSerial c)) in *.
  rewrite (bind_Ret get _ _ _ _ eq_refl), Ef. unfold Client.adbus_msg_send, adbus_msg_serial.
  assert (Eserial : serial (completed m n f) = n) by (unfold completed; by destruct (bool_decide _), (msg_sender m)). rewrite Eserial.
  set (n' := if n <? 0 then k else n). set (c1 := if n <? 0 then set_nextSerial (k + 1) c else c).
  assert (E1 : (if n <? 0 then let* k := Client.adbus_conn_serial in ret (adbus_msg_setserial k (completed m n f)) else ret (completed m n f) : M Client MsgFactory) c =
               Ret (completed m n' f) c1).
  { unfold n', c1. destruct (n <? 0); [|done]. rewrite (bind_Ret _ _ _ _ _ Es). unfold ret. by rewrite completed_serial. }
  assert (Hn' : 1 <= n' < 2 ^ 32) by (unfold n'; destruct (Z.ltb_spec n 0); lia).
  destruct (completed_built m n' f Hn' (ready_any m n' f ltac:(lia) Hr)) as (x & f' & E2 & Hx). 
  pose proof (rt_serial _ _ _ Hx). exists x. eexists. split; [|split; [exact Hx|]].
  - rewrite bind_assoc, (bind_Ret _ _ _ _ _ E1), E2. unfold adbus_conn_send. rewrite (proj2 (Z.eqb_neq (msg_serial x) 0)) by lia. cbn [negb].
    rewrite !bind_assoc, (bind_Ret (assert_ true) _ _ _ tt eq_refl). reflexivity.
  - unfold c1. by destruct (n <? 0).
Qed.

Lemma no_match_run (m : Message) (c : Client) : no_match c m -> Client.adbusI_dispatchMatch invoke hand_over m c = Ret (0, m) c.
Proof.
  intros Hm. unfold Client.adbusI_dispatchMatch. rewrite (bind_Ret get _ _ _ _ eq_refl). unfold no_match in Hm. induction Hm as [|i l (x & Hx & Hs & Hf) _ IH]; [done|].
  cbn [Client.match_loop]. rewrite (bind_Ret _ _ _ _ _ (match_run c i x Hx)). erewrite bind_Ret.
  2:{ instantiate (1 := c). instantiate (1 := wanted c x). unfold wanted. destruct (m_service x) as [s|]; [|done]. destruct (Hs s eq_refl) as [sv E].
      unfold service_at. rewrite bind_assoc, (bind_Ret get _ _ _ _ eq_refl), E. cbn. by rewrite E. }
  rewrite Hf. exact IH.
Qed.

(** A call whose dispatch to the objects succeeded, when no match is for it. *)
Lemma dispatch_replied (m : Message) (c c1 : Client) : wants_reply m = true -> msg_size m <> 0 ->
  dispatch_bind m true (set_returnMessage (adbus_msg_reset (returnMessage c)) c) = Ret 0 c1 ->
  1 <= nextSerial c1 < 2 ^ 32 -> reply_ready m (returnMessage c1) -> no_match c1 m ->
  exists x c', conn_dispatch m c = Ret 0 c' /\ replies_to m (returnMessage c1) x /\ log c' = log c1 ++ [Sent x] /\ conn c' = conn c1.
Proof.
  intros Hw Hsz E1 Hc Hr Hm. unfold adbus_conn_dispatch, Dispatch. rewrite (proj2 (Z.eqb_neq _ _) Hsz), Hw.
  apply andb_true_iff in Hw as [Ht Hfl]. rewrite Ht. apply bool_decide_eq_true in Ht.
  rewrite bind_assoc, (bind_Ret _ _ _ _ _ (on_ret_run adbus_msg_reset c)). rewrite !bind_assoc, (bind_Ret _ _ _ _ _ E1). cbn [Z.eqb negb].
  destruct (finish_run m c1 Hc) as (n & k & Hn & Hk & Hn2 & E2). rewrite !bind_assoc, (bind_Ret _ _ _ _ _ E2). set (c2 := set_nextSerial k _).
  rewrite (bind_Ret (ret false) _ c2 c2 false eq_refl). assert (Hm2 : no_match c2 m) by exact Hm.
  rewrite bind_assoc, (bind_Ret _ _ _ _ _ (no_match_run m c2 Hm2)). cbn [fst snd Z.eqb negb].
  assert (E3 : Client.adbusI_dispatchReply invoke hand_over m c2 = Ret 0 c2) by (unfold Client.adbusI_dispatchReply; by rewrite Ht).
  rewrite bind_assoc, (bind_Ret _ _ _ _ _ E3). rewrite (bind_Ret (ret _) _ c2 c2 (0, true) eq_refl). cbn [fst snd Z.eqb negb].
  destruct (send_run m n (returnMessage c1) c2) as (x & c' & E4 & Hx & Hl & Ho); [done|done|destruct Hr as [_ ?]; lia|done|done|].
  exists x, c'. rewrite (bind_Ret _ _ _ _ _ E4). by split_and!.
Qed.

(** *** Errors *)

(** A method call that wants a reply, with short names. *)
Record call_ok (m : Message) (s p i n : list Z) : Prop := {
  co_wants : wants_reply m = true;
  co_size : msg_size m <> 0;
  co_serial : 0 <= msg_serial m < 2 ^ 32;
  co_sender : msg_sender m = Some s /\ field_text s;
  co_path : msg_path m = Some p /\ field_text p;
  co_interface : msg_interface m = Some i /\ field_text i;
  co_member : msg_member m = Some n /\ field_text n }.

(** The connection can reply: the path of its return message was never set. *)
Record can_reply (c : Client) (m : Message) : Prop := {
  cr_serial : 1 <= nextSerial c < 2 ^ 32;
  cr_path : f_path (returnMessage c) = [];
  cr_match : no_match c m }.

Definition is_error (m : Message) (name e : list Z) (x : Message) : Prop :=
  msg_type x = MSG_ERROR /\ msg_error x = Some name /\ replySerial x = Some (msg_serial m) /\
  (forall s, msg_sender m = Some s -> msg_destination x = field_str s) /\ signature x = Some (str "s") /\ argdata x = enc 0 (VStr STRING e).

(** The message is refused: one error reply is sent and nothing else happens to
    the objects. *)
Definition refuses (m : Message) (name e : list Z) (c : Client) : Prop := exists x c',
  conn_dispatch m c = Ret 0 c' /\ log c' = log c ++ [Sent x] /\ conn c' = conn c /\ is_error m name e x.

Lemma error_ready (m : Message) (s p i n name e : list Z) (k : Z) (f : MsgFactory) (b : Buffer) : call_ok m s p i n -> field_text name -> name <> [] ->
  len e < 2 ^ 31 -> f_path f = [] -> 1 <= k < 2 ^ 32 -> holds_text e b -> reply_ready m (set_argbuf b (error_factory name m k f)).
Proof.
  intros [Hw Hsz Hs [Es Hts] _ _ _] Hn Hne Hl Hp Hk (Hb1 & Hb2 & Hb3). set (g := set_argbuf b (error_factory name m k f)).
  assert (Hg : completed m 1 g = adbus_msg_setdestination s (len s) (adbus_msg_setserial 1 g)).
  { unfold completed, g, error_factory. rewrite Es. destruct (msg_destination m); reflexivity. }
  assert (Ht : messageType g = MSG_ERROR /\ flags g = 1 /\ f_replySerial g = msg_serial m /\ f_interface g = [] /\ f_member g = [] /\ f_sender g = [] /\
    f_path g = [] /\ f_error g = name /\ serial g = k).
  { unfold g, error_factory, adbus_msg_seterror, str_arg. rewrite (proj2 (Z.ltb_ge _ _)) by apply len_nonneg. unfold len. rewrite Nat2Z.id, firstn_all.
    by destruct (msg_destination m). }
  destruct Ht as (T1 & T2 & T3 & T4 & T5 & T6 & T7 & T8 & T9). split; [|by rewrite T9; lia]. rewrite Hg.
  assert (Hlen : len (b_data b) < 2 ^ 32).
  { rewrite Hb1. change (enc 0 (VStr STRING e)) with (enc_string 0 e). unfold enc_string. rewrite !len_app, len_zeros_pad, len_le_bytes by auto with adbus.
    change (pad 0 4) with 0. unfold len in *. cbn [length]. lia. }
  assert (Hd : f_destination (adbus_msg_setdestination s (len s) (adbus_msg_setserial 1 g)) = s).
  { cbn. unfold str_arg. rewrite (proj2 (Z.ltb_ge _ _)) by apply len_nonneg. unfold len. by rewrite Nat2Z.id, firstn_all. }
  apply wf_short; rewrite ?Hd; cbn [serial flags f_replySerial f_interface f_member f_error f_destination f_sender f_path argbuf adbus_msg_setdestination adbus_msg_setserial];
    rewrite ?T2, ?T3, ?T4, ?T5, ?T6, ?T7, ?T8; try apply field_text_nil; try done.
  - unfold ready. cbn [messageType f_error adbus_msg_setdestination adbus_msg_setserial]. rewrite T1, T8. apply Z.ltb_lt. destruct name; [done|unfold len; cbn [length]; lia].
  - unfold adbus_buf_sig, g. cbn [argbuf set_argbuf]. rewrite Hb2. by apply bytes_forallb.
  - unfold adbus_buf_sig, g. cbn [argbuf set_argbuf]. by rewrite Hb2.
Qed.

(** A function that only sets up an error reply. *)
Lemma reply_error_run (m : Message) (op : C Z) (name e : list Z) (c : Client) :
  (forall d, c_msg d = m -> op d = adbus_errorf name e d) -> bytes e -> no_nul e -> len e < 2 ^ 32 -> let n := serial_now (nextSerial c) in
  exists b, reply_error m true op c = Ret 0 (set_nextSerial (n + 1) (set_returnMessage (set_argbuf b (error_factory name m n (returnMessage c))) c)) /\ holds_text e b.
Proof.
  intros Hop H1 H2 H3 n. set (d := mkCall server_zero m (Some (returnMessage c)) None (nextSerial c)).
  destruct (error_exact name (Some e) d (returnMessage c) eq_refl) as (b & E & Hb); [by intros ? [= <-]|]. exists b. split; [|exact Hb].
  unfold reply_error, on_call. rewrite (bind_Ret _ _ c (set_nextSerial (n + 1) (set_returnMessage (set_argbuf b (error_factory name m n (returnMessage c))) c)) (inl 0, None)); [done|].
  fold d. rewrite (Hop d eq_refl). unfold adbus_errorf. rewrite E. reflexivity.
Qed.

(** The state after an error was set up in [c]. *)
Definition error_state (m : Message) (name : list Z) (b : Buffer) (c : Client) : Client :=
  let n := serial_now (nextSerial c) in
  set_nextSerial (n + 1) (set_returnMessage (set_argbuf b (error_factory name m n (returnMessage c))) c).

Lemma refused (m : Message) (s p i n name e : list Z) (b : Buffer) (c : Client) : call_ok m s p i n -> can_reply c m -> holds_text e b ->
  dispatch_bind m true (reset_return c) = Ret 0 (error_state m name b (reset_return c)) -> len e < 2 ^ 31 -> field_text name -> name <> [] -> refuses m name e c.
Proof.
  intros Hc [Hs Hp Hm] Hb E H3 H4 H5. destruct (serial_step c Hs) as [_ Hk]. cbv zeta in Hk.
  set (k := serial_now (nextSerial c)) in *. set (c1 := error_state _ _ _ _) in E.
  destruct (dispatch_replied m c c1 (co_wants _ _ _ _ _ Hc) (co_size _ _ _ _ _ Hc) E) as (x & c' & E' & Hx & Hl & Ho).
  { change (nextSerial c1) with (k + 1). lia. } { apply (error_ready m s p i n name e k (returnMessage (reset_return c)) b); try done; lia. } { exact Hm. }
  exists x, c'. split; [done|]. split; [done|]. split; [done|]. destruct Hx as [X1 X2 X3 _ _ X4 X5 X6]. destruct Hb as (B1 & B2 & _).
  set (g := returnMessage c1) in *. assert (Hg : messageType g = MSG_ERROR /\ f_error g = name /\ argbuf g = b).
  { unfold g, c1, error_state, error_factory, adbus_msg_seterror, str_arg. cbn. rewrite (proj2 (Z.ltb_ge _ _)) by apply len_nonneg. unfold len. rewrite Nat2Z.id, firstn_all.
    by destruct (msg_destination m). }
  destruct Hg as (G1 & G2 & G3). split_and!; [by rewrite X1, G1|rewrite X4, G2; by destruct name|done|done| |by rewrite X6, G3].
  rewrite X5, G3. unfold adbus_buf_sig. rewrite B2. rewrite (proj2 (Z.ltb_lt _ _)); [done|]. rewrite B1. change (enc 0 (VStr STRING e)) with (enc_string 0 e).
  unfold enc_string. rewrite !len_app, len_le_bytes. pose proof (len_nonneg (zeros (pad 0 4))). pose proof (len_nonneg e). change (len [0]) with 1. lia.
Qed.

Lemma refuses_run (m : Message) (s p i n name e : list Z) (op : C Z) (c : Client) : call_ok m s p i n -> can_reply c m ->
  dispatch_bind m true (reset_return c) = reply_error m true op (reset_return c) ->
  (forall d, c_msg d = m -> op d = adbus_errorf name e d) -> bytes e -> no_nul e -> len e < 2 ^ 31 -> field_text name -> name <> [] -> refuses m name e c.
Proof.
  intros Hc Hr E Hop H1 H2 H3 H4 H5. destruct (reply_error_run m op name e (reset_return c) Hop H1 H2) as (b & Er & Hb); [lia|]. rewrite Er in E.
  by apply (refused m s p i n name e b).
Qed.

(** *** Calls to exported interfaces *)
Context (ifs : gmap Objects.iid Objects.Interface) (intro props : Objects.iid) (nI nP : list Z).
Context (Hd : forall A (g : gmap (list Z) A), Permutation (dh_order A g) (map_to_list g)) (F : Objects.ifaces_good ifs intro props nI nP).
Context (Hby : forall A p u (call : M Client A), call_by Client A p u call = call).
Notation reached := (Objects.reached dh_order ifs intro props nI nP).
Notation invoke_method := (invoke_method dh_order user_call call_by).

Definition no_interface (p i : list Z) : list Z := str "The path '" ++ p ++ str "' does not export the interface '" ++ i ++ str "'.".
Definition no_method (p i n : list Z) : list Z := str "The path '" ++ p ++ str "' does not export the method '" ++ i ++ str "." ++ n ++ str "'.".

(** The state in which a callback of interface [i] starts: the return message
    is reset, and the interface is held. *)
Definition holding (i : Objects.iid) (y : Objects.Interface) (c : Client) : Client := set_conn (Objects.held (conn c) i y) (reset_return c).

(** The callback that a name denotes in an interface. *)
Definition callback_of (i : Objects.iid) (n : list Z) : option (Objects.Member * Objects.callback) :=
  mb ← Objects.method_of ifs i n; f ← Objects.methodCallback mb; Some (mb, f).

Lemma texts_ok (p i n : list Z) : field_text p -> field_text i -> field_text n ->
  (bytes (no_interface p i) /\ no_nul (no_interface p i) /\ len (no_interface p i) < 2 ^ 31) /\
  (bytes (no_method p i n) /\ no_nul (no_method p i n) /\ len (no_method p i n) < 2 ^ 31).
Proof.
  intros Hp Hi Hn. split.
  - assert (T : bytes (no_interface p i) /\ no_nul (no_interface p i) /\ len (no_interface p i) < 2 ^ 27 + (2 ^ 20 + (2 ^ 27 + (2 ^ 20 + 2 ^ 27))))
      by (unfold no_interface; plain_parts). destruct T as (? & ? & ?). split_and!; [done|done|lia].
  - assert (T : bytes (no_method p i n) /\ no_nul (no_method p i n) /\ len (no_method p i n) < 2 ^ 27 + (2 ^ 20 + (2 ^ 27 + (2 ^ 20 + (2 ^ 27 + (2 ^ 20 + 2 ^ 27))))))
      by (unfold no_method; plain_parts). destruct T as (? & ? & ?). split_and!; [done|done|lia].
Qed.

(** A call that asks for no reply: ADBUS_MSG_NO_REPLY is the lowest flag. *)
Record flagged_call (m : Message) (p i n : list Z) : Prop := {
  fc_type : msg_type m = MSG_METHOD;
  fc_flags : Z.testbit (msg_flags m) 0 = true;
  fc_size : msg_size m <> 0;
  fc_path : msg_path m = Some p;
  fc_interface : msg_interface m = Some i;
  fc_member : msg_member m = Some n }.

(** The dispatch succeeds without a message and without a change of the objects. *)
Definition unanswered (m : Message) (c : Client) : Prop := exists c', conn_dispatch m c = Ret 0 c' /\ log c' = log c /\ conn c' = conn c.

(** The dispatch to the objects, once path and member are there. *)
Lemma named_run (m : Message) (r : bool) (p i n : list Z) (c : Client) : msg_path m = Some p -> msg_interface m = Some i -> msg_member m = Some n -> dispatch_bind m r c =
  (let* a := Objects.adbusI_dispatchBind dh_order (invoke_method m r) (call_by Client Z) p n (Some i) in
   match a with
   | Objects.InterfaceError => reply_error m r adbusI_interfaceError
   | Objects.MethodError => reply_error m r adbusI_methodError
   | Objects.Answered err => ret err
   end) c.
Proof. intros Ep Ei En. unfold Connection.adbusI_dispatchBind. rewrite Ep, En, Ei. reflexivity. Qed.

Lemma bind_run (m : Message) (s p i n : list Z) (c : Client) : call_ok m s p i n -> dispatch_bind m true c =
  (let* a := Objects.adbusI_dispatchBind dh_order (invoke_method m true) (call_by Client Z) p n (Some i) in
   match a with
   | Objects.InterfaceError => reply_error m true adbusI_interfaceError
   | Objects.MethodError => reply_error m true adbusI_methodError
   | Objects.Answered err => ret err
   end) c.
Proof. intros [_ _ _ _ [Ep _] [Ei _] [En _]]. by apply named_run. Qed.

(** The errors of calls, as texts. *)
Lemma interface_error_text (m : Message) (s p i n : list Z) (d : Call) : call_ok m s p i n -> c_msg d = m ->
  adbusI_interfaceError d = adbus_errorf (str "nz.co.foobar.adbus.InvalidInterface") (no_interface p i) d.
Proof.
  intros [_ _ _ _ [Ep _] [Ei _] _] Hm. unfold adbusI_interfaceError. rewrite (bind_Ret get _ _ _ _ eq_refl), Hm, Ep, Ei. reflexivity.
Qed.
Lemma method_error_text (m : Message) (s p i n : list Z) (d : Call) : call_ok m s p i n -> c_msg d = m ->
  adbusI_methodError d = adbus_errorf (str "nz.co.foobar.adbus.InvalidMethod") (no_method p i n) d.
Proof.
  intros [_ _ _ _ [Ep _] [Ei _] [En _]] Hm. unfold adbusI_methodError. rewrite (bind_Ret get _ _ _ _ eq_refl), Hm, Ep, Ei, En. reflexivity.
Qed.

(** The state of the connection with a reference to interface [i] held for a call. *)
Definition with_iface (i : Objects.iid) (y : Objects.Interface) (c : Client) : Client := set_conn (Objects.held (conn c) i y) c.

(** The callback that was found is run once, and the reference it had is dropped. *)
Lemma method_runs (m : Message) (r : bool) (own : Objects.iid -> Z) (E : gmap (list Z * list Z) Objects.Export) (evs : list Objects.event) (w : Client) (p i n : list Z)
  (e : Objects.Export) (mb : Objects.Member) (f : Objects.callback) :
  reached own E evs (conn w) -> ~ Objects.builtin nI nP i -> E !! (p, i) = Some e -> callback_of (Objects.x_iface e) n = Some (mb, f) ->
  exists y, Objects.ifaces (conn w) !! Objects.x_iface e = Some y /\
  forall c1 own1 E1 evs1, invoke_method m r f (Objects.methodData mb) (Objects.cuser2 (Objects.x_hooks e)) (with_iface (Objects.x_iface e) y w) = Ret 0 c1 ->
    Objects.same_refs (Objects.taken own (Objects.x_iface e)) own1 -> reached own1 E1 evs1 (conn c1) ->
    exists c2, Objects.adbusI_dispatchBind dh_order (invoke_method m r) (call_by Client Z) p n (Some i) w = Ret (Objects.Answered 0) (set_conn c2 c1).
Proof.
  intros R Hbu Ee Ef. destruct (Objects.reached_models dh_order ifs intro props nI nP Hd F own E evs (conn w) R) as [M _].
  assert (M0 : Objects.models ifs nI nP own E (part w)) by exact M.
  unfold callback_of in Ef. destruct (Objects.method_of ifs (Objects.x_iface e) n) as [mb'|] eqn:Em; [|done]. cbn [mbind option_bind] in Ef.
  destruct (Objects.methodCallback mb') as [f'|] eqn:Emf; [|done]. cbn [mbind option_bind] in Ef. injection Ef as -> ->.
  pose proof (Objects.method_iface ifs intro props nI nP F _ _ _ Em) as Emi.
  destruct (Objects.mbr_call_exact dh_order ifs nI nP (invoke_method m r) (call_by Client Z) own E w p i e mb M0 Ee Emi) as (y & Hy & Ey).
  exists y. split; [exact Hy|]. intros c1 own1 E1 evs1 Ei Hs R1.
  assert (Hfree : exists c2, Objects.adbus_iface_deref dh_order (Objects.x_iface e) (conn c1) = Ret tt c2).
  { destruct (Objects.export_user ifs nI nP own E (conn w) p i e M Ee) as (x & _ & Hu & _).
    destruct (Objects.models_free dh_order ifs intro props nI nP Hd F own1 E1 (conn c1) (Objects.x_iface e) x
      (proj1 (Objects.reached_models dh_order ifs intro props nI nP Hd F _ _ _ _ R1)) Hu) as (c2 & E2 & _); [|by exists c2].
    rewrite Hs. unfold Objects.taken. rewrite decide_True by done. destruct (Objects.b_refs _ _ _ _ _ _ (proj2 (Objects.m_ok _ _ _ _ _ _ M)) _ y Hy). lia. }
  destruct Hfree as [c2 Efree]. exists c2.
  assert (Ec : Objects.DoCall dh_order (invoke_method m r) mb f (Objects.cuser2 (Objects.x_hooks e)) (with_iface (Objects.x_iface e) y w) = Ret 0 (set_conn c2 c1)).
  { unfold Objects.DoCall. rewrite (bind_Ret _ _ _ _ _ Ei), Emi, (bind_Ret _ _ _ _ _ (on_part_Ret _ c1 _ _ Efree)). reflexivity. }
  rewrite (Objects.bind_dispatch_exact dh_order ifs nI nP (invoke_method m r) (call_by Client Z) own E w p i n M0 Hbu), Ee, Em, Ey, Emf.
  change (set_part _ w) with (with_iface (Objects.x_iface e) y w). unfold Objects.called.
  destruct (Objects.proxy (Objects.x_hooks e)) as [pr|]; [by erewrite bind_Ret by (rewrite Hby; exact Ec)|by rewrite (bind_Ret _ _ _ _ _ Ec)].
Qed.

(** What the dispatch to the objects says when there is nothing to call. *)
Lemma method_missing (m : Message) (r : bool) (own : Objects.iid -> Z) (E : gmap (list Z * list Z) Objects.Export) (evs : list Objects.event) (w : Client) (p i n : list Z) :
  reached own E evs (conn w) -> ~ Objects.builtin nI nP i ->
  let run := Objects.adbusI_dispatchBind dh_order (invoke_method m r) (call_by Client Z) p n (Some i) w in
  match E !! (p, i) with
  | None => run = Ret Objects.InterfaceError w
  | Some e => callback_of (Objects.x_iface e) n = None -> run = Ret Objects.MethodError w
  end.
Proof.
  intros R Hbu. cbv zeta. destruct (Objects.reached_models dh_order ifs intro props nI nP Hd F own E evs (conn w) R) as [M _].
  assert (M0 : Objects.models ifs nI nP own E (part w)) by exact M.
  rewrite (Objects.bind_dispatch_exact dh_order ifs nI nP (invoke_method m r) (call_by Client Z) own E w p i n M0 Hbu).
  destruct (E !! (p, i)) as [e|] eqn:Ee; [|done]. unfold callback_of. destruct (Objects.method_of ifs (Objects.x_iface e) n) as [mb|] eqn:Em; [|done]. cbn [mbind option_bind].
  pose proof (Objects.method_iface ifs intro props nI nP F _ _ _ Em) as Emi.
  destruct (Objects.mbr_call_exact dh_order ifs nI nP (invoke_method m r) (call_by Client Z) own E w p i e mb M0 Ee Emi) as (y & Hy & ->).
  by destruct (Objects.methodCallback mb).
Qed.

Lemma no_error (m : Message) (op : C Z) (name e : list Z) (c : Client) : (forall d, c_msg d = m -> op d = adbus_errorf name e d) -> reply_error m false op c = Ret 0 c.
Proof. intros Hop. unfold reply_error, on_call. rewrite (bind_Ret _ _ c c (inl 0, None)); [done|]. rewrite Hop by done. cbn. by destruct c as [????????????????????[]???]. Qed.

(** Without a reply to send, the dispatch ends with what the objects did. *)
Lemma dispatch_unreplied (m : Message) (p i n : list Z) (c c1 : Client) : flagged_call m p i n -> dispatch_bind m false c = Ret 0 c1 -> no_match c1 m -> conn_dispatch m c = Ret 0 c1.
Proof.
  intros [Ht Hb Hsz _ _ _] E1 Hm. assert (Hfl : msg_flags m <> 0) by (intros E0; by rewrite E0 in Hb). unfold adbus_conn_dispatch, Dispatch, wants_reply. rewrite (proj2 (Z.eqb_neq _ _) Hsz), (proj2 (Z.eqb_neq _ _) Hfl), andb_false_r, (bool_decide_eq_true_2 _ Ht).
  rewrite bind_assoc, (bind_Ret (ret tt) _ c c tt eq_refl). rewrite !bind_assoc, (bind_Ret _ _ _ _ _ E1). cbn [Z.eqb negb].
  rewrite !bind_assoc, (bind_Ret (ret tt) _ c1 c1 tt eq_refl), (bind_Ret (ret false) _ c1 c1 false eq_refl).
  rewrite bind_assoc, (bind_Ret _ _ _ _ _ (no_match_run m c1 Hm)). cbn [fst snd Z.eqb negb].
  assert (E3 : Client.adbusI_dispatchReply invoke hand_over m c1 = Ret 0 c1) by (unfold Client.adbusI_dispatchReply; by rewrite Ht).
  by rewrite bind_assoc, (bind_Ret _ _ _ _ _ E3).
Qed.

(** C1: the replies to method calls that name an interface which is not one of
    the two built-in ones, and that no match is for.  A call without any flag
    gets exactly one reply, which carries the serial of the call and goes to
    its sender.  When the interface is not exported at the path, or has no such
    method with a callback, the reply is the error that says so, and nothing
    else changes; otherwise the callback is called once, and when it returns
    without failing the reply is the message it set up, completed: a return
    unless it made it an error.  A call whose flags ask for no reply gets the
    same treatment without one.  (The path of the return message was never set;
    the callback leaves as many references to interfaces as it found, registers
    no match for the call, and sets up a message that can be sent.) *)
Theorem call_replied (own : Objects.iid -> Z) (E : gmap (list Z * list Z) Objects.Export) (evs : list Objects.event) (c : Client) (m : Message) (s p i n : list Z) :
  reached own E evs (conn c) -> ~ Objects.builtin nI nP i -> can_reply c m ->
  (call_ok m s p i n ->
   match E !! (p, i) with
   | None => refuses m (str "nz.co.foobar.adbus.InvalidInterface") (no_interface p i) c
   | Some e =>
      match callback_of (Objects.x_iface e) n with
      | None => refuses m (str "nz.co.foobar.adbus.InvalidMethod") (no_method p i n) c
      | Some (mb, f) => exists y, Objects.ifaces (conn c) !! Objects.x_iface e = Some y /\
          forall c1 own1 E1 evs1,
            invoke_method m true f (Objects.methodData mb) (Objects.cuser2 (Objects.x_hooks e)) (holding (Objects.x_iface e) y c) = Ret 0 c1 ->
            Objects.same_refs (Objects.taken own (Objects.x_iface e)) own1 -> reached own1 E1 evs1 (conn c1) ->
            1 <= nextSerial c1 < 2 ^ 32 -> no_match c1 m -> reply_ready m (returnMessage c1) ->
            exists x c', conn_dispatch m c = Ret 0 c' /\ replies_to m (returnMessage c1) x /\ log c' = log c1 ++ [Sent x]
      end
   end) /\
  (flagged_call m p i n ->
   match E !! (p, i) with
   | None => unanswered m c
   | Some e =>
      match callback_of (Objects.x_iface e) n with
      | None => unanswered m c
      | Some (mb, f) => exists y, Objects.ifaces (conn c) !! Objects.x_iface e = Some y /\
          forall c1 own1 E1 evs1,
            invoke_method m false f (Objects.methodData mb) (Objects.cuser2 (Objects.x_hooks e)) (with_iface (Objects.x_iface e) y c) = Ret 0 c1 ->
            Objects.same_refs (Objects.taken own (Objects.x_iface e)) own1 -> reached own1 E1 evs1 (conn c1) -> no_match c1 m ->
            exists c', conn_dispatch m c = Ret 0 c' /\ log c' = log c1
      end
   end).
Proof.
  intros R Hbu Hr. split.
  - intros Hc. destruct (texts_ok p i n (proj2 (co_path _ _ _ _ _ Hc)) (proj2 (co_interface _ _ _ _ _ Hc)) (proj2 (co_member _ _ _ _ _ Hc))) as [(T1 & T2 & T3) (T4 & T5 & T6)].
    pose proof (bind_run m s p i n (reset_return c) Hc) as Eb. unfold bind at 1 in Eb. pose proof (method_missing m true own E evs (reset_return c) p i n R Hbu) as Hmis. cbv zeta in Hmis.
    destruct (E !! (p, i)) as [e|] eqn:Ee; [destruct (callback_of (Objects.x_iface e) n) as [[mb f]|] eqn:Ef|].
    + destruct (method_runs m true own E evs (reset_return c) p i n e mb f R Hbu Ee Ef) as (y & Hy & Hrun). exists y. split; [exact Hy|].
      intros c1 own1 E1 evs1 Ei Hs R1 Hserial Hmatch Hready. destruct (Hrun c1 own1 E1 evs1 Ei Hs R1) as [c2 E2]. rewrite E2 in Eb.
      destruct (dispatch_replied m c (set_conn c2 c1) (co_wants _ _ _ _ _ Hc) (co_size _ _ _ _ _ Hc) Eb) as (x & c' & E' & Hx & Hl & _); try done. by exists x, c'.
    + rewrite (Hmis eq_refl) in Eb. apply (refuses_run m s p i n _ _ adbusI_methodError); try done; [by intros d Hm; apply (method_error_text m s p i n)|by apply short_text].
    + rewrite Hmis in Eb. apply (refuses_run m s p i n _ _ adbusI_interfaceError); try done; [by intros d Hm; apply (interface_error_text m s p i n)|by apply short_text].
  - intros Hf. destruct (Hf) as [_ _ _ Hp Hi Hn]. pose proof (named_run m false p i n c Hp Hi Hn) as Eb. unfold bind at 1 in Eb.
    pose proof (method_missing m false own E evs c p i n R Hbu) as Hmis. cbv zeta in Hmis. pose proof (cr_match _ _ Hr) as Hm.
    destruct (E !! (p, i)) as [e|] eqn:Ee; [destruct (callback_of (Objects.x_iface e) n) as [[mb f]|] eqn:Ef|].
    + destruct (method_runs m false own E evs c p i n e mb f R Hbu Ee Ef) as (y & Hy & Hrun). exists y. split; [exact Hy|].
      intros c1 own1 E1 evs1 Ei Hs R1 Hmatch. destruct (Hrun c1 own1 E1 evs1 Ei Hs R1) as [c2 E2]. rewrite E2 in Eb.
      exists (set_conn c2 c1). split; [by apply (dispatch_unreplied m p i n c _ Hf Eb)|done].
    + rewrite (Hmis eq_refl), (no_error m _ (str "nz.co.foobar.adbus.InvalidMethod") (no_method p i n)) in Eb.
      { exists c. split; [by apply (dispatch_unreplied m p i n c _ Hf Eb)|done]. }
      intros d Hd'. unfold adbusI_methodError. rewrite (bind_Ret get _ _ _ _ eq_refl), Hd', Hp, Hi, Hn. reflexivity.
    + rewrite Hmis, (no_error m _ (str "nz.co.foobar.adbus.InvalidInterface") (no_interface p i)) in Eb.
      { exists c. split; [by apply (dispatch_unreplied m p i n c _ Hf Eb)|done]. }
      intros d Hd'. unfold adbusI_interfaceError. rewrite (bind_Ret get _ _ _ _ eq_refl), Hd', Hp, Hi. reflexivity.
Qed.
End Reply.

(** ** Witness *)
Section Samples.
#[local] Existing Instance debug_build.

(** A connection with the interface u exported at /a/b, whose method m returns. *)
Definition sample_client : Client := set_conn Objects.sample_state adbus_conn_new.
Definition sample_call : Message := sample_message MSG_METHOD []
  (fun f => adbus_msg_setsender (str ":1.5") (-1) (adbus_msg_setmember (str "m") (-1) (adbus_msg_setinterface (str "u") (-1) (adbus_msg_setpath (str "/a/b") (-1) f)))).
Definition answers (m : Message) (ret : bool) (f : Objects.callback) (u1 u2 : Objects.pointer) : H Z := done_ 0.
Definition directly (S A : Type) (p : Objects.callback) (u : Objects.pointer) (call : M S A) : M S A := call.

Lemma sample_call_ok : call_ok sample_call (str ":1.5") (str "/a/b") (str "u") (str "m").
Proof.
  split; try (vm_compute; reflexivity).
  - by vm_compute.
  - vm_compute. split; [discriminate|reflexivity].
  - split; [vm_compute; reflexivity|apply short_text; vm_compute; reflexivity].
  - split; [vm_compute; reflexivity|apply short_text; vm_compute; reflexivity].
  - split; [vm_compute; reflexivity|apply short_text; vm_compute; reflexivity].
  - split; [vm_compute; reflexivity|apply short_text; vm_compute; reflexivity].
Qed.

Lemma sample_ready (c : Client) : returnMessage c = adbus_msg_reset adbus_msg_new -> reply_ready sample_call (returnMessage c).
Proof.
  intros ->. split; [|by vm_compute]. set (f := completed _ _ _). vm_compute in f. subst f.
  apply wf_short; try (vm_compute; reflexivity); try (split; vm_compute; (discriminate || reflexivity)); try (apply short_text; vm_compute; reflexivity); by apply field_text_nil || constructor.
Qed.

Lemma sample_can : can_reply sample_client sample_call.
Proof. split; [vm_compute; split; [discriminate|reflexivity]|reflexivity|by apply Forall_nil]. Qed.

Lemma call_replied_witness : exists x c', adbus_conn_dispatch Objects.sample_order answers directly quiet handed (Some msg_size) sample_call sample_client = Ret 0 c' /\
  msg_type x = MSG_RETURN /\ replySerial x = Some (msg_serial sample_call) /\ log c' = [Sent x].
Proof.
  pose proof (call_replied Objects.sample_order answers directly quiet handed msg_size Objects.sample_ifaces 0%nat 1%nat (str "I") (str "P")
    Objects.sample_perm Objects.sample_good (fun _ _ _ _ => eq_refl) (Objects.own0 Objects.sample_ifaces) Objects.sample_exports [] sample_client sample_call
    (str ":1.5") (str "/a/b") (str "u") (str "m") Objects.sample_state_reached ltac:(vm_compute; intros [?|?]; discriminate) sample_can) as [X _]. specialize (X sample_call_ok).
  assert (Ex : Objects.sample_exports !! (str "/a/b", str "u") = Some Objects.sample_export) by apply lookup_insert_eq. rewrite Ex in X.
  assert (Ec : exists mb, callback_of Objects.sample_ifaces (Objects.x_iface Objects.sample_export) (str "m") = Some (mb, 7%nat)) by (vm_compute; by eexists).
  destruct Ec as [mb Ec]. rewrite Ec in X. destruct X as (y & Hy & X).
  assert (Er : Objects.adbus_iface_ref (Objects.x_iface Objects.sample_export) Objects.sample_state = Ret tt (Objects.held Objects.sample_state (Objects.x_iface Objects.sample_export) y))
    by (by apply Objects.ref_run).
  destruct (X (holding (Objects.x_iface Objects.sample_export) y sample_client) (Objects.taken (Objects.own0 Objects.sample_ifaces) (Objects.x_iface Objects.sample_export)) Objects.sample_exports [])
    as (x & c' & E & [Ht Hr _ _ _ _ _ _] & Hl).
  - reflexivity.
  - by intros j.
  - exact (Objects.reached_ref _ _ _ _ _ _ _ _ _ _ _ _ _ Objects.sample_state_reached Objects.sample_user ltac:(vm_compute; reflexivity) Er).
  - vm_compute. split; [discriminate|reflexivity].
  - by apply Forall_nil.
  - by apply sample_ready.
  - exists x, c'. split; [exact E|]. split; [exact Ht|]. split; [exact Hr|exact Hl].
Defined.
End Samples.
