(* ===== verification/Properties.v ===== *)
(** Reading properties (adbus/interface.c): what a connection replies to a
    call of Get of org.freedesktop.DBus.Properties. *)

From Stdlib Require Import ZArith Lia.
From stdpp Require Import base option list numbers strings gmap.
From S2P Require Import Prelude Objects Names Signature Iterator Values Buffer MatchRule Message Factory Server Bus Checks Client Watching Connection Answering.
#[local] Open Scope Z_scope.
#[local] Open Scope adbus_scope.

(** ** Objects *)
Section Lookup.
Context (dh_order : forall A : Type, gmap (list Z) A -> list (list Z * A)).
Context (ifs : gmap Objects.iid Objects.Interface) (intro props : Objects.iid) (nI nP : list Z).
Context (F : Objects.ifaces_good ifs intro props nI nP).

(** The member of a kind that a name denotes in an interface. *)
Definition member_of (type : Objects.MemberType) (i : Objects.iid) (name : list Z) : option Objects.Member :=
  x ← ifs !! i; m ← Objects.members x !! name; if bool_decide (Objects.m_type m = type) then Some m else None.

Lemma member_iface (type : Objects.MemberType) (i : Objects.iid) (name : list Z) (m : Objects.Member) :
  member_of type i name = Some m -> Objects.m_interface m = i.
Proof.
  unfold member_of. intros (x & Hx & H)%bind_Some. apply bind_Some in H as (m' & Hm & H). case_bool_decide; [|done]. injection H as ->.
  by apply (Objects.f_members _ _ _ _ _ F i x name m).
Qed.

Lemma member_exact (type : Objects.MemberType) (i : Objects.iid) (name : list Z) (c : Objects.Conn) (x y : Objects.Interface) :
  ifs !! i = Some x -> Objects.ifaces c !! i = Some y -> Objects.members y = Objects.members x ->
  Objects.GetMethod i type name c = Ret (member_of type i name) c.
Proof.
  intros Hx Hy Em. unfold Objects.GetMethod, Objects.iface, member_of. rewrite bind_assoc, (bind_Ret get _ _ _ _ eq_refl), Hy.
  rewrite (bind_Ret (of_option (Some _)) _ _ _ _ eq_refl), Hx, Em. cbn [mbind option_bind]. destruct (Objects.members x !! name) as [m|]; [|done].
  cbn [mbind option_bind]. by case_bool_decide.
Qed.

(** Every registered path exports the properties interface. *)
Lemma builtin_exact (own : Objects.iid -> Z) (E : gmap (list Z * list Z) Objects.Export) (c : Objects.Conn) (p : list Z) :
  Objects.models ifs nI nP own E c -> is_Some (Objects.paths c !! p) -> exists o ob b,
  Objects.objects c !! o = Some ob /\ Objects.o_path ob = p /\ Objects.adbus_conn_interface p nP c = Ret (Some (Objects.properties c, b)) c /\
  Objects.bind_heap c !! b = Some (Objects.mkBind (Some o) (Objects.properties c) (Objects.builtin_hooks o)).
Proof.
  intros M [o Ho]. destruct (Objects.m_ok _ _ _ _ _ _ M) as [T W]. destruct (proj1 (Objects.t_paths _ _ _ T p o) Ho) as (l & (ob & Hob & <-)%Objects.tree_lookup & Ep).
  assert (Hto : Objects.tables c !! o = Some (Objects.interfaces ob)) by (apply Objects.tables_lookup; by exists ob).
  destruct (Objects.b_builtin _ _ _ _ _ _ W o _ ltac:(set_solver) Hto) as [_ [b Hb]].
  pose proof (proj1 (Objects.b_table _ _ _ _ _ _ W o _ Hto nP b) Hb) as [_ (cb & x & Hcb & Hpath & Hx & En)].
  destruct (Objects.b_silent _ _ _ _ _ _ W b cb x Hcb Hx ltac:(by right)) as ((o' & Eh & Eo) & Ei & _). apply Eo in Hpath as Eo'. subst o'.
  assert (Ei' : Objects.b_interface cb = Objects.properties c).
  { destruct Ei as [Ei|]; [|done]. destruct (Objects.b_intro _ _ _ _ _ _ W) as (y & Hy & Eny & _). rewrite <- Ei in Hy. exfalso. apply (Objects.f_names _ _ _ _ _ F). congruence. }
  exists o, ob, b. split_and!; [done|done| |rewrite Hcb; destruct cb; cbn in *; congruence].
  unfold Objects.adbus_conn_interface, Objects.object, Objects.bind_at. rewrite (bind_Ret get _ _ _ _ eq_refl), Ho, bind_assoc, (bind_Ret get _ _ _ _ eq_refl), Hob.
  rewrite (bind_Ret (of_option (Some _)) _ _ _ _ eq_refl), Hb, bind_assoc, (bind_Ret get _ _ _ _ eq_refl), Hcb, (bind_Ret (of_option (Some _)) _ _ _ _ eq_refl).
  by rewrite Ei'.
Qed.

(** Looking up an interface does not look at the interfaces themselves. *)
Lemma interface_ifaces (p n : list Z) (c : Objects.Conn) (g : gmap Objects.iid Objects.Interface) (a : option (Objects.iid * Objects.bid)) :
  Objects.adbus_conn_interface p n c = Ret a c -> Objects.adbus_conn_interface p n (Objects.set_ifaces g c) = Ret a (Objects.set_ifaces g c).
Proof.
  unfold Objects.adbus_conn_interface. rewrite !(bind_Ret get _ _ _ _ eq_refl). cbn [Objects.paths Objects.set_ifaces].
  destruct (Objects.paths c !! p) as [o|]; [|unfold ret; intros E; by simplify_eq]. unfold Objects.object. rewrite !bind_assoc, !(bind_Ret get _ _ _ _ eq_refl).
  cbn [Objects.objects Objects.set_ifaces]. destruct (Objects.objects c !! o) as [ob|]; [|done]. rewrite !(bind_Ret (of_option (Some _)) _ _ _ _ eq_refl).
  destruct (Objects.interfaces ob !! n) as [b|]; [|unfold ret; intros E; by simplify_eq]. unfold Objects.bind_at. rewrite !bind_assoc, !(bind_Ret get _ _ _ _ eq_refl).
  cbn [Objects.bind_heap Objects.set_ifaces]. destruct (Objects.bind_heap c !! b) as [cb|]; [|done]. rewrite !(bind_Ret (of_option (Some _)) _ _ _ _ eq_refl).
  unfold ret. intros E. by simplify_eq.
Qed.

(** Holding an interface and letting it go. *)
Lemma free_held (c : Objects.Conn) (i : Objects.iid) (x : Objects.Interface) : Objects.ifaces c !! i = Some x -> 0 < Objects.i_ref x ->
  Objects.adbus_iface_deref dh_order i (Objects.held c i x) = Ret tt c.
Proof.
  intros Hx Hr. set (x' := Objects.set_ref (Objects.i_ref x + 1) x).
  rewrite (Objects.deref_run dh_order _ i x') by apply lookup_insert_eq. f_equal. unfold Objects.dereffed, Objects.deref_ifaces, Objects.deref_events.
  assert (E : Objects.i_ref x' =? 1 = false) by (apply Z.eqb_neq; change (Objects.i_ref x') with (Objects.i_ref x + 1); lia). rewrite E, app_nil_r.
  assert (Ex : Objects.set_ref (Objects.i_ref x' - 1) x' = x) by (destruct x; unfold x', Objects.set_ref; cbn; f_equal; lia).
  unfold Objects.held. cbn [Objects.ifaces Objects.set_ifaces]. rewrite Ex, insert_insert_eq, (insert_id (Objects.ifaces c) i x Hx). by destruct c.
Qed.
End Lookup.

(** ** Steps of a handler *)
Section Steps.
Context {B : Build} (m : Message).

(** The reply of [w] with another argument buffer. *)
Definition with_buf (b : Buffer) (w : Client) : Client := set_returnMessage (set_argbuf b (returnMessage w)) w.

Lemma read_run {A} (op : C A) (w : Client) (i i' : option Iterator) (r : A + jump) :
  (forall d, c_msg d = m -> c_iter d = i -> op d = Ret r (with_iter i' d)) -> call_op m true op (mkCbData w i) = Ret r (mkCbData w i').
Proof. intros H. unfold call_op, on_call. cbn [cb_iter cb_client]. rewrite H by done. by destruct w as [????????????????????[]???]. Qed.

Lemma args_run {A} (op : M Buffer A) (w : Client) (i : option Iterator) (a : A) (b : Buffer) : op (argbuf (returnMessage w)) = Ret a b ->
  call_op m true (on_args op) (mkCbData w i) = Ret (inl a) (mkCbData (with_buf b w) i).
Proof. intros H. unfold call_op, on_call, on_args. cbn [cb_iter cb_client c_ret]. rewrite H. by destruct w. Qed.

Lemma objects_run {A} (op : M Objects.Conn A) (w : Client) (i : option Iterator) (a : A) (c : Objects.Conn) : op (conn w) = Ret a c ->
  objects op (mkCbData w i) = Ret (inl a) (mkCbData (set_conn c w) i).
Proof. intros H. unfold objects, lift, on_part. cbn [cb_client part client_conn]. by rewrite H. Qed.

Lemma objects_read {A} (op : M Objects.Conn A) (w : Client) (i : option Iterator) (a : A) : op (conn w) = Ret a (conn w) ->
  objects op (mkCbData w i) = Ret (inl a) (mkCbData w i).
Proof. intros H. rewrite (objects_run _ _ _ _ _ H). by destruct w. Qed.

(** The two names that Get is called with. *)
Lemma names_run (n1 n2 : list Z) (w : Client) : called_with [VStr STRING n1; VStr STRING n2] m -> exists i1 i2,
  call_op m true adbus_check_string (mkCbData w (adbus_iter_args m)) = Ret (inl n1) (mkCbData w i1) /\
  call_op m true adbus_check_string (mkCbData w i1) = Ret (inl n2) (mkCbData w i2) /\
  call_op m true adbus_check_end (mkCbData w i2) = Ret (inl tt) (mkCbData w i2).
Proof.
  intros H. set (e1 := enc_string 0 n1). set (e2 := enc_string (len e1) n2).
  assert (Ei : adbus_iter_args m = Some (mkIter 0 (len e1 + len e2) [chr "s"; chr "s"])).
  { pose proof (start_iter (mkCall server_zero m None None 0) _ _ H) as E. cbn [start c_iter with_iter c_msg] in E. rewrite E. do 2 f_equal.
    change (encs 0 [VStr STRING n1; VStr STRING n2]) with (e1 ++ e2 ++ []). by rewrite app_nil_r, len_app. }
  destruct H as (_ & Ha & _ & Hw1 & Hw2 & _).
  assert (Hat : at_ (argdata m) 0 (e1 ++ e2)).
  { rewrite Ha. change (encs 0 [VStr STRING n1; VStr STRING n2]) with (e1 ++ e2 ++ []). rewrite app_nil_r. apply at_self. }
  pose proof (len_nonneg e2). rewrite Ei. eexists _, _. split; [|split].
  - apply read_run. intros d Em Ed. rewrite <- Em in Hat. apply (check_string_exact d n1 e2 [chr "s"] 0 (len e1 + len e2) Hw1 Hat); [fold e1; lia|done].
  - apply read_run. intros d Em Ed. rewrite <- Em in Hat. apply at_app in Hat as [_ Hat]. fold (len e1) in Hat. rewrite <- (app_nil_r e2) in Hat.
    apply (check_string_exact d n2 [] [] (0 + len e1) (len e1 + len e2 - len e1)); [exact Hw2|exact Hat|change (len e2 <= len e1 + len e2 - len e1); lia|exact Ed].
  - apply read_run. intros d Em Ed. rewrite (check_end_exact d _ Ed eq_refl). f_equal. destruct d; cbn in *. by subst.
Qed.
End Steps.

(** ** Get *)
Section Get.
Context {B : Build} (dh_order : forall A : Type, gmap (list Z) A -> list (list Z * A)).
Context (user_call : Message -> bool -> Objects.callback -> Objects.pointer -> Objects.pointer -> H Z).
Context (call_by : forall S A : Type, Objects.callback -> Objects.pointer -> M S A -> M S A).
Context (invoke : nat -> Client.pointer -> Message -> M Client Z) (hand_over : nat -> Client.pointer -> M Client Z -> M Client Z) (send : Message -> Z).
Context (ifs : gmap Objects.iid Objects.Interface) (intro props : Objects.iid) (nI nP : list Z).
Context (Hd : forall A (g : gmap (list Z) A), Permutation (dh_order A g) (map_to_list g)) (F : Objects.ifaces_good ifs intro props nI nP).
Context (Hby : forall S A p u (call : M S A), call_by S A p u call = call).
Notation reached := (Objects.reached dh_order ifs intro props nI nP).
Notation get := (adbusI_getProperty dh_order user_call call_by).
Notation conn_dispatch := (adbus_conn_dispatch dh_order user_call call_by invoke hand_over (Some send)).
Notation dispatch_bind := (Connection.adbusI_dispatchBind dh_order user_call call_by).

(** The getter [f] of [mb] appends the value [v] to the reply. *)
Definition getter_gives (m : Message) (mb : Objects.Member) (f : Objects.callback) (u : Objects.pointer) (v : value) : Prop :=
  forall d, user_call m true f (Objects.getPropertyData mb) u d = call_op m true (then* on_args (write v) in done_ 0) d.

(** A buffer that holds [v] as a variant, which was not ended. *)
Definition holds_variant (v : value) (b : Buffer) : Prop :=
  b_data b = enc 0 (VVariant v) /\ adbus_buf_sig b = str "v" /\ at_sigptr (b_sig b) (b_sigp b) = Some [].

Lemma getter_run (m : Message) (v : value) (w : Client) (i : option Iterator) (mb : Objects.Member) (f : Objects.callback) (u : Objects.pointer) (y : Objects.Interface)
  (c : Objects.Conn) (g : MsgFactory) : getter_gives m mb f u v -> Objects.propertyType mb = Some (sig_of (ty_of v)) -> wf 0 (VVariant v) -> canon v ->
  returnMessage w = adbus_msg_reset g -> Objects.ifaces c !! Objects.m_interface mb = Some y -> 0 < Objects.i_ref y ->
  conn w = Objects.held c (Objects.m_interface mb) y -> exists b, holds_variant v b /\
  ProxiedGetProperty dh_order user_call m true mb f u (mkCbData w i) = Ret (inl 0) (mkCbData (with_buf b (set_conn c w)) i).
Proof.
  intros Hg Et [Hl Hw] Hc Eg Hy Hr Ec. set (t := sig_of (ty_of v)) in *. unfold ProxiedGetProperty.
  assert (Eb : argbuf (returnMessage w) = mkBuf [] (b_sig (argbuf (returnMessage w))) (Own 0)) by (rewrite Eg; by destruct g as [? []]).
  destruct (setsig_any (str "v") [] (b_sig (argbuf (returnMessage w))) (Own 0) 1) as (arr & E1 & Ea); [apply (no_nul_sig_of TVariant)|by vm_compute|by right|].
  rewrite <- Eb in E1. rewrite (seq_Ret _ _ _ _ _ (args_run m _ w i _ _ E1)). set (w1 := with_buf (mkBuf [] arr (Own 0)) w).
  destruct (SIG_ok VARIANT_BEGIN [] arr [] (Own 0)) as [E2 _]; [cbn [at_sigptr]; rewrite drop_0; exact (f_equal Some Ea)|].
  pose proof (append_signature_ok t [] arr (sigptr_add (Own 0) 1) (-1) Hl (or_intror (conj eq_refl (no_nul_sig_of _)))) as E3.
  assert (E4 : adbus_buf_beginvariant t (-1) (mkBuf [] arr (Own 0)) = Ret (mkBufVariant (sigptr_add (Own 0) 1)) (mkBuf (enc_signature t) arr (Ext t))).
  { unfold adbus_buf_beginvariant. change (chr "v") with (code_of VARIANT_BEGIN). rewrite (bind_Ret _ _ _ _ _ E2), (bind_Ret _ _ _ _ _ E3), (cstr_no_nul t (no_nul_sig_of _)). reflexivity. }
  assert (E5 : begin_value m true mb (mkCbData w1 i) = Ret (inl (mkBufVariant (sigptr_add (Own 0) 1))) (mkCbData (with_buf (mkBuf (enc_signature t) arr (Ext t)) w1) i)).
  { unfold begin_value. rewrite Et. rewrite (seq_Ret _ _ t _ (mkCbData w1 i)) by (apply (read_run m _ w1 i i); intros d _ <-; by destruct d). by apply args_run. }
  rewrite (seq_Ret _ _ _ _ _ E5). set (w2 := with_buf _ w1).
  destruct (written_all v _ Hw Hc (enc_signature t) arr (Ext t) []) as (sp & E6 & Esp); [done|cbn; by rewrite app_nil_r|].
  set (b := mkBuf (enc_signature t ++ enc (0 + len (enc_signature t)) v) arr sp) in *.
  assert (E7 : user_call m true f (Objects.getPropertyData mb) u (mkCbData w2 i) = Ret (inl 0) (mkCbData (with_buf b w2) i)).
  { rewrite Hg. unfold call_op, on_call. cbn [cb_iter cb_client]. set (d := mkCall _ _ _ _ _).
    assert (Ed : on_args (write v) d = Ret (inl tt) (with_ret (Some (set_argbuf b (returnMessage w2))) d)).
    { unfold on_args. cbn [c_ret d]. change (argbuf (returnMessage w2)) with (mkBuf (enc_signature t) arr (Ext t)). by rewrite E6. }
    rewrite (seq_Ret _ _ _ _ _ Ed). unfold d, w2, w1, with_buf. by destruct w. }
  rewrite (seq_Ret _ _ _ _ _ E7). assert (E8 : Objects.adbus_iface_deref dh_order (Objects.m_interface mb) (conn (with_buf b w2)) = Ret tt c).
  { change (conn (with_buf b w2)) with (conn w). rewrite Ec. by apply free_held. }
  rewrite (seq_Ret _ _ _ _ _ (objects_run _ _ i _ _ E8)). exists b. split; [by split_and!|]. unfold done_, ret, w2, w1, with_buf. by destruct w.
Qed.
(** An error that a handler sets up. *)
Lemma error_run (m : Message) (op : C Z) (name e : list Z) (w : Client) (i : option Iterator) : (forall d, c_msg d = m -> op d = adbus_errorf name e d) ->
  bytes e -> no_nul e -> len e < 2 ^ 31 -> exists b, call_op m true op (mkCbData w i) = Ret (inl 0) (mkCbData (error_state m name b w) i) /\ holds_text e b.
Proof.
  intros Hop H1 H2 H3. set (d := mkCall server_zero m (Some (returnMessage w)) i (nextSerial w)).
  destruct (error_exact name (Some e) d (returnMessage w) eq_refl) as (b & E & Hb); [by intros ? [= <-]; split_and!; [..|lia]|]. exists b. split; [|exact Hb].
  unfold call_op, on_call. cbn [cb_iter cb_client]. fold d. rewrite (Hop d eq_refl). unfold adbus_errorf. rewrite E. reflexivity.
Qed.

(** Get up to the lookup of the interface. *)
Lemma get_begins (m : Message) (p n1 n2 : list Z) (w : Client) (o : Objects.oid) (ob : Objects.ObjectPath) (r : option (Objects.iid * Objects.bid)) :
  called_with [VStr STRING n1; VStr STRING n2] m -> Objects.objects (conn w) !! o = Some ob -> Objects.o_path ob = p ->
  Objects.adbus_conn_interface p n1 (conn w) = Ret r (conn w) -> exists i, get m true (Objects.Object o) (mkCbData w (adbus_iter_args m)) =
  match r with
  | None => call_op m true adbusI_interfaceError (mkCbData w i)
  | Some (k, b) =>
      (do* p := objects (Objects.adbus_iface_property k n2) in
       match p with
       | None => call_op m true adbusI_propertyError
       | Some mbr =>
           match Objects.getPropertyCallback mbr with
           | None => call_op m true adbusI_propReadError
           | Some f =>
               then* objects (Objects.adbus_iface_ref k) in
               do* cb := objects (Objects.bind_at b) in
               let h := Objects.b_hooks cb in
               through call_by h (ProxiedGetProperty dh_order user_call m true mbr f (Objects.cuser2 h))
           end
       end) (mkCbData w i)
  end.
Proof.
  intros Hm Ho Ep Er. destruct (names_run m n1 n2 w Hm) as (i1 & i2 & E1 & E2 & E3). exists i2. unfold adbusI_getProperty.
  rewrite (seq_Ret _ _ _ _ _ E1), (seq_Ret _ _ _ _ _ E2), (seq_Ret _ _ _ _ _ E3).
  assert (E4 : interface_at (Objects.Object o) n1 (mkCbData w i2) = Ret (inl r) (mkCbData w i2)).
  { unfold interface_at. rewrite (seq_Ret _ _ o _ (mkCbData w i2) eq_refl). erewrite seq_Ret.
    2:{ apply (objects_read _ _ _ ob). unfold Objects.object. rewrite (bind_Ret Prelude.get _ _ _ _ eq_refl). by rewrite Ho. }
    rewrite Ep. by apply objects_read. }
  rewrite (seq_Ret _ _ _ _ _ E4). by destruct r as [[k b]|].
Qed.

(** The texts of the errors of Get. *)
Definition no_property (p : list Z) : list Z := str "The path '" ++ p ++ str "' does not export the property '" ++ nP ++ str "." ++ str "Get" ++ str "'.".
Definition not_readable (p : list Z) : list Z := str "The property '" ++ nP ++ str "." ++ str "Get" ++ str "' on '" ++ p ++ str "' is write only.".

Lemma property_texts (p : list Z) : field_text p -> field_text nP ->
  (bytes (no_property p) /\ no_nul (no_property p) /\ len (no_property p) < 2 ^ 31) /\
  (bytes (not_readable p) /\ no_nul (not_readable p) /\ len (not_readable p) < 2 ^ 31).
Proof.
  intros Hp Hn. assert (Hg : field_text (str "Get")) by (apply short_text; vm_compute; reflexivity). split.
  - assert (T : bytes (no_property p) /\ no_nul (no_property p) /\ len (no_property p) < 2 ^ 27 + (2 ^ 20 + (2 ^ 27 + (2 ^ 20 + (2 ^ 27 + (2 ^ 20 + 2 ^ 27))))))
      by (unfold no_property; plain_parts). destruct T as (? & ? & ?). split_and!; [done|done|lia].
  - assert (T : bytes (not_readable p) /\ no_nul (not_readable p) /\ len (not_readable p) < 2 ^ 27 + (2 ^ 20 + (2 ^ 27 + (2 ^ 20 + (2 ^ 27 + (2 ^ 20 + 2 ^ 27))))))
      by (unfold not_readable; plain_parts). destruct T as (? & ? & ?). split_and!; [done|done|lia].
Qed.

(** The interfaces with the name of the properties interface are the library's. *)
Context (Hlib : forall i x, ifs !! i = Some x -> Objects.i_name x = nP ->
  exists mb, member_of ifs Objects.METHOD i (str "Get") = Some mb /\ Objects.methodCallback mb = Some GET_PROPERTY).

(** A call of Get reaches its handler, which is given the object at the path
    and holds the properties interface [k]. *)
Lemma get_dispatch (own : Objects.iid -> Z) (E : gmap (list Z * list Z) Objects.Export) (evs : list Objects.event) (c : Client) (m : Message) (s p : list Z) :
  reached own E evs (conn c) -> call_ok m s p nP (str "Get") -> is_Some (Objects.paths (conn c) !! p) -> exists o ob k y,
  Objects.objects (conn c) !! o = Some ob /\ Objects.o_path ob = p /\ Objects.ifaces (conn c) !! k = Some y /\ Objects.i_name y = nP /\ 0 < Objects.i_ref y /\
  forall w' i, get m true (Objects.Object o) (mkCbData (holding k y c) (adbus_iter_args m)) = Ret (inl 0) (mkCbData w' i) ->
    conn w' = conn (holding k y c) -> dispatch_bind m true (reset_return c) = Ret 0 (set_conn (conn c) w').
Proof.
  intros R Hc Hp. destruct (Objects.reached_models dh_order ifs intro props nI nP Hd F own E evs (conn c) R) as [M _].
  destruct (builtin_exact ifs intro props nI nP F own E (conn c) p M Hp) as (o & ob & b & Ho & Ep & Ei & Hb). set (k := Objects.properties (conn c)) in *.
  pose proof (proj2 (Objects.m_ok _ _ _ _ _ _ M)) as W. destruct (Objects.b_props _ _ _ _ _ _ W) as (y & Hy & En & _).
  destruct (Objects.b_refs _ _ _ _ _ _ W k y Hy) as (_ & _ & Hr). destruct (Objects.m_ifaces _ _ _ _ _ _ M k y Hy) as (x & Hx & Ex & Em).
  destruct (Hlib k x Hx ltac:(congruence)) as (mb & Hmb & Hf). pose proof (member_iface ifs intro props nI nP F _ _ _ _ Hmb) as Ek.
  exists o, ob, k, y. split_and!; try done. intros w' i Eg Ew. rewrite (bind_run dh_order user_call call_by m s p nP (str "Get") _ Hc).
  rewrite (bind_Ret _ _ (reset_return c) (set_conn (conn c) w') (Objects.Answered 0)); [reflexivity|]. unfold Objects.adbusI_dispatchBind. change (conn c) with (part (reset_return c)) in Ei.
  rewrite (bind_Ret _ _ _ _ _ (on_part_read _ _ _ Ei)).
  assert (Eg2 : Objects.adbus_iface_method k (str "Get") (part (reset_return c)) = Ret (member_of ifs Objects.METHOD k (str "Get")) (part (reset_return c)))
    by exact (member_exact ifs Objects.METHOD k (str "Get") (conn c) x y Hx Hy Em).
  rewrite (bind_Ret _ _ _ _ _ (on_part_read _ _ _ Eg2)), Hmb.
  unfold Objects.adbus_mbr_call. rewrite Hf, Ek, (bind_Ret _ _ _ _ _ (on_part_Ret _ (reset_return c) _ _ (Objects.ref_run (conn c) k y Hy))).
  change (set_part _ (reset_return c)) with (holding k y c).
  assert (Eb : Objects.bind_at b (part (holding k y c)) = Ret (Objects.mkBind (Some o) k (Objects.builtin_hooks o)) (part (holding k y c))).
  { unfold Objects.bind_at. rewrite (bind_Ret Prelude.get _ _ _ _ eq_refl). change (Objects.bind_heap (part (holding k y c))) with (Objects.bind_heap (conn c)). by rewrite Hb. }
  rewrite (bind_Ret _ _ _ _ _ (on_part_read _ _ _ Eb)). cbn [Objects.b_hooks Objects.builtin_hooks Objects.proxy Objects.cuser2].
  assert (Ec : Objects.DoCall dh_order (invoke_method dh_order user_call call_by m true) mb GET_PROPERTY (Objects.Object o) (holding k y c) = Ret 0 (set_conn (conn c) w')).
  { unfold Objects.DoCall. rewrite (bind_Ret _ _ (holding k y c) w' 0).
    - rewrite Ek. assert (Ef : Objects.adbus_iface_deref dh_order k (part w') = Ret tt (conn c)) by (change (part w') with (conn w'); rewrite Ew; by apply free_held).
      by rewrite (bind_Ret _ _ _ _ _ (on_part_Ret _ w' _ _ Ef)).
    - unfold invoke_method. change (handler dh_order user_call call_by m true GET_PROPERTY (Objects.methodData mb) (Objects.Object o)) with (get m true (Objects.Object o)).
      by rewrite Eg. }
  by rewrite (bind_Ret _ _ _ _ _ Ec).
Qed.

Lemma set_conn_error (m : Message) (name : list Z) (b : Buffer) (k : Objects.iid) (y : Objects.Interface) (c : Client) :
  set_conn (conn c) (error_state m name b (holding k y c)) = error_state m name b (reset_return c).
Proof. by destruct c. Qed.

(** A call of Get whose handler sets up an error. *)
Lemma get_refused (own : Objects.iid -> Z) (E : gmap (list Z * list Z) Objects.Export) (evs : list Objects.event) (c : Client) (m : Message) (s p name e : list Z) :
  reached own E evs (conn c) -> call_ok m s p nP (str "Get") -> can_reply c m -> is_Some (Objects.paths (conn c) !! p) ->
  (forall o ob k y, Objects.objects (conn c) !! o = Some ob -> Objects.o_path ob = p -> Objects.ifaces (conn c) !! k = Some y -> Objects.i_name y = nP ->
    exists op i, get m true (Objects.Object o) (mkCbData (holding k y c) (adbus_iter_args m)) = call_op m true op (mkCbData (holding k y c) i) /\
      forall d, c_msg d = m -> op d = adbus_errorf name e d) ->
  bytes e /\ no_nul e /\ len e < 2 ^ 31 -> field_text name -> name <> [] ->
  refuses dh_order user_call call_by invoke hand_over send m name e c.
Proof.
  intros R Hc Hr Hp Hget (H1 & H2 & H3) Hn Hne. destruct (get_dispatch own E evs c m s p R Hc Hp) as (o & ob & k & y & Ho & Ep & Hy & En & _ & H).
  destruct (Hget o ob k y Ho Ep Hy En) as (op & i & Eg & Hop). destruct (error_run m op name e (holding k y c) i Hop H1 H2 H3) as (b & Eb & Hb).
  rewrite Eb in Eg. specialize (H _ _ Eg eq_refl). rewrite set_conn_error in H. by apply (refused _ _ _ _ _ _ m s p nP (str "Get") name e b).
Qed.

(** The reply to a call of Get that was answered: the value as a variant. *)
Definition replies_value (m : Message) (v : value) (x : Message) : Prop :=
  msg_type x = MSG_RETURN /\ replySerial x = Some (msg_serial m) /\ (forall s, msg_sender m = Some s -> msg_destination x = field_str s) /\
  signature x = Some (str "v") /\ argdata x = enc 0 (VVariant v).

Lemma variant_ready (m : Message) (s p i n : list Z) (v : value) (b : Buffer) (f : MsgFactory) : call_ok m s p i n -> holds_variant v b ->
  len (enc 0 (VVariant v)) < 2 ^ 32 -> f_path f = [] -> reply_ready m (set_argbuf b (adbus_msg_reset f)).
Proof.
  intros [_ _ Hs [Es Hts] _ _ _] (B1 & B2 & B3) Hl Hp. set (g := set_argbuf b (adbus_msg_reset f)). split; [|by vm_compute].
  set (h := completed m 1 g).
  assert (Hh : messageType h = MSG_RETURN /\ serial h = 1 /\ flags h = 1 /\ f_replySerial h = msg_serial m /\ argbuf h = b /\ hasReplySerial h = true)
    by (unfold h, completed; rewrite Es; by destruct f).
  assert (Hf : f_interface h = [] /\ f_member h = [] /\ f_error h = [] /\ f_sender h = [] /\ f_path h = [] /\ f_destination h = s).
  { unfold h, completed. rewrite Es. split_and!; try done. cbn. unfold str_arg. rewrite (proj2 (Z.ltb_ge _ _)) by apply len_nonneg. unfold len. by rewrite Nat2Z.id, firstn_all. }
  clearbody h. destruct Hh as (T1 & T2 & T3 & T4 & T5 & T6), Hf as (U1 & U2 & U3 & U4 & U5 & U6).
  apply wf_short; rewrite ?T2, ?T3, ?T4, ?T5, ?U1, ?U2, ?U3, ?U4, ?U5, ?U6; try apply field_text_nil; try exact Hts; try lia.
  - unfold ready. rewrite T1, T6. reflexivity.
  - rewrite B2. apply bytes_forallb. vm_compute. reflexivity.
  - rewrite B2. vm_compute. reflexivity.
  - by rewrite B1.
  - exact B3.
Qed.

(** A path that is not registered does not export the properties interface. *)
Lemma get_unregistered (c : Client) (m : Message) (s p : list Z) : call_ok m s p nP (str "Get") -> can_reply c m -> Objects.paths (conn c) !! p = None ->
  bytes (no_interface p nP) /\ no_nul (no_interface p nP) /\ len (no_interface p nP) < 2 ^ 31 ->
  refuses dh_order user_call call_by invoke hand_over send m (str "nz.co.foobar.adbus.InvalidInterface") (no_interface p nP) c.
Proof.
  intros Hc Hr Hp (T1 & T2 & T3). apply (refuses_run _ _ _ _ _ _ m s p nP (str "Get") _ _ adbusI_interfaceError); try done;
    [|by intros d Hm; apply (interface_error_text m s p nP (str "Get"))|by apply short_text].
  rewrite (bind_run dh_order user_call call_by m s p nP (str "Get") _ Hc).
  assert (Ei : Objects.adbus_conn_interface p nP (part (reset_return c)) = Ret None (part (reset_return c))).
  { unfold Objects.adbus_conn_interface. rewrite (bind_Ret Prelude.get _ _ _ _ eq_refl). change (part (reset_return c)) with (conn c). by rewrite Hp. }
  rewrite (bind_Ret _ _ (reset_return c) (reset_return c) Objects.InterfaceError); [done|]. unfold Objects.adbusI_dispatchBind.
  by rewrite (bind_Ret _ _ _ _ _ (on_part_read _ _ _ Ei)).
Qed.

Lemma property_error_text (m : Message) (s p : list Z) (d : Call) : call_ok m s p nP (str "Get") -> c_msg d = m ->
  adbusI_propertyError d = adbus_errorf (str "nz.co.foobar.adbus.InvalidProperty") (no_property p) d /\
  adbusI_propReadError d = adbus_errorf (str "nz.co.foobar.adbus.WriteOnlyProperty") (not_readable p) d.
Proof.
  intros [_ _ _ _ [Ep _] [Ei _] [En _]] Hm. unfold adbusI_propertyError, adbusI_propReadError, property_error.
  rewrite !(bind_Ret Prelude.get _ _ _ _ eq_refl), Hm, Ep, Ei, En. by split.
Qed.

(** The state of the objects while the handler runs: looking up an exported
    interface and a property of it. *)
Lemma property_found (own : Objects.iid -> Z) (E : gmap (list Z * list Z) Objects.Export) (c : Objects.Conn) (p iname mname : list Z) (e : Objects.Export)
  (k : Objects.iid) (y : Objects.Interface) : Objects.models ifs nI nP own E c -> E !! (p, iname) = Some e -> Objects.ifaces c !! k = Some y -> Objects.i_name y = nP ->
  exists z, Objects.ifaces c !! Objects.x_iface e = Some z /\ 0 < Objects.i_ref z /\ Objects.x_iface e <> k /\
    Objects.adbus_iface_property (Objects.x_iface e) mname (Objects.held c k y) = Ret (member_of ifs Objects.PROPERTY (Objects.x_iface e) mname) (Objects.held c k y).
Proof.
  intros M Ee Hy En. destruct (Objects.export_user ifs nI nP own E c p iname e M Ee) as (x & z & [Hx Hbu] & _ & Hz & Em). exists z.
  assert (Hne : Objects.x_iface e <> k).
  { intros Ek. rewrite Ek in Hx. destruct (Objects.m_ifaces _ _ _ _ _ _ M k y Hy) as (x' & Hx' & Ex & _). assert (x' = x) as -> by congruence. apply Hbu. right. congruence. }
  split_and!; [done|by destruct (Objects.b_refs _ _ _ _ _ _ (proj2 (Objects.m_ok _ _ _ _ _ _ M)) _ z Hz) as (_ & _ & ?)|done|].
  apply (member_exact ifs _ _ _ _ x z Hx); [|done]. unfold Objects.held. cbn [Objects.ifaces Objects.set_ifaces]. by rewrite lookup_insert_ne by congruence.
Qed.

(** Get of an exported interface: what happens after the lookup of the property. *)
Definition get_found (m : Message) (e : Objects.Export) (mb : option Objects.Member) : H Z :=
  match mb with
  | None => call_op m true adbusI_propertyError
  | Some mb =>
      match Objects.getPropertyCallback mb with
      | None => call_op m true adbusI_propReadError
      | Some f =>
          then* objects (Objects.adbus_iface_ref (Objects.x_iface e)) in
          do* cb := objects (Objects.bind_at (Objects.x_bind e)) in
          let h := Objects.b_hooks cb in
          through call_by h (ProxiedGetProperty dh_order user_call m true mb f (Objects.cuser2 h))
      end
  end.

Section Found.
Context (own : Objects.iid -> Z) (E : gmap (list Z * list Z) Objects.Export) (evs : list Objects.event) (c : Client) (m : Message) (s p iname mname : list Z).
Context (R : reached own E evs (conn c)) (Hc : call_ok m s p nP (str "Get")) (Hr : can_reply c m).
Context (Hm : called_with [VStr STRING iname; VStr STRING mname] m) (Hbu : ~ Objects.builtin nI nP iname).

Lemma get_looked_up (o : Objects.oid) (ob : Objects.ObjectPath) (k : Objects.iid) (y : Objects.Interface) : Objects.objects (conn c) !! o = Some ob ->
  Objects.o_path ob = p -> Objects.ifaces (conn c) !! k = Some y -> Objects.i_name y = nP ->
  exists i, get m true (Objects.Object o) (mkCbData (holding k y c) (adbus_iter_args m)) =
    match E !! (p, iname) with
    | None => call_op m true adbusI_interfaceError
    | Some e => get_found m e (member_of ifs Objects.PROPERTY (Objects.x_iface e) mname)
    end (mkCbData (holding k y c) i).
Proof.
  intros Ho Ep Hy En. destruct (Objects.reached_models dh_order ifs intro props nI nP Hd F own E evs (conn c) R) as [M _].
  pose proof (interface_ifaces p iname (conn c) (<[k := Objects.set_ref (Objects.i_ref y + 1) y]> (Objects.ifaces (conn c))) _ (Objects.lookup_exact _ _ _ own E (conn c) p iname M Hbu)) as Hl.
  destruct (get_begins m p iname mname (holding k y c) o ob _ Hm Ho Ep Hl) as [i Eg]. exists i. rewrite Eg.
  destruct (E !! (p, iname)) as [e|] eqn:Ee; [|done]. destruct (property_found own E (conn c) p iname mname e k y M Ee Hy En) as (z & _ & _ & _ & Epr).
  by rewrite (seq_Ret _ _ _ _ _ (objects_read _ (holding k y c) i _ Epr)).
Qed.

(** The getter is called, and its value is sent. *)
Lemma get_answered (e : Objects.Export) (mb : Objects.Member) (f : Objects.callback) (v : value) : is_Some (Objects.paths (conn c) !! p) -> E !! (p, iname) = Some e ->
  member_of ifs Objects.PROPERTY (Objects.x_iface e) mname = Some mb -> Objects.getPropertyCallback mb = Some f ->
  getter_gives m mb f (Objects.cuser2 (Objects.x_hooks e)) v -> Objects.propertyType mb = Some (sig_of (ty_of v)) -> wf 0 (VVariant v) -> canon v ->
  exists b, holds_variant v b /\ dispatch_bind m true (reset_return c) = Ret 0 (with_buf b (reset_return c)).
Proof.
  clear Hr. intros Hp Ee Emb Ef Hg Et Hw Hcv. destruct (get_dispatch own E evs c m s p R Hc Hp) as (o & ob & k & y & Ho & Ep & Hy & En & _ & Hdis).
  destruct (get_looked_up o ob k y Ho Ep Hy En) as [i Eg]. rewrite Ee, Emb in Eg. unfold get_found in Eg. rewrite Ef in Eg.
  destruct (Objects.reached_models dh_order ifs intro props nI nP Hd F own E evs (conn c) R) as [M _]. pose proof (member_iface ifs intro props nI nP F _ _ _ _ Emb) as Emi.
  destruct (property_found own E (conn c) p iname mname e k y M Ee Hy En) as (z & Hz & Hrz & Hne & _).
  set (c2 := conn (holding k y c)) in *. assert (Hz2 : Objects.ifaces c2 !! Objects.x_iface e = Some z).
  { unfold c2, holding, Objects.held. cbn [conn set_conn Objects.ifaces Objects.set_ifaces]. by rewrite lookup_insert_ne by congruence. }
  rewrite (seq_Ret _ _ _ _ _ (objects_run _ (holding k y c) i _ _ (Objects.ref_run c2 _ z Hz2))) in Eg. set (w2 := set_conn _ _) in Eg.
  pose proof (proj2 (proj1 (Objects.m_exports _ _ _ _ _ _ M p iname e) Ee)) as (o' & t & _ & _ & _ & Hb).
  assert (Eb : Objects.bind_at (Objects.x_bind e) (conn w2) = Ret (Objects.mkBind (Some o') (Objects.x_iface e) (Objects.x_hooks e)) (conn w2)).
  { unfold Objects.bind_at. rewrite (bind_Ret Prelude.get _ _ _ _ eq_refl). change (Objects.bind_heap (conn w2)) with (Objects.bind_heap (conn c)). by rewrite Hb. }
  rewrite (seq_Ret _ _ _ _ _ (objects_read _ w2 i _ Eb)) in Eg. cbn [Objects.b_hooks] in Eg. cbv zeta in Eg.
  assert (Eg2 : get m true (Objects.Object o) (mkCbData (holding k y c) (adbus_iter_args m)) =
    ProxiedGetProperty dh_order user_call m true mb f (Objects.cuser2 (Objects.x_hooks e)) (mkCbData w2 i))
    by (rewrite Eg; unfold through; destruct (Objects.proxy (Objects.x_hooks e)); [by rewrite Hby|done]).
  destruct (getter_run m v w2 i mb f (Objects.cuser2 (Objects.x_hooks e)) z c2 (returnMessage c) Hg Et Hw Hcv eq_refl ltac:(by rewrite Emi) Hrz ltac:(by rewrite Emi))
    as (b & Hb2 & E2). rewrite E2 in Eg2. exists b. split; [done|]. rewrite (Hdis _ _ Eg2 eq_refl). unfold w2, with_buf, holding. by destruct c.
Qed.

(** The reply that carries the value. *)
Lemma value_sent (v : value) (b : Buffer) : holds_variant v b -> len (enc 0 (VVariant v)) < 2 ^ 32 ->
  dispatch_bind m true (reset_return c) = Ret 0 (with_buf b (reset_return c)) ->
  exists x c', conn_dispatch m c = Ret 0 c' /\ log c' = log c ++ [Sent x] /\ conn c' = conn c /\ replies_value m v x.
Proof.
  intros Hb Hlen E1. destruct (dispatch_replied dh_order user_call call_by invoke hand_over send m c _ (co_wants _ _ _ _ _ Hc) (co_size _ _ _ _ _ Hc) E1) as (x & c' & E' & Hx & Hlog & Ho').
  { exact (cr_serial _ _ Hr). } { apply (variant_ready m s p nP (str "Get") v); [done|done|done|exact (cr_path _ _ Hr)]. } { exact (cr_match _ _ Hr). }
  exists x, c'. split; [done|]. split; [done|]. split; [done|]. destruct Hx as [X1 X2 X3 _ _ _ X5 X6]. destruct Hb as (B1 & B2 & _).
  change (returnMessage (with_buf b (reset_return c))) with (set_argbuf b (adbus_msg_reset (returnMessage c))) in *.
  split_and!; [done|done|done| |by rewrite X6]. rewrite X5. cbn [argbuf set_argbuf]. rewrite B2, (proj2 (Z.ltb_lt _ _)); [done|]. rewrite B1. cbn [enc].
  rewrite len_app. unfold enc_signature. pose proof (len_nonneg (enc (0 + len (enc_signature (sig_of (ty_of v)))) v)). unfold len in *. cbn [length app]. lia.
Qed.
End Found.

(** What a call of Get is answered with.  The texts of the errors name Get of
    the properties interface and not what was asked for. *)
Lemma get_answers (own : Objects.iid -> Z) (E : gmap (list Z * list Z) Objects.Export) (evs : list Objects.event) (c : Client) (m : Message)
  (s p iname mname : list Z) : reached own E evs (conn c) -> call_ok m s p nP (str "Get") -> can_reply c m ->
  called_with [VStr STRING iname; VStr STRING mname] m -> ~ Objects.builtin nI nP iname ->
  let refused_as name e := refuses dh_order user_call call_by invoke hand_over send m name e c in
  match E !! (p, iname) with
  | None => refused_as (str "nz.co.foobar.adbus.InvalidInterface") (no_interface p nP)
  | Some e =>
      match member_of ifs Objects.PROPERTY (Objects.x_iface e) mname with
      | None => refused_as (str "nz.co.foobar.adbus.InvalidProperty") (no_property p)
      | Some mb =>
          match Objects.getPropertyCallback mb with
          | None => refused_as (str "nz.co.foobar.adbus.WriteOnlyProperty") (not_readable p)
          | Some f => forall v, getter_gives m mb f (Objects.cuser2 (Objects.x_hooks e)) v -> Objects.propertyType mb = Some (sig_of (ty_of v)) ->
              wf 0 (VVariant v) -> canon v -> len (enc 0 (VVariant v)) < 2 ^ 32 ->
              exists x c', conn_dispatch m c = Ret 0 c' /\ log c' = log c ++ [Sent x] /\ conn c' = conn c /\ replies_value m v x
          end
      end
  end.
Proof.
  intros R Hc Hr Hm Hbu. cbv zeta. pose proof (get_looked_up own E evs c m p iname mname R Hm Hbu) as Hget.
  destruct (texts_ok p nP (str "Get") (proj2 (co_path _ _ _ _ _ Hc)) (proj2 (co_interface _ _ _ _ _ Hc)) (proj2 (co_member _ _ _ _ _ Hc))) as [T1 _].
  destruct (property_texts p (proj2 (co_path _ _ _ _ _ Hc)) (proj2 (co_interface _ _ _ _ _ Hc))) as [T2 T3].
  destruct (Objects.paths (conn c) !! p) as [o0|] eqn:Ep0.
  2:{ destruct (E !! (p, iname)) as [e|] eqn:Ee; [|by apply (get_unregistered c m s p)].
      destruct (Objects.reached_models dh_order ifs intro props nI nP Hd F own E evs (conn c) R) as [M _].
      apply (Objects.m_exports _ _ _ _ _ _ M) in Ee as [_ (o & t & Hp & _)]. congruence. }
  assert (Hp : is_Some (Objects.paths (conn c) !! p)) by (by exists o0). clear Ep0.
  destruct (E !! (p, iname)) as [e|] eqn:Ee; [destruct (member_of _ _ _ _) as [mb|] eqn:Emb; [destruct (Objects.getPropertyCallback mb) as [f|] eqn:Ef|]|].
  - intros v Hg Et Hw Hcv Hlen. destruct (get_answered own E evs c m s p iname mname R Hc Hm Hbu e mb f v) as (b & Hb & E1); try done.
    by apply (value_sent c m s p Hc Hr v b).
  - apply (get_refused own E evs c m s p _ _ R Hc Hr Hp); [|done|by apply short_text|done]. intros o ob k y Ho Ep Hy En.
    destruct (Hget o ob k y Ho Ep Hy En) as [i Eg]. unfold get_found in Eg. rewrite Ef in Eg. exists adbusI_propReadError, i. split; [done|].
    intros d Hd'. by apply (property_error_text m s p).
  - apply (get_refused own E evs c m s p _ _ R Hc Hr Hp); [|done|by apply short_text|done]. intros o ob k y Ho Ep Hy En.
    destruct (Hget o ob k y Ho Ep Hy En) as [i Eg]. exists adbusI_propertyError, i. split; [done|]. intros d Hd'. by apply (property_error_text m s p).
  - apply (get_refused own E evs c m s p _ _ R Hc Hr Hp); [|done|by apply short_text|done]. intros o ob k y Ho Ep Hy En.
    destruct (Hget o ob k y Ho Ep Hy En) as [i Eg]. exists adbusI_interfaceError, i. split; [done|]. intros d Hd'. by apply (interface_error_text m s p nP (str "Get")).
Qed.

(** C9: reading a property.  A well-formed call of Get without flags, for which
    there is no match, is answered with the value that the getter appends, as a
    variant, and leaves the objects as they were.  When the path does not have
    the interface, or the interface no such property, or the property cannot be
    read, it is answered with the error that is for this case, and nothing else
    changes.  (For the texts of the errors see [get_answers].) *)
Theorem property_read (own : Objects.iid -> Z) (E : gmap (list Z * list Z) Objects.Export) (evs : list Objects.event) (c : Client) (m : Message)
  (s p iname mname : list Z) : reached own E evs (conn c) -> call_ok m s p nP (str "Get") -> can_reply c m ->
  called_with [VStr STRING iname; VStr STRING mname] m -> ~ Objects.builtin nI nP iname ->
  let refused_as name := exists text, refuses dh_order user_call call_by invoke hand_over send m name text c in
  match E !! (p, iname) with
  | None => refused_as (str "nz.co.foobar.adbus.InvalidInterface")
  | Some e =>
      match member_of ifs Objects.PROPERTY (Objects.x_iface e) mname with
      | None => refused_as (str "nz.co.foobar.adbus.InvalidProperty")
      | Some mb =>
          match Objects.getPropertyCallback mb with
          | None => refused_as (str "nz.co.foobar.adbus.WriteOnlyProperty")
          | Some f => forall v, getter_gives m mb f (Objects.cuser2 (Objects.x_hooks e)) v -> Objects.propertyType mb = Some (sig_of (ty_of v)) ->
              wf 0 (VVariant v) -> canon v -> len (enc 0 (VVariant v)) < 2 ^ 32 ->
              exists x c', conn_dispatch m c = Ret 0 c' /\ log c' = log c ++ [Sent x] /\ conn c' = conn c /\ replies_value m v x
          end
      end
  end.
Proof.
  intros R Hc Hr Hm Hbu. cbv zeta. pose proof (get_answers own E evs c m s p iname mname R Hc Hr Hm Hbu) as H. cbv zeta in H.
  destruct (E !! (p, iname)) as [e|]; [|by eexists]. destruct (member_of _ _ _ _) as [mb|]; [|by eexists].
  destruct (Objects.getPropertyCallback mb); [exact H|by eexists].
Qed.
End Get.

(** ** Witness: the property n of the interface u at /a/b is 5 *)
Section Samples.
#[local] Existing Instance debug_build.

Definition nI : list Z := str "org.freedesktop.DBus.Introspectable".
Definition nP : list Z := str "org.freedesktop.DBus.Properties".
Definition number_member : Objects.Member :=
  Objects.mkMember (str "n") 2%nat Objects.PROPERTY (Some (str "u")) [] [] [] [] ∅ None (Some 5%nat) None None None Objects.Null Objects.Null Objects.Null Objects.Null Objects.Null.
Definition number_iface : Objects.Interface := Objects.mkInterface (str "u") 1 {[str "n" := number_member]}.
Definition number_ifaces : gmap Objects.iid Objects.Interface := <[2%nat := number_iface]> (Objects.ifaces conn_objects).
Definition number_start : Objects.Conn := Objects.conn_start number_ifaces 0%nat 1%nat.
Definition number_client : Client :=
  set_conn (match Objects.adbus_conn_bind Objects.sample_bind number_start with Ret _ c => c | _ => number_start end) adbus_conn_new.
Definition number_export : Objects.Export := Objects.mkExport 6%nat 2%nat (Objects.hooks Objects.sample_bind).
Definition number_exports : gmap (list Z * list Z) Objects.Export := <[(str "/a/b", str "u") := number_export]> ∅.
Definition get_call : Message := sample_message MSG_METHOD [str "u"; str "n"]
  (fun f => adbus_msg_setsender (str ":1.5") (-1) (adbus_msg_setmember (str "Get") (-1) (adbus_msg_setinterface nP (-1) (adbus_msg_setpath (str "/a/b") (-1) f)))).
Definition gives_five (m : Message) (ret : bool) (f : Objects.callback) (u1 u2 : Objects.pointer) : H Z :=
  call_op m ret (then* on_args (write (VNum UINT32 5)) in done_ 0).

Lemma number_all (P : Objects.iid -> Objects.Interface -> Prop) : P 2%nat number_iface -> (forall i x, Objects.ifaces conn_objects !! i = Some x -> P i x) ->
  forall i x, number_ifaces !! i = Some x -> P i x.
Proof. intros H1 H2 i x. unfold number_ifaces. rewrite lookup_insert. case_decide; [by intros [= <-]; subst|apply H2]. Qed.

Lemma builtin_all (P : Objects.iid -> Objects.Interface -> Prop) : Forall (fun p => P p.1 p.2) (map_to_list (Objects.ifaces conn_objects)) ->
  forall i x, Objects.ifaces conn_objects !! i = Some x -> P i x.
Proof. intros H i x Hx. apply elem_of_map_to_list in Hx. rewrite Forall_forall in H. exact (H _ Hx). Qed.

Lemma number_good : Objects.ifaces_good number_ifaces 0%nat 1%nat nI nP.
Proof.
  split.
  - eexists. split; vm_compute; reflexivity.
  - eexists. split; vm_compute; reflexivity.
  - by vm_compute.
  - apply (number_all (fun _ x => 1 <= Objects.i_ref x)); [by vm_compute|]. apply (builtin_all (fun _ x => 1 <= Objects.i_ref x)). vm_compute. repeat constructor; discriminate.
  - intros i x n m Hx. revert n m. revert i x Hx. apply (number_all (fun i x => map_Forall (fun _ m => Objects.m_interface m = i) (Objects.members x))).
    + apply map_Forall_to_list. vm_compute. by repeat constructor.
    + apply (builtin_all (fun i x => map_Forall (fun _ m => Objects.m_interface m = i) (Objects.members x))).
      assert (E : Forall (fun p => Forall (fun q => Objects.m_interface q.2 = p.1) (map_to_list (Objects.members p.2))) (map_to_list (Objects.ifaces conn_objects)))
        by (vm_compute; by repeat constructor).
      eapply Forall_impl; [exact E|]. intros p Hp. apply map_Forall_to_list. eapply Forall_impl; [exact Hp|]. by intros [].
Qed.

Lemma number_library (i : Objects.iid) (x : Objects.Interface) : number_ifaces !! i = Some x -> Objects.i_name x = nP ->
  exists mb, member_of number_ifaces Objects.METHOD i (str "Get") = Some mb /\ Objects.methodCallback mb = Some GET_PROPERTY.
Proof.
  intros Hx Hn. assert (Ei : i = 1%nat); [|subst; eexists; split; vm_compute; reflexivity].
  revert Hn. revert i x Hx. apply (number_all (fun i x => Objects.i_name x = nP -> i = 1%nat)); [vm_compute; discriminate|].
  apply (builtin_all (fun i x => Objects.i_name x = nP -> i = 1%nat)). vm_compute. repeat constructor; congruence.
Qed.

Lemma number_reached : Objects.reached Objects.sample_order number_ifaces 0%nat 1%nat nI nP (Objects.own0 number_ifaces) number_exports [] (conn number_client).
Proof.
  refine (Objects.reached_bind Objects.sample_order number_ifaces 0%nat 1%nat nI nP (Objects.own0 number_ifaces) ∅ [] number_start Objects.sample_bind number_iface (Some 6%nat) _ _ _ _).
  - apply Objects.reached_start.
  - split_and!; [split; [reflexivity|vm_compute; intros [?|?]; discriminate]|by vm_compute|by vm_compute].
  - vm_compute. reflexivity.
Qed.

Lemma get_call_ok : call_ok get_call (str ":1.5") (str "/a/b") nP (str "Get") /\ called_with [VStr STRING (str "u"); VStr STRING (str "n")] get_call.
Proof.
  split.
  - split; try (vm_compute; reflexivity); [by vm_compute|vm_compute; split; [discriminate|reflexivity]|..];
      (split; [vm_compute; reflexivity|apply short_text; vm_compute; reflexivity]).
  - assert (T : forall e, field_text e -> wf_str STRING e) by (intros e (? & ? & ?); split_and!; [done|done|done|lia]).
    split_and!; [vm_compute; reflexivity..|]. split; [|split; [|done]]; (apply T, short_text; vm_compute; reflexivity).
Qed.

Lemma property_read_witness : exists x c', adbus_conn_dispatch Objects.sample_order gives_five directly quiet handed (Some msg_size) get_call number_client = Ret 0 c' /\
  log c' = [Sent x] /\ signature x = Some (str "v") /\ argdata x = enc 0 (VVariant (VNum UINT32 5)).
Proof.
  destruct get_call_ok as [Hc Hm].
  pose proof (property_read Objects.sample_order gives_five directly quiet handed msg_size number_ifaces 0%nat 1%nat nI nP Objects.sample_perm number_good
    (fun _ _ _ _ _ => eq_refl) number_library (Objects.own0 number_ifaces) number_exports [] number_client get_call (str ":1.5") (str "/a/b") (str "u") (str "n")
    number_reached Hc) as X.
  assert (Hr : can_reply number_client get_call) by (split; [vm_compute; split; [discriminate|reflexivity]|reflexivity|by apply Forall_nil]).
  specialize (X Hr Hm ltac:(vm_compute; intros [?|?]; discriminate)). cbv zeta in X.
  assert (Ee : number_exports !! (str "/a/b", str "u") = Some number_export) by apply lookup_insert_eq. rewrite Ee in X.
  assert (Emb : member_of number_ifaces Objects.PROPERTY (Objects.x_iface number_export) (str "n") = Some number_member) by (vm_compute; reflexivity). rewrite Emb in X.
  change (Objects.getPropertyCallback number_member) with (Some 5%nat) in X.
  destruct (X (VNum UINT32 5)) as (x & c' & E & Hl & _ & (_ & _ & _ & Hs & Ha)).
  - intros d. reflexivity.
  - reflexivity.
  - split; [vm_compute; reflexivity|]. split; [vm_compute; tauto|vm_compute; split; [discriminate|reflexivity]].
  - discriminate.
  - vm_compute. reflexivity.
  - exists x, c'. split; [exact E|]. split; [exact Hl|]. split; [exact Hs|exact Ha].
Defined.

(** GetAll stops at the assertion of adbus_buf_enddictentry after the first
    property. *)
Definition get_all_call : Message := sample_message MSG_METHOD [str "u"]
  (fun f => adbus_msg_setsender (str ":1.5") (-1) (adbus_msg_setmember (str "GetAll") (-1) (adbus_msg_setinterface nP (-1) (adbus_msg_setpath (str "/a/b") (-1) f)))).
Lemma get_all_stops : adbus_conn_dispatch Objects.sample_order gives_five directly quiet handed (Some msg_size) get_all_call number_client = Abort.
Proof. vm_compute. reflexivity. Qed.

(** A getter that fails makes the dispatch fail: no reply is sent. *)
Definition fails_ (m : Message) (ret : bool) (f : Objects.callback) (u1 u2 : Objects.pointer) : H Z := call_op m ret (adbus_errorf (str "a.Failed") (str "no")).
Lemma get_all_error_dropped : match adbus_conn_dispatch Objects.sample_order fails_ directly quiet handed (Some msg_size) get_all_call number_client with
  | Ret r c => r = -1 /\ log c = [] | _ => False end.
Proof. vm_compute. split; reflexivity. Qed.
End Samples.
