(* ===== verification/Signals.v ===== *)
(** Emitting signals (adbus/signal.c): a signal is bound to paths of any
    number of connections, and one message is sent for each. *)

From Stdlib Require Import ZArith Lia.
From stdpp Require Import base option list numbers strings gmap.
From S2P Require Import Prelude Objects Names Signature Iterator Values Buffer MatchRule Message Factory Server Bus Client Watching Answering.
#[local] Open Scope Z_scope.
#[local] Open Scope adbus_scope.

(** ** Connections

    The state is every connection of the process, by number. *)
Definition cid : Type := nat.
Notation World := (gmap nat Client).

Definition on_client {A} (i : cid) (op : M Client A) : M World A := fun w =>
  match w !! i with
  | None => Oob
  | Some c =>
      match op c with
      | Ret a c => Ret a (<[i := c]> w)
      | Err c => Err (<[i := c]> w)
      | Abort => Abort | Oob => Oob | Nofuel => Nofuel
      end
  end.

(** ** The signal

    [struct Bind] and [struct adbus_Signal]; the message is gone once it was
    freed.  [s_home] is the connection whose heap of interfaces holds the
    interface of the member. *)
Record SigBind := mkSigBind { s_connection : cid; s_path : list Z }.
Record Signal := mkSignal { s_message : option MsgFactory; s_binds : list SigBind; s_member : Objects.Member; s_home : cid }.
Definition set_message (f : option MsgFactory) (s : Signal) : Signal := mkSignal f (s_binds s) (s_member s) (s_home s).

Section Signals.
Context {B : Build} (dh_order : forall A : Type, gmap (list Z) A -> list (list Z * A)).
Context (send_message : option (Message -> Z)).

(** An operation on the interfaces. *)
Definition on_interfaces {A} (s : Signal) (op : M Objects.Conn A) : M World A := on_client (s_home s) (on_part op).

Definition adbus_sig_new (home : cid) (mbr : Objects.Member) : M World Signal :=
  let s := mkSignal (Some adbus_msg_new) [] mbr home in
  run* on_interfaces s (Objects.adbus_iface_ref (Objects.m_interface mbr)) in
  ret s.

Definition adbus_sig_reset (s : Signal) : M World Signal :=
  match s_message s with
  | None => oob
  | Some _ => ret (mkSignal None [] (s_member s) (s_home s))
  end.

Definition adbus_sig_free (s : Signal) : M World unit :=
  let* s := adbus_sig_reset s in
  on_interfaces s (Objects.adbus_iface_deref dh_order (Objects.m_interface (s_member s))).

Definition adbus_sig_bind (s : Signal) (c : cid) (path : list Z) (pathSize : Z) : Signal :=
  mkSignal (s_message s) (s_binds s ++ [mkSigBind c (sized path pathSize)]) (s_member s) (s_home s).

Definition adbus_sig_msg (s : Signal) : M World Signal :=
  let* m := of_option (s_message s) in
  let m := adbus_msg_reset m in
  let g := Objects.argsig (s_member s) in
  match adbus_buf_setsig g (len g) (argbuf m) with
  | Ret _ b => ret (set_message (Some (set_argbuf b m)) s)
  | Err _ => err
  | Abort => fun _ => Abort
  | Oob => oob
  | Nofuel => nofuel
  end.

(** One round of the loop of [adbus_sig_emit], on the connection. *)
Definition emit_to (path : list Z) (m : MsgFactory) : M Client MsgFactory :=
  let m := adbus_msg_setflags 1 (adbus_msg_settype MSG_SIGNAL m) in
  let* n := Client.adbus_conn_serial in
  let m := adbus_msg_setpath path (len path) (adbus_msg_setserial n m) in
  let* r := Client.adbus_msg_send send_message m in
  ret (snd r).
Fixpoint emit_loop (l : list SigBind) (m : MsgFactory) : M World MsgFactory :=
  match l with
  | [] => ret m
  | b :: l => let* m := on_client (s_connection b) (emit_to (s_path b) m) in emit_loop l m
  end.

Definition adbus_sig_emit (s : Signal) : M World Signal :=
  let* m := of_option (s_message s) in
  let* x := on_interfaces s (Objects.iface (Objects.m_interface (s_member s))) in
  match adbus_buf_end (argbuf m) with
  | Ret _ b =>
      let m := adbus_msg_setmember (Objects.m_name (s_member s)) (len (Objects.m_name (s_member s))) (set_argbuf b m) in
      let m := adbus_msg_setinterface (Objects.i_name x) (len (Objects.i_name x)) m in
      let* m := emit_loop (s_binds s) m in
      adbus_sig_msg (set_message (Some m) s)
  | Err _ => err
  | Abort => fun _ => Abort
  | Oob => oob
  | Nofuel => nofuel
  end.
End Signals.

(** ** What is sent *)

(** The message [x] is the signal with the arguments of [f], at [path]. *)
Record is_signal (f : MsgFactory) (mbr iface path : list Z) (x : Message) : Prop := {
  is_type : msg_type x = MSG_SIGNAL;
  is_path : msg_path x = Some path;
  is_interface : msg_interface x = Some iface;
  is_member : msg_member x = Some mbr;
  is_serial : 1 <= msg_serial x < 2 ^ 32 - 1;
  is_signature : signature x = if 0 <? len (b_data (argbuf f)) then Some (adbus_buf_sig (argbuf f)) else None;
  is_args : argdata x = b_data (argbuf f) }.

(** What connection [i] sends when [xs] are the messages for [bs]. *)
Fixpoint sent_by (i : cid) (bs : list SigBind) (xs : list Message) : list event :=
  match bs, xs with
  | b :: bs, x :: xs => (if decide (s_connection b = i) then [Sent x] else []) ++ sent_by i bs xs
  | _, _ => []
  end.

(** The factory as it is sent for [path] with serial [n]. *)
Definition signal_factory (path : list Z) (n : Z) (f : MsgFactory) : MsgFactory :=
  adbus_msg_setpath path (len path) (adbus_msg_setserial n (adbus_msg_setflags 1 (adbus_msg_settype MSG_SIGNAL f))).

(** The same factory, but for its buffer and what every round sets. *)
Definition alike (f g : MsgFactory) : Prop := forall path n, exists b, signal_factory path n g = set_buf b (signal_factory path n f).

Section Emit.
Context {B : Build} (send : Message -> Z).
Notation emit_to := (emit_to (Some send)).
Notation emit_loop := (emit_loop (Some send)).

Lemma str_arg_len (s : list Z) : str_arg s (len s) = s.
Proof. unfold str_arg. rewrite (proj2 (Z.ltb_ge _ _)) by apply len_nonneg. unfold len. by rewrite Nat2Z.id, firstn_all. Qed.

Lemma field_some (s : list Z) : s <> [] -> field_str s = Some s.
Proof. by destruct s. Qed.

Lemma alike_sent (f g : MsgFactory) (path : list Z) (n : Z) (b : Buffer) : alike f g -> alike f (set_buf b (signal_factory path n g)).
Proof. intros H p k. destruct (H p k) as [b' E]. exists b. change (set_buf b (signal_factory p k g) = set_buf b (signal_factory p k f)). by rewrite E. Qed.

(** What makes the signal fit to be sent. *)
Record emittable (f : MsgFactory) (mbr iface : list Z) : Prop := {
  em_member : f_member f = mbr /\ field_text mbr /\ mbr <> [];
  em_interface : f_interface f = iface /\ field_text iface /\ iface <> [];
  em_rest : f_error f = [] /\ f_destination f = [] /\ f_sender f = [] /\ f_replySerial f = 0;
  em_signature : bytes (adbus_buf_sig (argbuf f)) /\ len (adbus_buf_sig (argbuf f)) < 255;
  em_args : len (b_data (argbuf f)) < 2 ^ 32;
  em_complete : at_sigptr (b_sig (argbuf f)) (b_sigp (argbuf f)) = Some [] }.

Lemma emittable_wf (f : MsgFactory) (mbr iface path : list Z) (n : Z) : emittable f mbr iface -> field_text path -> 1 <= n < 2 ^ 32 ->
  wf_factory (signal_factory path n f).
Proof.
  intros [(M1 & M2 & M3) (I1 & I2 & I3) (R1 & R2 & R3 & R4) [S1 S2] A C] Hp Hn.
  apply wf_short; cbn [signal_factory serial flags f_replySerial f_interface f_member f_error f_destination f_sender f_path argbuf adbus_msg_setpath adbus_msg_setserial
    adbus_msg_setflags adbus_msg_settype]; rewrite ?M1, ?I1, ?R1, ?R2, ?R3, ?R4, ?str_arg_len; try apply field_text_nil; try done; try lia.
  unfold ready. cbn [messageType f_interface f_member signal_factory adbus_msg_setpath adbus_msg_setserial adbus_msg_setflags adbus_msg_settype]. rewrite I1, M1.
  rewrite !(proj2 (Z.ltb_lt _ _)); [done|destruct mbr; [done|unfold len; cbn [length]; lia]|destruct iface; [done|unfold len; cbn [length]; lia]].
Qed.

Lemma emit_to_run (f g : MsgFactory) (mbr iface path : list Z) (c : Client) : emittable f mbr iface -> alike f g -> field_text path -> path <> [] ->
  1 <= nextSerial c < 2 ^ 32 -> exists x g' c', emit_to path g c = Ret g' c' /\ alike f g' /\ is_signal f mbr iface path x /\
    log c' = log c ++ [Sent x] /\ conn c' = conn c /\ 1 <= nextSerial c' < 2 ^ 32.
Proof.
  intros He Ha Hp Hpn Hc. destruct (serial_step c Hc) as [Es Hk]. cbv zeta in Es. set (n := serial_now (nextSerial c)) in *.
  destruct (Ha path n) as [b0 Eg]. pose proof (emittable_wf f mbr iface path n He Hp ltac:(lia)) as Hw.
  assert (Hwg : wf_factory (signal_factory path n g)) by (rewrite Eg; by destruct Hw).
  destruct (msg_build_ok _ Hwg) as (arr & sp & Eb). cbv zeta in Eb. set (h := set_buf _ (signal_factory path n g)) in Eb.
  assert (Eh : exists b, h = set_buf b (signal_factory path n f)) by (unfold h; rewrite Eg; by eexists). destruct Eh as [b Eh].
  exists (built_message h), h, (set_log (log c ++ [Sent (built_message h)]) (set_nextSerial (n + 1) c)). split_and!.
  - unfold Signals.emit_to. rewrite (bind_Ret _ _ _ _ _ Es). unfold Client.adbus_msg_send. change (adbus_msg_setpath path (len path) _) with (signal_factory path n g).
    change (adbus_msg_serial (signal_factory path n g)) with n. rewrite (proj2 (Z.ltb_ge _ _)) by lia. rewrite bind_assoc. rewrite (bind_Ret (ret _) _ _ _ _ eq_refl), Eb.
    unfold adbus_conn_send. assert (En : msg_serial (built_message h) = n) by (rewrite Eh; cbn; by apply Z.mod_small; lia).
    rewrite En, (proj2 (Z.eqb_neq _ _)) by lia. cbn [negb]. rewrite !bind_assoc, (bind_Ret (assert_ true) _ _ _ tt eq_refl). reflexivity.
  - unfold h. by apply alike_sent.
  - destruct He as [(M1 & _ & M3) (I1 & _ & I3) _ _ _ _]. split; rewrite ?Eh.
    + reflexivity.
    + cbn. rewrite str_arg_len. by apply field_some.
    + cbn. rewrite I1. by apply field_some.
    + cbn. rewrite M1. by apply field_some.
    + cbn. rewrite Z.mod_small by lia. lia.
    + unfold built_message. cbn [signature argbuf set_buf signal_factory adbus_msg_setpath]. reflexivity.
    + rewrite <- Eh. unfold h. rewrite built_args by done. rewrite Eg. reflexivity.
  - reflexivity.
  - reflexivity.
  - cbn. lia.
  - cbn. lia.
Qed.

(** *** The loop over the binds *)

(** Every connection that is bound exists, and its serials are in range. *)
Definition bound_ok (w : World) (b : SigBind) : Prop := is_Some (w !! s_connection b) /\ field_text (s_path b) /\ s_path b <> [].
Definition serials_ok (w : World) : Prop := forall i c, w !! i = Some c -> 1 <= nextSerial c < 2 ^ 32.

(** [w'] is [w] after the messages [xs] were sent for the binds [bs]. *)
Definition sent (bs : list SigBind) (xs : list Message) (w w' : World) : Prop := forall i,
  match w !! i with
  | None => w' !! i = None
  | Some c => exists c', w' !! i = Some c' /\ log c' = log c ++ sent_by i bs xs /\ conn c' = conn c
  end.

Lemma sent_nil (w : World) : sent [] [] w w.
Proof. intros i. destruct (w !! i) as [c|] eqn:E; [|done]. exists c. by rewrite app_nil_r. Qed.

Lemma sent_cons (b : SigBind) (x : Message) (bs : list SigBind) (xs : list Message) (w w' : World) (c c1 : Client) : w !! s_connection b = Some c ->
  log c1 = log c ++ [Sent x] -> conn c1 = conn c -> sent bs xs (<[s_connection b := c1]> w) w' -> sent (b :: bs) (x :: xs) w w'.
Proof.
  intros Hc Hl Ho H i. specialize (H i). cbn [sent_by]. destruct (decide (s_connection b = i)) as [<-|Hne].
  - rewrite lookup_insert_eq in H. rewrite Hc. destruct H as (c' & E & El & Eo). exists c'. split; [done|]. rewrite El, Hl, <- app_assoc. split; [done|congruence].
  - by rewrite lookup_insert_ne in H.
Qed.

Lemma emit_loop_run (f : MsgFactory) (mbr iface : list Z) (bs : list SigBind) : emittable f mbr iface -> forall g w, alike f g -> Forall (bound_ok w) bs -> serials_ok w ->
  exists xs g' w', emit_loop bs g w = Ret g' w' /\ alike f g' /\ Forall2 (fun b x => is_signal f mbr iface (s_path b) x) bs xs /\ sent bs xs w w' /\ serials_ok w'.
Proof.
  intros He. induction bs as [|b bs IH]; intros g w Ha Hb Hs.
  - exists [], g, w. split_and!; [done|done|constructor|apply sent_nil|done].
  - apply Forall_cons in Hb as [([c Hc] & Hp & Hpn) Hb]. destruct (emit_to_run f g mbr iface (s_path b) c He Ha Hp Hpn (Hs _ _ Hc)) as (x & g1 & c1 & E1 & Ha1 & Hx & Hl & Ho & Hn).
    destruct (IH g1 (<[s_connection b := c1]> w) Ha1) as (xs & g' & w' & E2 & Ha2 & Hxs & Hsent & Hs2).
    { eapply Forall_impl; [exact Hb|]. intros b' ([c' Hc'] & ? & ?). split; [|done]. rewrite lookup_insert. case_decide; by eexists. }
    { intros i c'. rewrite lookup_insert. case_decide; [by intros [= <-]|apply Hs]. }
    exists (x :: xs), g', w'. split_and!; [|done|by constructor|by apply (sent_cons b x bs xs w w' c c1)|done].
    cbn [Signals.emit_loop]. rewrite (bind_Ret _ _ w (<[s_connection b := c1]> w) g1); [done|]. unfold on_client. by rewrite Hc, E1.
Qed.

(** The message is ready for the arguments of the member. *)
Lemma sig_msg_run (s : Signal) (g : MsgFactory) (w : World) : s_message s = Some g -> no_nul (Objects.argsig (s_member s)) -> len (Objects.argsig (s_member s)) <= 255 ->
  exists arr, adbus_sig_msg s w = Ret (set_message (Some (set_argbuf (mkBuf [] arr (Own 0)) (adbus_msg_reset g))) s) w /\ cstr arr = Objects.argsig (s_member s).
Proof.
  intros Eg G2 G3. unfold adbus_sig_msg. rewrite Eg, (bind_Ret (of_option (Some g)) _ _ _ _ eq_refl).
  set (m := adbus_msg_reset g). assert (Emb : argbuf m = mkBuf [] (b_sig (argbuf m)) (Own 0)) by (by destruct g as [? []]). rewrite Emb.
  destruct (setsig_any (Objects.argsig (s_member s)) [] (b_sig (argbuf m)) (Own 0) (len (Objects.argsig (s_member s))) G2 G3 (or_intror eq_refl)) as (arr & Eset & Earr).
  exists arr. by rewrite Eset.
Qed.

(** A signal whose arguments were appended to what [adbus_sig_msg] gave. *)
Record signal_ready (w : World) (s : Signal) (f : MsgFactory) (x : Objects.Interface) : Prop := {
  sr_message : exists g b, f = set_argbuf b (adbus_msg_reset g) /\ s_message s = Some f;
  sr_interface : exists c, w !! s_home s = Some c /\ Objects.ifaces (conn c) !! Objects.m_interface (s_member s) = Some x;
  sr_names : field_text (Objects.m_name (s_member s)) /\ Objects.m_name (s_member s) <> [] /\ field_text (Objects.i_name x) /\ Objects.i_name x <> [];
  sr_signature : bytes (adbus_buf_sig (argbuf f)) /\ len (adbus_buf_sig (argbuf f)) < 255;
  sr_args : len (b_data (argbuf f)) < 2 ^ 32;
  sr_complete : at_sigptr (b_sig (argbuf f)) (b_sigp (argbuf f)) = Some [];
  sr_argsig : bytes (Objects.argsig (s_member s)) /\ no_nul (Objects.argsig (s_member s)) /\ len (Objects.argsig (s_member s)) <= 255 }.

(** C11: emitting a signal sends one message for each path it is bound to, in
    the order of the binds and each on its own connection, with the names of
    the member and its interface and with the arguments that were appended;
    other connections see nothing, and the signal is ready for the next
    arguments afterwards. *)
Theorem emit_sends (w : World) (s : Signal) (f : MsgFactory) (x : Objects.Interface) : signal_ready w s f x -> Forall (bound_ok w) (s_binds s) -> serials_ok w ->
  exists xs g w', adbus_sig_emit (Some send) s w = Ret (set_message (Some g) s) w' /\
    Forall2 (fun b m => is_signal f (Objects.m_name (s_member s)) (Objects.i_name x) (s_path b) m) (s_binds s) xs /\ sent (s_binds s) xs w w' /\
    b_data (argbuf g) = [] /\ adbus_buf_sig (argbuf g) = Objects.argsig (s_member s).
Proof.
  intros [(g0 & b0 & Ef & Em) (c & Hc & Hx) (N1 & N2 & N3 & N4) S A C (G1 & G2 & G3)] Hb Hs. unfold adbus_sig_emit. rewrite Em. rewrite (bind_Ret (of_option (Some f)) _ _ _ _ eq_refl).
  assert (Ei : on_interfaces s (Objects.iface (Objects.m_interface (s_member s))) w = Ret x w).
  { unfold on_interfaces, on_client. rewrite Hc. rewrite (on_part_read _ c x); [by rewrite insert_id|].
    unfold Objects.iface. rewrite (bind_Ret get _ _ _ _ eq_refl). change (part c) with (conn c). by rewrite Hx. }
  rewrite (bind_Ret _ _ _ _ _ Ei). assert (Eend : adbus_buf_end (argbuf f) = Ret tt (argbuf f)) by (destruct (argbuf f); by apply buf_end_ok). rewrite Eend.
  set (f1 := adbus_msg_setinterface _ _ _). assert (Ea : argbuf f1 = argbuf f) by (by destruct f as [? []]).
  assert (He : emittable f1 (Objects.m_name (s_member s)) (Objects.i_name x)).
  { split; rewrite ?Ea; try done; [by split; [apply str_arg_len|]..|]. unfold f1. by rewrite Ef. }
  destruct (emit_loop_run f1 _ _ (s_binds s) He f1 w) as (xs & g & w' & E & Hg & Hxs & Hsent & _); [|done|done|].
  { intros p n. exists (buf (signal_factory p n f1)). by destruct f. }
  rewrite (bind_Ret _ _ _ _ _ E). destruct (sig_msg_run (set_message (Some g) s) g w' eq_refl G2 G3) as (arr & Eset & Earr).
  rewrite Eset. exists xs, (set_argbuf (mkBuf [] arr (Own 0)) (adbus_msg_reset g)), w'. split_and!; [done| |done|done|done].
  eapply Forall2_impl; [exact Hxs|]. intros b y [Y1 Y2 Y3 Y4 Y5 Y6 Y7]. rewrite Ea in Y6, Y7. by split.
Qed.
End Emit.

(** ** Samples *)
Section Samples.
#[local] Existing Instance debug_build.

(** Two connections; the signal Changed of the interface u, with a number,
    bound to two paths of the first and one of the second. *)
Definition two_connections : World := <[0%nat := set_conn Objects.sample_state adbus_conn_new]> {[1%nat := adbus_conn_new]}.
Definition changed : Objects.Member :=
  Objects.mkMember (str "Changed") 2%nat Objects.SIGNAL None [] [] (str "u") [] ∅ None None None None None Objects.Null Objects.Null Objects.Null Objects.Null Objects.Null.
Definition bound_signal : Signal := adbus_sig_bind (adbus_sig_bind (adbus_sig_bind (mkSignal (Some adbus_msg_new) [] changed 0%nat) 0%nat (str "/a") (-1)) 1%nat (str "/b") (-1)) 0%nat (str "/c") 2.

(** The signal with the number 7 appended. *)
Definition seven : MsgFactory :=
  match adbus_sig_msg bound_signal two_connections with
  | Ret s _ => match s_message s with
               | Some m => match (run* write (VNum UINT32 7) in adbus_buf_end) (argbuf m) with Ret _ b => set_argbuf b m | _ => m end
               | None => adbus_msg_new end
  | _ => adbus_msg_new end.

Lemma seven_ready : signal_ready two_connections (set_message (Some seven) bound_signal) seven (Objects.set_ref 2 Objects.sample_iface).
Proof.
  split.
  - exists adbus_msg_new, (argbuf seven). split; [|reflexivity]. vm_compute. reflexivity.
  - eexists. split; [reflexivity|]. vm_compute. reflexivity.
  - split; [|split; [discriminate|split; [|discriminate]]]; (apply short_text; vm_compute; reflexivity).
  - split; [apply bytes_forallb; vm_compute; reflexivity|vm_compute; reflexivity].
  - vm_compute. reflexivity.
  - vm_compute. reflexivity.
  - split; [apply bytes_forallb; vm_compute; reflexivity|]. split; [by apply (no_nul_sig_of (TBasic UINT32))|vm_compute; discriminate].
Qed.

Lemma emit_sends_witness : exists xs g w', adbus_sig_emit (Some msg_size) (set_message (Some seven) bound_signal) two_connections = Ret (set_message (Some g) bound_signal) w' /\
  map (fun x => (msg_path x, argdata x)) xs = [(Some (str "/a"), [7; 0; 0; 0]); (Some (str "/b"), [7; 0; 0; 0]); (Some (str "/c"), [7; 0; 0; 0])].
Proof.
  destruct (emit_sends msg_size two_connections (set_message (Some seven) bound_signal) seven (Objects.set_ref 2 Objects.sample_iface) seven_ready) as (xs & g & w' & E & Hx & _).
  - assert (T : forall p, forallb is_byte p = true -> forallb (fun c => negb (c =? 0)) p = true -> len p < 2 ^ 20 -> field_text p) by exact short_text.
    repeat apply Forall_cons_2; [..|by apply Forall_nil];
      (split; [eexists; vm_compute; reflexivity|split; [apply T; vm_compute; reflexivity|discriminate]]).
  - intros i c. unfold two_connections. rewrite lookup_insert. case_decide; [intros [= <-]; vm_compute; split; [discriminate|reflexivity]|].
    intros [_ <-]%lookup_singleton_Some. vm_compute. split; [discriminate|reflexivity].
  - exists xs, g, w'. split; [exact E|]. change (s_binds (set_message (Some seven) bound_signal)) with [mkSigBind 0%nat (str "/a"); mkSigBind 1%nat (str "/b"); mkSigBind 0%nat (str "/c")] in Hx.
    assert (Ea : b_data (argbuf seven) = [7; 0; 0; 0]) by (vm_compute; reflexivity).
    apply Forall2_cons_inv_l in Hx as (x1 & xs1 & [_ P1 _ _ _ _ A1] & Hx & ->). apply Forall2_cons_inv_l in Hx as (x2 & xs2 & [_ P2 _ _ _ _ A2] & Hx & ->).
    apply Forall2_cons_inv_l in Hx as (x3 & xs3 & [_ P3 _ _ _ _ A3] & Hx & ->). apply Forall2_nil_inv_l in Hx as ->.
    cbn [map]. rewrite P1, P2, P3, A1, A2, A3, Ea. reflexivity.
Defined.

(** After [adbus_sig_reset] the message is gone: using the signal again, and
    freeing it, use freed memory. *)
Lemma reset_frees_message : match adbus_sig_reset bound_signal two_connections with
  | Ret s w => adbus_sig_msg s w = Oob /\ adbus_sig_emit all_sent s w = Oob /\ adbus_sig_free Objects.sample_order s w = Oob
  | _ => False end.
Proof. split_and!; vm_compute; reflexivity. Qed.
End Samples.
