(* ===== verification/Unbinding.v ===== *)
(** Freeing every object of a connection (adbus/connection.c,
    adbus/bind.c): first the tree of paths goes away, then the binds, and each
    bind runs its release callbacks and drops its interface. *)

From Stdlib Require Import ZArith Lia.
From stdpp Require Import base option list numbers strings gmap.
From S2P Require Import Prelude Names Objects.
#[local] Open Scope Z_scope.
#[local] Open Scope adbus_scope.

(** ** The loops of [adbus_conn_deref] *)
Section Loops.
Context (dh_order : forall A : Type, gmap (list Z) A -> list (list Z * A)).

(** [adbusI_freeObjectPath] of an object without connection. *)
Definition free_path (o : oid) : M Conn unit :=
  let* ob := object o in
  run* unset_paths (dh_order _ (interfaces ob)) in
  modify (fun c => set_objects (delete o (objects c)) c).
Fixpoint free_paths (l : list (list Z * oid)) : M Conn unit :=
  match l with [] => ret tt | (_, o) :: l => run* free_path o in free_paths l end.

(** A DIL_FOREACH whose body removes the current element (see DList). *)
Fixpoint free_binds (l : list bid) : M Conn unit :=
  match l with
  | [] => ret tt
  | b :: l => run* (let* c := get in adbusI_freeBind dh_order (free_fuel c b) b) in free_binds l
  end.
End Loops.

(** ** The paths *)

(** [h] is the heap of binds with the paths of those in [S] unset. *)
Definition unset (S : gset bid) (c : Conn) (h : gmap bid ConnBind) : Prop :=
  forall b, h !! b = (fun cb => if decide (b ∈ S) then set_b_path None cb else cb) <$> (bind_heap c !! b).

Section Paths.
Context (dh_order : forall A : Type, gmap (list Z) A -> list (list Z * A)) (Hd : forall A (g : gmap (list Z) A), dh_order A g ≡ₚ map_to_list g).

Lemma unset_trans (S1 S2 : gset bid) (c : Conn) (h1 h2 : gmap bid ConnBind) (l : list bid) :
  unset S1 c h1 -> unset S2 (set_binds h1 l c) h2 -> unset (S1 ∪ S2) c h2.
Proof.
  intros H1 H2 b. rewrite (H2 b). cbn [bind_heap set_binds]. rewrite (H1 b). destruct (bind_heap c !! b) as [cb|]; [|done]. cbn. f_equal.
  destruct (decide (b ∈ S1)), (decide (b ∈ S2)); [rewrite decide_True by set_solver..|rewrite decide_False by set_solver]; done.
Qed.

Lemma unset_some (S : gset bid) (c : Conn) (h : gmap bid ConnBind) (b : bid) : unset S c h -> is_Some (bind_heap c !! b) -> is_Some (h !! b).
Proof. intros H [cb Hb]. rewrite (H b), Hb. by eexists. Qed.

Lemma unset_paths_run (l : list (list Z * bid)) : forall c, (forall b, b ∈ l.*2 -> is_Some (bind_heap c !! b)) ->
  exists h, unset_paths l c = Ret tt (set_binds h (binds c) c) /\ unset (list_to_set l.*2) c h.
Proof.
  induction l as [|[n b] l IH]; intros c Hl.
  - exists (bind_heap c). split; [by destruct c|]. intros b. destruct (bind_heap c !! b) as [cb|]; [|done]. cbn. by rewrite decide_False by set_solver.
  - destruct (Hl b ltac:(left)) as [cb Hb]. cbn [unset_paths]. unfold bind_at. rewrite bind_assoc, (bind_Ret get _ _ _ _ eq_refl), Hb.
    rewrite (bind_Ret (of_option (Some cb)) _ _ _ _ eq_refl), (bind_Ret (put_bind _ _) _ _ _ _ eq_refl). set (h1 := <[b := set_b_path None cb]> (bind_heap c)).
    assert (U : unset {[b]} c h1).
    { intros b'. unfold h1. destruct (decide (b = b')) as [<-|Hne]; [rewrite lookup_insert_eq, Hb; cbn; by rewrite decide_True by set_solver|].
      rewrite lookup_insert_ne by done. destruct (bind_heap c !! b') as [cb'|]; [|done]. cbn. by rewrite decide_False by set_solver. }
    destruct (IH (set_binds h1 (binds c) c)) as (h & E & U').
    { intros b' Hb'. apply (unset_some {[b]} c); [done|]. apply Hl. by right. }
    exists h. split; [exact E|]. exact (unset_trans _ _ _ _ _ _ U U').
Qed.

Lemma free_path_run (c : Conn) (o : oid) (ob : ObjectPath) : objects c !! o = Some ob -> (forall n b, interfaces ob !! n = Some b -> is_Some (bind_heap c !! b)) ->
  exists S h, free_path dh_order o c = Ret tt (set_objects (delete o (objects c)) (set_binds h (binds c) c)) /\ unset S c h /\
    forall n b, interfaces ob !! n = Some b -> b ∈ S.
Proof.
  intros Ho Hi. assert (Hin : forall b, b ∈ (dh_order _ (interfaces ob)).*2 <-> exists n, interfaces ob !! n = Some b).
  { intros b. rewrite list_elem_of_fmap. setoid_rewrite Hd. split.
    - intros ([n b'] & -> & Hb%elem_of_map_to_list). by exists n.
    - intros [n Hb]. exists (n, b). split; [done|]. by apply elem_of_map_to_list. }
  destruct (unset_paths_run (dh_order _ (interfaces ob)) c) as (h & E & U); [intros b (n & Hb)%Hin; by apply (Hi n)|].
  exists (list_to_set (dh_order _ (interfaces ob)).*2), h. split; [|split; [done|]].
  - unfold free_path, object. rewrite bind_assoc, (bind_Ret get _ _ _ _ eq_refl), Ho, (bind_Ret (of_option (Some ob)) _ _ _ _ eq_refl), (bind_Ret _ _ _ _ _ E). reflexivity.
  - intros n b Hb. apply elem_of_list_to_set, Hin. by exists n.
Qed.

Lemma free_paths_run (l : list (list Z * oid)) : forall c, NoDup l.*2 -> (forall o, o ∈ l.*2 -> exists ob, objects c !! o = Some ob /\
    forall n b, interfaces ob !! n = Some b -> is_Some (bind_heap c !! b)) ->
  exists S h os, free_paths dh_order l c = Ret tt (set_objects os (set_binds h (binds c) c)) /\ unset S c h /\
    (forall o, os !! o = if decide (o ∈ l.*2) then None else objects c !! o) /\
    (forall o ob n b, o ∈ l.*2 -> objects c !! o = Some ob -> interfaces ob !! n = Some b -> b ∈ S).
Proof.
  induction l as [|[p o] l IH]; intros c Hn Hl.
  - exists ∅, (bind_heap c), (objects c). split; [by destruct c|]. split; [|split].
    + intros b. destruct (bind_heap c !! b) as [cb|]; [|done]. cbn. by rewrite decide_False by set_solver.
    + intros o. by rewrite decide_False by set_solver.
    + by intros o ob n b ?%elem_of_nil.
  - cbn [fmap list_fmap snd] in *. apply NoDup_cons in Hn as [Ho Hn]. destruct (Hl o ltac:(left)) as (ob & Hob & Hi).
    destruct (free_path_run c o ob Hob Hi) as (S1 & h1 & E1 & U1 & H1). set (c1 := set_objects _ _) in E1.
    destruct (IH c1 Hn) as (S2 & h2 & os & E2 & U2 & H2 & H3).
    { intros o' Ho'. destruct (Hl o' ltac:(by right)) as (ob' & Hob' & Hi'). exists ob'. split; [cbn; rewrite lookup_delete_ne; [done|congruence]|].
      intros n b Hb. cbn. apply (unset_some S1 c); [done|]. by apply (Hi' n). }
    exists (S1 ∪ S2), h2, os. split; [|split; [|split]].
    + cbn [free_paths]. rewrite (bind_Ret _ _ _ _ _ E1). exact E2.
    + by apply (unset_trans _ _ _ _ _ (binds c) U1).
    + intros o'. rewrite (H2 o'). cbn [objects c1 set_objects]. destruct (decide (o' = o)) as [->|Hne].
      * rewrite (decide_False (P := o ∈ l.*2)), (decide_True (P := o ∈ o :: l.*2)) by (done || left). apply lookup_delete_eq.
      * rewrite lookup_delete_ne by done. destruct (decide (o' ∈ l.*2)); [by rewrite decide_True by (by right)|].
        rewrite decide_False; [done|]. by intros [->|?]%elem_of_cons.
    + intros o' ob' n b [->|Ho']%elem_of_cons Hob' Hb; [assert (ob' = ob) as -> by congruence; apply elem_of_union_l, (H1 n b Hb)|].
      apply elem_of_union_r, (H3 o' ob' n b Ho'); [|done]. cbn. rewrite lookup_delete_ne; [done|congruence].
Qed.
End Paths.

(** ** The binds *)
Section Binds.
Context {B : Build} (dh_order : forall A : Type, gmap (list Z) A -> list (list Z * A)) (Hd : forall A (g : gmap (list Z) A), dh_order A g ≡ₚ map_to_list g).
Context (own : iid -> Z) (nI nP : list Z).
Notation binds_ok := (binds_ok own nI nP).
Notation iface_events := (iface_events dh_order).

Lemma refs_fmap (h : gmap bid ConnBind) (i : iid) : refs (set_b_path None <$> h) i = refs h i.
Proof. unfold refs. by rewrite map_filter_fmap, map_size_fmap. Qed.

(** The connection without its paths, and with every bind on its own. *)
Definition unpathed (c : Conn) : Conn := set_paths ∅ (set_objects ∅ (set_binds (set_b_path None <$> bind_heap c) (binds c) c)).

Lemma unpathed_ok (c : Conn) : binds_ok ∅ ∅ c -> binds_ok ∅ (list_to_set (binds c)) (unpathed c).
Proof.
  intros W. pose proof (b_list _ _ _ _ _ _ W) as [Hnd Hl].
  assert (Hh : forall b cb, bind_heap (unpathed c) !! b = Some cb -> exists cb0, bind_heap c !! b = Some cb0 /\ cb = set_b_path None cb0).
  { intros b cb. cbn. rewrite lookup_fmap. intros (cb0 & -> & ->)%fmap_Some. by exists cb0. }
  split; unfold tables; cbn [objects unpathed set_paths set_objects].
  - intros o m. by rewrite fmap_empty, lookup_empty.
  - intros b cb (cb0 & Hb & _)%Hh Hni. destruct Hni. apply elem_of_list_to_set, Hl. by exists cb0.
  - intros b cb (cb0 & Hb & ->)%Hh. exact (b_iface _ _ _ _ _ _ W b cb0 Hb).
  - intros o m _. by rewrite fmap_empty, lookup_empty.
  - intros b cb x (cb0 & Hb & ->)%Hh Hx Hbu. destruct (b_silent _ _ _ _ _ _ W b cb0 x Hb Hx Hbu) as ((o & Eh & _) & Hi). split; [|exact Hi]. by exists o.
  - split; [exact Hnd|]. intros b. cbn. rewrite lookup_fmap, fmap_is_Some. apply Hl.
  - intros i x Hx. cbn. rewrite refs_fmap. exact (b_refs _ _ _ _ _ _ W i x Hx).
  - exact (b_intro _ _ _ _ _ _ W).
  - exact (b_props _ _ _ _ _ _ W).
  - exact (b_own _ _ _ _ _ _ W).
  - split; [|intros o; rewrite fmap_empty, lookup_empty; by intros []].
    intros b [cb (cb0 & Hb & _)%Hh]. apply (proj1 (b_fresh _ _ _ _ _ _ W)). by exists cb0.
Qed.

(** The release callbacks of the members of the interfaces that nobody holds,
    when the users hold [o]. *)
Definition dying (o : iid -> Z) (g : gmap iid (gmap (list Z) Member)) : list event :=
  concat (map (fun p => iface_events p.2) (map_to_list (filter (fun p => o p.1 = 0) g))).
Definition all_members (c : Conn) : gmap iid (gmap (list Z) Member) := members <$> ifaces c.

Lemma concat_perm (l l' : list (list event)) : l ≡ₚ l' -> concat l ≡ₚ concat l'.
Proof.
  induction 1 as [|x l l' _ IH|x y l|l1 l2 l3 _ IH1 _ IH2]; cbn; [done|by rewrite IH|rewrite !app_assoc; by rewrite (Permutation_app_comm y x)|by rewrite IH1].
Qed.

Lemma dying_delete (o : iid -> Z) (g : gmap iid (gmap (list Z) Member)) (i : iid) (m : gmap (list Z) Member) : g !! i = Some m -> o i = 0 ->
  dying o g ≡ₚ iface_events m ++ dying o (delete i g).
Proof.
  intros Hg Ho. unfold dying. rewrite map_filter_delete. assert (Hf : filter (fun p => o p.1 = 0) g !! i = Some m) by (by apply map_lookup_filter_Some).
  exact (concat_perm _ _ (Permutation_map (fun p => iface_events p.2) (Permutation_sym (map_to_list_delete _ i m Hf)))).
Qed.

(** What dropping a reference does to the interfaces that die. *)
Lemma dying_deref (o : iid -> Z) (c c' : Conn) (i : iid) (x : Interface) : ifaces c !! i = Some x -> ifaces c' = deref_ifaces i x (ifaces c) ->
  (i_ref x = 1 -> o i = 0) -> deref_events dh_order x ++ dying o (all_members c') ≡ₚ dying o (all_members c).
Proof.
  intros Hx E Ho. unfold all_members. rewrite E. unfold deref_ifaces, deref_events. destruct (Z.eqb_spec (i_ref x) 1) as [Er|Er].
  - rewrite fmap_delete. symmetry. apply dying_delete; [|by apply Ho]. by rewrite lookup_fmap, Hx.
  - rewrite fmap_insert. cbn [members set_ref]. rewrite insert_id; [done|]. by rewrite lookup_fmap, Hx.
Qed.

(** The release callbacks of a bind of the heap. *)
Definition bind_events (h : gmap bid ConnBind) (b : bid) : list event := match h !! b with Some cb => events (b_hooks cb) | None => [] end.

Lemma bind_events_fmap (h : gmap bid ConnBind) (b : bid) : bind_events (set_b_path None <$> h) b = bind_events h b.
Proof. unfold bind_events. rewrite lookup_fmap. by destruct (h !! b). Qed.

Lemma free_bind_run (c : Conn) (b : bid) (cb : ConnBind) (x : Interface) : bind_heap c !! b = Some cb -> b_path cb = None -> ifaces c !! b_interface cb = Some x ->
  (let* c := get in adbusI_freeBind dh_order (free_fuel c b) b) c = Ret tt (after_free dh_order c b cb x).
Proof.
  intros Hb Hp Hx. rewrite (bind_Ret get _ _ _ _ eq_refl). unfold free_fuel. rewrite Hb, Hp. cbn [adbusI_freeBind]. unfold bind_at at 1.
  rewrite bind_assoc, (bind_Ret get _ _ _ _ eq_refl), Hb, (bind_Ret (of_option (Some cb)) _ _ _ _ eq_refl), Hp. by apply free_rest_run.
Qed.

Lemma free_binds_run (o : iid -> Z) (l : list bid) : (forall i, own i = 0 -> o i = 0) -> forall c, NoDup l -> binds_ok ∅ (list_to_set l) c ->
  (forall b, b ∈ l <-> is_Some (bind_heap c !! b)) -> (forall b cb, bind_heap c !! b = Some cb -> b_path cb = None) ->
  exists c' evs, free_binds dh_order l c = Ret tt c' /\ binds_ok ∅ ∅ c' /\ bind_heap c' = ∅ /\ objects c' = objects c /\ paths c' = paths c /\
    introspectable c' = introspectable c /\ properties c' = properties c /\ released c' = released c ++ evs /\
    evs ++ dying o (all_members c') ≡ₚ concat (map (bind_events (bind_heap c)) l) ++ dying o (all_members c).
Proof.
  intros Ho. induction l as [|b l IH]; intros c Hn W Hl Hp.
  - exists c, []. split_and!; try done; [|by rewrite app_nil_r]. apply map_empty. intros b. destruct (bind_heap c !! b) as [cb|] eqn:E; [|done].
    assert (H : b ∈ []) by (apply Hl; by exists cb). by apply elem_of_nil in H.
  - apply NoDup_cons in Hn as [Hb Hn]. destruct (proj1 (Hl b) ltac:(left)) as [cb Hcb]. destruct (b_iface _ _ _ _ _ _ W b cb Hcb) as [x Hx].
    cbn [list_to_set] in W. assert (W1 : binds_ok ∅ (list_to_set l) (after_free dh_order c b cb x)) by (apply binds_freed; try done; by rewrite elem_of_list_to_set).
    set (c1 := after_free dh_order c b cb x) in *.
    destruct (IH c1 Hn W1) as (c' & evs & E & W' & H1 & H2 & H3 & H4 & H5 & H6 & H7).
    { intros b'. cbn. destruct (decide (b = b')) as [<-|Hne]; [rewrite lookup_delete_eq; split; [done|by intros []]|]. rewrite lookup_delete_ne by done.
      rewrite <- Hl, elem_of_cons. naive_solver. }
    { intros b' cb' H. cbn in H. apply lookup_delete_Some in H as [_ H]. by apply (Hp b'). }
    exists c', ((events (b_hooks cb) ++ deref_events dh_order x) ++ evs). split_and!; try done.
    + cbn [free_binds]. by rewrite (bind_Ret _ _ _ _ _ (free_bind_run c b cb x Hcb (Hp b cb Hcb) Hx)).
    + rewrite H6. cbn [released c1 after_free]. by rewrite <- !app_assoc.
    + assert (Er : i_ref x = 1 -> o (b_interface cb) = 0).
      { intros Er. apply Ho. destruct (b_refs _ _ _ _ _ _ W _ x Hx) as (H0 & Hr & _). rewrite (refs_delete _ b cb _ Hcb), decide_True in Hr by done. unfold refs in Hr. lia. }
      pose proof (dying_deref o c c1 (b_interface cb) x Hx eq_refl Er) as Ed. cbn [map concat]. unfold bind_events at 1. rewrite Hcb.
      assert (Em : map (bind_events (bind_heap c1)) l = map (bind_events (bind_heap c)) l).
      { apply map_ext_in. intros b' Hb'%list_elem_of_In. unfold bind_events. cbn. rewrite lookup_delete_ne; [done|]. by intros <-. }
      rewrite Em in H7. rewrite <- !app_assoc, H7, <- Ed. apply Permutation_app_head. rewrite !app_assoc. apply Permutation_app_tail. apply Permutation_app_comm.
Qed.

(** *** Everything *)
Lemma free_objects_run (c : Conn) : conn_ok own nI nP ∅ ∅ ∅ c ->
  exists c1, free_paths dh_order (dh_order _ (paths c)) c = Ret tt c1 /\ set_paths ∅ c1 = unpathed c.
Proof.
  intros [T W]. assert (Hin : forall o, o ∈ (dh_order _ (paths c)).*2 <-> exists p, paths c !! p = Some o).
  { intros o. rewrite list_elem_of_fmap. setoid_rewrite Hd. split; [intros ([p o'] & -> & H%elem_of_map_to_list); by exists p|].
    intros [p H]. exists (p, o). split; [done|]. by apply elem_of_map_to_list. }
  destruct (free_paths_run dh_order Hd (dh_order _ (paths c)) c) as (S & h & os & E & U & H1 & H2).
  - rewrite (Permutation_map snd (Hd _ (paths c))). apply NoDup_fmap_2_strong; [|apply NoDup_map_to_list].
    intros [p o] [q o'] Hp%elem_of_map_to_list Hq%elem_of_map_to_list Eo. cbn in Eo. subst o'.
    apply (t_paths _ _ _ T) in Hp as (l & El & <-), Hq as (l' & El' & <-). f_equal. congruence.
  - intros o [p Hp]%Hin. apply (t_paths _ _ _ T) in Hp as (l & (ob & Hob & _)%tree_lookup & _). exists ob. split; [done|]. intros n b Hb.
    destruct (bound_heap own nI nP ∅ ∅ c o (interfaces ob) n b W) as [cb Hcb]; [apply tables_lookup; by exists ob|done|by exists cb].
  - eexists. split; [exact E|]. assert (Hall : forall o ob, objects c !! o = Some ob -> o ∈ (dh_order _ (paths c)).*2).
    { intros o ob Hob. apply Hin. exists (o_path ob). apply (t_paths _ _ _ T). exists (links_of ob). split; [|done]. apply tree_lookup. by exists ob. }
    assert (Eo : os = ∅).
    { apply map_empty. intros o. rewrite (H1 o). destruct (objects c !! o) as [ob|] eqn:Eo; [|by destruct (decide _)]. by rewrite decide_True by (by apply (Hall o ob)). }
    assert (Eh : h = set_b_path None <$> bind_heap c).
    { apply map_eq. intros b. rewrite (U b), lookup_fmap. destruct (bind_heap c !! b) as [cb|] eqn:Eb; [|done]. cbn. f_equal.
      destruct (b_bound _ _ _ _ _ _ W b cb Eb ltac:(set_solver)) as (o & Hp & [m Hm]). pose proof Hm as (ob & Hob & <-)%tables_lookup.
      destruct (b_iface _ _ _ _ _ _ W b cb Eb) as [x Hx]. rewrite decide_True; [done|]. apply (H2 o ob (i_name x) b); [by apply (Hall o ob)|done|].
      apply (b_table _ _ _ _ _ _ W o _ Hm). split; [set_solver|]. by exists cb, x. }
    by subst.
Qed.

(** The references of the connection itself are dropped last. *)
Definition final_own (c : Conn) : iid -> Z := dropped (dropped own (introspectable c)) (properties c).

Lemma free_builtins_run (c : Conn) : nI <> nP -> binds_ok ∅ ∅ c -> bind_heap c = ∅ -> exists c' evs,
  (run* adbus_iface_deref dh_order (introspectable c) in adbus_iface_deref dh_order (properties c)) c = Ret tt c' /\
  released c' = released c ++ evs /\ evs ≡ₚ dying (final_own c) (all_members c) /\
  (forall i x, ifaces c' !! i = Some x -> i_ref x = final_own c i /\ 0 < i_ref x) /\ bind_heap c' = ∅ /\ objects c' = objects c /\ paths c' = paths c.
Proof.
  intros HnIP W Hh. destruct (b_intro _ _ _ _ _ _ W) as (xi & Hxi & Ni & Oi), (b_props _ _ _ _ _ _ W) as (xp & Hxp & Np & Op).
  assert (Hne : introspectable c <> properties c) by (intros E; rewrite E in Hxi; congruence).
  assert (Hr : forall i x, ifaces c !! i = Some x -> i_ref x = own i /\ 0 < i_ref x).
  { intros i x Hx. destruct (b_refs _ _ _ _ _ _ W i x Hx) as (_ & E & H). rewrite Hh in E. unfold refs in E. rewrite map_filter_empty, map_size_empty in E. split; [lia|done]. }
  rewrite (bind_Ret _ _ _ _ _ (deref_run dh_order c (introspectable c) xi Hxi)). set (c1 := dereffed dh_order c (introspectable c) xi).
  assert (Hxp1 : ifaces c1 !! properties c = Some xp).
  { cbn. unfold deref_ifaces. destruct (i_ref xi =? 1); [by rewrite lookup_delete_ne|by rewrite lookup_insert_ne]. }
  exists (dereffed dh_order c1 (properties c) xp), (deref_events dh_order xi ++ deref_events dh_order xp). split; [by apply deref_run|]. split; [cbn; by rewrite <- app_assoc|].
  assert (Hend : forall i x, ifaces (dereffed dh_order c1 (properties c) xp) !! i = Some x -> i_ref x = final_own c i /\ 0 < i_ref x).
  { intros i x Hx. cbn in Hx. destruct (deref_lookup _ _ _ _ _ Hxp1 Hx) as (y & Hy & _ & _ & Ey & Eney). cbn in Hy.
    destruct (deref_lookup _ _ _ _ _ Hxi Hy) as (z & Hz & _ & _ & Ez & Enez). destruct (Hr i z Hz) as [E Hpos]. unfold final_own, dropped.
    repeat case_decide; subst; try congruence; lia. }
  split; [|split; [done|by split_and!]].
  assert (F0 : final_own c (introspectable c) = own (introspectable c) - 1) by (unfold final_own, dropped; rewrite decide_False, decide_True by done; done).
  assert (F1 : final_own c (properties c) = own (properties c) - 1) by (unfold final_own, dropped; rewrite decide_True, decide_False by congruence; done).
  pose proof (dying_deref (final_own c) c c1 (introspectable c) xi Hxi eq_refl ltac:(destruct (Hr _ _ Hxi); lia)) as D1.
  pose proof (dying_deref (final_own c) c1 (dereffed dh_order c1 (properties c) xp) (properties c) xp Hxp1 eq_refl ltac:(destruct (Hr _ _ Hxp); lia)) as D2.
  assert (D3 : dying (final_own c) (all_members (dereffed dh_order c1 (properties c) xp)) = []).
  { unfold dying. set (g := filter _ _). assert (Eg : g = ∅); [|by rewrite Eg, map_to_list_empty].
    apply map_empty. intros i. apply map_lookup_filter_None. right. intros m Hm. unfold all_members in Hm. rewrite lookup_fmap in Hm.
    apply fmap_Some in Hm as (x & Hx & _). destruct (Hend i x Hx). cbn. lia. }
  rewrite <- D1, <- D2, D3, app_nil_r. done.
Qed.
End Binds.
