(* ===== verification/Teardown.v ===== *)
(** The end of a connection (adbus/connection.c, adbus_conn_deref): when the
    last reference is dropped everything that is registered is released, once,
    and freed. *)

From Stdlib Require Import ZArith Lia.
From stdpp Require Import base option list numbers strings gmap.
From S2P Require Import Prelude Objects Names Signature Iterator Values Buffer MatchRule Message Factory Server Bus Client Pending Watching Unbinding.
#[local] Open Scope Z_scope.
#[local] Open Scope adbus_scope.

(** ** The loops *)

(** [adbusI_freeServiceLookup]; the id is freed. *)
Definition adbusI_freeServiceLookup (s : svcid) : M Client unit :=
  let* _ := service_at s in
  modify (fun c => set_service_heap (delete s (service_heap c)) c).
Fixpoint free_services (l : list (list Z * svcid)) : M Client unit :=
  match l with [] => ret tt | (_, s) :: l => run* adbusI_freeServiceLookup s in free_services l end.

(** The pointer of a remote to its connection is cleared before it is freed. *)
Fixpoint free_remotes (l : list (list Z * remid)) : M Client unit :=
  match l with
  | [] => ret tt
  | (_, m) :: l =>
      let* x := remote_at m in
      run* put_remote m (set_r_connected false x) in
      run* adbusI_freeRemote m in
      free_remotes l
  end.
Fixpoint free_replies (l : list repid) : M Client unit :=
  match l with [] => ret tt | r :: l => run* adbusI_freeReply r in free_replies l end.
Fixpoint free_matches (l : list matid) : M Client unit :=
  match l with [] => ret tt | m :: l => run* adbusI_freeMatch m in free_matches l end.

Section Teardown.
Context {B : Build} (dh_order : forall A : Type, gmap (list Z) A -> list (list Z * A)).
Context (send_message : option (Message -> Z)) (get_proxy : option (nat * pointer)).

(** The tables come first, so that what is registered is on its own. *)
Definition free_tables : M Client unit :=
  let* c := get in
  run* free_services (dh_order _ (services c)) in
  run* modify (set_services ∅) in
  run* on_part (let* c := get in free_paths dh_order (dh_order _ (Objects.paths c))) in
  run* on_part (modify (Objects.set_paths ∅)) in
  let* c := get in
  run* free_remotes (dh_order _ (remotes c)) in
  modify (set_remotes ∅).

Definition free_lists : M Client unit :=
  let* c := get in
  run* free_replies (replies c) in
  let* c := get in
  free_matches (matches c).

(** The message and the proxy of the connection, the parse buffer and the
    connection itself are freed with it. *)
Definition free_connection : M Client unit :=
  run* free_tables in
  run* on_part (let* c := get in free_binds dh_order (Objects.binds c)) in
  run* free_lists in
  let* c := get in
  run* assert_ (bool_decide (Objects.binds (conn c) = [])) in
  run* assert_ (bool_decide (replies c = [])) in
  run* assert_ (bool_decide (matches c = [])) in
  run* assert_ (bool_decide (services c = ∅)) in
  run* assert_ (bool_decide (Objects.paths (conn c) = ∅)) in
  run* assert_ (bool_decide (remotes c = ∅)) in
  run* adbus_state_free send_message get_proxy (c_state c) in
  on_part (let* c := get in
    run* Objects.adbus_iface_deref dh_order (Objects.introspectable c) in
    Objects.adbus_iface_deref dh_order (Objects.properties c)).

(** The result says whether the connection was freed. *)
Definition adbus_conn_deref : M Client bool :=
  run* modify (fun c => set_c_ref (c_ref c - 1) c) in
  let* c := get in
  if c_ref c =? 0 then run* free_connection in ret true else ret false.
Definition adbus_conn_ref : M Client unit := modify (fun c => set_c_ref (c_ref c + 1) c).
End Teardown.

(** ** What is released *)
Definition release_events (h : Release) : list event := hook_event h (release0 h) (ruser0 h) ++ hook_event h (release1 h) (ruser1 h).

(** The release callbacks that are called in place are those of users. *)
Definition own_release (h : Release) : Prop :=
  relproxy h = None -> release0 h <> Some ReleaseDataCallback /\ release1 h <> Some ReleaseDataCallback.

Lemma run_release_run (h : Release) (f : option Callback) (u : pointer) (c : Client) : (relproxy h = None -> f <> Some ReleaseDataCallback) ->
  run_release h f u c = Ret tt (set_log (log c ++ hook_event h f u) c).
Proof.
  intros H. unfold run_release, hook_event. destruct f as [f|]; [|rewrite app_nil_r; by destruct c].
  destruct (relproxy h) as [p|]; [done|]. destruct f as [|f]; [by destruct (H eq_refl)|done].
Qed.

Lemma run_releases_run (h : Release) (c : Client) : own_release h -> run_releases h c = Ret tt (set_log (log c ++ release_events h) c).
Proof.
  intros H. unfold run_releases, release_events. rewrite (bind_Ret _ _ _ _ _ (run_release_run h _ _ c (fun E => proj1 (H E)))).
  rewrite run_release_run by (intros E; apply (H E)). cbn. by rewrite app_assoc.
Qed.

Definition reply_events (h : gmap repid ConnReply) (r : repid) : list event := match h !! r with Some y => release_events (y_release (r_hooks y)) | None => [] end.
Definition match_events (h : gmap matid ConnMatch) (m : matid) : list event := match h !! m with Some x => release_events (x_release (m_reg x)) | None => [] end.

(** ** The loops return *)
Lemma free_services_run (l : list (list Z * svcid)) : forall c, NoDup l.*2 -> (forall s, s ∈ l.*2 -> is_Some (service_heap c !! s)) ->
  exists h, free_services l c = Ret tt (set_service_heap h c) /\ forall s, h !! s = if decide (s ∈ l.*2) then None else service_heap c !! s.
Proof.
  induction l as [|[n s] l IH]; intros c Hn Hl.
  - exists (service_heap c). split; [by destruct c|]. intros s. by rewrite decide_False by set_solver.
  - cbn [fmap list_fmap snd] in *. apply NoDup_cons in Hn as [Hs Hn]. destruct (Hl s ltac:(left)) as [x Hx].
    destruct (IH (set_service_heap (delete s (service_heap c)) c) Hn) as (h & E & H).
    { intros s' Hs'. cbn. rewrite lookup_delete_ne; [apply Hl; by right|]. by intros <-. }
    exists h. split.
    + cbn [free_services]. unfold adbusI_freeServiceLookup. rewrite bind_assoc, (bind_Ret _ _ _ _ _ (service_run c s x Hx)). exact E.
    + intros s'. rewrite (H s'). cbn. destruct (decide (s' = s)) as [->|Hne].
      * rewrite (decide_False (P := s ∈ l.*2)), (decide_True (P := s ∈ s :: l.*2)) by (done || left). apply lookup_delete_eq.
      * rewrite lookup_delete_ne by done. destruct (decide (s' ∈ l.*2)); [by rewrite decide_True by (by right)|].
        rewrite decide_False; [done|]. by intros [->|?]%elem_of_cons.
Qed.

(** The heap of replies with the remotes of those in [S] unset. *)
Definition detach (S : gset repid) (g h : gmap repid ConnReply) : Prop :=
  forall r, h !! r = (fun y => if decide (r ∈ S) then set_r_remote None y else y) <$> (g !! r).

Lemma detach_trans (S1 S2 : gset repid) (g h1 h2 : gmap repid ConnReply) : detach S1 g h1 -> detach S2 h1 h2 -> detach (S1 ∪ S2) g h2.
Proof.
  intros H1 H2 b. rewrite (H2 b), (H1 b). destruct (g !! b) as [y|]; [|done]. cbn. f_equal.
  destruct (decide (b ∈ S1)), (decide (b ∈ S2)); [rewrite decide_True by set_solver..|rewrite decide_False by set_solver]; done.
Qed.

Lemma unset_remotes_run (l : list repid) : forall c, (forall r, r ∈ l -> is_Some (reply_heap c !! r)) ->
  exists h, unset_remotes l c = Ret tt (set_reply_heap h c) /\ detach (list_to_set l) (reply_heap c) h.
Proof.
  induction l as [|r l IH]; intros c Hl.
  - exists (reply_heap c). split; [by destruct c|]. intros r. destruct (reply_heap c !! r); [|done]. cbn. by rewrite decide_False by set_solver.
  - destruct (Hl r ltac:(left)) as [y Hy]. cbn [unset_remotes]. rewrite (bind_Ret _ _ _ _ _ (reply_run c r y Hy)), (bind_Ret (put_reply _ _) _ _ _ _ eq_refl).
    set (h1 := <[r := set_r_remote None y]> (reply_heap c)). assert (U : detach {[r]} (reply_heap c) h1).
    { intros r'. unfold h1. destruct (decide (r = r')) as [<-|Hne]; [rewrite lookup_insert_eq, Hy; cbn; by rewrite decide_True by set_solver|].
      rewrite lookup_insert_ne by done. destruct (reply_heap c !! r'); [|done]. cbn. by rewrite decide_False by set_solver. }
    destruct (IH (set_reply_heap h1 c)) as (h & E & U').
    { intros r' Hr'. cbn. rewrite (U r'). rewrite fmap_is_Some. apply Hl. by right. }
    exists h. split; [exact E|]. exact (detach_trans _ _ _ _ _ U U').
Qed.

Lemma free_remotes_run (l : list (list Z * remid)) : forall c, NoDup l.*2 -> (forall m, m ∈ l.*2 -> exists x, remote_heap c !! m = Some x /\
    forall k r, r_replies x !! k = Some r -> is_Some (reply_heap c !! r)) ->
  exists S h ms, free_remotes l c = Ret tt (set_remote_heap ms (set_reply_heap h c)) /\ detach S (reply_heap c) h /\
    (forall m, ms !! m = if decide (m ∈ l.*2) then None else remote_heap c !! m) /\
    (forall m x k r, m ∈ l.*2 -> remote_heap c !! m = Some x -> r_replies x !! k = Some r -> r ∈ S).
Proof.
  induction l as [|[n m] l IH]; intros c Hn Hl.
  - exists ∅, (reply_heap c), (remote_heap c). split; [by destruct c|]. split; [|split].
    + intros r. destruct (reply_heap c !! r); [|done]. cbn. by rewrite decide_False by set_solver.
    + intros m. by rewrite decide_False by set_solver.
    + by intros m x k r ?%elem_of_nil.
  - cbn [fmap list_fmap snd] in *. apply NoDup_cons in Hn as [Hm Hn]. destruct (Hl m ltac:(left)) as (x & Hx & Hr).
    set (c0 := set_remote_heap (<[m := set_r_connected false x]> (remote_heap c)) c).
    assert (Hin : forall r, r ∈ map snd (map_to_list (r_replies x)) <-> exists k, r_replies x !! k = Some r).
    { intros r. rewrite list_elem_of_fmap. split; [intros ([k r'] & -> & H%elem_of_map_to_list); by exists k|]. intros [k H]. exists (k, r). split; [done|]. by apply elem_of_map_to_list. }
    destruct (unset_remotes_run (map snd (map_to_list (r_replies x))) c0) as (h1 & E1 & U1); [intros r [k Hk]%Hin; by apply (Hr k)|].
    set (c1 := set_remote_heap (delete m (remote_heap c)) (set_reply_heap h1 c)).
    assert (Ef : adbusI_freeRemote m c0 = Ret tt c1).
    { unfold adbusI_freeRemote. rewrite (bind_Ret _ _ _ _ _ (remote_run c0 m _ (lookup_insert_eq _ _ _))). cbn [r_connected r_replies set_r_connected].
      rewrite (bind_Ret (ret tt) _ c0 c0 tt eq_refl), (bind_Ret _ _ _ _ _ E1). unfold modify, c1. cbn. by rewrite delete_insert_eq. }
    destruct (IH c1 Hn) as (S2 & h2 & ms & E2 & U2 & H2 & H3).
    { intros m' Hm'. destruct (Hl m' ltac:(by right)) as (x' & Hx' & Hr'). exists x'. split; [cbn; rewrite lookup_delete_ne; [done|congruence]|].
      intros k r Hk. cbn. rewrite (U1 r), fmap_is_Some. by apply (Hr' k). }
    exists (list_to_set (map snd (map_to_list (r_replies x))) ∪ S2), h2, ms. split; [|split; [|split]].
    + cbn [free_remotes]. rewrite (bind_Ret _ _ _ _ _ (remote_run c m x Hx)), (bind_Ret (put_remote _ _) _ c c0 tt eq_refl), (bind_Ret _ _ _ _ _ Ef). exact E2.
    + by apply (detach_trans _ _ _ _ _ U1).
    + intros m'. rewrite (H2 m'). cbn [remote_heap c1 set_remote_heap]. destruct (decide (m' = m)) as [->|Hne].
      * rewrite (decide_False (P := m ∈ l.*2)), (decide_True (P := m ∈ m :: l.*2)) by (done || left). apply lookup_delete_eq.
      * rewrite lookup_delete_ne by done. destruct (decide (m' ∈ l.*2)); [by rewrite decide_True by (by right)|].
        rewrite decide_False; [done|]. by intros [->|?]%elem_of_cons.
    + intros m' x' k r [->|Hm']%elem_of_cons Hx' Hk; [assert (x' = x) as -> by congruence; apply elem_of_union_l, elem_of_list_to_set, Hin; by exists k|].
      apply elem_of_union_r, (H3 m' x' k r Hm'); [|done]. cbn. rewrite lookup_delete_ne; [done|congruence].
Qed.

(** *** Replies and matches *)
Lemma free_reply_run (c : Client) (r : repid) (y : ConnReply) : reply_heap c !! r = Some y -> r_remote y = None -> own_release (y_release (r_hooks y)) ->
  adbusI_freeReply r c = Ret tt (drop_reply r (set_log (log c ++ reply_events (reply_heap c) r) c)).
Proof.
  intros Hy Hr Hu. unfold adbusI_freeReply, reply_events. rewrite Hy, (bind_Ret _ _ _ _ _ (reply_run c r y Hy)), Hr, (bind_Ret (ret tt) _ c c tt eq_refl).
  by rewrite (bind_Ret _ _ _ _ _ (run_releases_run _ c Hu)).
Qed.

Lemma free_replies_run (l : list repid) : forall c, NoDup l ->
  (forall r, r ∈ l -> exists y, reply_heap c !! r = Some y /\ r_remote y = None /\ own_release (y_release (r_hooks y))) ->
  exists h i rs, free_replies l c = Ret tt (set_log (log c ++ concat (map (reply_events (reply_heap c)) l)) (set_reply_heap h (set_reply_iter i (set_replies rs c)))) /\
    (forall r, h !! r = if decide (r ∈ l) then None else reply_heap c !! r) /\ (forall r, r ∈ rs <-> r ∈ replies c /\ r ∉ l).
Proof.
  induction l as [|r l IH]; intros c Hn Hl.
  - exists (reply_heap c), (reply_iter c), (replies c). split; [cbn; rewrite app_nil_r; by destruct c|]. split; intros r; [by rewrite decide_False by set_solver|set_solver].
  - apply NoDup_cons in Hn as [Hr Hn]. destruct (Hl r ltac:(left)) as (y & Hy & Hm & Hu). set (c1 := drop_reply r (set_log (log c ++ reply_events (reply_heap c) r) c)).
    destruct (IH c1 Hn) as (h & i & rs & E & Hh & Hs).
    { intros r' Hr'. destruct (Hl r' ltac:(by right)) as (y' & Hy' & H'). exists y'. split; [cbn; rewrite lookup_delete_ne; [done|congruence]|done]. }
    exists h, i, rs. split; [|split].
    + cbn [free_replies]. rewrite (bind_Ret _ _ _ _ _ (free_reply_run c r y Hy Hm Hu)). fold c1. rewrite E. cbn. rewrite app_assoc.
      rewrite (map_ext_in (reply_events (delete r (reply_heap c))) (reply_events (reply_heap c))); [done|].
      intros r' Hr'%list_elem_of_In. unfold reply_events. rewrite lookup_delete_ne; [done|congruence].
    + intros r'. rewrite (Hh r'). cbn. destruct (decide (r' = r)) as [->|Hne]; [rewrite lookup_delete_eq, (decide_True (P := r ∈ r :: l)) by left; by case_decide|].
      rewrite lookup_delete_ne by done. destruct (decide (r' ∈ l)); [by rewrite decide_True by (by right)|]. rewrite decide_False; [done|]. by intros [->|?]%elem_of_cons.
    + intros r'. rewrite (Hs r'), elem_of_cons. change (replies c1) with (without r (replies c)). rewrite elem_of_without. naive_solver.
Qed.

Definition drop_match (m : matid) (c : Client) : Client :=
  set_match_heap (delete m (match_heap c)) (set_log (log c ++ match_events (match_heap c) m) (set_matches (without m (matches c)) c)).

Lemma free_match_run (c : Client) (m : matid) (x : ConnMatch) : match_heap c !! m = Some x -> own_release (x_release (m_reg x)) ->
  adbusI_freeMatch m c = Ret tt (drop_match m c).
Proof.
  intros Hx Hu. unfold adbusI_freeMatch, drop_match, match_events. rewrite Hx, (bind_Ret _ _ _ _ _ (match_run c m x Hx)), (bind_Ret (modify _) _ c _ tt eq_refl).
  by rewrite (bind_Ret _ _ _ _ _ (run_releases_run _ _ Hu)).
Qed.

Lemma free_matches_run (l : list matid) : forall c, NoDup l -> (forall m, m ∈ l -> exists x, match_heap c !! m = Some x /\ own_release (x_release (m_reg x))) ->
  exists h ms, free_matches l c = Ret tt (set_log (log c ++ concat (map (match_events (match_heap c)) l)) (set_match_heap h (set_matches ms c))) /\
    (forall m, h !! m = if decide (m ∈ l) then None else match_heap c !! m) /\ (forall m, m ∈ ms <-> m ∈ matches c /\ m ∉ l).
Proof.
  induction l as [|m l IH]; intros c Hn Hl.
  - exists (match_heap c), (matches c). split; [cbn; rewrite app_nil_r; by destruct c|]. split; intros m; [by rewrite decide_False by set_solver|set_solver].
  - apply NoDup_cons in Hn as [Hm Hn]. destruct (Hl m ltac:(left)) as (x & Hx & Hu).
    destruct (IH (drop_match m c) Hn) as (h & ms & E & Hh & Hs).
    { intros m' Hm'. destruct (Hl m' ltac:(by right)) as (x' & Hx' & H'). exists x'. split; [cbn; rewrite lookup_delete_ne; [done|congruence]|done]. }
    exists h, ms. split; [|split].
    + cbn [free_matches]. rewrite (bind_Ret _ _ _ _ _ (free_match_run c m x Hx Hu)), E. cbn. rewrite app_assoc.
      rewrite (map_ext_in (match_events (delete m (match_heap c))) (match_events (match_heap c))); [done|].
      intros m' Hm'%list_elem_of_In. unfold match_events. rewrite lookup_delete_ne; [done|congruence].
    + intros m'. rewrite (Hh m'). cbn. destruct (decide (m' = m)) as [->|Hne]; [rewrite lookup_delete_eq, (decide_True (P := m ∈ m :: l)) by left; by case_decide|].
      rewrite lookup_delete_ne by done. destruct (decide (m' ∈ l)); [by rewrite decide_True by (by right)|]. rewrite decide_False; [done|]. by intros [->|?]%elem_of_cons.
    + intros m'. rewrite (Hs m'), elem_of_cons. change (matches (drop_match m c)) with (without m (matches c)). rewrite elem_of_without. naive_solver.
Qed.

(** ** The connection *)

(** Everything that is registered is listed, once, and found in its table. *)
Record registered (own : Objects.iid -> Z) (nI nP : list Z) (c : Client) : Prop := {
  g_conn : Objects.conn_ok own nI nP ∅ ∅ ∅ (conn c);
  g_replies : replies_ok c;
  g_reply_list : NoDup (replies c);
  g_match_list : NoDup (matches c) /\ forall m, m ∈ matches c <-> is_Some (match_heap c !! m);
  g_services : forall n s, services c !! n = Some s -> exists x, service_heap c !! s = Some x /\ s_service x = n;
  g_service : forall s x, service_heap c !! s = Some x -> services c !! s_service x = Some s;
  g_data : data_ok c }.

(** Nothing is registered through a state, which would hold the connection. *)
Definition stateless (c : Client) : Prop := data_heap c = ∅ /\ states c !! c_state c = Some None.

Lemma stateless_release (c : Client) (t : target) (h : Release) : data_heap c = ∅ -> hooked (data_heap c) t h -> own_release h.
Proof.
  intros E [H1 H0] Hp. split; [|exact H1]. intros Hr. destruct (H0 Hr Hp) as (d & x & _ & Hd & _). by rewrite E, lookup_empty in Hd.
Qed.

Section Ordered.
Context {B : Build} (dh_order : forall A : Type, gmap (list Z) A -> list (list Z * A)) (Hd : forall A (g : gmap (list Z) A), dh_order A g ≡ₚ map_to_list g).
Context (own : Objects.iid -> Z) (nI nP : list Z).
Notation registered := (registered own nI nP).

Lemma order_values {A} (g : gmap (list Z) A) (a : A) : a ∈ (dh_order _ g).*2 <-> exists n, g !! n = Some a.
Proof.
  rewrite list_elem_of_fmap. setoid_rewrite Hd. split; [intros ([n a'] & -> & H%elem_of_map_to_list); by exists n|].
  intros [n H]. exists (n, a). split; [done|]. by apply elem_of_map_to_list.
Qed.

Lemma order_values_once {A} (g : gmap (list Z) A) : (forall n n' a, g !! n = Some a -> g !! n' = Some a -> n = n') -> NoDup (dh_order _ g).*2.
Proof.
  intros H. rewrite (Permutation_map snd (Hd _ g)). apply NoDup_fmap_2_strong; [|apply NoDup_map_to_list].
  intros [n a] [n' a'] Hn%elem_of_map_to_list Hn'%elem_of_map_to_list E. cbn in E. subst a'. f_equal. by apply (H n n' a).
Qed.

Lemma tables_freed (c : Client) : registered c -> exists h,
  free_tables dh_order c = Ret tt (set_remotes ∅ (set_remote_heap ∅ (set_reply_heap h (set_conn (unpathed (conn c)) (set_services ∅ (set_service_heap ∅ c)))))) /\
  forall r, h !! r = set_r_remote None <$> (reply_heap c !! r).
Proof.
  intros G. destruct (free_services_run (dh_order _ (services c)) c) as (sh & E & Hs).
  { apply order_values_once. intros n n' s H H'. destruct (g_services _ _ _ c G n s H) as (x & Hx & <-), (g_services _ _ _ c G n' s H') as (x' & Hx' & <-). congruence. }
  { intros s [n H]%order_values. destruct (g_services _ _ _ c G n s H) as (x & Hx & _). by exists x. }
  assert (sh = ∅) as ->.
  { apply map_empty. intros s. rewrite (Hs s). case_decide as Hin; [done|]. destruct (service_heap c !! s) as [x|] eqn:Hx; [|done].
    destruct Hin. apply order_values. exists (s_service x). by apply (g_service _ _ _ c G). }
  unfold free_tables. rewrite (bind_Ret get _ c c c eq_refl), (bind_Ret _ _ _ _ _ E), (bind_Ret (modify (set_services ∅)) _ _ _ tt eq_refl). set (c1 := set_services _ _).
  destruct (free_objects_run dh_order Hd own nI nP (conn c) (g_conn _ _ _ c G)) as (k & Ek & Ep).
  assert (E1 : on_part (let* c := get in free_paths dh_order (dh_order _ (Objects.paths c))) c1 = Ret tt (set_conn k c1)) by exact (on_part_Ret _ c1 tt k Ek).
  rewrite (bind_Ret _ _ _ _ _ E1), (bind_Ret (on_part (modify _)) _ _ (set_conn (unpathed (conn c)) c1) tt); [|cbv [on_part modify]; cbn; by rewrite Ep].
  set (c2 := set_conn _ c1). rewrite (bind_Ret get _ c2 c2 c2 eq_refl). pose proof (g_replies _ _ _ c G) as Ok.
  destruct (free_remotes_run (dh_order _ (remotes c2)) c2) as (S & h & ms & E2 & U & Hm & HS).
  { apply order_values_once. intros n n' m H H'. destruct (ok_remotes c Ok n m H) as (x & Hx & <-), (ok_remotes c Ok n' m H') as (x' & Hx' & <-). congruence. }
  { intros m [n H]%order_values. destruct (ok_remotes c Ok n m H) as (x & Hx & _). exists x. split; [done|]. intros k' r Hr.
    destruct (ok_pending c Ok m x k' r Hx Hr) as (y & Hy & _). by exists y. }
  assert (ms = ∅) as ->.
  { apply map_empty. intros m. rewrite (Hm m). case_decide as Hin; [done|]. destruct (remote_heap c2 !! m) as [x|] eqn:Hx; [|done].
    destruct Hin. apply order_values. exists (r_name x). by apply (ok_remote c Ok m x Hx). }
  exists h. split; [rewrite (bind_Ret _ _ _ _ _ E2); by destruct c|]. intros r. rewrite (U r). cbn. destruct (reply_heap c !! r) as [y|] eqn:Hy; [|done]. cbn. f_equal.
  case_decide as Hin; [done|]. destruct y as [[m|] n k']; [|done]. destruct Hin. destruct (ok_reply c Ok r _ m Hy eq_refl) as (x & Hx & Hr).
  apply (HS m x n r); [|done..]. apply order_values. exists (r_name x). by apply (ok_remote c Ok m x Hx).
Qed.

Context (send_message : option (Message -> Z)) (get_proxy : option (nat * pointer)).

(** The own state of the connection goes, and the built-in interfaces. *)
Lemma state_freed (c : Client) : states c !! c_state c = Some None ->
  adbus_state_free send_message get_proxy (c_state c) c = Ret tt (set_states (delete (c_state c) (states c)) c).
Proof.
  intros E. unfold adbus_state_free, adbus_state_reset. rewrite bind_assoc, (bind_Ret get _ c c c eq_refl), bind_assoc.
  by rewrite (bind_Ret _ _ c c None (of_option_run _ _ c E)).
Qed.

Lemma list_empty {A} (l : list A) : (forall a, a ∉ l) -> l = [].
Proof. destruct l as [|a l]; [done|]. intros H. destruct (H a). by left. Qed.

(** The lists, when the tables are gone; [g] was the heap of replies. *)
Lemma lists_freed (w : Client) (g : gmap repid ConnReply) :
  NoDup (replies w) -> (forall r, r ∈ replies w <-> is_Some (g !! r)) -> (forall r, reply_heap w !! r = set_r_remote None <$> (g !! r)) ->
  (forall r y, g !! r = Some y -> own_release (y_release (r_hooks y))) ->
  NoDup (matches w) -> (forall m, m ∈ matches w <-> is_Some (match_heap w !! m)) -> (forall m x, match_heap w !! m = Some x -> own_release (x_release (m_reg x))) ->
  exists i, free_lists w =
    Ret tt (set_log (log w ++ concat (map (reply_events g) (replies w)) ++ concat (map (match_events (match_heap w)) (matches w)))
      (set_match_heap ∅ (set_matches [] (set_reply_heap ∅ (set_reply_iter i (set_replies [] w)))))).
Proof.
  intros Rn Rl Hh Ru Mn Ml Mu.
  destruct (free_replies_run (replies w) w) as (rh & i & rs & E & Hr & Hs); [done| |].
  { intros r [y Hy]%Rl. exists (set_r_remote None y). rewrite (Hh r), Hy. split; [done|]. split; [done|exact (Ru r y Hy)]. }
  rewrite (map_ext (reply_events (reply_heap w)) (reply_events g)) in E by (intros r; unfold reply_events; rewrite (Hh r); by destruct (g !! r)).
  assert (rs = []) as -> by (apply list_empty; by intros r [Hin Hni]%Hs).
  assert (rh = ∅) as ->.
  { apply map_empty. intros r. rewrite (Hr r). case_decide as Hin; [done|]. rewrite (Hh r). destruct (g !! r) as [y|] eqn:Hy; [|done]. destruct Hin. apply Rl. by exists y. }
  unfold free_lists. rewrite (bind_Ret get _ w w w eq_refl), (bind_Ret _ _ _ _ _ E). set (c1 := set_log _ _). rewrite (bind_Ret get _ c1 c1 c1 eq_refl).
  destruct (free_matches_run (matches c1) c1) as (mh & ms & E1 & Hm & Ht); [exact Mn| |].
  { intros m [x Hx]%Ml. exists x. split; [done|exact (Mu m x Hx)]. }
  assert (ms = []) as -> by (apply list_empty; by intros m [Hin Hni]%Ht).
  assert (mh = ∅) as ->.
  { apply map_empty. intros m. rewrite (Hm m). case_decide as Hin; [done|]. cbn. destruct (match_heap w !! m) as [x|] eqn:Hx; [|done]. destruct Hin. apply Ml. by exists x. }
  exists i. rewrite E1. cbn. by rewrite <- app_assoc.
Qed.

Lemma part_conn (op : M Objects.Conn unit) (c : Client) (k : Objects.Conn) : op (conn c) = Ret tt k -> on_part op c = Ret tt (set_conn k c).
Proof. exact (on_part_Ret op c tt k). Qed.

(** The binds are freed and then the interfaces of the connection: nobody but
    users holds an interface afterwards. *)
Lemma conn_freed (k : Objects.Conn) : nI <> nP -> Objects.conn_ok own nI nP ∅ ∅ ∅ k -> exists k1 k2 evs,
  (let* c := get in free_binds dh_order (Objects.binds c)) (unpathed k) = Ret tt k1 /\ Objects.binds k1 = [] /\ Objects.paths k1 = ∅ /\
  (let* c := get in run* Objects.adbus_iface_deref dh_order (Objects.introspectable c) in Objects.adbus_iface_deref dh_order (Objects.properties c)) k1 = Ret tt k2 /\
  Objects.bind_heap k2 = ∅ /\ Objects.objects k2 = ∅ /\ Objects.paths k2 = ∅ /\
  (forall i x, Objects.ifaces k2 !! i = Some x -> Objects.i_ref x = final_own own k i /\ 0 < Objects.i_ref x) /\
  Objects.released k2 = Objects.released k ++ evs /\
  evs ≡ₚ concat (map (bind_events (Objects.bind_heap k)) (Objects.binds k)) ++ dying dh_order (final_own own k) (all_members k).
Proof.
  intros HnIP [_ W]. pose proof (Objects.b_list _ _ _ _ _ _ W) as [Hn Hl].
  assert (Ho : forall i, own i = 0 -> final_own own k i = 0).
  { intros i Hi. destruct (Objects.b_intro _ _ _ _ _ _ W) as (? & _ & _ & Oi), (Objects.b_props _ _ _ _ _ _ W) as (? & _ & _ & Op).
    unfold final_own, Objects.dropped. repeat case_decide; subst; lia. }
  destruct (free_binds_run dh_order own nI nP (final_own own k) (Objects.binds k) Ho (unpathed k) Hn (unpathed_ok own nI nP k W))
    as (k1 & ev1 & E1 & W1 & B1 & O1 & P1 & I1 & Q1 & R1 & V1).
  { intros b. rewrite Hl. cbn. by rewrite lookup_fmap, fmap_is_Some. }
  { intros b cb. cbn. rewrite lookup_fmap. by intros (cb0 & _ & ->)%fmap_Some. }
  assert (F : final_own own k1 = final_own own k) by (unfold final_own; by rewrite I1, Q1).
  destruct (free_builtins_run dh_order own nI nP k1 HnIP W1 B1) as (k2 & ev2 & E2 & R2 & V2 & H2 & B2 & O2 & P2).
  exists k1, k2, (ev1 ++ ev2). split_and!; try done.
  - apply list_empty. intros b Hb. apply (proj2 (Objects.b_list _ _ _ _ _ _ W1)) in Hb as [cb Hcb]. by rewrite B1, lookup_empty in Hcb.
  - by rewrite O2, O1.
  - by rewrite P2, P1.
  - rewrite <- F. exact H2.
  - by rewrite R2, R1, app_assoc.
  - rewrite V2, F, V1. cbn [Objects.bind_heap unpathed Objects.set_paths Objects.set_objects Objects.set_binds].
    rewrite (map_ext _ _ (bind_events_fmap (Objects.bind_heap k))). unfold all_members, unpathed. done.
Qed.

(** What a connection leaves when it goes: everything that was registered is
    gone and was released once; users keep the interfaces they hold. *)
Record torn_down (c c' : Client) : Prop := {
  td_replies : reply_heap c' = ∅; td_remotes : remote_heap c' = ∅; td_matches : match_heap c' = ∅;
  td_services : service_heap c' = ∅; td_state : states c' = delete (c_state c) (states c);
  td_binds : Objects.bind_heap (conn c') = ∅; td_objects : Objects.objects (conn c') = ∅;
  td_ifaces : forall i x, Objects.ifaces (conn c') !! i = Some x -> Objects.i_ref x = final_own own (conn c) i /\ 0 < Objects.i_ref x;
  td_log : log c' = log c ++ concat (map (reply_events (reply_heap c)) (replies c)) ++ concat (map (match_events (match_heap c)) (matches c));
  td_released : exists evs, Objects.released (conn c') = Objects.released (conn c) ++ evs /\
    evs ≡ₚ concat (map (bind_events (Objects.bind_heap (conn c))) (Objects.binds (conn c))) ++
           dying dh_order (final_own own (conn c)) (all_members (conn c)) }.

Lemma free_connection_run (c : Client) : nI <> nP -> registered c -> stateless c ->
  exists c', free_connection dh_order send_message get_proxy c = Ret tt c' /\ torn_down c c'.
Proof.
  intros HnIP G [D Hst]. destruct (tables_freed c G) as (h & Et & Hh).
  destruct (conn_freed (conn c) HnIP (g_conn _ _ _ c G)) as (k1 & k2 & evs & E1 & B1 & P1 & E2 & B2 & O2 & P2 & H2 & R2 & V2).
  set (w1 := set_remotes _ _) in Et. set (w2 := set_conn k1 w1).
  assert (Eb : on_part (let* c := get in free_binds dh_order (Objects.binds c)) w1 = Ret tt w2) by (apply part_conn; exact E1).
  pose proof (g_replies _ _ _ c G) as Ok. pose proof (g_data _ _ _ c G) as K. destruct (g_match_list _ _ _ c G) as [Mn Ml].
  destruct (lists_freed w2 (reply_heap c) (g_reply_list _ _ _ c G) (ok_list c Ok) Hh) as [i El]; [|exact Mn|exact Ml| |].
  { intros r y Hy. exact (stateless_release c (ToReply r) _ D (dk_reply c K r y Hy)). }
  { intros m x Hx. exact (stateless_release c (ToMatch m) _ D (dk_match c K m x Hx)). }
  set (w3 := set_log _ _) in El. set (w4 := set_states (delete (c_state c) (states c)) w3). exists (set_conn k2 w4). split.
  - unfold free_connection. rewrite (bind_Ret _ _ _ _ _ Et), (bind_Ret _ _ _ _ _ Eb), (bind_Ret _ _ _ _ _ El), (bind_Ret get _ w3 w3 w3 eq_refl).
    change (Objects.binds (conn w3)) with (Objects.binds k1). change (Objects.paths (conn w3)) with (Objects.paths k1). rewrite B1, P1.
    do 6 rewrite (bind_Ret (assert_ _) _ w3 w3 tt) by (by apply assert_true, bool_decide_eq_true_2). rewrite (bind_Ret _ _ w3 w4 tt (state_freed w3 Hst)). apply part_conn. exact E2.
  - split; try done. by exists evs.
Qed.

End Ordered.

(** ** A connection with a bind, a match and a reply *)
Section Samples.
#[local] Existing Instance debug_build.
Definition sample_watch : MatchReg :=
  mkMatchReg adbus_match_init false (-1) None (-1) (Some (UserCallback 5)) Null None Null (mkRelease (Some (UserRelease 6)) (User 2) (Some (UserRelease 7)) Null None Null).
Definition sample_matched : Client :=
  match adbus_conn_addmatch None None sample_watch (set_conn Objects.sample_state adbus_conn_new) with Ret _ c => c | _ => adbus_conn_new end.

Lemma sample_matched_ok : replies_ok sample_matched /\ data_ok sample_matched.
Proof.
  split; split; cbn; intros *; rewrite ?lookup_empty; try done; [split; [by intros ?%elem_of_nil|by intros [? ?]]|].
  intros [<- <-]%lookup_singleton_Some. by split.
Qed.

Definition sample_torn : Client :=
  match adbus_conn_addreply None None (sample_reply (str ":1.5") 7) sample_matched with Ret _ c => c | _ => adbus_conn_new end.

Lemma sample_torn_registered : registered (Objects.own0 Objects.sample_ifaces) (str "I") (str "P") sample_torn.
Proof.
  destruct sample_matched_ok as [Ok D]. destruct (addreply_ok None None sample_matched (sample_reply (str ":1.5") 7) (str ":1.5") (str ":1.5") (str ":1.5") Ok D)
    as (r & c' & E & Ok' & D' & _); [reflexivity|reflexivity|discriminate|discriminate|split; discriminate|reflexivity|reflexivity|].
  assert (Ec : sample_torn = c') by (unfold sample_torn; by rewrite E). split.
  - exact (Objects.m_ok _ _ _ _ _ _ (proj1 (Objects.reached_models Objects.sample_order Objects.sample_ifaces 0%nat 1%nat (str "I") (str "P")
      Objects.sample_perm Objects.sample_good _ _ _ _ Objects.sample_state_reached))).
  - by rewrite Ec.
  - change (NoDup [3%nat]). apply NoDup_singleton.
  - split; [change (NoDup [1%nat]); apply NoDup_singleton|]. assert (Em : exists x, match_heap sample_torn = {[1%nat := x]}) by (eexists; reflexivity).
    destruct Em as [x ->]. intros m. change (m ∈ [1%nat] <-> is_Some (({[1%nat := x]} : gmap nat ConnMatch) !! m)). rewrite list_elem_of_singleton, lookup_singleton_is_Some. by split; intros ->.
  - intros n s. change (services sample_torn) with (∅ : gmap (list Z) svcid). by rewrite lookup_empty.
  - intros s x. change (service_heap sample_torn) with (∅ : gmap svcid ServiceLookup). by rewrite lookup_empty.
  - by rewrite Ec.
Qed.

End Samples.
