(* ===== verification/Address.v ===== *)
(** Addresses and sockets (adbus/socket.c): the address of a bus is looked up
    and parsed, and a socket is connected or bound to it; the client side of
    the authentication runs on a blocking socket. *)

From Stdlib Require Import ZArith Lia.
From stdpp Require Import base option list numbers strings gmap.
From S2P Require Import Prelude Names Text Signature Iterator Values Buffer Sha1 Auth.
#[local] Open Scope Z_scope.
#[local] Open Scope adbus_scope.

(** ** The operating system

    Addresses of [getaddrinfo], and those of unix sockets as the bytes of
    [sun_path] that are passed on; the results of [connect] and [bind] say
    whether the call succeeded. *)
Inductive sockaddr (A : Type) := Inet (a : A) | SunPath (bytes : list Z).
Arguments Inet {A} a.
Arguments SunPath {A} bytes.

Class Sockets (W : Type) := {
  addrinfo : Type;
  getaddrinfo : option (list Z) -> option (list Z) -> bool -> W -> option (list addrinfo) * W;
  socket : sockaddr addrinfo -> W -> option nat * W;
  connect : nat -> sockaddr addrinfo -> W -> bool * W;
  bind_ : nat -> sockaddr addrinfo -> W -> bool * W;
  closesocket : nat -> W -> W }.

(** [open_sockets]: the sockets of the process; the calls do to it what they
    are documented to do. *)
Class SocketLaws (W : Type) `{Sockets W} := {
  open_sockets : W -> gset nat;
  getaddrinfo_open h p b w : open_sockets (getaddrinfo h p b w).2 = open_sockets w;
  socket_open a w : match socket a w with
    | (Some fd, w') => (fd ∉ open_sockets w) /\ open_sockets w' = ({[fd]} ∪ open_sockets w)
    | (None, w') => open_sockets w' = open_sockets w
    end;
  connect_open fd a w : open_sockets (connect fd a w).2 = open_sockets w;
  bind_open fd a w : open_sockets (bind_ fd a w).2 = open_sockets w;
  close_open fd w : open_sockets (closesocket fd w) = open_sockets w ∖ {[fd]} }.

(** ** Parsing an address *)

(** [struct Fields] *)
Record Fields := mkFields {
  proto : option (list Z); f_file : option (list Z); abstract_ : option (list Z); host : option (list Z); port : option (list Z) }.
Definition no_fields : Fields := mkFields None None None None None.
Definition set_proto (v : list Z) (f : Fields) : Fields := mkFields (Some v) (f_file f) (abstract_ f) (host f) (port f).
Definition set_file (v : list Z) (f : Fields) : Fields := mkFields (proto f) (Some v) (abstract_ f) (host f) (port f).
Definition set_abstract (v : list Z) (f : Fields) : Fields := mkFields (proto f) (f_file f) (Some v) (host f) (port f).
Definition set_host (v : list Z) (f : Fields) : Fields := mkFields (proto f) (f_file f) (abstract_ f) (Some v) (port f).
Definition set_port (v : list Z) (f : Fields) : Fields := mkFields (proto f) (f_file f) (abstract_ f) (host f) (Some v).

(** [strncmp(k, s, n) == 0] for the [n] characters [k] and the C string [s]. *)
Fixpoint strncmp (k s : list Z) : bool :=
  match k, s with
  | [], _ => true
  | c :: _, [] => c =? 0
  | c :: k, d :: s => (c =? d) && strncmp k s
  end.

Definition put_field (key value : list Z) (f : Fields) : Fields :=
  if strncmp key (str "file") then set_file value f
  else if strncmp key (str "abstract") then set_abstract value f
  else if strncmp key (str "host") then set_host value f
  else if strncmp key (str "port") then set_port value f
  else f.

(** The loop: every round takes at least the '='.  A value ends at the NUL
    that replaces the comma after it, or that ends the string. *)
Fixpoint fields_loop (fuel : nat) (s : list Z) (f : Fields) : option Fields :=
  match s with
  | [] => Some f
  | _ =>
      match fuel with
      | O => None
      | S fuel =>
          match split_at (chr "=") s with
          | None => Some f
          | Some (key, rest) =>
              let '(value, rest) := match split_at (chr ",") rest with Some (v, r) => (v, r) | None => (rest, []) end in
              fields_loop fuel rest (put_field key (cstr value) f)
          end
      end
  end.

Definition ParseFields (s : list Z) : option Fields :=
  match split_at (chr ":") s with
  | None => Some no_fields
  | Some (p, rest) => fields_loop (length rest) rest (set_proto (cstr p) no_fields)
  end.

(** ** The address of a bus *)
Inductive adbus_BusType := ADBUS_DEFAULT_BUS | ADBUS_SESSION_BUS | ADBUS_SYSTEM_BUS.

Section Environment.
Context (getenv : list Z -> option (list Z)).

(** What the buffer of [sz] bytes holds, before the terminator: [strncpy]
    takes [sz - 1] of the string. *)
Definition CopyString (s : option (list Z)) (sz : Z) : option (list Z) :=
  match s with None => None | Some s => Some (take (Z.to_nat (sz - 1)) (cstr s)) end.
Definition CopyEnv (env : list Z) (sz : Z) : option (list Z) := CopyString (getenv env) sz.
Definition or_else {A} (a b : option A) : option A := match a with Some _ => a | None => b end.

Definition EnvironmentString (type : adbus_BusType) (sz : Z) : option (list Z) :=
  match type with
  | ADBUS_DEFAULT_BUS =>
      or_else (CopyEnv (str "DBUS_STARTER_ADDRESS") sz)
        (or_else (CopyEnv (str "DBUS_SESSION_BUS_ADDRESS") sz) (CopyString (Some (str "autostart:")) sz))
  | ADBUS_SESSION_BUS =>
      or_else (CopyEnv (str "DBUS_SESSION_BUS_ADDRESS") sz) (CopyString (Some (str "autostart:")) sz)
  | ADBUS_SYSTEM_BUS =>
      or_else (CopyEnv (str "DBUS_SYSTEM_BUS_ADDRESS") sz)
        (or_else (CopyString (Some (str "unix:file=/var/run/dbus/system_bus_socket")) sz) (CopyString (Some (str "autostart:")) sz))
  end.
Definition adbus_connect_address (type : adbus_BusType) (sz : Z) : option (list Z) := EnvironmentString type sz.
Definition adbus_bind_address (type : adbus_BusType) (sz : Z) : option (list Z) := EnvironmentString type sz.
End Environment.

(** ** Sockets *)
Section Socket.
Context {W : Type} `{Sockets W}.

Definition os {A} (f : W -> A * W) : M W A := fun w => let '(a, w') := f w in Ret a w'.

(** The loop over the addresses, with [connect] or [bind]. *)
Fixpoint first_address (op : nat -> sockaddr addrinfo -> W -> bool * W) (l : list addrinfo) : M W (option nat) :=
  match l with
  | [] => ret None
  | a :: l =>
      let* s := os (socket (Inet a)) in
      match s with
      | None => first_address op l
      | Some sfd =>
          let* ok := os (op sfd (Inet a)) in
          if ok : bool then ret (Some sfd) else run* modify (closesocket sfd) in first_address op l
      end
  end.

Definition ConnectTcp (f : Fields) : M W (option nat) :=
  let* r := os (getaddrinfo (host f) (port f) false) in
  match r with None => ret None | Some result => first_address connect result end.
Definition BindTcp (f : Fields) : M W (option nat) :=
  let* r := os (getaddrinfo None (port f) true) in
  match r with None => ret None | Some result => first_address bind_ result end.

Definition UNIX_PATH_MAX : Z := 108.

(** [strncat(sun_path + off, s, n)] into the [UNIX_PATH_MAX] zeros of
    [sun_path]: the characters and a NUL have to fit. *)
Definition sun_strncat (off : Z) (s : list Z) (n : Z) : M W (list Z) :=
  let c := take (Z.to_nat n) (cstr s) in
  if off + len c + 1 <=? UNIX_PATH_MAX then ret (repeat 0 (Z.to_nat off) ++ c) else oob.

(** Calls on an invalid socket fail, and closing one does nothing. *)
Definition open_unix (op : nat -> sockaddr addrinfo -> W -> bool * W) (a : list Z) : M W (option nat) :=
  let* s := os (socket (SunPath a)) in
  match s with
  | None => ret None
  | Some sfd =>
      let* ok := os (op sfd (SunPath a)) in
      if ok : bool then ret (Some sfd) else run* modify (closesocket sfd) in ret None
  end.
Definition unix_file (op : nat -> sockaddr addrinfo -> W -> bool * W) (file : list Z) : M W (option nat) :=
  let psize := Z.min UNIX_PATH_MAX (len (cstr file)) in
  let* a := sun_strncat 0 file psize in
  open_unix op (take (Z.to_nat psize) a).
Definition unix_abstract (op : nat -> sockaddr addrinfo -> W -> bool * W) (name : list Z) : M W (option nat) :=
  let psize := Z.min (UNIX_PATH_MAX - 1) (len (cstr name)) in
  let* a := sun_strncat 1 name psize in
  open_unix op (take (Z.to_nat (psize + 1)) a).
Definition ConnectUnix : list Z -> M W (option nat) := unix_file connect.
Definition BindUnix : list Z -> M W (option nat) := unix_file bind_.
Definition ConnectAbstract : list Z -> M W (option nat) := unix_abstract connect.
Definition BindAbstract : list Z -> M W (option nat) := unix_abstract bind_.

(** Which kind of socket the fields ask for. *)
Definition dial (tcp : Fields -> M W (option nat)) (unix abstract : list Z -> M W (option nat)) (f : Fields) : M W (option nat) :=
  match proto f, host f, port f, f_file f, abstract_ f with
  | None, _, _, _, _ => ret None
  | Some p, h, o, u, a =>
      if list_eqb p (str "tcp") && bool_decide (is_Some h) && bool_decide (is_Some o) then tcp f
      else match list_eqb p (str "unix"), u, a with
           | true, Some path, _ => unix path
           | true, None, Some name => abstract name
           | _, _, _ => ret None
           end
  end.

Definition adbus_sock_connect_s (envstr : list Z) (size : Z) : M W (option nat) :=
  match ParseFields (sized envstr size) with
  | None => nofuel
  | Some f => dial ConnectTcp ConnectUnix ConnectAbstract f
  end.
Definition adbus_sock_bind_s (envstr : list Z) (size : Z) : M W (option nat) :=
  match ParseFields (sized envstr size) with
  | None => nofuel
  | Some f => dial BindTcp BindUnix BindAbstract f
  end.

Context (getenv : list Z -> option (list Z)).
Definition adbus_sock_connect (type : adbus_BusType) : M W (option nat) :=
  match adbus_connect_address getenv type 255 with None => ret None | Some buf => adbus_sock_connect_s buf (-1) end.
Definition adbus_sock_bind (type : adbus_BusType) : M W (option nat) :=
  match adbus_bind_address getenv type 255 with None => ret None | Some buf => adbus_sock_bind_s buf (-1) end.
End Socket.

(** ** What an address says *)
Fixpoint pairs_text (l : list (list Z * list Z)) : list Z :=
  match l with
  | [] => []
  | [(k, v)] => k ++ chr "=" :: v
  | (k, v) :: l => k ++ chr "=" :: v ++ chr "," :: pairs_text l
  end.
Definition address_text (p : list Z) (l : list (list Z * list Z)) : list Z := p ++ chr ":" :: pairs_text l.

Definition names : list (list Z) := [str "file"; str "abstract"; str "host"; str "port"].

(** A key is one of the names, or does not begin any of them. *)
Definition plain_key (k : list Z) : Prop := Forall (fun n => strncmp k n = true -> k = n) names.
Record wf_address (p : list Z) (l : list (list Z * list Z)) : Prop := {
  wa_proto : free_of (chr ":") p /\ no_nul p;
  wa_pairs : Forall (fun kv => plain_key kv.1 /\ free_of (chr "=") kv.1 /\ no_nul kv.1 /\ free_of (chr ",") kv.2 /\ no_nul kv.2) l }.

(** The value that comes last for a key. *)
Definition value_of (n : list Z) (l : list (list Z * list Z)) : option (list Z) := snd <$> last (filter (fun kv => kv.1 = n) l).

Lemma value_of_cons (n k v : list Z) (l : list (list Z * list Z)) :
  value_of n ((k, v) :: l) = match value_of n l with Some x => Some x | None => if decide (k = n) then Some v else None end.
Proof.
  unfold value_of. rewrite filter_cons. cbn [fst]. destruct (decide (k = n)) as [->|]; [|by destruct (last _)].
  by destruct (filter _ l) as [|x r]; [|rewrite last_cons_cons; destruct (last (x :: r)) eqn:E; [|apply last_None in E]].
Qed.

Lemma plain_name (k n : list Z) : plain_key k -> n ∈ names -> strncmp k n = bool_decide (k = n).
Proof.
  intros H Hn. apply Bool.eq_true_iff_eq. rewrite bool_decide_eq_true. split; [by apply (proj1 (Forall_forall _ _) H)|]. intros ->.
  by repeat (apply elem_of_cons in Hn as [->|Hn]; [by vm_compute|]); apply elem_of_nil in Hn.
Qed.

Lemma put_field_plain (k v : list Z) (f : Fields) : plain_key k ->
  put_field k v f = mkFields (proto f) (if decide (k = str "file") then Some v else f_file f) (if decide (k = str "abstract") then Some v else abstract_ f)
    (if decide (k = str "host") then Some v else host f) (if decide (k = str "port") then Some v else port f).
Proof.
  intros H. unfold put_field. rewrite !(plain_name k) by (done || unfold names; set_solver).
  repeat case_bool_decide; subst; repeat case_decide; try done; by destruct f.
Qed.

(** The fields of the pairs, over those there were. *)
Definition fields_over (l : list (list Z * list Z)) (f : Fields) : Fields :=
  mkFields (proto f) (or_else (value_of (str "file") l) (f_file f)) (or_else (value_of (str "abstract") l) (abstract_ f))
    (or_else (value_of (str "host") l) (host f)) (or_else (value_of (str "port") l) (port f)).

Lemma fields_over_cons (k v : list Z) (l : list (list Z * list Z)) (f : Fields) : plain_key k -> fields_over l (put_field k v f) = fields_over ((k, v) :: l) f.
Proof.
  intros H. rewrite put_field_plain by done. unfold fields_over. cbn [proto f_file abstract_ host port]. rewrite !value_of_cons.
  f_equal; destruct (value_of _ l); try done; by case_decide.
Qed.

Lemma loop_pair (fuel : nat) (k v r : list Z) (f : Fields) : free_of (chr "=") k -> free_of (chr ",") v -> no_nul v ->
  fields_loop (S fuel) (k ++ chr "=" :: v ++ chr "," :: r) f = fields_loop fuel r (put_field k v f) /\
  fields_loop (S fuel) (k ++ chr "=" :: v) f = Some (put_field k v f).
Proof.
  intros Hk Hv Hn. assert (E : forall x, exists c t, k ++ chr "=" :: x = c :: t) by (intros x; destruct k; eauto).
  split.
  - destruct (E (v ++ chr "," :: r)) as (c & t & Et). cbn [fields_loop]. rewrite Et, <- Et, split_at_app, split_at_app, cstr_no_nul by done. done.
  - destruct (E v) as (c & t & Et). cbn [fields_loop]. rewrite Et, <- Et, split_at_app by done.
    destruct (split_at (chr ",") v) as [[x y]|] eqn:Es; [apply split_at_Some in Es as [-> _]; by apply Forall_app in Hv as [_ [? _]%Forall_cons_1]|].
    rewrite cstr_no_nul by done. by destruct fuel.
Qed.

Lemma length_pair (k x : list Z) : (1 <= length (k ++ chr "=" :: x))%nat.
Proof. rewrite length_app. cbn [length]. lia. Qed.

Lemma pairs_parsed (l : list (list Z * list Z)) : Forall (fun kv => plain_key kv.1 /\ free_of (chr "=") kv.1 /\ no_nul kv.1 /\ free_of (chr ",") kv.2 /\ no_nul kv.2) l ->
  forall fuel f, (length (pairs_text l) <= fuel)%nat -> fields_loop fuel (pairs_text l) f = Some (fields_over l f).
Proof.
  induction 1 as [|[k v] l (Hp & Hk & Hkn & Hv & Hn) Hl IH]; intros fuel f Hf.
  - by destruct fuel, f.
  - cbn [fst snd] in *. rewrite <- fields_over_cons by done. destruct l as [|kv l].
    + cbn [pairs_text] in *. pose proof (length_pair k v). destruct fuel as [|fuel]; [lia|]. rewrite (proj2 (loop_pair fuel k v [] f Hk Hv Hn)). by destruct (put_field k v f).
    + remember (pairs_text (kv :: l)) as r eqn:Er. change (pairs_text ((k, v) :: kv :: l)) with (k ++ chr "=" :: v ++ chr "," :: pairs_text (kv :: l)) in *. rewrite <- Er in *.
      rewrite length_app in Hf. cbn [length] in Hf. rewrite length_app in Hf. cbn [length] in Hf. destruct fuel as [|fuel]; [lia|].
      rewrite (proj1 (loop_pair fuel k v r f Hk Hv Hn)). apply IH. lia.
Qed.

Lemma address_parsed (p : list Z) (l : list (list Z * list Z)) : wf_address p l ->
  ParseFields (address_text p l) = Some (mkFields (Some p) (value_of (str "file") l) (value_of (str "abstract") l) (value_of (str "host") l) (value_of (str "port") l)).
Proof.
  intros [[Hc Hn] Hl]. unfold ParseFields, address_text. rewrite split_at_app, cstr_no_nul by done. rewrite pairs_parsed by done.
  unfold fields_over. cbn. by destruct (value_of _ _), (value_of _ _), (value_of _ _), (value_of _ _).
Qed.

(** Parsing ends on any string. *)
Lemma fields_ends (fuel : nat) : forall s f, (length s <= fuel)%nat -> is_Some (fields_loop fuel s f).
Proof.
  induction fuel as [|fuel IH]; intros s f Hs; [by destruct s; [eexists|cbn in Hs; lia]|].
  destruct s as [|c s]; [by eexists|]. cbn [fields_loop]. destruct (split_at (chr "=") (c :: s)) as [[k r]|] eqn:E; [|by eexists].
  apply split_at_Some in E as [E _]. apply (f_equal length) in E. rewrite length_app in E. cbn [length] in *.
  destruct (split_at (chr ",") r) as [[v r']|] eqn:E1; apply IH; [|cbn; lia]. apply split_at_Some in E1 as [-> _]. rewrite length_app in E. cbn [length] in E. lia.
Qed.

Lemma address_no_nul (p : list Z) (l : list (list Z * list Z)) : wf_address p l -> no_nul (address_text p l).
Proof.
  intros [[_ Hn] Hl]. apply Forall_app. split; [done|]. constructor; [done|]. induction Hl as [|[k v] l (_ & _ & Hk & _ & Hv) _ IH]; [constructor|]. cbn [fst snd] in *.
  destruct l as [|kv l]; [by apply Forall_app; split; [|constructor]|]. apply Forall_app. split; [done|]. constructor; [done|]. apply Forall_app. split; [done|]. by constructor.
Qed.

(** Where an address leads; the name of a unix socket and its terminator have
    to fit into 108 bytes. *)
Inductive destination := Nowhere | Tcp (h p : list Z) | Unix (path : list Z) | TooLong.
Definition goes_to (p : list Z) (l : list (list Z * list Z)) : destination :=
  if decide (p = str "tcp") then
    match value_of (str "host") l, value_of (str "port") l with Some h, Some o => Tcp h o | _, _ => Nowhere end
  else if decide (p = str "unix") then
    match value_of (str "file") l, value_of (str "abstract") l with
    | Some f, _ => if len f <? 108 then Unix f else TooLong
    | None, Some a => if len a <? 107 then Unix (0 :: a) else TooLong
    | None, None => Nowhere
    end
  else Nowhere.

Section Opened.
Context {W : Type} `{SocketLaws W}.

(** One address that fails: no socket for it, or one that [op] refuses, which
    is closed; and one that succeeds, with its socket. *)
Inductive refused (op : nat -> sockaddr addrinfo -> W -> bool * W) (a : sockaddr addrinfo) (w : W) : W -> Prop :=
| No_socket w1 : socket a w = (None, w1) -> refused op a w w1
| Not_accepted fd w1 w2 : socket a w = (Some fd, w1) -> op fd a w1 = (false, w2) -> refused op a w (closesocket fd w2).

Definition accepted (op : nat -> sockaddr addrinfo -> W -> bool * W) (a : sockaddr addrinfo) (w : W) (fd : nat) (w' : W) : Prop :=
  exists w1, socket a w = (Some fd, w1) /\ op fd a w1 = (true, w').

(** Every address of the list fails, in the order of the list. *)
Fixpoint all_refused (op : nat -> sockaddr addrinfo -> W -> bool * W) (l : list (sockaddr addrinfo)) (w w' : W) : Prop :=
  match l with
  | [] => w' = w
  | a :: l => exists w1, refused op a w w1 /\ all_refused op l w1 w'
  end.

(** A run from [w] that begins to try the addresses [l] in [w0]: it ends with
    the socket of the first address that succeeds, after the ones before it
    failed, or without any after all of them failed; no other socket is left
    open, and none that was open is closed. *)
Definition opens (op : nat -> sockaddr addrinfo -> W -> bool * W) (l : list (sockaddr addrinfo)) (w0 : W) (m : M W (option nat)) (w : W) : Prop :=
  exists r w', m w = Ret r w' /\
    match r with
    | Some fd => (exists tried a rest w1, l = tried ++ a :: rest /\ all_refused op tried w0 w1 /\ accepted op a w1 fd w') /\
                 (fd ∉ open_sockets w) /\ open_sockets w' = ({[fd]} ∪ open_sockets w)
    | None => all_refused op l w0 w' /\ open_sockets w' = open_sockets w
    end.

Definition keeps (op : nat -> sockaddr addrinfo -> W -> bool * W) : Prop := forall fd a w, open_sockets (op fd a w).2 = open_sockets w.

(** What both kinds of socket do with one address. *)
Lemma try_opens (op : nat -> sockaddr addrinfo -> W -> bool * W) (a : sockaddr addrinfo) (l : list (sockaddr addrinfo)) (next : M W (option nat)) (w : W) : keeps op ->
  (forall w', opens op l w' next w') ->
  opens op (a :: l) w (let* s := os (socket a) in match s with None => next | Some sfd =>
    let* ok := os (op sfd a) in if ok : bool then ret (Some sfd) else run* modify (closesocket sfd) in next end) w.
Proof.
  intros Hop Hn. pose proof (socket_open a w) as Hs.
  assert (Hr : forall w1 m, refused op a w w1 -> open_sockets w1 = open_sockets w -> m w = next w1 -> opens op (a :: l) w m w).
  { intros w1 m Hf Ho Em. destruct (Hn w1) as (r & w' & E & Hr). exists r, w'. split; [by rewrite Em|]. rewrite Ho in Hr. destruct r as [fd|].
    - destruct Hr as [(t & b & rest & w2 & -> & Ht & Hb) Hr]. split; [|done]. exists (a :: t), b, rest, w2. split; [done|]. split; [by exists w1|done].
    - destruct Hr as [Ht Hr]. split; [by exists w1|done]. }
  destruct (socket a w) as [[fd|] w1] eqn:Es.
  - destruct Hs as [Hf Ho]. pose proof (Hop fd a w1) as Hk. destruct (op fd a w1) as [[] w2] eqn:Eo; cbn [snd] in Hk.
    + exists (Some fd), w2. split; [by rewrite (bind_Ret _ _ w w1 (Some fd)), (bind_Ret _ _ w1 w2 true) by (unfold os; by rewrite ?Es, ?Eo)|].
      split; [|by rewrite Hk]. exists [], a, l, w. split; [done|]. split; [done|]. by exists w1.
    + apply (Hr (closesocket fd w2)); [by apply (Not_accepted _ _ _ _ w1)|by rewrite close_open, Hk, Ho; set_solver|].
      by rewrite (bind_Ret _ _ w w1 (Some fd)), (bind_Ret _ _ w1 w2 false) by (unfold os; by rewrite ?Es, ?Eo).
  - apply (Hr w1); [by apply No_socket|done|]. by rewrite (bind_Ret _ _ w w1 None) by (unfold os; by rewrite Es).
Qed.

Lemma none_opens (op : nat -> sockaddr addrinfo -> W -> bool * W) (w : W) : opens op [] w (ret None) w.
Proof. by exists None, w. Qed.

Lemma first_opens (op : nat -> sockaddr addrinfo -> W -> bool * W) (l : list addrinfo) : keeps op -> forall w, opens op (map Inet l) w (first_address op l) w.
Proof.
  intros Hop. induction l as [|a l IH]; intros w; [apply none_opens|]. cbn [first_address map]. by apply try_opens.
Qed.

Lemma tcp_opens (op : nat -> sockaddr addrinfo -> W -> bool * W) (h o : option (list Z)) (b : bool) (w : W) : keeps op ->
  opens op (from_option (map Inet) [] (getaddrinfo h o b w).1) (getaddrinfo h o b w).2
    (let* r := os (getaddrinfo h o b) in match r with None => ret None | Some result => first_address op result end) w.
Proof.
  intros Hop. pose proof (getaddrinfo_open h o b w) as Hg. destruct (getaddrinfo h o b w) as [r w1] eqn:E. cbn [fst snd] in *.
  set (m := match r with None => ret None | Some result => first_address op result end).
  assert (Hm : opens op (from_option (map Inet) [] r) w1 m w1).
  { unfold m. destruct r as [l|]; [|apply none_opens]. by apply first_opens. }
  destruct Hm as (x & w' & E1 & H1). exists x, w'. split; [|by rewrite Hg in H1]. by rewrite (bind_Ret _ _ w w1 r) by (unfold os; by rewrite E).
Qed.

Lemma unix_opens (op : nat -> sockaddr addrinfo -> W -> bool * W) (a : list Z) (w : W) : keeps op -> opens op [SunPath a] w (open_unix op a) w.
Proof. intros Hop. apply (try_opens op (SunPath a) [] (ret None)); [done|]. intros w'. apply none_opens. Qed.

Lemma file_opens (op : nat -> sockaddr addrinfo -> W -> bool * W) (f : list Z) (w : W) : keeps op -> no_nul f ->
  if len f <? 108 then opens op [SunPath f] w (unix_file op f) w else unix_file op f w = Oob.
Proof.
  intros Hop Hn. unfold unix_file, sun_strncat. rewrite cstr_no_nul by done. set (n := Z.min UNIX_PATH_MAX (len f)).
  assert (Hf : len f < 108 -> take (Z.to_nat n) f = f) by (intros; apply take_ge; unfold n, UNIX_PATH_MAX, len in *; lia).
  assert (Hl : 108 <= len f -> len (take (Z.to_nat n) f) = 108) by (intros; unfold len; rewrite length_take; unfold n, UNIX_PATH_MAX, len in *; lia).
  destruct (Z.ltb_spec (len f) 108).
  - rewrite !Hf by done. rewrite (proj2 (Z.leb_le _ _)) by (unfold UNIX_PATH_MAX; lia).
    destruct (unix_opens op f w Hop) as (r & w' & E & Hr). exists r, w'. split; [|done]. rewrite (bind_Ret (ret _) _ w w _ eq_refl). change (repeat 0 (Z.to_nat 0) ++ f) with f. by rewrite Hf.
  - rewrite Hl by done. reflexivity.
Qed.

Lemma abstract_opens (op : nat -> sockaddr addrinfo -> W -> bool * W) (f : list Z) (w : W) : keeps op -> no_nul f ->
  if len f <? 107 then opens op [SunPath (0 :: f)] w (unix_abstract op f) w else unix_abstract op f w = Oob.
Proof.
  intros Hop Hn. unfold unix_abstract, sun_strncat. rewrite cstr_no_nul by done. set (n := Z.min (UNIX_PATH_MAX - 1) (len f)).
  assert (Hf : len f < 107 -> take (Z.to_nat n) f = f) by (intros; apply take_ge; unfold n, UNIX_PATH_MAX, len in *; lia).
  assert (Hl : 107 <= len f -> len (take (Z.to_nat n) f) = 107) by (intros; unfold len; rewrite length_take; unfold n, UNIX_PATH_MAX, len in *; lia).
  destruct (Z.ltb_spec (len f) 107).
  - rewrite !Hf by done. rewrite (proj2 (Z.leb_le _ _)) by (unfold UNIX_PATH_MAX; lia).
    destruct (unix_opens op (0 :: f) w Hop) as (r & w' & E & Hr). exists r, w'. split; [|done]. rewrite (bind_Ret (ret _) _ w w _ eq_refl).
    change (repeat 0 (Z.to_nat 1) ++ f) with (0 :: f). rewrite take_ge; [done|]. cbn [length]. unfold n, UNIX_PATH_MAX, len in *. lia.
  - rewrite Hl by done. reflexivity.
Qed.

(** What dialling does, for [connect] or [bind]; [tcp] is the TCP part. *)
Lemma dial_opens (op : nat -> sockaddr addrinfo -> W -> bool * W) (tcp : Fields -> M W (option nat)) (p : list Z) (l : list (list Z * list Z)) (w : W) : keeps op ->
  wf_address p l -> let m := dial tcp (unix_file op) (unix_abstract op)
    (mkFields (Some p) (value_of (str "file") l) (value_of (str "abstract") l) (value_of (str "host") l) (value_of (str "port") l)) in
  match goes_to p l with
  | Nowhere => m w = Ret None w
  | TooLong => m w = Oob
  | Tcp h o => exists f, host f = Some h /\ port f = Some o /\ m = tcp f
  | Unix a => opens op [SunPath a] w m w
  end.
Proof.
  intros Hop Hw m. assert (Hv : forall n v, value_of n l = Some v -> no_nul v).
  { intros n v. unfold value_of. intros ([k x] & Hx & ->)%fmap_Some. apply last_Some_elem_of, list_elem_of_filter in Hx as [_ Hx].
    exact (proj2 (proj2 (proj2 (proj2 (proj1 (Forall_forall _ _) (wa_pairs _ _ Hw) _ Hx))))). }
  subst m. unfold goes_to, dial. cbn [proto host port f_file abstract_]. destruct (decide (p = str "tcp")) as [->|Ht].
  - destruct (value_of (str "host") l) as [h|] eqn:Eh, (value_of (str "port") l) as [o|] eqn:Eo; cbn; try by destruct (value_of (str "file") l).
    eexists. split; [|split; [|reflexivity]]; done.
  - rewrite (proj2 (list_eqb_neq _ _)) by done. cbn [andb]. destruct (decide (p = str "unix")) as [->|Hu].
    + rewrite list_eqb_refl. destruct (value_of (str "file") l) as [f|] eqn:Ef.
      * pose proof (file_opens op f w Hop (Hv _ _ Ef)). by destruct (len f <? 108).
      * destruct (value_of (str "abstract") l) as [a|] eqn:Ea; [|done]. pose proof (abstract_opens op a w Hop (Hv _ _ Ea)). by destruct (len a <? 107).
    + rewrite (proj2 (list_eqb_neq _ _)) by done. by destruct (value_of (str "file") l).
Qed.

(** Where an address leads.  A path of 108 characters, or an abstract name of
    107, is written past the end of the address. *)
Lemma address_leads (p : list Z) (l : list (list Z * list Z)) (w : W) : wf_address p l ->
  let connected := adbus_sock_connect_s (address_text p l) (-1) in let bound := adbus_sock_bind_s (address_text p l) (-1) in
  match goes_to p l with
  | Nowhere => connected w = Ret None w /\ bound w = Ret None w
  | TooLong => connected w = Oob /\ bound w = Oob
  | Tcp h o => let found := getaddrinfo (Some h) (Some o) false w in let own := getaddrinfo None (Some o) true w in
               opens connect (from_option (map Inet) [] found.1) found.2 connected w /\ opens bind_ (from_option (map Inet) [] own.1) own.2 bound w
  | Unix a => opens connect [SunPath a] w connected w /\ opens bind_ [SunPath a] w bound w
  end.
Proof.
  intros Hw. cbv zeta. unfold adbus_sock_connect_s, adbus_sock_bind_s, sized. cbn [Z.ltb Z.compare].
  rewrite cstr_no_nul by (by apply address_no_nul). rewrite address_parsed by done.
  pose proof (dial_opens connect ConnectTcp p l w connect_open Hw) as Hc. pose proof (dial_opens bind_ BindTcp p l w bind_open Hw) as Hb.
  cbv zeta in Hc, Hb. destruct (goes_to p l) as [|h o|a|]; try by split.
  destruct Hc as (f & H1 & H2 & E1), Hb as (g & H3 & H4 & E2). unfold ConnectUnix, ConnectAbstract, BindUnix, BindAbstract. rewrite E1, E2.
  unfold ConnectTcp, BindTcp. rewrite H1, H2, H4. split; apply tcp_opens; [exact connect_open|exact bind_open].
Qed.

End Opened.

(** ** Authentication on a socket (adbus_sock_cauth) *)
Section Cauth.
Context {B : Build} {W : Type} (send : list Z -> W -> Z * W) (rand : W -> Z * W).
Context (home : option (list Z)) (fgets_all : list Z -> option (list (list Z))) (stack : SHA1).

(** [recv] fills the room it is given, of which the first bytes count; a
    negative number is an error. *)
Context (recv : nat -> W -> (Z * list Z) * W).
Definition RECV_SIZE : nat := 1024%nat.
Notation State := (St (W := W) * Buffer)%type.

Definition on_world {A} (f : W -> A * W) : M State A := fun '(s, b) => let '(a, w) := f (world s) in Ret a (mkSt w (auth s), b).

Fixpoint cauth_loop (fuel : nat) : M State Z :=
  match fuel with
  | O => nofuel
  | S fuel =>
      let* r := on_world (recv RECV_SIZE) in
      let '(read, fill) := r in
      if read <? 0 then ret (-1) else
      run* on_buffer (adbus_buf_recv fill RECV_SIZE read) in
      let* ret_ := adbus_auth_parse send rand home fgets_all stack in
      if ret_ =? 0 then cauth_loop fuel else ret (if ret_ <? 0 then -1 else 0)
  end.

Definition adbus_sock_cauth (fuel : nat) : M State Z :=
  run* on_auth adbus_cauth_external in
  let* n := on_world (send [0]) in
  if negb (n =? 1) then ret (-1) else
  let* r := on_auth (adbus_cauth_start send) in
  if negb (r =? 0) then ret (-1) else cauth_loop fuel.

(** A socket whose other end is closed gives no bytes: without a line in the
    buffer the loop goes round for ever. *)
Lemma closed_spins (fuel : nat) : forall (w : W) (a : Auth) (b : Buffer), adbus_buf_line b = None ->
  (forall w, exists fill, recv RECV_SIZE w = ((0, fill), w) /\ length fill = RECV_SIZE) -> cauth_loop fuel (mkSt w a, b) = Nofuel.
Proof.
  induction fuel as [|fuel IH]; intros w a b Hb Hr; [done|]. destruct (Hr w) as (fill & Er & Hl). cbn [cauth_loop].
  rewrite (bind_Ret _ _ (mkSt w a, b) (mkSt w a, b) (0, fill)) by (unfold on_world; cbn [world auth]; by rewrite Er). cbn [Z.ltb Z.compare].
  assert (Ebuf : on_buffer (adbus_buf_recv fill RECV_SIZE 0) (mkSt w a, b) = Ret tt (mkSt w a, b)).
  { unfold on_buffer, adbus_buf_recv. rewrite (bind_Ret (adbus_buf_append _) _ b (set_data (b_data b ++ take RECV_SIZE fill) b) tt eq_refl).
    rewrite (bind_Ret get _ _ _ _ eq_refl), (bind_Ret (assert_ _) _ _ (set_data (b_data b ++ take RECV_SIZE fill) b) tt).
    - cbn [Z.ltb Z.compare put b_data set_data]. rewrite length_app, length_take, Hl. rewrite take_app_length'; [by destruct b|]. unfold RECV_SIZE. lia.
    - apply assert_true. cbn [Z.ltb Z.compare]. unfold b_size, len. cbn [b_data set_data]. rewrite length_app, length_take, Hl. apply andb_true_iff. unfold RECV_SIZE. rewrite !Z.leb_le. lia. }
  rewrite (bind_Ret _ _ _ _ _ Ebuf). rewrite (bind_Ret (adbus_auth_parse _ _ _ _ _) _ _ (mkSt w a, b) 0); [by apply IH|].
  unfold adbus_auth_parse. destruct (length (b_data b)); cbn [parse_lines]; by rewrite Hb.
Qed.
End Cauth.

(** ** Examples *)

(** A machine with two addresses for every host, of which the second answers;
    a unix socket is found at "/run/bus". *)
#[local] Instance sample_sockets : Sockets (gset nat) := {
  addrinfo := nat;
  getaddrinfo _ _ _ w := (Some [1%nat; 2%nat], w);
  socket _ w := (Some (fresh w), {[fresh w]} ∪ w);
  connect _ a w := (match a with Inet n => (n =? 2)%nat | SunPath p => list_eqb p (str "/run/bus") end, w);
  bind_ _ _ w := (true, w);
  closesocket fd w := w ∖ {[fd]} }.
#[local] Instance sample_laws : SocketLaws (gset nat).
Proof.
  refine {| open_sockets := fun w : gset nat => w |}; try done. intros a w. split; [apply is_fresh|done].
Defined.


(** A key counts when it begins a name: here the empty one is the file. *)
Lemma short_key_taken : ParseFields (str "unix:=/x") = Some (mkFields (Some (str "unix")) (Some (str "/x")) None None None).
Proof. reflexivity. Qed.
(** A path of 108 characters is written past the end of the address. *)
Lemma long_path_overflows : adbus_sock_connect_s (str "unix:file=" ++ repeat (chr "a") 108) (-1) (∅ : gset nat) = Oob.
Proof. vm_compute. reflexivity. Qed.
