(* ===== verification/Containers.v ===== *)
(** Vectors and strings (dmem/vector.h, dmem/string.h, dmem/string.c,
    dmem/istring.h, dmem/istring.c): a block of memory of which the first cells
    are used, and strings kept in it with their terminator. *)

From Stdlib Require Import ZArith Lia.
From stdpp Require Import base option list numbers strings.
From S2P Require Import Prelude Text.
#[local] Open Scope nat_scope.
#[local] Open Scope adbus_scope.

(** ** Memory blocks

    A cell without contents was never written, or holds what is left of an
    earlier use (a debug build overwrites it).  Addresses are indices; what is
    outside of the block is a memory error. *)
Section Blocks.
Context {T : Type}.
Implicit Types (d l : list (option T)).

Definition realloc (n : nat) d : list (option T) := take n d ++ replicate (n - length d) None.
Definition slice (i n : nat) d : option (list (option T)) := if (i + n <=? length d)%nat then Some (take n (drop i d)) else None.
Definition blit (i : nat) l d : option (list (option T)) :=
  if (i + length l <=? length d)%nat then Some (take i d ++ l ++ drop (i + length l) d) else None.
Definition memmove (dest src n : nat) d : option (list (option T)) := l ← slice src n d; blit dest l d.

Lemma slice_some (i n : nat) d : (i + n <= length d)%nat -> slice i n d = Some (take n (drop i d)).
Proof. intros H. unfold slice. by rewrite (proj2 (Nat.leb_le _ _) H). Qed.
Lemma blit_some (i : nat) l d : (i + length l <= length d)%nat -> blit i l d = Some (take i d ++ l ++ drop (i + length l) d).
Proof. intros H. unfold blit. by rewrite (proj2 (Nat.leb_le _ _) H). Qed.
Lemma length_blit (i : nat) l d d' : blit i l d = Some d' -> length d' = length d.
Proof.
  unfold blit. destruct (Nat.leb_spec (i + length l) (length d)); [|done]. intros [= <-]. rewrite !length_app, length_take, length_drop. lia.
Qed.
Lemma length_resized (n : nat) d : length (realloc n d) = n.
Proof. unfold realloc. rewrite length_app, length_take, length_replicate. lia. Qed.
End Blocks.

(** ** Vectors *)
Record Vector (T : Type) := mkVec { v_data : list (option T); v_size : nat }.
Arguments mkVec {T} v_data v_size.
Arguments v_data {T} v.
Arguments v_size {T} v.
Definition v_alloc {T} (v : Vector T) : nat := length (v_data v).

Section Vectors.
Context {B : Build} {T : Type}.
Notation V := (Vector T).

Definition dv_init : V := mkVec [] 0.
Definition dv_shred : M V unit := modify (fun v => mkVec (take (v_size v) (v_data v) ++ replicate (v_alloc v - v_size v) None) (v_size v)).
Definition dv_clear : M V unit :=
  run* modify (fun v => mkVec (v_data v) 0) in
  dv_shred.
Definition dv_release : M V (list (option T)) :=
  let* v := get in
  run* put dv_init in
  ret (v_data v).
Definition dv_reserve (sz : nat) : M V unit :=
  let* v := get in
  if (sz <=? v_alloc v)%nat then ret tt else
  let alloc := ((v_alloc v + 16) * 3 / 2)%nat in
  let alloc := if (alloc <? sz)%nat then sz else alloc in
  run* put (mkVec (realloc alloc (v_data v)) (v_size v)) in
  dv_shred.
Definition dv_resize (sz : nat) : M V unit :=
  run* dv_reserve sz in
  modify (fun v => mkVec (v_data v) sz).

(** A change of the block. *)
Definition upd_data (f : list (option T) -> option (list (option T))) : M V unit :=
  let* v := get in
  let* d := of_option (f (v_data v)) in
  put (mkVec d (v_size v)).

(** The results are the index of the new cells, whose contents mean nothing. *)
Definition dv_push (num : nat) : M V nat :=
  let* v := get in
  let old := v_size v in
  run* dv_resize (old + num) in
  run* upd_data (blit old (replicate num None)) in
  ret old.
Definition dv_insert (index num : nat) : M V nat :=
  let* v := get in
  let old := v_size v in
  run* assert_ (index <=? old)%nat in
  if (index <=? old)%nat then
    run* dv_resize (old + num) in
    run* upd_data (memmove (index + num) index (old - index)) in
    run* upd_data (blit index (replicate num None)) in
    ret index
  else oob.
Definition dv_pop (num : nat) : M V unit :=
  let* v := get in
  run* assert_ (num <=? v_size v)%nat in
  if (num <=? v_size v)%nat then run* put (mkVec (v_data v) (v_size v - num)) in dv_shred else oob.
Definition dv_remove (index num : nat) : M V unit :=
  let* v := get in
  run* assert_ (index + num <=? v_size v)%nat in
  if (index + num <=? v_size v)%nat then
    run* upd_data (memmove index (index + num) (v_size v - (index + num))) in
    run* modify (fun v => mkVec (v_data v) (v_size v - num)) in
    dv_shred
  else oob.

(** [memcpy(&v->data[i], l, n)] *)
Definition dv_write (i : nat) (l : list T) : M V unit := upd_data (blit i (map Some l)).
(** [dv_a(v, i)] *)
Definition dv_a (i : nat) : M V T :=
  let* v := get in of_option (v_data v !! i ≫= id).

(** *** A vector is a list *)
Definition contents (v : V) : list (option T) := take (v_size v) (v_data v).
Definition vec_ok (v : V) : Prop := v_size v <= v_alloc v.

(** [op] returns [a] and leaves the contents [l]. *)
Definition leaves {A} (op : M V A) (v : V) (a : A) (l : list (option T)) : Prop := exists v', op v = Ret a v' /\ vec_ok v' /\ contents v' = l.

Lemma length_contents (v : V) : vec_ok v -> length (contents v) = v_size v.
Proof. intros H. unfold contents. rewrite length_take. unfold vec_ok, v_alloc in H. lia. Qed.

Lemma shred_run (v : V) : vec_ok v -> exists v', dv_shred v = Ret tt v' /\ vec_ok v' /\ contents v' = contents v /\ v_size v' = v_size v.
Proof.
  intros H. eexists. split; [reflexivity|]. unfold vec_ok, v_alloc, contents in *. cbn [v_data v_size].
  rewrite length_app, length_take, length_replicate. split; [lia|]. split; [|done]. rewrite take_app_le by (rewrite length_take; lia). by rewrite take_take, Nat.min_id.
Qed.

Lemma reserve_run (v : V) (sz : nat) : vec_ok v -> exists v', dv_reserve sz v = Ret tt v' /\ vec_ok v' /\ contents v' = contents v /\ v_size v' = v_size v /\ sz <= v_alloc v'.
Proof.
  intros H. unfold dv_reserve. rewrite (bind_Ret get _ v v v eq_refl). destruct (Nat.leb_spec sz (v_alloc v)); [by exists v|].
  cbv zeta. set (a0 := (v_alloc v + 16) * 3 / 2). set (a := if a0 <? sz then sz else a0). assert (Ha : sz <= a) by (unfold a; destruct (Nat.ltb_spec a0 sz); lia).
  set (v1 := mkVec (realloc a (v_data v)) (v_size v)). rewrite (bind_Ret (put v1) _ v v1 tt eq_refl).
  assert (H1 : vec_ok v1) by (unfold vec_ok, v_alloc, v1 in *; cbn; rewrite length_resized; lia).
  destruct (shred_run v1 H1) as (v2 & E & H2 & C2 & S2). exists v2. split; [done|]. split; [done|]. split; [|split; [done|]].
  - rewrite C2. unfold contents, v1, realloc, vec_ok, v_alloc in *. cbn [v_data v_size]. rewrite take_app_le by (rewrite length_take; lia). rewrite take_take. f_equal. lia.
  - injection E as <-. unfold v_alloc, v1. cbn [v_data v_size]. rewrite length_app, length_take, length_replicate. unfold v_alloc. cbn [v_data]. rewrite length_resized. unfold vec_ok, v_alloc, v1 in H1. cbn in H1. rewrite length_resized in H1. lia.
Qed.

Lemma resize_run (v : V) (sz : nat) : vec_ok v -> exists v', dv_resize sz v = Ret tt v' /\ vec_ok v' /\ v_size v' = sz /\ take (v_size v) (v_data v') = contents v.
Proof.
  intros H. destruct (reserve_run v sz H) as (v1 & E & H1 & C1 & S1 & A1). exists (mkVec (v_data v1) sz). unfold dv_resize. rewrite (bind_Ret _ _ _ _ _ E).
  split; [done|]. split; [done|]. split; [done|]. rewrite <- C1. unfold contents. by rewrite S1.
Qed.

Lemma upd_data_run (f : list (option T) -> option (list (option T))) (v : V) (d : list (option T)) : f (v_data v) = Some d -> upd_data f v = Ret tt (mkVec d (v_size v)).
Proof. intros E. unfold upd_data. rewrite (bind_Ret get _ v v v eq_refl), E. reflexivity. Qed.

(** Overwriting cells. *)
Lemma blit_run (i : nat) (l : list (option T)) (v : V) : vec_ok v -> i + length l <= v_size v ->
  leaves (upd_data (blit i l)) v tt (take i (contents v) ++ l ++ drop (i + length l) (contents v)).
Proof.
  intros H Hi. unfold vec_ok, v_alloc in H. pose proof (blit_some i l (v_data v) ltac:(lia)) as E. exists (mkVec (take i (v_data v) ++ l ++ drop (i + length l) (v_data v)) (v_size v)).
  rewrite (upd_data_run _ v _ E). split; [done|]. apply length_blit in E. unfold vec_ok, v_alloc, contents. cbn [v_data v_size]. split; [lia|].
  rewrite take_app, length_take, take_take. rewrite (Nat.min_l i) by lia. rewrite Nat.min_r by lia. rewrite take_app. rewrite (take_ge l) by lia.
  rewrite take_take, Nat.min_l by lia. do 2 f_equal. rewrite take_drop_commute. do 2 f_equal. lia.
Qed.

Lemma dv_push_run (v : V) (n : nat) : vec_ok v -> leaves (dv_push n) v (v_size v) (contents v ++ replicate n None).
Proof.
  intros H. unfold dv_push. destruct (resize_run v (v_size v + n) H) as (v1 & E1 & H1 & S1 & C1).
  destruct (blit_run (v_size v) (replicate n None) v1 H1) as (v2 & E2 & H2 & C2); [rewrite length_replicate; lia|].
  exists v2. unfold leaves. rewrite (bind_Ret get _ v v v eq_refl), (bind_Ret _ _ _ _ _ E1), (bind_Ret _ _ _ _ _ E2). split; [done|]. split; [done|].
  rewrite C2, length_replicate. unfold contents at 1. rewrite S1, take_take, Nat.min_l by lia. rewrite C1. f_equal. rewrite drop_ge; [by rewrite app_nil_r|].
  rewrite length_contents by done. lia.
Qed.

Lemma dv_write_run (v : V) (i : nat) (l : list T) : vec_ok v -> i + length l <= v_size v ->
  leaves (dv_write i l) v tt (take i (contents v) ++ map Some l ++ drop (i + length l) (contents v)).
Proof. intros H Hi. pose proof (blit_run i (map Some l) v H) as X. rewrite length_map in X. by apply X. Qed.

Lemma dv_insert_run (v : V) (i n : nat) : vec_ok v -> i <= v_size v -> leaves (dv_insert i n) v i (take i (contents v) ++ replicate n None ++ drop i (contents v)).
Proof.
  intros H Hi. unfold dv_insert, leaves. rewrite (bind_Ret get _ v v v eq_refl), (bind_Ret (assert_ _) _ v v tt) by (by apply assert_true, Nat.leb_le).
  rewrite (proj2 (Nat.leb_le _ _) Hi). destruct (resize_run v (v_size v + n) H) as (v1 & E1 & H1 & S1 & C1). rewrite (bind_Ret _ _ _ _ _ E1).
  assert (Hl : v_size v + n <= length (v_data v1)) by (unfold vec_ok, v_alloc in H1; lia).
  set (l := take (v_size v - i) (drop i (v_data v1))). assert (Ll : length l = v_size v - i) by (unfold l; rewrite length_take, length_drop; lia).
  assert (El : l = drop i (contents v)) by (unfold l; rewrite <- C1, take_drop_commute; do 2 f_equal; lia).
  destruct (blit_run (i + n) l v1 H1) as (v2 & E2 & H2 & C2); [lia|].
  assert (Em : upd_data (memmove (i + n) i (v_size v - i)) v1 = Ret tt v2).
  { rewrite <- E2. unfold upd_data, memmove. rewrite !(bind_Ret get _ v1 v1 v1 eq_refl), slice_some by lia. done. }
  rewrite (bind_Ret _ _ _ _ _ Em). assert (S2 : v_size v2 = v_size v + n).
  { rewrite <- (length_contents v2 H2), C2. rewrite !length_app, length_take, length_drop, !(length_contents v1 H1). lia. }
  destruct (blit_run i (replicate n None) v2 H2) as (v3 & E3 & H3 & C3); [rewrite length_replicate; lia|].
  exists v3. rewrite (bind_Ret _ _ _ _ _ E3). split; [done|]. split; [done|]. rewrite C3, C2, length_replicate.
  assert (Lc : length (contents v1) = v_size v + n) by (rewrite length_contents by done; lia).
  assert (Ct : take i (contents v1) = take i (contents v)).
  { rewrite <- C1. unfold contents. rewrite S1, !take_take. f_equal. lia. }
  rewrite take_app, length_take, Lc, take_take. replace (i - (i + n) `min` (v_size v + n)) with 0 by lia. rewrite take_0, app_nil_r, Nat.min_l by lia. rewrite Ct. do 2 f_equal.
  rewrite drop_app_ge by (rewrite length_take; lia). rewrite length_take, Lc. replace (i + n - (i + n) `min` (v_size v + n)) with 0 by lia. rewrite drop_0, El, (drop_ge (contents v1)).
  - by rewrite app_nil_r.
  - rewrite Lc. rewrite <- El, Ll. lia.
Qed.

Lemma dv_remove_run (v : V) (i n : nat) : vec_ok v -> i + n <= v_size v -> leaves (dv_remove i n) v tt (take i (contents v) ++ drop (i + n) (contents v)).
Proof.
  intros H Hi. unfold dv_remove, leaves. rewrite (bind_Ret get _ v v v eq_refl), (bind_Ret (assert_ _) _ v v tt) by (by apply assert_true, Nat.leb_le).
  rewrite (proj2 (Nat.leb_le _ _) Hi). assert (Hl : v_size v <= length (v_data v)) by exact H.
  set (l := take (v_size v - (i + n)) (drop (i + n) (v_data v))). assert (Ll : length l = v_size v - (i + n)) by (unfold l; rewrite length_take, length_drop; lia).
  assert (El : l = drop (i + n) (contents v)) by (unfold l, contents; rewrite take_drop_commute; do 2 f_equal; lia).
  destruct (blit_run i l v H) as (v1 & E1 & H1 & C1); [lia|].
  assert (Em : upd_data (memmove i (i + n) (v_size v - (i + n))) v = Ret tt v1).
  { rewrite <- E1. unfold upd_data, memmove. rewrite !(bind_Ret get _ v v v eq_refl), slice_some by lia. done. }
  rewrite (bind_Ret _ _ _ _ _ Em). assert (S1 : v_size v1 = v_size v).
  { rewrite <- (length_contents v1 H1), C1. rewrite !length_app, length_take, length_drop, !(length_contents v H). lia. }
  set (v2 := mkVec (v_data v1) (v_size v1 - n)). assert (H2 : vec_ok v2) by (unfold vec_ok, v_alloc in *; cbn; lia).
  rewrite (bind_Ret (modify (fun v => mkVec (v_data v) (v_size v - n))) _ v1 v2 tt eq_refl). destruct (shred_run v2 H2) as (v3 & E3 & H3 & C3 & _). exists v3. split; [done|]. split; [done|].
  rewrite C3. unfold contents at 1, v2. cbn [v_data v_size]. rewrite <- El. transitivity (take (v_size v1 - n) (contents v1)).
  - unfold contents. rewrite take_take. f_equal. lia.
  - rewrite C1, app_assoc, take_app_length'; [done|]. rewrite length_app, length_take, (length_contents v H). lia.
Qed.

Lemma dv_pop_run (v : V) (n : nat) : vec_ok v -> n <= v_size v -> leaves (dv_pop n) v tt (take (v_size v - n) (contents v)).
Proof.
  intros H Hn. unfold dv_pop, leaves. rewrite (bind_Ret get _ v v v eq_refl), (bind_Ret (assert_ _) _ v v tt) by (by apply assert_true, Nat.leb_le).
  rewrite (proj2 (Nat.leb_le _ _) Hn). set (v1 := mkVec (v_data v) (v_size v - n)). assert (H1 : vec_ok v1) by (unfold vec_ok, v_alloc in *; cbn; lia).
  rewrite (bind_Ret (put v1) _ v v1 tt eq_refl). destruct (shred_run v1 H1) as (v2 & E2 & H2 & C2 & _). exists v2. split; [done|]. split; [done|]. rewrite C2.
  unfold contents, v1. cbn [v_data v_size]. rewrite take_take. f_equal. lia.
Qed.

Lemma dv_clear_run (v : V) : leaves dv_clear v tt [].
Proof.
  unfold dv_clear, leaves. set (v1 := mkVec (v_data v) 0). rewrite (bind_Ret (modify (fun v => mkVec (v_data v) 0)) _ v v1 tt eq_refl). assert (H1 : vec_ok v1) by (unfold vec_ok; cbn; lia).
  destruct (shred_run v1 H1) as (v2 & E2 & H2 & C2 & _). by exists v2.
Qed.

Lemma dv_a_run (v : V) (i : nat) (a : T) : contents v !! i = Some (Some a) -> dv_a i v = Ret a v.
Proof.
  intros E. unfold dv_a. rewrite (bind_Ret get _ v v v eq_refl). unfold contents in E. apply lookup_take_Some in E as [E _]. by rewrite E.
Qed.
End Vectors.

(** ** Strings *)
Definition d_String : Type := Vector Z.

Section Strings.
Context {B : Build}.

Definition ds_size (v : d_String) : nat := if 0 <? v_size v then v_size v - 1 else 0.
(** The characters up to the size; the address of a string of the program
    when there are none. *)
Definition ds_cstr (v : d_String) : M d_String (list Z) := fun w =>
  if 0 <? v_size v then match mapM id (take (v_size v - 1) (v_data v)) with Some l => Ret l w | None => Oob end else Ret [] w.

(** [dv_a(s, dv_size(s) - 1) = '\0'] *)
Definition terminate : M d_String unit :=
  let* v := get in
  if 0 <? v_size v then dv_write (v_size v - 1) [0%Z] else oob.

(** The [n] characters at [r]; [r] is not part of the string. *)
Definition chars (r : list Z) (n : nat) : M d_String (list Z) := if n <=? length r then ret (take n r) else oob.

Definition ds_set_n (r : list Z) (n : nat) : M d_String unit :=
  run* dv_clear in
  let* dest := dv_push (n + 1) in
  let* l := chars r n in
  run* dv_write dest l in
  terminate.

(** Where an appended character goes: over the terminator, if there is one. *)
Definition cat_dest (n : nat) : M d_String nat :=
  let* v := get in
  if v_size v =? 0 then dv_push (n + 1) else let* b := dv_push n in ret (b - 1).
Definition ds_cat_n (r : list Z) (n : nat) : M d_String unit :=
  let* dest := cat_dest n in
  let* l := chars r n in
  run* dv_write dest l in
  terminate.
Definition ds_cat_char (ch : Z) : M d_String unit :=
  let* dest := cat_dest 1 in
  dv_write dest [(ch mod 256)%Z; 0%Z].

Definition ds_insert_n (index : nat) (r : list Z) (n : nat) : M d_String unit :=
  let* v := get in
  run* assert_ (index <=? ds_size v) in
  if index =? ds_size v then ds_cat_n r n else
  let* dest := dv_insert index n in
  let* l := chars r n in
  dv_write dest l.
Definition ds_insert_char (index : nat) (ch : Z) : M d_String unit :=
  let* v := get in
  run* assert_ (index <=? ds_size v) in
  if index =? ds_size v then ds_cat_char ch else
  let* dest := dv_insert index 1 in
  dv_write dest [(ch mod 256)%Z].

Definition ds_remove (index n : nat) : M d_String unit :=
  let* v := get in
  run* assert_ (n <=? ds_size v) in
  dv_remove index n.
Definition ds_remove_end (n : nat) : M d_String unit :=
  let* v := get in
  run* assert_ (n <=? ds_size v) in
  if 0 <? n then run* dv_pop n in terminate else ret tt.

(** [vsnprintf] of a format that gives [text] into [size] bytes at [dest]. *)
Definition vsnprintf (dest size : nat) (text : list Z) : M d_String nat :=
  run* (if 0 <? size then dv_write dest (take (size - 1) text ++ [0%Z]) else ret tt) in
  ret (length text).

(** Formatted text; -1 when the index is too large. *)
Definition ds_insert_vf (index : nat) (text : list Z) : M d_String Z :=
  let* v := get in
  if ds_size v <? index then run* assert_ false in ret (-1)%Z else
  run* (if v_size v =? 0 then run* dv_push 1 in dv_write 0 [0%Z] else ret tt) in
  let* after := dv_a index in
  let* dest := dv_insert index 128 in
  let* nchars := vsnprintf dest (128 + 1) text in
  let* nchars := (if 128 <? nchars then
                    let* d := dv_insert (index + 128) (nchars - 128) in
                    vsnprintf (d - 128) (nchars + 1) text
                  else
                    run* dv_remove (index + nchars) (index + 128 - (index + nchars)) in
                    ret nchars) in
  run* dv_write (index + nchars) [after] in
  ret (Z.of_nat nchars).
Definition ds_cat_vf (text : list Z) : M d_String Z := let* v := get in ds_insert_vf (ds_size v) text.
Definition ds_set_vf (text : list Z) : M d_String Z := run* dv_clear in ds_insert_vf 0 text.

(** [memcmp]: the difference of the first characters that differ. *)
Fixpoint memcmp (a b : list Z) : Z :=
  match a, b with
  | x :: a, y :: b => if (x =? y)%Z then memcmp a b else (x - y)%Z
  | _, _ => 0%Z
  end.
(** The conversion of the difference of sizes to an [int]. *)
Definition int32 (z : Z) : Z := ((z + 2 ^ 31) mod 2 ^ 32 - 2 ^ 31)%Z.
Definition ds_cmp_n (v : d_String) (r : list Z) (n : nat) : M d_String Z :=
  if negb (ds_size v =? n) then ret (int32 (Z.of_nat (ds_size v) - Z.of_nat n))
  else let* s := ds_cstr v in ret (memcmp s (take n r)).
Definition ds_begins_with_n (v : d_String) (r : list Z) (n : nat) : M d_String bool :=
  if ds_size v <? n then ret false
  else let* s := ds_cstr v in ret (memcmp (take n s) (take n r) =? 0)%Z.
Definition ds_ends_with_n (v : d_String) (r : list Z) (n : nat) : M d_String bool :=
  if ds_size v <? n then ret false
  else let* s := ds_cstr v in ret (memcmp (drop (ds_size v - n) s) (take n r) =? 0)%Z.

(** *** A string is its characters *)
Definition holds (v : d_String) (s : list Z) : Prop :=
  vec_ok v /\ (v_size v = 0 /\ s = [] \/ contents v = map Some s ++ [Some 0%Z]).

(** [op] returns [a] and leaves the string [s]. *)
Definition writes {A} (op : M d_String A) (v : d_String) (a : A) (s : list Z) : Prop := exists v', op v = Ret a v' /\ holds v' s.

Lemma holds_size (v : d_String) (s : list Z) : holds v s -> ds_size v = length s /\ (v_size v = 0 /\ s = [] \/ v_size v = length s + 1).
Proof.
  intros [H [[E ->]|E]]; unfold ds_size; [rewrite E; split; [done|by left]|].
  apply (f_equal length) in E. rewrite length_contents, length_app, length_map in E by done. cbn [length] in E. rewrite E.
  rewrite (proj2 (Nat.ltb_lt _ _)) by lia. split; [lia|by right].
Qed.

Lemma cstr_run (v w : d_String) (s : list Z) : holds v s -> ds_cstr v w = Ret s w.
Proof.
  intros Hs. destruct (holds_size v s Hs) as [_ Hl]. destruct Hs as [H [[E ->]|E]]; unfold ds_cstr; [by rewrite E|].
  destruct Hl as [[E0 ->]|El]; [by rewrite E0|]. rewrite (proj2 (Nat.ltb_lt _ _)) by lia.
  assert (Et : take (v_size v - 1) (v_data v) = map Some s).
  { unfold contents in E. apply (f_equal (take (length s))) in E. rewrite take_take in E. rewrite take_app_length' in E by (by rewrite length_map).
    rewrite <- E. f_equal. lia. }
  rewrite Et. replace (mapM id (map Some s)) with (Some s); [done|]. clear. induction s as [|c s IH]; [done|]. cbn. by rewrite <- IH.
Qed.

(** Writing over some of the cells. *)
Lemma write_at (v : d_String) (p l r : list (option Z)) (new : list Z) : vec_ok v -> contents v = p ++ l ++ r -> length l = length new ->
  leaves (dv_write (length p) new) v tt (p ++ map Some new ++ r).
Proof.
  intros H E El. assert (Hs : length p + length new <= v_size v) by (rewrite <- (length_contents v H), E, !length_app; lia).
  destruct (dv_write_run v (length p) new H Hs) as (v' & E1 & H1 & C1). exists v'. split; [done|]. split; [done|]. rewrite C1, E.
  rewrite take_app_length, (app_assoc p l r), drop_app_length'; [done|]. rewrite length_app. lia.
Qed.

Lemma terminate_run (v : d_String) (s : list Z) (x : option Z) : vec_ok v -> contents v = map Some s ++ [x] -> writes terminate v tt s.
Proof.
  intros H E. assert (Hs : v_size v = length s + 1) by (rewrite <- (length_contents v H), E, length_app, length_map; done).
  destruct (write_at v (map Some s) [x] [] [0%Z] H) as (v' & E1 & H1 & C1); [by rewrite app_nil_r|done|].
  exists v'. unfold terminate. rewrite (bind_Ret get _ v v v eq_refl), (proj2 (Nat.ltb_lt _ _)) by lia. replace (v_size v - 1) with (length (map Some s)) by (rewrite length_map; lia).
  split; [done|]. split; [done|]. by right.
Qed.

Lemma chars_run (r : list Z) (v : d_String) : chars r (length r) v = Ret r v.
Proof. unfold chars. rewrite (proj2 (Nat.leb_le _ _)) by lia. by rewrite take_ge. Qed.

(** The cells that an append gives: [n] and the terminator. *)
Lemma cat_dest_run (v : d_String) (s : list Z) (n : nat) : holds v s -> exists v' l, cat_dest n v = Ret (length s) v' /\ vec_ok v' /\
  contents v' = map Some s ++ l /\ length l = n + 1.
Proof.
  intros Hs. destruct (holds_size v s Hs) as [_ Hl]. destruct Hs as [H Hc]. unfold cat_dest.
  destruct Hl as [[E ->]|E].
  - destruct (dv_push_run v (n + 1) H) as (v' & E1 & H1 & C1). exists v', (replicate (n + 1) None). rewrite (bind_Ret get _ v v v eq_refl), E. cbn [Nat.eqb].
    rewrite E in E1. split; [done|]. split; [done|]. rewrite C1. unfold contents. rewrite E, length_replicate. done.
  - destruct Hc as [[E0 _]|Ec]; [lia|]. destruct (dv_push_run v n H) as (v' & E1 & H1 & C1). exists v', (Some 0%Z :: replicate n None).
    rewrite (bind_Ret get _ v v v eq_refl), (proj2 (Nat.eqb_neq _ _)) by lia. rewrite (bind_Ret _ _ _ _ _ E1). split; [unfold ret; f_equal; lia|]. split; [done|].
    rewrite C1, Ec, <- app_assoc. cbn [length app]. rewrite length_replicate. split; [done|lia].
Qed.

Lemma cat_run (v : d_String) (s r : list Z) : holds v s -> writes (ds_cat_n r (length r)) v tt (s ++ r).
Proof.
  intros Hs. destruct (cat_dest_run v s (length r) Hs) as (v1 & l & E1 & H1 & C1 & L1). unfold ds_cat_n, writes.
  rewrite (bind_Ret _ _ _ _ _ E1), (bind_Ret _ _ _ _ _ (chars_run r v1)). destruct (exists_last (l := l)) as (l0 & x & ->); [by intros ->; cbn in L1; lia|].
  rewrite length_app in L1. cbn [length] in L1. assert (L0 : length l0 = length r) by lia.
  destruct (write_at v1 (map Some s) l0 [x] r H1 C1 L0) as (v2 & E2 & H2 & C2). rewrite length_map in E2. rewrite (bind_Ret _ _ _ _ _ E2).
  apply (terminate_run v2 (s ++ r) x H2). by rewrite C2, map_app, <- app_assoc.
Qed.

Lemma set_run (v : d_String) (r : list Z) : writes (ds_set_n r (length r)) v tt r.
Proof.
  unfold ds_set_n, writes. destruct (dv_clear_run v) as (v0 & E0 & H0 & C0). rewrite (bind_Ret _ _ _ _ _ E0).
  destruct (dv_push_run v0 (length r + 1) H0) as (v1 & E1 & H1 & C1). rewrite (bind_Ret _ _ _ _ _ E1), (bind_Ret _ _ _ _ _ (chars_run r v1)).
  assert (S0 : v_size v0 = 0) by (rewrite <- (length_contents v0 H0), C0; done). rewrite S0. rewrite C0, replicate_add in C1.
  destruct (write_at v1 [] (replicate (length r) None) [None] r H1 C1) as (v2 & E2 & H2 & C2); [by rewrite length_replicate|]. cbn [length] in E2.
  rewrite (bind_Ret _ _ _ _ _ E2). by apply (terminate_run v2 r None H2).
Qed.

Lemma cat_char_run (v : d_String) (s : list Z) (ch : Z) : holds v s -> writes (ds_cat_char ch) v tt (s ++ [(ch mod 256)%Z]).
Proof.
  intros Hs. destruct (cat_dest_run v s 1 Hs) as (v1 & l & E1 & H1 & C1 & L1). unfold ds_cat_char, writes. rewrite (bind_Ret _ _ _ _ _ E1).
  destruct (write_at v1 (map Some s) l [] [(ch mod 256)%Z; 0%Z] H1) as (v2 & E2 & H2 & C2); [by rewrite app_nil_r|done|]. rewrite length_map in E2.
  exists v2. split; [done|]. split; [done|]. right. rewrite C2, map_app, <- app_assoc. done.
Qed.

(** Room inside of a string. *)
Lemma insert_room (v : d_String) (s : list Z) (i n : nat) : holds v s -> i < length s -> exists v', dv_insert i n v = Ret i v' /\ vec_ok v' /\
  contents v' = map Some (take i s) ++ replicate n None ++ map Some (drop i s) ++ [Some 0%Z].
Proof.
  intros Hs Hi. destruct (holds_size v s Hs) as [_ Hl]. destruct Hs as [H [[_ ->]|Ec]]; [cbn in Hi; lia|]. destruct Hl as [[_ ->]|Hl]; [cbn in Hi; lia|].
  destruct (dv_insert_run v i n H) as (v' & E1 & H1 & C1); [lia|]. exists v'. split; [done|]. split; [done|]. rewrite C1, Ec.
  rewrite take_app_le, drop_app_le by (rewrite length_map; lia). by rewrite <- fmap_take, <- fmap_drop.
Qed.

Lemma ds_insert_run (v : d_String) (s r : list Z) (i : nat) : holds v s -> i <= length s -> writes (ds_insert_n i r (length r)) v tt (take i s ++ r ++ drop i s).
Proof.
  intros Hs Hi. destruct (holds_size v s Hs) as [Hz _]. unfold ds_insert_n, writes. rewrite (bind_Ret get _ v v v eq_refl), Hz.
  rewrite (bind_Ret (assert_ _) _ v v tt) by (by apply assert_true, Nat.leb_le). destruct (Nat.eqb_spec i (length s)) as [->|Hne].
  - rewrite take_ge, drop_ge, app_nil_r by done. by apply cat_run.
  - destruct (insert_room v s i (length r) Hs ltac:(lia)) as (v1 & E1 & H1 & C1). rewrite (bind_Ret _ _ _ _ _ E1), (bind_Ret _ _ _ _ _ (chars_run r v1)).
    destruct (write_at v1 (map Some (take i s)) (replicate (length r) None) (map Some (drop i s) ++ [Some 0%Z]) r H1 C1) as (v2 & E2 & H2 & C2); [by rewrite length_replicate|].
    rewrite length_map, length_take, Nat.min_l in E2 by lia. exists v2. split; [done|]. split; [done|]. right. by rewrite C2, !map_app, <- !app_assoc.
Qed.

Lemma insert_char_run (v : d_String) (s : list Z) (i : nat) (ch : Z) : holds v s -> i <= length s -> writes (ds_insert_char i ch) v tt (take i s ++ (ch mod 256)%Z :: drop i s).
Proof.
  intros Hs Hi. destruct (holds_size v s Hs) as [Hz _]. unfold ds_insert_char, writes. rewrite (bind_Ret get _ v v v eq_refl), Hz.
  rewrite (bind_Ret (assert_ _) _ v v tt) by (by apply assert_true, Nat.leb_le). destruct (Nat.eqb_spec i (length s)) as [->|Hne].
  - rewrite take_ge, drop_ge by done. by apply cat_char_run.
  - destruct (insert_room v s i 1 Hs ltac:(lia)) as (v1 & E1 & H1 & C1). rewrite (bind_Ret _ _ _ _ _ E1).
    destruct (write_at v1 (map Some (take i s)) [None] (map Some (drop i s) ++ [Some 0%Z]) [(ch mod 256)%Z] H1 C1) as (v2 & E2 & H2 & C2); [done|].
    rewrite length_map, length_take, Nat.min_l in E2 by lia. exists v2. split; [done|]. split; [done|]. right. by rewrite C2, map_app, <- !app_assoc.
Qed.

Lemma remove_run (v : d_String) (s : list Z) (i n : nat) : holds v s -> i + n <= length s -> writes (ds_remove i n) v tt (take i s ++ drop (i + n) s).
Proof.
  intros Hs Hi. destruct (holds_size v s Hs) as [Hz Hl]. unfold ds_remove, writes. rewrite (bind_Ret get _ v v v eq_refl), Hz.
  rewrite (bind_Ret (assert_ _) _ v v tt) by (apply assert_true, Nat.leb_le; lia). destruct Hs as [H Hc].
  destruct (dv_remove_run v i n H) as (v' & E1 & H1 & C1); [destruct Hl as [[-> ->]|Hl]; cbn in *; lia|]. exists v'. split; [done|]. split; [done|].
  destruct Hc as [[Es ->]|Ec].
  - left. rewrite take_nil, drop_nil. split; [|done]. rewrite <- (length_contents v' H1), C1. unfold contents. rewrite Es. by rewrite take_0, take_nil, drop_nil.
  - right. rewrite C1, Ec, take_app_le, drop_app_le by (rewrite length_map; lia). by rewrite map_app, <- app_assoc, <- fmap_take, <- fmap_drop.
Qed.

Lemma remove_end_run (v : d_String) (s : list Z) (n : nat) : holds v s -> n <= length s -> writes (ds_remove_end n) v tt (take (length s - n) s).
Proof.
  intros Hs Hn. destruct (holds_size v s Hs) as [Hz Hl]. unfold ds_remove_end, writes. rewrite (bind_Ret get _ v v v eq_refl), Hz.
  rewrite (bind_Ret (assert_ _) _ v v tt) by (by apply assert_true, Nat.leb_le). destruct (Nat.ltb_spec 0 n) as [H0|H0].
  - destruct Hl as [[_ ->]|Hl]; [cbn in Hn; lia|]. destruct Hs as [H [[_ ->]|Ec]]; [cbn in Hn; lia|].
    destruct (dv_pop_run v n H) as (v1 & E1 & H1 & C1); [lia|]. rewrite (bind_Ret _ _ _ _ _ E1).
    assert (Hx : exists x, contents v1 = map Some (take (length s - n) s) ++ [x]).
    { rewrite C1, Ec, Hl. replace (length s + 1 - n) with (length s - n + 1) by lia. rewrite take_app_le by (rewrite length_map; lia).
      destruct (lookup_lt_is_Some_2 s (length s - n)) as [x Hx]; [lia|]. exists (Some x). rewrite <- fmap_take. rewrite Nat.add_1_r, (take_S_r s _ x Hx). by rewrite fmap_app. }
    destruct Hx as [x Ex]. by apply (terminate_run v1 _ x H1).
  - exists v. split; [done|]. replace n with 0 by lia. by rewrite Nat.sub_0_r, take_ge.
Qed.

(** *** Formatted text *)
Lemma insert_at (v : d_String) (p r : list (option Z)) (n : nat) : vec_ok v -> contents v = p ++ r ->
  leaves (dv_insert (length p) n) v (length p) (p ++ replicate n None ++ r).
Proof.
  intros H E. destruct (dv_insert_run v (length p) n H) as (v' & E1 & H1 & C1); [rewrite <- (length_contents v H), E, length_app; lia|].
  exists v'. split; [done|]. split; [done|]. by rewrite C1, E, take_app_length, drop_app_length.
Qed.

Lemma remove_at (v : d_String) (p m r : list (option Z)) : vec_ok v -> contents v = p ++ m ++ r -> leaves (dv_remove (length p) (length m)) v tt (p ++ r).
Proof.
  intros H E. destruct (dv_remove_run v (length p) (length m) H) as (v' & E1 & H1 & C1); [rewrite <- (length_contents v H), E, !length_app; lia|].
  exists v'. split; [done|]. split; [done|]. rewrite C1, E, take_app_length, (app_assoc p m r), drop_app_length' by (by rewrite length_app). done.
Qed.

(** What [vsnprintf] leaves of [l] cells and the terminator. *)
Lemma vsnprintf_run (v : d_String) (p l r : list (option Z)) (text : list Z) : vec_ok v -> contents v = p ++ l ++ r -> length l = S (length text) ->
  forall size, length text < size -> leaves (vsnprintf (length p) size text) v (length text) (p ++ map Some text ++ Some 0%Z :: r).
Proof.
  intros H E El size Hs. destruct (write_at v p l r (text ++ [0%Z]) H E) as (v' & E1 & H1 & C1); [rewrite length_app; cbn; lia|].
  exists v'. unfold vsnprintf. rewrite (proj2 (Nat.ltb_lt _ _)) by lia. rewrite take_ge by lia. rewrite (bind_Ret _ _ _ _ _ E1). split; [done|]. split; [done|].
  by rewrite C1, map_app, <- app_assoc.
Qed.

(** With [d] for the terminator or the character that it replaces. *)
Lemma formatted_run (v : d_String) (p t : list (option Z)) (a : Z) (text : list Z) : vec_ok v -> contents v = p ++ Some a :: t ->
  exists v' x, (let* dest := dv_insert (length p) 128 in
    let* nchars := vsnprintf dest (128 + 1) text in
    if 128 <? nchars then let* d := dv_insert (length p + 128) (nchars - 128) in vsnprintf (d - 128) (nchars + 1) text
    else run* dv_remove (length p + nchars) (length p + 128 - (length p + nchars)) in ret nchars) v = Ret (length text) v' /\
    vec_ok v' /\ contents v' = p ++ map Some text ++ x :: t.
Proof.
  intros H E. destruct (insert_at v p (Some a :: t) 128 H E) as (v1 & E1 & H1 & C1). rewrite (bind_Ret _ _ _ _ _ E1). destruct (Nat.ltb_spec 128 (length text)) as [Hn|Hn].
  - destruct (write_at v1 p (replicate 128 None ++ [Some a]) t (take 128 text ++ [0%Z]) H1) as (v2 & E2 & H2 & C2).
    { by rewrite C1, <- app_assoc. } { rewrite !length_app, length_replicate, length_take. cbn [length]. lia. }
    rewrite (bind_Ret (vsnprintf _ _ _) _ v1 v2 (length text)) by (unfold vsnprintf; cbn [Nat.ltb Nat.leb Nat.add Nat.sub]; by rewrite (bind_Ret _ _ _ _ _ E2)).
    rewrite (proj2 (Nat.ltb_lt _ _)) by lia. set (q := p ++ map Some (take 128 text)).
    assert (Lq : length q = length p + 128) by (unfold q; rewrite length_app, length_map, length_take; lia).
    destruct (insert_at v2 q (Some 0%Z :: t) (length text - 128) H2) as (v3 & E3 & H3 & C3).
    { rewrite C2, map_app. unfold q. by rewrite <- !app_assoc. }
    rewrite Lq in E3. rewrite (bind_Ret _ _ _ _ _ E3). replace (length p + 128 - 128) with (length p) by lia.
    destruct (vsnprintf_run v3 p (map Some (take 128 text) ++ replicate (length text - 128) None ++ [Some 0%Z]) t text H3) with (size := length text + 1) as (v4 & E4 & H4 & C4).
    { rewrite C3. unfold q. by rewrite <- !app_assoc. } { rewrite !length_app, length_map, length_take, length_replicate. cbn [length]. lia. } { lia. }
    by exists v4, (Some 0%Z).
  - set (l := replicate 128 None ++ [Some a]). destruct (vsnprintf_run v1 p (take (S (length text)) l) (drop (S (length text)) l ++ t) text H1) with (size := 129) as (v2 & E2 & H2 & C2).
    { rewrite C1. rewrite (app_assoc (take _ l)), take_drop. unfold l. by rewrite <- app_assoc. }
    { rewrite length_take. unfold l. rewrite length_app, length_replicate. cbn [length]. lia. } { lia. }
    change (128 + 1) with 129. rewrite (bind_Ret _ _ _ _ _ E2). rewrite (proj2 (Nat.ltb_ge _ _)) by lia.
    assert (Hm : exists m x, Some 0%Z :: drop (S (length text)) l = m ++ [x] /\ length m = 128 - length text).
    { destruct (exists_last (l := Some 0%Z :: drop (S (length text)) l)) as (m & x & Em); [done|]. exists m, x. split; [done|].
      apply (f_equal length) in Em. rewrite length_app in Em. cbn [length] in Em. rewrite length_drop in Em. unfold l in Em. rewrite length_app, length_replicate in Em. cbn [length] in Em. lia. }
    destruct Hm as (m & x & Em & Lm). destruct (remove_at v2 (p ++ map Some text) m (x :: t) H2) as (v3 & E3 & H3 & C3).
    { rewrite C2. rewrite app_comm_cons, Em. by rewrite <- !app_assoc. }
    rewrite length_app, length_map, Lm in E3. replace (length p + 128 - (length p + length text)) with (128 - length text) by lia. rewrite (bind_Ret _ _ _ _ _ E3).
    exists v3, x. split; [done|]. split; [done|]. by rewrite C3, <- app_assoc.
Qed.

Lemma insert_vf_run (v : d_String) (s text : list Z) (i : nat) : holds v s -> i <= length s ->
  writes (ds_insert_vf i text) v (Z.of_nat (length text)) (take i s ++ text ++ drop i s).
Proof.
  intros Hs Hi. destruct (holds_size v s Hs) as [Hz Hl]. unfold ds_insert_vf, writes. rewrite (bind_Ret get _ v v v eq_refl), Hz, (proj2 (Nat.ltb_ge _ _)) by lia.
  assert (H0 : exists v0, (if v_size v =? 0 then run* dv_push 1 in dv_write 0 [0%Z] else ret tt) v = Ret tt v0 /\ vec_ok v0 /\ contents v0 = map Some s ++ [Some 0%Z]).
  { destruct Hs as [H Hc]. destruct Hl as [[E ->]|E].
    - rewrite E. cbn [Nat.eqb]. destruct (dv_push_run v 1 H) as (v1 & E1 & H1 & C1). rewrite (bind_Ret _ _ _ _ _ E1).
      destruct (write_at v1 [] [None] [] [0%Z] H1) as (v2 & E2 & H2 & C2); [rewrite C1; unfold contents; by rewrite E|done|]. by exists v2.
    - rewrite (proj2 (Nat.eqb_neq _ _)) by lia. exists v. split; [done|]. destruct Hc as [[? _]|Hc]; [lia|done]. }
  destruct H0 as (v0 & E0 & H0 & C0). rewrite (bind_Ret _ _ _ _ _ E0). set (p := map Some (take i s)).
  assert (Lp : length p = i) by (unfold p; rewrite length_map, length_take; lia).
  assert (Ct : exists a t, contents v0 = p ++ Some a :: t /\ Some a :: t = map Some (drop i s) ++ [Some 0%Z]).
  { assert (Ec : contents v0 = p ++ map Some (drop i s) ++ [Some 0%Z]) by (rewrite C0, app_assoc; unfold p; rewrite <- map_app; by rewrite take_drop).
    destruct (drop i s) as [|a r]; [by exists 0%Z, []|by exists a, (map Some r ++ [Some 0%Z])]. }
  destruct Ct as (a & t & Ca & Et). rewrite (bind_Ret (dv_a i) _ v0 v0 a) by (apply dv_a_run; by rewrite Ca, <- Lp, list_lookup_middle).
  destruct (formatted_run v0 p t a text H0 Ca) as (v1 & x & E1 & H1 & C1). rewrite Lp in E1.
  match type of E1 with ?m v0 = _ => pose (op := m) end.
  destruct (write_at v1 (p ++ map Some text) [x] t [a] H1) as (v2 & E2 & H2 & C2); [by rewrite C1, <- app_assoc|done|]. rewrite length_app, Lp, length_map in E2.
  exists v2. split; [|split; [done|]].
  - transitivity (bind op (fun nchars => run* dv_write (i + nchars) [a] in ret (Z.of_nat nchars)) v0).
    + unfold op. symmetry. rewrite bind_assoc. unfold bind at 1. symmetry. unfold bind at 1. destruct (dv_insert i 128 v0); try done. symmetry. apply bind_assoc.
    + rewrite (bind_Ret op _ _ _ _ E1). by rewrite (bind_Ret _ _ _ _ _ E2).
  - right. rewrite C2. cbn [map app]. rewrite Et, !map_app, <- !app_assoc. done.
Qed.

(** *** Comparing *)
Lemma memcmp_eq (a b : list Z) : length a = length b -> (memcmp a b =? 0)%Z = bool_decide (a = b).
Proof.
  revert b. induction a as [|x a IH]; intros [|y b] H; try done. cbn [memcmp]. destruct (Z.eqb_spec x y) as [->|Hne].
  - rewrite IH by (by injection H). apply bool_decide_ext. split; [by intros ->|by intros [= ->]].
  - rewrite (proj2 (Z.eqb_neq _ _)) by lia. symmetry. apply bool_decide_eq_false. congruence.
Qed.

Lemma begins_run (v w : d_String) (s r : list Z) : holds v s -> ds_begins_with_n v r (length r) w = Ret (bool_decide (r `prefix_of` s)) w.
Proof.
  intros Hs. unfold ds_begins_with_n. rewrite (proj1 (holds_size v s Hs)). destruct (Nat.ltb_spec (length s) (length r)) as [Hl|Hl].
  - unfold ret. f_equal. symmetry. apply bool_decide_eq_false. intros H%prefix_length. lia.
  - rewrite (bind_Ret _ _ _ _ _ (cstr_run v w s Hs)). unfold ret. f_equal. rewrite (take_ge r) by lia. rewrite memcmp_eq by (rewrite length_take; lia).
    apply bool_decide_ext. split; [intros <-; by exists (drop (length r) s); rewrite take_drop|]. intros [k ->]. by apply take_app_length.
Qed.

Lemma ends_run (v w : d_String) (s r : list Z) : holds v s -> ds_ends_with_n v r (length r) w = Ret (bool_decide (r `suffix_of` s)) w.
Proof.
  intros Hs. unfold ds_ends_with_n. rewrite (proj1 (holds_size v s Hs)). destruct (Nat.ltb_spec (length s) (length r)) as [Hl|Hl].
  - unfold ret. f_equal. symmetry. apply bool_decide_eq_false. intros H%suffix_length. lia.
  - rewrite (bind_Ret _ _ _ _ _ (cstr_run v w s Hs)). unfold ret. f_equal. rewrite (take_ge r) by lia. rewrite memcmp_eq by (rewrite length_drop; lia).
    apply bool_decide_ext. split; [intros <-; by exists (take (length s - length r) s); rewrite take_drop|]. intros [k ->]. rewrite length_app. by rewrite Nat.add_sub, drop_app_length.
Qed.

Lemma int32_diff (a b : nat) : (Z.of_nat a < 2 ^ 31)%Z -> (Z.of_nat b < 2 ^ 31)%Z -> int32 (Z.of_nat a - Z.of_nat b) = (Z.of_nat a - Z.of_nat b)%Z.
Proof. intros Ha Hb. unfold int32. rewrite Z.mod_small; lia. Qed.

(** Equal strings give 0. *)
Lemma cmp_run (v w : d_String) (s r : list Z) : holds v s -> (Z.of_nat (length s) < 2 ^ 31)%Z -> (Z.of_nat (length r) < 2 ^ 31)%Z ->
  exists n, ds_cmp_n v r (length r) w = Ret n w /\ (n = 0%Z <-> s = r).
Proof.
  intros Hs Hb Hr. unfold ds_cmp_n. rewrite (proj1 (holds_size v s Hs)). destruct (Nat.eqb_spec (length s) (length r)) as [El|El].
  - eexists. cbn [negb]. rewrite (bind_Ret _ _ _ _ _ (cstr_run v w s Hs)). split; [done|]. rewrite (take_ge r) by lia.
    rewrite <- Z.eqb_eq, memcmp_eq by done. apply bool_decide_eq_true.
  - eexists. split; [done|]. rewrite int32_diff by done. split; [lia|]. by intros ->.
Qed.

(** C23: strings of the library.  A string made by these operations is the list
    of its characters followed by a terminator: setting, appending, inserting
    and removing characters and inserting formatted text of any length do to
    the list what they say, whatever the block of memory holds, and never
    leave the block; comparisons compare the lists. *)
Theorem string_refined (v : d_String) (s : list Z) : holds v s ->
  (ds_size v = length s /\ forall w, ds_cstr v w = Ret s w) /\
  (forall r, writes (ds_set_n r (length r)) v tt r /\ writes (ds_cat_n r (length r)) v tt (s ++ r)) /\
  (forall ch, writes (ds_cat_char ch) v tt (s ++ [(ch mod 256)%Z])) /\
  (forall i, i <= length s ->
     (forall r, writes (ds_insert_n i r (length r)) v tt (take i s ++ r ++ drop i s)) /\
     (forall ch, writes (ds_insert_char i ch) v tt (take i s ++ (ch mod 256)%Z :: drop i s)) /\
     (forall text, writes (ds_insert_vf i text) v (Z.of_nat (length text)) (take i s ++ text ++ drop i s)) /\
     (forall n, i + n <= length s -> writes (ds_remove i n) v tt (take i s ++ drop (i + n) s)) /\
     writes (ds_remove_end i) v tt (take (length s - i) s)) /\
  (forall r w, ds_begins_with_n v r (length r) w = Ret (bool_decide (r `prefix_of` s)) w /\
     ds_ends_with_n v r (length r) w = Ret (bool_decide (r `suffix_of` s)) w /\
     ((Z.of_nat (length s) < 2 ^ 31)%Z -> (Z.of_nat (length r) < 2 ^ 31)%Z -> exists n, ds_cmp_n v r (length r) w = Ret n w /\ (n = 0%Z <-> s = r))).
Proof.
  intros Hs. split; [split; [exact (proj1 (holds_size v s Hs))|]; intros w; by apply cstr_run|]. split; [|split; [|split]].
  - intros r. split; [apply set_run|by apply cat_run].
  - intros ch. by apply cat_char_run.
  - intros i Hi. split_and!; intros.
    + by apply ds_insert_run.
    + by apply insert_char_run.
    + by apply insert_vf_run.
    + by apply remove_run.
    + by apply remove_end_run.
  - intros r w. split; [by apply begins_run|]. split; [by apply ends_run|]. intros. by apply cmp_run.
Qed.
End Strings.

(** ** Indented text *)
Record d_IString := mkIString { i_str : d_String; i_indent : d_String; i_format : d_String }.
Section Indented.
Context {B : Build}.
Definition NL : Z := chr (String (Ascii.ascii_of_nat 10) EmptyString).

Definition on_str {A} (op : M d_String A) : M d_IString A := fun s =>
  match op (i_str s) with
  | Ret a v => Ret a (mkIString v (i_indent s) (i_format s))
  | Err v => Err (mkIString v (i_indent s) (i_format s))
  | Abort => Abort | Oob => Oob | Nofuel => Nofuel
  end.
Definition on_indent {A} (op : M d_String A) : M d_IString A := fun s =>
  match op (i_indent s) with
  | Ret a v => Ret a (mkIString (i_str s) v (i_format s))
  | Err v => Err (mkIString (i_str s) v (i_format s))
  | Abort => Abort | Oob => Oob | Nofuel => Nofuel
  end.

(** [ds_cat_s(&s->str, &s->indent)] *)
Definition cat_indent : M d_IString unit :=
  let* s := get in
  let* l := on_indent (ds_cstr (i_indent s)) in
  on_str (ds_cat_n l (ds_size (i_indent s))).
Fixpoint dis_cat_n (fuel : nat) (text : list Z) : M d_IString unit :=
  match text with
  | [] => ret tt
  | _ =>
      match fuel with
      | O => nofuel
      | S fuel =>
          match split_at NL text with
          | None => on_str (ds_cat_n text (length text))
          | Some (line, text) =>
              run* on_str (ds_cat_n line (length line)) in
              run* on_str (ds_cat_char NL) in
              run* cat_indent in
              dis_cat_n fuel text
          end
      end
  end.
Definition dis_indent : M d_IString unit := on_indent (ds_cat_n (str "    ") 4).
Definition dis_unindent : M d_IString unit := on_indent (ds_remove_end 4).

(** Every line break is followed by the indentation. *)
Definition indented (ind text : list Z) : list Z := mjoin (map (fun c => if (c =? NL)%Z then c :: ind else [c]) text).

Lemma indented_app (ind a b : list Z) : indented ind (a ++ b) = indented ind a ++ indented ind b.
Proof. unfold indented. by rewrite map_app, join_app. Qed.
Lemma indented_free (ind a : list Z) : free_of NL a -> indented ind a = a.
Proof.
  induction 1 as [|c a Hc _ IH]; [done|]. change (indented ind (c :: a)) with ((if (c =? NL)%Z then c :: ind else [c]) ++ indented ind a).
  by rewrite (proj2 (Z.eqb_neq _ _) Hc), IH.
Qed.

Lemma on_str_run {A} (op : M d_String A) (s : d_IString) (a : A) (l : list Z) : writes op (i_str s) a l ->
  exists v, on_str op s = Ret a (mkIString v (i_indent s) (i_format s)) /\ holds v l.
Proof. intros (v & E & H). exists v. unfold on_str. by rewrite E. Qed.

Lemma cat_n_indented (fuel : nat) : forall (text : list Z) (s : d_IString) (l ind : list Z), (length text <= fuel)%nat -> holds (i_str s) l -> holds (i_indent s) ind ->
  exists v, dis_cat_n fuel text s = Ret tt (mkIString v (i_indent s) (i_format s)) /\ holds v (l ++ indented ind text).
Proof.
  induction fuel as [|fuel IH]; intros text s l ind Hf Hl Hi.
  - destruct text; [|cbn in Hf; lia]. exists (i_str s). split; [by destruct s|]. by rewrite app_nil_r.
  - destruct text as [|c text]; [exists (i_str s); split; [by destruct s|]; by rewrite app_nil_r|]. cbn [dis_cat_n]. destruct (split_at NL (c :: text)) as [[line rest]|] eqn:E.
    + apply split_at_Some in E as [E Hfree]. rewrite E in Hf |- *. rewrite length_app in Hf. cbn [length] in Hf.
      destruct (on_str_run _ s tt _ (cat_run _ l line Hl)) as (v1 & E1 & H1). rewrite (bind_Ret _ _ _ _ _ E1). set (s1 := mkIString v1 _ _).
      destruct (on_str_run (ds_cat_char NL) s1 tt _ (cat_char_run _ _ NL H1)) as (v2 & E2 & H2). rewrite (bind_Ret _ _ _ _ _ E2). set (s2 := mkIString v2 _ _).
      destruct (on_str_run (ds_cat_n ind (length ind)) s2 tt _ (cat_run _ _ ind H2)) as (v3 & E3 & H3).
      assert (Ec : cat_indent s2 = Ret tt (mkIString v3 (i_indent s2) (i_format s2))).
      { unfold cat_indent. rewrite (bind_Ret get _ s2 s2 s2 eq_refl), (bind_Ret _ _ s2 s2 ind) by (unfold on_indent; by rewrite (cstr_run _ _ ind Hi)).
        by rewrite (proj1 (holds_size _ _ (Hi : holds (i_indent s2) ind))). }
      rewrite (bind_Ret _ _ _ _ _ Ec). destruct (IH rest (mkIString v3 (i_indent s2) (i_format s2)) _ ind ltac:(lia) H3 Hi) as (v4 & E4 & H4).
      exists v4. split; [exact E4|]. rewrite indented_app, (indented_free ind line Hfree). change (NL :: rest) with ([NL] ++ rest). rewrite indented_app.
      replace (indented ind [NL]) with ([(NL mod 256)%Z] ++ ind) by (unfold indented; cbn; by rewrite app_nil_r). by rewrite <- !app_assoc in *.
    + apply split_at_None in E. destruct (on_str_run _ s tt _ (cat_run _ l (c :: text) Hl)) as (v1 & E1 & H1). exists v1. split; [done|]. by rewrite indented_free.
Qed.
End Indented.

(** ** Examples *)
Lemma string_refined_witness : exists v, ds_insert_vf (B := debug_build) 0 (str "hello") dv_init = Ret 5%Z v /\ holds v (str "hello") /\
  (exists v', ds_cat_n (str ", world") 7 v = Ret tt v' /\ holds v' (str "hello, world")).
Proof.
  destruct (string_refined (B := debug_build) dv_init []) as (_ & _ & _ & H & _); [split; [unfold vec_ok; cbn; lia|by left]|].
  destruct (H 0 ltac:(cbn; lia)) as (_ & _ & Hf & _). destruct (Hf (str "hello")) as (v & E & Hv). exists v. split; [exact E|]. split; [exact Hv|].
  destruct (string_refined (B := debug_build) v (str "hello") Hv) as (_ & Hc & _). exact (proj2 (Hc (str ", world"))).
Defined.

(** Removing at the end removes the terminator: the assertion of [ds_remove]
    looks at the number of characters only. *)
Lemma remove_terminator : match (run* ds_set_n (str "a") 1 in ds_remove (B := debug_build) 1 1) dv_init with
  | Ret _ v => contents v = map Some (str "a") | _ => False end.
Proof. vm_compute. reflexivity. Qed.
