(* ===== verification/Queue.v ===== *)
(** Queues (dmem/queue.h): a ring of cells in which the items are kept in order,
    in one piece or, past the end of the block, in two. *)

From Stdlib Require Import ZArith Lia.
From stdpp Require Import base option list numbers.
From S2P Require Import Prelude Containers.
#[local] Open Scope nat_scope.
#[local] Open Scope adbus_scope.

(** ** The queue

    Blocks and their cells are those of Containers; [memcpy] between places
    that overlap is an error. *)
Definition memcpy {T} (dest src n : nat) (d : list (option T)) : option (list (option T)) :=
  if (dest + n <=? src) || (src + n <=? dest) then memmove dest src n d else None.

Record Queue (T : Type) := mkQueue { q_data : list (option T); q_begin : nat; q_end : nat }.
Arguments mkQueue {T} q_data q_begin q_end.
Arguments q_data {T} q.
Arguments q_begin {T} q.
Arguments q_end {T} q.
Definition q_alloc {T} (q : Queue T) : nat := length (q_data q).

(** The index of [dq_a(q, i)]. *)
Definition dq_index {T} (q : Queue T) (i : nat) : nat :=
  if q_alloc q <=? q_begin q + i then q_begin q + i - q_alloc q else q_begin q + i.
Definition dq_size {T} (q : Queue T) : nat :=
  if q_end q <? q_begin q then q_end q + q_alloc q - q_begin q else q_end q - q_begin q.

Section Queues.
Context {B : Build} {T : Type}.
Notation Q := (Queue T).

Definition dq_init : Q := mkQueue [] 0 0.
Definition dq_clear : M Q unit := modify (fun q => mkQueue (q_data q) 0 0).

Definition dq_resize (sz : nat) : M Q unit :=
  let* q := get in
  let oldalloc := q_alloc q in
  let alloc := (oldalloc + 16) * 2 in
  let alloc := if alloc <=? sz then sz + 1 else alloc in
  let data := realloc alloc (q_data q) in
  if q_end q <? q_begin q then
    let asz := oldalloc - q_begin q in
    let* data := of_option (memcpy (alloc - asz) (q_begin q) asz data) in
    put (mkQueue data (alloc - asz) (q_end q))
  else put (mkQueue data (q_begin q) (q_end q)).

Definition dq_linearize : M Q unit :=
  let* q := get in
  if dq_size q =? 0 then put (mkQueue (q_data q) 0 0)
  else if q_end q <? q_begin q then
    run* dq_resize (dq_size q * 2) in
    let* q := get in
    let asz := q_alloc q - q_begin q in
    let asrc := q_alloc q - asz in
    let adest := q_end q in
    let bsz := q_end q in
    let bdest := adest + asz in
    run* assert_ (bdest + bsz <? asrc) in
    let* data := of_option (memcpy adest asrc asz (q_data q)) in
    let* data := of_option (memcpy bdest 0 bsz data) in
    put (mkQueue data (q_end q) (q_end q + asz + bsz))
  else ret tt.

(** The result is the index of the first of the new cells. *)
Definition dq_push_back (num : nat) : M Q nat :=
  let* q := get in
  let sz := dq_size q in
  run* (if (int32 (Z.of_nat (q_alloc q)) - 1 <=? int32 (Z.of_nat (sz + num)))%Z then dq_resize (sz + num) else ret tt) in
  run* modify (fun q => if dq_size q =? 0 then mkQueue (q_data q) 0 0 else q) in
  run* modify (fun q => let e := q_end q + num in mkQueue (q_data q) (q_begin q) (if q_alloc q <=? e then e - q_alloc q else e)) in
  let* q := get in
  run* (if dq_index q (sz + num) <? dq_index q sz then dq_linearize else ret tt) in
  let* q := get in
  ret (dq_index q sz).

Definition dq_pop_back (num : nat) : M Q unit :=
  let* q := get in
  run* assert_ (num <=? dq_size q) in
  let e := if q_end q <? num then q_end q + q_alloc q else q_end q in
  if num <=? e then put (mkQueue (q_data q) (q_begin q) (e - num)) else oob.
Definition dq_pop_front (num : nat) : M Q unit :=
  let* q := get in
  run* assert_ (num <=? dq_size q) in
  let b := q_begin q + num in
  put (mkQueue (q_data q) (if q_alloc q <=? b then b - q_alloc q else b) (q_end q)).

(** Reading an item, and writing items to the cells that [dq_push_back] gave. *)
Definition dq_a (i : nat) : M Q T := let* q := get in of_option (q_data q !! dq_index q i ≫= id).
Definition dq_write (i : nat) (l : list T) : M Q unit :=
  let* q := get in
  let* d := of_option (blit i (map Some l) (q_data q)) in
  put (mkQueue d (q_begin q) (q_end q)).
Definition dq_append (l : list T) : M Q unit := let* i := dq_push_back (length l) in dq_write i l.

(** ** A queue is a list

    One piece with room after it, or two pieces with room between them; only
    a queue without memory has no room. *)
Inductive queue : Q -> list (option T) -> Prop :=
| queue_new : queue dq_init []
| queue_one p c r : r <> [] -> queue (mkQueue (p ++ c ++ r) (length p) (length p + length c)) c
| queue_two b m a : m <> [] -> a <> [] -> queue (mkQueue (b ++ m ++ a) (length b + length m) (length b)) (a ++ b).

Lemma long {A} (l : list A) : l <> [] -> 0 < length l.
Proof. destruct l; [done|cbn; lia]. Qed.

Lemma queue_size (q : Q) (l : list (option T)) : queue q l -> dq_size q = length l.
Proof.
  intros [|p c r Hr|b m a Hm%long Ha%long]; unfold dq_size, q_alloc; cbn [q_data q_begin q_end].
  - done.
  - rewrite (proj2 (Nat.ltb_ge _ _)) by lia. lia.
  - rewrite (proj2 (Nat.ltb_lt _ _)) by lia. rewrite !length_app. lia.
Qed.

Lemma queue_a (q : Q) (l : list (option T)) (i : nat) : queue q l -> i < length l -> q_data q !! dq_index q i = l !! i.
Proof.
  intros [|p c r Hr%long|b m a Hm%long Ha%long] Hi; unfold dq_index, q_alloc; cbn [q_data q_begin]; [done| |].
  - rewrite (proj2 (Nat.leb_gt _ _)) by (rewrite !length_app; lia). rewrite lookup_app_r by lia. replace (length p + i - length p) with i by lia. by rewrite lookup_app_l.
  - rewrite !length_app in *. destruct (Nat.leb_spec (length b + (length m + length a)) (length b + length m + i)) as [H|H].
    + rewrite lookup_app_l by lia. rewrite lookup_app_r by lia. f_equal. lia.
    + rewrite lookup_app_r by lia. rewrite lookup_app_r by lia. rewrite lookup_app_l by lia. f_equal. lia.
Qed.

(** *** Growing *)
Lemma realloc_ge (n : nat) (d : list (option T)) : length d <= n -> realloc n d = d ++ replicate (n - length d) None.
Proof. intros H. unfold realloc. by rewrite take_ge. Qed.

Lemma memmove_parts (p l q : list (option T)) (dest src : nat) (d : list (option T)) (x : list (option T)) : d = p ++ l ++ q -> src = length p ->
  blit dest l d = Some x -> memmove dest src (length l) d = Some x.
Proof. intros -> -> E. unfold memmove. rewrite slice_some by (rewrite !length_app; lia). rewrite drop_app_length, take_app_length. exact E. Qed.

Lemma blit_parts (p old q l : list (option T)) : length old = length l -> blit (length p) l (p ++ old ++ q) = Some (p ++ l ++ q).
Proof.
  intros E. rewrite blit_some by (rewrite !length_app; lia). rewrite take_app_length, (app_assoc p old q), drop_app_length'; [done|]. rewrite length_app. lia.
Qed.

Lemma resize_queue (q : Q) (l : list (option T)) (sz : nat) : queue q l -> length l <= sz -> exists q', dq_resize sz q = Ret tt q' /\ queue q' l /\ sz < q_alloc q' /\
  (q_end q < q_begin q -> exists b m a, q' = mkQueue (b ++ m ++ a) (length b + length m) (length b) /\ m <> [] /\ a <> [] /\ l = a ++ b /\ q_alloc q' = length b + length m + length a) /\
  2 * q_alloc q < q_alloc q'.
Proof.
  intros Hq Hsz. unfold dq_resize. rewrite (bind_Ret get _ q q q eq_refl). cbv zeta. set (n0 := (q_alloc q + 16) * 2). set (n := if n0 <=? sz then sz + 1 else n0).
  assert (Hn : sz < n /\ 2 * q_alloc q + 31 < n) by (unfold n; destruct (Nat.leb_spec n0 sz); lia). clearbody n. destruct Hn as [Hn1 Hn2].
  destruct Hq as [|p c r Hr|b m a Hm Ha]; unfold q_alloc, dq_init in *; cbn [q_data q_begin q_end] in *.
  - eexists. split; [reflexivity|]. cbn [q_data]. rewrite realloc_ge by (cbn; lia). cbn [length app]. rewrite length_replicate. split; [|split; [lia|split; [lia|cbn in Hn2; lia]]].
    apply (queue_one [] [] (replicate (n - 0) None)). destruct n; [lia|done].
  - rewrite (proj2 (Nat.ltb_ge _ _)) by lia. eexists. split; [reflexivity|]. cbn [q_data]. rewrite length_resized. split; [|split; [lia|split; [lia|lia]]].
    rewrite realloc_ge by lia. rewrite <- !app_assoc. apply queue_one. by destruct r.
  - pose proof (long m Hm). pose proof (long a Ha). rewrite (proj2 (Nat.ltb_lt _ _)) by lia. rewrite !length_app in *.
    rewrite realloc_ge by (rewrite !length_app; lia). rewrite !length_app. replace (length b + (length m + length a) - (length b + length m)) with (length a) by lia.
    set (k := n - (length b + (length m + length a))).
    assert (Ec : memcpy (n - length a) (length b + length m) (length a) ((b ++ m ++ a) ++ replicate k None) = Some (b ++ (m ++ a ++ replicate (k - length a) None) ++ a)).
    { unfold memcpy. rewrite (proj2 (Nat.leb_le (length b + length m + length a) (n - length a))) by lia. rewrite orb_true_r.
      apply (memmove_parts (b ++ m) a (replicate k None)); [by rewrite <- !app_assoc|by rewrite length_app|].
      replace (replicate k None) with (replicate (k - length a) (@None T) ++ replicate (length a) None) by (rewrite <- replicate_add; f_equal; unfold k; lia).
      replace (n - length a) with (length (b ++ m ++ a ++ replicate (k - length a) (@None T))) by (rewrite !length_app, length_replicate; unfold k; lia).
      replace ((b ++ m ++ a) ++ replicate (k - length a) None ++ replicate (length a) None) with ((b ++ m ++ a ++ replicate (k - length a) (@None T)) ++ replicate (length a) None ++ []) by (by rewrite app_nil_r, <- !app_assoc).
      rewrite blit_parts by (by rewrite length_replicate). by rewrite app_nil_r, <- !app_assoc. }
    rewrite Ec. rewrite (bind_Ret (of_option (Some _)) _ _ _ _ eq_refl). set (m' := m ++ a ++ replicate (k - length a) None).
    assert (Lm : length m' = n - length a - length b) by (unfold m'; rewrite !length_app, length_replicate; unfold k; lia).
    assert (Hm' : m' <> []) by (intros E; rewrite E in Lm; cbn in Lm; lia). replace (n - length a) with (length b + length m') by lia.
    eexists. split; [reflexivity|]. split; [by apply queue_two|]. cbn [q_data]. rewrite !length_app. split; [lia|]. split; [|lia].
    intros _. exists b, m', a. split_and!; try done. lia.
Qed.

Lemma linearize_queue (q : Q) (l : list (option T)) : queue q l -> q_end q < q_begin q -> exists q', dq_linearize q = Ret tt q' /\ queue q' l /\ q_begin q' <= q_end q'.
Proof.
  intros Hq Hw. unfold dq_linearize. rewrite (bind_Ret get _ q q q eq_refl). rewrite (queue_size q l Hq).
  assert (Hl : 0 < length l) by (destruct Hq as [|p c r Hr|b m a Hm Ha%long]; cbn in Hw; [lia|lia|rewrite length_app; lia]).
  rewrite (proj2 (Nat.eqb_neq _ _)), (proj2 (Nat.ltb_lt _ _)) by lia.
  destruct (resize_queue q l (length l * 2) Hq ltac:(lia)) as (q1 & E1 & H1 & A1 & S1 & _). destruct (S1 Hw) as (b & m & a & -> & Hm & Ha & -> & Ea).
  rewrite (bind_Ret _ _ _ _ _ E1), (bind_Ret get _ _ _ _ eq_refl). cbn [q_data q_begin q_end]. rewrite Ea in *. rewrite length_app in *.
  replace (length b + length m + length a - (length b + length m)) with (length a) by lia. replace (length b + length m + length a - length a) with (length b + length m) by lia.
  rewrite (bind_Ret (assert_ _) _ _ (mkQueue (b ++ m ++ a) (length b + length m) (length b)) tt) by (apply assert_true, Nat.ltb_lt; lia).
  set (m1 := take (length a) m). set (m2 := take (length b) (drop (length a) m)). set (m3 := drop (length b) (drop (length a) m)).
  assert (Em : m = m1 ++ m2 ++ m3) by (unfold m1, m2, m3; by rewrite !take_drop).
  assert (L1 : length m1 = length a) by (unfold m1; rewrite length_take; lia). assert (L2 : length m2 = length b) by (unfold m2; rewrite length_take, length_drop; lia).
  assert (L3 : 0 < length m3) by (unfold m3; rewrite !length_drop; lia). assert (Lm : length m = length a + (length b + length m3)) by (rewrite Em at 1; rewrite !length_app; lia).
  assert (Ec : memcpy (length b) (length b + length m) (length a) (b ++ m ++ a) = Some (b ++ a ++ m2 ++ m3 ++ a)).
  { unfold memcpy. rewrite (proj2 (Nat.leb_le _ _)) by lia. cbn [orb]. apply (memmove_parts (b ++ m) a []); [by rewrite app_nil_r, <- app_assoc|by rewrite length_app|].
    rewrite Em, <- !app_assoc. by apply blit_parts. }
  rewrite Ec, (bind_Ret (of_option (Some _)) _ _ _ _ eq_refl).
  assert (Ed : memcpy (length b + length a) 0 (length b) (b ++ a ++ m2 ++ m3 ++ a) = Some (b ++ (a ++ b) ++ m3 ++ a)).
  { unfold memcpy. rewrite (proj2 (Nat.leb_le (0 + length b) (length b + length a))) by lia. rewrite orb_true_r.
    apply (memmove_parts [] b (a ++ m2 ++ m3 ++ a)); [done|done|]. rewrite (app_assoc b a). rewrite <- length_app. rewrite blit_parts by done. by rewrite <- !app_assoc. }
  rewrite Ed, (bind_Ret (of_option (Some _)) _ _ _ _ eq_refl). eexists. split; [reflexivity|]. cbn [q_begin q_end]. split; [|lia].
  replace (length b + length a + length b) with (length b + length (a ++ b)) by (rewrite length_app; lia). apply (queue_one b (a ++ b) (m3 ++ a)). by destruct m3; [cbn in L3; lia|].
Qed.

(** *** Appending *)
Definition emptied (q : Q) : Q := if dq_size q =? 0 then mkQueue (q_data q) 0 0 else q.
Definition extended (num : nat) (q : Q) : Q :=
  let e := q_end q + num in mkQueue (q_data q) (q_begin q) (if q_alloc q <=? e then e - q_alloc q else e).

Lemma emptied_queue (q : Q) (l : list (option T)) : queue q l -> 0 < q_alloc q -> queue (emptied q) l /\ q_alloc (emptied q) = q_alloc q.
Proof.
  intros Hq Ha. unfold emptied. rewrite (queue_size q l Hq). destruct l as [|x l]; [|done]. cbn [length Nat.eqb]. split; [|done].
  apply (queue_one [] [] (q_data q)). unfold q_alloc in Ha. by destruct (q_data q); [cbn in Ha; lia|].
Qed.

Lemma extended_queue (q : Q) (l : list (option T)) (num : nat) : queue q l -> length l + num < q_alloc q -> exists g, queue (extended num q) (l ++ g) /\ length g = num.
Proof.
  intros Hq Hn. unfold extended. destruct Hq as [|p c r Hr|b m a Hm Ha]; unfold q_alloc in *; cbn [q_data q_begin q_end] in *; [cbn in Hn; lia| |].
  - rewrite !length_app in *. destruct (Nat.leb_spec (length p + (length c + length r)) (length p + length c + num)) as [H|H].
    + set (k := num - length r). exists (r ++ take k p). split; [|rewrite length_app, length_take; unfold k; lia].
      replace (length p + length c + num - (length p + (length c + length r))) with (length (take k p)) by (rewrite length_take; unfold k; lia).
      replace (length p) with (length (take k p) + length (drop k p)) at 1 by (rewrite length_take, length_drop; lia).
      rewrite <- (take_drop k p) at 1. rewrite <- app_assoc, (app_assoc c r). apply queue_two; [|by destruct c, r].
      intros E. apply (f_equal length) in E. rewrite length_drop in E. cbn in E. unfold k in E. lia.
    + exists (take num r). split; [|rewrite length_take; lia]. replace (length p + length c + num) with (length p + length (c ++ take num r)) by (rewrite length_app, length_take; lia).
      rewrite <- (take_drop num r) at 1. rewrite (app_assoc c). apply queue_one. intros E. apply (f_equal length) in E. rewrite length_drop in E. cbn in E. lia.
  - rewrite !length_app in *. rewrite (proj2 (Nat.leb_gt _ _)) by lia. exists (take num m). split; [|rewrite length_take; lia].
    rewrite <- app_assoc. replace (length b + num) with (length (b ++ take num m)) by (rewrite length_app, length_take; lia).
    replace (length b + length m) with (length (b ++ take num m) + length (drop num m)) by (rewrite length_app, length_take, length_drop; lia).
    rewrite <- (take_drop num m) at 1. rewrite <- app_assoc, (app_assoc b). apply queue_two; [|done].
    intros E. apply (f_equal length) in E. rewrite length_drop in E. cbn in E. lia.
Qed.

(** New cells that are in one piece can be written. *)
Lemma writable (q : Q) (l g x : list (option T)) : queue q (l ++ g) -> length g = length x -> dq_index q (length l) <= dq_index q (length l + length g) ->
  exists d, blit (dq_index q (length l)) x (q_data q) = Some d /\ queue (mkQueue d (q_begin q) (q_end q)) (l ++ x).
Proof.
  intros Hq Hx Hi. remember (l ++ g) as t eqn:Et. destruct Hq as [|p c r Hr|b m a Hm Ha]; unfold dq_index, q_alloc in *; cbn [q_data q_begin q_end dq_init] in *.
  - symmetry in Et. apply app_eq_nil in Et as [-> ->]. destruct x; [|done]. exists []. split; [done|]. exact queue_new.
  - subst c. pose proof (long r Hr). rewrite (proj2 (Nat.leb_gt _ _)) by (rewrite !length_app; lia). exists (p ++ (l ++ x) ++ r). split.
    + rewrite <- length_app. replace (p ++ (l ++ g) ++ r) with ((p ++ l) ++ g ++ r) by (by rewrite <- !app_assoc). rewrite blit_parts by done. by rewrite <- !app_assoc.
    + replace (length p + length (l ++ g)) with (length p + length (l ++ x)) by (rewrite !length_app; lia). by apply queue_one.
  - pose proof (long m Hm). pose proof (long a Ha). rewrite !length_app in *. pose proof (f_equal length Et) as El. rewrite !length_app in El.
    rewrite (proj2 (Nat.leb_le (length b + (length m + length a)) (length b + length m + (length l + length g)))) in Hi by lia. destruct (Nat.leb_spec (length b + (length m + length a)) (length b + length m + length l)) as [H1|H1].
    + assert (Es : exists k, l = a ++ k /\ b = k ++ g).
      { exists (drop (length a) l). assert (Ea : take (length a) l = a) by (rewrite <- (take_app_le l g) by lia; rewrite <- Et; by rewrite take_app_length).
        split; [transitivity (take (length a) l ++ drop (length a) l); [by rewrite take_drop|by rewrite Ea]|]. apply (f_equal (drop (length a))) in Et. rewrite drop_app_length, drop_app_le in Et by lia. done. }
      destruct Es as (k & -> & ->). rewrite !length_app in *. replace (length k + length g + length m + (length a + length k) - (length k + length g + (length m + length a))) with (length k) by lia.
      exists ((k ++ x) ++ m ++ a). split; [replace ((k ++ g) ++ m ++ a) with (k ++ g ++ (m ++ a)) by (by rewrite <- app_assoc); rewrite blit_parts by done; by rewrite <- app_assoc|].
      replace (length k + length g) with (length (k ++ x)) by (rewrite length_app; lia). replace ((a ++ k) ++ x) with (a ++ k ++ x) by (by rewrite <- app_assoc). by apply queue_two.
    + lia.
Qed.

Lemma int32_small (n : nat) : (Z.of_nat n < 2 ^ 31)%Z -> int32 (Z.of_nat n) = Z.of_nat n.
Proof. intros H. unfold int32. rewrite Z.mod_small; lia. Qed.

Lemma push_queue (q : Q) (l : list (option T)) (num : nat) : queue q l -> (Z.of_nat (q_alloc q) < 2 ^ 31)%Z -> (Z.of_nat (length l + num) < 2 ^ 31)%Z ->
  exists i q' g, dq_push_back num q = Ret i q' /\ queue q' (l ++ g) /\ length g = num /\ i = dq_index q' (length l) /\ i <= dq_index q' (length l + num).
Proof.
  intros Hq Ha Hn. unfold dq_push_back. rewrite (bind_Ret get _ q q q eq_refl), (queue_size q l Hq). rewrite !int32_small by done.
  assert (E1 : exists q1, (if (Z.of_nat (q_alloc q) - 1 <=? Z.of_nat (length l + num))%Z then dq_resize (length l + num) else ret tt) q = Ret tt q1 /\ queue q1 l /\ length l + num < q_alloc q1).
  { destruct (Z.leb_spec (Z.of_nat (q_alloc q) - 1) (Z.of_nat (length l + num))); [|exists q; split_and!; [done|done|lia]].
    destruct (resize_queue q l (length l + num) Hq ltac:(lia)) as (q1 & E1 & H1 & A1 & _). by exists q1. }
  destruct E1 as (q1 & E1 & H1 & A1). rewrite (bind_Ret _ _ _ _ _ E1). destruct (emptied_queue q1 l H1 ltac:(lia)) as [H2 A2].
  rewrite (bind_Ret (modify _) _ q1 (emptied q1) tt eq_refl). destruct (extended_queue (emptied q1) l num H2 ltac:(lia)) as (g & H3 & Lg).
  rewrite (bind_Ret (modify _) _ _ (extended num (emptied q1)) tt eq_refl). set (q3 := extended num (emptied q1)) in *.
  rewrite (bind_Ret get _ q3 q3 q3 eq_refl). assert (Eq : (exists q4, (if dq_index q3 (length l + num) <? dq_index q3 (length l) then dq_linearize else ret tt) q3 = Ret tt q4 /\
    queue q4 (l ++ g) /\ dq_index q4 (length l) <= dq_index q4 (length l + num))).
  { destruct (Nat.ltb_spec (dq_index q3 (length l + num)) (dq_index q3 (length l))) as [Hc|Hc]; [|by exists q3].
    assert (Hw : q_end q3 < q_begin q3).
    { clearbody q3. destruct (Nat.ltb_spec (q_end q3) (q_begin q3)); [done|]. exfalso. remember (l ++ g) as t eqn:Et. destruct H3 as [|p c r Hr|b m a Hm Hb].
      - cbn in Hc. symmetry in Et. apply app_eq_nil in Et as [-> ->]. cbn in Hc. lia.
      - subst c. pose proof (long r Hr). unfold dq_index, q_alloc in Hc. cbn [q_data q_begin] in Hc. rewrite !length_app in Hc. rewrite !(proj2 (Nat.leb_gt _ _)) in Hc by lia. lia.
      - pose proof (long m Hm). cbn in *. lia. }
    destruct (linearize_queue q3 (l ++ g) H3 Hw) as (q4 & E4 & H4 & L4). exists q4. split; [done|]. split; [done|].
    remember (l ++ g) as t eqn:Et. destruct H4 as [|p c r Hr|b m a Hm Hb]; unfold dq_index, q_alloc; cbn [q_data q_begin q_end dq_init] in *.
    - symmetry in Et. apply app_eq_nil in Et as [-> ->]. cbn in Lg. subst num. done.
    - subst c. pose proof (long r Hr). rewrite !length_app. rewrite !(proj2 (Nat.leb_gt _ _)) by lia. lia.
    - pose proof (long m Hm). lia. }
  destruct Eq as (q4 & E4 & H4 & L4). rewrite (bind_Ret _ _ _ _ _ E4), (bind_Ret get _ q4 q4 q4 eq_refl). by exists (dq_index q4 (length l)), q4, g.
Qed.

Lemma append_queue (q : Q) (l : list (option T)) (x : list T) : queue q l -> (Z.of_nat (q_alloc q) < 2 ^ 31)%Z -> (Z.of_nat (length l + length x) < 2 ^ 31)%Z ->
  exists q', dq_append x q = Ret tt q' /\ queue q' (l ++ map Some x).
Proof.
  intros Hq Ha Hn. destruct (push_queue q l (length x) Hq Ha Hn) as (i & q1 & g & E1 & H1 & Lg & Ei & Hi). rewrite <- Lg in Hi. subst i.
  destruct (writable q1 l g (map Some x) H1) as (d & Ed & H2); [by rewrite length_map|done|]. eexists. split; [|exact H2].
  unfold dq_append. rewrite (bind_Ret _ _ _ _ _ E1). unfold dq_write. by rewrite (bind_Ret get _ q1 q1 q1 eq_refl), Ed.
Qed.

(** *** Removing *)
Lemma pop_front_queue (q : Q) (l : list (option T)) (n : nat) : queue q l -> n <= length l -> exists q', dq_pop_front n q = Ret tt q' /\ queue q' (drop n l).
Proof.
  intros Hq Hn. eexists. split.
  { unfold dq_pop_front. rewrite (bind_Ret get _ q q q eq_refl), (bind_Ret (assert_ _) _ q q tt) by (apply assert_true, Nat.leb_le; by rewrite (queue_size q l Hq)). reflexivity. }
  destruct Hq as [|p c r Hr|b m a Hm Ha]; unfold q_alloc; cbn [q_data q_begin q_end dq_init] in *.
  - cbn in Hn. assert (n = 0) as -> by lia. exact queue_new.
  - pose proof (long r Hr). rewrite (proj2 (Nat.leb_gt _ _)) by (rewrite !length_app; lia).
    replace (length p + n) with (length (p ++ take n c)) by (rewrite length_app, length_take; lia).
    replace (length p + length c) with (length (p ++ take n c) + length (drop n c)) by (rewrite length_app, length_take, length_drop; lia).
    rewrite <- (take_drop n c) at 1. rewrite <- app_assoc, (app_assoc p). by apply queue_one.
  - pose proof (long m Hm). rewrite !length_app in *. destruct (Nat.leb_spec (length b + (length m + length a)) (length b + length m + n)) as [H1|H1].
    + set (k := n - length a). rewrite drop_app_ge by lia. fold k. match goal with |- queue ?x _ => replace x with (mkQueue (take k b ++ drop k b ++ (m ++ a)) (length (take k b)) (length (take k b) + length (drop k b))) end.
      { apply queue_one. by destruct m. }
      f_equal; [by rewrite app_assoc, take_drop|rewrite length_take; unfold k; lia|rewrite length_take, length_drop; lia].
    + rewrite drop_app_le by lia. replace (length b + length m + n) with (length b + length (m ++ take n a)) by (rewrite length_app, length_take; lia).
      rewrite <- (take_drop n a) at 1. rewrite (app_assoc m). apply queue_two; [by destruct m|]. intros E. apply (f_equal length) in E. rewrite length_drop in E. cbn in E. lia.
Qed.

Lemma pop_back_queue (q : Q) (l : list (option T)) (n : nat) : queue q l -> n <= length l -> exists q', dq_pop_back n q = Ret tt q' /\ queue q' (take (length l - n) l).
Proof.
  intros Hq Hn. unfold dq_pop_back. rewrite (bind_Ret get _ q q q eq_refl), (bind_Ret (assert_ _) _ q q tt) by (apply assert_true, Nat.leb_le; by rewrite (queue_size q l Hq)).
  cbv zeta. destruct Hq as [|p c r Hr|b m a Hm Ha]; unfold q_alloc; cbn [q_data q_begin q_end dq_init] in *.
  - cbn in Hn. assert (n = 0) as -> by lia. eexists. split; [reflexivity|]. exact queue_new.
  - rewrite (proj2 (Nat.ltb_ge _ _)), (proj2 (Nat.leb_le _ _)) by lia. eexists. split; [reflexivity|].
    replace (length p + length c - n) with (length p + length (take (length c - n) c)) by (rewrite length_take; lia).
    rewrite <- (take_drop (length c - n) c) at 1. rewrite <- app_assoc. apply queue_one. by destruct (drop _ c).
  - pose proof (long m Hm). pose proof (long a Ha). rewrite !length_app in *. destruct (Nat.ltb_spec (length b) n) as [H1|H1].
    + rewrite (proj2 (Nat.leb_le _ _)) by lia. eexists. split; [reflexivity|]. set (k := length a + length b - n). rewrite take_app_le by (unfold k; lia).
      replace (length b + (length b + (length m + length a)) - n) with (length (b ++ m) + length (take k a)) by (rewrite length_app, length_take; unfold k; lia).
      replace (length b + length m) with (length (b ++ m)) by (by rewrite length_app).
      rewrite <- (take_drop k a) at 1. rewrite (app_assoc b m). apply queue_one. intros E. apply (f_equal length) in E. rewrite length_drop in E. cbn in E. unfold k in E. lia.
    + rewrite (proj2 (Nat.leb_le _ _)) by lia. eexists. split; [reflexivity|]. set (k := length b - n). replace (length a + length b - n) with (length a + k) by (unfold k; lia).
      rewrite take_app_add. replace (length b - n) with k by done.
      match goal with |- queue ?x _ => replace x with (mkQueue (take k b ++ (drop k b ++ m) ++ a) (length (take k b) + length (drop k b ++ m)) (length (take k b))) end.
      { apply queue_two; [by destruct (drop k b), m|done]. }
      f_equal; [by rewrite <- app_assoc, (app_assoc (take k b)), take_drop|rewrite length_app, length_take, length_drop; lia|rewrite length_take; lia].
Qed.

Lemma read_queue (q : Q) (l : list (option T)) (i : nat) (a : T) : queue q l -> l !! i = Some (Some a) -> dq_a i q = Ret a q.
Proof.
  intros Hq E. unfold dq_a. rewrite (bind_Ret get _ q q q eq_refl). rewrite (queue_a q l i Hq) by (by apply lookup_lt_Some in E). by rewrite E.
Qed.

(** C24: queues.  However the ring lies in its block, a queue is the list of
    its items: its size is the length and reading gives the item at an index;
    room for new items at the end is in one piece, even where that moves the
    ring, and writing it appends the items; removing at the front and at the
    back drops them, and nothing outside of the block is touched. *)
Theorem queue_refined (q : Q) (l : list (option T)) : queue q l ->
  dq_size q = length l /\ (forall i a, l !! i = Some (Some a) -> dq_a i q = Ret a q) /\
  (forall x, (Z.of_nat (q_alloc q) < 2 ^ 31)%Z -> (Z.of_nat (length l + length x) < 2 ^ 31)%Z ->
     exists q', dq_append x q = Ret tt q' /\ queue q' (l ++ map Some x)) /\
  (forall n, n <= length l -> (exists q', dq_pop_front n q = Ret tt q' /\ queue q' (drop n l)) /\
     (exists q', dq_pop_back n q = Ret tt q' /\ queue q' (take (length l - n) l))).
Proof.
  intros Hq. split; [by apply queue_size|]. split; [intros; by apply (read_queue q l)|]. split; [intros; by apply append_queue|].
  intros n Hn. split; [by apply pop_front_queue|by apply pop_back_queue].
Qed.
End Queues.

Lemma queue_refined_witness : exists q q', dq_append (B := debug_build) [1%Z; 2%Z; 3%Z] dq_init = Ret tt q /\ dq_pop_front (B := debug_build) 2 q = Ret tt q' /\
  dq_a 0 q' = Ret 3%Z q'.
Proof.
  destruct (queue_refined (B := debug_build) (T := Z) dq_init [] queue_new) as (_ & _ & Ha & _). destruct (Ha [1%Z; 2%Z; 3%Z]) as (q & E & Hq); [reflexivity|reflexivity|].
  destruct (queue_refined (B := debug_build) q _ Hq) as (_ & _ & _ & Hp). destruct (Hp 2 ltac:(cbn; lia)) as [(q' & E' & Hq') _].
  destruct (queue_refined (B := debug_build) q' _ Hq') as (_ & Hr & _). exists q, q'. split; [exact E|]. split; [exact E'|]. by apply Hr.
Defined.
