(* ===== verification/Clone.v ===== *)
(** Copying a message (adbus/parse.c, adbus_clonedata): the strings of a message
    are pointers into its bytes, which a copy has to move. *)

From Stdlib Require Import ZArith Lia.
From stdpp Require Import base option list numbers.
From S2P Require Import Prelude.
#[local] Open Scope Z_scope.

(** ** A message in memory

    Pointers are addresses, 0 is NULL; an array of arguments that was not
    written has no values. *)
Record Pointers := mkPointers {
  p_data : Z; p_size : Z; p_argdata : Z; p_argsize : Z; p_signature : Z; p_replySerial : Z;
  p_path : Z; p_interface : Z; p_member : Z; p_error : Z; p_destination : Z; p_sender : Z;
  p_arguments : option (list (option Z)) }.

(** [sizeof(uint32_t)]: what a step of the pointer to the reply serial is. *)
Definition serial_step_size : Z := 4.

(** The block for the copy is at [p]; the arguments of the copy are read
    before they are written. *)
Definition adbus_clonedata (p : Z) (from : Pointers) : M unit Pointers :=
  let off := p_data from - p in
  let to := mkPointers p (p_size from) (p_argdata from + off) (p_argsize from) (p_signature from + off) (p_replySerial from + off * serial_step_size)
    (p_path from + off) (p_interface from + off) (p_member from + off) (p_error from + off) (p_destination from + off) (p_sender from + off) in
  match p_arguments from with
  | None => ret (to None)
  | Some [] => ret (to (Some []))
  | Some _ => oob
  end.

(** ** The copy is wrong *)

(** [x] points to offset [k] of the block at [d]. *)
Definition points (d k x : Z) : Prop := x = d + k.

(** Every string of the copy is off by twice the distance of the blocks, in
    the wrong direction, and a string that is not set becomes one that is. *)
Lemma clone_points_elsewhere (p k : Z) (from to : Pointers) : adbus_clonedata p from tt = Ret to tt -> p <> p_data from ->
  (points (p_data from) k (p_path from) -> ~ points (p_data to) k (p_path to) /\ p_path to = p_data to + k - 2 * (p - p_data from)) /\
  (p_sender from = 0 -> p_sender to <> 0).
Proof.
  unfold adbus_clonedata, points. intros E Hp. assert (Et : p_data to = p /\ p_path to = p_path from + (p_data from - p) /\ p_sender to = p_sender from + (p_data from - p)).
  { destruct (p_arguments from) as [[|]|]; cbn in E; try done; by injection E as <-. }
  destruct Et as (-> & -> & ->). lia.
Qed.

(** With arguments that were parsed the copy reads memory that was not written. *)
Lemma clone_reads_unwritten (p : Z) (from : Pointers) (a : option Z) (l : list (option Z)) : p_arguments from = Some (a :: l) -> adbus_clonedata p from tt = Oob.
Proof. unfold adbus_clonedata. by intros ->. Qed.
