(* ===== verification/Shutdown.v ===== *)
(** The end of the bus (adbus/server.c, adbus_serv_free): every remote is
    disconnected, the bus itself last, and nothing is left. *)

From Stdlib Require Import ZArith Lia.
From stdpp Require Import base option list numbers strings gmap.
From S2P Require Import Prelude Text MatchRule Buffer Server Registry.
Open Scope Z_scope.

(** ** adbus_serv_free

    The signals and the connection of the bus, which are freed afterwards, are
    not part of this state (see Signals and Teardown). *)
Section Free.
Context {B : Build} (dh_order : forall A : Type, gmap (list Z) A -> list (list Z * A)).

(** The next remote is read before the current one is freed. *)
Fixpoint disconnect_all (l : list nat) : M Server unit :=
  match l with [] => ret tt | r :: l => run* adbus_remote_disconnect r in disconnect_all l end.
Definition adbusI_serv_freeservice (v : nat) : M Server unit :=
  let* _ := get_service v in
  modify (fun s => with_names (names s) (delete v (service_heap s)) s).
Fixpoint free_services (l : list (list Z * nat)) : M Server unit :=
  match l with [] => ret tt | (_, v) :: l => run* adbusI_serv_freeservice v in free_services l end.
Definition adbus_serv_free : M Server unit :=
  let* s := get in
  run* disconnect_all (remotes s) in
  run* modify (fun s => with_remotes [] (remote_heap s) s) in
  let* s := get in
  run* free_services (dh_order _ (names s)) in
  modify (fun s => with_names ∅ (service_heap s) s).

(** ** Nothing is left *)

(** Whoever disconnects, the bus included. *)
Lemma disconnect_links (s : Server) (r : nat) (R : Remote) : wf_links s -> remote_heap s !! r = Some R ->
  exists s', adbus_remote_disconnect r s = Ret tt s' /\ wf_links s' /\ remote_heap s' !! r = None /\ forall q, q <> r -> remote_heap s' !! q = remote_heap s !! q.
Proof.
  intros Wl HR. unfold adbus_remote_disconnect. erewrite bind_Ret by reflexivity. set (s1 := with_remotes _ _ s).
  rewrite (bind_Ret _ _ s1 _ _ (get_remote_ok r R s1 HR)). erewrite bind_Ret by reflexivity.
  set (s2 := with_remotes _ _ s1). set (R2 := set_matches [] R). assert (W2 : wf_links s2) by (by apply (links_update s s2 r R R2)).
  destruct (release_all_ok (length (services R)) s2 r R2 W2) as (s3 & E & [C1 (R' & C2 & C3 & C4) C5 (C6 & C7 & C8 & C9) C10]); [apply lookup_insert_eq|done|].
  rewrite (bind_Ret _ _ _ _ _ E). exists (forget r s3). split; [done|]. split; [by apply (forget_links s3 r R')|]. split; [apply lookup_delete_eq|].
  intros q Hne. cbn. rewrite lookup_delete_ne, C5 by done. cbn. by rewrite lookup_insert_ne.
Qed.

Lemma disconnect_all_run (l : list nat) : forall s, wf_links s -> NoDup l -> (forall r, r ∈ l -> is_Some (remote_heap s !! r)) ->
  exists s', disconnect_all l s = Ret tt s' /\ wf_links s' /\ forall r, remote_heap s' !! r = if decide (r ∈ l) then None else remote_heap s !! r.
Proof.
  induction l as [|r l IH]; intros s W Hn Hl; [exists s; split_and!; try done; intros r; by rewrite decide_False by set_solver|].
  apply NoDup_cons in Hn as [Hr Hn]. destruct (Hl r ltac:(left)) as [R HR]. destruct (disconnect_links s r R W HR) as (s1 & E1 & W1 & H1 & O1).
  destruct (IH s1 W1 Hn) as (s2 & E2 & W2 & H2); [intros q Hq; rewrite O1 by (by intros ->); apply Hl; by right|].
  exists s2. cbn [disconnect_all]. rewrite (bind_Ret _ _ _ _ _ E1). split; [done|]. split; [done|]. intros q. rewrite (H2 q). destruct (decide (q = r)) as [->|Hne].
  - rewrite (decide_False (P := r ∈ l)), (decide_True (P := r ∈ r :: l)) by (done || left). done.
  - rewrite O1 by done. destruct (decide (q ∈ l)); [by rewrite decide_True by (by right)|]. rewrite decide_False; [done|]. by intros [->|?]%elem_of_cons.
Qed.

Context (Hd : forall A (g : gmap (list Z) A), dh_order A g ≡ₚ map_to_list g).

(** C34: shutting down.  After any history of clients that neither queue for a
    name nor replace an owner, freeing the server returns: every remote, the
    bus included, and every service is freed once, no name is left, and nothing
    is used after it is freed. *)
Theorem server_freed (s : Server) : reachable s -> exists s', adbus_serv_free s = Ret tt s' /\ remote_heap s' = ∅ /\ service_heap s' = ∅ /\ names s' = ∅ /\ remotes s' = [].
Proof.
  intros [Wr Wl]%reachable_wf%wf_split. destruct (wr_list s Wr) as [Hn Hl].
  destruct (disconnect_all_run (remotes s) s Wl Hn) as (s1 & E1 & W1 & H1); [intros r; apply Hl|].
  assert (Er : remote_heap s1 = ∅).
  { apply map_empty. intros r. rewrite (H1 r). case_decide as Hr; [done|]. destruct (remote_heap s !! r) as [R|] eqn:E; [|done]. destruct Hr. apply Hl. by exists R. }
  assert (Ev : service_heap s1 = ∅).
  { apply map_empty. intros v. destruct (service_heap s1 !! v) as [x|] eqn:E; [|done]. destruct (wl_owner s1 W1 v x E) as (o & R & _ & HR & _). by rewrite Er, lookup_empty in HR. }
  assert (En : names s1 = ∅).
  { apply map_empty. intros n. destruct (names s1 !! n) as [v|] eqn:E; [|done]. destruct (wl_names s1 W1 n v E) as (x & Hx & _). by rewrite Ev, lookup_empty in Hx. }
  set (s2 := with_remotes [] (remote_heap s1) s1). exists (with_names ∅ (service_heap s2) s2). split.
  - unfold adbus_serv_free. rewrite (bind_Ret get _ s s s eq_refl), (bind_Ret _ _ _ _ _ E1), (bind_Ret (modify (fun s => with_remotes [] (remote_heap s) s)) _ s1 s2 tt eq_refl), (bind_Ret get _ s2 s2 s2 eq_refl).
    assert (Eo : dh_order _ (names s2) = []) by (apply Permutation_nil_r; rewrite Hd; cbn; by rewrite En, map_to_list_empty). rewrite Eo. reflexivity.
  - cbn. by rewrite Er, Ev.
Qed.
End Free.

Lemma server_freed_witness : exists s', adbus_serv_free (B := debug_build) (fun A g => map_to_list g) sample_state = Ret tt s' /\ remote_heap s' = ∅ /\ names s' = ∅.
Proof.
  destruct (server_freed (B := debug_build) (fun A g => map_to_list g) (fun A g => reflexivity _) sample_state sample_reachable) as (s' & E & H1 & _ & H2 & _).
  exists s'. split; [exact E|]. split; [exact H1|exact H2].
Defined.
