(* ===== verification/Delivery.v ===== *)
(** The messages that the bus sends itself (adbus/server-bus.c, SendToServer;
    adbus/server-parse.c, adbus_remote_dispatch): a message of a factory gets
    the name of the bus as its sender and goes where routing sends it. *)

From Stdlib Require Import ZArith Lia.
From stdpp Require Import base option list numbers strings gmap.
From S2P Require Import Prelude Signature Iterator Values Buffer Text MatchRule Message Factory Server Registry Dispatch Receive.
Open Scope Z_scope.

(** ** The message with its sender *)
Definition as_field (h : hfield) : field := (hcode h, inner h).
Definition not_sender (h : hfield) : bool := negb (hcode h =? HEADER_SENDER).

(** The header fields after FixHeaders. *)
Definition resent (u : list Z) (hs : list hfield) : list hfield := List.filter not_sender hs ++ [HStr HEADER_SENDER STRING u].

(** The bytes are others, the rest is the same. *)
Definition with_data (d : list Z) (m : Message) : Message :=
  mkMsg d (len d) (argdata m) (argsize m) (msg_type m) (msg_flags m) (msg_serial m) (signature m) (signatureSize m) (replySerial m)
    (msg_path m) (msg_interface m) (msg_member m) (msg_error m) (msg_destination m) (msg_sender m) (msg_arguments m).

Definition resent_bytes (u : list Z) (f : MsgFactory) : list Z :=
  wire (messageType f) (flags f) (serial f) (resent u (hfields f)) (b_data (argbuf f)).
Definition resent_message (u : list Z) (f : MsgFactory) : Message :=
  with_data (resent_bytes u f) (set_string HEADER_SENDER u (parsed_message f)).

Lemma as_field_value (h : hfield) : fieldv (as_field h) = hvalue h.
Proof. by destruct h. Qed.

Lemma as_fields_value (hs : list hfield) : map fieldv (map as_field hs) = map hvalue hs.
Proof. rewrite map_map. apply map_ext, as_field_value. Qed.

Lemma as_fields_ok (hs : list hfield) : Forall field_wf hs -> Forall field_ok (map as_field hs).
Proof. intros H. apply Forall_map. eapply Forall_impl; [exact H|]. intros h Hh. change (wf 0 (fieldv (as_field h))). rewrite as_field_value. by apply hvalue_wf. Qed.

Lemma fixed_resent (u : list Z) (hs : list hfield) : fixed_fields u (map as_field hs) = map as_field (resent u hs).
Proof.
  unfold fixed_fields, resent. rewrite map_app. f_equal. induction hs as [|h hs IH]; [done|]. cbn [map List.filter]. rewrite IH.
  unfold not_sender. change (is_sender (as_field h)) with (hcode h =? HEADER_SENDER). by destruct (negb _).
Qed.

Lemma wire_header (t : MessageType) (fl n : Z) (hs : list hfield) (args : list Z) : Forall field_wf hs ->
  wire t fl n hs args = header (wire_head t fl n args) (map as_field hs) ++ args.
Proof.
  intros Hw. pose proof (header_enc_pad _ (as_fields_ok hs Hw)) as E. unfold header, wire.
  assert (Eb : wire_body hs = header_enc (map as_field hs)) by (unfold wire_body, header_enc; by rewrite as_fields_value).
  rewrite Eb, <- E, <- !app_assoc. reflexivity.
Qed.

(** *** The fields that are read *)
Lemma set_sender_set (u : list Z) (h : hfield) (x : Message) :
  happly h (set_string HEADER_SENDER u x) = if not_sender h then set_string HEADER_SENDER u (happly h x) else happly h x.
Proof.
  unfold not_sender. destruct h as [c b s|z]; cbn [hcode happly]; [|by destruct x].
  destruct (Z.eqb_spec c HEADER_SENDER) as [->|Hne]; cbn [negb]; [by destruct x|].
  unfold set_string. cbn -[Z.eqb]. by rewrite (proj2 (Z.eqb_neq _ _) Hne).
Qed.

Lemma sender_covers (u s : list Z) (hs : list hfield) : forall x,
  set_string HEADER_SENDER u (happlies hs (set_string HEADER_SENDER s x)) = set_string HEADER_SENDER u (happlies hs x).
Proof.
  induction hs as [|h hs IH]; intros x; [by destruct x|]. cbn [happlies fold_left]. fold (happlies hs). rewrite set_sender_set.
  destruct (not_sender h); [apply IH|done].
Qed.

Lemma happlies_resent (u : list Z) (hs : list hfield) (x : Message) : happlies (resent u hs) x = set_string HEADER_SENDER u (happlies hs x).
Proof.
  unfold resent. rewrite happlies_app. cbn [happlies fold_left happly]. revert x. induction hs as [|h hs IH]; intros x; [done|]. cbn [List.filter].
  destruct (not_sender h) eqn:E; cbn [happlies fold_left]; [apply IH|]. rewrite IH. destruct h as [c b s|z]; [|done].
  unfold not_sender in E. cbn [hcode] in E. apply negb_false_iff, Z.eqb_eq in E as ->. cbn [happly]. by rewrite sender_covers.
Qed.

Lemma happlies_with_data (d : list Z) (hs : list hfield) : forall x, happlies hs (with_data d x) = with_data d (happlies hs x).
Proof. induction hs as [|h hs IH]; intros x; [done|]. cbn [happlies fold_left]. fold (happlies hs). rewrite <- IH. by destruct h. Qed.

Lemma resent_read (u : list Z) (f : MsgFactory) :
  wire_message (messageType f) (flags f) (serial f) (resent u (hfields f)) (b_data (argbuf f)) = resent_message u f.
Proof.
  unfold wire_message. rewrite happlies_resent. change (wire_base _ _ _ _ _) with (with_data (resent_bytes u f) (parsed_header f)).
  by rewrite happlies_with_data, happlies_fields.
Qed.

(** The header with the sender still fits. *)
Definition sendable (u : list Z) (f : MsgFactory) : Prop := wf_factory f /\ field_text u /\ u <> [] /\ hsizes (resent u (hfields f)) <= ADBUS_MAXIMUM_ARRAY_LENGTH.

Lemma hsize_pos (h : hfield) : 0 < hsize h.
Proof. unfold hsize. destruct h as [c b s|z]; [pose proof (len_nonneg s)|]; lia. Qed.

Lemma resent_sizes (u : list Z) (hs : list hfield) : hsizes (resent u hs) <= hsizes hs + 32 + len u.
Proof.
  unfold resent. rewrite hsizes_app. assert (H : hsizes (List.filter not_sender hs) <= hsizes hs); [|change (hsizes [HStr HEADER_SENDER STRING u]) with (32 + len u + 0); lia].
  induction hs as [|h hs IH]; [done|]. pose proof (hsize_pos h). cbn [List.filter]. destruct (not_sender h); cbn [hsizes fold_right]; fold (hsizes hs); [fold (hsizes (List.filter not_sender hs))|]; lia.
Qed.

Lemma resent_wf (u : list Z) (f : MsgFactory) : sendable u f -> wf_wire (messageType f) (flags f) (serial f) (resent u (hfields f)) (b_data (argbuf f)).
Proof.
  intros (W & (Hb & Hn & Hl) & _ & Hs). pose proof (factory_wire f W) as [].
  assert (Hf : Forall field_wf (resent u (hfields f))).
  { apply Forall_app. split.
    - apply Forall_forall. intros h Hh. apply list_elem_of_In, filter_In in Hh as [Hh _]. rewrite Forall_forall in ww_fields. apply ww_fields. by apply list_elem_of_In.
    - apply Forall_cons. split; [|by apply Forall_nil]. split; [|by right; right; right; right]. repeat split; try done; lia. }
  split; try done; rewrite ?resent_read.
  - unfold resent. by destruct (List.filter not_sender (hfields f)).
  - unfold wire_body. pose proof (header_len_le _ Hf 16). lia.
  - exact (parsed_required f W).
  - intros Ha. unfold resent_message. cbn. by rewrite (proj2 (Z.ltb_lt _ _)).
Qed.

(** ** adbus_remote_dispatch *)
Section Send.
Context {B : Build} {X : Type} (send : rid -> Message -> M (Server * X) Z) (deliver : rid -> Message -> X -> X) (good : rid -> bool).
(** What the send callbacks do: they leave the server alone, do not look at
    the parsed arguments, and say whether they took the message. *)
Context (Hsend : forall r m s x, send r m (s, x) = Ret (if good r then msg_size m else -1) (s, deliver r m x)).
Context (Hargs : forall r m a x, deliver r (set_arguments a m) x = deliver r m x).

Definition on_world (r : rid) (m : Message) (w : Server * X) : Server * X := (fst w, deliver r m (snd w)).
Definition deliver_to (l : list rid) (m : Message) (x : X) : X := fold_left (fun x r => deliver r m x) l x.

Lemma deliver_all_world (m : Message) (l : list rid) : forall s x, fold_left (fun w r => on_world r m w) l (s, x) = (s, deliver_to l m x).
Proof. induction l as [|r l IH]; intros s x; [done|]. cbn [fold_left]. change (on_world r m (s, x)) with (s, deliver r m x). by rewrite IH. Qed.

(** The remote by which the server sends, between two messages. *)
Record idle (r : rid) (s : Server) (R : Remote) : Prop := {
  id_live : remote_heap s !! r = Some R;
  id_hello : haveHello R = true;
  id_sizes : headerSize R = 0 /\ msgSize R = 0 /\ parsedMsgSize R = 0 }.

(** The server after it sent: only the buffer of the remote changed. *)
Definition after_send (r : rid) (R : Remote) (b : Buffer) (s : Server) : Server :=
  with_bus (busRemote s) None (put_r r (set_sizes 0 0 0 (set_native_ true (set_dispatch b R))) s).

(** Routing does not look at the buffers of a remote. *)
Lemma recipients_put (r : rid) (R R' : Remote) (s : Server) (m : Message) : remote_heap s !! r = Some R -> matches R' = matches R ->
  recipients (put_r r R' s) m = recipients s m.
Proof.
  intros Hr Hm. unfold recipients. f_equal. cbn [remotes put_r with_remotes]. apply filter_ext. intros q. unfold listens.
  change (addressee (put_r r R' s) m) with (addressee s m). f_equal. cbn [remote_heap put_r with_remotes]. rewrite lookup_insert. case_decide as E; [|done].
  subst q. by rewrite Hr, Hm.
Qed.

Lemma routable_put (r : rid) (R : Remote) (s : Server) : routable s -> routable (put_r r R s).
Proof.
  intros [H1 H2 H3]. split; try done. intros q Hq. cbn. rewrite lookup_insert. case_decide; [by eexists|]. by apply H2.
Qed.

(** The arguments can be read, or no rule looks at them. *)
Definition args_read (s : Server) (m m' : Message) : Prop := adbus_parseargs m = Ret tt m' \/ m' = m /\ no_args s.

Lemma args_read_put (r : rid) (R R' : Remote) (s : Server) (m m' : Message) : remote_heap s !! r = Some R -> matches R' = matches R ->
  args_read s m m' -> args_read (put_r r R' s) m m'.
Proof.
  intros Hr Hm [H|[H Hn]]; [by left|right]. split; [done|]. intros q Q. cbn. rewrite lookup_insert. case_decide as E; [|apply Hn].
  intros [= <-]. rewrite Hm. by apply (Hn r).
Qed.

(** The message is sent on, whatever is done with its arguments. *)
Lemma dispatch_delivers (s : Server) (x : X) (m m' : Message) : routable s -> 0 <= msg_size m -> args_read s m m' ->
  let l := recipients s m' in
  dispatch_ send m (s, x) = Ret (if forallb good l then 0 else -1) (s, deliver_to (sent good l) m x).
Proof.
  intros Hr Hs Hp l.
  destruct (dispatch_ok fst send (fun r m w => on_world r m w) good) with (m := m) (m' := m') (s := s) (w := (s, x)) as (y & _ & E); try done.
  - intros r n [s0 x0]. apply Hsend.
  - intros r n a [s0 x0]. unfold on_world. cbn [fst snd]. by rewrite Hargs.
  - destruct Hp as [Hp|[-> _]]; [by destruct (parseargs_shape m m' Hp)|]. exists (msg_arguments m). by rewrite set_arguments_same.
  - intros r R HR. destruct Hp as [Hp|[_ Hn]]; [left; by destruct (parseargs_shape m m' Hp)|right; by apply (Hn r)].
  - unfold dispatch_. rewrite E. unfold deliver_all. by rewrite deliver_all_world.
Qed.

Lemma update_run (r : rid) (f : Remote -> Remote) (s : Server) (x : X) (R : Remote) : remote_heap s !! r = Some R ->
  update r f (s, x) = Ret tt (put_r r (f R) s, x).
Proof. intros H. by rewrite update_eq, H. Qed.

Lemma bus_remote_run (r : rid) (s : Server) (x : X) (R : Remote) : remote_heap s !! r = Some R -> on_server (get_remote r) (s, x) = Ret R (s, x).
Proof. intros H. unfold on_server. by rewrite (get_remote_ok r R s H). Qed.

(** The header of the message is fixed, its arguments follow. *)
Lemma fix_built (f : MsgFactory) (r : rid) (s : Server) (x : X) (R : Remote) (arr : list Z) : sendable (unique R) f ->
  remote_heap s !! r = Some R -> headerSize R = 0 /\ msgSize R = 0 -> r_dispatch R = mkBuf (take (Z.to_nat (len (message_bytes f) - len (b_data (argbuf f)))) (message_bytes f)) arr (Own 0) ->
  exists arr' sp' n, fix_remote r DISPATCH (s, x) = Ret 0 (put_r r (set_sizes 0 0 n (set_native_ true (set_dispatch (mkBuf
    (header (wire_head (messageType f) (flags f) (serial f) (b_data (argbuf f))) (map as_field (resent (unique R) (hfields f)))) arr' sp') R))) s, x).
Proof.
  intros (W & Hu & Hn & Hmax) HR [Hz1 Hz2] Hb. pose proof (factory_wire f W) as [].
  pose proof (wire_header (messageType f) (flags f) (serial f) (hfields f) (b_data (argbuf f)) ww_fields) as Ew. rewrite <- message_wire in Ew.
  set (h := wire_head _ _ _ _) in *. set (fs := map as_field (hfields f)) in *.
  assert (Et : take (Z.to_nat (len (message_bytes f) - len (b_data (argbuf f)))) (message_bytes f) = header h fs).
  { rewrite Ew, len_app, Z.add_simpl_r. unfold len. rewrite Nat2Z.id. apply take_app_length. }
  rewrite Et in Hb. destruct (fix_headers_run (unique R) h arr fs (mkIter 0 0 []) (native R) (parsedMsgSize R) 0 0) as (arr' & sp' & it' & E).
  { pose proof (len_wire_head (messageType f) (flags f) (serial f) (b_data (argbuf f))) as E. fold h in E. unfold len in E. lia. } { done. }
  { destruct Hu as (? & ? & ?). split_and!; [done|done|lia]. } { by apply as_fields_ok. }
  { unfold header_enc, fs. rewrite as_fields_value. exact ww_body. }
  exists arr', sp'. eexists. unfold fix_remote. rewrite (bind_Ret _ _ _ _ _ (bus_remote_run r s x R HR)).
  change (buffer_of DISPATCH R) with (r_dispatch R). rewrite Hz1, Hz2, Hb, E. cbn [fx_parsed fx_native fx_buf].
  rewrite (bind_Ret _ _ _ _ _ (update_run _ _ _ _ _ HR)). unfold ret. rewrite Hz1, Hz2. unfold fs. rewrite fixed_resent. reflexivity.
Qed.

(** The message in the buffer of the remote goes out. *)
Lemma send_buffer (f : MsgFactory) (m' : Message) (r : rid) (s : Server) (x : X) (R : Remote) : sendable (unique R) f -> routable s ->
  remote_heap s !! r = Some R -> haveHello R = true -> native R = true -> b_data (r_dispatch R) = resent_bytes (unique R) f ->
  args_read s (resent_message (unique R) f) m' ->
  let l := recipients s m' in
  DispatchMsg send r DISPATCH (s, x) = Ret (if forallb good l then 0 else -1)
    (after_send r R (adbus_buf_reset (r_dispatch R)) s, deliver_to (sent good l) (resent_message (unique R) f) x).
Proof.
  intros Hs Hr HR Hh Hn Hb Hp l. pose proof (resent_wf _ _ Hs) as W. destruct (wire_parse _ _ _ _ _ W (mkIter 0 0 []) msg_zero) as (p & Ep & Em & Epm).
  rewrite resent_read in Em. fold (resent_bytes (unique R) f) in Ep, Epm. unfold DispatchMsg. rewrite (bind_Ret _ _ _ _ _ (bus_remote_run r s x R HR)).
  change (buffer_of DISPATCH R) with (r_dispatch R). rewrite Hb, Hn.
  assert (E : parse_message true (len (resent_bytes (unique R) f)) (mkParse (resent_bytes (unique R) f) (mkIter 0 0 []) msg_zero) = Ret tt p).
  { unfold parse_message. rewrite (bind_Ret _ _ _ _ _ Ep), (bind_Ret get _ p p p eq_refl). by destruct (signature (p_msg p)). }
  rewrite E. cbv zeta. rewrite (bind_Ret _ _ _ _ _ (update_run _ _ _ _ _ HR)), Em, Hh. cbn [negb andb].
  rewrite (bind_Ret (ret tt) _ _ _ tt eq_refl). set (R1 := set_buffer _ _ _). set (s1 := put_r r R1 s).
  assert (H1 : remote_heap s1 !! r = Some R1) by apply put_r_lookup.
  assert (El : recipients s1 m' = l) by (by apply (recipients_put r R)).
  rewrite (bind_Ret _ _ _ _ _ (dispatch_delivers s1 x (resent_message (unique R) f) m' ltac:(by apply routable_put) ltac:(apply len_nonneg) (args_read_put r R R1 s _ m' HR eq_refl Hp))), El.
  rewrite (bind_Ret _ _ _ _ _ (update_run _ _ _ _ _ H1)). erewrite bind_Ret by reflexivity. cbv beta.
  erewrite bind_Ret.
  2:{ apply update_run. cbn. apply lookup_insert_eq. }
  unfold ret. f_equal. f_equal. unfold after_send. f_equal. unfold s1, put_r, with_remotes, with_bus. cbn. rewrite !insert_insert_eq.
  do 2 f_equal. unfold set_sizes, set_dispatch, set_native_, adbus_buf_reset. cbn. by rewrite Hn.
Qed.

Lemma in_memory (m : list Z) (n : Z) : 0 <= n <= len m -> in_bounds m 0 n = true.
Proof. intros H. unfold in_bounds, len in *. apply andb_true_iff. split; [|apply Z.leb_le; lia]. done. Qed.

(** The run of adbus_remote_dispatch on a message [msg] that was built. *)
Record built_from (f : MsgFactory) (msg : Message) : Prop := {
  bf_data : msg_data msg = message_bytes f;
  bf_size : msg_size msg = len (message_bytes f);
  bf_args : argdata msg = b_data (argbuf f);
  bf_argsize : argsize msg = len (b_data (argbuf f)) }.

Lemma remote_dispatch_run (f : MsgFactory) (msg m' : Message) (r : rid) (s : Server) (x : X) (R : Remote) : sendable (unique R) f -> routable s ->
  idle r s R -> built_from f msg -> args_read s (resent_message (unique R) f) m' -> exists b,
  let l := recipients s m' in
  adbus_remote_dispatch send r msg (s, x) = Ret (if forallb good l then 0 else -1)
    (after_send r R b s, deliver_to (sent good l) (resent_message (unique R) f) x).
Proof.
  intros Hs Hr [HR Hh (Z1 & Z2 & Z3)] [M1 M2 M3 M4] Hp. pose proof (len_nonneg (b_data (argbuf f))) as Hn.
  pose proof (wire_len (messageType f) (flags f) (serial f) (hfields f) (b_data (argbuf f))) as Hl. rewrite <- message_wire in Hl.
  pose proof (len_nonneg (wire_body (hfields f))). pose proof (align_bounds (16 + len (wire_body (hfields f))) 8 boundary_8).
  unfold adbus_remote_dispatch. rewrite (bind_Ret _ _ _ _ _ (bus_remote_run r s x R HR)), Z1, Z2, Z3. cbn [Z.eqb andb].
  rewrite (bind_Ret (assert_ true) _ (s, x) (s, x) tt eq_refl), M1, M2, M3, M4. cbv zeta.
  assert (I1 : in_bounds (message_bytes f) 0 (len (message_bytes f) - len (b_data (argbuf f))) = true) by (apply in_memory; lia).
  assert (I2 : in_bounds (b_data (argbuf f)) 0 (len (b_data (argbuf f))) = true) by (apply in_memory; lia).
  rewrite I1, I2, (bind_Ret _ _ _ _ _ (update_run _ _ _ _ _ HR)). set (R1 := set_dispatch _ R). set (s1 := put_r r R1 s).
  destruct (fix_built f r s1 x R1 (b_sig (InitBuffer (r_dispatch R)))) as (arr & sp & n & E); [done|apply put_r_lookup|done|done|].
  rewrite (bind_Ret _ _ _ _ _ E). cbn [Z.eqb negb]. unfold s1. rewrite put_r_twice. set (R2 := set_sizes _ _ _ _).
  rewrite (bind_Ret _ _ _ _ _ (update_run _ _ _ _ _ (put_r_lookup r R2 s))), put_r_twice. set (R3 := set_dispatch _ R2).
  assert (Hb : b_data (r_dispatch R3) = resent_bytes (unique R3) f).
  { change (unique R3) with (unique R). unfold resent_bytes. rewrite wire_header by apply (ww_fields _ _ _ _ _ (resent_wf _ _ Hs)). cbn.
    f_equal. rewrite firstn_all2; [done|]. unfold len. lia. }
  rewrite (send_buffer f m' r (put_r r R3 s) x R3 Hs (routable_put _ _ _ Hr) (put_r_lookup _ _ _) Hh eq_refl Hb (args_read_put r R R3 s _ m' HR eq_refl Hp)).
  rewrite (recipients_put r R R3 s m' HR eq_refl). eexists. cbv zeta. f_equal. f_equal. unfold after_send. rewrite put_r_twice. reflexivity.
Qed.

(** C18: what the bus sends goes where it is to go: a message that a factory
    built and the bus sends itself (a signal or a reply) is delivered with the
    type, serial, path, interface, member, error, destination, reply serial and
    arguments of the factory, and with the unique name of the bus as its
    sender, also when the factory held another sender.  It goes to every remote
    with a rule for it and then to its addressee, to nobody else and to nobody
    twice; the server is as it was, but for a buffer of the bus. *)
Theorem resent_routes (f : MsgFactory) (m' : Message) (r : rid) (s : Server) (x : X) (R : Remote) : sendable (unique R) f -> routable s -> idle r s R ->
  args_read s (resent_message (unique R) f) m' -> exists msg f' b m,
  adbus_msg_build f = Ret msg f' /\ m = resent_message (unique R) f /\ NoDup (recipients s m') /\
  adbus_remote_dispatch send r msg (s, x) =
    Ret (if forallb good (recipients s m') then 0 else -1) (after_send r R b s, deliver_to (sent good (recipients s m')) m x) /\
  msg_sender m = Some (unique R) /\ msg_type m = messageType f /\ msg_serial m = serial f /\ replySerial m = replySerial msg /\
  msg_path m = field_str (f_path f) /\ msg_interface m = field_str (f_interface f) /\ msg_member m = field_str (f_member f) /\
  msg_error m = field_str (f_error f) /\ msg_destination m = field_str (f_destination f) /\ signature m = signature msg /\ argdata m = b_data (argbuf f).
Proof.
  intros Hs Hr Hi Hp. pose proof Hs as [W _]. destruct (msg_build_ok f W) as (arr & sp & E). cbv zeta in E. set (f' := set_buf _ f) in *.
  assert (Hb : built_from f (built_message f')) by (split; [done|done|by apply built_args|done]).
  destruct (remote_dispatch_run f _ m' r s x R Hs Hr Hi Hb Hp) as (b & Eb). exists (built_message f'), f', b, (resent_message (unique R) f).
  split; [exact E|]. split; [done|]. split; [by apply recipients_nodup, ro_nodup|]. split; [exact Eb|]. repeat split.
Qed.
End Send.

(** ** Samples *)
Section Samples.
#[local] Existing Instance debug_build.
#[local] Opaque sample_state.

(** The bus answers call 7 of client 2 with a number; the factory names another
    sender. *)
Definition sample_reply : MsgFactory :=
  let f := adbus_msg_setdestination (str ":1.0") (-1) (adbus_msg_setsender (str ":1.1") (-1) (adbus_msg_setserial 3 (adbus_msg_setreply 7 (adbus_msg_settype MSG_RETURN adbus_msg_new)))) in
  match (run* adbus_buf_setsig (str "u") (-1) in adbus_buf_u32 42)%adbus (argbuf f) with Ret _ b => mkFactory (buf f) b (messageType f) (flags f) (serial f) (argumentOffset f) (f_replySerial f)
    (hasReplySerial f) (f_path f) (f_interface f) (f_member f) (f_error f) (f_destination f) (f_sender f) | _ => f end.

Definition to_list (r : rid) (m : Message) (x : list (rid * Message)) : list (rid * Message) := x ++ [(r, set_arguments None m)].
Definition send_list (r : rid) (m : Message) : M (Server * list (rid * Message)) Z := fun '(s, x) => Ret (msg_size m) (s, to_list r m x).

Definition remote_view (r : nat) : option (list Z * bool * Z * Z * Z) :=
  option_map (fun R => (unique R, haveHello R, headerSize R, msgSize R, parsedMsgSize R)) (remote_heap sample_state !! r).
Lemma view_remote (r : nat) (u : list Z) : remote_view r = Some (u, true, 0, 0, 0) -> exists R, idle r sample_state R /\ unique R = u.
Proof.
  unfold remote_view. destruct (remote_heap sample_state !! r) as [R|] eqn:E; intros H; [|discriminate H]. injection H as H1 H2 H3 H4 H5.
  exists R. split; [|exact H1]. split; [exact E|exact H2|]. split; [exact H3|split; [exact H4|exact H5]].
Qed.

Lemma filter_none {A} (p : A -> bool) (l : list A) : (forall x, In x l -> p x = false) -> List.filter p l = [].
Proof. induction l as [|x l IH]; intros H; [done|]. cbn. rewrite (H x) by (by left). apply IH. intros y Hy. apply H. by right. Qed.

Lemma sample_plain (m : Message) : recipients sample_state m = option_list (addressee sample_state m).
Proof.
  assert (H : forallb (fun r => match remote_heap sample_state !! r with Some R => match matches R with [] => true | _ => false end | None => true end) (remotes sample_state) = true)
    by (vm_compute; reflexivity).
  unfold recipients. rewrite (filter_none (listens sample_state m)); [reflexivity|]. intros r Hr. rewrite forallb_forall in H. specialize (H r Hr). unfold listens.
  destruct (remote_heap sample_state !! r) as [R|]; [|by rewrite andb_false_r]. destruct (matches R); [by rewrite andb_false_r|discriminate H].
Qed.

Lemma sample_owners : owner sample_state (str ":1.0") = Some 2%nat /\ owner sample_state (str ":1.1") = Some 4%nat.
Proof. vm_compute. split; reflexivity. Qed.

Lemma sample_sendable : sendable BUS_NAME sample_reply.
Proof.
  split; [|split; [by apply short_text|split; [done|by vm_compute]]].
  apply wf_short; try reflexivity; try (split; [discriminate|reflexivity]); try (by apply short_text).
Qed.

Lemma resent_routes_witness : exists msg f' s' m, adbus_msg_build sample_reply = Ret msg f' /\ adbus_remote_dispatch send_list 0%nat msg (sample_state, []) = Ret 0 (s', [(2%nat, m)]) /\
  msg_sender m = Some BUS_NAME /\ replySerial m = Some 7 /\ argdata m = le_bytes 4 42.
Proof.
  assert (V : remote_view 0 = Some (BUS_NAME, true, 0, 0, 0)) by (vm_compute; reflexivity). apply view_remote in V as (R & Hi & Hu).
  set (m := resent_message BUS_NAME sample_reply).
  destruct (adbus_parseargs m) as [[] m'| | | |] eqn:Ep; [|vm_compute in Ep; discriminate Ep..].
  destruct (resent_routes send_list to_list (fun _ => true) (fun r n s x => eq_refl) (fun r n a x => eq_refl) sample_reply m' 0%nat sample_state [] R) as (msg & f' & b & m1 & E1 & E2 & _ & E3 & S1 & _ & _ & S4 & _ & _ & _ & _ & _ & _ & S5).
  - rewrite Hu. exact sample_sendable.
  - apply wf_routable, sample_wf.
  - exact Hi.
  - rewrite Hu. left. exact Ep.
  - exists msg, f', (after_send 0 R b sample_state), m1. split; [exact E1|]. rewrite Hu in E2, S1. subst m1. split; [|split; [exact S1|split; [|exact S5]]].
    + rewrite E3. rewrite sample_plain. assert (Ea : addressee sample_state m' = Some 2%nat).
      { destruct (parseargs_shape m m' Ep) as [[a ->] _]. exact (proj1 sample_owners). }
      rewrite Ea. reflexivity.
    + rewrite S4. vm_compute in E1. injection E1 as <- _. reflexivity.
Defined.
End Samples.
