(* ===== verification/Announce.v ===== *)
(** The signals of the bus (adbus/server-bus.c, adbusI_serv_ownerchanged): the
    message of each is made by the signal and the factory, sent by the
    connection of the bus, and routed by the server it belongs to. *)

From Stdlib Require Import ZArith Lia.
From stdpp Require Import base option list numbers strings gmap.
From S2P Require Import Prelude Objects Names Signature Iterator Values Buffer MatchRule Message Factory Client Watching Answering Signals Unbinding Teardown Bus Server Registry Dispatch Receive Delivery.
#[local] Open Scope Z_scope.
#[local] Open Scope adbus_scope.

(** ** The interface of the bus

    The first part of adbusI_serv_initbus; [handler] is the address of the
    function with the name of a method. *)
Section Interface.
Context {B : Build} (handler : list Z -> Objects.callback) (i : Objects.iid).

Definition with_method (name : list Z) : M Objects.Conn (list Z) :=
  let* m := Objects.adbus_iface_addmethod i name (-1) in
  run* Objects.member_do i m (Objects.adbus_mbr_setmethod (Some (handler name)) Objects.Null) in
  ret m.
Definition argsig_ (m s : list Z) : M Objects.Conn unit := Objects.member_do i m (Objects.adbus_mbr_argsig s (-1)).
Definition retsig_ (m s : list Z) : M Objects.Conn unit := Objects.member_do i m (Objects.adbus_mbr_retsig s (-1)).
Definition argname_ (m s : list Z) : M Objects.Conn unit := Objects.member_do i m (Objects.adbus_mbr_argname s (-1)).
Definition retname_ (m s : list Z) : M Objects.Conn unit := Objects.member_do i m (Objects.adbus_mbr_retname s (-1)).

Definition init_methods : M Objects.Conn unit :=
  let* m := with_method (str "Hello") in
  run* retsig_ m (str "s") in
  run* retname_ m (str "unique_id") in
  let* m := with_method (str "RequestName") in
  run* argsig_ m (str "su") in
  run* argname_ m (str "name") in
  run* argname_ m (str "flags") in
  run* retsig_ m (str "u") in
  let* m := with_method (str "ReleaseName") in
  run* argsig_ m (str "s") in
  run* argname_ m (str "name") in
  run* retsig_ m (str "u") in
  let* m := with_method (str "ListNames") in
  run* retsig_ m (str "as") in
  let* m := with_method (str "NameHasOwner") in
  run* argsig_ m (str "s") in
  run* retsig_ m (str "b") in
  let* m := with_method (str "GetNameOwner") in
  run* argsig_ m (str "s") in
  run* retsig_ m (str "s") in
  let* m := with_method (str "AddMatch") in
  run* argsig_ m (str "s") in
  run* argname_ m (str "match_string") in
  let* m := with_method (str "RemoveMatch") in
  run* argsig_ m (str "s") in
  argname_ m (str "match_string").

(** The signature of NameLost is given to [acquiredsig]. *)
Definition init_signals : M Objects.Conn (list Z * list Z * list Z) :=
  let* changedsig := Objects.adbus_iface_addsignal i (str "NameOwnerChanged") (-1) in
  run* argsig_ changedsig (str "sss") in
  run* argname_ changedsig (str "name") in
  run* argname_ changedsig (str "old_owner") in
  run* argname_ changedsig (str "new_owner") in
  let* acquiredsig := Objects.adbus_iface_addsignal i (str "NameAcquired") (-1) in
  run* argsig_ acquiredsig (str "s") in
  let* lostsig := Objects.adbus_iface_addsignal i (str "NameLost") (-1) in
  run* argsig_ acquiredsig (str "s") in
  ret (changedsig, acquiredsig, lostsig).
End Interface.

(** ** The side of the bus that is a client

    The connection of the bus (0 among the connections that Signals works on),
    its three signals, and what the send callbacks of the remotes were called
    with, SendToBus included. *)
Record Side := mkSide {
  busConnection : Client; nameOwnerChanged : Signal; nameAcquired : Signal; nameLost : Signal; outbox : list (rid * Message) }.
Definition set_busConnection (c : Client) (x : Side) : Side := mkSide c (nameOwnerChanged x) (nameAcquired x) (nameLost x) (outbox x).

Inductive which := CHANGED | ACQUIRED | LOST.
#[export] Instance which_eq_dec : EqDecision which.
Proof. solve_decision. Defined.
Definition signal (k : which) (x : Side) : Signal :=
  match k with CHANGED => nameOwnerChanged x | ACQUIRED => nameAcquired x | LOST => nameLost x end.
Definition set_signal (k : which) (g : Signal) (x : Side) : Side :=
  match k with
  | CHANGED => mkSide (busConnection x) g (nameAcquired x) (nameLost x) (outbox x)
  | ACQUIRED => mkSide (busConnection x) (nameOwnerChanged x) g (nameLost x) (outbox x)
  | LOST => mkSide (busConnection x) (nameOwnerChanged x) (nameAcquired x) g (outbox x)
  end.

Definition BUS_PATH : list Z := str "/org/freedesktop/DBus".

Section Bus.
Context {B : Build} (dh_order : forall A : Type, gmap (list Z) A -> list (list Z * A)).
(** Which remotes take what is sent to them. *)
Context (good : rid -> bool).

Definition deliver (r : rid) (m : Message) (x : Side) : Side :=
  mkSide (busConnection x) (nameOwnerChanged x) (nameAcquired x) (nameLost x) (outbox x ++ [(r, set_arguments None m)]).
Definition send (r : rid) (m : Message) : M (Server * Side) Z := fun '(s, x) =>
  Ret (if good r then msg_size m else -1) (s, deliver r m x).

(** *** The second part of adbusI_serv_initbus *)
Definition one_client (c : Client) : gmap cid Client := {[ 0%nat := c ]}.
Definition sig_of_member (i : Objects.iid) (name : list Z) : M (gmap cid Client) Signal :=
  let* x := on_client 0%nat (on_part (Objects.iface i)) in
  let* m := of_option (Objects.members x !! name) in
  adbus_sig_new 0%nat m.

Definition init_side (handler : list Z -> Objects.callback) (i : Objects.iid) (server : Objects.pointer) : M (gmap cid Client) (Signal * Signal * Signal) :=
  run* on_client 0%nat (on_part (init_methods handler i)) in
  let* n := on_client 0%nat (on_part (init_signals i)) in
  let '(changedsig, acquiredsig, lostsig) := n in
  let* changed := sig_of_member i changedsig in
  let* acquired := sig_of_member i acquiredsig in
  let* lost := sig_of_member i lostsig in
  let b p := Objects.mkBindArgs p (-1) i (Objects.mkHooks server None Objects.Null None None Objects.Null Objects.Null None Objects.Null) in
  run* on_client 0%nat (on_part (Objects.adbus_conn_bind (b (str "/")))) in
  run* on_client 0%nat (on_part (Objects.adbus_conn_bind (b BUS_PATH))) in
  ret (adbus_sig_bind changed 0%nat BUS_PATH (-1), adbus_sig_bind acquired 0%nat BUS_PATH (-1), adbus_sig_bind lost 0%nat BUS_PATH (-1)).

(** *** Sending *)
Definition on_bus {A} (op : M (gmap cid Client) A) : M (Server * Side) A := fun '(s, x) =>
  match op (one_client (busConnection x)) with
  | Ret a w => match w !! 0%nat with Some c => Ret a (s, set_busConnection c x) | None => Oob end
  | Err w => match w !! 0%nat with Some c => Err (s, set_busConnection c x) | None => Oob end
  | Abort => Abort | Oob => Oob | Nofuel => Nofuel
  end.

(** SendToServer: what it returns is not looked at by the signal. *)
Definition SendToServer (m : Message) : M (Server * Side) Z :=
  let* w := get in
  let* r := of_option (busRemote (fst w)) in
  let* z := adbus_remote_dispatch send r m in
  ret (if z =? 0 then msg_size m else -1).

Fixpoint forward (l : list Client.event) : M (Server * Side) unit :=
  match l with
  | [] => ret tt
  | Client.Sent m :: l => run* SendToServer m in forward l
  | _ :: l => forward l
  end.

(** [adbus_sig_emit] with a connection whose send callback is SendToServer: a
    signal of the bus is bound once, so it sends one message, and nothing after
    the call of the callback looks at the connection or the server. *)
Definition emit_bus (g : Signal) : M (Server * Side) Signal :=
  let* w := get in
  let* g := on_bus (adbus_sig_emit (Some msg_size) g) in
  let* w' := get in
  run* forward (drop (length (log (busConnection (snd w)))) (log (busConnection (snd w')))) in
  ret g.

(** *** adbusI_serv_ownerchanged *)
Definition on_message (op : M Buffer unit) (g : Signal) : M (Server * Side) Signal :=
  let* m := of_option (s_message g) in
  match op (argbuf m) with
  | Ret _ b => ret (set_message (Some (set_argbuf b m)) g)
  | Err _ => err | Abort => fun _ => Abort | Oob => oob | Nofuel => nofuel
  end.
Fixpoint add_strings (l : list (list Z)) (g : Signal) : M (Server * Side) Signal :=
  match l with
  | [] => ret g
  | s :: l => let* g := on_message (adbus_buf_string s (-1)) g in add_strings l g
  end.
Definition address_to (dest : option (list Z)) (g : Signal) : M (Server * Side) Signal :=
  match dest with
  | None => ret g
  | Some d => let* m := of_option (s_message g) in ret (set_message (Some (adbus_msg_setdestination d (-1) m)) g)
  end.

(** One of the three: message, destination, signature, arguments, emit. *)
Definition announce (k : which) (dest : option (list Z)) (sig : list Z) (args : list (list Z)) : M (Server * Side) unit :=
  let* w := get in
  let* g := on_bus (adbus_sig_msg (signal k (snd w))) in
  let* g := address_to dest g in
  let* g := on_message (adbus_buf_setsig sig (-1)) g in
  let* g := add_strings args g in
  let* g := emit_bus g in
  modify (fun w => (fst w, set_signal k g (snd w))).

Definition serv_ownerchanged (name : list Z) (oldowner newowner : option rid) : M (Server * Side) unit :=
  let* n := on_server (get_owner newowner) in
  run* assert_ (match n with Some x => haveHello x | None => true end) in
  let* o := on_server (get_owner oldowner) in
  let o := match o with Some x => if haveHello x then Some x else None | None => None end in
  run* announce CHANGED None (str "sss") [name; owner_name o; owner_name n] in
  run* (match o with Some x => announce LOST (Some (unique x)) (str "s") [name] | None => ret tt end) in
  match n with Some x => announce ACQUIRED (Some (unique x)) (str "s") [name] | None => ret tt end.

(** *** adbusI_serv_freebus

    The result says whether the connection was freed. *)
Definition adbusI_serv_freebus : M (Server * Side) bool :=
  let* w := get in
  let x := snd w in
  run* on_bus (adbus_sig_free dh_order (nameOwnerChanged x)) in
  run* on_bus (adbus_sig_free dh_order (nameAcquired x)) in
  run* on_bus (adbus_sig_free dh_order (nameLost x)) in
  on_bus (on_client 0%nat (adbus_conn_deref dh_order (Some msg_size) None)).
End Bus.

(** ** Arguments that are strings *)
Definition strings (l : list (list Z)) : list value := map (VStr STRING) l.
Definition string_args (l : list (list Z)) : list Argument := map (fun s => mkArg (Some s) (len s)) l.
Definition strings_sig (l : list (list Z)) : list Z := sigs_of (map ty_of (strings l)).

Section Strings.
Context {B : Build}.

Lemma strings_sig_cons (s : list Z) (l : list (list Z)) : strings_sig (s :: l) = chr "s" :: strings_sig l.
Proof. reflexivity. Qed.

Lemma strings_wf (l : list (list Z)) : Forall field_text l -> forall p, wfs p (strings l).
Proof.
  induction 1 as [|s l (Hb & Hn & Hl) _ IH]; intros p; [done|]. split; [|apply IH]. repeat split; try done. lia.
Qed.

Lemma strings_canon (l : list (list Z)) : fold_right (fun v P => canon v /\ P) True (strings l).
Proof. induction l; [done|]. by split. Qed.

(** Reading them. *)
Lemma strings_loop (d : list Z) (l : list (list Z)) : Forall field_text l -> forall p sz acc, at_ d p (encs p (strings l)) -> len (encs p (strings l)) <= sz ->
  exists i, while_ (length l) (fun s => negb (deref (sig (fst s)) =? 0)) (parse_arg d) (mkIter p sz (strings_sig l), acc) = Ret tt (i, acc ++ string_args l).
Proof.
  induction 1 as [|s l (Hb & Hn & Hl) _ IH]; intros p sz acc Hat Hsz.
  - eexists. cbn. by rewrite app_nil_r.
  - change (encs p (strings (s :: l))) with (enc p (VStr STRING s) ++ encs (p + len (enc p (VStr STRING s))) (strings l)) in *.
    rewrite len_app in Hsz. pose proof (len_nonneg (encs (p + len (enc p (VStr STRING s))) (strings l))). change (enc p (VStr STRING s)) with (enc_string p s) in *.
    assert (Hs : at_ d (p + pad p 4 + 4) s) by (apply at_string; by apply at_app in Hat as [Hat _]).
    pose proof (string32_ok d (chr "s") p sz (chr "s" :: strings_sig l) s _ eq_refl Hat Hn ltac:(lia) ltac:(lia)) as E.
    apply at_app in Hat as [_ Hat]. destruct (IH (p + len (enc_string p s)) (sz - len (enc_string p s)) (acc ++ [mkArg (Some s) (len s)]) Hat ltac:(lia)) as (i & Ei).
    exists i. cbn [length while_ fst sig]. rewrite strings_sig_cons. cbn [deref hd]. change (negb (chr "s" =? 0)) with true. cbv iota.
    erewrite bind_Ret.
    2:{ unfold parse_arg. cbn [sig deref hd]. rewrite Z.eqb_refl. unfold adbus_iter_string. rewrite E. reflexivity. }
    cbn [tl]. unfold len at 3. rewrite Nat2Z.id, (slice_at d s) by done. rewrite Ei. by rewrite <- app_assoc.
Qed.

Lemma strings_parse (m : Message) (l : list (list Z)) : Forall field_text l -> l <> [] -> msg_arguments m = None -> signature m = Some (strings_sig l) ->
  argdata m = encs 0 (strings l) -> argsize m = len (argdata m) -> adbus_parseargs m = Ret tt (set_arguments (Some (string_args l)) m).
Proof.
  intros Hl Hn Ha Hs Hd Hz. unfold adbus_parseargs. rewrite Ha, Hs, Hz, Hd. assert (El : length (strings_sig l) = length l) by (clear; induction l; cbn; [done|by f_equal]).
  destruct (strings_loop (encs 0 (strings l)) l Hl 0 (len (encs 0 (strings l))) [] (at_self _) ltac:(lia)) as (i & E). rewrite El, E.
  destruct l; [done|]. reflexivity.
Qed.

(** Writing them. *)
Lemma add_strings_run (l : list (list Z)) : Forall field_text l -> forall (g : Signal) (m : MsgFactory) (w : Server * Side) (b : Buffer), s_message g = Some m ->
  seq_run write (strings l) (argbuf m) = Ret tt b -> add_strings l g w = Ret (set_message (Some (set_argbuf b m)) g) w.
Proof.
  induction 1 as [|s l (Hb & Hn & Hl) _ IH]; intros g m w b Hm E.
  - cbn in E. injection E as <-. cbn. unfold ret. f_equal. destruct g, m; cbn in Hm; by subst.
  - cbn [strings map seq_run write write_str] in E. unfold bind at 1 in E. destruct (adbus_buf_string s (len s) (argbuf m)) as [[] b1| | | |] eqn:E1; try done.
    cbn [add_strings]. erewrite bind_Ret.
    2:{ unfold on_message. rewrite Hm, (bind_Ret (of_option (Some m)) _ _ _ _ eq_refl), string_size, E1 by (by right). reflexivity. }
    rewrite (IH (set_message (Some (set_argbuf b1 m)) g) (set_argbuf b1 m) w b eq_refl E). done.
Qed.

Lemma strings_write (l : list (list Z)) (arr : list Z) : Forall field_text l -> cstr arr = strings_sig l ->
  exists sp, seq_run write (strings l) (mkBuf [] arr (Own 0)) = Ret tt (mkBuf (encs 0 (strings l)) arr sp) /\ at_sigptr arr sp = Some [].
Proof.
  intros Hl Ha. destruct (written_seq (strings l)) with (p := 0) (d := @nil Z) (arr := arr) (sp := Own 0) (r := @nil Z) as (sp & E & Hs); try done.
  - apply Forall_forall. intros v _. apply written_all.
  - by apply strings_wf.
  - apply strings_canon.
  - cbn [at_sigptr]. by rewrite drop_0, app_nil_r, Ha.
  - by exists sp.
Qed.
End Strings.

(** ** One signal *)

(** A signal of the bus: its member, and its only bind. *)
Record signal_ok (c : Client) (name : list Z) (g : Signal) : Prop := {
  so_message : is_Some (s_message g);
  so_binds : s_binds g = [mkSigBind 0%nat BUS_PATH];
  so_home : s_home g = 0%nat;
  so_name : Objects.m_name (s_member g) = name;
  so_argsig : no_nul (Objects.argsig (s_member g)) /\ len (Objects.argsig (s_member g)) <= 255;
  so_interface : exists i, Objects.ifaces (conn c) !! Objects.m_interface (s_member g) = Some i /\ Objects.i_name i = BUS_NAME }.

Definition member_name (k : which) : list Z :=
  match k with CHANGED => str "NameOwnerChanged" | ACQUIRED => str "NameAcquired" | LOST => str "NameLost" end.

(** The bus is ready to announce. *)
Record side_ok (x : Side) : Prop := {
  sd_serial : 1 <= nextSerial (busConnection x) < 2 ^ 32;
  sd_signal : forall k, signal_ok (busConnection x) (member_name k) (signal k x) }.

(** What is sent for the strings [args] with signature buffer [arr] and serial
    [n], when [m] is the message of the signal before. *)
Definition told (dest : option (list Z)) (args : list (list Z)) (arr : list Z) (sp : sigptr) (m : MsgFactory) : MsgFactory :=
  set_argbuf (mkBuf (encs 0 (strings args)) arr sp)
    (match dest with Some d => adbus_msg_setdestination d (-1) (adbus_msg_reset m) | None => adbus_msg_reset m end).
Definition named (name : list Z) (f : MsgFactory) : MsgFactory :=
  adbus_msg_setinterface BUS_NAME (len BUS_NAME) (adbus_msg_setmember name (len name) f).
Definition sent_factory (name : list Z) (dest : option (list Z)) (args : list (list Z)) (arr : list Z) (sp : sigptr) (m : MsgFactory) (n : Z) : MsgFactory :=
  signal_factory BUS_PATH n (named name (told dest args arr sp m)).

Section One.
Context {B : Build}.

Lemma bus_text : field_text BUS_NAME /\ field_text BUS_PATH.
Proof. split; by apply short_text; vm_compute. Qed.

Lemma name_text (k : which) : field_text (member_name k) /\ member_name k <> [].
Proof. destruct k; (split; [by apply short_text; vm_compute|done]). Qed.

Lemma no_nul_strings (l : list (list Z)) : no_nul (strings_sig l).
Proof. unfold strings_sig. induction l as [|s l IH]; [by apply Forall_nil|]. by apply Forall_cons. Qed.

(** At most three strings. *)
Record announced (dest : option (list Z)) (args : list (list Z)) (arr : list Z) (sp : sigptr) : Prop := {
  an_dest : forall d, dest = Some d -> field_text d;
  an_args : Forall field_text args;
  an_few : (length args <= 3)%nat;
  an_some : args <> [];
  an_sig : cstr arr = strings_sig args;
  an_end : at_sigptr arr sp = Some [] }.

Lemma strings_len (l : list (list Z)) : Forall field_text l -> forall p, len (encs p (strings l)) <= Z.of_nat (length l) * (2 ^ 20 + 8).
Proof.
  induction 1 as [|s l (_ & _ & Hl) _ IH]; intros p; [done|].
  change (encs p (strings (s :: l))) with (enc_string p s ++ encs (p + len (enc_string p s)) (strings l)).
  rewrite len_app, len_enc_string. specialize (IH (p + len (enc_string p s))). pose proof (pad_bounds p 4 boundary_4). rewrite len_enc_string in IH. cbn [length]. lia.
Qed.

Lemma strings_sig_len (l : list (list Z)) : len (strings_sig l) = Z.of_nat (length l).
Proof. induction l as [|s l IH]; [done|]. rewrite strings_sig_cons, len_cons, IH. cbn [length]. lia. Qed.

Lemma strings_sig_bytes (l : list (list Z)) : bytes (strings_sig l).
Proof. induction l as [|s l IH]; [apply Forall_nil; done|]. rewrite strings_sig_cons. apply Forall_cons. split; [by vm_compute|done]. Qed.

Lemma sent_sendable (k : which) (dest : option (list Z)) (args : list (list Z)) (arr : list Z) (sp : sigptr) (m : MsgFactory) (n : Z) :
  announced dest args arr sp -> 1 <= n < 2 ^ 32 -> sendable BUS_NAME (sent_factory (member_name k) dest args arr sp m n).
Proof.
  intros [Hd Ha Hf Hs Hg He] Hn. set (f := sent_factory _ _ _ _ _ _ _). destruct bus_text as [Tn Tp]. destruct (name_text k) as [Tm Tm'].
  assert (F1 : f_interface f = BUS_NAME) by (by destruct dest). assert (F2 : f_member f = member_name k).
  { transitivity (str_arg (member_name k) (len (member_name k))); [by destruct dest|by rewrite str_arg_len]. }
  assert (F3 : f_error f = []) by (by destruct dest). assert (F4 : f_sender f = []) by (by destruct dest). assert (F5 : f_path f = BUS_PATH) by (by destruct dest).
  assert (F6 : field_text (f_destination f)).
  { destruct dest as [d|]; [|by apply field_text_nil]. destruct (Hd d eq_refl) as (? & Hnn & ?). change (f_destination f) with (cstr d). by rewrite cstr_no_nul. }
  assert (F7 : argbuf f = mkBuf (encs 0 (strings args)) arr sp) by (by destruct dest).
  assert (F8 : adbus_buf_sig (argbuf f) = strings_sig args) by (by rewrite F7).
  pose proof (strings_len args Ha 0). pose proof (strings_sig_len args).
  assert (G : len (adbus_buf_sig (argbuf f)) < 255) by (rewrite F8; lia).
  assert (W : wf_factory f).
  { apply wf_short; rewrite ?F1, ?F2, ?F3, ?F4, ?F5; try done; try by apply field_text_nil.
    - unfold ready. change (messageType f) with MSG_SIGNAL. rewrite F1, F2. apply andb_true_iff. split; [done|]. by destruct k.
    - change (serial f) with n. lia.
    - assert (E : f_replySerial f = 0) by (by destruct dest). lia.
    - rewrite F8. apply strings_sig_bytes.
    - rewrite F7. cbn [b_data]. lia. }
  split; [done|]. split; [done|]. split; [done|]. pose proof (resent_sizes BUS_NAME (hfields f)) as R.
  assert (Hs2 : hsizes (hfields f) <= 8 * 32 + 6 * 2 ^ 20 + 255) by (apply hsizes_short; rewrite ?F1, ?F2, ?F3, ?F4, ?F5; try done; by apply field_text_nil).
  unfold ADBUS_MAXIMUM_ARRAY_LENGTH. change (len BUS_NAME) with 20 in R. lia.
Qed.
End One.

Section Announce.
Context {B : Build}.

(** The signal sends one message on its connection. *)
Lemma emit_one (k : which) (g : Signal) (c : Client) (dest : option (list Z)) (args : list (list Z)) (arr : list Z) (sp : sigptr) (m : MsgFactory) :
  signal_ok c (member_name k) g -> 1 <= nextSerial c < 2 ^ 32 -> announced dest args arr sp -> exists n msg m' c',
  adbus_sig_emit (Some msg_size) (set_message (Some (told dest args arr sp m)) g) (one_client c) = Ret (set_message (Some m') g) (one_client c') /\
  1 <= n < 2 ^ 32 /\ built_from (sent_factory (member_name k) dest args arr sp m n) msg /\ log c' = log c ++ [Sent msg] /\ conn c' = conn c /\ 1 <= nextSerial c' < 2 ^ 32.
Proof.
  intros [_ Hb Hh Hm [G1 G2] (i & Hi & Ei)] Hc Ha. destruct (serial_step c Hc) as [Es Hk]. cbv zeta in Es. set (n := serial_now (nextSerial c)) in *.
  pose proof (sent_sendable k dest args arr sp m n Ha ltac:(lia)) as (W & _). set (f := told dest args arr sp m). set (F := sent_factory _ _ _ _ _ _ n) in *.
  destruct (msg_build_ok F W) as (arr' & sp' & Eb). cbv zeta in Eb. set (h := set_buf _ F) in Eb. set (c1 := set_log (log c ++ [Sent (built_message h)]) (set_nextSerial (n + 1) c)).
  destruct (sig_msg_run (set_message (Some h) g) h (one_client c1) eq_refl G1 G2) as (arr2 & E2 & _).
  exists n, (built_message h), (set_argbuf (mkBuf [] arr2 (Own 0)) (adbus_msg_reset h)), c1.
  split; [|split; [lia|split; [split; [done|done|by apply built_args|done]|split; [done|split; [done|cbn; lia]]]]].
  unfold adbus_sig_emit. cbn [s_message set_message s_member s_home]. rewrite (bind_Ret (of_option (Some f)) _ _ _ _ eq_refl).
  assert (Eif : on_interfaces (set_message (Some f) g) (Objects.iface (Objects.m_interface (s_member g))) (one_client c) = Ret i (one_client c)).
  { unfold on_interfaces, on_client. cbn [s_home set_message]. rewrite Hh. unfold one_client at 1. rewrite lookup_singleton_eq. rewrite (on_part_read _ c i); [|].
    - unfold one_client. by rewrite insert_singleton_eq.
    - unfold Objects.iface. rewrite (bind_Ret get _ _ _ _ eq_refl). change (part c) with (conn c). by rewrite Hi. }
  rewrite (bind_Ret _ _ _ _ _ Eif).
  assert (Eend : adbus_buf_end (argbuf f) = Ret tt (argbuf f)) by (apply buf_end_ok, (an_end _ _ _ _ Ha)).
  rewrite Eend, Hm, Ei. change (adbus_msg_setinterface BUS_NAME (len BUS_NAME) _) with (named (member_name k) f).
  cbn [s_binds set_message]. rewrite Hb. cbn [emit_loop s_connection s_path]. rewrite bind_assoc.
  assert (Eto : emit_to (Some msg_size) BUS_PATH (named (member_name k) f) c = Ret h c1).
  { unfold emit_to. rewrite (bind_Ret _ _ _ _ _ Es). unfold Client.adbus_msg_send. change (adbus_msg_setpath BUS_PATH (len BUS_PATH) _) with F.
    change (adbus_msg_serial F) with n. rewrite (proj2 (Z.ltb_ge _ _)) by lia. rewrite bind_assoc, (bind_Ret (ret _) _ _ _ _ eq_refl), Eb.
    unfold adbus_conn_send. assert (En : msg_serial (built_message h) = n) by (cbn; by apply Z.mod_small; lia).
    rewrite En, (proj2 (Z.eqb_neq _ _)) by lia. cbn [negb]. rewrite !bind_assoc, (bind_Ret (assert_ true) _ _ _ tt eq_refl). reflexivity. }
  erewrite bind_Ret.
  2:{ unfold on_client, one_client. rewrite lookup_singleton_eq, Eto, insert_singleton_eq. reflexivity. }
  rewrite (bind_Ret (ret h) _ _ _ _ eq_refl). exact E2.
Qed.
End Announce.

(** ** What is announced, and to whom *)

(** The message [m] is the signal [k] with these arguments. *)
Record is_announcement (k : which) (dest : option (list Z)) (args : list (list Z)) (m : Message) : Prop := {
  ia_type : msg_type m = MSG_SIGNAL;
  ia_path : msg_path m = Some BUS_PATH;
  ia_interface : msg_interface m = Some BUS_NAME;
  ia_member : msg_member m = Some (member_name k);
  ia_destination : msg_destination m = dest;
  ia_sender : msg_sender m = Some BUS_NAME;
  ia_serial : 1 <= msg_serial m < 2 ^ 32;
  ia_signature : signature m = Some (strings_sig args);
  ia_args : argdata m = encs 0 (strings args) }.

(** Only the buffer of the bus remote and the greeter changed. *)
Definition by_bus (b : rid) (R : Remote) (s s' : Server) : Prop :=
  exists R', s' = with_bus (busRemote s) None (put_r b R' s) /\ idle b s' R' /\ unique R' = unique R /\ matches R' = matches R /\ services R' = services R /\ haveHello R' = haveHello R.

(** The remotes a message with these arguments is for. *)
Definition told_to (s : Server) (args : list (list Z)) (m : Message) : list rid := recipients s (set_arguments (Some (string_args args)) m).

Section Told.
Context {B : Build} (good : rid -> bool).

Lemma deliver_run (r : rid) (m : Message) (s : Server) (x : Side) : send good r m (s, x) = Ret (if good r then msg_size m else -1) (s, deliver r m x).
Proof. reflexivity. Qed.

Lemma deliver_box (m : Message) (l : list rid) : msg_arguments m = None -> forall x,
  deliver_to deliver l m x = mkSide (busConnection x) (nameOwnerChanged x) (nameAcquired x) (nameLost x) (outbox x ++ map (fun r => (r, m)) l).
Proof.
  intros Hm. assert (E : set_arguments None m = m) by (destruct m; cbn in Hm; by subst). induction l as [|r l IH]; intros x; [cbn; rewrite app_nil_r; by destruct x|].
  cbn [deliver_to fold_left]. fold (deliver_to deliver). change (fold_left _ l ?y) with (deliver_to deliver l m y). rewrite IH. unfold deliver. cbn. by rewrite E, <- app_assoc.
Qed.

Lemma signal_box (x : Side) (l : list (rid * Message)) (c : Client) (k : which) :
  signal k (mkSide c (nameOwnerChanged x) (nameAcquired x) (nameLost x) l) = signal k x.
Proof. by destruct k. Qed.

Lemma signal_ok_conn (c c' : Client) (name : list Z) (g : Signal) : conn c' = conn c -> signal_ok c name g -> signal_ok c' name g.
Proof. intros E [H1 H2 H3 H4 H5 H6]. split; rewrite ?E; done. Qed.

Lemma signal_ok_message (c : Client) (name : list Z) (g : Signal) (m : MsgFactory) : signal_ok c name g -> signal_ok c name (set_message (Some m) g).
Proof. intros [H1 H2 H3 H4 H5 H6]. by split. Qed.

(** The fields of the message that arrives. *)
Lemma resent_announces (k : which) (dest : option (list Z)) (args : list (list Z)) (arr : list Z) (sp : sigptr) (m : MsgFactory) (n : Z) :
  announced dest args arr sp -> (forall d, dest = Some d -> d <> []) -> 1 <= n < 2 ^ 32 ->
  is_announcement k dest args (resent_message BUS_NAME (sent_factory (member_name k) dest args arr sp m n)).
Proof.
  intros [Hd Ha _ Hs Hg _] Hnn Hn. destruct (name_text k) as [_ Hm]. set (f := sent_factory _ _ _ _ _ _ _). assert (F7 : argbuf f = mkBuf (encs 0 (strings args)) arr sp) by (by destruct dest).
  assert (Hpos : 0 < len (encs 0 (strings args))).
  { destruct args as [|s l]; [done|]. change (encs 0 (strings (s :: l))) with (enc_string 0 s ++ encs (0 + len (enc_string 0 s)) (strings l)).
    rewrite len_app, len_enc_string. pose proof (len_nonneg s). pose proof (len_nonneg (encs (0 + (pad 0 4 + 4 + (len s + 1))) (strings l))). pose proof (pad_bounds 0 4 boundary_4). lia. }
  split; unfold resent_message, parsed_message; cbn [with_data set_string msg_type msg_path msg_interface msg_member msg_destination msg_sender msg_serial signature argdata].
  - done.
  - change (HEADER_SENDER =? HEADER_OBJECT_PATH) with false. assert (E : f_path f = BUS_PATH) by (by destruct dest). by rewrite E.
  - change (HEADER_SENDER =? HEADER_INTERFACE) with false. assert (E : f_interface f = BUS_NAME) by (by destruct dest). by rewrite E.
  - change (HEADER_SENDER =? HEADER_MEMBER) with false. assert (E : f_member f = member_name k) by (by destruct dest, k). rewrite E. by apply field_some.
  - change (HEADER_SENDER =? HEADER_DESTINATION) with false. destruct dest as [d|]; [|done]. change (f_destination f) with (cstr d).
    destruct (Hd d eq_refl) as (_ & Hz & _). rewrite cstr_no_nul by done. by apply field_some, Hnn.
  - by rewrite Z.eqb_refl.
  - by change (serial f) with n.
  - change (HEADER_SENDER =? HEADER_SIGNATURE) with false. rewrite F7. cbn [b_data]. rewrite (proj2 (Z.ltb_lt _ _)) by done. unfold adbus_buf_sig. cbn [b_sig]. by rewrite Hg.
  - by rewrite F7.
Qed.

(** One announcement. *)
Lemma announce_run (k : which) (dest : option (list Z)) (args : list (list Z)) (b : rid) (R : Remote) (s : Server) (x : Side) :
  side_ok x -> busRemote s = Some b -> idle b s R -> unique R = BUS_NAME -> routable s ->
  (forall d, dest = Some d -> field_text d /\ d <> []) -> Forall field_text args -> (1 <= length args <= 3)%nat -> exists m s' x',
  announce good k dest (strings_sig args) args (s, x) = Ret tt (s', x') /\ by_bus b R s s' /\ side_ok x' /\ is_announcement k dest args m /\
  outbox x' = outbox x ++ map (fun r => (r, m)) (sent good (told_to s args m)).
Proof.
  intros [Hc Hg] Hb Hi Hu Hr Hd Ha Hn. pose proof (Hg k) as Hk. destruct (so_message _ _ _ Hk) as [m0 Em]. destruct (so_argsig _ _ _ Hk) as [G1 G2].
  destruct (sig_msg_run (signal k x) m0 (one_client (busConnection x)) Em G1 G2) as (arr0 & E1 & _).
  pose proof (strings_sig_len args) as Hl. pose proof (no_nul_strings args) as Hz.
  destruct (setsig_any (strings_sig args) [] arr0 (Own 0) (-1) Hz ltac:(lia) (or_introl eq_refl)) as (arr & E2 & Harr).
  destruct (strings_write args arr Ha Harr) as (sp & E3 & Hsp).
  assert (An : announced dest args arr sp) by (split; try done; [by intros d Ed; apply Hd|lia|intros ->; cbn in Hn; lia]).
  destruct (emit_one k (signal k x) (busConnection x) dest args arr sp m0 Hk Hc An) as (n & msg & m' & c' & E4 & N & Hbuilt & Hlog & Hconn & Hser).
  set (F := sent_factory (member_name k) dest args arr sp m0 n) in *.
  pose proof (sent_sendable k dest args arr sp m0 n An N) as Hsend. fold F in Hsend.
  pose proof (resent_announces k dest args arr sp m0 n An ltac:(by intros d Ed; apply Hd) N) as Hann. fold F in Hann.
  set (x1 := set_busConnection c' x).
  destruct (remote_dispatch_run (send good) deliver good deliver_run ltac:(reflexivity) F msg (set_arguments (Some (string_args args)) (resent_message BUS_NAME F)) b s x1 R) as (b' & E5); try done.
  { by rewrite Hu. } { rewrite Hu. left. apply strings_parse; [done|by destruct args; [cbn in Hn; lia|]|done|apply Hann|apply Hann|done]. }
  cbv zeta in E5. rewrite Hu in E5. fold (told_to s args (resent_message BUS_NAME F)) in E5. set (l := told_to _ _ _) in *. set (s' := after_send b R b' s) in *.
  rewrite deliver_box in E5 by done. cbn [busConnection nameOwnerChanged nameAcquired nameLost outbox x1 set_busConnection] in E5. set (x2 := mkSide _ _ _ _ _) in E5.
  exists (resent_message BUS_NAME F), s', (set_signal k (set_message (Some m') (signal k x)) x2). split; [|split; [|split; [|split; [exact Hann|]]]].
  - unfold announce. rewrite (bind_Ret get _ _ _ _ eq_refl). cbn [snd].
    assert (Eid : forall c, c = busConnection x -> set_busConnection c x = x) by (intros c ->; by destruct x).
    erewrite bind_Ret.
    2:{ unfold on_bus. rewrite E1. unfold one_client. rewrite lookup_singleton_eq. by rewrite Eid. }
    set (g0 := set_message _ (signal k x)). assert (Ead : exists g1 f1, address_to dest g0 (s, x) = Ret g1 (s, x) /\ g1 = set_message (Some f1) (signal k x) /\
      argbuf f1 = mkBuf [] arr0 (Own 0) /\ set_argbuf (mkBuf (encs 0 (strings args)) arr sp) f1 = told dest args arr sp m0).
    { destruct dest as [d|]; (eexists _, _; split; [reflexivity|split; [reflexivity|by split]]). }
    destruct Ead as (g1 & f1 & Ead & -> & Ef1 & Et). rewrite (bind_Ret _ _ _ _ _ Ead).
    erewrite bind_Ret.
    2:{ unfold on_message. cbn [s_message set_message]. rewrite (bind_Ret (of_option (Some f1)) _ _ _ _ eq_refl), Ef1, E2. reflexivity. }
    erewrite bind_Ret.
    2:{ apply (add_strings_run args Ha _ (set_argbuf (mkBuf [] arr (Own 0)) f1) _ (mkBuf (encs 0 (strings args)) arr sp)); [reflexivity|exact E3]. }
    change (set_message (Some (set_argbuf ?u (set_argbuf ?v ?w))) (set_message _ (set_message _ (signal k x)))) with (set_message (Some (set_argbuf u w)) (signal k x)). rewrite Et.
    assert (E6 : emit_bus good (set_message (Some (told dest args arr sp m0)) (signal k x)) (s, x) = Ret (set_message (Some m') (signal k x)) (s', x2)).
    { unfold emit_bus. rewrite (bind_Ret get _ _ _ _ eq_refl). erewrite bind_Ret.
      2:{ unfold on_bus. rewrite E4. unfold one_client. by rewrite lookup_singleton_eq. }
      fold x1. rewrite (bind_Ret get _ _ _ _ eq_refl). cbn [snd]. change (busConnection x1) with c'. rewrite Hlog, drop_app_length. cbn [forward]. rewrite bind_assoc.
      unfold SendToServer. rewrite bind_assoc, (bind_Ret get _ _ _ _ eq_refl), bind_assoc. cbn [fst]. rewrite Hb, (bind_Ret (of_option (Some b)) _ _ _ _ eq_refl).
      rewrite bind_assoc, (bind_Ret _ _ _ _ _ E5). reflexivity. }
    rewrite (bind_Ret _ _ _ _ _ E6). reflexivity.
  - eexists. split; [reflexivity|]. split; [|by destruct Hi]. split; [apply lookup_insert_eq|by destruct Hi|done].
  - assert (Hc2 : busConnection (set_signal k (set_message (Some m') (signal k x)) x2) = c') by (by destruct k). split; [by rewrite Hc2|]. intros j. rewrite Hc2.
    apply (signal_ok_conn (busConnection x)); [done|]. assert (Hj : forall y, signal j (set_signal k y x2) = if decide (j = k) then y else signal j x).
    { intros y. by destruct j, k. }
    rewrite Hj. destruct (decide (j = k)) as [->|_]; [by apply signal_ok_message|apply Hg].
  - by destruct k.
Qed.
End Told.

(** ** The change of an owner *)

(** [s'] is [s] but for the buffers of the bus remote, and for the greeter. *)
Record kept_server (b : rid) (s s' : Server) : Prop := {
  ks_names : names s' = names s;
  ks_services : service_heap s' = service_heap s;
  ks_remotes : remotes s' = remotes s;
  ks_bus : busRemote s' = busRemote s;
  ks_signals : signals s' = signals s;
  ks_number : nextRemote s' = nextRemote s;
  ks_next : next_id s' = next_id s;
  ks_idle : (exists R, idle b s R) -> exists R, idle b s' R;
  ks_others : forall q, q <> b -> remote_heap s' !! q = remote_heap s !! q;
  ks_buffers : forall R, remote_heap s !! b = Some R -> exists R', remote_heap s' !! b = Some R' /\
    unique R' = unique R /\ matches R' = matches R /\ services R' = services R /\ haveHello R' = haveHello R }.

Definition signal_args (g : BusSignal) : list (list Z) :=
  match g with NameOwnerChanged n o o' => [n; o; o'] | Server.NameLost _ n => [n] | Server.NameAcquired _ n => [n] end.
Definition signal_dest (g : BusSignal) : option (list Z) :=
  match g with NameOwnerChanged _ _ _ => None | Server.NameLost d _ => Some d | Server.NameAcquired d _ => Some d end.
Definition signal_kind (g : BusSignal) : which :=
  match g with NameOwnerChanged _ _ _ => CHANGED | Server.NameLost _ _ => LOST | Server.NameAcquired _ _ => ACQUIRED end.
Definition announces (g : BusSignal) (m : Message) : Prop := is_announcement (signal_kind g) (signal_dest g) (signal_args g) m.

Section Changed.
Context {B : Build} (good : rid -> bool).

(** The calls of the send callbacks for a signal, and for several. *)
Definition sent_for (s : Server) (g : BusSignal) (m : Message) : list (rid * Message) := map (fun r => (r, m)) (sent good (told_to s (signal_args g) m)).
Definition sent_all (s : Server) (l : list BusSignal) (ms : list Message) : list (rid * Message) := concat (zip_with (sent_for s) l ms).

Definition announce_signal (g : BusSignal) : M (Server * Side) unit := announce good (signal_kind g) (signal_dest g) (strings_sig (signal_args g)) (signal_args g).
Fixpoint announce_all (l : list BusSignal) : M (Server * Side) unit :=
  match l with [] => ret tt | g :: l => run* announce_signal g in announce_all l end.

Lemma kept_refl (b : rid) (s : Server) : kept_server b s s.
Proof. by split; try done; intros R H; exists R. Qed.

Lemma kept_trans (b : rid) (s s1 s2 : Server) : kept_server b s s1 -> kept_server b s1 s2 -> kept_server b s s2.
Proof.
  intros [H1 H2 H3 H4 H5 H6 Hn Hi H7 H8] [K1 K2 K3 K4 K5 K6 Kn Ki K7 K8]. split; try congruence.
  - auto.
  - intros q Hq. by rewrite K7, H7.
  - intros R HR. destruct (H8 R HR) as (R1 & HR1 & ? & ? & ? & ?). destruct (K8 R1 HR1) as (R2 & HR2 & ? & ? & ? & ?). exists R2. split_and!; [done|congruence..].
Qed.

Lemma by_bus_kept (b : rid) (R : Remote) (s s' : Server) : idle b s R -> by_bus b R s s' -> exists R',
  kept_server b s s' /\ idle b s' R' /\ unique R' = unique R /\ (routable s -> routable s') /\ forall m, recipients s' m = recipients s m.
Proof.
  intros [HR _ _] (R' & -> & Hi & Hu & Hm & Hsv & Hh). exists R'. split_and!; [|done|done| |].
  - split; try done.
    + intros _. by exists R'.
    + intros q Hq. cbn. by rewrite lookup_insert_ne.
    + intros R0 H0. assert (R0 = R) as -> by congruence. exists R'. split; [by destruct Hi|done].
  - intros Hr. by destruct (routable_put b R' s Hr).
  - intros m. exact (recipients_put b R R' s m HR Hm).
Qed.

Lemma announce_all_run (l : list BusSignal) (b : rid) : (forall g, g ∈ l -> Forall field_text (signal_args g) /\ forall d, signal_dest g = Some d -> field_text d /\ d <> []) ->
  forall s x R, side_ok x -> busRemote s = Some b -> idle b s R -> unique R = BUS_NAME -> routable s -> exists ms s' x',
  announce_all l (s, x) = Ret tt (s', x') /\ Forall2 announces l ms /\ outbox x' = outbox x ++ sent_all s l ms /\ side_ok x' /\ kept_server b s s'.
Proof.
  induction l as [|g l IH]; intros Hl s x R Hx Hb Hi Hu Hr.
  - exists [], s, x. split_and!; [done|constructor|by rewrite app_nil_r|done|apply kept_refl].
  - destruct (Hl g ltac:(left)) as [Ha Hd]. assert (Hn : (1 <= length (signal_args g) <= 3)%nat) by (destruct g; cbn; lia).
    destruct (announce_run good (signal_kind g) (signal_dest g) (signal_args g) b R s x Hx Hb Hi Hu Hr Hd Ha Hn) as (m & s1 & x1 & E1 & K1 & X1 & A1 & O1).
    destruct (by_bus_kept b R s s1 Hi K1) as (R1 & K & Hi1 & Hu1 & Hr1 & Hrec).
    destruct (IH ltac:(intros g' Hg'; apply Hl; by right) s1 x1 R1 X1 ltac:(by rewrite (ks_bus _ _ _ K)) Hi1 ltac:(congruence) (Hr1 Hr)) as (ms & s2 & x2 & E2 & A2 & O2 & X2 & K2).
    exists (m :: ms), s2, x2. split_and!; [|by constructor| |done|by eapply kept_trans].
    + cbn [announce_all]. unfold announce_signal. by rewrite (bind_Ret _ _ _ _ _ E1).
    + rewrite O2, O1, <- app_assoc. f_equal. unfold sent_all. cbn [zip_with concat]. f_equal. f_equal.
      apply zip_with_ext; [|done|done]. intros g' m'. unfold sent_for, told_to. by rewrite Hrec.
Qed.

Lemma owner_text (Q : option Remote) : (forall q, Q = Some q -> field_text (unique q) /\ unique q <> []) -> field_text (owner_name Q).
Proof. intros H. destruct Q as [q|]; [by apply H|by apply field_text_nil]. Qed.

Lemma announces_run (name : list Z) (Ro Rn : option Remote) (w : Server * Side) :
  (run* announce good CHANGED None (str "sss") [name; owner_name Ro; owner_name Rn] in
   run* (match Ro with Some x => announce good LOST (Some (unique x)) (str "s") [name] | None => ret tt end) in
   match Rn with Some x => announce good ACQUIRED (Some (unique x)) (str "s") [name] | None => ret tt end) w = announce_all (change_signals name Ro Rn) w.
Proof.
  unfold change_signals. cbn [app announce_all]. unfold announce_signal at 1. cbn [signal_kind signal_dest signal_args].
  change (strings_sig [name; owner_name Ro; owner_name Rn]) with (str "sss"). unfold bind at 1. unfold bind at 2.
  destruct (announce good CHANGED None (str "sss") [name; owner_name Ro; owner_name Rn] w) as [[] w1| | | |]; try done.
  destruct Ro as [q|], Rn as [q'|]; cbn [app announce_all]; unfold announce_signal; cbn [signal_kind signal_dest signal_args]; change (strings_sig [name]) with (str "s");
    unfold bind, ret; repeat match goal with |- context [announce ?g ?k ?d ?s ?a ?w] => destruct (announce g k d s a w) as [[] ?| | | |] end; done.
Qed.
Lemma serv_ownerchanged_all (name : list Z) (o n : option rid) (Ro Rn : option Remote) (s : Server) (x : Side) : live s o Ro -> live s n Rn ->
  serv_ownerchanged good name o n (s, x) = announce_all (change_signals name Ro Rn) (s, x).
Proof.
  intros Ho Hn. assert (G : forall r Q, live s r Q -> on_server (get_owner r) (s, x) = Ret Q (s, x)) by (intros r Q H; unfold on_server; by rewrite (get_owner_ok r Q s H)).
  unfold serv_ownerchanged. rewrite (bind_Ret _ _ _ _ _ (G n Rn Hn)).
  rewrite (bind_Ret (assert_ _) _ (s, x) (s, x) tt).
  2:{ apply assert_true. destruct n, Rn; cbn in Hn; try done. by destruct Hn. }
  rewrite (bind_Ret _ _ _ _ _ (G o Ro Ho)).
  assert (Eo : (match Ro with Some x => if haveHello x then Some x else None | None => None end) = Ro).
  { destruct o, Ro; cbn in Ho; try done. by destruct Ho as [_ ->]. }
  rewrite Eo. apply announces_run.
Qed.

(** When a name changes its owner, whoever is to know is told.  The bus
    sends NameOwnerChanged with the name and the unique names of the old and
    the new owner, then NameLost to the old owner and NameAcquired to the new
    one: each is a signal of the bus's interface and path with the bus as its
    sender, and goes to every remote with a rule for it and to its addressee.
    These are the signals that the table of names announces, in that order;
    the server itself is as it was, also when this happens in the middle of an
    operation on it, and the bus can announce the next change. *)
Theorem owner_announced (name : list Z) (o n : option rid) (Ro Rn : option Remote) (b : rid) (R : Remote) (s : Server) (x : Side) :
  routable s -> busRemote s = Some b -> idle b s R -> unique R = BUS_NAME -> side_ok x -> field_text name ->
  live s o Ro -> live s n Rn -> (forall Q, Ro = Some Q \/ Rn = Some Q -> field_text (unique Q) /\ unique Q <> []) ->
  let l := change_signals name Ro Rn in
  adbusI_serv_ownerchanged name o n s = Ret tt (add_signals l s) /\ exists ms s' x',
    serv_ownerchanged good name o n (s, x) = Ret tt (s', x') /\
    Forall2 announces l ms /\ outbox x' = outbox x ++ sent_all s l ms /\ kept_server b s s' /\ side_ok x'.
Proof.
  intros Hr Hb Hi Hu Hx Ht Ho Hn Hq l. split; [by apply ownerchanged_ok|].
  destruct (announce_all_run (change_signals name Ro Rn) b) with (s := s) (x := x) (R := R) as (ms & s' & x' & E & A & O & X & K); try done.
  { intros g Hg. unfold change_signals in Hg. repeat (apply elem_of_app in Hg as [Hg|Hg]).
    - apply list_elem_of_singleton in Hg as ->. split; [|done]. repeat (apply Forall_cons; split); try done; (apply owner_text; intros q Eq; apply Hq; auto).
    - destruct Ro as [Q|]; [|by apply not_elem_of_nil in Hg]. apply list_elem_of_singleton in Hg as ->. split; [by apply Forall_singleton|]. intros d [= <-]. apply Hq. by left.
    - destruct Rn as [Q|]; [|by apply not_elem_of_nil in Hg]. apply list_elem_of_singleton in Hg as ->. split; [by apply Forall_singleton|]. intros d [= <-]. apply Hq. by right. }
  exists ms, s', x'. split; [|done].
  rewrite <- E. by apply serv_ownerchanged_all.
Qed.
End Changed.

(** ** The interface that is declared *)
Definition BUS_IFACE : Objects.iid := 2%nat.
(** A connection of the bus with the interface of the caller of adbus_serv_new. *)
Definition bus_connection {B : Build} : Client :=
  set_conn (Objects.set_ifaces (<[BUS_IFACE := Objects.adbus_iface_new BUS_NAME (-1)]> (Objects.ifaces conn_objects)) conn_objects) adbus_conn_new.

Section Declared.
Context {B : Build} (dh_order : gmap (list Z) nat -> list (list Z * nat)) (handler : list Z -> Objects.callback).

(** What adbusI_serv_initbus makes of the interface. *)
Definition bus_interface : option Objects.Interface :=
  match init_methods handler BUS_IFACE (conn bus_connection) with
  | Ret _ c => match init_signals BUS_IFACE c with Ret _ c => Objects.ifaces c !! BUS_IFACE | _ => None end
  | _ => None
  end.

(** A method of the interface is one of the handlers, and is declared with the
    type that the handler replies. *)
Definition declared (n : list Z) (m : Objects.Member) : Prop := Objects.m_type m = Objects.METHOD ->
  Objects.methodCallback m = Some (handler n) /\ Objects.retsig m = bus_retsig n /\ isSome (bus_method dh_order n) = true.

Lemma bus_members : exists x, bus_interface = Some x /\ Objects.i_name x = BUS_NAME /\ Forall (fun p => declared (fst p) (snd p)) (map_to_list (Objects.members x)).
Proof.
  eexists. split; [vm_compute; reflexivity|]. split; [reflexivity|].
  match goal with |- Forall _ ?l => let l' := eval vm_compute in l in change l with l' end.
  repeat (apply Forall_cons; split); try (apply Forall_nil; exact I);
    (intros E; first [discriminate E|split; [reflexivity|split; [vm_compute; reflexivity|vm_compute; reflexivity]]]).
Qed.

Definition bus_names : list (list Z) :=
  map str ["Hello"; "RequestName"; "ReleaseName"; "ListNames"; "NameHasOwner"; "GetNameOwner"; "AddMatch"; "RemoveMatch"]%string.

Lemma bus_known (n : list Z) : isSome (bus_method dh_order n) = true ->
  n ∈ bus_names.
Proof.
  unfold bus_method, bus_names. cbn [map]. intros H.
  repeat match goal with H : isSome (if list_eqb n ?s then _ else _) = true |- _ =>
    destruct (list_eqb n s) eqn:E; [apply list_eqb_eq in E as ->; clear H; repeat (first [left|right])|clear E] end. done.
Qed.

Lemma bus_has : match bus_interface with
  | Some x => forallb (fun n => match Objects.members x !! n with Some m => bool_decide (Objects.m_type m = Objects.METHOD) | None => false end) bus_names
  | None => false end = true.
Proof. vm_compute. reflexivity. Qed.

Lemma lost_signature : match bus_interface with
  | Some x => option_map Objects.argsig (Objects.members x !! str "NameLost") = Some [] /\ option_map Objects.argsig (Objects.members x !! str "NameAcquired") = Some (str "ss")
  | None => False end.
Proof. vm_compute. split; reflexivity. Qed.

(** The table of methods and the interface agree: every method of the interface
    is handled and replies what it is declared with, and every method that is
    handled is in the interface.  The signature of NameLost was given to
    NameAcquired, which has it twice. *)
Theorem bus_declares : exists x, bus_interface = Some x /\ Objects.i_name x = BUS_NAME /\ (forall n m, Objects.members x !! n = Some m -> declared n m) /\
  (forall n, isSome (bus_method dh_order n) = true -> exists m, Objects.members x !! n = Some m /\ Objects.m_type m = Objects.METHOD) /\
  option_map Objects.argsig (Objects.members x !! str "NameLost") = Some [] /\ option_map Objects.argsig (Objects.members x !! str "NameAcquired") = Some (str "ss").
Proof.
  destruct bus_members as (x & E & En & F). exists x. split; [done|]. split; [done|]. split.
  - intros n m Hm. rewrite Forall_forall in F. apply (F (n, m)). by apply elem_of_map_to_list.
  - pose proof bus_has as Hh. pose proof lost_signature as Hl. rewrite E in Hh, Hl. split; [|exact Hl]. intros n Hn%bus_known.
    rewrite forallb_forall in Hh. specialize (Hh n ltac:(by apply list_elem_of_In)). destruct (Objects.members x !! n) as [m|]; [|done].
    exists m. split; [done|]. by apply bool_decide_eq_true in Hh.
Qed.
End Declared.

(** ** Samples *)
Section Samples.
#[local] Existing Instance debug_build.
#[local] Opaque sample_state.

(** The bus after adbusI_serv_initbus; client 2 owns a.b and client 4 takes
    it. *)
Definition sample_side : option Side :=
  match init_side length BUS_IFACE (Objects.User 0) (one_client bus_connection) with
  | Ret (changed, acquired, lost) w => match w !! 0%nat with Some c => Some (mkSide c changed acquired lost []) | None => None end
  | _ => None
  end.

Definition signal_check (c : Client) (name : list Z) (g : Signal) : bool :=
  isSome (s_message g) && match s_binds g with [b] => (s_connection b =? 0)%nat && list_eqb (s_path b) BUS_PATH | _ => false end &&
  (s_home g =? 0)%nat && list_eqb (Objects.m_name (s_member g)) name && forallb (fun z => negb (z =? 0)) (Objects.argsig (s_member g)) &&
  (len (Objects.argsig (s_member g)) <=? 255) &&
  match Objects.ifaces (conn c) !! Objects.m_interface (s_member g) with Some i => list_eqb (Objects.i_name i) BUS_NAME | None => false end.
Definition side_check (x : Side) : bool :=
  let c := busConnection x in
  (1 <=? nextSerial c) && (nextSerial c <? 2 ^ 32) && forallb (fun k => signal_check c (member_name k) (signal k x)) [CHANGED; ACQUIRED; LOST].

Lemma signal_checked (c : Client) (name : list Z) (g : Signal) : signal_check c name g = true -> signal_ok c name g.
Proof.
  unfold signal_check. rewrite !andb_true_iff. intros [[[[[[H1 H2] H3] H4] H5] H6] H7]. split.
  - destruct (s_message g); [by eexists|done].
  - destruct (s_binds g) as [|[i p] [|]]; try done. apply andb_true_iff in H2 as [Hi%Nat.eqb_eq Hp%list_eqb_eq]. cbn in Hi, Hp. by subst.
  - by apply Nat.eqb_eq.
  - by apply list_eqb_eq.
  - split; [by apply no_nul_forallb|by apply Z.leb_le].
  - destruct (Objects.ifaces _ !! _) as [i|]; [|done]. exists i. split; [done|by apply list_eqb_eq].
Qed.

Lemma side_checked (x : Side) : side_check x = true -> side_ok x.
Proof.
  unfold side_check. cbv zeta. rewrite !andb_true_iff, forallb_forall. intros [[H1 H2] H3]. split; [lia|].
  intros k. apply signal_checked, H3. destruct k; cbn; auto.
Qed.

Lemma sample_side_ok : exists x, sample_side = Some x /\ side_ok x.
Proof.
  assert (H : match sample_side with Some x => side_check x | None => false end = true) by (vm_compute; reflexivity).
  destruct sample_side as [x|]; [|done]. exists x. split; [done|]. by apply side_checked.
Qed.

Lemma sample_views : remote_view 0 = Some (BUS_NAME, true, 0, 0, 0) /\ remote_view 2 = Some (str ":1.0", true, 0, 0, 0) /\ remote_view 4 = Some (str ":1.1", true, 0, 0, 0).
Proof. vm_compute. split_and!; reflexivity. Qed.

Lemma owner_announced_witness : exists x s' x' m1 m2 m3, serv_ownerchanged (fun _ => true) (str "a.b") (Some 2%nat) (Some 4%nat) (sample_state, x) = Ret tt (s', x') /\
  is_announcement CHANGED None [str "a.b"; str ":1.0"; str ":1.1"] m1 /\ is_announcement LOST (Some (str ":1.0")) [str "a.b"] m2 /\
  is_announcement ACQUIRED (Some (str ":1.1")) [str "a.b"] m3 /\ outbox x' = outbox x ++ [(2%nat, m2); (4%nat, m3)].
Proof.
  destruct sample_side_ok as (x & _ & Hx). destruct sample_views as (V0 & V2 & V4).
  apply view_remote in V0 as (R & H0 & U0), V2 as (R2 & H2 & U2), V4 as (R4 & H4 & U4).
  destruct (owner_announced (fun _ => true) (str "a.b") (Some 2%nat) (Some 4%nat) (Some R2) (Some R4) 0%nat R sample_state x) as (_ & ms & s' & x' & E & A & O & _ & _).
  - apply wf_routable, sample_wf.
  - vm_compute. reflexivity.
  - exact H0.
  - exact U0.
  - exact Hx.
  - by apply short_text.
  - split; apply H2.
  - split; apply H4.
  - intros Q [[= <-]|[= <-]]; rewrite ?U2, ?U4; (split; [by apply short_text|discriminate]).
  - unfold change_signals, owner_name in A, O. rewrite U2, U4 in A, O. cbn [app] in A, O.
    apply Forall2_cons_inv_l in A as (m1 & ms1 & A1 & A & ->). apply Forall2_cons_inv_l in A as (m2 & ms2 & A2 & A & ->). apply Forall2_cons_inv_l in A as (m3 & ms3 & A3 & A & ->).
    apply Forall2_nil_inv_l in A as ->. exists x, s', x', m1, m2, m3. split; [exact E|]. split; [exact A1|]. split; [exact A2|]. split; [exact A3|].
    rewrite O. f_equal. unfold sent_all, sent_for, told_to. cbn [zip_with concat signal_args]. rewrite !sample_plain, app_nil_r. destruct sample_owners as [O2 O4].
    unfold addressee. cbn [set_arguments msg_destination msg_type]. rewrite (ia_destination _ _ _ _ A1), (ia_destination _ _ _ _ A2), (ia_destination _ _ _ _ A3), (ia_type _ _ _ _ A1).
    cbn [signal_dest]. rewrite O2, O4. reflexivity.
Defined.

(** Freeing the bus gives back every reference that setting it up took: the
    connection is freed, and the interface has the reference of its owner. *)
Lemma bus_freed : match sample_side with
  | Some x => match adbusI_serv_freebus Objects.sample_order (server_zero, x) with
              | Ret freed (_, x) => freed = true /\ option_map Objects.i_ref (Objects.ifaces (conn (busConnection x)) !! BUS_IFACE) = Some 1
              | _ => False end
  | None => False end.
Proof. vm_compute. split; reflexivity. Qed.
End Samples.
