(* ===== verification/NameChanges.v ===== *)
(** Operations on the table of names, with the signals they send (adbus/server.c,
    with adbusI_serv_ownerchanged of adbus/server-bus.c called where the code
    calls it): [Server] records the signals of an operation and the messages
    that go out from within it are these signals, so that the two agree on
    every outcome. *)

From Stdlib Require Import ZArith Lia.
From stdpp Require Import base option list numbers strings gmap.
From S2P Require Import Prelude Objects Names Signature Iterator Values Buffer Text MatchRule Message Factory Client Watching Bus Server Registry Dispatch Receive Delivery Announce.
#[local] Open Scope Z_scope.
#[local] Open Scope adbus_scope.

(** ** The operations

    As in [Server]; the state has the connection and the signals of the bus,
    and what the send callbacks were called with. *)
Section Sending.
Context {B : Build} (good : rid -> bool).

Definition sending_releasename (r : rid) (name : list Z) : M (Server * Side) Z :=
  let* w := get in
  match names (fst w) !! name with
  | None => ret ADBUS_SERVICE_RELEASE_INVALID_NAME
  | Some v =>
      run* on_server (adbusI_serv_removeServiceFromRemote r v) in
      let* serv := on_server (get_service v) in
      match queue serv with
      | [] => oob
      | o :: q =>
          if (o_remote o =? r)%nat then
            run* on_server (put_service v (set_queue q serv)) in
            run* (match q with
                  | [] =>
                      run* serv_ownerchanged good (s_name serv) (Some r) None in
                      on_server (modify (fun s => with_names (delete name (names s)) (delete v (service_heap s)) s))
                  | o' :: _ => serv_ownerchanged good (s_name serv) (Some r) (Some (o_remote o'))
                  end) in
            ret ADBUS_SERVICE_SUCCESS
          else on_server (release_loop r v (queue serv) 1 (length q))
      end
  end.

Definition sending_requestname (r : rid) (name : list Z) (flags : Z) : M (Server * Side) Z :=
  let* v := on_server (put_name name) in
  let* serv := on_server (get_service v) in
  let me := mkOwner r (flag flags ADBUS_SERVICE_ALLOW_REPLACEMENT) in
  match queue serv with
  | [] =>
      run* on_server (push_service r v) in
      run* on_server (put_service v (set_queue [me] serv)) in
      run* serv_ownerchanged good name None (Some r) in
      ret ADBUS_SERVICE_SUCCESS
  | o :: q =>
      if (o_remote o =? r)%nat then
        run* on_server (put_service v (set_queue (me :: q) serv)) in
        ret ADBUS_SERVICE_REQUEST_ALREADY_OWNER
      else if flag flags ADBUS_SERVICE_REPLACE_EXISTING && allowReplacement o then
        run* sending_releasename r (s_name serv) in
        let* serv := on_server (get_service v) in
        match queue serv with
        | [] => oob
        | o :: q =>
            run* on_server (adbusI_serv_removeServiceFromRemote (o_remote o) v) in
            run* on_server (put_service v (set_queue (me :: q) serv)) in
            run* serv_ownerchanged good name (Some (o_remote o)) (Some r) in
            ret ADBUS_SERVICE_SUCCESS
        end
      else if negb (flag flags ADBUS_SERVICE_DO_NOT_QUEUE) then
        match find_owner r (queue serv) 0 with
        | Some i =>
            run* on_server (put_service v (set_queue (<[i := me]> (queue serv)) serv)) in
            ret ADBUS_SERVICE_REQUEST_IN_QUEUE
        | None =>
            run* on_server (push_service r v) in
            run* on_server (put_service v (set_queue (queue serv ++ [me]) serv)) in
            ret ADBUS_SERVICE_REQUEST_IN_QUEUE
        end
      else
        run* sending_releasename r (s_name serv) in
        ret ADBUS_SERVICE_REQUEST_FAILED
  end.

Fixpoint sending_release_all (fuel : nat) (r : rid) : M (Server * Side) unit :=
  let* x := on_server (get_remote r) in
  match services x with
  | [] => ret tt
  | v :: _ =>
      match fuel with
      | O => nofuel
      | S fuel' =>
          let* serv := on_server (get_service v) in
          run* sending_releasename r (s_name serv) in
          sending_release_all fuel' r
      end
  end.

Definition sending_disconnect (r : rid) : M (Server * Side) unit :=
  run* on_server (modify (fun s => with_remotes (remove_first r (remotes s)) (remote_heap s) s)) in
  let* x := on_server (get_remote r) in
  run* on_server (put_remote r (set_matches [] x)) in
  run* sending_release_all (length (services x)) r in
  on_server (modify (fun s => with_remotes (remotes s) (delete r (remote_heap s)) s)).

Definition sending_hello (r : rid) : M (Server * Side) unit :=
  let* x := on_server (get_remote r) in
  run* on_server (put_remote r (set_hello true x)) in
  run* sending_requestname r (unique x) 0 in ret tt.

(** The last part of adbusI_serv_initbus; the connection and the signals are
    there ([init_side]). *)
Definition sending_initbus : M (Server * Side) unit :=
  let* r := on_server adbus_serv_connect in
  run* on_server (modify (fun s => with_bus (Some r) (helloRemote s) s)) in
  let* x := on_server (get_remote r) in
  run* on_server (put_remote r (set_hello true x)) in
  run* sending_requestname r (unique x) 0 in ret tt.

Definition sending_op (o : op) : M (Server * Side) unit :=
  match o with
  | Connect => run* on_server adbus_serv_connect in ret tt
  | SayHello r => sending_hello r
  | Request r n f => run* sending_requestname r n f in ret tt
  | Release r n => run* sending_releasename r n in ret tt
  | Disconnect r => sending_disconnect r
  end.

Fixpoint sending_ops (l : list op) : M (Server * Side) unit :=
  match l with
  | [] => ret tt
  | o :: l' => run* sending_op o in sending_ops l'
  end.
End Sending.

(** ** The server that sends, next to the one that records *)

(** All but the buffers. *)
Definition same_face (R R' : Remote) : Prop :=
  unique R' = unique R /\ matches R' = matches R /\ services R' = services R /\ haveHello R' = haveHello R.

(** [s'] is [s] but for the buffers of the bus remote, the signals that were
    recorded, and the greeter. *)
Record shadows (b : rid) (s s' : Server) : Prop := {
  sh_names : names s' = names s;
  sh_services : service_heap s' = service_heap s;
  sh_remotes : remotes s' = remotes s;
  sh_bus : busRemote s' = busRemote s;
  sh_number : nextRemote s' = nextRemote s;
  sh_next : next_id s' = next_id s;
  sh_others : forall q, q <> b -> remote_heap s' !! q = remote_heap s !! q;
  sh_hub : exists R R', remote_heap s !! b = Some R /\ idle b s' R' /\ same_face R R' }.

(** What sending needs, whoever waits for a name: [b] is the bus, names and
    services belong together, and the texts fit into messages. *)
Record hub (b : rid) (s : Server) : Prop := {
  hu_bus : busRemote s = Some b;
  hu_name : exists R, remote_heap s !! b = Some R /\ unique R = BUS_NAME;
  hu_nodup : NoDup (remotes s);
  hu_live : forall r, r ∈ remotes s -> is_Some (remote_heap s !! r);
  hu_linked : forall n v, names s !! n = Some v -> exists x, service_heap s !! v = Some x /\ s_name x = n;
  hu_names : forall v x, service_heap s !! v = Some x -> field_text (s_name x);
  hu_texts : forall r R, remote_heap s !! r = Some R -> field_text (unique R) /\ unique R <> [];
  hu_ids : (forall v, is_Some (service_heap s !! v) -> (v < next_id s)%nat) /\ (forall r, is_Some (remote_heap s !! r) -> (r < next_id s)%nat);
  hu_number : 0 <= nextRemote s }.

Lemma hub_routable (b : rid) (s : Server) : hub b s -> routable s.
Proof.
  intros H. split; [apply H|apply H|]. intros n v Hv. destruct (hu_linked b s H n v Hv) as (x & Hx & _). by exists x.
Qed.

Lemma shadow_remote (b : rid) (s s' : Server) (q : rid) : shadows b s s' ->
  match remote_heap s !! q, remote_heap s' !! q with Some R, Some R' => same_face R R' | None, None => True | _, _ => False end.
Proof.
  intros H. destruct (decide (q = b)) as [->|Hq].
  - destruct (sh_hub b s s' H) as (R & R' & HR & [HR' _ _] & F). by rewrite HR, HR'.
  - rewrite (sh_others b s s' H q Hq). by destruct (remote_heap s !! q).
Qed.

Lemma shadow_hub (b : rid) (s s' : Server) : hub b s -> shadows b s s' -> hub b s'.
Proof.
  intros H K. assert (F : forall r, is_Some (remote_heap s' !! r) <-> is_Some (remote_heap s !! r)).
  { intros r. pose proof (shadow_remote b s s' r K) as F. destruct (remote_heap s !! r), (remote_heap s' !! r); try done; by split; intros _; eexists. }
  split; rewrite ?(sh_bus b s s' K), ?(sh_remotes b s s' K), ?(sh_names b s s' K), ?(sh_services b s s' K), ?(sh_number b s s' K), ?(sh_next b s s' K); try apply H.
  - destruct (hu_name b s H) as (R & HR & HU). pose proof (shadow_remote b s s' b K) as G. rewrite HR in G.
    destruct (remote_heap s' !! b) as [R'|]; [|done]. exists R'. split; [done|]. destruct G as [-> _]. done.
  - intros r Hr. by apply F, (hu_live b s H).
  - intros r R' HR'. pose proof (shadow_remote b s s' r K) as G. rewrite HR' in G. destruct (remote_heap s !! r) as [R|] eqn:HR; [|done].
    destruct G as [-> _]. by apply (hu_texts b s H r).
  - split; [apply H|]. intros r Hr. by apply (proj2 (hu_ids b s H)), F.
Qed.

(** Messages go the same way. *)
Lemma shadow_recipients (b : rid) (s s' : Server) (m : Message) : shadows b s s' -> recipients s' m = recipients s m.
Proof.
  intros K. assert (Ea : addressee s' m = addressee s m) by (unfold addressee, owner; by rewrite (sh_names b s s' K), (sh_services b s s' K), (sh_bus b s s' K)).
  unfold recipients. rewrite (sh_remotes b s s' K), Ea. f_equal. apply filter_ext. intros r. unfold listens. rewrite Ea. f_equal.
  pose proof (shadow_remote b s s' r K) as G. destruct (remote_heap s !! r), (remote_heap s' !! r); try done. by destruct G as (_ & -> & _).
Qed.

Lemma kept_shadows (b : rid) (s s1 s2 : Server) : shadows b s s1 -> kept_server b s1 s2 -> shadows b s s2.
Proof.
  intros [A1 A2 A3 A4 A5 A6 A7 (R & R1 & HR & Hi & F)] K. split; try (etransitivity; [apply K|done]).
  - intros q Hq. rewrite (ks_others b s1 s2 K q Hq). by apply A7.
  - destruct (ks_idle b s1 s2 K ltac:(by exists R1)) as (R2 & Hi2). destruct (ks_buffers b s1 s2 K R1 (id_live _ _ _ Hi)) as (R2' & HR2 & E).
    assert (R2' = R2) as -> by (pose proof (id_live _ _ _ Hi2); congruence). exists R, R2. split; [done|]. split; [done|].
    destruct F as (F1 & F2 & F3 & F4), E as (E1 & E2 & E3 & E4). split_and!; congruence.
Qed.

(** ** Running both *)

(** The two runs end the same way, and with [ok] when they return. *)
Definition agree {A} (ok : A -> Server -> Server -> Side -> Prop) (o : outcome Server A) (o' : outcome (Server * Side) A) : Prop :=
  match o, o' with
  | Ret a s, Ret a' (s', x) => a' = a /\ ok a s s' x
  | Abort, Abort | Oob, Oob | Nofuel, Nofuel => True
  | _, _ => False
  end.

Lemma agree_Ret {A} (ok : A -> Server -> Server -> Side -> Prop) (o : outcome Server A) (o' : outcome (Server * Side) A) (a : A) (s : Server) :
  agree ok o o' -> o = Ret a s -> exists s' x, o' = Ret a (s', x) /\ ok a s s' x.
Proof. intros H ->. destruct o' as [a' [s' x]| | | |]; try done. destruct H as [-> H]. by exists s', x. Qed.

Section Both.
Context {B : Build} (good : rid -> bool) (b : rid).

(** What was recorded was sent: the messages are the signals, and each went
    where the table of names sends it. *)
Record sent_since (s : Server) (x : Side) (s1 s1' : Server) (x1 : Side) : Prop := {
  ss_hub : hub b s1;
  ss_shadows : shadows b s1 s1';
  ss_side : side_ok x1;
  ss_sent : exists l ms, signals s1 = signals s ++ l /\ Forall2 announces l ms /\ outbox x1 = outbox x ++ sent_all good s1 l ms }.

(** Nothing is sent. *)
Definition quiet {A} (P : Server -> Prop) (p : M Server A) (p' : M (Server * Side) A) (Q : A -> Server -> Prop) : Prop :=
  forall s s' x, P s -> hub b s -> shadows b s s' ->
  agree (fun a s1 s1' x1 => Q a s1 /\ hub b s1 /\ shadows b s1 s1' /\ signals s1 = signals s /\ x1 = x) (p s) (p' (s', x)).

Definition telling {A} (P : Server -> Prop) (p : M Server A) (p' : M (Server * Side) A) : Prop :=
  forall s s' x, P s -> hub b s -> shadows b s s' -> side_ok x ->
  agree (fun _ s1 s1' x1 => sent_since s x s1 s1' x1) (p s) (p' (s', x)).

Lemma quiet_ret {A} (P : Server -> Prop) (Q : A -> Server -> Prop) (a : A) : (forall s, P s -> Q a s) -> quiet P (ret a) (ret a) Q.
Proof. intros H s s' x HP Hh Hs. cbn. auto 10. Qed.

Lemma quiet_oob {A} (P : Server -> Prop) (Q : A -> Server -> Prop) : quiet P oob oob Q.
Proof. by intros s s' x _ _ _. Qed.

Lemma quiet_bind {A C} (P : Server -> Prop) (p : M Server A) (p' : M (Server * Side) A) (k : A -> M Server C) (k' : A -> M (Server * Side) C)
  (Q : A -> Server -> Prop) (Q' : C -> Server -> Prop) : quiet P p p' Q -> (forall a, quiet (Q a) (k a) (k' a) Q') -> quiet P (bind p k) (bind p' k') Q'.
Proof.
  intros H K s s' x HP Hh Hs. specialize (H s s' x HP Hh Hs). unfold bind.
  destruct (p s) as [a s1| | | |], (p' (s', x)) as [a' [s1' x1]| | | |]; try done. destruct H as (-> & HQ & H1 & S1 & G & ->).
  specialize (K a s1 s1' x HQ H1 S1). destruct (k a s1) as [c s2| | | |], (k' a (s1', x)) as [c' [s2' x2]| | | |]; try done.
  destruct K as (-> & HQ2 & H2 & S2 & G2 & ->). split_and!; try done. congruence.
Qed.

Lemma quiet_weaken {A} (P P' : Server -> Prop) (p : M Server A) (p' : M (Server * Side) A) (Q Q' : A -> Server -> Prop) :
  (forall s, P s -> P' s) -> (forall a s, Q' a s -> Q a s) -> quiet P' p p' Q' -> quiet P p p' Q.
Proof.
  intros HP HQ H s s' x Hs Hh K. specialize (H s s' x (HP s Hs) Hh K).
  destruct (p s) as [a s1| | | |], (p' (s', x)) as [a' [s1' x1]| | | |]; try done. destruct H as (-> & H1 & H2). split; [done|]. split; [by apply HQ|done].
Qed.

Lemma telling_bind {A C} (P : Server -> Prop) (p : M Server A) (p' : M (Server * Side) A) (k : A -> M Server C) (k' : A -> M (Server * Side) C) (Q : A -> Server -> Prop) :
  quiet P p p' Q -> (forall a, telling (Q a) (k a) (k' a)) -> telling P (bind p k) (bind p' k').
Proof.
  intros H K s s' x HP Hh Hs Hx. specialize (H s s' x HP Hh Hs). unfold bind.
  destruct (p s) as [a s1| | | |], (p' (s', x)) as [a' [s1' x1]| | | |]; try done. destruct H as (-> & HQ & H1 & S1 & G & ->).
  specialize (K a s1 s1' x HQ H1 S1 Hx). destruct (k a s1) as [c s2| | | |], (k' a (s1', x)) as [c' [s2' x2]| | | |]; try done.
  destruct K as (-> & [J1 J2 J3 J4]). split; [done|]. split; try done. by rewrite <- G.
Qed.

Lemma telling_ret {A C} (P : Server -> Prop) (p : M Server A) (p' : M (Server * Side) A) (c : C) :
  telling P p p' -> telling P (bind p (fun _ => ret c)) (bind p' (fun _ => ret c)).
Proof.
  intros H s s' x HP Hh Hs Hx. specialize (H s s' x HP Hh Hs Hx). unfold bind.
  destruct (p s) as [a s1| | | |], (p' (s', x)) as [a' [s1' x1]| | | |]; try done. cbn. by destruct H as [_ H].
Qed.

Lemma quiet_telling {A} (P : Server -> Prop) (p : M Server A) (p' : M (Server * Side) A) (Q : A -> Server -> Prop) : quiet P p p' Q -> telling P p p'.
Proof.
  intros H s s' x HP Hh Hs Hx. specialize (H s s' x HP Hh Hs).
  destruct (p s) as [a s1| | | |], (p' (s', x)) as [a' [s1' x1]| | | |]; try done. destruct H as (-> & _ & H1 & S1 & G & ->).
  split; [done|]. split; try done. exists [], []. rewrite G, !app_nil_r. by split_and!.
Qed.

Lemma telling_weaken {A} (P P' : Server -> Prop) (p : M Server A) (p' : M (Server * Side) A) : (forall s, P s -> P' s) -> telling P' p p' -> telling P p p'.
Proof. intros HP H s s' x Hs. by apply H, HP. Qed.

(** The table is looked at. *)
Lemma telling_names {A} (P : Server -> Prop) (n : list Z) (k : option sid -> M Server A) (k' : option sid -> M (Server * Side) A) :
  (forall o, telling (fun s => P s /\ names s !! n = o) (k o) (k' o)) ->
  telling P (let* s := get in k (names s !! n)) (let* w := get in k' (names (fst w) !! n)).
Proof.
  intros H s s' x HP Hh Hs Hx. unfold bind, get. cbn [fst]. rewrite (sh_names b s s' Hs). by apply H.
Qed.

(** *** The steps *)
Definition at_ (n : list Z) (v : sid) (x : Service) (s : Server) : Prop := names s !! n = Some v /\ service_heap s !! v = Some x.

Lemma quiet_service (n : list Z) (v : sid) : quiet (fun s => names s !! n = Some v) (get_service v) (on_server (get_service v)) (fun x => at_ n v x).
Proof.
  intros s s' x HP Hh Hs. unfold on_server. destruct (hu_linked b s Hh n v HP) as (y & Hy & _).
  rewrite (get_service_ok v y s Hy), (get_service_ok v y s'); [|by rewrite (sh_services b s s' Hs)]. cbn. unfold at_. auto 10.
Qed.

Lemma hub_names (s s1 : Server) : hub b s -> busRemote s1 = busRemote s -> remotes s1 = remotes s -> remote_heap s1 = remote_heap s -> nextRemote s1 = nextRemote s ->
  (next_id s <= next_id s1)%nat ->
  (forall n v, names s1 !! n = Some v -> exists x, service_heap s1 !! v = Some x /\ s_name x = n) -> (forall v x, service_heap s1 !! v = Some x -> field_text (s_name x)) ->
  (forall v, is_Some (service_heap s1 !! v) -> (v < next_id s1)%nat) -> hub b s1.
Proof.
  intros [H1 H2 H3 H4 H5 H6 H7 [H8 H8'] H9] E1 E2 E3 E4 Hn L1 L2 L3. split; rewrite ?E1, ?E2, ?E3, ?E4; try done. split; [done|]. intros r Hr. specialize (H8' r Hr). lia.
Qed.

(** Nothing but names and services changes, and in both. *)
Lemma shadow_names (s s' : Server) (n : gmap (list Z) sid) (h : gmap sid Service) : shadows b s s' -> shadows b (with_names n h s) (with_names n h s').
Proof. intros [S1 S2 S3 S4 S5 S6 S7 (R & R' & HR & [I1 I2 I3] & F)]. split; try done. exists R, R'. by split_and!. Qed.

Lemma quiet_put_service (n : list Z) (v : sid) (y : Service) (q : list ServiceOwner) :
  quiet (at_ n v y) (put_service v (set_queue q y)) (on_server (put_service v (set_queue q y))) (fun _ => at_ n v (set_queue q y)).
Proof.
  intros s s' x [Hn Hv] Hh Hs. unfold on_server, put_service, modify. cbn. split; [done|]. split; [split; [done|apply lookup_insert_eq]|].
  assert (Hy : s_name y = n) by (destruct (hu_linked b s Hh n v Hn) as (y' & Hy' & <-); congruence).
  split_and!; [|rewrite (sh_names b s s' Hs), (sh_services b s s' Hs); exact (shadow_names s s' _ _ Hs)|done|done].
  apply (hub_names s); try done; cbn.
  - intros n' v' Hv'. destruct (hu_linked b s Hh n' v' Hv') as (x' & Hx' & Hn'). rewrite lookup_insert. case_decide as E; [|by exists x'].
    subst v'. assert (x' = y) as -> by congruence. by eexists.
  - intros v' x'. rewrite lookup_insert. case_decide as E; [intros [= <-]; cbn; by apply (hu_names b s Hh v)|]. apply (hu_names b s Hh).
  - intros v'. rewrite lookup_insert. case_decide as E; [intros _; subst v'; apply (proj1 (hu_ids b s Hh)); by eexists|]. apply (proj1 (hu_ids b s Hh)).
Qed.

Lemma quiet_put_name (n : list Z) : field_text n -> quiet (fun _ => True) (put_name n) (on_server (put_name n)) (fun v s => names s !! n = Some v).
Proof.
  intros Ht s s' x _ Hh Hs. unfold on_server, put_name, bind, get. rewrite (sh_names b s s' Hs). destruct (names s !! n) as [v|] eqn:E; [cbn; by split_and!|].
  unfold alloc, modify, ret. cbn. rewrite (sh_next b s s' Hs). split; [done|]. split; [apply lookup_insert_eq|].
  assert (Hf : service_heap s !! next_id s = None).
  { destruct (service_heap s !! next_id s) eqn:F; [|done]. pose proof (proj1 (hu_ids b s Hh) (next_id s) ltac:(by eexists)). lia. }
  split_and!; [| |done|done].
  2:{ destruct Hs as [S1 S2 S3 S4 S5 S6 S7 (R & R' & HR & [I1 I2 I3] & F)]. split; cbn; try done; [by rewrite S1|by rewrite S2|]. exists R, R'. by split_and!. }
  apply (hub_names s); try done; cbn; [lia|..].
  - intros n' v'. rewrite lookup_insert. case_decide as En; [intros [= <-]; subst n'; eexists; by rewrite lookup_insert_eq|].
    intros Hv'. destruct (hu_linked b s Hh n' v' Hv') as (x' & Hx' & Hn'). exists x'. rewrite lookup_insert_ne; [done|congruence].
  - intros v' x'. rewrite lookup_insert. case_decide as Ev; [by intros [= <-]|]. apply (hu_names b s Hh).
  - intros v'. rewrite lookup_insert. case_decide as Ev; [lia|]. intros F%(proj1 (hu_ids b s Hh)). lia.
Qed.
End Both.

(** *** Remotes *)
Section Remotes.
Context {B : Build} (good : rid -> bool) (b : rid).

(** An update that does not look at the buffers. *)
Record face_map (f : Remote -> Remote) : Prop := {
  fm_face : forall R R', same_face R R' -> same_face (f R) (f R');
  fm_unique : forall R, unique (f R) = unique R;
  fm_hello : forall R, haveHello R = true -> haveHello (f R) = true;
  fm_sizes : forall R, headerSize (f R) = headerSize R /\ msgSize (f R) = msgSize R /\ parsedMsgSize (f R) = parsedMsgSize R }.

Lemma face_services (g : list sid -> list sid) : face_map (fun R => set_services (g (services R)) R).
Proof. split; try done. intros R R' (E1 & E2 & E3 & E4). unfold same_face. cbn. by rewrite E1, E2, E3, E4. Qed.
Lemma face_hello : face_map (set_hello true).
Proof. split; try done. intros R R' (E1 & E2 & E3 & E4). by split_and!. Qed.
Lemma face_matches (l : list Match) : face_map (set_matches l).
Proof. split; try done. intros R R' (E1 & E2 & E3 & E4). by split_and!. Qed.

Lemma hub_update (s : Server) (r : rid) (R R1 : Remote) : hub b s -> remote_heap s !! r = Some R -> unique R1 = unique R -> hub b (put_r r R1 s).
Proof.
  intros [H1 (Rb & Hb & Ub) H3 H4 H5 H6 H7 [H8 H8'] H9] HR HU. split; try done; cbn.
  - rewrite lookup_insert. case_decide as E; [subst r; exists R1; split; [done|]; rewrite HU; rewrite Hb in HR; by injection HR as <-|by exists Rb].
  - intros q Hq. rewrite lookup_insert. case_decide; [by eexists|by apply H4].
  - intros q Q. rewrite lookup_insert. case_decide as E; [intros [= <-]; rewrite HU; by apply (H7 r)|apply H7].
  - split; [done|]. intros q. rewrite lookup_insert. case_decide as E; [intros _; subst q; apply H8'; by eexists|apply H8'].
Qed.

Lemma shadow_update (s s' : Server) (r : rid) (R R' : Remote) (f : Remote -> Remote) : face_map f -> shadows b s s' ->
  remote_heap s !! r = Some R -> remote_heap s' !! r = Some R' -> shadows b (put_r r (f R) s) (put_r r (f R') s').
Proof.
  intros [F1 F2 F3 F4] [S1 S2 S3 S4 S5 S6 S7 (Rb & Rb' & HRb & [I1 I2 I3] & F)] HR HR'. split; try done; cbn.
  - intros q Hq. rewrite !lookup_insert. case_decide as E; [subst q; rewrite S7 in HR' by done; congruence|by apply S7].
  - destruct (decide (r = b)) as [->|Hne].
    + assert (Rb = R) as -> by congruence. assert (Rb' = R') as -> by congruence. exists (f R), (f R'). split; [apply lookup_insert_eq|]. split; [|by apply F1].
      split; cbn; [apply lookup_insert_eq|by apply F3|]. destruct (F4 R') as (-> & -> & ->). exact I3.
    + exists Rb, Rb'. split; [by rewrite lookup_insert_ne|]. split; [|exact F]. split; cbn; [by rewrite lookup_insert_ne|done|done].
Qed.

Lemma quiet_update (P : Server -> Prop) (r : rid) (f : Remote -> Remote) : face_map f -> (forall s R, P s -> P (put_r r R s)) ->
  quiet b P (let* x := get_remote r in put_remote r (f x)) (on_server (let* x := get_remote r in put_remote r (f x))) (fun _ => P).
Proof.
  intros Hf HP s s' x HPs Hh Hs. pose proof (shadow_remote b s s' r Hs) as G. unfold on_server, bind at 1 2, get_remote, bind, get.
  destruct (remote_heap s !! r) as [R|] eqn:HR, (remote_heap s' !! r) as [R'|] eqn:HR'; try done. cbn. split; [done|].
  split; [by apply HP|]. split; [apply (hub_update s r R); [done|done|by apply fm_unique]|]. split; [by apply (shadow_update s s' r R R')|done].
Qed.

(** *** adbusI_serv_ownerchanged *)
Definition look (r : option rid) (s : Server) : option (option Remote) :=
  match r with None => Some None | Some r => option_map Some (remote_heap s !! r) end.
Definition greeted_owner (R : option Remote) : option Remote := match R with Some x => if haveHello x then Some x else None | None => None end.

Lemma get_owner_look (r : option rid) (s : Server) : get_owner r s = match look r s with Some R => Ret R s | None => Oob end.
Proof. destruct r as [r|]; [|done]. cbn. unfold get_owner, get_remote, bind, get. by destruct (remote_heap s !! r). Qed.

Lemma look_face (r : option rid) (s s' : Server) : shadows b s s' ->
  match look r s, look r s' with Some (Some R), Some (Some R') => same_face R R' | Some None, Some None | None, None => True | _, _ => False end.
Proof.
  intros Hs. destruct r as [r|]; [|done]. pose proof (shadow_remote b s s' r Hs) as G. cbn. by destruct (remote_heap s !! r), (remote_heap s' !! r).
Qed.
End Remotes.

Section Changes.
Context {B : Build} (good : rid -> bool) (b : rid).

(** Both, step by step. *)
Definition may_own (R : option Remote) : bool := match R with Some x => haveHello x | None => true end.

Lemma changed_recorded (name : list Z) (o n : option rid) (s : Server) :
  adbusI_serv_ownerchanged name o n s =
  match look n s with
  | None => Oob
  | Some Rn => if may_own Rn || ndebug
               then match look o s with None => Oob | Some Ro => Ret tt (add_signals (change_signals name (greeted_owner Ro) Rn) s) end
               else Abort
  end.
Proof.
  unfold adbusI_serv_ownerchanged. unfold bind at 1. rewrite get_owner_look. destruct (look n s) as [Rn|]; [|done].
  unfold bind at 1, assert_. fold (may_own Rn). destruct (_ || _); [|done]. unfold bind at 1. rewrite get_owner_look. destruct (look o s) as [Ro|]; [|done]. apply emits_run.
Qed.

Lemma changed_sent (name : list Z) (o n : option rid) (s : Server) (x : Side) :
  serv_ownerchanged good name o n (s, x) =
  match look n s with
  | None => Oob
  | Some Rn => if may_own Rn || ndebug
               then match look o s with None => Oob | Some Ro => announce_all good (change_signals name (greeted_owner Ro) Rn) (s, x) end
               else Abort
  end.
Proof.
  unfold serv_ownerchanged. unfold bind at 1, on_server at 1. rewrite get_owner_look. destruct (look n s) as [Rn|]; [|done].
  unfold bind at 1, assert_. fold (may_own Rn). destruct (_ || _); [|done]. unfold bind at 1, on_server at 1. rewrite get_owner_look. destruct (look o s) as [Ro|]; [|done]. apply announces_run.
Qed.

Lemma same_change (name : list Z) (Ro Rn Ro' Rn' : option Remote) : option_map unique Ro' = option_map unique Ro -> option_map unique Rn' = option_map unique Rn ->
  change_signals name Ro' Rn' = change_signals name Ro Rn.
Proof. destruct Ro, Rn, Ro', Rn'; cbn; try done; congruence. Qed.

Lemma change_texts (name : list Z) (Ro Rn : option Remote) : field_text name -> (forall Q, Ro = Some Q \/ Rn = Some Q -> field_text (unique Q) /\ unique Q <> []) ->
  forall g, g ∈ change_signals name Ro Rn -> Forall field_text (signal_args g) /\ forall d, signal_dest g = Some d -> field_text d /\ d <> [].
Proof.
  intros Ht Hq g Hg. unfold change_signals in Hg. repeat (apply elem_of_app in Hg as [Hg|Hg]).
  - apply list_elem_of_singleton in Hg as ->. split; [|done]. repeat (apply Forall_cons; split); try done; (apply owner_text; intros q Eq; apply Hq; auto).
  - destruct Ro as [Q|]; [|by apply not_elem_of_nil in Hg]. apply list_elem_of_singleton in Hg as ->. split; [by apply Forall_singleton|]. intros d [= <-]. apply Hq. by left.
  - destruct Rn as [Q|]; [|by apply not_elem_of_nil in Hg]. apply list_elem_of_singleton in Hg as ->. split; [by apply Forall_singleton|]. intros d [= <-]. apply Hq. by right.
Qed.

Lemma sent_all_shadow (s s' : Server) (l : list BusSignal) (ms : list Message) : shadows b s s' -> sent_all good s' l ms = sent_all good s l ms.
Proof.
  intros Hs. unfold sent_all. f_equal. apply zip_with_ext; [|done|done]. intros g m. unfold sent_for, told_to. by rewrite (shadow_recipients b s s').
Qed.

Lemma hub_signals (s : Server) (l : list BusSignal) : hub b s -> hub b (add_signals l s).
Proof. intros []. by split. Qed.
Lemma shadow_signals (s s' : Server) (l : list BusSignal) : shadows b s s' -> shadows b (add_signals l s) s'.
Proof. intros []. by split. Qed.

(** The signals of a change are recorded in one run, and sent in the other. *)
Lemma change_sent (l : list BusSignal) (s s' : Server) (x : Side) : (forall g, g ∈ l -> Forall field_text (signal_args g) /\ forall d, signal_dest g = Some d -> field_text d /\ d <> []) ->
  hub b s -> shadows b s s' -> side_ok x -> exists s1' x1, announce_all good l (s', x) = Ret tt (s1', x1) /\ sent_since good b s x (add_signals l s) s1' x1.
Proof.
  intros Hl Hh Hs Hx. pose proof (shadow_hub b s s' Hh Hs) as Hh'. destruct (sh_hub b s s' Hs) as (R & R' & HR & Hi & F).
  destruct (hu_name b s' Hh') as (R0 & HR0 & HU). assert (R0 = R') as -> by (pose proof (id_live _ _ _ Hi); congruence).
  destruct (announce_all_run good l b Hl s' x R' Hx (hu_bus b s' Hh') Hi HU (hub_routable b s' Hh')) as (ms & s1' & x1 & E & A & O & X & K).
  exists s1', x1. split; [exact E|]. split; [by apply hub_signals|apply shadow_signals; by apply (kept_shadows b s s')|done|].
  exists l, ms. split; [done|]. split; [done|]. rewrite O. f_equal. exact (sent_all_shadow s s' l ms Hs).
Qed.

(** The change of an owner: what is recorded is what is sent. *)
Lemma changed_both (name : list Z) (o n : option rid) (s s' : Server) (x : Side) : field_text name -> hub b s -> shadows b s s' -> side_ok x ->
  agree (fun _ s1 s1' x1 => (exists l, s1 = add_signals l s) /\ sent_since good b s x s1 s1' x1)
    (adbusI_serv_ownerchanged name o n s) (serv_ownerchanged good name o n (s', x)).
Proof.
  intros Ht Hh Hs Hx. rewrite changed_recorded, changed_sent. pose proof (look_face b n s s' Hs) as Fn. pose proof (look_face b o s s' Hs) as Fo.
  assert (Tx : forall r R, look r s = Some (Some R) -> field_text (unique R) /\ unique R <> []).
  { intros [r|] R; [|done]. cbn. destruct (remote_heap s !! r) as [R0|] eqn:HR; [|done]. intros [= <-]. by apply (hu_texts b s Hh r). }
  destruct (look n s) as [Rn|] eqn:En, (look n s') as [Rn'|] eqn:En'; try (by (destruct Rn || destruct Rn')); [|done].
  assert (Ea : may_own Rn' = may_own Rn) by (destruct Rn, Rn'; try done; cbn; by destruct Fn as (_ & _ & _ & ->)).
  rewrite Ea. destruct (_ || _); [|done].
  destruct (look o s) as [Ro|] eqn:Eo, (look o s') as [Ro'|] eqn:Eo'; try (by (destruct Ro || destruct Ro')); [|done].
  rewrite (same_change name (greeted_owner Ro) Rn (greeted_owner Ro') Rn').
  - destruct (change_sent (change_signals name (greeted_owner Ro) Rn) s s' x) as (s1' & x1 & -> & S); try done.
    + apply change_texts; [done|]. intros Q [E|E]; [|subst Rn; by apply (Tx n)]. destruct Ro as [R|]; [|done]. cbn in E. destruct (haveHello R); [|done]. injection E as <-. by apply (Tx o).
    + split; [done|]. split; [by eexists|exact S].
  - destruct Ro as [R|], Ro' as [R'|]; try done. destruct Fo as (E1 & _ & _ & E4). cbn. rewrite E4. destruct (haveHello R); [|done]. cbn. by rewrite E1.
  - destruct Rn as [R|], Rn' as [R'|]; try done. destruct Fn as (E1 & _). cbn. by rewrite E1.
Qed.

Lemma telling_changed (P : Server -> Prop) (name : list Z) (o n : option rid) : field_text name ->
  telling good b P (adbusI_serv_ownerchanged name o n) (serv_ownerchanged good name o n).
Proof.
  intros Ht s s' x _ Hh Hs Hx. pose proof (changed_both name o n s s' x Ht Hh Hs Hx) as H.
  destruct (adbusI_serv_ownerchanged _ _ _ _), (serv_ownerchanged _ _ _ _ _) as [? [??]| | | |]; try done. by destruct H as (-> & _ & H).
Qed.
End Changes.

(** ** Names *)
Section NameOps.
Context {B : Build} (good : rid -> bool) (b : rid).

(** A fact that follows from the state. *)
Lemma telling_fact {A} (P : Server -> Prop) (F : Prop) (p : M Server A) (p' : M (Server * Side) A) :
  (forall s, hub b s -> P s -> F) -> (F -> telling good b P p p') -> telling good b P p p'.
Proof. intros HF H s s' x HP Hh. by apply H, Hh; [apply (HF s)|]. Qed.

Lemma at_text (n : list Z) (v : sid) (x : Service) (s : Server) : hub b s -> at_ n v x s -> s_name x = n /\ field_text n.
Proof.
  intros Hh [Hn Hv]. destruct (hu_linked b s Hh n v Hn) as (y & Hy & E). assert (y = x) as -> by congruence.
  split; [exact E|]. rewrite <- E. by apply (hu_names b s Hh v).
Qed.

Lemma recipients_owner (s s1 : Server) (m : Message) : remotes s1 = remotes s -> remote_heap s1 = remote_heap s -> busRemote s1 = busRemote s ->
  (forall d, owner s1 d = owner s d) -> recipients s1 m = recipients s m.
Proof.
  intros E1 E2 E3 E4. assert (Ea : addressee s1 m = addressee s m) by (unfold addressee; rewrite E3; destruct (msg_destination m); [by rewrite E4|done]).
  unfold recipients. rewrite E1, Ea. f_equal. apply filter_ext. intros r. unfold listens. by rewrite Ea, E2.
Qed.

(** The last of the queue is gone: the name is deleted. *)
Definition dropped (n : list Z) (v : sid) (s : Server) : Server := with_names (delete n (names s)) (delete v (service_heap s)) s.

Lemma dropped_owner (n : list Z) (v : sid) (x : Service) (s : Server) (d : list Z) : hub b s -> at_ n v x s -> queue x = [] -> owner (dropped n v s) d = owner s d.
Proof.
  intros Hh [Hn Hv] Hq. unfold owner. cbn. destruct (decide (d = n)) as [->|Hd].
  - by rewrite lookup_delete_eq, Hn, Hv, Hq.
  - rewrite lookup_delete_ne by done. destruct (names s !! d) as [v'|] eqn:E; [|done]. rewrite lookup_delete_ne; [done|]. intros <-.
    destruct (hu_linked b s Hh d v E) as (y & Hy & <-), (hu_linked b s Hh n v Hn) as (y' & Hy' & <-). congruence.
Qed.

Lemma dropped_hub (n : list Z) (v : sid) (s : Server) : hub b s -> names s !! n = Some v -> hub b (dropped n v s).
Proof.
  intros Hh Hn. apply (hub_names b s); try done; cbn.
  - intros d v' Hd. apply lookup_delete_Some in Hd as [Hne Hd]. destruct (hu_linked b s Hh d v' Hd) as (y & Hy & E). exists y. rewrite lookup_delete_ne; [done|].
    intros <-. destruct (hu_linked b s Hh n v Hn) as (y' & Hy' & E'). congruence.
  - intros v' y Hy. apply lookup_delete_Some in Hy as [_ Hy]. by apply (hu_names b s Hh v').
  - intros v' [y Hy]. apply lookup_delete_Some in Hy as [_ Hy]. apply (proj1 (hu_ids b s Hh)). by eexists.
Qed.

Lemma release_last (n : list Z) (v : sid) (x : Service) (r : rid) : field_text n -> queue x = [] ->
  telling good b (at_ n v x)
    (run* adbusI_serv_ownerchanged n (Some r) None in modify (fun s => with_names (delete n (names s)) (delete v (service_heap s)) s))
    (run* serv_ownerchanged good n (Some r) None in on_server (modify (fun s => with_names (delete n (names s)) (delete v (service_heap s)) s))).
Proof.
  intros Ht Hq s s' y [Hn Hv] Hh Hs Hy. pose proof (changed_both good b n (Some r) None s s' y Ht Hh Hs Hy) as H. unfold bind.
  destruct (adbusI_serv_ownerchanged _ _ _ s) as [[] s1| | | |], (serv_ownerchanged _ _ _ _ (s', y)) as [[] [s1' y1]| | | |]; try done.
  destruct H as (_ & [l El] & [H1 S1 Y1 (l' & ms & G & A & O)]). unfold on_server, modify. cbn. split; [done|].
  assert (Ha : at_ n v x s1) by (by subst s1). fold (dropped n v s1) (dropped n v s1').
  split; [apply dropped_hub; [done|apply Ha]|unfold dropped; rewrite (sh_names b s1 s1' S1), (sh_services b s1 s1' S1); by apply shadow_names|done|].
  exists l', ms. split; [done|]. split; [done|]. rewrite O. f_equal. unfold sent_all. f_equal. apply zip_with_ext; [|done|done]. intros g m. unfold sent_for, told_to.
  f_equal. f_equal. symmetry. apply recipients_owner; try done. intros d. by apply (dropped_owner n v x).
Qed.

Lemma quiet_remove (P : Server -> Prop) (r : rid) (v : sid) : (forall s R, P s -> P (put_r r R s)) ->
  quiet b P (adbusI_serv_removeServiceFromRemote r v) (on_server (adbusI_serv_removeServiceFromRemote r v)) (fun _ => P).
Proof. intros HP. apply (quiet_update b P r (fun R => set_services (remove_first v (services R)) R)); [apply (face_services (remove_first v))|done]. Qed.

Lemma quiet_push (P : Server -> Prop) (r : rid) (v : sid) : (forall s R, P s -> P (put_r r R s)) ->
  quiet b P (push_service r v) (on_server (push_service r v)) (fun _ => P).
Proof. intros HP. apply (quiet_update b P r (fun R => set_services (services R ++ [v]) R)); [apply (face_services (fun l => l ++ [v]))|done]. Qed.

Lemma telling_release (r : rid) (n : list Z) : telling good b (fun _ => True) (adbusI_serv_releasename r n) (sending_releasename good r n).
Proof.
  unfold adbusI_serv_releasename, sending_releasename. 
  apply (telling_names good b (fun _ => True) n
    (fun o => match o with None => ret ADBUS_SERVICE_RELEASE_INVALID_NAME | Some v => _ end) (fun o => match o with None => ret ADBUS_SERVICE_RELEASE_INVALID_NAME | Some v => _ end)).
  intros [v|]; [|apply (quiet_telling good b _ _ _ (fun _ _ => True)), quiet_ret; done].
  apply (telling_weaken good b _ (fun s => names s !! n = Some v)); [by intros s [_ ?]|].
  eapply telling_bind; [by apply quiet_remove|]. intros ?; cbv beta. eapply telling_bind; [apply quiet_service|]. intros serv.
  apply (telling_fact _ (s_name serv = n /\ field_text n)); [intros s; apply at_text|]. intros [En Ht].
  destruct (queue serv) as [|o q] eqn:Eq; [apply (quiet_telling good b _ _ _ (fun _ _ => True)), quiet_oob|].
  destruct (Nat.eqb_spec (o_remote o) r) as [_|Hne].
  - eapply telling_bind; [apply quiet_put_service|]. intros ?; cbv beta. apply telling_ret. rewrite En. destruct q as [|o' q].
    + by apply release_last.
    + by apply telling_changed.
  - apply (quiet_telling good b _ _ _ (fun _ _ => True)). intros s s' x Ha Hh Hs. unfold on_server. rewrite !release_loop_none by done. cbn. by split_and!.
Qed.

(** Who waits for a name is not found in its queue. *)
Lemma quiet_waiting (r : rid) (n : list Z) (v : sid) (x : Service) (o : ServiceOwner) (q : list ServiceOwner) : queue x = o :: q -> o_remote o <> r ->
  quiet b (at_ n v x) (adbusI_serv_releasename r n) (sending_releasename good r n) (fun _ => at_ n v x).
Proof.
  intros Hq Hne s s' y Ha Hh Hs. pose proof (quiet_remove (at_ n v x) r v ltac:(done) s s' y Ha Hh Hs) as H. destruct Ha as [Hn Hv].
  unfold adbusI_serv_releasename, sending_releasename. rewrite (bind_Ret get _ s s s eq_refl), (bind_Ret get _ (s', y) _ _ eq_refl). cbn [fst]. rewrite (sh_names b s s' Hs), Hn.
  destruct (adbusI_serv_removeServiceFromRemote r v s) as [[] s1| | | |] eqn:E, (on_server _ (s', y)) as [[] [s1' y1]| | | |] eqn:E'; try done;
    [|unfold bind at 1; rewrite E; unfold bind at 1; by rewrite E'..]. rewrite (bind_Ret _ _ _ _ _ E), (bind_Ret _ _ _ _ _ E').
  destruct H as (_ & Ha1 & H1 & S1 & G & ->). rewrite (bind_Ret _ _ _ _ _ (get_service_ok v x s1 (proj2 Ha1))).
  rewrite (bind_Ret (on_server (get_service v)) _ _ (s1', y) x).
  2:{ unfold on_server. by rewrite (get_service_ok v x s1') by (rewrite (sh_services b s1 s1' S1); apply Ha1). }
  rewrite Hq. rewrite (proj2 (Nat.eqb_neq _ _)) by done. unfold on_server. rewrite !release_loop_none by done. cbn. by split_and!.
Qed.

Lemma quiet_service_at (n : list Z) (v : sid) (x : Service) : quiet b (at_ n v x) (get_service v) (on_server (get_service v)) (fun y s => y = x /\ at_ n v x s).
Proof.
  intros s s' y [Hn Hv] Hh Hs. unfold on_server. rewrite (get_service_ok v x s Hv), (get_service_ok v x s'); [|by rewrite (sh_services b s s' Hs)].
  cbn. by split_and!.
Qed.

Lemma telling_request (r : rid) (n : list Z) (f : Z) : field_text n -> telling good b (fun _ => True) (adbusI_serv_requestname r n f) (sending_requestname good r n f).
Proof.
  intros Ht. unfold adbusI_serv_requestname, sending_requestname. eapply telling_bind; [by apply quiet_put_name|]. intros v.
  eapply telling_bind; [apply quiet_service|]. intros serv. cbv zeta. set (me := mkOwner r _).
  apply (telling_fact _ (s_name serv = n)); [intros s Hh Ha; by apply (at_text n v serv s)|]. intros En.
  destruct (queue serv) as [|o q] eqn:Eq; [|destruct (Nat.eqb_spec (o_remote o) r) as [_|Hne]; [|destruct (_ && _); [|destruct (negb _); [destruct (find_owner _ _ _) as [i|]|]]]].
  - eapply telling_bind; [by apply quiet_push|]. intros ?; cbv beta. eapply telling_bind; [apply quiet_put_service|]. intros ?; cbv beta.
    apply telling_ret. by apply telling_changed.
  - apply (quiet_telling good b _ _ _ (fun _ _ => True)). eapply quiet_bind; [apply quiet_put_service|]. intros ?. by apply quiet_ret.
  - rewrite En. eapply telling_bind; [by eapply quiet_waiting|]. intros ?; cbv beta. eapply telling_bind; [apply quiet_service_at|]. intros serv'; cbv beta.
    apply (telling_fact _ (serv' = serv)); [by intros s _ [E _]|]. intros ->. rewrite Eq. apply (telling_weaken good b _ (at_ n v serv)); [by intros s [_ Ha]|].
    eapply telling_bind; [by apply quiet_remove|]. intros ?; cbv beta. eapply telling_bind; [apply quiet_put_service|]. intros ?; cbv beta.
    apply telling_ret. by apply telling_changed.
  - apply (quiet_telling good b _ _ _ (fun _ _ => True)). eapply quiet_bind; [apply quiet_put_service|]. intros ?. by apply quiet_ret.
  - apply (quiet_telling good b _ _ _ (fun _ _ => True)). eapply quiet_bind; [by apply quiet_push|]. intros ?; cbv beta. eapply quiet_bind; [apply quiet_put_service|].
    intros ?. by apply quiet_ret.
  - rewrite En. apply telling_ret. eapply quiet_telling. by eapply quiet_waiting.
Qed.
End NameOps.

(** ** Histories *)
Section Histories.
Context {B : Build} (good : rid -> bool) (b : rid).

(** Taken out of the list of remotes. *)
Definition unlisted (r : rid) (s : Server) : Server := with_remotes (remove_first r (remotes s)) (remote_heap s) s.

(** The states of the table after each request and each release of a history:
    an operation has one of them, but a disconnect has one for each name that
    it releases. *)
Definition after {A} (p : M Server A) (s : Server) : list Server := match p s with Ret _ s1 => [s1] | _ => [] end.

Fixpoint release_moments (fuel : nat) (r : rid) (s : Server) : list Server :=
  match remote_heap s !! r with
  | Some R =>
      match services R, fuel with
      | v :: _, S fuel =>
          match service_heap s !! v with
          | Some x =>
              match adbusI_serv_releasename r (s_name x) s with
              | Ret _ s1 => s1 :: release_moments fuel r s1
              | _ => []
              end
          | None => []
          end
      | _, _ => []
      end
  | None => []
  end.

Definition op_moments (o : op) (s : Server) : list Server :=
  match o with
  | Connect => []
  | Disconnect r =>
      match remote_heap s !! r with
      | Some R => release_moments (length (services R)) r (put_r r (set_matches [] R) (unlisted r s))
      | None => []
      end
  | _ => after (run_op o) s
  end.

Fixpoint moments (l : list op) (s : Server) : list Server :=
  match l with
  | [] => []
  | o :: l => op_moments o s ++ match run_op o s with Ret _ s1 => moments l s1 | _ => [] end
  end.

(** The signals recorded from one of these states to the next went out, in
    order, to where the later one sends them; [sg] and [sg'] are all signals
    recorded before and after. *)
Inductive sent_along : list BusSignal -> list Server -> list BusSignal -> list (rid * Message) -> Prop :=
| along_end sg : sent_along sg [] sg []
| along_step sg t ts l ms sg' out : signals t = sg ++ l -> Forall2 announces l ms -> sent_along (sg ++ l) ts sg' out ->
    sent_along sg (t :: ts) sg' (sent_all good t l ms ++ out).

Record told_since (s : Server) (x : Side) (ts : list Server) (s1 s1' : Server) (x1 : Side) : Prop := {
  ts_hub : hub b s1;
  ts_shadows : shadows b s1 s1';
  ts_side : side_ok x1;
  ts_sent : exists out, sent_along (signals s) ts (signals s1) out /\ outbox x1 = outbox x ++ out }.

Definition chained {A} (P : Server -> Prop) (mo : Server -> list Server) (p : M Server A) (p' : M (Server * Side) A) : Prop :=
  forall s s' x, P s -> hub b s -> shadows b s s' -> side_ok x ->
  agree (fun _ s1 s1' x1 => told_since s x (mo s) s1 s1' x1) (p s) (p' (s', x)).

Lemma telling_chained {A} (P : Server -> Prop) (p : M Server A) (p' : M (Server * Side) A) : telling good b P p p' -> chained P (after p) p p'.
Proof.
  intros H s s' x HP Hh Hs Hx. specialize (H s s' x HP Hh Hs Hx). unfold after.
  destruct (p s) as [a s1| | | |], (p' (s', x)) as [a' [s1' x1]| | | |]; try done. destruct H as (-> & [H1 S1 Y1 (l & ms & G & A1 & O)]).
  split; [done|]. split; try done. exists (sent_all good s1 l ms ++ []). split; [|by rewrite app_nil_r]. apply along_step; [done|done|]. rewrite G. apply along_end.
Qed.

Lemma quiet_chained {A} (P : Server -> Prop) (p : M Server A) (p' : M (Server * Side) A) (Q : A -> Server -> Prop) : quiet b P p p' Q -> chained P (fun _ => []) p p'.
Proof.
  intros H s s' x HP Hh Hs Hx. specialize (H s s' x HP Hh Hs).
  destruct (p s) as [a s1| | | |], (p' (s', x)) as [a' [s1' x1]| | | |]; try done. destruct H as (-> & _ & H1 & S1 & G & ->).
  split; [done|]. split; try done. exists []. rewrite G, app_nil_r. split; [apply along_end|done].
Qed.

Lemma along_app (sg sg' sg2 : list BusSignal) (ts ts2 : list Server) (out out2 : list (rid * Message)) :
  sent_along sg ts sg' out -> sent_along sg' ts2 sg2 out2 -> sent_along sg (ts ++ ts2) sg2 (out ++ out2).
Proof.
  intros H H2. induction H as [|sg t ts l ms sg' out E A _ IH]; [done|]. rewrite <- app_assoc. cbn [app]. apply along_step; [done|done|]. by apply IH.
Qed.

Lemma told_trans (s : Server) (x : Side) (ts : list Server) (s1 s1' : Server) (x1 : Side) (ts2 : list Server) (s2 s2' : Server) (x2 : Side) :
  told_since s x ts s1 s1' x1 -> told_since s1 x1 ts2 s2 s2' x2 -> told_since s x (ts ++ ts2) s2 s2' x2.
Proof.
  intros [_ _ _ (o & A & O)] [H2 S2 Y2 (o2 & A2 & O2)]. split; try done. exists (o ++ o2). split; [by eapply along_app|]. by rewrite O2, O, app_assoc.
Qed.

Lemma chained_bind {A C} (P : Server -> Prop) (mo : Server -> list Server) (mk : A -> Server -> list Server) (p : M Server A) (p' : M (Server * Side) A)
  (k : A -> M Server C) (k' : A -> M (Server * Side) C) :
  chained P mo p p' -> (forall a, chained (fun _ => True) (mk a) (k a) (k' a)) ->
  chained P (fun s => mo s ++ match p s with Ret a s1 => mk a s1 | _ => [] end) (bind p k) (bind p' k').
Proof.
  intros H K s s' x HP Hh Hs Hx. specialize (H s s' x HP Hh Hs Hx). unfold bind.
  destruct (p s) as [a s1| | | |], (p' (s', x)) as [a' [s1' x1]| | | |]; try done. destruct H as (-> & T1).
  specialize (K a s1 s1' x1 I (ts_hub _ _ _ _ _ _ T1) (ts_shadows _ _ _ _ _ _ T1) (ts_side _ _ _ _ _ _ T1)).
  destruct (k a s1) as [c s2| | | |], (k' a (s1', x1)) as [c' [s2' x2]| | | |]; try done. destruct K as (-> & T2). split; [done|]. by eapply told_trans.
Qed.

Lemma chained_same {A} (P : Server -> Prop) (mo mo' : Server -> list Server) (p : M Server A) (p' : M (Server * Side) A) :
  (forall s, P s -> mo' s = mo s) -> chained P mo p p' -> chained P mo' p p'.
Proof. intros E H s s' x HP. rewrite (E s HP). by apply H. Qed.

Lemma chained_ret {A} (P : Server -> Prop) (a : A) : chained P (fun _ => []) (ret a) (ret a).
Proof. apply (quiet_chained _ _ _ (fun _ _ => True)). by apply quiet_ret. Qed.

(** The remote that is read has other buffers in the other run. *)
Lemma chained_remote {A} (P : Server -> Prop) (mo : Server -> list Server) (r : rid) (k : Remote -> M Server A) (k' : Remote -> M (Server * Side) A) :
  (forall R R', same_face R R' -> chained (fun s => P s /\ remote_heap s !! r = Some R) mo (k R) (k' R')) ->
  chained P mo (let* x := get_remote r in k x) (let* x := on_server (get_remote r) in k' x).
Proof.
  intros H s s' x HP Hh Hs Hx. pose proof (shadow_remote b s s' r Hs) as G.
  unfold bind at 1 2, on_server, get_remote, bind, get. destruct (remote_heap s !! r) as [R|] eqn:HR, (remote_heap s' !! r) as [R'|] eqn:HR'; try done.
  by apply (H R R').
Qed.

Lemma quiet_get_service (P : Server -> Prop) (v : sid) : quiet b P (get_service v) (on_server (get_service v)) (fun x s => P s /\ service_heap s !! v = Some x).
Proof.
  intros s s' x HP Hh Hs. unfold on_server, get_service, bind, get. rewrite (sh_services b s s' Hs). destruct (service_heap s !! v) as [y|] eqn:E; [|done].
  cbn. by split_and!.
Qed.

Lemma chained_release_all (fuel : nat) (r : rid) : chained (fun _ => True) (release_moments fuel r) (release_all fuel r) (sending_release_all good fuel r).
Proof.
  induction fuel as [|fuel IH]; cbn [release_all sending_release_all]; apply chained_remote; intros R R' (_ & _ & -> & _); destruct (services R) as [|v l] eqn:El;
    try (apply (chained_same _ (fun _ => [])); [|apply chained_ret]; intros s [_ HR]; cbn; by rewrite HR, El).
  - by intros s s' x _ _ _ _.
  - eapply chained_same.
    2:{ apply (chained_bind _ _ (fun serv s1 => after (adbusI_serv_releasename r (s_name serv)) s1 ++
          match adbusI_serv_releasename r (s_name serv) s1 with Ret _ s2 => release_moments fuel r s2 | _ => [] end)
          _ _ _ _ (quiet_chained _ _ _ _ (quiet_get_service _ v))). intros serv.
        apply (chained_bind _ _ (fun _ => release_moments fuel r)); [apply telling_chained, telling_release|]. intros _. exact IH. }
    intros s [_ HR]. cbn [release_moments app]. rewrite HR, El. unfold after, get_service, bind, get. destruct (service_heap s !! v) as [x|]; [|done]. cbn [ret].
    by destruct (adbusI_serv_releasename r (s_name x) s).
Qed.

(** *** The list of remotes *)
Definition keeps_list {A} (p : M Server A) : Prop := forall s a s1, p s = Ret a s1 -> remotes s1 = remotes s.

Lemma keeps_bind {A C} (p : M Server A) (k : A -> M Server C) : keeps_list p -> (forall a, keeps_list (k a)) -> keeps_list (bind p k).
Proof. intros Hp Hk s c s2 H. apply bind_inv in H as (a & s1 & E1 & E2). rewrite (Hk a s1 c s2 E2). by apply (Hp s a s1). Qed.

Lemma keeps_ret {A} (a : A) : keeps_list (ret a).
Proof. by intros s a' s1 [= _ <-]. Qed.
Lemma keeps_oob {A} : keeps_list (A := A) oob.
Proof. by intros s a s1. Qed.
Lemma keeps_get : keeps_list get.
Proof. by intros s a s1 [= _ <-]. Qed.
Lemma keeps_modify (f : Server -> Server) : (forall s, remotes (f s) = remotes s) -> keeps_list (modify f).
Proof. by intros Hf s a s1 [= _ <-]. Qed.
Lemma keeps_assert (c : bool) : keeps_list (assert_ c).
Proof. unfold assert_. intros s a s1. destruct (_ || _); [by intros [= _ <-]|done]. Qed.
#[local] Hint Resolve keeps_bind keeps_ret keeps_oob keeps_get keeps_modify keeps_assert : keeps.

Lemma keeps_remote (r : rid) : keeps_list (get_remote r).
Proof. apply keeps_bind; [apply keeps_get|]. intros s. destruct (_ !! _); auto with keeps. Qed.
Lemma keeps_service (v : sid) : keeps_list (get_service v).
Proof. apply keeps_bind; [apply keeps_get|]. intros s. destruct (_ !! _); auto with keeps. Qed.
#[local] Hint Resolve keeps_remote keeps_service : keeps.

Lemma keeps_changed (n : list Z) (o o' : option rid) : keeps_list (adbusI_serv_ownerchanged n o o').
Proof.
  assert (Ho : forall r, keeps_list (get_owner r)) by (intros [r|]; unfold get_owner; eauto 6 with keeps).
  apply keeps_bind; [apply Ho|]. intros N. apply keeps_bind; [apply keeps_assert|]. intros _. apply keeps_bind; [apply Ho|]. intros O.
  apply keeps_bind; [by apply keeps_modify|]. intros _. apply keeps_bind; [destruct O as [x|]; [destruct (haveHello x)|]; unfold emit; auto with keeps|]. intros _.
  destruct N; unfold emit; auto with keeps.
Qed.

Lemma keeps_loop (r : rid) (v : sid) (q : list ServiceOwner) (n : nat) : forall i, keeps_list (release_loop r v q i n).
Proof.
  induction n as [|n IH]; intros i; cbn [release_loop]; [apply keeps_ret|]. destruct q as [|o q]; [apply keeps_oob|]. destruct (_ =? _)%nat; [|apply IH].
  apply keeps_bind; [apply keeps_service|]. intros x. apply keeps_bind; [by apply keeps_modify|auto with keeps].
Qed.

Lemma keeps_release (r : rid) (n : list Z) : keeps_list (adbusI_serv_releasename r n).
Proof.
  apply keeps_bind; [apply keeps_get|]. intros s. destruct (names s !! n) as [v|]; [|apply keeps_ret].
  apply keeps_bind; [apply keeps_bind; [apply keeps_remote|]; intros x; by apply keeps_modify|]. intros _.
  apply keeps_bind; [apply keeps_service|]. intros x. destruct (queue x) as [|o q]; [apply keeps_oob|]. destruct (_ =? _)%nat; [|apply keeps_loop].
  apply keeps_bind; [by apply keeps_modify|]. intros _. apply keeps_bind; [|auto with keeps].
  destruct q; [apply keeps_bind; [apply keeps_changed|]; intros _; by apply keeps_modify|apply keeps_changed].
Qed.

Lemma keeps_release_all (fuel : nat) (r : rid) : keeps_list (release_all fuel r).
Proof.
  induction fuel as [|fuel IH]; cbn [release_all]; (apply keeps_bind; [apply keeps_remote|]); intros x; destruct (services x); try apply keeps_ret.
  - by intros s a s1.
  - apply keeps_bind; [apply keeps_service|]. intros y. apply keeps_bind; [apply keeps_release|]. intros _. exact IH.
Qed.

(** *** Remotes come and go *)
Lemma chained_hello (r : rid) : chained (fun _ => True) (after (say_hello r)) (say_hello r) (sending_hello good r).
Proof.
  intros s s' x _ Hh Hs Hx. pose proof (shadow_remote b s s' r Hs) as G. unfold after, say_hello, sending_hello.
  destruct (remote_heap s !! r) as [R|] eqn:HR, (remote_heap s' !! r) as [R'|] eqn:HR'; try done.
  2:{ unfold bind at 1 3, on_server, get_remote, bind, get. by rewrite HR, HR'. }
  rewrite (bind_Ret _ _ _ _ _ (get_remote_ok r R s HR)). rewrite (bind_Ret (on_server (get_remote r)) _ _ (s', x) R'); [|unfold on_server; by rewrite (get_remote_ok r R' s' HR')].
  rewrite (bind_Ret (put_remote r (set_hello true R)) _ s (put_r r (set_hello true R) s) tt eq_refl).
  rewrite (bind_Ret (on_server (put_remote r (set_hello true R'))) _ (s', x) (put_r r (set_hello true R') s', x) tt eq_refl).
  destruct (hu_texts b s Hh r R HR) as [Ht _]. rewrite (proj1 G).
  pose proof (telling_chained _ _ _ (telling_ret good b _ _ _ tt (telling_request good b r (unique R) 0 Ht)) (put_r r (set_hello true R) s) (put_r r (set_hello true R') s') x I
    (hub_update b s r R (set_hello true R) Hh HR eq_refl) (shadow_update b s s' r R R' (set_hello true) face_hello Hs HR HR') Hx) as H. unfold after in H.
  destruct (bind (adbusI_serv_requestname _ _ _) _ _) as [? s1| | | |], (bind (sending_requestname _ _ _ _) _ _) as [? [s1' x1]| | | |]; try done.
  destruct H as (-> & [H1 S1 Y1 E]). by split.
Qed.

Lemma connect_text (k : Z) : 0 <= k -> field_text (str ":1." ++ dec k) /\ str ":1." ++ dec k <> [].
Proof. intros Hk. split; [|done]. destruct (valid_plain _ (unique_valid k Hk)) as (H1 & H2 & H3). split_and!; [done|done|lia]. Qed.

Lemma chained_connect : chained (fun _ => True) (fun _ => []) adbus_serv_connect (on_server adbus_serv_connect).
Proof.
  apply (quiet_chained _ _ _ (fun _ _ => True)). intros s s' x _ Hh Hs. pose proof (shadow_hub b s s' Hh Hs) as Hh'.
  unfold on_server, adbus_serv_connect, alloc, take_number, bind, get, modify, ret. cbn. rewrite (hu_bus b s Hh), (hu_bus b s' Hh'). cbn.
  rewrite (sh_next b s s' Hs), (sh_number b s s' Hs). split; [done|]. split; [done|].
  destruct (hu_name b s Hh) as (Rb & HRb & Ub). pose proof (proj2 (hu_ids b s Hh)) as Hi. pose proof (Hi b ltac:(by eexists)) as Hbn.
  assert (Hne : next_id s <> b) by lia. pose proof (hu_number b s Hh) as Hnum.
  split; [|split; [|done]].
  - destruct Hh as [H1 H2 H3 H4 H5 H6 H7 [H8 H8'] H9]. split; try done; cbn.
    + exists Rb. by rewrite lookup_insert_ne.
    + constructor; [|done]. intros Hin%H4%Hi. lia.
    + intros q Hq. rewrite lookup_insert. case_decide; [by eexists|]. apply H4. by apply elem_of_cons in Hq as [->|Hq].
    + intros q Q. rewrite lookup_insert. case_decide; [intros [= <-]; by apply connect_text|apply H7].
    + split; [intros v Hv; specialize (H8 v Hv); lia|]. intros q. rewrite lookup_insert. case_decide; [lia|]. intros Hq%H8'. lia.
    + apply Z.mod_pos_bound. lia.
  - destruct Hs as [S1 S2 S3 S4 S5 S6 S7 (R & R' & HR & [I1 I2 I3] & F)]. split; cbn; try done; [by rewrite S3| |].
    + intros q Hq. rewrite !lookup_insert. case_decide; [done|by apply S7].
    + exists R, R'. split; [by rewrite lookup_insert_ne|]. split; [|done]. split; cbn; [by rewrite lookup_insert_ne|done|done].
Qed.

(** Taken out of the list, and freed. *)
Lemma unlisted_both (r : rid) (s s' : Server) : hub b s -> shadows b s s' -> hub b (unlisted r s) /\ shadows b (unlisted r s) (unlisted r s') /\ r ∉ remotes (unlisted r s).
Proof.
  intros [H1 H2 H3 H4 H5 H6 H7 H8 H9] [S1 S2 S3 S4 S5 S6 S7 (R & R' & HR & [I1 I2 I3] & F)]. split; [|split].
  - split; try done; cbn; [by apply NoDup_remove_first|]. intros q Hq. apply (elem_of_remove_first r q (remotes s) H3) in Hq. destruct Hq as [Hq _]. by apply H4.
  - split; cbn; try done; [by rewrite S3|]. exists R, R'. by split_and!.
  - cbn. intros Hr. by apply (elem_of_remove_first r r (remotes s) H3) in Hr as [_ Hr].
Qed.

Lemma forgotten_both (r : rid) (s s' : Server) : r <> b -> r ∉ remotes s -> hub b s -> shadows b s s' -> hub b (forget r s) /\ shadows b (forget r s) (forget r s').
Proof.
  intros Hb Hr [H1 (Rb & HRb & Ub) H3 H4 H5 H6 H7 [H8 H8'] H9] [S1 S2 S3 S4 S5 S6 S7 (R & R' & HR & [I1 I2 I3] & F)]. split.
  - split; try done; cbn.
    + exists Rb. by rewrite lookup_delete_ne.
    + intros q Hq. rewrite lookup_delete_ne; [by apply H4|]. by intros ->.
    + intros q Q HQ. apply lookup_delete_Some in HQ as [_ HQ]. by apply (H7 q).
    + split; [done|]. intros q [Q HQ]. apply lookup_delete_Some in HQ as [_ HQ]. apply H8'. by eexists.
  - split; cbn; try done.
    + intros q Hq. rewrite !lookup_delete. case_decide; [done|by apply S7].
    + exists R, R'. split; [by rewrite lookup_delete_ne|]. split; [|done]. split; cbn; [by rewrite lookup_delete_ne|done|done].
Qed.

Lemma chained_disconnect (r : rid) : r <> b -> chained (fun _ => True) (op_moments (Disconnect r)) (adbus_remote_disconnect r) (sending_disconnect good r).
Proof.
  intros Hb s s' x _ Hh Hs Hx. destruct (unlisted_both r s s' Hh Hs) as (H0 & S0 & Hr). unfold adbus_remote_disconnect, sending_disconnect.
  rewrite (bind_Ret (modify _) _ s (unlisted r s) tt eq_refl), (bind_Ret (on_server (modify _)) _ (s', x) (unlisted r s', x) tt eq_refl).
  cbn [op_moments]. change (remote_heap s !! r) with (remote_heap (unlisted r s) !! r). set (s0 := unlisted r s) in *. set (s0' := unlisted r s') in *. pose proof (shadow_remote b s0 s0' r S0) as G.
  destruct (remote_heap s0 !! r) as [R|] eqn:HR, (remote_heap s0' !! r) as [R'|] eqn:HR'; try done.
  2:{ unfold bind at 1 4, on_server, get_remote, bind, get. by rewrite HR, HR'. }
  rewrite (bind_Ret _ _ _ _ _ (get_remote_ok r R s0 HR)). rewrite (bind_Ret (on_server (get_remote r)) _ _ (s0', x) R'); [|unfold on_server; by rewrite (get_remote_ok r R' s0' HR')].
  set (s1 := put_r r (set_matches [] R) s0). set (s1' := put_r r (set_matches [] R') s0').
  rewrite (bind_Ret (put_remote r (set_matches [] R)) _ s0 s1 tt eq_refl), (bind_Ret (on_server (put_remote r (set_matches [] R'))) _ (s0', x) (s1', x) tt eq_refl).
  rewrite (proj1 (proj2 (proj2 G))).
  pose proof (chained_release_all (length (services R)) r s1 s1' x I (hub_update b s0 r R (set_matches [] R) H0 HR eq_refl)
    (shadow_update b s0 s0' r R R' (set_matches []) (face_matches []) S0 HR HR') Hx) as H. unfold bind.
  destruct (release_all _ r s1) as [[] s2| | | |] eqn:E2, (sending_release_all good _ r (s1', x)) as [[] [s2' x2]| | | |]; try done.
  destruct H as (_ & [H2 S2 Y2 (o & A2 & O2)]). assert (Hr2 : r ∉ remotes s2) by (by rewrite (keeps_release_all _ _ _ _ _ E2)).
  destruct (forgotten_both r s2 s2' Hb Hr2 H2 S2) as [H3 S3]. split; [done|]. split; [exact H3|exact S3|exact Y2|]. by exists o.
Qed.

(** The operations of a history that have texts and leave the bus alone. *)
Definition op_texts (o : op) : Prop :=
  match o with Request _ n _ => field_text n | Disconnect r => r <> b | _ => True end.

Lemma chained_op (o : op) : op_texts o -> chained (fun _ => True) (op_moments o) (run_op o) (sending_op good o).
Proof.
  destruct o as [|r|r n f|r n|r]; cbn [op_texts op_moments]; intros Ho.
  - cbn [run_op sending_op]. eapply chained_same; [|apply (chained_bind _ (fun _ => []) (fun _ _ => [])); [apply chained_connect|intros _; apply chained_ret]].
    intros s _. cbn [app]. by destruct (adbus_serv_connect s).
  - apply chained_hello.
  - apply telling_chained. cbn [run_op sending_op]. apply telling_ret, telling_request, Ho.
  - apply telling_chained. cbn [run_op sending_op]. apply telling_ret, telling_release.
  - by apply chained_disconnect.
Qed.

Lemma chained_ops (l : list op) : Forall op_texts l -> chained (fun _ => True) (moments l) (run_ops l) (sending_ops good l).
Proof.
  intros H. induction H as [|o l Ho _ IH]; cbn [run_ops sending_ops moments]; [apply chained_ret|].
  apply (chained_bind _ (op_moments o) (fun _ => moments l)); [by apply chained_op|]. intros _. exact IH.
Qed.
End Histories.

(** ** What the bus promises *)
Section Promises.
Context {B : Build}.

(** Between calls the bus can send. *)
Lemma bus_inv_hub (b : rid) (s : Server) : bus_inv s -> busRemote s = Some b -> hub b s.
Proof.
  intros [W V _] Hb. pose proof (w_number s W) as Hn.
  assert (Hu : forall r R, remote_heap s !! r = Some R -> field_text (unique R) /\ unique R <> []).
  { intros r R HR. destruct (w_unique s W r R HR) as [->|(k & -> & Hk)]; [split; [by apply bus_text|done]|apply connect_text; lia]. }
  destruct (w_remotes s W) as [Hnd Hl]. split; [done| |done|intros r Hr; by apply Hl|apply W| |exact Hu|apply W|apply Hn].
  - destruct (w_bus s W) as (b' & R & E & HR & HU & _). assert (b' = b) as -> by congruence. by exists R.
  - intros v x Hx. assert (Ho : is_Some (owner s (s_name x))).
    { unfold owner. rewrite (w_heap s W v x Hx), Hx. destruct (w_owner s W v x Hx) as (o & R & -> & _). by eexists. }
    destruct (valid_plain _ (V _ Ho)) as (H1 & H2 & H3). split_and!; [done|done|lia].
Qed.

Lemma shadows_refl (b : rid) (s : Server) (R : Remote) : idle b s R -> shadows b s s.
Proof. intros Hi. split; try done. exists R, R. by destruct Hi. Qed.

(** The server when the bus asks for its own name. *)
Definition opening : Server :=
  mkServer (Some 0%nat) None ∅ [0%nat] 0 ∅ (<[0%nat := mkRemote BUS_NAME [] BEGIN adbus_buf_new adbus_buf_new false 0 0 0 true []]> ∅) 1 [].

Lemma opening_hub : hub 0%nat opening.
Proof.
  split; try done.
  - eexists. split; [apply lookup_insert_eq|done].
  - apply NoDup_singleton.
  - intros r ->%list_elem_of_singleton. eexists. apply lookup_insert_eq.
  - intros r R HR. cbn in HR. apply lookup_insert_Some in HR as [[_ <-]|[_ HR]]; [|done]. split; [by apply bus_text|done].
  - split; [by intros v [x Hx]|]. intros r [R HR]. cbn in HR. apply lookup_insert_Some in HR as [[<- _]|[_ HR]]; [cbn; lia|done].
Qed.

(** The first change of an owner: the bus gets its own name. *)
Theorem start_announced (good : rid -> bool) (x : Side) : side_ok x ->
  agree (fun _ => sent_since good 0%nat opening x) (adbusI_serv_initbus server_zero) (sending_initbus good (server_zero, x)).
Proof.
  intros Hx. pose proof (telling_ret good 0%nat _ _ _ tt (telling_request good 0%nat 0%nat BUS_NAME 0 (proj1 bus_text)) opening opening x I opening_hub) as H.
  assert (E : adbusI_serv_initbus server_zero = (run* adbusI_serv_requestname 0%nat BUS_NAME 0 in ret tt) opening).
  { unfold adbusI_serv_initbus. erewrite bind_Ret by reflexivity. erewrite bind_Ret by reflexivity.
    rewrite (bind_Ret _ _ _ _ _ (get_remote_ok 0%nat _ _ (lookup_insert_eq _ _ _))). erewrite bind_Ret by reflexivity. unfold with_remotes. cbn. by rewrite insert_insert_eq. }
  assert (E' : sending_initbus good (server_zero, x) = (run* sending_requestname good 0%nat BUS_NAME 0 in ret tt) (opening, x)).
  { unfold sending_initbus. erewrite bind_Ret by reflexivity. erewrite bind_Ret by reflexivity.
    erewrite bind_Ret by (unfold on_server; rewrite (get_remote_ok 0%nat _ _ (lookup_insert_eq _ _ _)); reflexivity).
    erewrite bind_Ret by reflexivity. unfold with_remotes. cbn. by rewrite insert_insert_eq. }
  rewrite E, E'. apply H; [|done]. eapply shadows_refl. split; [apply lookup_insert_eq|done|done].
Qed.

(** C17: the operations on names send what they change.  Requesting and
    releasing a name, with any flags and whoever waits for it, end the same way
    whether the signals of the bus are recorded or sent where the code sends
    them: with the same result, the same names, services and remotes, and the
    same faults.  The messages that went out are exactly the signals, in order,
    each to the recipients that routing finds in the table as it is afterwards;
    for rules that give their type these are the remotes with a rule for it, in
    the order of their list, and its addressee.  So it goes through any history
    of connecting, saying hello, requesting, releasing and disconnecting: the
    signals of each request and each release, those of a disconnect included,
    go where the table sends them right after it; sending never disturbs the
    names. *)
Theorem names_announced (good : rid -> bool) (b : rid) (s s' : Server) (x : Side) : hub b s -> shadows b s s' -> side_ok x ->
  (forall r n f, field_text n -> agree (fun _ => sent_since good b s x) (adbusI_serv_requestname r n f s) (sending_requestname good r n f (s', x))) /\
  (forall r n, agree (fun _ => sent_since good b s x) (adbusI_serv_releasename r n s) (sending_releasename good r n (s', x))) /\
  (forall l, Forall (op_texts b) l -> agree (fun _ => told_since good b s x (moments l s)) (run_ops l s) (sending_ops good l (s', x))) /\
  (forall t args m, hub b t -> let m' := set_arguments (Some (string_args args)) m in types_given t m' -> reached_by t m' (told_to t args m)).
Proof.
  intros Hh Hs Hx. split; [|split; [|split]].
  - intros r n f Ht. by apply telling_request.
  - intros r n. by apply telling_release.
  - intros l Hl. by apply chained_ops.
  - intros t args m Ht m' Hg. apply recipients_reached; [apply (hub_routable b t Ht)|exact Hg].
Qed.
End Promises.

(** ** Samples *)
Section Samples.
#[local] Existing Instance debug_build.
#[local] Opaque sample_state.

Lemma sample_hub : hub 0%nat sample_state.
Proof. apply bus_inv_hub; [apply sample_inv|by vm_compute]. Qed.

(** Client 4 asks for a new name. *)
Definition asked : outcome Server Z := adbusI_serv_requestname 4%nat (str "c.d") 0 sample_state.
Definition asked_signals : list BusSignal := [NameOwnerChanged (str "c.d") [] (str ":1.1"); Server.NameAcquired (str ":1.1") (str "c.d")].

Definition no_rules (s : Server) : bool :=
  forallb (fun r => match remote_heap s !! r with Some R => match matches R with [] => true | _ => false end | None => true end) (remotes s).

Lemma asked_view : match asked with
  | Ret z s => z = ADBUS_SERVICE_SUCCESS /\ signals s = signals sample_state ++ asked_signals /\
      owner s (str ":1.1") = Some 4%nat /\ owner s (str "c.d") = Some 4%nat /\ no_rules s = true
  | _ => False end.
Proof. vm_compute. split_and!; reflexivity. Qed.

Lemma asked_run : exists s, adbusI_serv_requestname 4%nat (str "c.d") 0 sample_state = Ret ADBUS_SERVICE_SUCCESS s /\
  signals s = signals sample_state ++ asked_signals /\ owner s (str ":1.1") = Some 4%nat /\ owner s (str "c.d") = Some 4%nat /\ no_rules s = true.
Proof. pose proof asked_view as V. unfold asked in V. destruct (adbusI_serv_requestname _ _ _ _) as [z s| | | |]; try done. destruct V as (-> & V). by exists s. Qed.

Lemma no_rules_recipients (s : Server) (m : Message) : no_rules s = true -> recipients s m = option_list (addressee s m).
Proof.
  unfold no_rules. intros H. unfold recipients. rewrite (filter_none (listens s m)); [reflexivity|]. intros r Hr. rewrite forallb_forall in H. specialize (H r Hr). unfold listens.
  destruct (remote_heap s !! r) as [R|]; [|by rewrite andb_false_r]. destruct (matches R); [by rewrite andb_false_r|discriminate H].
Qed.

Lemma names_announced_witness : exists x s1 s1' x1 m1 m2,
  adbusI_serv_requestname 4%nat (str "c.d") 0 sample_state = Ret ADBUS_SERVICE_SUCCESS s1 /\
  sending_requestname (fun _ => true) 4%nat (str "c.d") 0 (sample_state, x) = Ret ADBUS_SERVICE_SUCCESS (s1', x1) /\
  owner s1' (str "c.d") = Some 4%nat /\
  is_announcement CHANGED None [str "c.d"; []; str ":1.1"] m1 /\ is_announcement ACQUIRED (Some (str ":1.1")) [str "c.d"] m2 /\
  outbox x1 = outbox x ++ [(4%nat, m2)].
Proof.
  destruct sample_side_ok as (x & _ & Hx). destruct sample_views as (V0 & _). apply view_remote in V0 as (R & H0 & _).
  destruct (names_announced (fun _ => true) 0%nat sample_state sample_state x sample_hub (shadows_refl 0%nat sample_state R H0) Hx) as (H & _).
  destruct asked_run as (s1 & E & Vs & Vo & Vn & Vm).
  destruct (agree_Ret _ _ _ _ _ (H 4%nat (str "c.d") 0 ltac:(by apply short_text)) E) as (s1' & x1 & E' & [_ S1 _ (l & ms & G & A & O)]).
  assert (l = asked_signals) as -> by (apply (app_inv_head (signals sample_state)); congruence).
  unfold asked_signals in A. apply Forall2_cons_inv_l in A as (m1 & ms1 & A1 & A & ->). apply Forall2_cons_inv_l in A as (m2 & ms2 & A2 & A & ->). apply Forall2_nil_inv_l in A as ->.
  exists x, s1, s1', x1, m1, m2. split; [exact E|]. split; [exact E'|]. split; [unfold owner in *; by rewrite (sh_names _ _ _ S1), (sh_services _ _ _ S1)|].
  split; [exact A1|]. split; [exact A2|]. rewrite O. f_equal. unfold sent_all, sent_for, told_to, asked_signals. cbn [zip_with concat signal_args]. rewrite !no_rules_recipients by exact Vm.
  unfold addressee. cbn [set_arguments msg_destination msg_type]. rewrite (ia_destination _ _ _ _ A1), (ia_destination _ _ _ _ A2), (ia_type _ _ _ _ A1).
  cbn [signal_dest]. rewrite Vo. reflexivity.
Defined.
End Samples.
