(* ===== verification/Logging.v ===== *)
(** The log (adbus/debug.c and the logger of adbus/misc.c): messages, binds,
    matches and replies as text, with their arguments, and the header that is
    put in front of the lines. *)

From Stdlib Require Import ZArith Lia.
From stdpp Require Import base option list numbers strings gmap.
From S2P Require Import Prelude Objects Signature Iterator Values Buffer Flip Text MatchRule Message Factory Client Bus Containers.
#[local] Open Scope Z_scope.
#[local] Open Scope adbus_scope.

(** ** printf

    The conversions of the formats of debug.c.  [%p] is left to the library of
    the platform: a parameter below. *)
Definition QUOTE : Z := 34.
Definition quoted (s : list Z) : list Z := QUOTE :: s ++ [QUOTE].

(** [%d] of a negative number too. *)
Definition sdec (z : Z) : list Z := if z <? 0 then 45 :: dec (- z) else dec z.
(** The signed value of an [n]-byte integer. *)
Definition signed (n : Z) (z : Z) : Z := if z <? 2 ^ (8 * n - 1) then z else z - 2 ^ (8 * n).

Definition pad_right (width : Z) (s : list Z) : list Z := s ++ repeat 32 (Z.to_nat (width - len s)).
(** [%*s]: a negative width is the flag [-] and its absolute value. *)
Definition fmt_width (width : Z) (s : list Z) : list Z := if width <? 0 then pad_right (- width) s else pad_string width s.

(** *** [%.15g]

    A double, given by its bits, is [fst] / [snd] exactly. *)
Definition fraction (bits : Z) : Z * Z :=
  let e := Z.land (Z.shiftr bits 52) 2047 in
  let f := Z.land bits (2 ^ 52 - 1) in
  let '(m, k) := if e =? 0 then (f, -1074) else (f + 2 ^ 52, e - 1075) in
  if k <? 0 then (m, 2 ^ (- k)) else (m * 2 ^ k, 1).

(** 10^x <= n / d < 10^(x + 1), looked for downwards from [x]. *)
Fixpoint decimal_exponent (fuel : nat) (n d x : Z) : Z :=
  match fuel with
  | O => x
  | S fuel => if (if 0 <=? x then d * 10 ^ x <=? n else d <=? n * 10 ^ (- x)) then x else decimal_exponent fuel n d (x - 1)
  end.

(** Division with rounding to the nearest, ties to even. *)
Definition div_even (a b : Z) : Z :=
  let q := a / b in
  let r := 2 * (a mod b) in
  if (b <? r) || ((b =? r) && Z.odd q) then q + 1 else q.

Fixpoint strip_zeros (l : list Z) : list Z :=
  match l with
  | [] => []
  | c :: l => match strip_zeros l with [] => if c =? 48 then [] else [c] | l' => c :: l' end
  end.
(** Digits before the point and after it, without trailing zeros. *)
Definition with_point (l r : list Z) : list Z := match strip_zeros r with [] => l | r => l ++ chr "." :: r end.

Definition fmt_g (bits : Z) : list Z :=
  let e := Z.land (Z.shiftr bits 52) 2047 in
  let f := Z.land bits (2 ^ 52 - 1) in
  (if Z.testbit bits 63 then [45] else []) ++
  if e =? 2047 then (if f =? 0 then str "inf" else str "nan") else
  if (e =? 0) && (f =? 0) then str "0" else
  let '(n, d) := fraction bits in
  let x := decimal_exponent 700 n d 309 in
  let q := if x <=? 14 then div_even (n * 10 ^ (14 - x)) d else div_even n (d * 10 ^ (x - 14)) in
  let '(q, x) := if q =? 10 ^ 15 then (10 ^ 14, x + 1) else (q, x) in
  let s := dec q in
  if (-4 <=? x) && (x <? 15) then
    if x <? 0 then with_point (str "0") (repeat 48 (Z.to_nat (- x - 1)) ++ s)
    else with_point (take (Z.to_nat (x + 1)) s) (drop (Z.to_nat (x + 1)) s)
  else with_point (take 1 s) (drop 1 s) ++ chr "e" :: (if x <? 0 then chr "-" else chr "+") ::
    (if Z.abs x <? 10 then [48] else []) ++ dec (Z.abs x).

Example fmt_g_samples : map fmt_g [4607182418800017408; 4599676419421066581; 4890909195324358656; 13826050856027422720; 9218868437227405312; 4457293557087583675; 4591870180066957722] =
  map str ["1"; "0.333333333333333"; "9.22337203685478e+18"; "-0.5"; "inf"; "1e-10"; "0.1"]%string.
Proof. vm_compute. reflexivity. Qed.

(** ** The text that is built, and the iterator over the arguments *)
Record Log := mkLog { l_text : d_String; l_iter : Iterator }.
#[export] Instance part_text : Part Log d_String := { part := l_text; set_part s w := mkLog s (l_iter w) }.
#[export] Instance part_iter : Part Log Iterator := { part := l_iter; set_part i w := mkLog (l_text w) i }.
#[export] Instance part_text_laws : PartLaws Log d_String.
Proof. split; by intros; try destruct w. Qed.
#[export] Instance part_iter_laws : PartLaws Log Iterator.
Proof. split; by intros; try destruct w. Qed.

Section Values.
Context {B : Build} (m : list Z).

(** ds_cat_f, whose result is not looked at, and ds_cat. *)
Definition cat_f (text : list Z) : M Log unit := run* on_part (ds_cat_vf text) in ret tt.
Definition cat (text : list Z) : M Log unit := on_part (ds_cat_n text (length text)).
Definition it {A} (op : M Iterator A) : M Log A := on_part op.

Definition LogNumber (op : M Iterator Z) (n : nat) (text : Z -> list Z) : M Log unit :=
  let* p := it op in
  let* v := load m p n in
  cat_f (text v).
(** The size is the width of the conversion: it does not end the string. *)
Definition LogString (op : M Iterator (Z * Z)) : M Log unit :=
  let* s := it op in
  cat_f (quoted (fmt_width (int32 (snd s)) (cstr (drop (Z.to_nat (fst s)) m)))).

(** [while (more) { if (!first) ds_cat(str, ", "); ... }] *)
Fixpoint LogItems (fuel : nat) (more : M Log bool) (log : M Log unit) (first : bool) : M Log unit :=
  let* b := more in
  if b then
    match fuel with
    | O => nofuel
    | S fuel =>
        run* (if first then ret tt else cat (str ", ")) in
        run* log in
        LogItems fuel more log false
    end
  else ret tt.

(** The functions below call [LogField], here [log]. *)
Definition LogArray (fuel : nat) (log : M Log unit) : M Log unit :=
  let* a := it (adbus_iter_beginarray m) in
  let* w := get in
  let map := deref (sig (l_iter w)) =? chr "{" in
  run* cat (str (if map then "{" else "[")) in
  run* LogItems fuel (it (adbus_iter_inarray a)) log true in
  run* cat_f (str (if map then "}" else "]")) in
  it (adbus_iter_endarray a).

Definition LogStruct (fuel : nat) (log : M Log unit) : M Log unit :=
  run* it adbus_iter_beginstruct in
  run* cat_f (str "(") in
  run* LogItems fuel (fun w => Ret (negb (deref (sig (l_iter w)) =? chr ")")) w) log true in
  run* cat_f (str ")") in
  it adbus_iter_endstruct.

Definition LogVariant (log : M Log unit) : M Log unit :=
  let* v := it (adbus_iter_beginvariant m) in
  let* w := get in
  run* cat_f (str "<" ++ sig (l_iter w) ++ str ">{") in
  run* log in
  let* w := get in
  run* require (deref (sig (l_iter w)) =? 0) in
  run* cat_f (str "}") in
  run* it (adbus_iter_endvariant v) in ret tt.

(** One unit of fuel per nested call and per iteration. *)
Fixpoint LogField (fuel : nat) : M Log unit :=
  match fuel with
  | O => nofuel
  | S fuel =>
      let* w := get in
      match field_of (deref (sig (l_iter w))) with
      | Some (Basic BOOLEAN) => LogNumber adbus_iter_bool 4 (fun v => if v =? 0 then str "false" else str "true")
      | Some (Basic UINT8) => LogNumber adbus_iter_u8 1 sdec
      | Some (Basic INT16) => LogNumber adbus_iter_i16 2 (fun v => sdec (signed 2 v))
      | Some (Basic UINT16) => LogNumber adbus_iter_u16 2 sdec
      | Some (Basic INT32) => LogNumber adbus_iter_i32 4 (fun v => sdec (signed 4 v))
      | Some (Basic UINT32) => LogNumber adbus_iter_u32 4 dec
      | Some (Basic INT64) => LogNumber adbus_iter_i64 8 (fun v => sdec (signed 8 v))
      | Some (Basic UINT64) => LogNumber adbus_iter_u64 8 dec
      | Some (Basic DOUBLE) => LogNumber adbus_iter_double 8 fmt_g
      | Some (Basic STRING) => LogString (adbus_iter_string m)
      | Some (Basic OBJECT_PATH) => LogString (adbus_iter_objectpath m)
      | Some (Basic SIGNATURE) => LogString (adbus_iter_signature m)
      | Some DICTENTRY_BEGIN =>
          run* LogField fuel in
          run* cat_f (str " = ") in
          run* LogField fuel in
          let* w := get in
          require (deref (sig (l_iter w)) =? chr "}")
      | Some ARRAY_BEGIN => LogArray fuel (LogField fuel)
      | Some STRUCT_BEGIN => LogStruct fuel (LogField fuel)
      | Some VARIANT_BEGIN => LogVariant (LogField fuel)
      | _ => assert_fail
      end
  end.

(** [while (i.sig && *i.sig)] *)
Fixpoint LogArguments (fuel : nat) (argnum : Z) : M Log unit :=
  let* w := get in
  if deref (sig (l_iter w)) =? 0 then ret tt else
  match fuel with
  | O => nofuel
  | S fuel =>
      run* cat_f (str "Argument " ++ pad_string 2 (dec argnum) ++ str "     ") in
      run* LogField fuel in
      run* on_part (ds_cat_char NL) in
      LogArguments fuel (argnum + 1)
  end.
End Values.

(** ** Messages, binds, matches and replies *)
Definition label (what : list Z) : list Z := pad_right 15 what ++ str " ".

Section Summaries.
Context {B : Build} {P F I : Type}.
(** What [%p] writes for a pointer, a function and an interface. *)
Context (show_p : P -> list Z) (show_f : F -> list Z) (show_i : I -> list Z).

Definition print (text : list Z) : M d_String unit := run* ds_cat_vf text in ret tt.
(** [field text NEWLINE] *)
Definition line (what : string) (text : list Z) : M d_String unit := print (label (str what) ++ text ++ [NL]).
Definition when {S} (c : bool) (op : M S unit) : M S unit := if c then op else ret tt.

Definition PrintStringField (field : option (list Z)) (what : string) : M d_String unit :=
  match field with Some f => line what (quoted (cstr f)) | None => ret tt end.

Definition MsgSummary (fuel : nat) (m : Message) : M d_String unit :=
  run* print (match msg_type m with
              | MSG_METHOD => str "Method call: " | MSG_RETURN => str "Return: " | MSG_ERROR => str "Error: " | MSG_SIGNAL => str "Signal: "
              | MSG_INVALID => str "Unknown (" ++ sdec (code_of_type (msg_type m)) ++ str "): " end) in
  run* print (str "Flags " ++ sdec (msg_flags m) ++ str ", Length " ++ sdec (int32 (msg_size m)) ++ str ", Serial " ++ sdec (int32 (msg_serial m)) ++ [NL]) in
  run* (match replySerial m with Some n => line "Reply serial" (dec n) | None => ret tt end) in
  run* PrintStringField (msg_sender m) "Sender" in
  run* PrintStringField (msg_destination m) "Destination" in
  run* PrintStringField (msg_path m) "Path" in
  run* PrintStringField (msg_interface m) "Interface" in
  run* PrintStringField (msg_member m) "Member" in
  run* PrintStringField (msg_error m) "Error" in
  run* PrintStringField (signature m) "Signature" in
  match adbus_iter_args m with
  | None => ret tt
  | Some i => fun v =>
      match LogArguments (argdata m) fuel 0 (mkLog v i) with
      | Ret _ w => Ret tt (l_text w) | Err w => Err (l_text w) | Abort => Abort | Oob => Oob | Nofuel => Nofuel
      end
  end.

(** Debug.c has its own [Append]. *)
Definition AppendField (field : string) (value : option (list Z)) (vsize : Z) : M d_String unit :=
  match value with
  | Some v => line field (quoted (fmt_width (if vsize <? 0 then len (cstr v) else vsize) (cstr v)))
  | None => ret tt
  end.

Definition LogRelease (what : string) (f : option F) (u : P) : M d_String unit :=
  match f with Some f => line what (show_f f ++ str " " ++ show_p u) | None => ret tt end.

(** [null] is the NULL pointer: the callback of a bind is not printed. *)
Definition BindString (null : P) (path : option (list Z)) (pathSize : Z) (i : I) (name : option (list Z)) (f0 : option F) (u0 : P) (f1 : option F) (u1 : P) : M d_String unit :=
  run* AppendField "Path" path pathSize in
  run* (match name with Some n => line "Interface" (show_i i ++ str " " ++ cstr n) | None => line "Interface" (show_i i) end) in
  run* line "Callback" (show_p null ++ str " " ++ show_p null) in
  run* LogRelease "Release 0" f0 u0 in
  LogRelease "Release 1" f1 u1.

Fixpoint MatchArguments (i : Z) (l : list Argument) : M d_String unit :=
  match l with
  | [] => ret tt
  | a :: l =>
      run* (match arg_value a with
            | Some v => print (str "Argument " ++ pad_right 2 (dec i) ++ str "     " ++
                quoted (if 0 <=? arg_size a then fmt_width (arg_size a) (cstr v) else cstr v) ++ [NL])
            | None => ret tt end) in
      MatchArguments (i + 1) l
  end.
End Summaries.

(** [%p] of what a client keeps. *)
Record Printer := mkPrinter { show_p : Client.pointer -> list Z; show_f : Client.Callback -> list Z; show_m : MsgCallback -> list Z }.

Section Registrations.
Context {B : Build} (pr : Printer).

Definition LogCallback (what : string) (f : option MsgCallback) (u : Client.pointer) : M d_String unit :=
  match f with Some f => line what (show_m pr f ++ str " " ++ show_p pr u) | None => ret tt end.

Definition MatchString (x : MatchReg) : M d_String unit :=
  let m := x_m x in
  run* when (x_addMatchToBusDaemon x) (print (str "Add to bus" ++ [NL])) in
  run* LogCallback "Callback" (x_callback x) (x_cuser x) in
  run* LogRelease (show_p pr) (show_f pr) "Release 0" (release0 (x_release x)) (ruser0 (x_release x)) in
  run* LogRelease (show_p pr) (show_f pr) "Release 1" (release1 (x_release x)) (ruser1 (x_release x)) in
  run* when (negb (code_of_type (cm_type m) =? 0)) (line "Type" (TypeString (cm_type m))) in
  run* when (0 <=? x_replySerial x) (line "Reply serial" (dec (x_replySerial x mod 2 ^ 32))) in
  run* AppendField "Sender" (sender m) (senderSize m) in
  run* AppendField "Destination" (destination m) (destinationSize m) in
  run* AppendField "Interface" (interface m) (interfaceSize m) in
  run* AppendField "Path" (path m) (pathSize m) in
  run* AppendField "Member" (member m) (memberSize m) in
  run* AppendField "Error" (x_error x) (x_errorSize x) in
  MatchArguments 0 (arguments m).

Definition ReplyString (r : adbus_Reply) : M d_String unit :=
  let h := y_hooks r in
  run* line "Serial" (dec (y_serial r mod 2 ^ 32)) in
  run* AppendField "Remote" (y_remote r) (y_remoteSize r) in
  run* LogCallback "Callback" (y_callback h) (y_cuser h) in
  run* LogCallback "Error" (y_error h) (y_euser h) in
  run* LogRelease (show_p pr) (show_f pr) "Release 0" (release0 (y_release h)) (ruser0 (y_release h)) in
  LogRelease (show_p pr) (show_f pr) "Release 1" (release1 (y_release h)) (ruser1 (y_release h)).
End Registrations.

(** ** The header *)
Section Header.
Context {B : Build}.

(** [while (i < ds_size(str) - 1)]: for an empty string the difference wraps
    around, and the loop reads outside of the string. *)
Fixpoint header_loop (fuel : nat) (hsize i : nat) : M d_String unit :=
  let* v := get in
  match ds_size v with
  | O => oob
  | S last =>
      if (i <? last)%nat then
        match fuel with
        | O => nofuel
        | S fuel =>
            let* c := dv_a i in
            run* (if c =? NL then ds_insert_n (i + 1) (repeat 32 hsize) hsize else ret tt) in
            header_loop fuel hsize (i + 1)
        end
      else ret tt
  end.

Definition adbusI_addheader (header : list Z) : M d_String unit :=
  let* v := get in
  let begin := ds_size v in
  run* ds_insert_vf 0 header in
  let* v := get in
  let hsize := (ds_size v - begin)%nat in
  header_loop (ds_size v * S hsize) hsize 0.
End Header.

(** ** The logger

    [sLog] is the callback, [logged] what it was called with. *)
Record Logger := mkLogger { sLog : option nat; logged : list (nat * list Z * Z) }.

Section Logger.
Context {B : Build}.

Definition adbus_set_logger (cb : option nat) : M Logger unit := modify (fun l => mkLogger cb (logged l)).
Definition adbusI_log_enabled : M Logger bool := fun l => Ret (isSome (sLog l)) l.

Definition adbusI_klog (v : d_String) : M Logger unit := fun l =>
  match sLog l with
  | None => Ret tt l
  | Some f =>
      match ds_cstr v v with
      | Ret s _ => Ret tt (mkLogger (Some f) (logged l ++ [(f, s, Z.of_nat (ds_size v))]))
      | _ => Oob
      end
  end.

(** A string is made by [op] and given to adbusI_klog. *)
Definition log_string (op : M d_String unit) : M Logger unit := fun l =>
  match op dv_init with
  | Ret _ v => adbusI_klog v l
  | Err _ => Err l | Abort => Abort | Oob => Oob | Nofuel => Nofuel
  end.

Definition adbusI_dolog (text : list Z) : M Logger unit :=
  let* b := adbusI_log_enabled in
  if b then log_string (print text) else ret tt.

(** What the four functions below share; that the text is not complete is not
    looked at. *)
Definition log_text (header : list Z) (op : M d_String unit) : M Logger unit :=
  let* b := adbusI_log_enabled in
  if b then log_string (run* ignore op in adbusI_addheader (pad_right 10 header ++ str " ")) else ret tt.

Definition adbusI_logmsg (fuel : nat) (header : list Z) (m : Message) : M Logger unit := log_text header (MsgSummary fuel m).
Definition adbusI_logbind (show_p : Objects.pointer -> list Z) (show_f show_i : nat -> list Z) (header : list Z) (c : Objects.Conn) (b : Objects.Bind) : M Logger unit :=
  let h := Objects.hooks b in
  log_text header (BindString show_p show_f show_i Objects.Null (Some (Objects.path b)) (Objects.pathSize b) (Objects.interface b)
    (option_map Objects.i_name (Objects.ifaces c !! Objects.interface b))
    (Objects.release0 h) (Objects.ruser0 h) (Objects.release1 h) (Objects.ruser1 h)).
Definition adbusI_logmatch (pr : Printer) (header : list Z) (m : MatchReg) : M Logger unit := log_text header (MatchString pr m).
Definition adbusI_logreply (pr : Printer) (header : list Z) (r : adbus_Reply) : M Logger unit := log_text header (ReplyString pr r).
End Logger.

(** ** What is printed *)
Definition show_num (b : basic) (z : Z) : list Z :=
  match b with
  | BOOLEAN => if z =? 0 then str "false" else str "true"
  | INT16 => sdec (signed 2 z)
  | INT32 => sdec (signed 4 z)
  | INT64 => sdec (signed 8 z)
  | DOUBLE => fmt_g z
  | _ => dec z
  end.

Fixpoint sep (first : bool) (l : list (list Z)) : list Z :=
  match l with
  | [] => []
  | x :: l => (if first then [] else str ", ") ++ x ++ sep false l
  end.

Definition is_dict (t : ty) : bool := match t with TDict _ _ => true | _ => false end.

Fixpoint show (v : value) : list Z :=
  match v with
  | VNum b z => show_num b z
  | VStr _ s => quoted s
  | VVariant v => str "<" ++ sig_of (ty_of v) ++ str ">{" ++ show v ++ str "}"
  | VArray t vs => str (if is_dict t then "{" else "[") ++ sep true (map show vs) ++ str (if is_dict t then "}" else "]")
  | VStruct vs => str "(" ++ sep true (map show vs) ++ str ")"
  | VDict k v => show k ++ str " = " ++ show v
  end.

(** Without entries of dictionaries, and without structs of nothing. *)
Fixpoint loggable (v : value) : bool :=
  match v with
  | VNum _ _ | VStr _ _ => true
  | VVariant v => loggable v
  | VArray _ vs => forallb loggable vs
  | VStruct vs => match vs with [] => false | _ => true end && forallb loggable vs
  | VDict _ _ => false
  end.

Fixpoint lfuel (v : value) : nat :=
  match v with
  | VNum _ _ | VStr _ _ => 0
  | VVariant v => S (lfuel v)
  | VArray _ vs | VStruct vs => S (list_sum (map (fun v => S (lfuel v)) vs))
  | VDict k v => S (lfuel k + lfuel v)
  end%nat.

Section Printing.
Context {B : Build} (m : list Z).

(** [op] moves the iterator from [i] to [i'] and appends [t]. *)
Definition prints (op : M Log unit) (i i' : Iterator) (t : list Z) : Prop :=
  forall v s, holds v s -> exists v', op (mkLog v i) = Ret tt (mkLog v' i') /\ holds v' (s ++ t).

Lemma on_text_run {A} (op : M d_String A) (v v' : d_String) (i : Iterator) (a : A) : op v = Ret a v' -> on_part op (mkLog v i) = Ret a (mkLog v' i).
Proof. intros E. unfold on_part. cbn [part part_text l_text]. by rewrite E. Qed.
Lemma on_iter_run {A} (op : M Iterator A) (v : d_String) (i i' : Iterator) (a : A) : op i = Ret a i' -> it op (mkLog v i) = Ret a (mkLog v i').
Proof. intros E. unfold it, on_part. cbn [part part_iter l_iter]. by rewrite E. Qed.

Lemma prints_then (op1 op2 : M Log unit) (i1 i2 i3 : Iterator) (t1 t2 : list Z) : prints op1 i1 i2 t1 -> prints op2 i2 i3 t2 ->
  prints (run* op1 in op2) i1 i3 (t1 ++ t2).
Proof.
  intros H1 H2 v s Hv. destruct (H1 v s Hv) as (v1 & E1 & V1). destruct (H2 v1 _ V1) as (v2 & E2 & V2). exists v2.
  rewrite (bind_Ret _ _ _ _ _ E1), E2, app_assoc. done.
Qed.

(** The last text is followed by a step of the iterator. *)
Lemma prints_ends (op1 : M Log unit) (op2 : M Iterator unit) (i1 i2 i3 : Iterator) (t : list Z) : prints op1 i1 i2 t -> op2 i2 = Ret tt i3 -> prints (run* op1 in it op2) i1 i3 t.
Proof.
  intros H E v s Hv. destruct (H v s Hv) as (v1 & E1 & V1). exists v1. split; [|done]. rewrite (bind_Ret _ _ _ _ _ E1). exact (on_iter_run op2 v1 i2 i3 tt E).
Qed.

Lemma prints_it {A} (op : M Iterator A) (a : A) (k : A -> M Log unit) (i i1 i' : Iterator) (t : list Z) : op i = Ret a i1 -> prints (k a) i1 i' t ->
  prints (let* x := it op in k x) i i' t.
Proof.
  intros E H v s Hv. destruct (H v s Hv) as (v' & E' & V'). exists v'. split; [|done].
  rewrite <- E'. apply (bind_Ret (it op) k (mkLog v i) (mkLog v i1) a). by rewrite (on_iter_run op v i i1 a E).
Qed.

(** A step that only reads. *)
Lemma prints_read {A} (op : M Log A) (a : A) (k : A -> M Log unit) (i i' : Iterator) (t : list Z) : (forall v, op (mkLog v i) = Ret a (mkLog v i)) -> prints (k a) i i' t ->
  prints (bind op k) i i' t.
Proof. intros E H v s Hv. destruct (H v s Hv) as (v' & E' & V'). exists v'. split; [|done]. by rewrite (bind_Ret _ _ _ _ _ (E v)). Qed.

Lemma prints_get (k : Log -> M Log unit) (i i' : Iterator) (t : list Z) : (forall v, prints (k (mkLog v i)) i i' t) -> prints (bind get k) i i' t.
Proof. intros H v s Hv. destruct (H v v s Hv) as (v' & E' & V'). by exists v'. Qed.

Lemma prints_nil (i : Iterator) : prints (ret tt) i i [].
Proof. intros v s Hv. exists v. by rewrite app_nil_r. Qed.

Lemma cat_vf_run (v : d_String) (s t : list Z) : holds v s -> exists v', ds_cat_vf t v = Ret (Z.of_nat (length t)) v' /\ holds v' (s ++ t).
Proof.
  intros Hv. destruct (holds_size v s Hv) as [Hz _]. destruct (insert_vf_run v s t (length s) Hv ltac:(lia)) as (v' & E & V).
  rewrite firstn_all, skipn_all, app_nil_r in V. exists v'. split; [|done]. unfold ds_cat_vf. by rewrite (bind_Ret get _ v v v eq_refl), Hz.
Qed.

Lemma prints_cat_f (t : list Z) (i : Iterator) : prints (cat_f t) i i t.
Proof.
  intros v s Hv. destruct (cat_vf_run v s t Hv) as (v' & E & V). exists v'. split; [|done].
  unfold cat_f. by rewrite (bind_Ret _ _ _ _ _ (on_text_run _ v v' i _ E)).
Qed.

Lemma prints_cat (t : list Z) (i : Iterator) : prints (cat t) i i t.
Proof. intros v s Hv. destruct (cat_run v s t Hv) as (v' & E & V). exists v'. split; [|done]. exact (on_text_run _ v v' i _ E). Qed.

Lemma prints_char (c : Z) (i : Iterator) : prints (on_part (ds_cat_char c)) i i [c mod 256].
Proof. intros v s Hv. destruct (cat_char_run v s c Hv) as (v' & E & V). exists v'. split; [|done]. exact (on_text_run _ v v' i _ E). Qed.

(** *** Numbers and strings *)
Lemma log_number (op : M Iterator Z) (n : nat) (text : Z -> list Z) (i i' : Iterator) (p z : Z) (l t : list Z) : op i = Ret p i' ->
  at_ m p (le_bytes n z ++ l) -> (0 < n)%nat -> 0 <= z < 2 ^ (8 * Z.of_nat n) -> text z = t -> prints (LogNumber m op n text) i i' t.
Proof.
  intros E Hat Hn Hz <-. eapply prints_it; [exact E|]. eapply prints_read; [|apply prints_cat_f]. intros v. by eapply load_le_bytes.
Qed.

Lemma sdec_dec (z : Z) : 0 <= z -> sdec z = dec z.
Proof. intros H. unfold sdec. by rewrite (proj2 (Z.ltb_ge _ _) H). Qed.

Lemma width_fits (s : list Z) : len s < 2 ^ 32 -> fmt_width (int32 (len s)) s = s.
Proof.
  intros Hs. pose proof (len_nonneg s). unfold fmt_width, int32.
  destruct (Z.lt_ge_cases (len s) (2 ^ 31)).
  - rewrite Z.mod_small by lia. rewrite (proj2 (Z.ltb_ge _ _)) by lia. apply pad_string_fits. unfold len. lia.
  - rewrite <- (Z.mod_unique (len s + 2 ^ 31) (2 ^ 32) 1 (len s - 2 ^ 31)) by lia. rewrite (proj2 (Z.ltb_lt _ _)) by lia.
    unfold pad_right. replace (Z.to_nat _) with 0%nat by lia. by rewrite app_nil_r.
Qed.

Lemma log_string_value (op : M Iterator (Z * Z)) (i i' : Iterator) (p : Z) (s l : list Z) : op i = Ret (p, len s) i' ->
  at_ m p (s ++ 0 :: l) -> no_nul s -> len s < 2 ^ 32 -> prints (LogString m op) i i' (quoted s).
Proof.
  intros E Hat Hn Hl. eapply prints_it; [exact E|]. cbn [fst snd]. rewrite (cstr_at m _ _ _ Hat Hn), width_fits by done. apply prints_cat_f.
Qed.

(** With fuel above [n], [LogField] at [p] prints the value [v]. *)
Definition logs (n : nat) (p : Z) (v : value) : Prop := forall fuel sz r, (n < fuel)%nat -> len (enc p v) <= sz ->
  prints (LogField m fuel) (mkIter p sz (sig_of (ty_of v) ++ r)) (mkIter (p + len (enc p v)) (sz - len (enc p v)) r) (show v).

Lemma log_num (p : Z) (b : basic) (z : Z) : wf_num b z -> at_ m p (enc p (VNum b z)) -> logs 0 p (VNum b z).
Proof.
  intros [Hw Hz] Hat fuel sz r Hf Hs. destruct fuel as [|fuel]; [lia|]. cbn [LogField]. apply prints_get. intros v. cbn [l_iter sig ty_of].
  rewrite sig_of_deref, field_of_code. cbn [head_of sig_of app enc show] in *.
  pose proof (len_zeros_pad p (width b) (width_boundary b Hw)) as Lp. pose proof (at_zeros m p (width b) _ (width_boundary b Hw) Hat) as Hd.
  rewrite <- (app_nil_r (le_bytes _ z)) in Hd. rewrite len_app, Lp, len_le_bytes in *.
  assert (H1 : pad p 1 = 0) by apply pad_1. pose proof (pad_bounds p (width b) (width_boundary b Hw)).
  destruct b; cbn [width] in *; try lia; (eapply log_number; [|exact Hd|lia|exact Hz|first [reflexivity|by apply sdec_dec; lia]]);
    unfold adbus_iter_u8, adbus_iter_bool, adbus_iter_i16, adbus_iter_u16, adbus_iter_i32, adbus_iter_u32, adbus_iter_i64, adbus_iter_u64, adbus_iter_double,
      adbusI_iter_get16, adbusI_iter_get32, adbusI_iter_get64; (erewrite bind_Ret; [|by apply sig_ok]); cbn [tl];
    (etransitivity; [first [apply get8_ok; lia | apply iter_get_ok; [lia|auto with adbus]]|]); f_equal; [lia| |f_equal; lia..]; f_equal; lia.
Qed.

(** Where the characters of an encoded string are. *)
Lemma string_chars (p : Z) (s : list Z) : at_ m p (enc_string p s) -> at_ m (p + pad p 4 + 4) (s ++ [0]).
Proof.
  intros Hat. apply at_zeros in Hat; [|auto with adbus]. apply at_app in Hat as [_ Hat]. fold (len (le_bytes 4 (len s))) in Hat. by rewrite len_le_bytes in Hat.
Qed.

Lemma log_str (p : Z) (b : basic) (s : list Z) : wf_str b s -> at_ m p (enc p (VStr b s)) -> logs 0 p (VStr b s).
Proof.
  intros (Hw & Hb & Hn & Hl) Hat fuel sz r Hf Hs. destruct fuel as [|fuel]; [lia|]. cbn [LogField]. apply prints_get. intros v. cbn [l_iter sig ty_of].
  rewrite sig_of_deref, field_of_code. cbn [head_of sig_of app show] in *. pose proof Hat as Hat'. rewrite <- (app_nil_r (enc p (VStr b s))) in Hat'.
  destruct b; cbn [width enc] in *; try lia;
    (eapply log_string_value; [first [eapply string32_ok; [done|exact Hat'|done|done|done]|eapply string8_ok; [done|exact Hat'|done|done]]| |done|lia]);
    try (by apply string_chars). unfold enc_signature in Hat. change (len s :: s ++ [0]) with ([len s] ++ s ++ [0]) in Hat. by apply at_app in Hat as [_ Hat].
Qed.

Lemma log_variant (p : Z) (n : nat) (v : value) : wf p (VVariant v) -> at_ m p (enc p (VVariant v)) ->
  (forall p, wf p v -> at_ m p (enc p v) -> logs n p v) -> logs (S n) p (VVariant v).
Proof.
  intros [_ Hw] Hat IH fuel sz r Hf Hs. destruct fuel as [|fuel]; [lia|]. cbn [LogField]. apply prints_get. intros tx. cbn [l_iter sig ty_of].
  rewrite sig_of_deref, field_of_code. cbn [head_of sig_of app show enc] in *. set (h := enc_signature (sig_of (ty_of v))) in *. set (q := p + len h) in *.
  pose proof (wf_head _ _ Hw) as [Hw1 Hw2]. pose proof (enc_aligned q v Hw1 Hw2) as Ea. pose proof (pad_bounds q _ (head_boundary (ty_of v))). fold (value_alignment v) in *.
  assert (El : len (enc q v) = pad q (value_alignment v) + len (enc (aligned q v) v)) by (rewrite Ea at 1; by rewrite len_app, len_zeros_pad by apply head_boundary).
  pose proof (len_nonneg (enc (aligned q v) v)). rewrite len_app in *. assert (Eq : aligned q v = q + pad q (value_alignment v)) by reflexivity.
  assert (Hb : at_ m (aligned q v) (enc (aligned q v) v)).
  { apply at_app in Hat as [_ Hat]. fold (len h) q in Hat. rewrite Ea in Hat. apply at_zeros in Hat; [done|apply head_boundary]. }
  unfold LogVariant. eapply prints_it.
  { apply (beginvariant_ok m p sz (ty_of v) r (enc q v)); [exact Hat|]. fold h q. fold (value_alignment v). lia. }
  fold h q. fold (value_alignment v). rewrite <- Eq. apply prints_get. intros ?. cbn [l_iter sig].
  replace (str "<" ++ sig_of (ty_of v) ++ str ">{" ++ show v ++ str "}") with ((str "<" ++ sig_of (ty_of v) ++ str ">{") ++ show v ++ str "}" ++ []) by (rewrite app_nil_r, <- !app_assoc; done).
  eapply prints_then; [apply prints_cat_f|]. eapply prints_then.
  { rewrite <- (app_nil_r (sig_of (ty_of v))) at 1. apply IH; [by apply wf_aligned|exact Hb|lia|lia]. }
  apply prints_get. intros ?. cbn [l_iter sig]. eapply prints_read; [done|]. eapply prints_then; [apply prints_cat_f|].
  eapply prints_it; [reflexivity|]. cbn [data size set_sig v_origsig]. replace (mkIter (p + (len h + len (enc q v))) (sz - (len h + len (enc q v))) r) with
    (set_sig r (mkIter (aligned q v + len (enc (aligned q v) v)) (sz - (aligned q v - p) - len (enc (aligned q v) v)) [])); [apply prints_nil|].
  unfold set_sig. cbn [data size]. f_equal; lia.
Qed.

(** *** Items *)
Lemma items_more (fuel : nat) (more : M Log bool) (log : M Log unit) (first : bool) (i i0 i1 i' : Iterator) (t r : list Z) :
  (forall v, more (mkLog v i) = Ret true (mkLog v i0)) -> prints log i0 i1 t -> prints (LogItems fuel more log false) i1 i' r ->
  prints (LogItems (S fuel) more log first) i i' ((if first then [] else str ", ") ++ t ++ r).
Proof.
  intros Em Hl Hr v s Hv. assert (H : prints (run* (if first then ret tt else cat (str ", ")) in run* log in LogItems fuel more log false) i0 i' ((if first then [] else str ", ") ++ t ++ r)).
  { eapply prints_then; [|by eapply prints_then]. destruct first; [apply prints_nil|apply prints_cat]. }
  destruct (H v s Hv) as (v' & E & V). exists v'. split; [|done]. cbn [LogItems]. by rewrite (bind_Ret _ _ _ _ _ (Em v)).
Qed.

Lemma items_end (fuel : nat) (more : M Log bool) (log : M Log unit) (first : bool) (i i' : Iterator) :
  (forall v, more (mkLog v i) = Ret false (mkLog v i')) -> prints (LogItems fuel more log first) i i' [].
Proof. intros Em v s Hv. exists v. rewrite app_nil_r. split; [|done]. destruct fuel; cbn [LogItems]; by rewrite (bind_Ret _ _ _ _ _ (Em v)). Qed.

(** The fields of a struct. *)
Lemma log_fields (n f : nat) (vs : list value) : (n < f)%nat -> forall (fuel : nat) (first : bool) (d sz : Z) (r : list Z),
  Forall (fun v => forall p, wf p v -> at_ m p (enc p v) -> logs n p v) vs -> wfs d vs -> at_ m d (encs d vs) -> len (encs d vs) <= sz -> (length vs <= fuel)%nat ->
  prints (LogItems fuel (fun w => Ret (negb (deref (sig (l_iter w)) =? chr ")")) w) (LogField m f) first)
    (mkIter d sz (sigs_of (map ty_of vs) ++ code_of STRUCT_END :: r)) (mkIter (d + len (encs d vs)) (sz - len (encs d vs)) (code_of STRUCT_END :: r)) (sep first (map show vs)).
Proof.
  intros Hn. induction vs as [|v vs IH]; intros fuel first d sz r Hv Hw Hat Hs Hf.
  - apply items_end. intros v. change (len (encs d [])) with 0. rewrite Z.add_0_r, Z.sub_0_r. reflexivity.
  - destruct fuel as [|fuel]; [cbn in Hf; lia|]. apply Forall_cons in Hv as [Hv Hvs]. destruct Hw as [Hw Hws].
    cbn [encs seq_enc map sep] in *. fold (encs (d + len (enc d v)) vs) in *. rewrite len_app in *. pose proof (len_nonneg (encs (d + len (enc d v)) vs)).
    apply at_app in Hat as [Hat1 Hat2]. fold (len (enc d v)) in Hat2. unfold sigs_of. cbn [map concat]. fold (sigs_of (map ty_of vs)). rewrite <- app_assoc.
    eapply items_more.
    + intros w. cbn [l_iter sig]. change (chr ")") with (code_of STRUCT_END). by rewrite sig_of_not_end by auto.
    + apply (Hv d Hw Hat1); lia.
    + rewrite Z.add_assoc, Z.sub_add_distr. apply IH; try done; [lia|cbn in Hf; lia].
Qed.

Lemma log_struct (p : Z) (n : nat) (vs : list value) : wf p (VStruct vs) -> at_ m p (enc p (VStruct vs)) -> (length vs <= n)%nat ->
  Forall (fun v => forall p, wf p v -> at_ m p (enc p v) -> logs n p v) vs -> logs (S n) p (VStruct vs).
Proof.
  intros Hw Hat Hl IH fuel sz r Hf Hs. destruct fuel as [|fuel]; [lia|]. cbn [LogField]. apply prints_get. intros tx. cbn [l_iter sig ty_of].
  rewrite sig_of_deref, field_of_code. cbn [head_of sig_of app show] in *. rewrite enc_struct in *. rewrite wf_struct in Hw.
  rewrite len_app, len_zeros_pad in * by auto with adbus. apply at_zeros in Hat; [|auto with adbus]. pose proof (len_nonneg (encs (p + pad p 8) vs)).
  unfold LogStruct. eapply prints_it; [apply begin_scope_ok; [done|lia]|]. cbn [tl]. rewrite <- app_assoc. cbn [app].
  eapply prints_then; [apply prints_cat_f|]. eapply prints_then; [apply (log_fields n); try done; lia|].
  eapply prints_ends; [apply prints_cat_f|].
  unfold adbus_iter_endstruct. rewrite sig_ok by done. cbn [tl]. do 2 f_equal; lia.
Qed.

(** An item is not empty, so that the end of an array is not reached before
    the last. *)
Lemma enc_pos (v : value) : forall p, wf p v -> loggable v = true -> 0 < len (enc p v).
Proof.
  induction v as [b z|b s|v IH|t vs IH|vs IH|k v _ _] using value_ind'; intros p Hw Hl; cbn [loggable] in Hl; try done.
  - destruct Hw as [Hw _]. cbn [enc]. rewrite len_app, len_le_bytes. pose proof (len_nonneg (zeros (pad p (width b)))). lia.
  - pose proof (len_nonneg s). pose proof (pad_bounds p 4 boundary_4). destruct b; cbn [enc]; rewrite ?len_enc_string, ?len_enc_signature; lia.
  - rewrite enc_array, !len_app, len_le_bytes. repeat match goal with |- context [len ?l] => lazymatch goal with H : 0 <= len l |- _ => fail | _ => pose proof (len_nonneg l) end end. lia.
  - rewrite enc_struct, len_app. rewrite wf_struct in Hw. destruct vs as [|v vs]; [done|]. apply andb_true_iff in Hl as [_ Hl]. cbn [forallb] in Hl. apply andb_true_iff in Hl as [Hl _].
    apply Forall_cons in IH as [IH _]. destruct Hw as [Hw _]. specialize (IH _ Hw Hl). cbn [encs seq_enc]. rewrite len_app. pose proof (len_nonneg (zeros (pad p 8))).
    fold (encs (p + pad p 8 + len (enc (p + pad p 8) v)) vs). pose proof (len_nonneg (encs (p + pad p 8 + len (enc (p + pad p 8) v)) vs)). lia.
Qed.

Lemma inarray_run (d e sz : Z) (g : list Z) (a : IterArray) (v : d_String) : a_data a + a_size a = e ->
  it (adbus_iter_inarray a) (mkLog v (mkIter d sz g)) = Ret (d <? e) (mkLog v (if d <? e then mkIter d sz (a_sig a) else mkIter d sz g)).
Proof.
  intros E. apply on_iter_run. unfold adbus_iter_inarray. rewrite (bind_Ret get _ _ _ _ eq_refl). cbn [data]. rewrite E. by destruct (d <? e).
Qed.

(** The entries of an array: the signature at the end depends on whether there were any. *)
Lemma log_entries (n f : nat) (t : ty) (r : list Z) (a : IterArray) (vs : list value) : (n < f)%nat -> a_sig a = sig_of t ++ r -> forall (fuel : nat) (first : bool) (d sz : Z) (g : list Z),
  Forall (fun v => forall p, wf p v -> at_ m p (enc p v) -> logs n p v) vs -> Forall (fun v => ty_of v = t /\ loggable v = true) vs -> wfs d vs -> at_ m d (encs d vs) ->
  len (encs d vs) <= sz -> (length vs <= fuel)%nat -> a_data a + a_size a = d + len (encs d vs) -> exists g',
  prints (LogItems fuel (it (adbus_iter_inarray a)) (LogField m f) first) (mkIter d sz g) (mkIter (d + len (encs d vs)) (sz - len (encs d vs)) g') (sep first (map show vs)).
Proof.
  intros Hn Ha. induction vs as [|v vs IH]; intros fuel first d sz g Hv Ht Hw Hat Hs Hf He.
  - exists g. apply items_end. intros v. change (len (encs d [])) with 0 in *. rewrite (inarray_run d d) by lia. rewrite Z.ltb_irrefl, Z.add_0_r, Z.sub_0_r. done.
  - destruct fuel as [|fuel]; [cbn in Hf; lia|]. apply Forall_cons in Hv as [Hv Hvs]. apply Forall_cons in Ht as [[Ht Hl] Hts]. destruct Hw as [Hw Hws].
    pose proof (enc_pos v d Hw Hl). cbn [encs seq_enc map sep] in *. fold (encs (d + len (enc d v)) vs) in *. rewrite len_app in *. pose proof (len_nonneg (encs (d + len (enc d v)) vs)).
    apply at_app in Hat as [Hat1 Hat2]. fold (len (enc d v)) in Hat2.
    destruct (IH fuel false (d + len (enc d v)) (sz - len (enc d v)) r) as (g' & P); try done; [lia|cbn in Hf; lia|lia|].
    exists g'. rewrite Z.add_assoc, Z.sub_add_distr. eapply items_more; [|apply (Hv d Hw Hat1 f sz r); lia|exact P].
    intros w. rewrite (inarray_run d _ sz g a w He). rewrite (proj2 (Z.ltb_lt _ _)) by lia. by rewrite Ha, Ht.
Qed.

Lemma array_begins (p sz : Z) (t : ty) (vs : list value) (r : list Z) : len (encs (array_data p t) vs) <= ADBUS_MAXIMUM_ARRAY_LENGTH -> at_ m p (enc p (VArray t vs)) ->
  len (enc p (VArray t vs)) <= sz ->
  adbus_iter_beginarray m (mkIter p sz (chr "a" :: sig_of t ++ r)) =
    Ret (mkArray (sig_of t ++ r) (length (sig_of t)) (array_data p t) (len (encs (array_data p t) vs))) (mkIter (array_data p t) (sz - (array_data p t - p)) (sig_of t ++ r)).
Proof.
  intros Hl Hat Hs. rewrite enc_array in *. unfold array_data in *. set (q := p + pad p 4 + 4) in *. set (al := field_alignment (head_of t)) in *. set (body := encs (q + pad q al) vs) in *.
  assert (Hal : boundary al) by apply head_boundary. pose proof (pad_bounds q al Hal). pose proof (pad_bounds p 4 boundary_4). pose proof (len_nonneg body).
  rewrite !len_app, !len_zeros_pad, len_le_bytes in * by auto with adbus.
  unfold adbus_iter_beginarray. erewrite bind_Ret by by apply sig_ok. cbn [tl]. erewrite bind_Ret by (apply iter_get_ok; [lia|auto with adbus]).
  apply at_zeros in Hat; [|auto with adbus]. erewrite bind_Ret.
  2:{ eapply load_le_bytes; [exact Hat|lia|]. unfold ADBUS_MAXIMUM_ARRAY_LENGTH in Hl. cbn. lia. }
  erewrite bind_Ret by by apply require_true, Z.leb_le. rewrite (bind_Ret get _ _ _ _ eq_refl). cbn [sig]. rewrite sig_of_deref.
  erewrite bind_Ret by (apply alignfield_ok; fold al q; lia). fold al q. rewrite nextarg_one, (bind_Ret get _ _ _ _ eq_refl). cbn [sig data]. unfold ret.
  replace (length (sig_of t ++ r) - length r)%nat with (length (sig_of t)) by (rewrite length_app; lia). do 2 f_equal; lia.
Qed.

Lemma head_dict (t : ty) (r : list Z) : (deref (sig_of t ++ r) =? chr "{") = is_dict t.
Proof. rewrite sig_of_deref. by destruct t as [[]| | | |]. Qed.

Lemma log_array (p : Z) (n : nat) (t : ty) (vs : list value) : wf p (VArray t vs) -> at_ m p (enc p (VArray t vs)) -> (length vs <= n)%nat -> forallb loggable vs = true ->
  Forall (fun v => forall p, wf p v -> at_ m p (enc p v) -> logs n p v) vs -> logs (S n) p (VArray t vs).
Proof.
  intros Hw Hat Hn Hl IH fuel sz r Hf Hs. destruct fuel as [|fuel]; [lia|]. cbn [LogField]. apply prints_get. intros tx. cbn [l_iter sig ty_of].
  rewrite sig_of_deref, field_of_code. cbn [head_of sig_of app show]. apply wf_array in Hw as (Hm & Hw & Ht). pose proof (array_begins p sz t vs r Hm Hat Hs) as Eb.
  unfold LogArray. eapply prints_it; [exact Eb|]. rewrite enc_array in *. rewrite !len_app, !len_zeros_pad, len_le_bytes in * by auto with adbus.
  pose proof (pad_bounds p 4 boundary_4). pose proof (pad_bounds (p + pad p 4 + 4) _ (head_boundary t)). set (q := array_data p t) in *.
  assert (Eq : q = p + pad p 4 + 4 + pad (p + pad p 4 + 4) (field_alignment (head_of t))) by reflexivity. pose proof (len_nonneg (encs q vs)).
  assert (Hb : at_ m q (encs q vs)).
  { apply at_zeros in Hat; [|auto with adbus]. apply at_app in Hat as [_ Hat]. fold (len (le_bytes 4 (len (encs q vs)))) in Hat. rewrite len_le_bytes in Hat.
    apply at_zeros in Hat; [|auto with adbus]. exact Hat. }
  apply prints_get. intros ?. cbn [l_iter sig]. rewrite head_dict. eapply prints_then; [apply prints_cat|].
  set (a := mkArray _ _ q _). assert (Hv : Forall (fun v => ty_of v = t /\ loggable v = true) vs).
  { apply Forall_and. split; [done|]. apply Forall_forall. rewrite forallb_forall in Hl. intros x Hx. apply Hl. by apply list_elem_of_In. }
  destruct (log_entries n fuel t r a vs ltac:(lia) eq_refl fuel true q (sz - (q - p)) (sig_of t ++ r) IH Hv Hw Hb ltac:(lia) ltac:(lia) eq_refl) as (g' & P).
  eapply prints_then; [exact P|]. eapply prints_ends; [apply prints_cat_f|].
  unfold adbus_iter_endarray, modify. cbn [a_data a_size a_sig a_sigsz size a]. rewrite drop_app_length. do 2 f_equal; lia.
Qed.

Lemma logs_mono (n n' : nat) (p : Z) (v : value) : (n <= n')%nat -> logs n p v -> logs n' p v.
Proof. intros Hn H fuel sz r Hf. apply H. lia. Qed.

Lemma lfuel_sum (vs : list value) : (length vs <= list_sum (map (fun v => S (lfuel v)) vs))%nat /\ Forall (fun v => (lfuel v <= list_sum (map (fun v => S (lfuel v)) vs))%nat) vs.
Proof.
  induction vs as [|v vs [IH1 IH2]]; [by repeat constructor|]. cbn [length map list_sum foldr]. unfold list_sum in *. split; [cbn; lia|].
  constructor; [cbn; lia|]. eapply Forall_impl; [exact IH2|]. cbn. intros x Hx. lia.
Qed.

Lemma items_logged (vs : list value) : Forall (fun v => forall p, wf p v -> loggable v = true -> at_ m p (enc p v) -> logs (lfuel v) p v) vs -> forallb loggable vs = true ->
  Forall (fun v => forall p, wf p v -> at_ m p (enc p v) -> logs (list_sum (map (fun v => S (lfuel v)) vs)) p v) vs.
Proof.
  intros IH Hl. rewrite forallb_forall in Hl. destruct (lfuel_sum vs) as [_ Hs]. rewrite !Forall_forall in *. intros v Hv p Hw Hat.
  eapply logs_mono; [by apply Hs|]. apply IH; try done. apply Hl. by apply list_elem_of_In.
Qed.

Lemma log_value (v : value) : forall p, wf p v -> loggable v = true -> at_ m p (enc p v) -> logs (lfuel v) p v.
Proof.
  induction v as [b z|b s|v IH|t vs IH|vs IH|k v _ _] using value_ind'; intros p Hw Hl Hat.
  - by apply log_num.
  - by apply log_str.
  - apply log_variant; try done. intros q Hw' Hat'. by apply IH.
  - pose proof (items_logged vs IH Hl). apply log_array; try done. apply lfuel_sum.
  - cbn [loggable] in Hl. apply andb_true_iff in Hl as [_ Hl]. pose proof (items_logged vs IH Hl). apply log_struct; try done. apply lfuel_sum.
  - done.
Qed.
End Printing.

(** ** Text that is built *)
Section Building.
Context {B : Build}.

Definition adds (op : M d_String unit) (t : list Z) : Prop := forall v s, holds v s -> exists v', op v = Ret tt v' /\ holds v' (s ++ t).

Lemma adds_then (op1 op2 : M d_String unit) (t1 t2 : list Z) : adds op1 t1 -> adds op2 t2 -> adds (run* op1 in op2) (t1 ++ t2).
Proof.
  intros H1 H2 v s Hv. destruct (H1 v s Hv) as (v1 & E1 & V1). destruct (H2 v1 _ V1) as (v2 & E2 & V2). exists v2.
  rewrite (bind_Ret _ _ _ _ _ E1), E2, app_assoc. done.
Qed.

Lemma adds_nil : adds (ret tt) [].
Proof. intros v s Hv. exists v. by rewrite app_nil_r. Qed.

Lemma adds_print (t : list Z) : adds (print t) t.
Proof. intros v s Hv. destruct (cat_vf_run v s t Hv) as (v' & E & V). exists v'. split; [|done]. unfold print. by rewrite (bind_Ret _ _ _ _ _ E). Qed.

(** A line of the summary. *)
Definition entry (what : string) (text : list Z) : list Z := label (str what) ++ text ++ [NL].
Definition field_entry (what : string) (field : option (list Z)) : list Z := match field with Some f => entry what (quoted (cstr f)) | None => [] end.

Lemma adds_field (field : option (list Z)) (what : string) : adds (PrintStringField field what) (field_entry what field).
Proof. destruct field; [apply adds_print|apply adds_nil]. Qed.

Definition kind (t : MessageType) : list Z :=
  str (match t with MSG_METHOD => "Method call" | MSG_RETURN => "Return" | MSG_ERROR => "Error" | MSG_SIGNAL => "Signal" | MSG_INVALID => "Unknown (0)" end) ++ str ": ".

Fixpoint argument_entries (n : Z) (vs : list value) : list Z :=
  match vs with
  | [] => []
  | v :: vs => str "Argument " ++ pad_string 2 (dec n) ++ str "     " ++ show v ++ [NL] ++ argument_entries (n + 1) vs
  end.

(** The text of a message with arguments [vs]. *)
Definition summary (m : Message) (vs : list value) : list Z :=
  kind (msg_type m) ++ str "Flags " ++ sdec (msg_flags m) ++ str ", Length " ++ sdec (int32 (msg_size m)) ++ str ", Serial " ++ sdec (int32 (msg_serial m)) ++ [NL] ++
  match replySerial m with Some n => entry "Reply serial" (dec n) | None => [] end ++
  field_entry "Sender" (msg_sender m) ++ field_entry "Destination" (msg_destination m) ++ field_entry "Path" (msg_path m) ++
  field_entry "Interface" (msg_interface m) ++ field_entry "Member" (msg_member m) ++ field_entry "Error" (msg_error m) ++
  field_entry "Signature" (signature m) ++ argument_entries 0 vs.

(** The arguments of the message are the values [vs]. *)
Record holds_values (m : Message) (vs : list value) : Prop := {
  hv_signature : signature m = Some (sigs_of (map ty_of vs)) \/ signature m = None /\ vs = [];
  hv_data : argdata m = encs 0 vs;
  hv_size : argsize m = len (argdata m);
  hv_wf : wfs 0 vs;
  hv_loggable : forallb loggable vs = true }.

(** Fuel for the arguments. *)
Definition enough (fuel : nat) (vs : list value) : Prop := (length vs <= fuel)%nat /\ Forall (fun v => (lfuel v + length vs < fuel)%nat) vs.

Lemma log_arguments (m : list Z) (vs : list value) : forall (fuel : nat) (n p sz : Z), wfs p vs -> forallb loggable vs = true -> at_ m p (encs p vs) -> len (encs p vs) <= sz ->
  enough fuel vs ->
  prints (LogArguments m fuel n) (mkIter p sz (sigs_of (map ty_of vs))) (mkIter (p + len (encs p vs)) (sz - len (encs p vs)) []) (argument_entries n vs).
Proof.
  induction vs as [|v vs IH]; intros fuel n p sz Hw Hl Hat Hs [Hf Hd].
  - change (len (encs p [])) with 0. rewrite Z.add_0_r, Z.sub_0_r. intros v s Hv. exists v. rewrite app_nil_r. split; [|done]. by destruct fuel.
  - destruct fuel as [|fuel]; [cbn in Hf; lia|]. destruct Hw as [Hw Hws]. cbn [forallb] in Hl. apply andb_true_iff in Hl as [Hl Hls]. apply Forall_cons in Hd as [Hd Hds].
    cbn [encs seq_enc argument_entries] in *. fold (encs (p + len (enc p v)) vs) in *. rewrite len_app in *. pose proof (len_nonneg (encs (p + len (enc p v)) vs)).
    apply at_app in Hat as [Hat1 Hat2]. fold (len (enc p v)) in Hat2. cbn [length] in *.
    cbn [LogArguments]. apply prints_get. intros w. cbn [l_iter sig]. unfold sigs_of at 1. cbn [map concat]. rewrite sig_of_deref, (proj2 (Z.eqb_neq _ _)) by apply code_nonzero.
    replace (str "Argument " ++ pad_string 2 (dec n) ++ str "     " ++ show v ++ [NL] ++ argument_entries (n + 1) vs) with
      ((str "Argument " ++ pad_string 2 (dec n) ++ str "     ") ++ show v ++ [NL mod 256] ++ argument_entries (n + 1) vs) by (rewrite <- !app_assoc; done).
    eapply prints_then; [apply prints_cat_f|]. eapply prints_then.
    { unfold sigs_of. cbn [map concat]. apply (log_value m v p Hw Hl Hat1); lia. }
    eapply prints_then; [apply prints_char|]. fold (sigs_of (map ty_of vs)). rewrite Z.add_assoc, Z.sub_add_distr. apply IH; try done; [lia|split; [lia|]].
    eapply Forall_impl; [exact Hds|]. cbv beta. lia.
Qed.

Lemma summary_run (fuel : nat) (m : Message) (vs : list value) : holds_values m vs -> enough fuel vs -> adds (MsgSummary fuel m) (summary m vs).
Proof.
  intros [Hs Hd Hz Hw Hl] Hf. unfold MsgSummary, summary, kind.
  replace (match msg_type m with MSG_METHOD => _ | _ => _ end) with (kind (msg_type m)) by (by destruct (msg_type m)).
  eapply adds_then; [apply adds_print|].
  match goal with |- adds _ (?a ++ ?b ++ ?c ++ ?d ++ ?e ++ ?f ++ ?g ++ ?h) => replace (a ++ b ++ c ++ d ++ e ++ f ++ g ++ h) with ((a ++ b ++ c ++ d ++ e ++ f ++ g) ++ h) by (rewrite <- !app_assoc; done) end.
  eapply adds_then; [apply adds_print|].
  eapply adds_then; [destruct (replySerial m); [apply adds_print|apply adds_nil]|].
  do 7 (eapply adds_then; [apply adds_field|]).
  unfold adbus_iter_args. destruct Hs as [Hs|[Hs ->]]; rewrite Hs; [|apply adds_nil].
  intros v s Hv. destruct (log_arguments (argdata m) vs fuel 0 0 (argsize m) Hw Hl) with (v := v) (s := s) as (v' & E & V); try done.
  - rewrite Hd. apply at_self.
  - rewrite Hz, Hd. lia.
  - exists v'. rewrite E. done.
Qed.

(** *** The header *)
Fixpoint spread (ind l : list Z) : list Z :=
  match l with
  | [] => []
  | c :: l => c :: match l with [] => [] | _ => (if c =? NL then ind else []) ++ spread ind l end
  end.

Lemma spread_free (ind a l : list Z) : free_of NL a -> l <> [] -> spread ind (a ++ l) = a ++ spread ind l.
Proof.
  intros Ha Hl. induction Ha as [|c a Hc _ IH]; [done|]. cbn [app spread]. rewrite IH. destruct (a ++ l) eqn:E; [|by rewrite (proj2 (Z.eqb_neq _ _) Hc)].
  apply app_eq_nil in E as [_ E]. done.
Qed.

Lemma spread_length (ind l : list Z) : (length (spread ind l) <= length l * S (length ind))%nat.
Proof. induction l as [|c l IH]; [done|]. cbn [spread length]. destruct l; [lia|]. rewrite length_app. destruct (c =? NL); cbn [length] in *; lia. Qed.

Lemma holds_char (v : d_String) (a : list Z) (c : Z) (r : list Z) : holds v (a ++ c :: r) -> dv_a (length a) v = Ret c v.
Proof.
  intros [_ [[_ E]|E]]; [by apply app_eq_nil in E as [_ ?]|]. apply dv_a_run. rewrite E, map_app, <- app_assoc. cbn [map app].
  rewrite lookup_app_r by (rewrite length_map; lia). by rewrite length_map, Nat.sub_diag.
Qed.

Lemma header_loop_run (ind : list Z) : free_of NL ind -> ind = repeat 32 (length ind) -> forall (fuel : nat) (a r : list Z) (v : d_String), holds v (a ++ r) -> r <> [] -> (length (spread ind r) <= fuel)%nat ->
  exists v', header_loop fuel (length ind) (length a) v = Ret tt v' /\ holds v' (a ++ spread ind r).
Proof.
  intros Hf Hi. induction fuel as [|fuel IH]; intros a r v Hv Hr Hl; [destruct r; [done|cbn in Hl; lia]|]. destruct r as [|c r]; [done|].
  destruct (holds_size v _ Hv) as [Hz _]. rewrite length_app in Hz. cbn [length] in Hz. cbn [header_loop]. rewrite (bind_Ret get _ v v v eq_refl), Hz, Nat.add_succ_r.
  destruct r as [|c2 r].
  { rewrite (proj2 (Nat.ltb_ge _ _)) by (cbn; lia). by exists v. }
  rewrite (proj2 (Nat.ltb_lt _ _)) by (cbn; lia). rewrite (bind_Ret _ _ _ _ _ (holds_char v a c _ Hv)).
  assert (Hs : exists v1, (if c =? NL then ds_insert_n (length a + 1) (repeat 32 (length ind)) (length ind) else ret tt) v = Ret tt v1 /\ holds v1 ((a ++ [c]) ++ (if c =? NL then ind else []) ++ c2 :: r)).
  { destruct (c =? NL); [|exists v; split; [done|]; by rewrite <- app_assoc]. rewrite <- Hi. destruct (ds_insert_run v _ ind (length a + 1) Hv) as (v1 & E & V); [rewrite length_app; cbn; lia|].
    exists v1. split; [exact E|]. replace (a ++ c :: c2 :: r) with ((a ++ [c]) ++ c2 :: r) in V by (by rewrite <- app_assoc).
    replace (length a + 1)%nat with (length (a ++ [c])) in V by (by rewrite length_app). by rewrite take_app_length, drop_app_length in V. }
  destruct Hs as (v1 & E1 & V1). rewrite (bind_Ret _ _ _ _ _ E1). cbn [spread length] in Hl. fold (spread ind (c2 :: r)) in *.
  assert (Ef : spread ind ((if c =? NL then ind else []) ++ c2 :: r) = (if c =? NL then ind else []) ++ spread ind (c2 :: r)) by (apply spread_free; [by destruct (c =? NL); [|constructor]|done]).
  destruct (IH (a ++ [c]) _ v1 V1) as (v' & E' & V'); [by destruct (c =? NL), ind|rewrite Ef; cbn [spread] in *; lia|].
  exists v'. rewrite length_app in E'. cbn [length] in E'. split; [exact E'|]. rewrite Ef in V'. rewrite <- app_assoc in V'. exact V'.
Qed.

Lemma addheader_run (h s : list Z) (v : d_String) : holds v s -> h ++ s <> [] -> exists v', adbusI_addheader h v = Ret tt v' /\ holds v' (spread (repeat 32 (length h)) (h ++ s)).
Proof.
  intros Hv Hn. destruct (holds_size v s Hv) as [Hz _]. destruct (insert_vf_run v s h 0 Hv ltac:(lia)) as (v1 & E1 & V1). rewrite take_0, drop_0 in V1. cbn [app] in V1.
  destruct (holds_size v1 _ V1) as [Hz1 _]. unfold adbusI_addheader. rewrite (bind_Ret get _ v v v eq_refl), Hz. rewrite (bind_Ret _ _ _ _ _ E1), (bind_Ret get _ v1 v1 v1 eq_refl), Hz1.
  set (ind := repeat 32 (length h)). assert (Li : length ind = length h) by apply repeat_length. rewrite length_app. replace (length h + length s - length s)%nat with (length ind) by lia.
  apply (header_loop_run ind) with (a := []); [|by rewrite Li|exact V1|done|].
  - unfold free_of. apply Forall_forall. intros x Hx. apply list_elem_of_In, repeat_spec in Hx as ->. done.
  - etransitivity; [apply spread_length|]. by rewrite length_app.
Qed.
End Building.

(** ** The log functions *)
Section Logs.
Context {B : Build}.

Definition in_log (header : list Z) : list Z := pad_right 10 header ++ str " ".
(** The text with its header, and lines after the first as far to the right. *)
Definition log_entry (header t : list Z) : list Z := spread (repeat 32 (length (in_log header))) (in_log header ++ t).

Lemma zeroed : holds dv_init [].
Proof. split; [unfold vec_ok; cbn; lia|by left]. Qed.

Lemma log_text_run (op : M d_String unit) (header t : list Z) (f : nat) (l : list (nat * list Z * Z)) : adds op t ->
  log_text header op (mkLogger (Some f) l) = Ret tt (mkLogger (Some f) (l ++ [(f, log_entry header t, len (log_entry header t))])).
Proof.
  intros H. destruct (H dv_init [] zeroed) as (v1 & E1 & V1). cbn [app] in V1. destruct (addheader_run (in_log header) t v1 V1) as (v2 & E2 & V2).
  { unfold in_log. intros E. by destruct (pad_right 10 header). }
  unfold log_text. rewrite (bind_Ret adbusI_log_enabled _ (mkLogger (Some f) l) (mkLogger (Some f) l) true eq_refl). unfold log_string.
  assert (E3 : ignore op dv_init = Ret tt v1) by (unfold ignore; by rewrite E1). rewrite (bind_Ret _ _ _ _ _ E3). unfold in_log in E2. rewrite E2.
  unfold adbusI_klog. cbn [sLog logged]. rewrite (cstr_run v2 v2 _ V2). by rewrite (proj1 (holds_size v2 _ V2)).
Qed.

Lemma log_text_off (op : M d_String unit) (header : list Z) (l : list (nat * list Z * Z)) : log_text header op (mkLogger None l) = Ret tt (mkLogger None l).
Proof. reflexivity. Qed.

(** *** The texts of matches, replies and binds

    A size that is given is that of the string. *)
Definition fits (v : option (list Z)) (n : Z) : Prop := forall s, v = Some s -> n < 0 \/ n = len (cstr s).

Definition pointers_entry {P F} (show_p : P -> list Z) (show_f : F -> list Z) (what : string) (f : option F) (u : P) : list Z :=
  match f with Some f => entry what (show_f f ++ str " " ++ show_p u) | None => [] end.

Fixpoint string_entries (n : Z) (l : list Argument) : list Z :=
  match l with
  | [] => []
  | a :: l => match arg_value a with Some v => str "Argument " ++ pad_right 2 (dec n) ++ str "     " ++ quoted (cstr v) ++ [NL] | None => [] end ++ string_entries (n + 1) l
  end.

Definition release_entries {P F} (show_p : P -> list Z) (show_f : F -> list Z) (f0 : option F) (u0 : P) (f1 : option F) (u1 : P) : list Z :=
  pointers_entry show_p show_f "Release 0" f0 u0 ++ pointers_entry show_p show_f "Release 1" f1 u1.

Definition match_text (pr : Printer) (x : MatchReg) : list Z :=
  let m := x_m x in let r := x_release x in
  (if x_addMatchToBusDaemon x then str "Add to bus" ++ [NL] else []) ++
  pointers_entry (show_p pr) (show_m pr) "Callback" (x_callback x) (x_cuser x) ++
  release_entries (show_p pr) (show_f pr) (release0 r) (ruser0 r) (release1 r) (ruser1 r) ++
  match cm_type m with MSG_INVALID => [] | t => entry "Type" (TypeString t) end ++
  (if x_replySerial x <? 0 then [] else entry "Reply serial" (dec (x_replySerial x mod 2 ^ 32))) ++
  field_entry "Sender" (sender m) ++ field_entry "Destination" (destination m) ++ field_entry "Interface" (interface m) ++
  field_entry "Path" (path m) ++ field_entry "Member" (member m) ++ field_entry "Error" (x_error x) ++ string_entries 0 (arguments m).

Record match_sizes (x : MatchReg) : Prop := {
  ms_sender : fits (sender (x_m x)) (senderSize (x_m x)); ms_destination : fits (destination (x_m x)) (destinationSize (x_m x));
  ms_interface : fits (interface (x_m x)) (interfaceSize (x_m x)); ms_path : fits (path (x_m x)) (pathSize (x_m x));
  ms_member : fits (member (x_m x)) (memberSize (x_m x)); ms_error : fits (x_error x) (x_errorSize x);
  ms_arguments : Forall (fun a => fits (arg_value a) (arg_size a)) (arguments (x_m x)) }.

Definition reply_text (pr : Printer) (r : adbus_Reply) : list Z :=
  let h := y_hooks r in let d := y_release h in
  entry "Serial" (dec (y_serial r mod 2 ^ 32)) ++ field_entry "Remote" (y_remote r) ++
  pointers_entry (show_p pr) (show_m pr) "Callback" (y_callback h) (y_cuser h) ++ pointers_entry (show_p pr) (show_m pr) "Error" (y_error h) (y_euser h) ++
  release_entries (show_p pr) (show_f pr) (release0 d) (ruser0 d) (release1 d) (ruser1 d).

(** The line of the callback of a bind has two NULL pointers. *)
Definition bind_text {P F I} (show_p : P -> list Z) (show_f : F -> list Z) (show_i : I -> list Z) (null : P) (path : option (list Z)) (i : I) (name : option (list Z)) (f0 : option F) (u0 : P) (f1 : option F) (u1 : P) : list Z :=
  field_entry "Path" path ++ entry "Interface" (show_i i ++ match name with Some n => str " " ++ cstr n | None => [] end) ++
  entry "Callback" (show_p null ++ str " " ++ show_p null) ++ release_entries show_p show_f f0 u0 f1 u1.

Lemma adds_when (c : bool) (op : M d_String unit) (t : list Z) : adds op t -> adds (when c op) (if c then t else []).
Proof. destruct c; [done|intros _; apply adds_nil]. Qed.
Lemma adds_line (what : string) (t : list Z) : adds (line what t) (entry what t).
Proof. apply adds_print. Qed.

Lemma fmt_width_len (s : list Z) : fmt_width (len s) s = s.
Proof. unfold fmt_width. pose proof (len_nonneg s). rewrite (proj2 (Z.ltb_ge _ _)) by done. by apply pad_string_fits. Qed.

Lemma adds_sized (what : string) (v : option (list Z)) (n : Z) : fits v n -> adds (AppendField what v n) (field_entry what v).
Proof.
  intros H. destruct v as [s|]; [|apply adds_nil]. cbn [AppendField field_entry].
  assert (E : (if n <? 0 then len (cstr s) else n) = len (cstr s)) by (destruct (H s eq_refl) as [Hn| ->]; [by rewrite (proj2 (Z.ltb_lt _ _))|by destruct (_ <? 0)]).
  rewrite E, fmt_width_len. apply adds_line.
Qed.

Lemma adds_pointers {P F} (sp : P -> list Z) (sf : F -> list Z) (what : string) (f : option F) (u : P) : adds (LogRelease sp sf what f u) (pointers_entry sp sf what f u).
Proof. destruct f; [apply adds_print|apply adds_nil]. Qed.
Lemma adds_callback (pr : Printer) (what : string) (f : option MsgCallback) (u : Client.pointer) : adds (LogCallback pr what f u) (pointers_entry (show_p pr) (show_m pr) what f u).
Proof. destruct f; [apply adds_print|apply adds_nil]. Qed.

Lemma adds_arguments (l : list Argument) : Forall (fun a => fits (arg_value a) (arg_size a)) l -> forall i, adds (MatchArguments i l) (string_entries i l).
Proof.
  induction 1 as [|a l Ha _ IH]; intros i; [apply adds_nil|]. cbn [MatchArguments string_entries]. apply adds_then; [|apply IH].
  destruct (arg_value a) as [v|]; [|apply adds_nil].
  assert (E : (if 0 <=? arg_size a then fmt_width (arg_size a) (cstr v) else cstr v) = cstr v).
  { destruct (Z.leb_spec 0 (arg_size a)); [|done]. destruct (Ha v eq_refl) as [Hn| ->]; [lia|apply fmt_width_len]. }
  rewrite E. apply adds_print.
Qed.
End Logs.

#[export] Hint Resolve adds_nil adds_print adds_when adds_line adds_sized adds_pointers adds_callback adds_arguments : adbus.

Section Results.
Context {B : Build}.

Lemma adds_releases {P F} (sp : P -> list Z) (sf : F -> list Z) (f0 : option F) (u0 : P) (f1 : option F) (u1 : P) :
  adds (run* LogRelease sp sf "Release 0" f0 u0 in LogRelease sp sf "Release 1" f1 u1) (release_entries sp sf f0 u0 f1 u1).
Proof. apply adds_then; auto with adbus. Qed.

Lemma bind_adds {P F I} (sp : P -> list Z) (sf : F -> list Z) (si : I -> list Z) (null : P) (path : option (list Z)) (n : Z) (i : I) (name : option (list Z)) (f0 : option F) (u0 : P) (f1 : option F) (u1 : P) :
  fits path n -> adds (BindString sp sf si null path n i name f0 u0 f1 u1) (bind_text sp sf si null path i name f0 u0 f1 u1).
Proof.
  intros H. unfold BindString, bind_text. apply adds_then; [auto with adbus|].
  apply adds_then; [destruct name; [apply adds_line|rewrite app_nil_r; apply adds_line]|]. apply adds_then; [apply adds_line|apply adds_releases].
Qed.

Lemma match_adds (pr : Printer) (x : MatchReg) : match_sizes x -> adds (MatchString pr x) (match_text pr x).
Proof.
  intros [H1 H2 H3 H4 H5 H6 H7]. unfold MatchString, match_text, release_entries. rewrite <- app_assoc. do 4 (apply adds_then; [auto with adbus|]).
  apply adds_then; [destruct (cm_type (x_m x)); first [apply adds_line|apply adds_nil]|].
  apply adds_then; [|repeat (apply adds_then; [auto with adbus|]); auto with adbus].
  rewrite Z.leb_antisym. destruct (_ <? 0); [apply adds_nil|apply adds_line].
Qed.

Lemma reply_adds (pr : Printer) (r : adbus_Reply) : fits (y_remote r) (y_remoteSize r) -> adds (ReplyString pr r) (reply_text pr r).
Proof. intros H. unfold ReplyString, reply_text. do 4 (apply adds_then; [auto with adbus|]). apply adds_releases. Qed.

(** [op] gives the text [t] to the logger in one call, and does nothing
    without a logger. *)
Definition logs_text (op : M Logger unit) (header t : list Z) : Prop := forall l,
  (forall f, op (mkLogger (Some f) l) = Ret tt (mkLogger (Some f) (l ++ [(f, log_entry header t, len (log_entry header t))]))) /\
  op (mkLogger None l) = Ret tt (mkLogger None l).

Lemma adds_logs (op : M d_String unit) (header t : list Z) : adds op t -> logs_text (log_text header op) header t.
Proof. intros H l. split; [intros f; by apply log_text_run|by apply log_text_off]. Qed.

(** C36: what is logged.  When there is a logger, a message, a match and a reply
    are each given to it in one call; without one nothing happens.  The text of
    a message is its kind, flags, length and serial, the fields it has, and its
    arguments: numbers with their sign and value, strings in quotes, variants
    with their type, arrays and structs item by item.  That of a match and of a
    reply is what they ask for, field by field, with their callbacks and data;
    their strings have no size or their own.  Every line is as far to the right
    as the first, which the header is in front of.  The arguments have no entry
    of a dictionary and no struct of nothing: see [dictionary_spins]. *)
Theorem message_logged (fuel : nat) (h : list Z) (m : Message) (vs : list value) (pr : Printer) (x : MatchReg) (r : adbus_Reply) :
  holds_values m vs -> enough fuel vs -> match_sizes x -> fits (y_remote r) (y_remoteSize r) ->
  logs_text (adbusI_logmsg fuel h m) h (summary m vs) /\ logs_text (adbusI_logmatch pr h x) h (match_text pr x) /\ logs_text (adbusI_logreply pr h r) h (reply_text pr r).
Proof.
  intros Hm Hf Hx Hr. split; [|split]; apply adds_logs; [by apply summary_run|by apply match_adds|by apply reply_adds].
Qed.

(** A bind is logged in the same way, but for its callback, which is not
    printed. *)
Theorem bind_logged (sp : Objects.pointer -> list Z) (sf si : nat -> list Z) (h : list Z) (c : Objects.Conn) (b : Objects.Bind) : fits (Some (Objects.path b)) (Objects.pathSize b) ->
  let k := Objects.hooks b in
  logs_text (adbusI_logbind sp sf si h c b) h (bind_text sp sf si Objects.Null (Some (Objects.path b)) (Objects.interface b) (option_map Objects.i_name (Objects.ifaces c !! Objects.interface b))
    (Objects.release0 k) (Objects.ruser0 k) (Objects.release1 k) (Objects.ruser1 k)).
Proof. intros H. by apply adds_logs, bind_adds. Qed.

(** *** Dictionaries *)
Lemma entry_spins (m : list Z) (fuel : nat) : forall w, deref (sig (l_iter w)) = chr "{" -> LogField m fuel w = Nofuel.
Proof.
  induction fuel as [|fuel IH]; intros w H; [done|]. cbn [LogField]. rewrite (bind_Ret get _ _ _ _ eq_refl), H.
  change (field_of (chr "{")) with (Some DICTENTRY_BEGIN). cbv iota. unfold bind. by rewrite IH.
Qed.

(** The case of an entry calls the function again without moving the iterator:
    no fuel is enough for a dictionary that has an entry. *)
Theorem dictionary_spins (m : list Z) (p sz : Z) (k v : value) (es : list value) (r : list Z) (text : d_String) (s : list Z) (fuel : nat) :
  let d := VArray (TDict (ty_of k) (ty_of v)) (VDict k v :: es) in
  wf p d -> loggable k = true -> at_ m p (enc p d) -> len (enc p d) <= sz -> holds text s ->
  LogField m fuel (mkLog text (mkIter p sz (sig_of (ty_of d) ++ r))) = Nofuel.
Proof.
  intros d Hw Hk Hat Hs Ht. destruct fuel as [|fuel]; [done|]. unfold d in *. cbn [LogField]. rewrite (bind_Ret get _ _ _ _ eq_refl). cbn [l_iter sig ty_of]. rewrite sig_of_deref, field_of_code.
  cbn [head_of sig_of app]. apply wf_array in Hw as (Hm & Hw & _). set (t := TDict (ty_of k) (ty_of v)) in *. unfold LogArray.
  rewrite (bind_Ret _ _ _ _ _ (on_iter_run _ text _ _ _ (array_begins m p sz t _ r Hm Hat Hs))), (bind_Ret get _ _ _ _ eq_refl).
  cbn [l_iter sig]. rewrite head_dict. destruct (prints_cat (str (if is_dict t then "{" else "[")) (mkIter (array_data p t) (sz - (array_data p t - p)) (sig_of t ++ r)) text s Ht) as (v1 & E1 & _).
  rewrite (bind_Ret _ _ _ _ _ E1). set (a := mkArray _ _ _ _). destruct Hw as [Hw _]. destruct Hw as [Hk' _].
  assert (Hp : 0 < len (encs (array_data p t) (VDict k v :: es))).
  { cbn [encs seq_enc enc]. set (q := array_data p t) in *. pose proof (enc_pos k _ Hk' Hk). rewrite !len_app.
    repeat match goal with |- context [len ?l] => lazymatch goal with H : 0 <= len l |- _ => fail | H : 0 < len l |- _ => fail | _ => pose proof (len_nonneg l) end end. lia. }
  unfold bind at 1. destruct fuel as [|fuel]; cbn [LogItems]; rewrite (bind_Ret _ _ _ _ _ (inarray_run _ _ _ _ a v1 eq_refl)), (proj2 (Z.ltb_lt _ _)) by (cbn [a_data a_size a]; lia); [done|].
  rewrite (bind_Ret (ret tt) _ _ _ tt eq_refl). unfold bind at 1. by rewrite entry_spins.
Qed.
End Results.

(** ** Samples *)
Section Samples.
#[local] Existing Instance debug_build.

Definition sample_args : list value := [VStruct [VNum INT16 65535; VStr STRING (str "a.b")]; VArray TVariant [VVariant (VNum BOOLEAN 1); VVariant (VNum DOUBLE 4599676419421066581)]; VNum UINT8 7].
Definition sample_logged : Message :=
  mkMsg [] 120 (encs 0 sample_args) (len (encs 0 sample_args)) MSG_SIGNAL 1 9 (Some (sigs_of (map ty_of sample_args))) 8 None (Some (str "/a")) (Some (str "a.b")) (Some (str "Changed")) None None None None.

Lemma sample_logged_values : holds_values sample_logged sample_args.
Proof.
  split; [by left|done|done| |done]. cbn. unfold wf_num, wf_str. repeat split; try (vm_compute; congruence).
  all: try (apply no_nul_forallb; reflexivity). all: apply bytes_forallb; reflexivity.
Qed.

Definition lines (l : list (list Z)) : list Z := concat (map (fun s => s ++ [NL]) l).
Definition q (s : string) : list Z := quoted (str s).

Definition sample_printer : Printer := mkPrinter (fun _ => str "0x1") (fun _ => str "0x2") (fun _ => str "0x3").
Definition sample_match : MatchReg :=
  mkMatchReg (mkCMatch MSG_SIGNAL None (-1) None (-1) (Some (str "a.b")) 3 None (-1) (Some (str "Changed")) (-1) [arg_init; mkArg (Some (str "z")) 1])
    true (-1) None (-1) None Client.Null None Client.Null release_zero.

Lemma message_logged_witness : exists s t l, adbusI_logmsg 20 (str "received") sample_logged (mkLogger (Some 0%nat) []) = Ret tt (mkLogger (Some 0%nat) [(0%nat, s, len s)]) /\
  s = lines [str "received   Signal: Flags 1, Length 120, Serial 9"; str "           Path            " ++ q "/a"; str "           Interface       " ++ q "a.b"; str "           Member          " ++ q "Changed";
    str "           Signature       " ++ q "(ns)avy"; str "           Argument  0     (-1, " ++ q "a.b" ++ str ")"; str "           Argument  1     [<b>{true}, <d>{0.333333333333333}]"; str "           Argument  2     7"] /\
  adbusI_logmatch sample_printer (str "received") sample_match (mkLogger (Some 0%nat) []) = Ret tt (mkLogger (Some 0%nat) (l ++ [(0%nat, t, len t)])) /\
  t = lines [str "received   Add to bus"; str "           Type            signal"; str "           Interface       " ++ q "a.b"; str "           Member          " ++ q "Changed"; str "           Argument 1      " ++ q "z"].
Proof.
  assert (He : enough 20 sample_args) by (split; [cbn; lia|repeat constructor; vm_compute; lia]).
  assert (Hx : match_sizes sample_match).
  { assert (X : forall s n, (n <? 0) || (n =? len (cstr s)) = true -> fits (Some s) n).
    { intros s n [H%Z.ltb_lt|H%Z.eqb_eq]%orb_true_iff t [= <-]; [by left|by right]. }
    split; try done; try (apply X; reflexivity). apply Forall_cons_2; [done|]. apply Forall_cons_2; [apply X; reflexivity|by apply Forall_nil_2]. }
  destruct (message_logged 20 (str "received") sample_logged sample_args sample_printer sample_match (mkReply 1 None (-1) (mkReplyHooks None Client.Null None Client.Null None Client.Null release_zero)) sample_logged_values He Hx ltac:(done)) as (E & E' & _).
  eexists _, _, []. split; [exact (proj1 (E []) 0%nat)|]. split; [vm_compute; reflexivity|]. split; [exact (proj1 (E' []) 0%nat)|]. vm_compute. reflexivity.
Defined.
End Samples.
