(* ===== verification/Threads.v ===== *)
(** States on any thread (adbus/state.c, and adbus_conn_shouldproxy,
    adbus_conn_proxy and adbus_conn_getproxy of adbus/connection.c): binds
    that are made through a state, and the work that a state on another thread
    hands over to the thread of the connection. *)

From Stdlib Require Import ZArith Lia.
From stdpp Require Import base option list numbers strings gmap.
From S2P Require Import Prelude Names Objects Iterator Values MatchRule Message Factory Client.
#[local] Open Scope Z_scope.
#[local] Open Scope adbus_scope.

(** ** What is handed over

    The thread of the connection runs the jobs in the order in which they were
    posted (adbus_ConnectionCallbacks::proxy).  [adbus_Bind], [adbus_Match] and
    [adbus_Reply] are the copies in struct Data; an argument of a match that is
    [None] was not initialised. *)
Inductive job :=
| ProxyBind (d : datid) (b : Objects.Bind)
| ProxyAddMatch (d : datid) (g : MatchReg) (args : list (option Argument))
| ProxyReply (d : datid) (r : adbus_Reply)
| ProxyReset (k : scid).

(** The rest of struct Conn. *)
Record ConnRest := mkRest { sc_binds : list datid; sc_proxy : option nat; sc_puser : pointer }.

(** [w_bound]: the [data] of a struct Data that is a bind. *)
Record World := mkWorld { w_client : Client; w_rest : gmap scid ConnRest; w_bound : gmap datid Objects.bid; w_jobs : list job }.
Definition set_client (c : Client) (w : World) : World := mkWorld c (w_rest w) (w_bound w) (w_jobs w).
Definition set_rest (r : gmap scid ConnRest) (w : World) : World := mkWorld (w_client w) r (w_bound w) (w_jobs w).
Definition set_bound (b : gmap datid Objects.bid) (w : World) : World := mkWorld (w_client w) (w_rest w) b (w_jobs w).
Definition set_jobs (l : list job) (w : World) : World := mkWorld (w_client w) (w_rest w) (w_bound w) l.
#[export] Instance world_client : Part World Client := { part := w_client; set_part := set_client }.
#[export] Instance world_client_laws : PartLaws World Client.
Proof. split; [done|by intros []|done]. Qed.

Definition on_world {A} (op : M Client A) : M World A := on_part op.
Definition on_objects {A} (op : M Objects.Conn A) : M World A := on_part (on_part op : M Client A).
Definition rest_at (k : scid) : M World ConnRest := let* w := get in of_option (w_rest w !! k).
Definition put_rest (k : scid) (x : ConnRest) : M World unit := modify (fun w => set_rest (<[k := x]> (w_rest w)) w).

(** The number that stands for ReleaseDataCallback among the release callbacks
    of binds; those of users have others. *)
Definition RELEASE_DATA : Objects.callback := 4%nat.

(** What a user gives to a bind, as the other registrations have it. *)
Definition user_pointer (u : Objects.pointer) : M World pointer :=
  match u with Objects.Null => ret Null | Objects.User p => ret (User p) | Objects.Object _ => oob end.

Section States.
Context {B : Build} (dh_order : forall A : Type, gmap (list Z) A -> list (list Z * A)).
Context (send_message : option (Message -> Z)).
(** get_proxy on the thread of the connection, for its own state; and on the
    thread of the state: the proxies of release callbacks and of messages. *)
Context (conn_proxy get_relproxy get_msgproxy : option (nat * pointer)).

(** *** FreeData *)
Definition FreeData (d : datid) : M World unit :=
  let* x := on_world (data_at d) in
  let* k := rest_at (d_conn x) in
  run* put_rest (d_conn x) (mkRest (without d (sc_binds k)) (sc_proxy k) (sc_puser k)) in
  run* on_world (Client.FreeData d) in
  modify (fun w => set_bound (delete d (w_bound w)) w).

(** The release callbacks that freeing a bind called: ReleaseDataCallback,
    unless it went to a proxy. *)
Fixpoint run_released (l : list Objects.event) : M World unit :=
  match l with
  | [] => ret tt
  | Objects.Release f u :: l =>
      run* (if (f =? RELEASE_DATA)%nat then match u with Objects.User d => FreeData d | _ => oob end else ret tt) in
      run_released l
  | Objects.ReleaseProxy _ _ _ _ :: l => run_released l
  end.
Definition adbus_conn_unbind (b : Objects.bid) : M World unit :=
  let* w := get in
  run* on_objects (Objects.adbus_conn_unbind dh_order b) in
  let* w' := get in
  run_released (drop (length (Objects.released (conn (w_client w)))) (Objects.released (conn (w_client w')))).

(** *** DupString

    [strlen] of NULL is a memory error; so is copying more than nothing from
    it. *)
Definition DupString (s : option (list Z)) (sz : Z) : M World (option (list Z) * Z) :=
  match s with
  | Some s => if sz <? 0 then ret (Some (cstr s), len (cstr s)) else ret (Some (cstr (take (Z.to_nat sz) s)), sz)
  | None => if sz =? 0 then ret (Some [], 0) else oob
  end.

(** *** LookupConnection *)
Definition LookupConnection (s : stid) : M World scid :=
  let* k := on_world (Client.LookupConnection get_relproxy s) in
  let* w := get in
  match w_rest w !! k with
  | Some _ => ret k
  | None => run* put_rest k (mkRest [] (fst <$> get_msgproxy) (from_option snd Null get_msgproxy)) in ret k
  end.

(** [NEW(struct Data)] and LookupConnection. *)
Definition new_data (s : stid) : M World (datid * scid) :=
  let* d := on_world alloc in
  let* k := LookupConnection s in
  run* on_world (put_data d (mkData k NoTarget release_zero)) in
  ret (d, k).

Definition if_failed (d : datid) (failed : bool) : M World unit := if failed then FreeData d else ret tt.

(** *** Binds *)
Definition bind_release (h : Objects.Hooks) : M World Release :=
  let* u0 := user_pointer (Objects.ruser0 h) in
  let* u1 := user_pointer (Objects.ruser1 h) in
  ret (mkRelease (UserRelease <$> Objects.release0 h) u0 (UserRelease <$> Objects.release1 h) u1 None Null).
Definition data_bind (d : datid) (b : Objects.Bind) : Objects.Bind :=
  let h := Objects.hooks b in
  Objects.mkBindArgs (Objects.path b) (Objects.pathSize b) (Objects.interface b)
    (Objects.mkHooks (Objects.cuser2 h) (Objects.proxy h) (Objects.puser h) (Some RELEASE_DATA) None (Objects.User d) Objects.Null (Objects.relproxy h) (Objects.relpuser h)).

Definition DoBind (d : datid) (b : Objects.Bind) : M World bool :=
  let* x := on_world (data_at d) in
  let* h := bind_release (Objects.hooks b) in
  run* on_world (put_data d (mkData (d_conn x) NoTarget h)) in
  let* r := on_objects (Objects.adbus_conn_bind (data_bind d b)) in
  match r with
  | None => ret true
  | Some i =>
      run* modify (fun w => set_bound (<[d := i]> (w_bound w)) w) in
      let* k := rest_at (d_conn x) in
      run* put_rest (d_conn x) (mkRest (d :: sc_binds k) (sc_proxy k) (sc_puser k)) in
      ret false
  end.

(** *** Matches

    [memcpy] of as many bytes as there are arguments; each has 16. *)
Definition copied_args (l : list Argument) : list (option Argument) :=
  imap (fun i a => if (16 * S i <=? length l)%nat then Some a else None) l.

Definition strings_of (g : MatchReg) (sender destination interface path member error : option (list Z) * Z) (args : list Argument) : MatchReg :=
  mkMatchReg (mkCMatch (cm_type (x_m g)) (fst sender) (snd sender) (fst destination) (snd destination) (fst interface) (snd interface)
                (fst path) (snd path) (fst member) (snd member) args)
    (x_addMatchToBusDaemon g) (x_replySerial g) (fst error) (snd error) (x_callback g) (x_cuser g) (x_proxy g) (x_puser g) (x_release g).
Definition set_match_proxy (p : option nat) (u : pointer) (h : Release) (g : MatchReg) : MatchReg :=
  mkMatchReg (x_m g) (x_addMatchToBusDaemon g) (x_replySerial g) (x_error g) (x_errorSize g) (x_callback g) (x_cuser g) p u h.
Definition set_relproxy (s : StateConn) (h : Release) : Release :=
  mkRelease (release0 h) (ruser0 h) (release1 h) (ruser1 h) (st_relproxy s) (st_relpuser s).

Definition DoAddMatch (d : datid) (g : MatchReg) : M World bool := on_world (Client.DoAddMatch send_message (lookup_service send_message conn_proxy) conn_proxy d g).

(** *** Replies *)
Definition DoAddReply (d : datid) (r : adbus_Reply) : M World bool := on_world (Client.DoAddReply (lookup_service send_message conn_proxy) d r).

(** *** Removing everything *)
Fixpoint reset_binds (l : list datid) : M World unit :=
  match l with
  | [] => ret tt
  | d :: l =>
      let* w := get in
      let* b := of_option (w_bound w !! d) in
      run* adbus_conn_unbind b in
      reset_binds l
  end.

Definition ResetConn (k : scid) : M World unit :=
  let* x := rest_at k in
  run* reset_binds (sc_binds x) in
  let* x := rest_at k in
  run* assert_ (bool_decide (sc_binds x = [])) in
  run* on_world (Client.ResetConn send_message conn_proxy k) in
  modify (fun w => set_rest (delete k (w_rest w)) w).

(** ** The thread of the connection *)
Definition run_bind (d : datid) (b : Objects.Bind) : M World unit :=
  let* failed := DoBind d b in
  run* on_objects (Objects.adbus_iface_deref dh_order (Objects.interface b)) in
  if_failed d failed.
Definition run_addmatch (d : datid) (g : MatchReg) (args : list (option Argument)) : M World unit :=
  let* l := of_option (mapM id args) in
  let f := x_m g in
  let g := strings_of g (sender f, senderSize f) (destination f, destinationSize f) (interface f, interfaceSize f) (path f, pathSize f) (member f, memberSize f) (x_error g, x_errorSize g) l in
  let* failed := DoAddMatch d g in
  if_failed d failed.
Definition run_reply (d : datid) (r : adbus_Reply) : M World unit :=
  let* failed := DoAddReply d r in
  if_failed d failed.
Definition run_job (j : job) : M World unit :=
  match j with
  | ProxyBind d b => run_bind d b
  | ProxyAddMatch d g args => run_addmatch d g args
  | ProxyReply d r => run_reply d r
  | ProxyReset k => ResetConn k
  end.

(** [should_proxy], what it answers on this thread, and whether there is a
    [proxy] (adbus_ConnectionCallbacks). *)
Record Callbacks := mkCallbacks { cb_should_proxy : option bool; cb_proxy : bool }.
Definition adbus_conn_shouldproxy (cb : Callbacks) : bool := default false (cb_should_proxy cb) && cb_proxy cb.
Definition adbus_conn_proxy (cb : Callbacks) (j : job) : M World unit :=
  if cb_proxy cb then modify (fun w => set_jobs (w_jobs w ++ [j]) w) else run_job j.

(** ** The thread of the state *)
(** A proxy as the objects know it. *)
Definition object_pointer (u : pointer) : Objects.pointer := match u with User p => Objects.User p | _ => Objects.Null end.
Definition proxied_bind (path : list Z) (size : Z) (k : ConnRest) (s : StateConn) (b : Objects.Bind) : Objects.Bind :=
  let h := Objects.hooks b in
  Objects.mkBindArgs path size (Objects.interface b)
    (Objects.mkHooks (Objects.cuser2 h) (sc_proxy k) (object_pointer (sc_puser k)) (Objects.release0 h) (Objects.release1 h) (Objects.ruser0 h) (Objects.ruser1 h)
       (st_relproxy s) (object_pointer (st_relpuser s))).

Definition adbus_state_bind (cb : Callbacks) (s : stid) (b : Objects.Bind) : M World unit :=
  run* assert_ (bool_decide (Objects.proxy (Objects.hooks b) = None) && bool_decide (Objects.relproxy (Objects.hooks b) = None)) in
  let* x := new_data s in
  let '(d, k) := x in
  if adbus_conn_shouldproxy cb then
    let* p := DupString (Some (Objects.path b)) (Objects.pathSize b) in
    let* r := rest_at k in
    let* c := on_world (conn_at k) in
    run* on_objects (Objects.adbus_iface_ref (Objects.interface b)) in
    adbus_conn_proxy cb (ProxyBind d (proxied_bind (default [] (fst p)) (snd p) r c b))
  else
    let* failed := DoBind d b in if_failed d failed.

Definition adbus_state_addmatch (cb : Callbacks) (s : stid) (g : MatchReg) : M World unit :=
  run* assert_ (bool_decide (x_proxy g = None) && bool_decide (relproxy (x_release g) = None)) in
  let* x := new_data s in
  let '(d, k) := x in
  if adbus_conn_shouldproxy cb then
    let f := x_m g in
    let* s1 := DupString (sender f) (senderSize f) in
    let* s2 := DupString (destination f) (destinationSize f) in
    let* s3 := DupString (interface f) (interfaceSize f) in
    let* s4 := DupString (path f) (pathSize f) in
    let* s5 := DupString (member f) (memberSize f) in
    let* s6 := DupString (x_error g) (x_errorSize g) in
    let* r := rest_at k in
    let* c := on_world (conn_at k) in
    let g := set_match_proxy (sc_proxy r) (sc_puser r) (set_relproxy c (x_release g)) (strings_of g s1 s2 s3 s4 s5 s6 (arguments f)) in
    adbus_conn_proxy cb (ProxyAddMatch d g (copied_args (arguments f)))
  else
    let* failed := DoAddMatch d g in if_failed d failed.

Definition adbus_state_addreply (cb : Callbacks) (s : stid) (r : adbus_Reply) : M World unit :=
  let h := y_hooks r in
  run* assert_ (bool_decide (y_proxy h = None) && bool_decide (relproxy (y_release h) = None)) in
  let* x := new_data s in
  let '(d, k) := x in
  if adbus_conn_shouldproxy cb then
    let* p := DupString (y_remote r) (y_remoteSize r) in
    let* q := rest_at k in
    let* c := on_world (conn_at k) in
    adbus_conn_proxy cb (ProxyReply d (mkReply (y_serial r) (fst p) (snd p)
      (mkReplyHooks (y_callback h) (y_cuser h) (y_error h) (y_euser h) (sc_proxy q) (sc_puser q) (set_relproxy c (y_release h)))))
  else
    let* failed := DoAddReply d r in if_failed d failed.

Definition adbus_state_reset (cb : Callbacks) (s : stid) : M World unit :=
  let* w := get in
  let* st := of_option (states (w_client w) !! s) in
  match st with
  | None => ret tt
  | Some k =>
      run* on_world (modify (fun c => set_states (<[s := None]> (states c)) c)) in
      if adbus_conn_shouldproxy cb then adbus_conn_proxy cb (ProxyReset k) else ResetConn k
  end.
Definition adbus_state_free (cb : Callbacks) (s : stid) : M World unit :=
  run* adbus_state_reset cb s in
  on_world (modify (fun c => set_states (delete s (states c)) c)).

(** All that is posted. *)
Fixpoint run_list (l : list job) : M World unit :=
  match l with [] => ret tt | j :: l => run* run_job j in run_list l end.
Definition run_jobs : M World unit :=
  let* w := get in
  run* put (set_jobs [] w) in
  run_list (w_jobs w).

(** The thread of the state: the release callbacks that were handed to it. *)
Definition run_local (e : Client.event) : M World unit :=
  match e with
  | ReleasedBy _ _ ReleaseDataCallback (TheData d) => FreeData d
  | _ => ret tt
  end.
End States.

(** ** Registering from another thread *)
Section HandedOver.
Context {B : Build} (dh_order : forall A : Type, gmap (list Z) A -> list (list Z * A)) (send_message : option (Message -> Z)) (conn_proxy : option (nat * pointer)).
Notation new_data := (new_data None None).
Notation addreply := (adbus_state_addreply dh_order send_message conn_proxy None None).
(** A thread from which work is handed over, and one from which it is not. *)
Context (there here : Callbacks) (Hthere : adbus_conn_shouldproxy there = true) (Hhere : adbus_conn_shouldproxy here = false).
Notation addmatch := (adbus_state_addmatch dh_order send_message conn_proxy None None).
Notation run_jobs := (run_jobs dh_order send_message conn_proxy).

(** What the state registered before, it registered without proxies. *)
Definition unproxied (w : World) (k : scid) : Prop := exists c, conn_heap (w_client w) !! k = Some c /\ st_relproxy c = None /\ st_relpuser c = Null.
Record plain (w : World) (s : stid) : Prop := {
  pl_conn k : states (w_client w) !! s = Some (Some k) -> unproxied w k;
  pl_rest k r : w_rest w !! k = Some r -> sc_proxy r = None /\ sc_puser r = Null }.

(** What [new_data] leaves behind. *)
Definition ready (k : scid) (w : World) : Prop := unproxied w k /\ exists r, w_rest w !! k = Some r /\ sc_proxy r = None /\ sc_puser r = Null.

Lemma on_world_run {A} (op : M Client A) (w : World) (a : A) (c : Client) : op (w_client w) = Ret a c -> on_world op w = Ret a (set_client c w).
Proof. intros E. unfold on_world, on_part. cbn [part world_client]. by rewrite E. Qed.

Lemma same_client (w : World) : set_client (w_client w) w = w.
Proof. by destruct w. Qed.

(** The second half of [LookupConnection]. *)
Definition find_rest (k : scid) : M World scid :=
  let* w := get in match w_rest w !! k with Some _ => ret k | None => run* put_rest k (mkRest [] None Null) in ret k end.

Lemma rest_found (k : scid) (w : World) : unproxied w k -> (forall r, w_rest w !! k = Some r -> sc_proxy r = None /\ sc_puser r = Null) -> exists w',
  find_rest k w = Ret k w' /\ ready k w' /\ w_jobs w' = w_jobs w.
Proof.
  intros Hc Hr. unfold find_rest. rewrite (bind_Ret get _ w w w eq_refl). destruct (w_rest w !! k) as [r|] eqn:E.
  - exists w. destruct (Hr r eq_refl). split_and!; [done| |done]. split; [done|]. by exists r.
  - eexists. split; [reflexivity|]. split; [|done]. split; [exact Hc|]. exists (mkRest [] None Null). cbn. by rewrite lookup_insert_eq.
Qed.

Lemma lookup_client (s : stid) (c : Client) : match Client.LookupConnection None s c with
  | Ret k c' => (states c !! s = Some (Some k) /\ c' = c) \/ (conn_heap c' !! k = Some (mkStateConn [] [] None Null))
  | Oob => True | _ => False end.
Proof.
  unfold Client.LookupConnection. rewrite (bind_Ret get _ c c c eq_refl). destruct (states c !! s) as [[k|]|] eqn:E; [by left|right; apply lookup_insert_eq|done].
Qed.

Lemma new_data_ready (s : stid) (w : World) : plain w s -> match new_data s w with
  | Ret (d, k) w' => ready k w' /\ w_jobs w' = w_jobs w
  | Oob => True | _ => False end.
Proof.
  intros [Hc Hr]. unfold Threads.new_data. set (c0 := set_next_id (S (next_id (w_client w))) (w_client w)).
  assert (E0 : on_world alloc w = Ret (next_id (w_client w)) (set_client c0 w)) by reflexivity. rewrite (bind_Ret _ _ _ _ _ E0). set (w0 := set_client c0 w).
  unfold LookupConnection. pose proof (lookup_client s c0) as H. unfold bind at 1. unfold bind at 1. unfold on_world at 1, on_part at 1. change (part w0) with c0.
  destruct (Client.LookupConnection None s c0) as [k c1| | | |]; try done. change (set_part c1 w0) with (set_client c1 w0).
  assert (Hu : unproxied (set_client c1 w0) k).
  { destruct H as [[E ->]|E]; [exact (Hc k E)|]. eexists. split; [exact E|done]. }
  destruct (rest_found k (set_client c1 w0) Hu (Hr k)) as (w2 & E2 & R & J). unfold find_rest in E2. cbn [fmap option_fmap option_map from_option] in *. rewrite E2.
  unfold on_world, on_part, put_data, modify. cbn [part world_client]. unfold ret, bind. cbn. split; [|exact J].
  destruct R as [[c R] R']. split; [by exists c|exact R'].
Qed.

(** *** The copies *)
Lemma dup_sized (x : list Z) (n : Z) (w : World) : no_nul x -> exists y k, DupString (Some x) n w = Ret (Some y, k) w /\ sized y k = sized x n /\ no_nul y.
Proof.
  intros Hx. unfold DupString, ret, sized. destruct (Z.ltb_spec n 0) as [Hn|Hn].
  - eexists _, _. split; [reflexivity|]. rewrite (cstr_no_nul x Hx). pose proof (len_nonneg x). rewrite (proj2 (Z.ltb_ge _ _)) by done. split; [|done].
    unfold len. by rewrite Nat2Z.id, firstn_all.
  - eexists _, _. split; [reflexivity|]. rewrite (proj2 (Z.ltb_ge _ _)) by done. rewrite cstr_no_nul by (by apply Forall_take). split; [|by apply Forall_take].
    by rewrite take_take, Nat.min_id.
Qed.

(** The job is the only one, and runs where it was posted. *)
Lemma post_run (j : job) (w : World) : w_jobs w = [] -> (run* adbus_conn_proxy dh_order send_message conn_proxy there j in run_jobs) w = run_job dh_order send_message conn_proxy j w.
Proof.
  intros Hj. unfold adbus_conn_proxy, Threads.run_jobs. assert (Ep : cb_proxy there = true) by (revert Hthere; unfold adbus_conn_shouldproxy; rewrite andb_true_iff; by intros [_ ?]). rewrite Ep.
  rewrite (bind_Ret (modify _) _ w (set_jobs [j] w) tt) by (unfold modify; by rewrite Hj).
  rewrite (bind_Ret get _ _ _ _ eq_refl). assert (E : set_jobs [] (set_jobs [j] w) = w) by (destruct w; cbn in Hj; by subst).
  rewrite (bind_Ret (put _) _ _ w tt) by (unfold put; by rewrite E). cbn [run_list w_jobs set_jobs].
  unfold bind. by destruct (run_job _ _ _ j w) as [[] ?| | | |].
Qed.

Lemma rest_read (k : scid) (w : World) (r : ConnRest) : w_rest w !! k = Some r -> rest_at k w = Ret r w.
Proof. intros E. unfold rest_at. by rewrite (bind_Ret get _ w w w eq_refl), E. Qed.

Lemma conn_read (k : scid) (w : World) (c : StateConn) : conn_heap (w_client w) !! k = Some c -> on_world (conn_at k) w = Ret c w.
Proof.
  intros E. rewrite (on_world_run _ w c (w_client w)); [by rewrite same_client|]. unfold conn_at. by rewrite (bind_Ret get _ _ _ _ eq_refl), E.
Qed.

(** *** Replies *)
Record reply_given (r : adbus_Reply) : Prop := {
  rg_remote : exists x, y_remote r = Some x /\ no_nul x;
  rg_proxy : y_proxy (y_hooks r) = None /\ y_puser (y_hooks r) = Null;
  rg_relproxy : relproxy (y_release (y_hooks r)) = None /\ relpuser (y_release (y_hooks r)) = Null }.

Lemma addreply_sized (lookup : option (list Z) -> Z -> M Client (option svcid)) (z : Z) (x y : list Z) (n k : Z) (h : ReplyHooks) (d : datid) (c : Client) : sized y k = sized x n ->
  Client.DoAddReply lookup d (mkReply z (Some y) k h) c = Client.DoAddReply lookup d (mkReply z (Some x) n h) c.
Proof. intros E. unfold Client.DoAddReply, addreply_. cbn [y_hooks y_serial y_remote y_remoteSize]. by rewrite E. Qed.

Lemma on_world_ext {A} (op1 op2 : M Client A) (w : World) : (forall c, op1 c = op2 c) -> on_world op1 w = on_world op2 w.
Proof. intros E. unfold on_world, on_part. by rewrite E. Qed.

Lemma reply_over (s : stid) (r : adbus_Reply) (w : World) : plain w s -> w_jobs w = [] -> reply_given r ->
  (run* addreply there s r in run_jobs) w = addreply here s r w.
Proof.
  intros Hp Hj [(x & Hx & Hn) [H1 H2] [H3 H4]]. unfold adbus_state_addreply. rewrite H1, H3. rewrite bind_assoc, !(bind_Ret (assert_ _) _ w w tt) by (apply assert_true; done).
  rewrite bind_assoc. pose proof (new_data_ready s w Hp) as H. unfold bind at 1. symmetry. unfold bind at 1. symmetry.
  rewrite Hthere, Hhere. destruct (new_data s w) as [[d k] w1| | | |]; try done. destruct H as [[(c & Ec & C1 & C2) (q & Eq & Q1 & Q2)] Hj1]. cbv iota beta.
  destruct (dup_sized x (y_remoteSize r) w1 Hn) as (y & n & Ed & Es & _). rewrite Hx, bind_assoc, (bind_Ret _ _ _ _ _ Ed).
  rewrite bind_assoc, (bind_Ret _ _ _ _ _ (rest_read k w1 q Eq)), bind_assoc, (bind_Ret _ _ _ _ _ (conn_read k w1 c Ec)).
  rewrite post_run by congruence. cbn [run_job fst snd]. unfold run_reply. unfold bind. rewrite Q1, Q2. unfold set_relproxy. rewrite C1, C2.
  assert (E : DoAddReply send_message conn_proxy d (mkReply (y_serial r) (Some y) n (mkReplyHooks (y_callback (y_hooks r)) (y_cuser (y_hooks r)) (y_error (y_hooks r)) (y_euser (y_hooks r)) None Null
    (mkRelease (release0 (y_release (y_hooks r))) (ruser0 (y_release (y_hooks r))) (release1 (y_release (y_hooks r))) (ruser1 (y_release (y_hooks r))) None Null))) w1 = DoAddReply send_message conn_proxy d r w1).
  { apply on_world_ext. intros c1. rewrite (addreply_sized _ (y_serial r) x y (y_remoteSize r) n) by done. destruct r as [z rm rs [? ? ? ? ? ? []]]; cbn in *; by subst. }
  by rewrite E.
Qed.

(** *** Matches *)
Record match_given (g : MatchReg) : Prop := {
  mg_strings : Forall (fun o => exists x, o = Some x /\ no_nul x)
    [sender (x_m g); destination (x_m g); interface (x_m g); path (x_m g); member (x_m g); x_error g];
  mg_arguments : arguments (x_m g) = [];
  mg_proxy : x_proxy g = None /\ x_puser g = Null;
  mg_relproxy : relproxy (x_release g) = None /\ relpuser (x_release g) = Null }.

(** The same string, in other memory. *)
Lemma addmatch_same (d : datid) (ty : MessageType) (x1 x2 x3 x4 x5 x6 y1 y2 y3 y4 y5 y6 : list Z) (n1 n2 n3 n4 n5 n6 k1 k2 k3 k4 k5 k6 : Z) (am : bool) (rs : Z)
  (cb : option MsgCallback) (cu : pointer) (p : option nat) (pu : pointer) (h : Release) (c : Client) :
  sized y1 k1 = sized x1 n1 -> sized y2 k2 = sized x2 n2 -> sized y3 k3 = sized x3 n3 -> sized y4 k4 = sized x4 n4 -> sized y5 k5 = sized x5 n5 -> sized y6 k6 = sized x6 n6 ->
  Client.DoAddMatch send_message (lookup_service send_message conn_proxy) conn_proxy d (mkMatchReg (mkCMatch ty (Some y1) k1 (Some y2) k2 (Some y3) k3 (Some y4) k4 (Some y5) k5 []) am rs (Some y6) k6 cb cu p pu h) c =
  Client.DoAddMatch send_message (lookup_service send_message conn_proxy) conn_proxy d (mkMatchReg (mkCMatch ty (Some x1) n1 (Some x2) n2 (Some x3) n3 (Some x4) n4 (Some x5) n5 []) am rs (Some x6) n6 cb cu p pu h) c.
Proof.
  intros E1 E2 E3 E4 E5 E6. assert (L : lookup_service send_message conn_proxy (Some y1) k1 = lookup_service send_message conn_proxy (Some x1) n1).
  { unfold lookup_service. cbn [adbusI_lookupService]. by rewrite E1. }
  assert (R : adbusI_relativePath y4 k4 [] 0 = adbusI_relativePath x4 n4 [] 0) by (unfold adbusI_relativePath; by rewrite E4).
  unfold Client.DoAddMatch, addmatch_, set_match_release, CloneMatch, CloneString.
  cbn [x_release x_m x_callback x_error x_errorSize x_addMatchToBusDaemon x_replySerial x_cuser x_proxy x_puser destination destinationSize interface interfaceSize member memberSize path pathSize sender senderSize cm_type arguments map].
  by rewrite L, R, E1, E2, E3, E5, E6.
Qed.

Lemma match_over (s : stid) (g : MatchReg) (w : World) : plain w s -> w_jobs w = [] -> match_given g ->
  (run* addmatch there s g in run_jobs) w = addmatch here s g w.
Proof.
  intros Hp Hj [Hs Ha [H1 H2] [H3 H4]]. destruct g as [[ty o1 n1 o2 n2 o3 n3 o4 n4 o5 n5 args] am rs o6 n6 cb cu p pu [f0 u0 f1 u1 rp ru]]. cbn in *. subst.
  repeat (apply Forall_cons in Hs as [(? & -> & ?) Hs]). clear Hs.
  unfold adbus_state_addmatch. cbn [x_proxy x_release relproxy x_m sender senderSize destination destinationSize interface interfaceSize path pathSize member memberSize arguments x_error x_errorSize].
  rewrite bind_assoc, !(bind_Ret (assert_ _) _ w w tt) by (apply assert_true; done).
  rewrite bind_assoc. pose proof (new_data_ready s w Hp) as Hd. unfold bind at 1. symmetry. unfold bind at 1. symmetry.
  rewrite Hthere, Hhere. destruct (new_data s w) as [[d k] w1| | | |]; try done. destruct Hd as [[(c & Ec & C1 & C2) (q & Eq & Q1 & Q2)] Hj1]. cbv iota beta.
  do 6 (match goal with |- context [DupString (Some ?x) ?n] => lazymatch goal with H : DupString (Some x) n _ = _ |- _ => fail | |- _ =>
      let y := fresh "y" in let j := fresh "j" in destruct (dup_sized x n w1 ltac:(assumption)) as (y & j & ? & ? & _) end end;
    rewrite bind_assoc; erewrite bind_Ret by eassumption).
  rewrite bind_assoc, (bind_Ret _ _ _ _ _ (rest_read k w1 q Eq)), bind_assoc, (bind_Ret _ _ _ _ _ (conn_read k w1 c Ec)).
  rewrite post_run by congruence. cbn [run_job]. unfold run_addmatch. assert (Em : mapM id (copied_args []) = Some ([] : list Argument)) by reflexivity. rewrite Em, (bind_Ret (of_option (Some [])) _ w1 w1 [] eq_refl).
  unfold strings_of, set_match_proxy, set_relproxy.
  cbn [fst snd x_m sender senderSize destination destinationSize interface interfaceSize path pathSize member memberSize x_error x_errorSize cm_type x_addMatchToBusDaemon x_replySerial x_callback x_cuser x_proxy x_puser x_release release0 ruser0 release1 ruser1].
  rewrite Q1, Q2, C1, C2. unfold bind. unfold DoAddMatch.
  erewrite on_world_ext; [reflexivity|]. intros c1. by apply addmatch_same.
Qed.

(** C12: registering from another thread, without proxies for the callbacks and
    with nothing else posted.  A reply with its remote set, or a match with all
    six strings set and no arguments, that a state registers from another
    thread is the same registration once the thread of the connection has run
    what was posted: the program is as if it had been registered on that
    thread, the copies of the strings included.  What happens to other matches
    and with proxies is below. *)
Theorem handed_over (s : stid) (w : World) : plain w s -> w_jobs w = [] ->
  (forall r, reply_given r -> (run* addreply there s r in run_jobs) w = addreply here s r w) /\
  (forall g, match_given g -> (run* addmatch there s g in run_jobs) w = addmatch here s g w).
Proof.
  intros Hp Hj. split; intros x Hx.
  - by apply reply_over.
  - by apply match_over.
Qed.
End HandedOver.

(** ** What goes wrong *)
Section Wrong.
Context {B : Build} (dh_order : forall A : Type, gmap (list Z) A -> list (list Z * A)) (send_message : option (Message -> Z)) (conn_proxy get_relproxy get_msgproxy : option (nat * pointer)).
Context (there : Callbacks) (Hthere : adbus_conn_shouldproxy there = true).

Lemma never_returns {S A C} (m : M S A) (k : A -> M S C) (s : S) : (forall a s', Prelude.returns (k a s') = false) -> Prelude.returns (bind m k s) = false.
Proof. intros H. unfold bind. destruct (m s); [apply H|done..]. Qed.

Lemma dup_unset (sz : Z) (w : World) : sz <> 0 -> DupString None sz w = Oob.
Proof. intros H. unfold DupString. by rewrite (proj2 (Z.eqb_neq _ _) H). Qed.

(** A match of which one string is not set (adbus_match_init gives it the size
    -1) is never handed over. *)
Lemma unset_string_crashes (s : stid) (g : MatchReg) (w : World) : let f := x_m g in
  Exists (fun p => fst p = None /\ snd p <> 0)
    [(sender f, senderSize f); (destination f, destinationSize f); (interface f, interfaceSize f); (path f, pathSize f); (member f, memberSize f); (x_error g, x_errorSize g)] ->
  Prelude.returns (adbus_state_addmatch dh_order send_message conn_proxy get_relproxy get_msgproxy there s g w) = false.
Proof.
  intros f H. unfold adbus_state_addmatch. apply never_returns. intros _ w1. apply never_returns. intros [d k] w2. cbv iota beta. rewrite Hthere. fold f.
  repeat (apply Exists_cons in H as [[Hn Hz]|H]; [cbn [fst snd] in Hn, Hz; rewrite Hn; unfold bind; by rewrite dup_unset|apply never_returns; intros ? ?]).
  by apply Exists_nil in H.
Qed.

(** A match with arguments is handed over, and the thread of the connection
    reads arguments that were not copied. *)
Lemma arguments_lost (d : datid) (g : MatchReg) (l : list Argument) (w : World) : l <> [] -> run_job dh_order send_message conn_proxy (ProxyAddMatch d g (copied_args l)) w = Oob.
Proof.
  intros Hl. cbn [run_job]. unfold run_addmatch. assert (E : mapM id (copied_args l) = None); [|by rewrite E].
  apply eq_None_not_Some. intros [y Hy]. apply mapM_Some in Hy. destruct (length l) as [|n] eqn:El; [by destruct l|].
  assert (Hi : copied_args l !! n = Some None).
  { unfold copied_args. rewrite list_lookup_imap. destruct (lookup_lt_is_Some_2 l n ltac:(lia)) as [a Ea]. rewrite Ea. cbn [fmap option_fmap option_map]. rewrite El. by rewrite (proj2 (Nat.leb_gt _ _)) by lia. }
  destruct (Forall2_lookup_l _ _ _ n None Hy Hi) as (a & _ & Ha). done.
Qed.
End Wrong.

(** ** Samples *)
Section Samples.
#[local] Existing Instance debug_build.

Definition there : Callbacks := mkCallbacks (Some true) true.
Definition here : Callbacks := mkCallbacks (Some false) true.
Definition send_all : option (Message -> Z) := Some msg_size.
Definition sample_world : option (stid * World) :=
  match adbus_state_new adbus_conn_new with Ret s c => Some (s, mkWorld c ∅ ∅ []) | _ => None end.
Definition sample_reply_reg : adbus_Reply :=
  mkReply 7 (Some (str ":1.5")) (-1) (mkReplyHooks (Some (UserCallback 1)) (User 2) None Null None Null (mkRelease (Some (UserRelease 3)) (User 4) None Null None Null)).
Definition sample_match_reg : MatchReg :=
  mkMatchReg (mkCMatch MSG_SIGNAL (Some (str ":1.5")) (-1) (Some (str ":1.9")) (-1) (Some (str "a.b")) (-1) (Some (str "/a")) (-1) (Some (str "m")) (-1) []) false (-1) (Some (str "e.f")) (-1)
    (Some (UserCallback 1)) (User 2) None Null release_zero.

Definition start : option World := snd <$> sample_world.
Definition run_start (op : M World unit) : outcome World unit := match start with Some w => op w | None => Nofuel end.
(** How many replies and matches there are afterwards. *)
Definition registered (o : outcome World unit) : option (nat * nat) := match o with Ret _ w => Some (length (replies (w_client w)), length (matches (w_client w))) | _ => None end.

Lemma handed_over_witness :
  run_start (run* adbus_state_addreply Objects.sample_order send_all None None None there 1%nat sample_reply_reg in run_jobs Objects.sample_order send_all None) =
  run_start (adbus_state_addreply Objects.sample_order send_all None None None here 1%nat sample_reply_reg) /\
  run_start (run* adbus_state_addmatch Objects.sample_order send_all None None None there 1%nat sample_match_reg in run_jobs Objects.sample_order send_all None) =
  run_start (adbus_state_addmatch Objects.sample_order send_all None None None here 1%nat sample_match_reg) /\
  registered (run_start (adbus_state_addreply Objects.sample_order send_all None None None here 1%nat sample_reply_reg)) = Some (1%nat, 0%nat) /\
  registered (run_start (adbus_state_addmatch Objects.sample_order send_all None None None here 1%nat sample_match_reg)) = Some (0%nat, 1%nat).
Proof.
  assert (H : exists w, start = Some w /\ plain w 1%nat /\ w_jobs w = []).
  { eexists. split; [reflexivity|]. split; [|reflexivity]. split; [intros k E; vm_compute in E; discriminate E|intros k r E; vm_compute in E; discriminate E]. }
  assert (Hn : forall P Q R S : Prop, P /\ Q -> R /\ S -> P /\ Q /\ R /\ S) by (intros P Q R S [? ?] [? ?]; auto). apply Hn; [|split; vm_compute; reflexivity].
  destruct H as (w & Ew & Hp & Hj). unfold run_start. rewrite Ew.
  destruct (handed_over Objects.sample_order send_all None there here eq_refl eq_refl 1%nat w Hp Hj) as [Hr Hm]. split; [apply Hr|apply Hm].
  - split; [eexists; split; [reflexivity|by apply no_nul_forallb]|by split|by split].
  - split; [|reflexivity|by split|by split]. repeat (apply Forall_cons; split; [eexists; split; [reflexivity|by apply no_nul_forallb]|]). apply Forall_nil. exact I.
Defined.

(** *** With proxies

    The release callback of the reply goes to the thread of the state, which
    has not run it yet when the list of the state is looked at: a debug build
    stops, and a release build frees the list that the callback uses. *)
Definition reset_away (B : Build) : M World unit :=
  run* adbus_state_addreply Objects.sample_order send_all None (Some (0%nat, User 9)) None there 1%nat sample_reply_reg in
  run* run_jobs Objects.sample_order send_all None in
  run* adbus_state_reset Objects.sample_order send_all None there 1%nat in
  run_jobs Objects.sample_order send_all None.
Definition after_reset (B : Build) : outcome World unit := run_start (reset_away B).

Lemma away_reset_stops : after_reset debug_build = Abort /\
  match after_reset release_build with
  | Ret _ w => exists d, last (log (w_client w)) = Some (ReleasedBy 0 (User 9) ReleaseDataCallback (TheData d)) /\
      run_local (ReleasedBy 0 (User 9) ReleaseDataCallback (TheData d)) w = Oob
  | _ => False
  end.
Proof. split; [vm_compute; reflexivity|]. vm_compute. eexists. repeat split. Qed.

(** *** Binds *)
Definition with_iface : M World unit :=
  on_world (modify (fun c => set_conn (Objects.set_ifaces (<[2%nat := Objects.adbus_iface_new (str "a.b") (-1)]> (Objects.ifaces (conn c))) (conn c)) c)).
Definition sample_binding : Objects.Bind :=
  Objects.mkBindArgs (str "/x/y") (-1) 2%nat (Objects.mkHooks (Objects.User 1) None Objects.Null (Some 5%nat) None (Objects.User 4) Objects.Null None Objects.Null).
Definition bound (cb : Callbacks) : M World unit :=
  run* with_iface in
  run* adbus_state_bind Objects.sample_order send_all None None None cb 1%nat sample_binding in
  run_jobs Objects.sample_order send_all None.
(** A bind that is handed over is the same bind; the reset of the state frees
    it, the objects at its path and the copy of the registration, and calls the
    release callback of the user once. *)
Lemma bind_and_reset : run_start (bound there) = run_start (bound here) /\
  match run_start (bound here) with
  | Ret _ w => base.size (w_bound w) = 1%nat /\ option_map Objects.i_ref (Objects.ifaces (conn (w_client w)) !! 2%nat) = Some 2 /\
      match adbus_state_reset Objects.sample_order send_all None here 1%nat w with
      | Ret _ w' => log (w_client w') = [Released (UserRelease 5) (User 4)] /\ w_bound w' = ∅ /\ w_rest w' = ∅ /\ data_heap (w_client w') = ∅ /\
          Objects.paths (conn (w_client w')) = ∅ /\ option_map Objects.i_ref (Objects.ifaces (conn (w_client w')) !! 2%nat) = Some 1 /\ c_ref (w_client w') = 1
      | _ => False
      end
  | _ => False
  end.
Proof. split; [vm_compute; reflexivity|]. vm_compute. repeat split. Qed.
End Samples.
